(* ===== verification/_CoqProject ===== *)
-Q . S2P
Prelude.v
GoStrings.v
Base64.v
Sha.v
Times.v
RateLimit.v
Errors.v
Totp.v
StoreTypes.v
Backoff.v
StoreQueue.v
QueueFacts.v
QueueProps.v
StoreDomains.v
DomainProps.v
StoreWebhooks.v
StoreCluster.v
Net.v
SmtpClient.v
Netlimit.v
Config.v
Dnsbl.v
MailUtil.v
Auth.v
Dsn.v
Filter.v
Routes.v
Dkim.v
Dmarc.v
StoreUsers.v
UserProps.v
RulesProps.v
Spam.v
Authres.v
World.v
Metrics.v
Backup.v
Clamav.v
Cluster.v
Blob.v
BlobProps.v
Api.v
Account.v
AccountProps.v
ApiProps.v
Webhook.v
WebhookProps.v
Alert.v
Health.v
Pages.v
PagesProps.v
UserPages.v
RulePages.v
OutboundPages.v
HookPages.v
StatusPages.v
ConfigIO.v
SecretProps.v
ConfigIOProps.v
ClusterPages.v
Arc.v
ArcProps.v
Outbound.v
Wiring.v
Oidc.v
OidcProps.v
Acme.v
Hub.v
Server.v
Scoped.v
Cli.v
Ctl.v
OutboundFacts.v
Sender.v
SenderFacts.v
SenderProps.v
Smtpd.v
SmtpdProps.v
Submission.v
SubmissionProps.v
