(* ===== verification/Prelude.v ===== *)
(** * XeronMX: a verification development

    XeronMX is a backup mail exchanger: it takes mail for configured domains while their
    primary server is down (internal/smtpd), keeps it encrypted on disk (internal/blob)
    with a row per message in SQLite (internal/store), hands it to the primary once
    probes find it up (internal/health, internal/sender), and sends the mail that
    authenticated clients submit (internal/submission) to its destinations, directly or
    through a relay.  It is administered over HTTP (internal/api), also by a command line
    client (cmd/xeronmxctl).  This development models that core as executable functions written
    after the Go sources and proves what makes it correct.

    ** How the program is modelled

    A Go string or byte slice is a list of bytes ([text]); int64 and time are [Z] (times
    in nanoseconds since 1970); an error is a value of [Errors.error] and a function that
    returns one gives a [result].  A table of the database is the list of its rows in
    rowid order, and a function is one SQL statement or one transaction: it returns what
    the statement returns and the new table, constraints enforced.  Timestamps compare as
    the database compares them, as text ([Times.time_leb]).

    The handlers of the servers and of the workers run in the state monad of [World]: the
    state they share (tables, spool, counters, notifications, conversations with other
    servers) and an environment that decides what the program does not, namely which
    statements and spool calls fail, how time passes, the random identifiers, how peers
    answer, and when a context ends.  A failed statement changes nothing.  Theorems about
    handlers quantify over every environment; [wp] and the [keeps] tactic carry their
    proofs, and a [mode] states what a conclusion assumes of it (no failing statements or spool
    calls, no deadlines, identifiers that are fresh, how a damaged file reads).  A handler runs without interleaving with others; what concurrent
    workers may do to each other is stated on the tables, over arbitrary histories of
    statements ([QueueProps], [UserProps], [DomainProps]).  Where the goroutines are the
    point, they are modelled: a health round is a list of tasks that a relation
    interleaves with each other and with the process ([Health.history], which keeps the steps), the alerter a machine whose timers, functions and
    channel are separate steps ([Alert.step]), the hub of live events one whose calls hold
    a read-write lock ([Hub.act]), the processes that open the spool take system calls in turn
    ([Blob.openings]), the zones of a block list answer in an
    order that is an argument.

    ** The files, and the sources they model

    - [GoStrings], [Base64], [Sha], [Net], [Times], [Errors]: the parts of Go's standard
      library the sources use (strings, strconv, encoding/base64, crypto/sha1, sha256 and
      hmac, net, time, errors).  Case and
      white space are those of ASCII.
    - [StoreTypes], [StoreQueue], [StoreDomains], [StoreUsers], [StoreWebhooks], [StoreCluster], and the tables in
      [Filter] and [Routes]: internal/store, a function per method of [store.DB].
      [Backoff] is the retry delay, in float64 rounded as the hardware does.
    - [RateLimit]: internal/ratelimit.  [Auth]: internal/auth.  [Totp]: internal/totp.
    - [MailUtil]: internal/mailutil.  [Dsn]: internal/dsn.  [Filter]: internal/filter.
      [Spam]: internal/spam.  [Authres]: internal/authres.
    - [World]: the shared state, internal/metrics, and the spool of bodies.  [Blob]: the
      encrypted files behind it, internal/blob.
    - [Outbound], [Sender]: internal/sender.  [Smtpd]: internal/smtpd.  [Submission]:
      internal/submission.
    - [SmtpClient]: internal/smtpclient.  [Health]: internal/health.  [Netlimit]:
      internal/netlimit, internal/proxy, internal/maintenance.  [Dnsbl]: internal/dnsbl.
      [Clamav]: internal/clamav.
    - [Arc]: internal/arc; its chain check is the ARC part of internal/authres, its seal is
      called by the delivery of forwarded mail.
    - [Dkim]: the making, publishing and checking of keys in internal/dkim.  [Dmarc]: internal/dmarc.
    - [Config]: internal/config.  [Wiring]: the settings cmd/xeronmx/main.go hands to each part.
    - [Oidc]: internal/oidc and internal/api/oidcauth.go.  [Acme]: internal/acme.  [Hub]:
      internal/api/hub.go.
    - [Cluster]: internal/cluster.  It reads and applies configurations through the interface
      [Cluster.ConfigSource], which [ClusterPages.server_source] implements with [ConfigIO].
    - [Api], [Account], [Pages]: internal/api, who may ask, the account pages, and the pages
      of domains, recipients, queue, events and submission accounts.  The other pages, a file
      per group: [UserPages] (users.go, tokens.go), [RulePages] (filters.go), [OutboundPages]
      (outbound.go, dmarc.go), [HookPages] (webhooks.go), [StatusPages] (security.go, the status and
      drain pages of handlers.go), [ConfigIO] (configio.go), [ClusterPages] (clusterapi.go).  [Server] is api.go: the table of
      routes with all of these behind their guards, the mux and the headers; [Scoped] is about it.  [Webhook]:
      internal/webhook.  [Alert]: internal/alert.
    - [Metrics]: the page of internal/metrics and the queries of internal/store/metrics.go.
      [Backup]: internal/backup, and the opening and migration of the database in
      internal/store/store.go.
    - [Cli], [Ctl]: cmd/xeronmxctl.  The client does its input and output step by step, so a run of it
      is an interaction tree ([Cli.prog]): it ends with an error or none, or it makes a request, reads or
      writes a file, looks at the clock or prints, and goes on with the answer.
    - The files named [...Facts] and [...Props] hold the lemmas and the theorems.

    ** What the theorems show

    - Intake ([SmtpdProps]): the server is never an open relay whatever a client sends;
      a message is taken whole or not at all, and what a failing spool may then be left with; and
      what is taken for the end of a message.
    - Submission ([SubmissionProps]): nothing is queued without the password of an account
      that may use the sender; whole or not at all, monthly usage included, and what faults may leave reserved.
    - Delivery ([OutboundFacts], [SenderFacts], [SenderProps]): no recipient is lost by a
      delivery, and what a server acknowledged is the spooled body; a transaction sorts recipients as the server answered; bounces cannot
      loop or go to strangers; order of the exchangers; and the two ways in which a
      delivery that is cut short goes wrong.
    - The queue ([QueueFacts], [QueueProps]): reachable tables are sound, a message is
      held by one worker at a time until one of the statements that end a claim, the claim is exactly the due messages, quarantine
      holds, listings stay in their domains.
    - Domains ([DomainProps]): probes implement their hysteresis, the recipient lists and
      the monthly limit mean what they say, histories keep the tables sound.
    - Accounts ([UserProps], [Auth], [RateLimit]): an administrator remains, a deleted
      account is out, a second factor is spent once, passwords verify, attempts are
      bounded.
    - Signing in ([AccountProps], [ApiProps], [Totp]): what a login takes, that no second
      factor serves twice whatever requests come between, that enrolment gives a secret
      whose codes are then accepted; what a guard lets through, and that a token or a
      list of domains never widens it.
    - The whole server ([Server]): whatever request is sent, to whatever path, nobody but an
      administrator changes the configuration or who may do what, the first set-up and the
      callback of the identity provider apart.
    - Limited accounts ([Scoped]): over the whole table of routes, an account limited to some domains is shown
      and changes nothing of the others, and its replies, counts included, depend on nothing it may not see: [same] relates
      two runs from states that are [alike] for it (the drain page, which counts everything, apart).
    - Pages ([PagesProps]): each handler on its own for such an account, and what the domain pages store is well formed.
    - Secrets ([SecretProps]): pages answer alike for servers that differ in their secrets only
      (a relational argument: [unseeing] computations cannot tell a state from its [blind]
      copy), what is stored sealed opens to what was given, a key signs once it is published;
      a token works as it was shown ([UserPages]); a published key is found ([Dkim]).
    - Configuration and cluster ([ConfigIOProps], [Cluster], [ClusterPages]): importing an
      export changes nothing; calls between members are authentic, the name of the caller apart; a node follows only the one
      healthy primary, whatever implements the configuration interface.
    - Settings ([Wiring]): whatever loads is what was checked, as each part uses it, with the
      two settings that are not checked.
    - The identity provider ([OidcProps]): a sign-in is for the account a verified token of this
      very flow names; the provider is asked until it answers.  Certificates ([Acme]): requests are
      bounded, and a failure takes no certificate away.  Live events ([Hub]): no call panics or
      waits for a dashboard, in any interleaving.
    - Sealing ([ArcProps]): a message sealed on a chain that verifies, verifies again.
    - Webhooks ([WebhookProps]): no event is lost over failures and restarts, what a
      round does to each delivery, and that deliveries settle.  Alerts ([Alert]): their
      spacing, the bound of the channel, and how a stale alert escapes.
    - Connections ([SmtpClient], [Health], [Netlimit], [Dnsbl], [Clamav]): a session speaks
      only on a channel the TLS mode allows and, when asked, only to public addresses; a
      health round probes the primary of each domain and records what the probe found; the slots of a listener are
      exactly its open connections; a block list refuses exactly the listed addresses outside the private and the operator's ranges, in
      whatever order the zones answer; a
      malware verdict is about the whole message.
    - The spool ([BlobProps]): round trip, authenticity, one master key whatever processes open it and
      fail in between, and the refinement that justifies the spool of [World].
    - Metrics ([Metrics]): a page reads back, by the definition of the exposition format, as what
      the tables and the counters hold, whatever the bytes of a name, and what a failing database makes of it.  Backups and migration
      ([Backup]): a database is migrated whole or not at all; a backup that went well is kept,
      and how a clock that was set back loses one.
    - The client ([Ctl]): whatever it is given and answered, it asks the server its flags, environment or file name
      for pages of the route table of [Server] only, and changes something only for commands
      meant to ([asks], by a walk through every command); waiting for an empty queue ends well only
      when the server says so ([follows]).  Sizes always print, texts are cut to their width ([Cli]).
    - Text ([MailUtil], [Dsn], [RulesProps]): no injection through the trace field or
      a report, the subject, the first matching rule, the longest route.

    ** Fuel

    Loops over lists are structural.  Where the source loops on a condition, the function
    takes fuel and gives [None] without enough: [Blob.put_loop], [Blob.Read] and
    [Blob.drain], for which the theorems of [BlobProps] give the bytes left as enough;
    and [Sender.pass], whose rounds the source does not bound either (it goes on while
    full batches are due).  The address parser of [Net] takes one unit for each of the at
    most eight groups of an address, and [Clamav.unframe], clamd's reading of the frames, one
    for each byte.  The parser of flags takes one for each argument ([Cli.parse_flags_enough]), the
    unit of a size at most ten ([Cli.bytesHuman_total]), the reading back of labels one for
    each label ([Metrics.read_labels_text]).  [Ctl.drain_wait] counts the ticks before the user
    interrupts: any number of them is allowed.

    ** Parameters

    Regular expressions, the public suffix list, SPF and DKIM evaluation and DKIM signing,
    RSA and Ed25519 keys and signatures, rspamd exchanges, what a connection answers, argon2id, AES-GCM, HKDF, JSON encoding and the decoding of request bodies ([BodyLib]), URL parsing, the
    picture of an address, YAML, net/http and DNS over HTTPS, DMARC records, the generation of keys,
    the environment and files, the scripts of the database migrations, the decoding of answers in the client ([EnvelopeLib], [CtlLib]), OAuth2 and the verification of identity tokens, autocert, and
    the texts of SMTP replies belong to libraries or services:
    they are classes or arguments.  Laws are
    assumed of AES-GCM ([AEADLaws]), of argon2id (the length of a key) and of a signature
    and the published key of its signer ([ArcProps]), of a source of configurations
    ([ConfigSourceLaws]) and of the JSON of a sign-in ([OIDCLaws]) only, and hold of the instances
    the examples use.

    ** Not modelled

    Logging; the set-up of listeners, signals and goroutines in cmd/xeronmx/main.go, which calls
    what is modelled; the web site and its file server (internal/ui), the table of error codes
    (internal/api/codes.go, whose texts the handlers answer) and the version set by the linker;
    the requests the ACME library makes; the text of the SQL statements, which the functions of the
    store state as what they do to the rows; the layout of the columns the client prints.
    Components marked as partly modelled call libraries for the rest: the SMTP server library in
    front of the sessions, message parsing and signing, encryption. *)

From stdpp Require Export base decidable list gmap strings sorting pretty.
From Stdlib Require Export Ascii.
From Stdlib Require String.

Open Scope Z_scope.

(** ** Byte strings

    A Go [string] or [[]byte] is a list of bytes; string literals are coerced. *)

Notation text := (list ascii).

Definition T (s : string) : list ascii := String.list_ascii_of_string s.
Coercion T : string >-> list.

(** The byte values the sources name by escape sequences. *)
Definition CR : ascii := "013"%char.
Definition LF : ascii := "010"%char.
Definition TAB : ascii := "009"%char.
Definition SP : ascii := " "%char.
Definition DQ : ascii := "034"%char.
Definition CRLF : text := [CR; LF].

(** The code of a byte, as Go's [byte] and (for ASCII) [rune] comparisons read it. *)
Definition code (c : ascii) : Z := Z.of_nat (nat_of_ascii c).

Lemma code_inj c d : code c = code d -> c = d.
Proof.
  unfold code. intros H%Nat2Z.inj.
  rewrite <- (ascii_nat_embedding c), <- (ascii_nat_embedding d). by f_equal.
Qed.

Lemma code_range c : 0 <= code c < 256.
Proof. unfold code. pose proof (nat_ascii_bounded c). lia. Qed.

(** [fmt.Sprintf("%d", n)] and [strconv.Itoa]. *)
Definition dec (n : Z) : text := T (pretty n).

(** ** Automation shared by the development *)

Create HintDb xmx.

(** Turn the boolean tests of the sources into propositions. *)
Ltac bools :=
  repeat match goal with
  | H : bool_decide _ = true |- _ => apply bool_decide_eq_true in H
  | H : bool_decide _ = false |- _ => apply bool_decide_eq_false in H
  | H : (_ && _)%bool = true |- _ => apply andb_true_iff in H as [? ?]
  | H : negb _ = false |- _ => apply negb_false_iff in H
  | H : (_ || _)%bool = false |- _ => apply orb_false_iff in H as [? ?]
  | H : negb _ = true |- _ => apply negb_true_iff in H
  | H : (_ <=? _)%Z = true |- _ => apply Z.leb_le in H
  | H : (_ <=? _)%Z = false |- _ => apply Z.leb_gt in H
  | H : (_ <? _)%Z = true |- _ => apply Z.ltb_lt in H
  | H : (_ <? _)%Z = false |- _ => apply Z.ltb_ge in H
  | H : (_ =? _)%Z = true |- _ => apply Z.eqb_eq in H
  | H : (_ =? _)%Z = false |- _ => apply Z.eqb_neq in H
  end.

(** Case analysis on the innermost scrutinee of a goal that is a match. *)
Ltac split_match :=
  match goal with
  | |- context [match ?x with _ => _ end] =>
      lazymatch x with context [match _ with _ => _ end] => fail | _ => idtac end;
      destruct x eqn:?
  end.

Ltac split_match_in H :=
  match type of H with
  | context [match ?x with _ => _ end] =>
      lazymatch x with context [match _ with _ => _ end] => fail | _ => idtac end;
      destruct x eqn:?
  end.

(** ** Generic lemmas *)

Section lists.
Context {A B : Type}.

(** [filter] by a boolean and by its negation split a list in two. *)
Lemma filter_split_perm (f : A -> bool) (l : list A) :
  l ≡ₚ List.filter f l ++ List.filter (fun x => negb (f x)) l.
Proof.
  induction l as [|x l IH]; cbn; [done|].
  destruct (f x); cbn; [by rewrite <- IH|].
  rewrite IH at 1. apply Permutation_middle.
Qed.

Lemma Forall_List_filter (f : A -> bool) (l : list A) :
  Forall (fun x => f x = true) (List.filter f l).
Proof. induction l as [|x l IH]; cbn; [constructor|]. destruct (f x) eqn:E; auto. Qed.

Lemma sublist_List_filter (f : A -> bool) (l : list A) : List.filter f l `sublist_of` l.
Proof. induction l as [|a l IH]; cbn; [done|]. destruct (f a); by constructor. Qed.

Lemma elem_of_List_filter (f : A -> bool) (l : list A) x :
  x ∈ List.filter f l <-> f x = true /\ x ∈ l.
Proof. rewrite !list_elem_of_In, filter_In. tauto. Qed.

Lemma length_List_filter_le (f : A -> bool) (l : list A) :
  (length (List.filter f l) <= length l)%nat.
Proof. induction l as [|x l IH]; cbn; [lia|]. destruct (f x); cbn; lia. Qed.

Lemma NoDup_map_unique {K} (f : A -> K) (l : list A) x y :
  NoDup (map f l) -> x ∈ l -> y ∈ l -> f x = f y -> x = y.
Proof.
  induction l as [|a l IH]; intros Hn Hx Hy E; [inv Hx|]. cbn in Hn. apply NoDup_cons in Hn as [Ha Hn].
  apply elem_of_cons in Hx as [-> |Hx], Hy as [-> |Hy]; [done| | |auto]; exfalso; apply Ha.
  - rewrite E. by apply list_elem_of_fmap_2.
  - rewrite <- E. by apply list_elem_of_fmap_2.
Qed.

Lemma list_nil_iff_no_elem (l : list A) : (forall x, x ∉ l) -> l = [].
Proof. destruct l as [|x l]; [done|]. intros H. destruct (H x). apply list_elem_of_here. Qed.

Lemma List_filter_all (f : A -> bool) (l : list A) :
  (forall x, x ∈ l -> f x = true) -> List.filter f l = l.
Proof.
  induction l as [|x l IH]; intros H; cbn; [done|].
  rewrite H by apply list_elem_of_here. f_equal. apply IH. intros y Hy. apply H.
  by apply list_elem_of_further.
Qed.

Lemma existsb_elem (f : A -> bool) (l : list A) :
  existsb f l = true <-> exists x, x ∈ l /\ f x = true.
Proof. rewrite existsb_exists. by setoid_rewrite list_elem_of_In. Qed.

Lemma find_snoc (f : A -> bool) (l : list A) x : existsb f l = false -> find f (l ++ [x]) = if f x then Some x else None.
Proof. induction l as [|y l IH]; cbn; [done|]. destruct (f y); [done|auto]. Qed.

Lemma elem_of_map (f : A -> B) (l : list A) y : y ∈ map f l <-> exists x, y = f x /\ x ∈ l.
Proof.
  rewrite list_elem_of_In, in_map_iff. setoid_rewrite list_elem_of_In.
  split; intros (x & ? & ?); eauto.
Qed.

Lemma elem_of_map_2 (f : A -> B) (l : list A) x : x ∈ l -> f x ∈ map f l.
Proof. intros Hx. apply elem_of_map. eauto. Qed.
End lists.

(** Sorting commutes with a function that keeps the order. *)
Section sort_map.
Context {A B : Type} (R : relation A) (S : relation B) `{!RelDecision R, !RelDecision S} (g : A -> B).
Context (HRS : forall x y, S (g x) (g y) <-> R x y).

Lemma list_merge_map l1 l2 : list_merge S (map g l1) (map g l2) = map g (list_merge R l1 l2).
Proof.
  revert l2. induction l1 as [|x l1 IH1]; intros l2; [by destruct l2|].
  induction l2 as [|y l2 IH2]; [done|]. cbn [map list_merge] in *.
  destruct (decide (S (g x) (g y))) as [H|H]; rewrite HRS in H; destruct (decide (R x y)); try done.
  - cbn. f_equal. apply (IH1 (y :: l2)).
  - cbn. f_equal. exact IH2.
Qed.

Lemma merge_list_to_stack_map st l :
  merge_list_to_stack S (map (option_map (map g)) st) (map g l) = map (option_map (map g)) (merge_list_to_stack R st l).
Proof.
  revert l. induction st as [|[l'|] st IH]; intros l; [done| |done]. cbn. f_equal. by rewrite list_merge_map, IH.
Qed.

Lemma merge_stack_map st : merge_stack S (map (option_map (map g)) st) = map g (merge_stack R st).
Proof. induction st as [|[l|] st IH]; [done| |done]. cbn. by rewrite IH, list_merge_map. Qed.

Lemma merge_sort_map l : merge_sort S (map g l) = map g (merge_sort R l).
Proof.
  unfold merge_sort. change (@nil (option (list B))) with (map (option_map (map g)) []). generalize (@nil (option (list A))) as st.
  induction l as [|x l IH]; intros st; [apply merge_stack_map|]. cbn [map merge_sort_aux].
  rewrite <- IH. f_equal. apply (merge_list_to_stack_map st [x]).
Qed.
End sort_map.
