(* ===== verification/GoStrings.v ===== *)
(** * The part of Go's [strings], [bytes] and [strconv] the sources use

    Functions on byte strings, written the way the standard library specifies
    them, with the lemmas the components share.  [to_lower], [equal_fold] and
    [trim_space] are given on ASCII: a byte above 0x7f is left alone, where Go
    consults its Unicode tables. *)

From S2P Require Import Prelude.

(** ** Character classes *)

Definition lower_char (c : ascii) : ascii :=
  if (65 <=? code c) && (code c <=? 90) then ascii_of_nat (nat_of_ascii c + 32) else c.

Definition upper_char (c : ascii) : ascii :=
  if (97 <=? code c) && (code c <=? 122) then ascii_of_nat (nat_of_ascii c - 32) else c.

Definition is_space (c : ascii) : bool :=
  (code c =? 32) || ((9 <=? code c) && (code c <=? 13)).

Definition is_digit (c : ascii) : bool := (48 <=? code c) && (code c <=? 57).

(** ** Case *)

Definition to_lower (s : text) : text := map lower_char s.
Definition to_upper (s : text) : text := map upper_char s.
Definition equal_fold (s t : text) : bool := bool_decide (to_lower s = to_lower t).

(** ** Prefixes and suffixes *)

Fixpoint has_prefix (p s : text) : bool :=
  match p, s with
  | [], _ => true
  | c :: p, d :: s => bool_decide (c = d) && has_prefix p s
  | _ :: _, [] => false
  end.

Definition has_suffix (p s : text) : bool := has_prefix (rev p) (rev s).

Definition trim_prefix (p s : text) : text :=
  if has_prefix p s then drop (length p) s else s.

Definition trim_suffix (p s : text) : text :=
  if has_suffix p s then take (length s - length p) s else s.

(** ** Trimming *)

Fixpoint trim_left (f : ascii -> bool) (s : text) : text :=
  match s with
  | c :: r => if f c then trim_left f r else s
  | [] => []
  end.

Definition trim_right (f : ascii -> bool) (s : text) : text := rev (trim_left f (rev s)).

Definition trim_space (s : text) : text := trim_right is_space (trim_left is_space s).

(** ** Searching *)

(** [strings.IndexByte]; [None] is Go's -1. *)
Fixpoint index_byte (c : ascii) (s : text) : option nat :=
  match s with
  | [] => None
  | d :: r => if bool_decide (d = c) then Some O else S <$> index_byte c r
  end.

(** [strings.LastIndex] of a one-byte needle. *)
Fixpoint last_index (c : ascii) (s : text) : option nat :=
  match s with
  | [] => None
  | d :: r =>
      match last_index c r with
      | Some i => Some (S i)
      | None => if bool_decide (d = c) then Some O else None
      end
  end.

Fixpoint contains (needle s : text) : bool :=
  has_prefix needle s || match s with [] => false | _ :: r => contains needle r end.

(** ** Splitting, joining, replacing *)

(** [strings.Split] with a one-byte separator: never empty. *)
Fixpoint split_byte (sep : ascii) (s : text) : list text :=
  match s with
  | [] => [[]]
  | c :: r =>
      if bool_decide (c = sep) then [] :: split_byte sep r
      else match split_byte sep r with
           | [] => [[c]]
           | l :: ls => (c :: l) :: ls
           end
  end.

Fixpoint join (sep : text) (parts : list text) : text :=
  match parts with
  | [] => []
  | [p] => p
  | p :: ps => p ++ sep ++ join sep ps
  end.

(** [strings.ReplaceAll(s, "\r\n", "\n")]. *)
Fixpoint crlf_to_lf (s : text) : text :=
  match s with
  | c :: ((d :: r) as s') =>
      if bool_decide (c = CR) && bool_decide (d = LF) then LF :: crlf_to_lf r
      else c :: crlf_to_lf s'
  | _ => s
  end.

(** [strings.ReplaceAll(s, x, "")] of a one-byte needle. *)
Definition remove_byte (c : ascii) (s : text) : text :=
  List.filter (fun d => negb (bool_decide (d = c))) s.

(** [strconv.Quote] ([fmt]'s %q); a byte above 0x7f is left alone. *)
Definition hex_lower (n : Z) : ascii :=
  nth (Z.to_nat n) (T "0123456789abcdef") "0"%char.

Definition quote_char (c : ascii) : text :=
  let n := code c in
  if bool_decide (c = DQ) then ["\"%char; DQ]
  else if bool_decide (c = "\"%char) then "\\"%string
  else if (32 <=? n) && negb (n =? 127) then [c]
  else match n with
       | 7 => "\a"%string | 8 => "\b"%string | 12 => "\f"%string | 10 => "\n"%string
       | 13 => "\r"%string | 9 => "\t"%string | 11 => "\v"%string
       | _ => "\x"%string ++ [hex_lower (n / 16); hex_lower (n mod 16)]
       end.

Definition quote (s : text) : text := [DQ] ++ concat (map quote_char s) ++ [DQ].

(** ** Lemmas *)

Lemma lower_char_idemp c : lower_char (lower_char c) = lower_char c.
Proof. destruct c as [[] [] [] [] [] [] [] []]; reflexivity. Qed.

Lemma to_lower_idemp s : to_lower (to_lower s) = to_lower s.
Proof. unfold to_lower. rewrite map_map. apply map_ext, lower_char_idemp. Qed.

Lemma to_lower_app s t : to_lower (s ++ t) = to_lower s ++ to_lower t.
Proof. apply map_app. Qed.

Lemma length_to_lower s : length (to_lower s) = length s.
Proof. apply length_map. Qed.

Lemma equal_fold_spec s t : equal_fold s t = true <-> to_lower s = to_lower t.
Proof. apply bool_decide_eq_true. Qed.

Lemma has_prefix_spec p s : has_prefix p s = true <-> exists r, s = p ++ r.
Proof.
  revert s. induction p as [|c p IH]; intros s; cbn; [naive_solver|].
  destruct s as [|d s]; [naive_solver|].
  rewrite andb_true_iff, bool_decide_eq_true, IH.
  split; [intros [-> [r ->]]; eauto | intros [r [= -> ->]]; eauto].
Qed.

Lemma has_suffix_spec p s : has_suffix p s = true <-> exists r, s = r ++ p.
Proof.
  unfold has_suffix. rewrite has_prefix_spec. split.
  - intros [r Hr]. exists (rev r). rewrite <- (rev_involutive s), Hr, rev_app_distr.
    by rewrite rev_involutive.
  - intros [r ->]. exists (rev r). by rewrite rev_app_distr.
Qed.

Lemma contains_spec n s : contains n s = true <-> exists l r, s = l ++ n ++ r.
Proof.
  split.
  - induction s as [|c s IH]; cbn; intros H.
    + apply orb_true_iff in H as [H|]; [|done]. apply has_prefix_spec in H as [r ->]. by exists [], r.
    + apply orb_true_iff in H as [H|H]; [apply has_prefix_spec in H as [r ->]; by exists [], r|].
      destruct (IH H) as (l & r & ->). by exists (c :: l), r.
  - intros (l & r & ->). induction l as [|c l IH]; cbn.
    + destruct (n ++ r) eqn:E; cbn; rewrite <- ?E; apply orb_true_iff; left; apply has_prefix_spec; [|by exists r].
      exists []. by destruct n.
    + rewrite IH. apply orb_true_r.
Qed.

Lemma trim_suffix_app p s : trim_suffix p (s ++ p) = s.
Proof.
  unfold trim_suffix. replace (has_suffix p (s ++ p)) with true.
  - rewrite length_app. replace (length s + length p - length p)%nat with (length s) by lia.
    apply take_app_length.
  - symmetry. apply has_suffix_spec. eauto.
Qed.

Lemma trim_left_id f s :
  match s with c :: _ => f c = false | [] => True end -> trim_left f s = s.
Proof. destruct s; cbn; [done|]. by intros ->. Qed.

Lemma trim_left_head f s :
  match trim_left f s with c :: _ => f c = false | [] => True end.
Proof. induction s as [|c s IH]; cbn; [done|]. destruct (f c) eqn:E; [done|]. by rewrite E. Qed.

Lemma trim_left_elem f s x : x ∈ trim_left f s -> x ∈ s.
Proof.
  induction s as [|c s IH]; cbn; [done|]. destruct (f c); [|done].
  intros Hx. apply list_elem_of_further. auto.
Qed.

Lemma elem_of_rev {A} (x : A) (s : list A) : x ∈ rev s <-> x ∈ s.
Proof. by rewrite !list_elem_of_In, <- in_rev. Qed.

Lemma trim_right_elem f s x : x ∈ trim_right f s -> x ∈ s.
Proof. unfold trim_right. rewrite elem_of_rev. intros H%trim_left_elem. by apply elem_of_rev. Qed.

Lemma trim_space_elem s x : x ∈ trim_space s -> x ∈ s.
Proof. unfold trim_space. eauto using trim_right_elem, trim_left_elem. Qed.

(** The defining properties of [strings.LastIndex]. *)
Lemma last_index_None c s : last_index c s = None <-> c ∉ s.
Proof.
  induction s as [|d s IH]; cbn; [set_solver|].
  rewrite not_elem_of_cons, <- IH.
  destruct (last_index c s); [naive_solver|]. case_bool_decide; naive_solver.
Qed.

Lemma last_index_app c l r : c ∉ r -> last_index c (l ++ c :: r) = Some (length l).
Proof.
  intros Hr%last_index_None. induction l as [|d l IH]; cbn.
  - rewrite Hr. by rewrite bool_decide_eq_true_2.
  - by rewrite IH.
Qed.

Lemma last_index_Some c s i :
  last_index c s = Some i -> exists l r, s = l ++ c :: r /\ length l = i /\ c ∉ r.
Proof.
  revert i. induction s as [|d s IH]; intros i; cbn; [done|].
  destruct (last_index c s) as [j|] eqn:E.
  - intros [= <-]. destruct (IH j eq_refl) as (l & r & -> & <- & Hr). by exists (d :: l), r.
  - case_bool_decide; [|done]. intros [= <-]. subst. exists [], s.
    split_and!; [done..|]. by apply last_index_None.
Qed.

Lemma index_byte_None c s : index_byte c s = None <-> c ∉ s.
Proof.
  induction s as [|d s IH]; cbn; [set_solver|].
  rewrite not_elem_of_cons, <- IH. case_bool_decide; [naive_solver|].
  destruct (index_byte c s); naive_solver.
Qed.

Lemma index_byte_Some c s i :
  index_byte c s = Some i -> exists l r, s = l ++ c :: r /\ length l = i /\ c ∉ l.
Proof.
  revert i. induction s as [|d s IH]; intros i; cbn; [done|].
  case_bool_decide as Hd.
  - intros [= <-]. subst. exists [], s. split_and!; [done..|set_solver].
  - destruct (index_byte c s) as [j|] eqn:E; [|done]. intros [= <-].
    destruct (IH j eq_refl) as (l & r & -> & <- & Hl).
    exists (d :: l), r. split_and!; [done..|set_solver].
Qed.

(** Splitting at a byte and joining with it are inverse. *)
Lemma split_byte_nonempty c s : split_byte c s <> [].
Proof. destruct s as [|d s]; cbn; [done|]. case_bool_decide; [done|]. by destruct (split_byte c s). Qed.

Lemma join_cons sep p ps : ps <> [] -> join sep (p :: ps) = p ++ sep ++ join sep ps.
Proof. by destruct ps. Qed.

Lemma join_split c s : join [c] (split_byte c s) = s.
Proof.
  induction s as [|d s IH]; cbn [split_byte]; [done|].
  pose proof (split_byte_nonempty c s). case_bool_decide as Hd.
  - rewrite join_cons by done. rewrite IH. by subst.
  - destruct (split_byte c s) as [|l ls]; [done|].
    destruct ls as [|l' ls]; cbn in IH |- *; by rewrite <- IH.
Qed.

Lemma split_byte_no_sep c s : Forall (fun l => c ∉ l) (split_byte c s).
Proof.
  induction s as [|d s IH]; cbn; [repeat constructor; set_solver|].
  case_bool_decide as Hd; [constructor; [set_solver|done]|].
  destruct (split_byte c s) as [|l ls]; [repeat constructor; set_solver|].
  inversion IH; subst. constructor; [set_solver|done].
Qed.

Lemma split_byte_app c l s : c ∉ l -> split_byte c (l ++ c :: s) = l :: split_byte c s.
Proof.
  induction l as [|d l IH]; intros Hc; cbn.
  - by rewrite bool_decide_eq_true_2.
  - rewrite not_elem_of_cons in Hc. destruct Hc as [Hd Hl].
    rewrite bool_decide_eq_false_2 by done. by rewrite IH.
Qed.

Lemma split_byte_id c s : c ∉ s -> split_byte c s = [s].
Proof.
  induction s as [|d s IH]; intros Hc; cbn; [done|].
  rewrite not_elem_of_cons in Hc. destruct Hc as [Hd Hs].
  rewrite bool_decide_eq_false_2 by done. by rewrite IH.
Qed.

Lemma split_join c ps : ps <> [] -> Forall (fun p => c ∉ p) ps -> split_byte c (join [c] ps) = ps.
Proof.
  intros Hne Hps. induction Hps as [|p ps Hp _ IH]; [done|]. destruct ps as [|q ps]; [by apply split_byte_id|].
  rewrite join_cons by done. cbn [app]. rewrite split_byte_app by done. by rewrite IH.
Qed.

(** [crlf_to_lf] works line by line. *)
Lemma crlf_to_lf_line l s : CR ∉ l -> crlf_to_lf (l ++ CRLF ++ s) = l ++ LF :: crlf_to_lf s.
Proof.
  induction l as [|d l IH]; intros Hc; [done|].
  rewrite not_elem_of_cons in Hc. destruct Hc as [Hd Hl].
  specialize (IH Hl). destruct l as [|e l].
  - cbn [app] in *. cbn -[CR LF] in *. destruct (bool_decide_reflect (d = CR)); [by subst|].
    cbn [andb]. by f_equal.
  - cbn [app] in *. change (crlf_to_lf (d :: e :: l ++ CRLF ++ s)) with
      (if bool_decide (d = CR) && bool_decide (e = LF)
       then LF :: crlf_to_lf (l ++ CRLF ++ s)
       else d :: crlf_to_lf (e :: l ++ CRLF ++ s)).
    rewrite (bool_decide_eq_false_2 (d = CR)) by done. cbn [andb]. by rewrite IH.
Qed.

Lemma remove_byte_notin c s : c ∉ remove_byte c s.
Proof.
  unfold remove_byte. rewrite elem_of_List_filter. intros [H _].
  by rewrite bool_decide_eq_true_2 in H.
Qed.

(** ** Text without line breaks *)

Definition no_break (s : text) : Prop := (CR ∉ s) /\ (LF ∉ s).

#[export] Instance no_break_dec s : Decision (no_break s).
Proof. unfold no_break. apply _. Defined.

Lemma no_break_nil : no_break [].
Proof. split; set_solver. Qed.

Lemma no_break_app s t : no_break (s ++ t) <-> no_break s /\ no_break t.
Proof. unfold no_break. rewrite !not_elem_of_app. tauto. Qed.

Lemma no_break_cons c s : no_break (c :: s) <-> (c <> CR /\ c <> LF) /\ no_break s.
Proof. unfold no_break. rewrite !not_elem_of_cons. naive_solver. Qed.

Lemma no_break_elems s t : (forall c, c ∈ s -> c ∈ t) -> no_break t -> no_break s.
Proof. unfold no_break. naive_solver. Qed.

Lemma no_break_lit s : bool_decide (no_break s) = true -> no_break s.
Proof. by rewrite bool_decide_eq_true. Qed.

Lemma no_break_filter f s : f CR = false -> f LF = false -> no_break (List.filter f s).
Proof. unfold no_break. rewrite !elem_of_List_filter. intros -> ->. naive_solver. Qed.

Lemma no_break_take n s : no_break s -> no_break (take n s).
Proof.
  apply no_break_elems. intros c Hc. rewrite <- (take_drop n s). apply elem_of_app. by left.
Qed.

Lemma no_break_drop n s : no_break s -> no_break (drop n s).
Proof.
  apply no_break_elems. intros c Hc. rewrite <- (take_drop n s). apply elem_of_app. by right.
Qed.

(** Prove that a concatenation of literals and known parts has no line break. *)
Ltac no_breaks :=
  repeat (rewrite no_break_app; split);
  try solve [ assumption | apply no_break_nil | apply no_break_lit; reflexivity
            | eauto using no_break_nil with xmx ].

#[export] Hint Resolve no_break_take no_break_drop : xmx.

(** ** Trimming *)

Lemma trim_left_none (f : ascii -> bool) s : (forall c, c ∈ s -> f c = false) -> trim_left f s = s.
Proof. destruct s as [|c s]; [done|]. intros H. cbn. by rewrite H by apply list_elem_of_here. Qed.

Lemma trim_space_none s : (forall c, c ∈ s -> is_space c = false) -> trim_space s = s.
Proof.
  intros H. unfold trim_space, trim_right. rewrite (trim_left_none is_space s) by done.
  rewrite trim_left_none; [apply rev_involutive|]. intros c. rewrite elem_of_rev. apply H.
Qed.

(** Where trimming stops. *)
Definition trimmed (s : text) : Prop :=
  match s with c :: _ => is_space c = false | [] => True end /\
  match rev s with c :: _ => is_space c = false | [] => True end.

Lemma trim_space_trimmed s : trimmed (trim_space s).
Proof.
  unfold trimmed, trim_space, trim_right. rewrite rev_involutive. split; [|apply trim_left_head].
  pose proof (trim_left_head is_space s) as Hh. set (t := trim_left is_space s) in *.
  assert (Hp : exists k, t = rev (trim_left is_space (rev t)) ++ k).
  { clear. cut (exists k, rev t = k ++ trim_left is_space (rev t)).
    { intros [k Hk]. exists (rev k). rewrite <- rev_app_distr, <- Hk. symmetry. apply rev_involutive. }
    induction (rev t) as [|c l [k IH]]; [by exists []|]. cbn. destruct (is_space c); [|by exists []].
    exists (c :: k). cbn. by rewrite <- IH. }
  destruct Hp as [k Hk]. destruct (rev (trim_left is_space (rev t))) as [|c l]; [done|].
  by rewrite Hk in Hh.
Qed.

Lemma trim_space_id s : trimmed s -> trim_space s = s.
Proof.
  intros [Hl Hr]. unfold trim_space, trim_right. rewrite (trim_left_id is_space s), trim_left_id by done.
  apply rev_involutive.
Qed.

(** ** Numbers *)

(** [strconv.ParseInt(v, 10, 64)]. *)
Fixpoint decimal (acc : Z) (s : text) : option Z :=
  match s with
  | [] => Some acc
  | c :: r => if is_digit c then decimal (acc * 10 + (code c - 48)) r else None
  end.

Definition ParseInt64 (s : text) : option Z :=
  let '(neg, digits) :=
    match s with
    | c :: r => if bool_decide (c = "-"%char) then (true, r) else if bool_decide (c = "+"%char) then (false, r)
                else (false, s)
    | [] => (false, [])
    end in
  match digits, decimal 0 digits with
  | _ :: _, Some n =>
      if neg then if n <=? 2 ^ 63 then Some (- n) else None
      else if n <? 2 ^ 63 then Some n else None
  | _, _ => None
  end.

Example parse_ex : map ParseInt64 [T "0"; T "42"; T "-7"; T "+5"; T ""; T "-"; T "12a"; T "9223372036854775808"]
  = [Some 0; Some 42; Some (-7); Some 5; None; None; None; None].
Proof. vm_compute. reflexivity. Qed.

Lemma digit_char d : (d < 10)%N -> is_digit (pretty_N_char d) = true /\ code (pretty_N_char d) - 48 = Z.of_N d.
Proof.
  intros Hd. rewrite <- (N2Nat.id d) in *. set (n := N.to_nat d) in *. clearbody n.
  do 10 (destruct n as [|n]; [done|]). lia.
Qed.

Lemma decimal_pretty_N x s : decimal 0 (T (pretty_N_go x s)) = decimal (Z.of_N x) (T s).
Proof.
  revert s. induction (N.lt_wf_0 x) as [x _ IH]. intros s.
  destruct (decide (x = 0%N)) as [-> | Hx]; [done|].
  rewrite pretty_N_go_step by lia. rewrite IH by (apply N.div_lt; lia). cbn [T String.list_ascii_of_string].
  cbn [decimal]. destruct (digit_char (x mod 10)%N) as [-> ->]; [by apply N.mod_lt|].
  f_equal. rewrite N2Z.inj_div, N2Z.inj_mod. pose proof (Z.div_mod (Z.of_N x) 10). lia.
Qed.

Lemma pretty_N_no_sign (x : N) : exists c r, T (pretty x) = c :: r /\ is_digit c = true.
Proof.
  assert (H : forall y s, (0 < y)%N -> exists c r, T (pretty_N_go y s) = c :: r /\ is_digit c = true).
  { intros y. induction (N.lt_wf_0 y) as [y _ IH]. intros s Hy. rewrite pretty_N_go_step by lia.
    destruct (decide (y / 10 = 0)%N) as [E | E].
    - rewrite E. eexists _, _. split; [reflexivity|].
      by apply digit_char, N.mod_lt.
    - apply IH; [apply N.div_lt; lia|by apply N.neq_0_lt_0]. }
  unfold pretty, pretty_N. destruct (decide (x = 0%N)); [by eexists _, _|]. apply H. lia.
Qed.

Lemma ParseInt64_dec n : - 2 ^ 63 <= n < 2 ^ 63 -> ParseInt64 (dec n) = Some n.
Proof.
  intros Hn. unfold dec. assert (Hp : forall x : N, decimal 0 (T (pretty x)) = Some (Z.of_N x)).
  { intros x. unfold pretty, pretty_N. destruct (decide (x = 0%N)) as [-> |]; [done|]. by rewrite decimal_pretty_N. }
  destruct n as [|p|p]; [done| |].
  - change (pretty (Z.pos p)) with (pretty (N.pos p)).
    pose proof (Hp (N.pos p)) as Hd. destruct (pretty_N_no_sign (N.pos p)) as (c & r & E & Hc). rewrite E in *.
    unfold ParseInt64. rewrite !bool_decide_eq_false_2 by by intros ->. rewrite Hd.
    cbn [Z.of_N] in *. by rewrite (proj2 (Z.ltb_lt _ _)) by lia.
  - change (T (pretty (Z.neg p))) with ("-"%char :: T (pretty (N.pos p))).
    pose proof (Hp (N.pos p)) as Hd. destruct (pretty_N_no_sign (N.pos p)) as (c & r & E & Hc). rewrite E in *.
    unfold ParseInt64. rewrite bool_decide_eq_true_2 by done. rewrite Hd.
    cbn [Z.of_N] in *. by rewrite (proj2 (Z.leb_le _ _)) by lia.
Qed.

(** The characters of a decimal. *)
Lemma pretty_N_digits (x : N) c : c ∈ T (pretty x) -> is_digit c = true.
Proof.
  assert (H : forall y s, c ∈ T (pretty_N_go y s) -> is_digit c = true \/ c ∈ T s).
  { intros y. induction (N.lt_wf_0 y) as [y _ IH]. intros s. destruct (decide (y = 0%N)) as [-> | Hy]; [by right|].
    rewrite pretty_N_go_step by lia. intros [Hd|Hc]%IH; [by left| |apply N.div_lt; lia].
    cbn [T String.list_ascii_of_string] in Hc. apply elem_of_cons in Hc as [-> | Hc]; [left|by right].
    by apply digit_char, N.mod_lt. }
  unfold pretty, pretty_N. destruct (decide (x = 0%N)) as [_|_].
  - by intros ->%list_elem_of_singleton.
  - intros [Hd|Hc]%H; [done|by apply elem_of_nil in Hc].
Qed.

Lemma dec_digits n c : 0 <= n -> c ∈ dec n -> is_digit c = true.
Proof. intros Hn. unfold dec. destruct n as [|p|p]; [by intros ->%list_elem_of_singleton| |done]. apply (pretty_N_digits (N.pos p)). Qed.

Lemma dec_no_dot n : "."%char ∉ dec n.
Proof.
  destruct n as [|p|p].
  - by intros ?%list_elem_of_singleton.
  - by intros ?%dec_digits.
  - change (dec (Z.neg p)) with ("-"%char :: T (pretty (N.pos p))). intros [?|?%pretty_N_digits]%elem_of_cons; done.
Qed.

Lemma dec_inj n m : dec n = dec m -> n = m.
Proof.
  unfold dec. intros E%(f_equal String.string_of_list_ascii). unfold T in E.
  rewrite !String.string_of_list_ascii_of_string in E. by apply (inj pretty) in E.
Qed.
