(* ===== verification/Base64.v ===== *)
(** * Base64 without padding (encoding/base64's [RawStdEncoding] and [RawURLEncoding])

    Six bits a character; the decoder skips CR and LF and ignores the unused low bits
    of a final partial group, as Go's does unless [Strict] is asked for. *)

From S2P Require Import Prelude GoStrings.

Definition std_alphabet : text := "ABCDEFGHIJKLMNOPQRSTUVWXYZabcdefghijklmnopqrstuvwxyz0123456789+/"%string.
Definition url_alphabet : text := "ABCDEFGHIJKLMNOPQRSTUVWXYZabcdefghijklmnopqrstuvwxyz0123456789-_"%string.

Definition sextet_char (alphabet : text) (n : Z) : ascii := nth (Z.to_nat n) alphabet "A"%char.

Definition char_sextet (alphabet : text) (c : ascii) : option Z := Z.of_nat <$> index_byte c alphabet.

Definition byte_of (n : Z) : ascii := ascii_of_nat (Z.to_nat n).

(** The sextets of a byte string, three bytes at a time. *)
Fixpoint to_sextets (s : text) : list Z :=
  match s with
  | [] => []
  | [a] => [code a / 4; code a mod 4 * 16]
  | [a; b] => [code a / 4; code a mod 4 * 16 + code b / 16; code b mod 16 * 4]
  | a :: b :: c :: r =>
      code a / 4 :: code a mod 4 * 16 + code b / 16 :: code b mod 16 * 4 + code c / 64 :: code c mod 64
      :: to_sextets r
  end.

Fixpoint of_sextets (l : list Z) : option text :=
  match l with
  | [] => Some []
  | [_] => None
  | [w; x] => Some [byte_of (w * 4 + x / 16)]
  | [w; x; y] => Some [byte_of (w * 4 + x / 16); byte_of (x mod 16 * 16 + y / 4)]
  | w :: x :: y :: z :: r =>
      s ← of_sextets r;
      Some (byte_of (w * 4 + x / 16) :: byte_of (x mod 16 * 16 + y / 4) :: byte_of (y mod 4 * 64 + z) :: s)
  end.

Definition EncodeToString (alphabet s : text) : text := map (sextet_char alphabet) (to_sextets s).

(** [None] is a [CorruptInputError]. *)
Definition DecodeString (alphabet s : text) : option text :=
  l ← mapM (char_sextet alphabet) (List.filter (fun c => negb (bool_decide (c = CR) || bool_decide (c = LF))) s);
  of_sextets l.

Example encode_ex : EncodeToString std_alphabet "light work"%string = T "bGlnaHQgd29yaw".
Proof. reflexivity. Qed.
Example decode_ex : DecodeString std_alphabet "bGlnaHQgd29yaw"%string = Some (T "light work").
Proof. reflexivity. Qed.
Example decode_bad : DecodeString std_alphabet "bGlna=="%string = None.
Proof. reflexivity. Qed.

(** ** Decoding inverts encoding *)

Lemma byte_of_code c : byte_of (code c) = c.
Proof. unfold byte_of, code. rewrite Nat2Z.id. apply ascii_nat_embedding. Qed.

Lemma to_sextets_range s : Forall (fun n => 0 <= n < 64) (to_sextets s).
Proof.
  revert s. fix IH 1. intros [|a [|b [|c r]]]; cbn [to_sextets];
    repeat (apply Forall_cons; split); try apply Forall_nil; try apply IH;
    try pose proof (code_range a); try pose proof (code_range b); try pose proof (code_range c);
    Z.to_euclidean_division_equations; lia.
Qed.

Lemma of_to_sextets s : of_sextets (to_sextets s) = Some s.
Proof.
  assert (H1 : forall a b, 0 <= code b < 256 ->
            byte_of (code a / 4 * 4 + (code a mod 4 * 16 + code b / 16) / 16) = a).
  { intros a b Hb. rewrite <- (byte_of_code a) at 3. f_equal. Z.to_euclidean_division_equations. lia. }
  assert (H1' : forall a, byte_of (code a / 4 * 4 + (code a mod 4 * 16) / 16) = a).
  { intros a. rewrite <- (byte_of_code a) at 3. f_equal. Z.to_euclidean_division_equations. lia. }
  assert (H2 : forall a b c, 0 <= code b < 256 -> 0 <= code c < 256 ->
            byte_of ((code a mod 4 * 16 + code b / 16) mod 16 * 16 + (code b mod 16 * 4 + code c / 64) / 4) = b).
  { intros a b c Hb Hc. rewrite <- (byte_of_code b) at 3. f_equal. Z.to_euclidean_division_equations. lia. }
  assert (H2' : forall a b, 0 <= code b < 256 ->
            byte_of ((code a mod 4 * 16 + code b / 16) mod 16 * 16 + (code b mod 16 * 4) / 4) = b).
  { intros a b Hb. rewrite <- (byte_of_code b) at 3. f_equal. Z.to_euclidean_division_equations. lia. }
  assert (H3 : forall b c, 0 <= code c < 256 -> byte_of ((code b mod 16 * 4 + code c / 64) mod 4 * 64 + code c mod 64) = c).
  { intros b c Hc. rewrite <- (byte_of_code c) at 3. f_equal. Z.to_euclidean_division_equations. lia. }
  revert s. fix IH 1. intros [|a [|b [|c r]]]; cbn [to_sextets of_sextets].
  - done.
  - by rewrite H1'.
  - by rewrite H1, H2' by apply code_range.
  - rewrite IH. cbn. by rewrite H1, H2, H3 by apply code_range.
Qed.

(** What an alphabet needs: sixty-four different characters, neither CR nor LF. *)
Definition alphabet_ok (alphabet : text) : bool :=
  forallb (fun n => bool_decide (char_sextet alphabet (sextet_char alphabet n) = Some n)
                    && negb (bool_decide (sextet_char alphabet n = CR) || bool_decide (sextet_char alphabet n = LF)))
    (seqZ 0 64).

Lemma std_alphabet_ok : alphabet_ok std_alphabet = true.
Proof. vm_compute. reflexivity. Qed.

Lemma url_alphabet_ok : alphabet_ok url_alphabet = true.
Proof. vm_compute. reflexivity. Qed.

Section alphabet.
Context (alphabet : text) (Hok : alphabet_ok alphabet = true).

Lemma alphabet_char n :
  0 <= n < 64 -> char_sextet alphabet (sextet_char alphabet n) = Some n /\
    sextet_char alphabet n <> CR /\ sextet_char alphabet n <> LF.
Proof using Hok.
  intros Hn. unfold alphabet_ok in Hok. rewrite forallb_forall in Hok.
  assert (Hin : In n (seqZ 0 64)) by (apply list_elem_of_In, elem_of_seqZ; lia).
  specialize (Hok n Hin). cbn beta in Hok. bools. auto.
Qed.

Lemma decode_encode s : DecodeString alphabet (EncodeToString alphabet s) = Some s.
Proof using Hok.
  unfold DecodeString, EncodeToString. rewrite List_filter_all.
  - replace (mapM (char_sextet alphabet) (map (sextet_char alphabet) (to_sextets s))) with (Some (to_sextets s)).
    { apply of_to_sextets. }
    symmetry. apply mapM_Some. pose proof (to_sextets_range s) as Hr.
    induction Hr as [|n l Hn Hl IH]; cbn; constructor; [by apply alphabet_char|done].
  - intros c (n & -> & Hn)%elem_of_map. pose proof (to_sextets_range s) as Hr. rewrite Forall_forall in Hr.
    destruct (alphabet_char n (Hr n Hn)) as (_ & H1 & H2).
    by rewrite !bool_decide_eq_false_2.
Qed.

(** An encoding is made of the alphabet's characters only. *)
Lemma encode_chars s c : c ∈ EncodeToString alphabet s -> exists n, 0 <= n < 64 /\ c = sextet_char alphabet n.
Proof.
  intros (n & -> & Hn)%elem_of_map. pose proof (to_sextets_range s) as Hr. rewrite Forall_forall in Hr. eauto.
Qed.
End alphabet.

(** No character of the standard alphabet is one of a given few. *)
Lemma std_encode_excludes x s :
  x ∉ std_alphabet -> x <> "A"%char -> x ∉ EncodeToString std_alphabet s.
Proof.
  intros Hx HA (n & Hn & ->)%encode_chars. unfold sextet_char in *.
  destruct (nth_in_or_default (Z.to_nat n) std_alphabet "A"%char) as [Hin|Hd]; [|congruence].
  apply Hx. by apply list_elem_of_In.
Qed.

(** ** The standard encoding with padding, [base64.StdEncoding] *)

Definition pad_char : ascii := "="%char.

Definition std_EncodeToString (s : text) : text :=
  let e := EncodeToString std_alphabet s in
  e ++ replicate ((4 - length e mod 4) mod 4) pad_char.

Definition drop_last (n : nat) (s : text) : text := take (length s - n) s.

(** At most two pad characters end a text of whole groups. *)
Definition strip_pad (s : text) : text :=
  match rev s with
  | c :: d :: _ =>
      if bool_decide (c = pad_char) then if bool_decide (d = pad_char) then drop_last 2 s else drop_last 1 s else s
  | _ => s
  end.

Definition std_DecodeString (s : text) : option text :=
  let s := List.filter (fun c => negb (bool_decide (c = CR) || bool_decide (c = LF))) s in
  if (length s mod 4 =? 0)%nat then DecodeString std_alphabet (strip_pad s) else None.

Example std_encode_ex : map std_EncodeToString [T ""; T "f"; T "fo"; T "foo"] = [T ""; T "Zg=="; T "Zm8="; T "Zm9v"].
Proof. reflexivity. Qed.

Example std_decode_ex :
  map std_DecodeString [T ""; T "Zg=="; T "Zm8="; T "Zm9v"; T "Zg="; T "Zg"; T "Z==="; T "Zg==Zg=="; T "===="]
  = [Some []; Some (T "f"); Some (T "fo"); Some (T "foo"); None; None; None; None; None].
Proof. vm_compute. reflexivity. Qed.

Lemma length_encode_mod s : (length (EncodeToString std_alphabet s) mod 4 <> 1)%nat.
Proof.
  unfold EncodeToString. rewrite length_map. revert s. fix IH 1. intros [|a [|b [|c r]]]; cbn [to_sextets length]; try done.
  specialize (IH r). set (n := length (to_sextets r)) in *. change (S (S (S (S n)))) with (4 + n)%nat.
  replace (4 + n)%nat with (n + 1 * 4)%nat by lia. by rewrite Nat.Div0.mod_add.
Qed.

Lemma encode_no_pad s c : c ∈ EncodeToString std_alphabet s -> c <> pad_char /\ c <> CR /\ c <> LF.
Proof.
  intros Hc. pose proof Hc as Hp. apply encode_chars in Hc as (n & Hn & Ec).
  destruct (alphabet_char _ std_alphabet_ok n Hn) as (_ & H1 & H2). rewrite <- Ec in H1, H2.
  split_and!; try done. intros ->. revert Hp. apply std_encode_excludes; [apply (bool_decide_unpack _); vm_compute; done|done].
Qed.

Lemma strip_pad_replicate s k :
  (forall c, c ∈ s -> c <> pad_char) -> (k <= 2)%nat -> (k + length s <> 1)%nat -> strip_pad (s ++ replicate k pad_char) = s.
Proof.
  intros Hs Hk Hl. unfold strip_pad. rewrite rev_app_distr.
  assert (Hlast : forall c l, rev s = c :: l -> c <> pad_char).
  { intros c l E. apply Hs. rewrite <- (rev_involutive s), E. apply elem_of_rev, list_elem_of_here. }
  assert (Hdrop : drop_last k (s ++ replicate k pad_char) = s).
  { unfold drop_last. rewrite length_app, length_replicate. rewrite take_app_length'; [done|lia]. }
  destruct k as [|[|[|]]]; [| | |lia]; cbn [replicate rev app].
  - rewrite app_nil_r. destruct (rev s) as [|c [|d l]] eqn:E; try done.
    rewrite bool_decide_eq_false_2; [done|by eapply Hlast].
  - destruct (rev s) as [|c l] eqn:E.
    + apply (f_equal length) in E. rewrite length_rev in E. cbn in E. lia.
    + rewrite bool_decide_eq_true_2, bool_decide_eq_false_2 by (done || by eapply Hlast). done.
  - rewrite !bool_decide_eq_true_2 by done. done.
Qed.

Lemma std_decode_encode s : std_DecodeString (std_EncodeToString s) = Some s.
Proof.
  unfold std_DecodeString, std_EncodeToString. set (e := EncodeToString std_alphabet s).
  assert (Hmod : (length e mod 4 < 4 /\ length e mod 4 <> 1)%nat).
  { split; [by apply Nat.mod_upper_bound|apply length_encode_mod]. }
  pose proof (Nat.div_mod_eq (length e) 4) as Hdiv. remember ((4 - length e mod 4) mod 4)%nat as k eqn:Ek.
  assert (Hk : (k <= 2 /\ (length e + k) mod 4 = 0)%nat).
  { remember (length e mod 4)%nat as m eqn:Em. clear Em. rewrite Hdiv.
    replace (4 * (length e / 4) + m + k)%nat with (m + k + (length e / 4) * 4)%nat by lia.
    rewrite Nat.Div0.mod_add. destruct m as [|[|[|[|]]]]; subst k; cbn; lia. }
  rewrite List_filter_all.
  2: { intros c [Hc | Hc]%elem_of_app.
       - apply encode_no_pad in Hc as (_ & H1 & H2). by rewrite !bool_decide_eq_false_2.
       - by apply elem_of_replicate in Hc as [-> _]. }
  rewrite length_app, length_replicate. destruct Hk as [Hk ->]. cbn [Nat.eqb].
  rewrite strip_pad_replicate; [apply (decode_encode _ std_alphabet_ok)| |done|].
  - intros c Hc. by apply encode_no_pad in Hc as [? _].
  - destruct e as [|a e']; cbn in *; [subst k; cbn; lia|].
    destruct e' as [|b e']; cbn in *; [lia|]. lia.
Qed.
