(* ===== verification/Sha.v ===== *)
(** * SHA-1, SHA-256 and HMAC (crypto/sha1, crypto/sha256 and crypto/hmac of the language's library)

    Executable, on bytes as [text]; words are 32-bit numbers kept in [Z] with their
    wrap-around written out.  The examples are the published test vectors. *)

From S2P Require Import Prelude GoStrings Base64.

(** ** 32-bit words *)

Definition w32 (x : Z) : Z := Z.land x 4294967295.
Definition add32 (x y : Z) : Z := w32 (x + y).
Definition not32 (x : Z) : Z := Z.lxor x 4294967295.
Definition rotl32 (n x : Z) : Z := Z.lor (w32 (Z.shiftl x n)) (Z.shiftr x (32 - n)).
Definition rotr32 (n x : Z) : Z := rotl32 (32 - n) x.

(** Big-endian, as encoding/binary writes and reads them. *)
Definition put_be32 (x : Z) : text := map (fun s => byte_of (Z.land (Z.shiftr x s) 255)) [24; 16; 8; 0].
Definition put_be64 (x : Z) : text :=
  map (fun s => byte_of (Z.land (Z.shiftr x s) 255)) [56; 48; 40; 32; 24; 16; 8; 0].
Definition get_be32 (s : text) : Z := fold_left (fun acc c => Z.shiftl acc 8 + code c) (take 4 s) 0.

(** ** Padding and blocks *)

Definition pad_message (s : text) : text :=
  let zeros := Z.to_nat ((55 - Z.of_nat (length s)) mod 64) in
  s ++ byte_of 128 :: replicate zeros (byte_of 0) ++ put_be64 (8 * Z.of_nat (length s)).

Fixpoint words_of (n : nat) (s : text) : list Z :=
  match n with O => [] | S n => get_be32 s :: words_of n (drop 4 s) end.

(** Every 64 bytes through [block], [n] times. *)
Fixpoint digest_blocks (block : list Z -> list Z -> list Z) (n : nat) (h : list Z) (s : text) : list Z :=
  match n with O => h | S n => digest_blocks block n (block h (words_of 16 s)) (drop 64 s) end.

Definition digest (block : list Z -> list Z -> list Z) (init : list Z) (s : text) : text :=
  let p := pad_message s in
  concat (map put_be32 (digest_blocks block (length p / 64) init p)).

(** Message schedules: the last 16 words, newest first, and all of them at the end. *)
Fixpoint schedule (next : list Z -> Z) (n : nat) (recent : list Z) : list Z :=
  match n with O => [] | S n => let w := next recent in w :: schedule next n (w :: recent) end.

Definition expand (next : list Z -> Z) (n : nat) (block : list Z) : list Z := block ++ schedule next n (rev block).

Definition word (l : list Z) (i : nat) : Z := nth i l 0.

(** ** SHA-1 *)

Definition sha1_next (recent : list Z) : Z :=
  rotl32 1 (Z.lxor (Z.lxor (word recent 2) (word recent 7)) (Z.lxor (word recent 13) (word recent 15))).

Definition sha1_f (i : nat) (b c d : Z) : Z * Z :=
  if (i <? 20)%nat then (Z.lor (Z.land b c) (Z.land (not32 b) d), 1518500249)
  else if (i <? 40)%nat then (Z.lxor (Z.lxor b c) d, 1859775393)
  else if (i <? 60)%nat then (Z.lor (Z.lor (Z.land b c) (Z.land b d)) (Z.land c d), 2400959708)
  else (Z.lxor (Z.lxor b c) d, 3395469782).

Fixpoint sha1_rounds (i : nat) (ws : list Z) (h : list Z) : list Z :=
  match ws, h with
  | w :: ws, [a; b; c; d; e] =>
      let '(f, k) := sha1_f i b c d in
      sha1_rounds (S i) ws [w32 (rotl32 5 a + f + e + k + w); a; rotl32 30 b; c; d]
  | _, _ => h
  end.

Definition sha1_block (h block : list Z) : list Z :=
  zip_with add32 h (sha1_rounds 0 (expand sha1_next 64 block) h).

Definition sha1_Sum (s : text) : text :=
  digest sha1_block [1732584193; 4023233417; 2562383102; 271733878; 3285377520] s.

(** ** SHA-256 *)

Definition sha256_K : list Z :=
  [1116352408; 1899447441; 3049323471; 3921009573; 961987163; 1508970993; 2453635748; 2870763221;
   3624381080; 310598401; 607225278; 1426881987; 1925078388; 2162078206; 2614888103; 3248222580;
   3835390401; 4022224774; 264347078; 604807628; 770255983; 1249150122; 1555081692; 1996064986;
   2554220882; 2821834349; 2952996808; 3210313671; 3336571891; 3584528711; 113926993; 338241895;
   666307205; 773529912; 1294757372; 1396182291; 1695183700; 1986661051; 2177026350; 2456956037;
   2730485921; 2820302411; 3259730800; 3345764771; 3516065817; 3600352804; 4094571909; 275423344;
   430227734; 506948616; 659060556; 883997877; 958139571; 1322822218; 1537002063; 1747873779;
   1955562222; 2024104815; 2227730452; 2361852424; 2428436474; 2756734187; 3204031479; 3329325298].

Definition sha256_next (recent : list Z) : Z :=
  let v1 := word recent 1 in
  let v2 := word recent 14 in
  let t1 := Z.lxor (Z.lxor (rotr32 17 v1) (rotr32 19 v1)) (Z.shiftr v1 10) in
  let t2 := Z.lxor (Z.lxor (rotr32 7 v2) (rotr32 18 v2)) (Z.shiftr v2 3) in
  w32 (t1 + word recent 6 + t2 + word recent 15).

Fixpoint sha256_rounds (ks ws h : list Z) : list Z :=
  match ks, ws, h with
  | k :: ks, w :: ws, [a; b; c; d; e; f; g; hh] =>
      let t1 := w32 (hh + Z.lxor (Z.lxor (rotr32 6 e) (rotr32 11 e)) (rotr32 25 e)
                     + Z.lxor (Z.land e f) (Z.land (not32 e) g) + k + w) in
      let t2 := w32 (Z.lxor (Z.lxor (rotr32 2 a) (rotr32 13 a)) (rotr32 22 a)
                     + Z.lxor (Z.lxor (Z.land a b) (Z.land a c)) (Z.land b c)) in
      sha256_rounds ks ws [add32 t1 t2; a; b; c; add32 d t1; e; f; g]
  | _, _, _ => h
  end.

Definition sha256_block (h block : list Z) : list Z :=
  zip_with add32 h (sha256_rounds sha256_K (expand sha256_next 48 block) h).

Definition Sum256 (s : text) : text :=
  digest sha256_block
    [1779033703; 3144134277; 1013904242; 2773480762; 1359893119; 2600822924; 528734635; 1541459225] s.

(** ** HMAC; both functions have blocks of 64 bytes *)

Definition xor_pad (x : Z) (key : text) : text :=
  map (fun c => byte_of (Z.lxor (code c) x)) (take 64 (key ++ replicate 64 (byte_of 0))).

Definition hmac (sum : text -> text) (key msg : text) : text :=
  let key := if (64 <? length key)%nat then sum key else key in
  sum (xor_pad 92 key ++ sum (xor_pad 54 key ++ msg)).

Definition hmac_sha1 : text -> text -> text := hmac sha1_Sum.
Definition hmac_sha256 : text -> text -> text := hmac Sum256.

(** [hex.EncodeToString]. *)
Definition hex_encode (s : text) : text := concat (map (fun c => [hex_lower (code c / 16); hex_lower (code c mod 16)]) s).

Example sha1_abc : hex_encode (sha1_Sum "abc"%string) = T "a9993e364706816aba3e25717850c26c9cd0d89d".
Proof. vm_compute. reflexivity. Qed.

Example sha256_abc :
  hex_encode (Sum256 "abc"%string) = T "ba7816bf8f01cfea414140de5dae2223b00361a396177a9cb410ff61f20015ad".
Proof. vm_compute. reflexivity. Qed.

Example sha256_two_blocks :
  hex_encode (Sum256 "abcdbcdecdefdefgefghfghighijhijkijkljklmklmnlmnomnopnopq"%string)
  = T "248d6a61d20638b8e5c026930c3e6039a33ce45964ff2167f6ecedd419db06c1".
Proof. vm_compute. reflexivity. Qed.

Example hmac_sha256_ex :
  hex_encode (hmac_sha256 "Jefe"%string "what do ya want for nothing?"%string)
  = T "5bdcc146bf60754e6a042426089575c75a003f089d2739839dec58b964ec3843".
Proof. vm_compute. reflexivity. Qed.

Example hmac_sha1_ex :
  hex_encode (hmac_sha1 "Jefe"%string "what do ya want for nothing?"%string)
  = T "effcdf6ae5eb2fa2d27416d5f184df9c259a7c79".
Proof. vm_compute. reflexivity. Qed.

(** ** Lengths *)

Lemma length_put_be32 x : length (put_be32 x) = 4%nat.
Proof. done. Qed.

Lemma length_concat_be32 l : length (concat (map put_be32 l)) = (4 * length l)%nat.
Proof. induction l as [|x l IH]; [done|]. cbn [map concat]. rewrite length_app, IH, length_put_be32. cbn. lia. Qed.

Lemma length_digest_blocks block n k s h :
  (forall h b, length h = k -> length (block h b) = k) -> length h = k ->
  length (digest_blocks block n h s) = k.
Proof. intros Hb. revert h s. induction n as [|n IH]; intros h s Hh; [done|]. cbn. auto. Qed.

Lemma length_sha1_rounds ws i h : length h = 5%nat -> length (sha1_rounds i ws h) = 5%nat.
Proof.
  revert i h. induction ws as [|w ws IH]; intros i h Hh; [done|].
  destruct h as [|a [|b [|c [|d [|e [|]]]]]]; try done. cbn. destruct (sha1_f i b c d). by apply IH.
Qed.

Lemma length_sha256_rounds ks ws h : length h = 8%nat -> length (sha256_rounds ks ws h) = 8%nat.
Proof.
  revert ws h. induction ks as [|k ks IH]; intros ws h Hh; [done|].
  destruct ws as [|w ws]; [done|].
  destruct h as [|a [|b [|c [|d [|e [|f [|g [|i [|]]]]]]]]]; try done. cbn. by apply IH.
Qed.

Lemma length_sha1 s : length (sha1_Sum s) = 20%nat.
Proof.
  unfold sha1_Sum, digest. rewrite length_concat_be32, (length_digest_blocks _ _ 5); [done| |done].
  intros h b Hh. unfold sha1_block. rewrite length_zip_with, length_sha1_rounds by done. lia.
Qed.

Lemma length_Sum256 s : length (Sum256 s) = 32%nat.
Proof.
  unfold Sum256, digest. rewrite length_concat_be32, (length_digest_blocks _ _ 8); [done| |done].
  intros h b Hh. unfold sha256_block. rewrite length_zip_with, length_sha256_rounds by done. lia.
Qed.

Lemma length_hmac_sha1 key msg : length (hmac_sha1 key msg) = 20%nat.
Proof. apply length_sha1. Qed.

#[global] Opaque sha1_Sum Sum256.

Lemma length_hex_encode s : length (hex_encode s) = (2 * length s)%nat.
Proof.
  induction s as [|c s IH]; [done|]. change (hex_encode (c :: s)) with (hex_lower (code c / 16) :: hex_lower (code c mod 16) :: hex_encode s).
  cbn [length]. rewrite IH. lia.
Qed.

Lemma hex_lower_inj d e : 0 <= d < 16 -> 0 <= e < 16 -> hex_lower d = hex_lower e -> d = e.
Proof.
  intros Hd He. assert (H : Forall (fun n => Forall (fun m => hex_lower (Z.of_nat n) = hex_lower (Z.of_nat m) -> n = m) (seq 0 16)) (seq 0 16))
    by (apply (bool_decide_unpack _); vm_compute; done).
  rewrite Forall_forall in H. specialize (H (Z.to_nat d)). rewrite Forall_forall in H.
  intros E. apply Z2Nat.inj; [lia..|]. apply H; [apply elem_of_seq; lia..|]. by rewrite !Z2Nat.id by lia.
Qed.

Lemma hex_encode_inj s t : hex_encode s = hex_encode t -> s = t.
Proof.
  revert t. induction s as [|c s IH]; intros [|d t] H; try done. unfold hex_encode in H. cbn in H. injection H as H1 H2 Ht.
  pose proof (code_range c). pose proof (code_range d).
  apply hex_lower_inj in H1; [|Z.div_mod_to_equations; lia..]. apply hex_lower_inj in H2; [|Z.div_mod_to_equations; lia..].
  f_equal; [|by apply IH]. apply code_inj. Z.div_mod_to_equations. lia.
Qed.
