(* ===== verification/Times.v ===== *)
(** * Timestamps: [time.Time], its text form in the database, and their orders

    A [time.Time] is its number of nanoseconds since the Unix epoch.  The store
    writes every timestamp as [t.UTC().Format(time.RFC3339Nano)] in a TEXT column
    (store.go, [formatTime]) and lets SQLite compare the columns byte by byte, so
    the text order, not the order of time, decides what is due.  This file gives
    both and relates them. *)

From S2P Require Import Prelude GoStrings.
From Stdlib Require Import SpecFloat.

Definition second : Z := 1000000000.
Definition minute : Z := 60 * second.
Definition hour : Z := 60 * minute.

(** ** The proleptic Gregorian calendar *)

(** Days since 1970-01-01 to (year, month, day); years start in March inside. *)
Definition civil (days : Z) : Z * Z * Z :=
  let z := days + 719468 in
  let era := z / 146097 in
  let doe := z mod 146097 in
  let yoe := (doe - doe / 1460 + doe / 36524 - doe / 146096) / 365 in
  let doy := doe - (365 * yoe + yoe / 4 - yoe / 100) in
  let mp := (5 * doy + 2) / 153 in
  let d := doy - (153 * mp + 2) / 5 + 1 in
  let m := if mp <? 10 then mp + 3 else mp - 9 in
  let y := yoe + era * 400 + (if m <=? 2 then 1 else 0) in
  (y, m, d).

Definition unix_seconds (t : Z) : Z := t / second.
Definition nanoseconds (t : Z) : Z := t mod second.

(** ** Fixed-width decimal fields *)

Definition digit (n : Z) : ascii := ascii_of_nat (48 + Z.to_nat n).

Fixpoint pad (w : nat) (n : Z) : text :=
  match w with
  | O => []
  | S w => pad w (n / 10) ++ [digit (n mod 10)]
  end.

Definition is_zero_digit (c : ascii) : bool := bool_decide (c = "0"%char).

(** The fraction of RFC3339Nano: no trailing zeros, nothing at all for a whole second. *)
Definition fraction (ns : Z) : text :=
  if ns =? 0 then [] else "."%char :: trim_right is_zero_digit (pad 9 ns).

Definition date_fields (t : Z) : text :=
  let '(y, m, d) := civil (unix_seconds t / 86400) in
  pad 4 y ++ "-"%string ++ pad 2 m ++ "-"%string ++ pad 2 d.

Definition clock_fields (t : Z) : text :=
  let s := unix_seconds t mod 86400 in
  pad 2 (s / 3600) ++ ":"%string ++ pad 2 (s / 60 mod 60) ++ ":"%string ++ pad 2 (s mod 60).

(** [formatTime]: UTC, RFC3339Nano. *)
Definition formatTime (t : Z) : text :=
  date_fields t ++ "T"%string ++ clock_fields t ++ fraction (nanoseconds t) ++ "Z"%string.

(** [usageMonth]: layout "2006-01". *)
Definition usageMonth (t : Z) : text :=
  let '(y, m, _) := civil (unix_seconds t / 86400) in pad 4 y ++ "-"%string ++ pad 2 m.

(** [t.Format(time.RFC1123Z)] for a clock [zone] minutes east of UTC. *)
Definition weekday (days : Z) : text :=
  nth (Z.to_nat ((days + 4) mod 7))
    (map T ["Sun"; "Mon"; "Tue"; "Wed"; "Thu"; "Fri"; "Sat"]) [].

Definition month_name (m : Z) : text :=
  nth (Z.to_nat (m - 1))
    (map T ["Jan"; "Feb"; "Mar"; "Apr"; "May"; "Jun"; "Jul"; "Aug"; "Sep"; "Oct"; "Nov"; "Dec"]) [].

Definition format_zone (zone : Z) : text :=
  (if zone <? 0 then "-"%string else "+"%string : text)
  ++ pad 2 (Z.abs zone / 60) ++ pad 2 (Z.abs zone mod 60).

Definition rfc1123z (zone t : Z) : text :=
  let local := t + zone * minute in
  let days := unix_seconds local / 86400 in
  let '(y, m, d) := civil days in
  weekday days ++ ", "%string ++ pad 2 d ++ " "%string ++ month_name m ++ " "%string ++ pad 4 y
  ++ " "%string ++ clock_fields local ++ " "%string ++ format_zone zone.

Example epoch_text : formatTime 0 = "1970-01-01T00:00:00Z"%string.
Proof. reflexivity. Qed.
Example leap_text : formatTime (951827696 * second + 120000000) = "2000-02-29T12:34:56.12Z"%string.
Proof. vm_compute. reflexivity. Qed.
Example rfc1123_text : rfc1123z (-420) (1136239445 * second) = "Mon, 02 Jan 2006 15:04:05 -0700"%string.
Proof. vm_compute. reflexivity. Qed.

(** ** SQLite's BINARY collation: [memcmp], shorter first *)

Fixpoint text_compare (s t : text) : comparison :=
  match s with
  | [] => match t with [] => Eq | _ => Lt end
  | c :: s =>
      match t with
      | d :: t => match Z.compare (code c) (code d) with Eq => text_compare s t | r => r end
      | [] => Gt
      end
  end.

Definition text_leb (s t : text) : bool :=
  match text_compare s t with Gt => false | _ => true end.

(** [col <= ?] between two timestamp columns. *)
Definition time_leb (a b : Z) : bool := text_leb (formatTime a) (formatTime b).

(** Timestamps whose year has four digits. *)
Definition year_four (t : Z) : Prop := 0 <= t < 253402300800 * second.

Lemma text_compare_refl s : text_compare s s = Eq.
Proof. induction s as [|c s IH]; cbn; [done|]. by rewrite Z.compare_refl. Qed.

Lemma text_compare_eq s t : text_compare s t = Eq -> s = t.
Proof.
  revert t. induction s as [|c s IH]; intros [|d t]; cbn; try done.
  destruct (Z.compare (code c) (code d)) eqn:E; try done.
  apply Z.compare_eq, code_inj in E as ->. intros H. f_equal. auto.
Qed.

Lemma text_compare_antisym s t : text_compare t s = CompOpp (text_compare s t).
Proof.
  revert t. induction s as [|c s IH]; intros [|d t]; cbn; try done.
  rewrite Z.compare_antisym. destruct (Z.compare (code c) (code d)); cbn; auto.
Qed.

Lemma text_compare_app p q s t :
  length p = length q ->
  text_compare (p ++ s) (q ++ t) =
    match text_compare p q with Eq => text_compare s t | r => r end.
Proof.
  revert q. induction p as [|c p IH]; intros [|d q]; cbn; try done.
  intros [= H]. destruct (Z.compare (code c) (code d)); auto.
Qed.

Lemma text_leb_refl s : text_leb s s = true.
Proof. unfold text_leb. by rewrite text_compare_refl. Qed.

Lemma text_leb_total s t : text_leb s t = true \/ text_leb t s = true.
Proof.
  unfold text_leb. rewrite (text_compare_antisym s t).
  destruct (text_compare s t); cbn; auto.
Qed.

Lemma text_leb_trans s t u : text_leb s t = true -> text_leb t u = true -> text_leb s u = true.
Proof.
  unfold text_leb. revert t u.
  induction s as [|c s IH]; intros [|d t] [|e u]; cbn; try done.
  destruct (Z.compare_spec (code c) (code d)) as [Hcd|Hcd|Hcd]; [| |done];
  destruct (Z.compare_spec (code d) (code e)) as [Hde|Hde|Hde]; [| |done| | |done].
  - rewrite Hcd, Hde, Z.compare_refl. apply IH.
  - rewrite Hcd. by rewrite (proj2 (Z.compare_lt_iff _ _)).
  - rewrite <- Hde. by rewrite (proj2 (Z.compare_lt_iff _ _)).
  - rewrite (proj2 (Z.compare_lt_iff (code c) (code e))); [done|lia].
Qed.

(** ** The calendar is monotone *)

(** Days before March 1st of year [y], and days before month [m] of such a year. *)
Definition days_to_year (y : Z) : Z := 365 * y + y / 4 - y / 100 + y / 400.
Definition days_to_month (m : Z) : Z := (153 * m + 2) / 5.

Section calendar.
#[local] Ltac Zify.zify_post_hook ::= Z.div_mod_to_equations.

Lemma year_of_era doe :
  0 <= doe <= 146096 ->
  let yoe := (doe - doe / 1460 + doe / 36524 - doe / 146096) / 365 in
  0 <= yoe <= 399 /\
  365 * yoe + yoe / 4 - yoe / 100 <= doe /\
  (doe < 365 * (yoe + 1) + (yoe + 1) / 4 - (yoe + 1) / 100 + (yoe + 1) / 400).
Proof. intros H yoe. subst yoe. lia. Qed.

Lemma month_of_year doy :
  0 <= doy <= 365 ->
  let mp := (5 * doy + 2) / 153 in
  0 <= mp <= 11 /\ days_to_month mp <= doy < days_to_month (mp + 1).
Proof. intros H mp. subst mp. unfold days_to_month. lia. Qed.

Lemma days_to_year_mono a b : a < b -> days_to_year (a + 1) <= days_to_year b.
Proof. unfold days_to_year. lia. Qed.

Lemma days_to_year_era a e : days_to_year (a + e * 400) = days_to_year a + 146097 * e.
Proof. unfold days_to_year. lia. Qed.

Lemma days_to_month_mono a b : a < b -> days_to_month (a + 1) <= days_to_month b.
Proof. unfold days_to_month. lia. Qed.

Lemma days_to_month_pos m : 0 <= m -> 0 <= days_to_month m.
Proof. unfold days_to_month. lia. Qed.
End calendar.

(** [civil] inverted: the day number from its March-based year, month and day. *)
Lemma civil_spec n y m d :
  civil n = (y, m, d) ->
  exists Y mp,
    12 * y + m = 12 * Y + mp + 3 /\ 1 <= m <= 12 /\ 0 <= mp <= 11 /\ 1 <= d <= 31 /\
    n + 719468 = days_to_year Y + days_to_month mp + (d - 1) /\
    n + 719468 < days_to_year (Y + 1) /\
    days_to_month mp + (d - 1) < days_to_month (mp + 1).
Proof.
  unfold civil. set (z := n + 719468). set (era := z / 146097). set (doe := z mod 146097).
  assert (Hdoe : 0 <= doe <= 146096) by (pose proof (Z.mod_pos_bound z 146097); lia).
  assert (Hz : z = 146097 * era + doe) by (apply Z.div_mod; lia).
  pose proof (year_of_era doe Hdoe) as Hy. cbv zeta in Hy.
  set (yoe := (doe - doe / 1460 + doe / 36524 - doe / 146096) / 365) in *.
  destruct Hy as (Hyoe & Hlo & Hhi).
  set (doy := doe - (365 * yoe + yoe / 4 - yoe / 100)).
  assert (Hdy : days_to_year yoe = 365 * yoe + yoe / 4 - yoe / 100).
  { unfold days_to_year. rewrite (Z.div_small yoe 400) by lia. lia. }
  assert (Hdy1 : doe < days_to_year (yoe + 1)) by done.
  assert (Hdoy : 0 <= doy <= 365).
  { assert (days_to_year (yoe + 1) <= days_to_year yoe + 366).
    { unfold days_to_year. clear. Z.to_euclidean_division_equations. lia. }
    unfold doy. lia. }
  pose proof (month_of_year doy Hdoy) as Hm. cbv zeta in Hm.
  set (mp := (5 * doy + 2) / 153) in *. destruct Hm as (Hmp & Hmlo & Hmhi).
  fold (days_to_month mp). intros [= Hy' Hm' Hd'].
  exists (yoe + era * 400), mp.
  replace (yoe + era * 400 + 1) with (yoe + 1 + era * 400) by lia.
  rewrite !days_to_year_era.
  assert (days_to_month (mp + 1) <= days_to_month mp + 31).
  { unfold days_to_month. clear. Z.to_euclidean_division_equations. lia. }
  destruct (Z.ltb_spec mp 10); destruct (Z.leb_spec m 2);
    rewrite Hm' in Hy'; destruct (Z.leb_spec m 2); unfold doy in *; lia.
Qed.

(** Lexicographic comparison of two dates. *)
Definition date_compare (a b : Z * Z * Z) : comparison :=
  let '(y, m, d) := a in let '(y', m', d') := b in
  match Z.compare y y' with
  | Eq => match Z.compare m m' with Eq => Z.compare d d' | r => r end
  | r => r
  end.

Lemma civil_mono n n' : n < n' -> date_compare (civil n) (civil n') = Lt.
Proof.
  intros Hn. destruct (civil n) as [[y m] d] eqn:E, (civil n') as [[y' m'] d'] eqn:E'.
  apply civil_spec in E as (Y & mp & ?&?&?&?&?&?&?), E' as (Y' & mp' & ?&?&?&?&?&?&?).
  assert (Y < Y' \/ Y = Y' /\ (mp < mp' \/ mp = mp' /\ d < d')).
  { destruct (Z.lt_trichotomy Y Y') as [?|[<-|HY]]; [by left| |].
    - right. split; [done|].
      destruct (Z.lt_trichotomy mp mp') as [?|[<-|Hm]]; [by left|right; lia|].
      pose proof (days_to_month_mono mp' mp Hm). lia.
    - pose proof (days_to_year_mono Y' Y HY). pose proof (days_to_month_pos mp). lia. }
  unfold date_compare.
  destruct (Z.compare_spec y y'); [|done|lia].
  destruct (Z.compare_spec m m'); [|done|lia].
  apply Z.compare_lt_iff. lia.
Qed.

#[global] Opaque civil.

(** ** Text fields are ordered like the numbers they print *)

Lemma length_pad w n : length (pad w n) = w.
Proof. revert n. induction w as [|w IH]; intros n; cbn; [done|]. rewrite length_app, IH. cbn. lia. Qed.

Lemma code_digit n : 0 <= n < 10 -> code (digit n) = 48 + n.
Proof. intros H. unfold code, digit. rewrite nat_ascii_embedding by lia. lia. Qed.

Lemma pad_compare w a b :
  0 <= a < 10 ^ Z.of_nat w -> 0 <= b < 10 ^ Z.of_nat w ->
  text_compare (pad w a) (pad w b) = Z.compare a b.
Proof.
  revert a b. induction w as [|w IH]; intros a b Ha Hb.
  { cbn in *. assert (a = b) as -> by lia. by rewrite Z.compare_refl. }
  rewrite Nat2Z.inj_succ, Z.pow_succ_r in Ha, Hb by lia.
  pose proof (Z.div_mod a 10 ltac:(lia)). pose proof (Z.div_mod b 10 ltac:(lia)).
  pose proof (Z.mod_pos_bound a 10 ltac:(lia)). pose proof (Z.mod_pos_bound b 10 ltac:(lia)).
  cbn [pad]. rewrite text_compare_app by (by rewrite !length_pad).
  rewrite IH by lia. cbn. rewrite !code_digit by lia.
  destruct (Z.compare_spec (a / 10) (b / 10)).
  - destruct (Z.compare_spec (48 + a mod 10) (48 + b mod 10)); symmetry;
      [apply Z.compare_eq_iff|apply Z.compare_lt_iff|apply Z.compare_gt_iff]; lia.
  - symmetry. apply Z.compare_lt_iff. lia.
  - symmetry. apply Z.compare_gt_iff. lia.
Qed.

Definition lex (r s : comparison) : comparison := match r with Eq => s | _ => r end.

Lemma text_compare_fields w a b s t :
  0 <= a < 10 ^ Z.of_nat w -> 0 <= b < 10 ^ Z.of_nat w ->
  text_compare (pad w a ++ s) (pad w b ++ t) = lex (Z.compare a b) (text_compare s t).
Proof.
  intros Ha Hb. rewrite text_compare_app by (by rewrite !length_pad). rewrite (pad_compare w a b Ha Hb). by destruct (Z.compare a b).
Qed.

Lemma text_compare_same p s t : text_compare (p ++ s) (p ++ t) = text_compare s t.
Proof. rewrite text_compare_app by done. by rewrite text_compare_refl. Qed.

Lemma civil_year_bounds days y m d :
  0 <= days < 2932897 -> civil days = (y, m, d) -> 1970 <= y < 10000 /\ 1 <= m <= 12 /\ 1 <= d <= 31.
Proof.
  intros Hd H. assert (H0 : civil 0 = (1970, 1, 1)) by reflexivity.
  assert (H9 : civil 2932897 = (10000, 1, 1)) by reflexivity.
  pose proof (civil_spec _ _ _ _ H) as (Y & mp & ?&?&?&?&?&?&?).
  assert (1970 <= y).
  { destruct (Z.eq_dec days 0) as [->|]; [rewrite H0 in H; simplify_eq; lia|].
    pose proof (civil_mono 0 days ltac:(lia)) as Hm. rewrite H0, H in Hm. cbn -[Z.compare] in Hm.
    destruct (Z.compare_spec 1970 y); [lia|lia|done]. }
  pose proof (civil_mono days 2932897 ltac:(lia)) as Hm. rewrite H9, H in Hm. cbn -[Z.compare] in Hm.
  destruct (Z.compare_spec y 10000); [|lia|done]. subst y.
  destruct (Z.compare_spec m 1); [|lia|done]. subst m.
  change (d < 1) in Hm. lia.
Qed.

Lemma year_four_days t : year_four t -> 0 <= unix_seconds t / 86400 < 2932897.
Proof.
  unfold year_four, unix_seconds, second. intros H.
  split; [apply Z.div_pos; [apply Z.div_pos|]; lia|].
  apply Z.div_lt_upper_bound; [lia|]. apply Z.div_lt_upper_bound; lia.
Qed.

(** The second of the day. *)
Definition day_second (t : Z) : Z := unix_seconds t mod 86400.

Lemma day_second_bounds t :
  0 <= day_second t / 3600 < 24 /\ 0 <= day_second t / 60 mod 60 < 60 /\ 0 <= day_second t mod 60 < 60.
Proof.
  assert (0 <= day_second t < 86400) by (apply Z.mod_pos_bound; lia).
  Z.to_euclidean_division_equations; lia.
Qed.

(** The fields of an earlier second come first, compared one after the other, the year first. *)
Lemma fields_before a b y m d y' m' d' r :
  civil (unix_seconds a / 86400) = (y, m, d) -> civil (unix_seconds b / 86400) = (y', m', d') ->
  unix_seconds a < unix_seconds b ->
  lex (y ?= y') (lex (m ?= m') (lex (d ?= d') (lex (day_second a / 3600 ?= day_second b / 3600)
    (lex (day_second a / 60 mod 60 ?= day_second b / 60 mod 60) (lex (day_second a mod 60 ?= day_second b mod 60) r))))) = Lt.
Proof.
  intros E E' Hlt. pose proof (day_second_bounds a). pose proof (day_second_bounds b). unfold day_second in *.
  set (s := unix_seconds a mod 86400) in *. set (s' := unix_seconds b mod 86400) in *.
  assert (0 <= s < 86400) by (apply Z.mod_pos_bound; lia).
  assert (0 <= s' < 86400) by (apply Z.mod_pos_bound; lia).
  assert (Hs : unix_seconds a = 86400 * (unix_seconds a / 86400) + s) by (apply Z.div_mod; lia).
  assert (Hs' : unix_seconds b = 86400 * (unix_seconds b / 86400) + s') by (apply Z.div_mod; lia).
  assert (unix_seconds a / 86400 < unix_seconds b / 86400 \/
          unix_seconds a / 86400 = unix_seconds b / 86400) as [Hday|Hday]
    by (Z.to_euclidean_division_equations; lia).
  - apply civil_mono in Hday. rewrite E, E' in Hday. unfold date_compare in Hday.
    revert Hday. destruct (Z.compare y y'); [|done|done].
    destruct (Z.compare m m'); [|done|done]. intros Hday. cbn. by rewrite Hday.
  - rewrite Hday, E' in E. injection E as <- <- <-. rewrite !Z.compare_refl. cbn.
    assert (s < s') by lia.
    destruct (Z.compare_spec (s / 3600) (s' / 3600)); cbn; [|done|Z.to_euclidean_division_equations; lia].
    destruct (Z.compare_spec (s / 60 mod 60) (s' / 60 mod 60)); cbn;
      [|done|Z.to_euclidean_division_equations; lia].
    destruct (Z.compare_spec (s mod 60) (s' mod 60)); cbn; [|done|];
      Z.to_euclidean_division_equations; lia.
Qed.

(** Two timestamps in different seconds compare as their texts do. *)
Lemma formatTime_seconds a b :
  year_four a -> year_four b -> unix_seconds a < unix_seconds b ->
  text_compare (formatTime a) (formatTime b) = Lt.
Proof.
  intros Ha Hb Hlt.
  pose proof (year_four_days a Ha) as Hda. pose proof (year_four_days b Hb) as Hdb.
  unfold formatTime, date_fields, clock_fields. change (unix_seconds a mod 86400) with (day_second a). change (unix_seconds b mod 86400) with (day_second b).
  destruct (civil (unix_seconds a / 86400)) as [[y m] d] eqn:E.
  destruct (civil (unix_seconds b / 86400)) as [[y' m'] d'] eqn:E'.
  pose proof (civil_year_bounds _ _ _ _ Hda E) as (?&?&?).
  pose proof (civil_year_bounds _ _ _ _ Hdb E') as (?&?&?).
  pose proof (day_second_bounds a). pose proof (day_second_bounds b). destruct_and!.
  rewrite <- !app_assoc.
  repeat first [rewrite text_compare_fields by (cbn; lia) | rewrite text_compare_same].
  by apply fields_before.
Qed.

(** ** What the text order means for time *)

(** At least one second apart, the text order is the order of time. *)
Lemma time_leb_coarse a b :
  year_four a -> year_four b -> a + second <= b -> time_leb a b = true /\ time_leb b a = false.
Proof.
  intros Ha Hb Hab. assert (unix_seconds a < unix_seconds b).
  { unfold unix_seconds, second in *. Z.to_euclidean_division_equations. lia. }
  unfold time_leb, text_leb. rewrite (text_compare_antisym (formatTime a)).
  by rewrite !formatTime_seconds.
Qed.

Lemma time_leb_refl a : time_leb a a = true.
Proof. apply text_leb_refl. Qed.

Lemma time_leb_total a b : time_leb a b = true \/ time_leb b a = true.
Proof. apply text_leb_total. Qed.

Lemma time_leb_trans a b c : time_leb a b = true -> time_leb b c = true -> time_leb a c = true.
Proof. apply text_leb_trans. Qed.

(** A timestamp found due is at most one second in the future. *)
Lemma time_leb_late a b : year_four a -> year_four b -> time_leb a b = true -> a < b + second.
Proof.
  intros Ha Hb H. destruct (Z.lt_ge_cases a (b + second)) as [|Hge]; [done|].
  pose proof (time_leb_coarse b a Hb Ha Hge) as [_ Hf]. congruence.
Qed.

(** Within a second the order of the texts and of time can disagree. *)
Lemma time_leb_subsecond_inverted :
  0 < 500000000 /\ time_leb 0 500000000 = false /\ time_leb 500000000 0 = true.
Proof. vm_compute. done. Qed.

(** ** Formatted dates hold no line break *)

Lemma digit_no_break n : no_break [digit (n mod 10)].
Proof.
  pose proof (Z.mod_pos_bound n 10 ltac:(lia)) as Hn.
  apply no_break_cons. split; [|apply no_break_nil].
  assert (Hc : code (digit (n mod 10)) = 48 + n mod 10) by (by apply code_digit).
  split; intros E; rewrite E in Hc; [change (13 = 48 + n mod 10) in Hc|change (10 = 48 + n mod 10) in Hc]; lia.
Qed.

Lemma pad_no_break w n : no_break (pad w n).
Proof.
  revert n. induction w as [|w IH]; intros n; cbn; [apply no_break_nil|].
  apply no_break_app. split; [apply IH|apply digit_no_break].
Qed.
#[export] Hint Resolve pad_no_break : xmx.

Lemma nth_no_break (l : list text) i : Forall no_break l -> no_break (nth i l []).
Proof.
  intros Hl. destruct (nth_in_or_default i l []) as [H| ->]; [|apply no_break_nil].
  rewrite Forall_forall in Hl. by apply Hl, list_elem_of_In.
Qed.

Lemma rfc1123z_no_break zone t : no_break (rfc1123z zone t).
Proof.
  unfold rfc1123z. destruct (civil _) as [[y m] d].
  assert (no_break (weekday (unix_seconds (t + zone * minute) / 86400))).
  { apply nth_no_break. repeat constructor; apply no_break_lit; reflexivity. }
  assert (no_break (month_name m)).
  { apply nth_no_break. repeat constructor; apply no_break_lit; reflexivity. }
  unfold clock_fields, format_zone. no_breaks. destruct (zone <? 0); apply no_break_lit; reflexivity.
Qed.
#[export] Hint Resolve rfc1123z_no_break : xmx.

(** ** Reading and writing a duration ([time.ParseDuration], [Duration.String])

    The fraction of a number is scaled in float64, here [SpecFloat]'s binary64. *)

#[local] Ltac Zify.zify_post_hook ::= idtac.
#[local] Open Scope Z_scope.

(** ** binary64 *)

Definition of_Z (n : Z) : spec_float := binary_normalize 53 1024 n 0 false.

(** [uint64(x)] of a value that is not negative. *)
Definition truncated (x : spec_float) : Z :=
  match x with
  | S754_finite false m e => if 0 <=? e then Zpos m * 2 ^ e else Zpos m / 2 ^ (- e)
  | _ => 0
  end.

(** ** The digits of a number *)

(** [leadingInt]: the value below [2^63 + 1], and the rest. *)
Fixpoint leadingInt (x : Z) (s : text) : option (Z * text) :=
  match s with
  | c :: r =>
      if is_digit c then
        if 2 ^ 63 / 10 <? x then None
        else
          let x := x * 10 + (code c - 48) in
          if 2 ^ 63 <? x then None else leadingInt x r
      else Some (x, s)
  | [] => Some (x, [])
  end.

(** [leadingFraction]: the digits that fit, the power of ten they are divided by, and the rest. *)
Fixpoint leadingFraction (x scale : Z) (overflow : bool) (s : text) : Z * Z * text :=
  match s with
  | c :: r =>
      if is_digit c then
        if overflow || ((2 ^ 63 - 1) / 10 <? x) then leadingFraction x scale true r
        else
          let y := x * 10 + (code c - 48) in
          if 2 ^ 63 <? y then leadingFraction x scale true r else leadingFraction y (scale * 10) false r
      else (x, scale, s)
  | [] => (x, scale, [])
  end.

(** The text up to the next digit or point. *)
Fixpoint unit_text (s : text) : text * text :=
  match s with
  | c :: r => if is_digit c || bool_decide (c = "."%char) then ([], s) else let '(u, r) := unit_text r in (c :: u, r)
  | [] => ([], [])
  end.

Definition micro : Z := 1000.

(** The two letters that look like mu, in UTF-8. *)
Definition unitMap : list (text * Z) :=
  [(T "ns", 1); (T "us", micro); (["194"; "181"; "s"]%char, micro); (["206"; "188"; "s"]%char, micro);
   (T "ms", 1000000); (T "s", second); (T "m", minute); (T "h", hour)].

Definition unit_named (u : text) : option Z :=
  snd <$> find (fun kv => bool_decide (fst kv = u)) unitMap.

(** One number and its unit: the value in nanoseconds, and the rest. *)
Definition duration_part (s : text) : option (Z * text) :=
  '(v, s1) ← leadingInt 0 s;
  let pre := negb (length s1 =? length s)%nat in
  let '(f, scale, s2, post) :=
    match s1 with
    | "."%char :: r => let '(f, scale, r') := leadingFraction 0 1 false r in (f, scale, r', negb (length r' =? length r)%nat)
    | _ => (0, 1, s1, false)
    end in
  if negb pre && negb post then None
  else
    let '(u, s3) := unit_text s2 in
    if bool_decide (u = []) then None
    else
      unit ← unit_named u;
      if 2 ^ 63 / unit <? v then None
      else
        let v := v * unit in
        let v := if 0 <? f then v + truncated (SFmul 53 1024 (of_Z f) (SFdiv 53 1024 (of_Z unit) (of_Z scale))) else v in
        if 2 ^ 63 <? v then None else Some (v, s3).

(** A part takes at least one character. *)
Fixpoint duration_parts (fuel : nat) (d : Z) (s : text) : option Z :=
  match fuel, s with
  | _, [] => Some d
  | O, _ => None
  | S fuel, c :: _ =>
      if bool_decide (c = "."%char) || is_digit c then
        '(v, s) ← duration_part s;
        if 2 ^ 63 <? d + v then None else duration_parts fuel (d + v) s
      else None
  end.

(** [None] is an error, whose text the callers do not look at. *)
Definition ParseDuration (s : text) : option Z :=
  let '(neg, s) := match s with
                   | "-"%char :: r => (true, r)
                   | "+"%char :: r => (false, r)
                   | _ => (false, s)
                   end in
  if bool_decide (s = T "0") then Some 0
  else if bool_decide (s = []) then None
  else
    d ← duration_parts (length s) 0 s;
    if neg then Some (- d) else if 2 ^ 63 - 1 <? d then None else Some d.

Example ParseDuration_ex :
  map (fun s => ParseDuration (T s)) ["1h30m"; "720h"; "-1.5h"; "0"; ".5s"; "1"; "x"; "."; "1.s"; "9223372036854775807ns";
                                      "9223372036854775808ns"; "-9223372036854775808ns"; "0.1ms"; "1.0000000000001h"]%string
  = [Some (90 * minute); Some (720 * hour); Some (- 90 * minute); Some 0; Some 500000000; None; None; None; Some second;
     Some (2 ^ 63 - 1); None; Some (- 2 ^ 63); Some 100000; Some (hour)].
Proof. vm_compute. reflexivity. Qed.

(** ** Writing a duration ([Duration.String]) *)

(** [fmtFrac] of the last [prec] digits. *)
Definition frac_digits (prec : nat) (n : Z) : text :=
  match trim_right is_zero_digit (pad prec n) with [] => [] | d => "."%char :: d end.

Definition duration_text (u : Z) : text :=
  if u =? 0 then "0s"%string
  else if u <? 1000 then dec u ++ "ns"%string
  else if u <? 1000000 then dec (u / 1000) ++ frac_digits 3 u ++ ["194"; "181"; "s"]%char
  else if u <? second then dec (u / 1000000) ++ frac_digits 6 u ++ "ms"%string
  else
    let s := u / second in
    let m := s / 60 in
    (if m =? 0 then [] else (if m / 60 =? 0 then [] else dec (m / 60) ++ "h"%string) ++ dec (m mod 60) ++ "m"%string)
    ++ dec (s mod 60) ++ frac_digits 9 u ++ "s"%string.

Definition DurationString (d : Z) : text := if d <? 0 then "-"%string ++ duration_text (- d) else duration_text d.

Example DurationString_ex :
  map DurationString [0; 1; 1500; 2000000; 1250000; 1100000000; 90 * second; 120 * hour; - 5 * minute]
  = map T ["0s"; "1ns"]%string ++ [T "1.5" ++ ["194"; "181"; "s"]%char] ++
    map T ["2ms"; "1.25ms"; "1.1s"; "1m30s"; "120h0m0s"; "-5m0s"]%string.
Proof. vm_compute. reflexivity. Qed.

(** ** The parts of a duration take at least one character each, so the fuel is enough *)

Lemma leadingInt_shorter x s v r : leadingInt x s = Some (v, r) -> (length r <= length s)%nat.
Proof.
  revert x. induction s as [|c s IH]; intros x H; cbn in H; [by simplify_eq|]. repeat case_match; simplify_eq; cbn; [|lia].
  apply IH in H. lia.
Qed.

Lemma leadingFraction_shorter x sc o s v sc' r : leadingFraction x sc o s = (v, sc', r) -> (length r <= length s)%nat.
Proof.
  revert x sc o. induction s as [|c s IH]; intros x sc o H; cbn in H; [by simplify_eq|].
  repeat case_match; simplify_eq; cbn; try lia; apply IH in H; lia.
Qed.

Lemma unit_text_split s u r : unit_text s = (u, r) -> (length s = length u + length r)%nat.
Proof.
  revert u. induction s as [|c s IH]; intros u H; cbn in H; [by simplify_eq|]. repeat case_match; simplify_eq; cbn; [lia|].
  by erewrite IH.
Qed.

Lemma duration_part_shorter s v r : duration_part s = Some (v, r) -> (length r < length s)%nat.
Proof.
  unfold duration_part. intros H. destruct (leadingInt 0 s) as [[w s1]|] eqn:E1; [|done]. apply leadingInt_shorter in E1. cbn [mbind option_bind] in H.
  match type of H with context [match ?m with (_, _) => _ end] => destruct m as [[[f sc] s2] post] eqn:E2 end.
  assert (Hs2 : (length s2 <= length s1)%nat).
  { clear H. destruct s1 as [|c s1]; [by simplify_eq|]. 
    destruct c as [[] [] [] [] [] [] [] []]; simplify_eq; try lia.
    destruct (leadingFraction 0 1 false s1) as [[? ?] ?] eqn:E. apply leadingFraction_shorter in E. simplify_eq. cbn. lia. }
  destruct (_ && _); [done|]. destruct (unit_text s2) as [u s3] eqn:E3. apply unit_text_split in E3.
  case_bool_decide as Hu; [done|]. destruct (unit_named u); [|done]. cbn [mbind option_bind] in H. repeat case_match; simplify_eq.
  all: destruct u as [|? u]; [done|]. all: cbn [length] in *; lia.
Qed.

Lemma duration_parts_enough n m d s :
  (length s <= n)%nat -> (length s <= m)%nat -> duration_parts n d s = duration_parts m d s.
Proof.
  revert m d s. induction n as [|n IH]; intros m d s Hn Hm; [by destruct s, m; cbn in *; try lia|].
  destruct s as [|c s]; [by destruct m|]. destruct m as [|m]; [cbn in Hm; lia|]. cbn [duration_parts].
  destruct (_ || _); [|done]. destruct (duration_part (c :: s)) as [[v r]|] eqn:E; [|done]. cbn [mbind option_bind].
  apply duration_part_shorter in E. cbn [length] in *. destruct (2 ^ 63 <? d + v); [done|]. apply IH; lia.
Qed.
