(* ===== verification/RateLimit.v ===== *)
(** * The attempt limiter (internal/ratelimit)

    A sliding window of attempts per key, under one lock: a call is one step, and the
    clock it reads under the lock does not run backwards. *)

From S2P Require Import Prelude.

Definition maxKeys : nat := Z.to_nat 10000.
#[global] Opaque maxKeys.

Record Limiter := {
  lm_max : Z;
  lm_window : Z;
  lm_attempts : gmap text (list Z)
}.

Definition New (max window : Z) : Limiter := {| lm_max := max; lm_window := window; lm_attempts := ∅ |}.

Definition set_attempts (m : gmap text (list Z)) (l : Limiter) : Limiter :=
  {| lm_max := lm_max l; lm_window := lm_window l; lm_attempts := m |}.

(** A key whose last attempt is before the cutoff (or that has none) is forgotten. *)
Definition stale (cutoff : Z) (v : list Z) : bool :=
  match last v with None => true | Some t => t <? cutoff end.

Definition sweep (cutoff : Z) (m : gmap text (list Z)) : gmap text (list Z) :=
  if (maxKeys <? size m)%nat then filter (fun kv => stale cutoff (snd kv) = false) m else m.

Definition attempts_of (key : text) (m : gmap text (list Z)) : list Z := default [] (m !! key).

Definition Allow (key : text) (now : Z) (l : Limiter) : bool * Limiter :=
  let cutoff := now - lm_window l in
  let kept := List.filter (fun t => cutoff <? t) (attempts_of key (lm_attempts l)) in
  if lm_max l <=? Z.of_nat (length kept) then (false, set_attempts (<[key := kept]> (lm_attempts l)) l)
  else (true, set_attempts (sweep cutoff (<[key := kept ++ [now]]> (lm_attempts l))) l).

Definition Reset (key : text) (l : Limiter) : Limiter := set_attempts (delete key (lm_attempts l)) l.

(** ** Runs *)

Inductive limiter_op := LAllow (key : text) (now : Z) | LReset (key : text).

Definition run_limiter_op (l : Limiter) (op : limiter_op) : Limiter :=
  match op with LAllow k now => snd (Allow k now l) | LReset k => Reset k l end.

(** When [key] was let through. *)
Fixpoint granted (key : text) (l : Limiter) (ops : list limiter_op) : list Z :=
  match ops with
  | [] => []
  | op :: rest =>
      match op with
      | LAllow k now => if bool_decide (k = key) && fst (Allow k now l) then [now] else []
      | LReset _ => []
      end ++ granted key (run_limiter_op l op) rest
  end.

(** The clock does not run backwards, and [key] is not reset. *)
Fixpoint in_order (key : text) (t : Z) (ops : list limiter_op) : Prop :=
  match ops with
  | [] => True
  | LAllow _ now :: rest => t <= now /\ in_order key now rest
  | LReset k :: rest => k <> key /\ in_order key t rest
  end.

Definition within (from_ until : Z) (t : Z) : bool := (from_ <? t) && (t <=? until).

(** ** Lemmas *)

Lemma filter_filter_imp {A} (p q : A -> bool) l :
  (forall x, p x = true -> q x = true) -> List.filter p (List.filter q l) = List.filter p l.
Proof.
  intros H. induction l as [|x l IH]; [done|]. cbn. destruct (q x) eqn:Eq; cbn.
  - by rewrite IH.
  - destruct (p x) eqn:Ep; [by rewrite H in Eq|done].
Qed.

Lemma length_filter_imp {A} (p q : A -> bool) l :
  (forall x, x ∈ l -> p x = true -> q x = true) -> (length (List.filter p l) <= length (List.filter q l))%nat.
Proof.
  induction l as [|x l IH]; intros H; [done|]. cbn.
  assert (length (List.filter p l) <= length (List.filter q l))%nat.
  { apply IH. intros y Hy. apply H. by apply list_elem_of_further. }
  destruct (p x) eqn:Ep; [rewrite (H x) by (done || apply list_elem_of_here)|destruct (q x)]; cbn; lia.
Qed.

(** What the limiter remembers of a key with past grants [G], the clock at [T]. *)
Record remembers (key : text) (l : Limiter) (G : list Z) (T : Z) : Prop := {
  rm_live : List.filter (fun t => T - lm_window l <? t) (attempts_of key (lm_attempts l))
            = List.filter (fun t => T - lm_window l <? t) G;
  rm_past : forall t, t ∈ G -> t <= T;
  rm_last : forall t u, t ∈ attempts_of key (lm_attempts l) -> last (attempts_of key (lm_attempts l)) = Some u -> t <= u;
  rm_kept : forall t, t ∈ attempts_of key (lm_attempts l) -> t <= T
}.

Lemma remembers_later key l G T T' : T <= T' -> remembers key l G T -> remembers key l G T'.
Proof.
  intros HT [Hlive Hpast Hlast Hkept]. split; [|intros t Ht; specialize (Hpast t Ht); lia|done|intros t Ht; specialize (Hkept t Ht); lia].
  rewrite <- (filter_filter_imp _ (fun t => T - lm_window l <? t) (attempts_of _ _)), Hlive, filter_filter_imp;
    [done|intros x Hx; bools; apply Z.ltb_lt; lia..].
Qed.

Lemma attempts_sweep key cutoff m :
  attempts_of key (sweep cutoff m) = attempts_of key m \/
  (attempts_of key (sweep cutoff m) = [] /\ stale cutoff (attempts_of key m) = true).
Proof.
  unfold sweep. destruct (_ <? _)%nat; [|by left]. unfold attempts_of.
  destruct (m !! key) as [v|] eqn:E.
  - destruct (stale cutoff v) eqn:Es.
    + right. rewrite map_lookup_filter, E. cbn. by rewrite option_guard_False by (cbn; congruence).
    + left. rewrite map_lookup_filter, E. cbn. by rewrite option_guard_True.
  - left. by rewrite map_lookup_filter, E.
Qed.

Lemma last_snoc_max (l : list Z) now t u :
  (forall t, t ∈ l -> t <= now) -> t ∈ l ++ [now] -> last (l ++ [now]) = Some u -> t <= u.
Proof.
  intros Hl Ht. rewrite last_snoc. intros [= <-]. apply elem_of_app in Ht as [Ht|Ht%list_elem_of_singleton]; [auto|lia].
Qed.

Lemma filter_last_max (p : Z -> bool) l T t u :
  (forall t, t ∈ l -> t <= T) -> (forall x y, x <= y -> p x = true -> p y = true) ->
  (forall t u, t ∈ l -> last l = Some u -> t <= u) ->
  t ∈ List.filter p l -> last (List.filter p l) = Some u -> t <= u.
Proof.
  intros _ Hp Hlast Ht Hu. apply elem_of_List_filter in Ht as [Hpt Ht].
  destruct (last l) as [v|] eqn:Ev; [|apply last_None in Ev; subst; by apply not_elem_of_nil in Ht].
  specialize (Hlast t v Ht eq_refl). apply last_Some in Ev as [l' ->].
  assert (Hv : p v = true) by eauto. rewrite List.filter_app in Hu. cbn in Hu. rewrite Hv, last_snoc in Hu.
  by injection Hu as <-.
Qed.

Lemma window_run_limiter_op l op : lm_window (run_limiter_op l op) = lm_window l /\ lm_max (run_limiter_op l op) = lm_max l.
Proof. destruct op; cbn; [unfold Allow; destruct (_ <=? _)|]; done. Qed.

(** One call keeps the memory, its own key's grant added. *)
Lemma remembers_Allow key k now l G T :
  0 < lm_window l -> T <= now -> remembers key l G T ->
  remembers key (snd (Allow k now l)) (G ++ (if bool_decide (k = key) && fst (Allow k now l) then [now] else [])) now.
Proof.
  intros Hw HT Hrm. apply (remembers_later _ _ _ _ now HT) in Hrm as [Hlive Hpast Hlast Hkept].
  unfold Allow. set (cutoff := now - lm_window l) in *.
  set (kept := List.filter (fun t => cutoff <? t) (attempts_of k (lm_attempts l))).
  assert (Hown : forall m, attempts_of k (<[k := m]> (lm_attempts l)) = m) by (intros; unfold attempts_of; by rewrite lookup_insert_eq).
  assert (Hoth : forall m, k <> key -> attempts_of key (<[k := m]> (lm_attempts l)) = attempts_of key (lm_attempts l))
    by (intros; unfold attempts_of; by rewrite lookup_insert_ne).
  assert (Hkk : k = key -> kept = List.filter (fun t => cutoff <? t) G) by (intros ->; exact Hlive).
  assert (Hkmax : k = key -> forall t, t ∈ kept -> t <= now).
  { intros -> t [_ Ht]%elem_of_List_filter. auto. }
  assert (Hklast : k = key -> forall t u, t ∈ kept -> last kept = Some u -> t <= u).
  { intros -> t u. apply (filter_last_max _ _ now); [done| |done]. intros x y Hxy Hx. bools. apply Z.ltb_lt. lia. }
  destruct (lm_max l <=? Z.of_nat (length kept)); cbn [fst snd]; rewrite ?andb_false_r, ?andb_true_r.
  - rewrite app_nil_r. destruct (decide (k = key)) as [->|Hne].
    + split; cbn [lm_attempts lm_window set_attempts]; rewrite ?Hown; [|done|by apply Hklast|by apply Hkmax].
      unfold kept. rewrite filter_filter_imp by done. exact Hlive.
    + split; cbn [lm_attempts lm_window set_attempts]; by rewrite ?Hoth by done.
  - destruct (decide (k = key)) as [->|Hne].
    + rewrite bool_decide_eq_true_2 by done.
      assert (Hs : attempts_of key (sweep cutoff (<[key := kept ++ [now]]> (lm_attempts l))) = kept ++ [now]).
      { destruct (attempts_sweep key cutoff (<[key := kept ++ [now]]> (lm_attempts l))) as [->|[_ Hst]]; [by rewrite Hown|].
        rewrite Hown in Hst. unfold stale in Hst. rewrite last_snoc in Hst. bools. unfold cutoff in Hst. lia. }
      split; cbn [lm_attempts lm_window set_attempts]; rewrite ?Hs.
      * rewrite !List.filter_app. f_equal. unfold kept. rewrite filter_filter_imp by done. exact Hlive.
      * intros t [?|Ht%list_elem_of_singleton]%elem_of_app; [auto|lia].
      * intros t u. apply last_snoc_max. by apply Hkmax.
      * intros t [?|Ht%list_elem_of_singleton]%elem_of_app; [by apply Hkmax|lia].
    + rewrite bool_decide_eq_false_2, app_nil_r by done.
      destruct (attempts_sweep key cutoff (<[k := kept ++ [now]]> (lm_attempts l))) as [Hs|[Hs Hst]];
        rewrite ?Hoth in * by done; split; cbn [lm_attempts lm_window set_attempts]; rewrite ?Hs; try done.
      * cbn [List.filter]. fold cutoff. rewrite <- Hlive. symmetry. apply list_nil_iff_no_elem.
        intros x [Hx Hin]%elem_of_List_filter. unfold stale in Hst.
        destruct (last (attempts_of key (lm_attempts l))) as [u|] eqn:Eu.
        -- specialize (Hlast x u Hin eq_refl). bools. lia.
        -- apply last_None in Eu. rewrite Eu in Hin. by apply not_elem_of_nil in Hin.
      * intros t Ht. by apply not_elem_of_nil in Ht.
Qed.

Lemma remembers_Reset key k l G T : k <> key -> remembers key l G T -> remembers key (Reset k l) G T.
Proof.
  intros Hne [Hlive Hpast Hlast Hkept].
  assert (E : attempts_of key (delete k (lm_attempts l)) = attempts_of key (lm_attempts l))
    by (unfold attempts_of; by rewrite lookup_delete_ne).
  split; cbn [lm_attempts lm_window Reset set_attempts]; by rewrite ?E.
Qed.

(** A grant finds fewer than the limit in the window before it. *)
Lemma Allow_bound key now l G T from_ :
  remembers key l G T -> T <= now -> fst (Allow key now l) = true -> now <= from_ + lm_window l ->
  Z.of_nat (length (List.filter (within from_ (from_ + lm_window l)) G)) < lm_max l.
Proof.
  intros Hrm HT Hok Hfrom. apply (remembers_later _ _ _ _ now HT) in Hrm as [Hlive _ _ _].
  unfold Allow in Hok. rewrite Hlive in Hok. destruct (Z.leb_spec (lm_max l)
    (Z.of_nat (length (List.filter (fun t => now - lm_window l <? t) G)))) as [|Hlt]; [done|].
  eapply Z.le_lt_trans; [|exact Hlt]. apply Nat2Z.inj_le, length_filter_imp.
  intros t _ Ht. unfold within in Ht. bools. apply Z.ltb_lt. lia.
Qed.

Lemma granted_bound key ops l G T from_ :
  0 < lm_window l -> 0 <= lm_max l -> in_order key T ops -> remembers key l G T ->
  Z.of_nat (length (List.filter (within from_ (from_ + lm_window l)) G)) <= lm_max l ->
  Z.of_nat (length (List.filter (within from_ (from_ + lm_window l)) (G ++ granted key l ops))) <= lm_max l.
Proof.
  intros Hw Hmax. revert l G T Hw Hmax. induction ops as [|op ops IH]; intros l G T Hw Hmax Hord Hrm HG; cbn [granted].
  { by rewrite app_nil_r. }
  destruct (window_run_limiter_op l op) as [Ew Em]. rewrite app_assoc. destruct op as [k now|k]; cbn [in_order] in Hord.
  - destruct Hord as [HT Hord]. rewrite <- Ew, <- Em. apply (IH _ _ now); rewrite ?Ew, ?Em; [done..| |].
    + by apply (remembers_Allow _ _ _ _ _ T).
    + destruct (bool_decide (k = key) && fst (Allow k now l)) eqn:Eg; [|by rewrite app_nil_r].
      rewrite List.filter_app. cbn. destruct (within from_ (from_ + lm_window l) now) eqn:Ein; [|by rewrite app_nil_r].
      bools. subst k. unfold within in Ein. bools.
      pose proof (Allow_bound key now l G T from_ Hrm HT) as Hb. rewrite length_app. cbn [length].
      assert (Hlt : Z.of_nat (length (List.filter (within from_ (from_ + lm_window l)) G)) < lm_max l) by by apply Hb.
      lia.
  - destruct Hord as [Hne Hord]. rewrite app_nil_r, <- Ew, <- Em.
    apply (IH _ _ T); rewrite ?Ew, ?Em; [done..| |done]. by apply remembers_Reset.
Qed.

(** ** The bound *)

(** Whatever the calls, for whatever keys and in whatever number, a key that is not
    reset is let through at most [max] times in any stretch of time as long as the
    window; forgetting idle keys when there are many never lifts a limit. *)
Theorem limiter_bound max window key ops start from_ :
  0 <= max -> 0 < window -> in_order key start ops ->
  Z.of_nat (length (List.filter (within from_ (from_ + window)) (granted key (New max window) ops))) <= max.
Proof.
  intros Hmax Hw Hord. apply (granted_bound key ops (New max window) [] start from_); try done.
  split; cbn [lm_attempts lm_window New]; unfold attempts_of; rewrite ?lookup_empty; cbn [default].
  - done.
  - intros t Ht. by apply not_elem_of_nil in Ht.
  - intros t u Ht. by apply not_elem_of_nil in Ht.
  - intros t Ht. by apply not_elem_of_nil in Ht.
Qed.

Lemma limiter_bound_witness :
  let ops := [LAllow "a"%string 0; LAllow "b"%string 1; LAllow "a"%string 2; LAllow "a"%string 3; LReset "b"%string; LAllow "a"%string 11] in
  granted "a"%string (New 2 10) ops = [0; 2; 11] /\
  Z.of_nat (length (List.filter (within (-1) 9) (granted "a"%string (New 2 10) ops))) <= 2.
Proof.
  split; [vm_compute; reflexivity|]. apply (limiter_bound 2 10 "a"%string _ 0 (-1)); [lia|lia|]. cbn. split_and!; (done || lia).
Defined.
