(* ===== verification/Errors.v ===== *)
(** * Go's error values, as far as the sources inspect them

    [errors.New] and [fmt.Errorf] without [%w] give [EText]; [fmt.Errorf] with one
    [%w] gives [EWrap], with two [EBoth]; a sentinel compared by [errors.Is] is
    [ESentinel].  [errors.As] and [errors.Is] walk the wrapping depth first. *)

From S2P Require Import Prelude GoStrings.

(** [smtp.EnhancedCode] and [smtp.SMTPError] of the go-smtp package. *)
Record enhanced_code := Enh { enh_class : Z; enh_subject : Z; enh_detail : Z }.

Record smtp_error := SMTPError { Code : Z; EnhancedCode : enhanced_code; Message : text }.

(** The sentinels the sources test for. *)
Inductive sentinel :=
| ErrNotFound            (* store/queue.go *)
| ErrMailFrom            (* sender/outbound.go, errMailFrom *)
| ErrTooLargeToScan      (* smtpd/smtpd.go, errTooLargeToScan *)
| ErrBlobExceeds         (* blob/blob.go, the error whose text holds "exceeds" *)
| ErrCorrupt             (* blob/blob.go *)
| ErrUnexpectedEOF       (* io.ErrUnexpectedEOF, compared with == *)
| ErrContext             (* ctx.Err(): deadline exceeded or cancelled *)
| ErrNonPublic           (* smtpclient/public.go, ErrNonPublicAddress *)
| ErrEmailUnverified.    (* oidc/oidc.go *)

Inductive error :=
| ESMTP (e : smtp_error)
| EDNS (is_not_found : bool) (msg : text)
| ESentinel (s : sentinel) (msg : text)
| EText (msg : text)
| EWrap (prefix : text) (e : error)
| EBoth (e1 e2 : error).

#[export] Instance enhanced_code_eq_dec : EqDecision enhanced_code.
Proof. solve_decision. Defined.
#[export] Instance smtp_error_eq_dec : EqDecision smtp_error.
Proof. solve_decision. Defined.
#[export] Instance sentinel_eq_dec : EqDecision sentinel.
Proof. solve_decision. Defined.
#[export] Instance error_eq_dec : EqDecision error.
Proof. solve_decision. Defined.

(** [errors.As(err, &reply)] for [*smtp.SMTPError]. *)
Fixpoint as_smtp (e : error) : option smtp_error :=
  match e with
  | ESMTP r => Some r
  | EDNS _ _ | ESentinel _ _ | EText _ => None
  | EWrap _ e => as_smtp e
  | EBoth e1 e2 => match as_smtp e1 with Some r => Some r | None => as_smtp e2 end
  end.

(** [errors.As(err, &dnsErr)] for [*net.DNSError], its [IsNotFound]. *)
Fixpoint as_dns (e : error) : option bool :=
  match e with
  | EDNS b _ => Some b
  | ESMTP _ | ESentinel _ _ | EText _ => None
  | EWrap _ e => as_dns e
  | EBoth e1 e2 => match as_dns e1 with Some r => Some r | None => as_dns e2 end
  end.

(** [errors.Is(err, sentinel)]. *)
Fixpoint is_sentinel (s : sentinel) (e : error) : bool :=
  match e with
  | ESentinel s' _ => bool_decide (s = s')
  | ESMTP _ | EDNS _ _ | EText _ => false
  | EWrap _ e => is_sentinel s e
  | EBoth e1 e2 => is_sentinel s e1 || is_sentinel s e2
  end.

(** [reply.Code >= 500 && reply.Code < 600]. *)
Definition code_5xx (r : smtp_error) : bool := (500 <=? Code r) && (Code r <? 600).

(** [errors.As(err, &permanent) && 500 <= Code < 600]: a permanent refusal. *)
Definition permanent (e : error) : bool :=
  match as_smtp e with Some r => code_5xx r | None => false end.

(** What the sources take from go-smtp besides its types: the text of a reply, and
    the errors it exports for authentication. *)
Class SmtpLib := {
  smtp_error_text : smtp_error -> text;
  ErrAuthRequired : smtp_error;
  ErrAuthFailed : smtp_error;
  ErrAuthUnsupported : smtp_error
}.

Fixpoint error_text `{SmtpLib} (e : error) : text :=
  match e with
  | ESMTP r => smtp_error_text r
  | EDNS _ m | ESentinel _ m | EText m => m
  | EWrap p e => p ++ ": "%string ++ error_text e
  | EBoth e1 e2 => error_text e1 ++ ": "%string ++ error_text e2
  end.

(** A Go function that returns [(x, error)]. *)
Inductive result (A : Type) := Ok (a : A) | Err (e : error).
Arguments Ok {A} _.
Arguments Err {A} _.

Definition is_ok {A} (r : result A) : bool := match r with Ok _ => true | Err _ => false end.

Lemma permanent_wrap p e : permanent (EWrap p e) = permanent e.
Proof. done. Qed.

(** A permanent error is one with a reply; anything else is retried. *)
Lemma permanent_reply e : permanent e = true -> exists r, as_smtp e = Some r /\ 500 <= Code r < 600.
Proof.
  unfold permanent, code_5xx. destruct (as_smtp e) as [r|]; [|done].
  intros H. bools. eauto.
Qed.
