(* ===== verification/Totp.v ===== *)
(** * One-time passwords (internal/totp)

    The secret in base32, the code of a time step, the window of steps accepted and the
    recovery codes.  The picture of the address (rsc.io/qr) is not modelled. *)

From S2P Require Import Prelude GoStrings Base64 Sha Times Errors.
Open Scope Z_scope.

(** ** encoding/base32, the standard alphabet without padding *)

Definition b32_alphabet : text := "ABCDEFGHIJKLMNOPQRSTUVWXYZ234567"%string.

(** The [w] low bits of a number, the highest first. *)
Fixpoint bits_of (w : nat) (n : Z) : list bool :=
  match w with O => [] | S w => Z.testbit n (Z.of_nat w) :: bits_of w n end.

Definition bits_value (bs : list bool) : Z := fold_left (fun acc b => 2 * acc + Z.b2z b) bs 0.

(** The first [n] groups of [k] bits; what a group lacks is zero. *)
Fixpoint bit_groups (k n : nat) (bs : list bool) : list Z :=
  match n with
  | O => []
  | S n => bits_value (take k (bs ++ replicate k false)) :: bit_groups k n (drop k bs)
  end.

Definition bits_concat (w : nat) (ns : list Z) : list bool := concat (map (bits_of w) ns).

Definition b32_encode (s : text) : text :=
  map (sextet_char b32_alphabet) (bit_groups 5 ((8 * length s + 4) / 5) (bits_concat 8 (map code s))).

(** The bytes a last group of [n] characters holds; one of 1, 3 or 6 characters holds none. *)
Definition b32_tail (n : nat) : nat :=
  match n with 2 => 1 | 4 => 2 | 5 => 3 | 7 => 4 | _ => 0 end%nat.

(** [DecodeString]: line ends are dropped first. *)
Definition b32_decode (s : text) : option text :=
  let s := List.filter (fun c => negb (bool_decide (c = CR) || bool_decide (c = LF))) s in
  match mapM (char_sextet b32_alphabet) s with
  | None => None
  | Some ns =>
      let n := (length ns / 8 * 5 + b32_tail (length ns mod 8))%nat in
      Some (map byte_of (bit_groups 8 n (bits_concat 5 ns)))
  end.

(** ** The codes *)

Definition Digits : nat := 6.
Definition Period : Z := 30.
Definition Skew : Z := 1.
Definition secretBytes : nat := 20.
Definition RecoveryCodeCount : nat := 10.
Definition recoveryCodeBytes : nat := 7.

Definition ErrInvalidSecret : error := EText "totp: invalid secret"%string.

(** [random] is what [rand.Read] fills the buffer with, if it does. *)
Definition NewSecret (random : result text) : result text :=
  match random with
  | Err e => Err (EWrap "totp: generate secret"%string e)
  | Ok b => Ok (b32_encode b)
  end.

Definition Step (t : Z) : Z := Z.quot (unix_seconds t) Period.

(** The code of a key at a step, as RFC 6238 cuts it out of the HMAC. *)
Definition hotp (key : text) (step : Z) : text :=
  let sum := hmac_sha1 key (put_be64 step) in
  let off := Z.to_nat (Z.land (code (List.last sum "000"%char)) 15) in
  let v := Z.land (get_be32 (drop off sum)) 2147483647 in
  pad 6 (v mod 1000000).

Definition Code (secret : text) (step : Z) : result text :=
  match b32_decode (to_upper (trim_space secret)) with
  | None | Some [] => Err ErrInvalidSecret
  | Some key => Ok (hotp key step)
  end.

Definition LooksLikeCode (code : text) : bool :=
  let code := remove_byte " "%char (trim_space code) in
  (length code =? Digits)%nat && forallb is_digit code.

(** The steps from [-Skew] to [Skew] around the current one, in order. *)
Fixpoint verify_loop (secret code : text) (lastStep : Z) (steps : list Z) : Z * bool :=
  match steps with
  | [] => (0, false)
  | step :: rest =>
      if step <=? lastStep then verify_loop secret code lastStep rest
      else match Code secret step with
           | Err _ => (0, false)
           | Ok want => if bool_decide (want = code) then (step, true) else verify_loop secret code lastStep rest
           end
  end.

Definition window (now : Z) : list Z := map (fun d => Step now + d) [- Skew; 0; Skew].

Definition Verify (secret code : text) (now lastStep : Z) : Z * bool :=
  let code := remove_byte " "%char (trim_space code) in
  if negb (LooksLikeCode code) then (0, false)
  else verify_loop secret code lastStep (window now).

(** ** The address of the secret (net/url) *)

Definition unreserved (c : ascii) : bool :=
  is_digit c || ((65 <=? code c) && (code c <=? 90)) || ((97 <=? code c) && (code c <=? 122))
  || bool_decide (c ∈ T "-_.~").

Definition hex_upper (n : Z) : ascii := nth (Z.to_nat n) (T "0123456789ABCDEF") "0"%char.
Definition percent (c : ascii) : text := ["%"%char; hex_upper (code c / 16); hex_upper (code c mod 16)].

Definition QueryEscape (s : text) : text :=
  concat (map (fun c => if unreserved c then [c] else if bool_decide (c = SP) then ["+"%char] else percent c) s).

Definition PathEscape (s : text) : text :=
  concat (map (fun c => if unreserved c || bool_decide (c ∈ T "$&+:=@") then [c] else percent c) s).

(** [v.Encode] sorts the keys. *)
Definition URI (issuer account secret : text) : text :=
  "otpauth://totp/"%string ++ PathEscape (issuer ++ ":"%string ++ account)
  ++ "?algorithm=SHA1&digits="%string ++ dec (Z.of_nat Digits) ++ "&issuer="%string ++ QueryEscape issuer
  ++ "&period="%string ++ dec Period ++ "&secret="%string ++ QueryEscape secret.

(** ** Recovery codes *)

Definition recovery_code (b : text) : text :=
  let s := take 10 (to_lower (b32_encode b)) in take 5 s ++ "-"%string ++ drop 5 s.

(** [randoms] are the draws of [rand.Read], one for each code. *)
Fixpoint recovery_codes (n : nat) (randoms : list (result text)) : result (list text) :=
  match n, randoms with
  | O, _ => Ok []
  | S n, Ok b :: rest =>
      match recovery_codes n rest with Ok cs => Ok (recovery_code b :: cs) | Err e => Err e end
  | S n, Err e :: _ => Err (EWrap "totp: generate recovery code"%string e)
  | S n, [] => Err (EWrap "totp: generate recovery code"%string (EText "no random bytes"%string))
  end.

Definition NewRecoveryCodes (randoms : list (result text)) : result (list text) :=
  recovery_codes RecoveryCodeCount randoms.

Definition NormalizeRecoveryCode (code : text) : text :=
  remove_byte SP (remove_byte "-"%char (to_lower (trim_space code))).

Definition HashRecoveryCode (code : text) : text := hex_encode (Sum256 (NormalizeRecoveryCode code)).

(** The vectors of RFC 6238, cut to six digits. *)
Example code_59 : Code (b32_encode "12345678901234567890"%string) (Step (59 * second)) = Ok (T "287082").
Proof. vm_compute. reflexivity. Qed.

Example code_1111111109 :
  Code (b32_encode "12345678901234567890"%string) (Step (1111111109 * second)) = Ok (T "081804").
Proof. vm_compute. reflexivity. Qed.

Example b32_ex : b32_encode "foobar"%string = T "MZXW6YTBOI" /\ b32_decode "MZXW6YTBOI"%string = Some (T "foobar").
Proof. vm_compute. done. Qed.

Example uri_ex : URI "X MX"%string "a@b.c"%string "MZXW"%string =
  T "otpauth://totp/X%20MX:a@b.c?algorithm=SHA1&digits=6&issuer=X+MX&period=30&secret=MZXW".
Proof. vm_compute. reflexivity. Qed.

Example recovery_ex : NormalizeRecoveryCode " ABCDE-fghij "%string = T "abcdefghij".
Proof. vm_compute. reflexivity. Qed.

(** ** Base32 *)

Lemma bits_value_acc l acc : fold_left (fun acc b => 2 * acc + Z.b2z b) l acc = acc * 2 ^ Z.of_nat (length l) + bits_value l.
Proof.
  unfold bits_value. revert acc. induction l as [|b l IH]; intros acc; cbn [fold_left length]; [lia|].
  rewrite (IH (2 * acc + _)), (IH (2 * 0 + _)), Nat2Z.inj_succ, Z.pow_succ_r by lia. lia.
Qed.

Lemma bits_value_cons b l : bits_value (b :: l) = Z.b2z b * 2 ^ Z.of_nat (length l) + bits_value l.
Proof. unfold bits_value at 1. cbn [fold_left]. rewrite bits_value_acc. done. Qed.

Lemma bits_value_range l : 0 <= bits_value l < 2 ^ Z.of_nat (length l).
Proof.
  induction l as [|b l IH]; [done|]. rewrite bits_value_cons. cbn [length].
  rewrite Nat2Z.inj_succ, Z.pow_succ_r by lia. destruct b; cbn [Z.b2z]; lia.
Qed.

Lemma length_bits_of w n : length (bits_of w n) = w.
Proof. induction w; cbn; congruence. Qed.

Lemma testbit_div a i : 0 <= i -> Z.testbit a i = (a / 2 ^ i mod 2 =? 1).
Proof.
  intros Hi. pose proof (Z.testbit_spec' a i Hi) as H. destruct (Z.testbit a i); cbn in H; rewrite <- H; done.
Qed.

(** The [w] low bits do not see what is above them. *)
Lemma bits_of_high w i b v : (w <= i)%nat -> bits_of w (b * 2 ^ Z.of_nat i + v) = bits_of w v.
Proof.
  induction w as [|w IH]; intros Hi; [done|]. cbn. rewrite IH by lia. f_equal.
  rewrite !testbit_div by lia.
  replace (Z.of_nat i) with (Z.of_nat w + (1 + (Z.of_nat i - Z.of_nat w - 1))) by lia.
  rewrite !Z.pow_add_r by lia.
  replace (b * (2 ^ Z.of_nat w * (2 ^ 1 * 2 ^ (Z.of_nat i - Z.of_nat w - 1))) + v)
    with (v + (b * 2 ^ (Z.of_nat i - Z.of_nat w - 1) * 2) * 2 ^ Z.of_nat w) by (rewrite Z.pow_1_r; ring).
  rewrite Z.div_add, Z.mod_add by lia. done.
Qed.

Lemma bits_of_value l : bits_of (length l) (bits_value l) = l.
Proof.
  induction l as [|b l IH]; [done|]. cbn [length bits_of]. rewrite bits_value_cons. f_equal.
  - rewrite testbit_div by lia. pose proof (bits_value_range l).
    rewrite Z.div_add_l, Z.div_small by lia. by destruct b.
  - rewrite bits_of_high by lia. done.
Qed.

Lemma bits_value_of w n : 0 <= n < 2 ^ Z.of_nat w -> bits_value (bits_of w n) = n.
Proof.
  revert n. induction w as [|w IH]; intros n Hn; [cbn in *; lia|]. cbn [bits_of].
  rewrite bits_value_cons, length_bits_of. rewrite Nat2Z.inj_succ, Z.pow_succ_r in Hn by lia.
  pose proof (Z.pow_pos_nonneg 2 (Z.of_nat w)) as Hp.
  pose proof (Z.div_mod n (2 ^ Z.of_nat w)) as Hd. pose proof (Z.mod_pos_bound n (2 ^ Z.of_nat w)) as Hm.
  assert (Hq : 0 <= n / 2 ^ Z.of_nat w < 2) by (split; [apply Z.div_pos; lia|apply Z.div_lt_upper_bound; lia]).
  replace (bits_of w n) with (bits_of w (n mod 2 ^ Z.of_nat w)).
  2: { rewrite <- (bits_of_high w w (n / 2 ^ Z.of_nat w)) by lia. f_equal. lia. }
  rewrite IH, testbit_div by lia.
  assert (Hb : Z.b2z (n / 2 ^ Z.of_nat w mod 2 =? 1) = n / 2 ^ Z.of_nat w).
  { assert (n / 2 ^ Z.of_nat w = 0 \/ n / 2 ^ Z.of_nat w = 1) as [-> | ->] by lia; done. }
  lia.
Qed.

Lemma length_bit_groups k n bs : length (bit_groups k n bs) = n.
Proof. revert bs. induction n as [|n IH]; intros bs; cbn; [done|]. by rewrite IH. Qed.

Lemma bit_groups_range k n bs x : x ∈ bit_groups k n bs -> 0 <= x < 2 ^ Z.of_nat k.
Proof.
  revert bs. induction n as [|n IH]; intros bs Hx; cbn in Hx; [by apply elem_of_nil in Hx|].
  apply elem_of_cons in Hx as [-> | Hx]; [|by eapply IH].
  pose proof (bits_value_range (take k (bs ++ replicate k false))) as Hr.
  rewrite length_take_le in Hr; [done|]. rewrite length_app, length_replicate. lia.
Qed.

(** Cutting bits in groups and laying the groups end to end only pads them. *)
Lemma bits_concat_groups k n bs :
  (length bs <= k * n)%nat ->
  bits_concat k (bit_groups k n bs) = bs ++ replicate (k * n - length bs) false.
Proof.
  revert bs. induction n as [|n IH]; intros bs Hl.
  - rewrite Nat.mul_0_r in *. destruct bs; [done|cbn in Hl; lia].
  - unfold bits_concat in *. cbn [bit_groups map concat].
    assert (Hk : length (take k (bs ++ replicate k false)) = k).
    { apply length_take_le. rewrite length_app, length_replicate. lia. }
    rewrite <- Hk at 1. rewrite bits_of_value, IH by (rewrite length_drop; lia).
    rewrite length_drop. destruct (le_lt_dec k (length bs)) as [Hc|Hc].
    + rewrite take_app_le by done. rewrite app_assoc, take_drop. f_equal. f_equal. lia.
    + rewrite take_app_ge by lia. rewrite drop_ge by lia. cbn. rewrite <- app_assoc. f_equal.
      rewrite take_replicate, Nat.min_l by lia. rewrite <- replicate_add. f_equal. lia.
Qed.

Lemma groups_of_concat k ns rest :
  Forall (fun n => 0 <= n < 2 ^ Z.of_nat k) ns ->
  bit_groups k (length ns) (bits_concat k ns ++ rest) = ns.
Proof.
  induction 1 as [|n ns Hn _ IH]; [done|]. unfold bits_concat in *. cbn [length bit_groups map concat].
  rewrite <- !app_assoc. rewrite take_app_length' by (by rewrite length_bits_of).
  rewrite drop_app_length' by (by rewrite length_bits_of). rewrite bits_value_of, IH by done. done.
Qed.

Lemma length_bits_concat w ns : length (bits_concat w ns) = (w * length ns)%nat.
Proof.
  unfold bits_concat. induction ns as [|n ns IH]; cbn; [lia|]. rewrite length_app, length_bits_of, IH. lia.
Qed.

Lemma b32_char n : 0 <= n < 32 ->
  char_sextet b32_alphabet (sextet_char b32_alphabet n) = Some n /\
  is_space (sextet_char b32_alphabet n) = false /\ upper_char (sextet_char b32_alphabet n) = sextet_char b32_alphabet n /\
  is_space (lower_char (sextet_char b32_alphabet n)) = false.
Proof.
  intros Hn. assert (Hc : n ∈ map Z.of_nat (seq 0 32)).
  { apply elem_of_map. exists (Z.to_nat n). split; [lia|]. apply elem_of_seq. lia. }
  revert n Hn Hc. cut (forallb (fun n => bool_decide (char_sextet b32_alphabet (sextet_char b32_alphabet n) = Some n)
    && negb (is_space (sextet_char b32_alphabet n))
    && bool_decide (upper_char (sextet_char b32_alphabet n) = sextet_char b32_alphabet n)
    && negb (is_space (lower_char (sextet_char b32_alphabet n)))) (map Z.of_nat (seq 0 32)) = true).
  { intros H n _ Hin. rewrite forallb_forall in H. apply list_elem_of_In, H in Hin.
    rewrite !andb_true_iff, !bool_decide_eq_true, !negb_true_iff in Hin. tauto. }
  vm_compute. reflexivity.
Qed.

Lemma b32_encode_chars s c : c ∈ b32_encode s -> exists n, 0 <= n < 32 /\ c = sextet_char b32_alphabet n.
Proof. unfold b32_encode. intros (n & -> & Hn%bit_groups_range)%elem_of_map. eauto. Qed.

Lemma to_upper_encode s : to_upper (trim_space (b32_encode s)) = b32_encode s.
Proof.
  rewrite trim_space_none.
  - unfold to_upper. rewrite <- (map_id (b32_encode s)) at 2. apply map_ext_in. intros c Hc%list_elem_of_In.
    apply b32_encode_chars in Hc as (n & Hn & ->). by apply b32_char.
  - intros c (n & Hn & ->)%b32_encode_chars. by apply b32_char.
Qed.

Lemma b32_decode_encode s : b32_decode (b32_encode s) = Some s.
Proof.
  unfold b32_decode. rewrite List_filter_all.
  2: { intros c (n & Hn & ->)%b32_encode_chars. pose proof (b32_char n Hn) as (_ & Hs & _).
       destruct (decide (sextet_char b32_alphabet n = CR)) as [E|E]; [by rewrite E in Hs|].
       destruct (decide (sextet_char b32_alphabet n = LF)) as [E'|E']; [by rewrite E' in Hs|].
       by rewrite !bool_decide_eq_false_2. }
  unfold b32_encode. set (n := ((8 * length s + 4) / 5)%nat).
  set (ns := bit_groups 5 n (bits_concat 8 (map code s))).
  assert (Hm : mapM (char_sextet b32_alphabet) (map (sextet_char b32_alphabet) ns) = Some ns).
  { apply mapM_Some. apply Forall2_fmap_l, Forall_Forall2_diag, Forall_forall. intros x Hx%bit_groups_range.
    by apply b32_char. }
  rewrite Hm. f_equal. assert (Hn : length ns = n) by apply length_bit_groups.
  assert (Hb : length (bits_concat 8 (map code s)) = (8 * length s)%nat) by (by rewrite length_bits_concat, length_map).
  assert (Hcount : (length ns / 8 * 5 + b32_tail (length ns mod 8) = length (map code s))%nat).
  { rewrite Hn, length_map. subst n ns. clear. set (k := length s).
    pose proof (Nat.div_mod_eq k 5) as Hk. set (q := (k / 5)%nat) in *. 
    assert (Hr : (k mod 5 < 5)%nat) by (apply Nat.mod_upper_bound; lia).
    remember (k mod 5)%nat as r eqn:Er. clear Er. rewrite Hk. clearbody q. clear Hk k.
    replace (8 * (5 * q + r) + 4)%nat with (8 * r + 4 + (8 * q) * 5)%nat by lia. rewrite Nat.div_add by lia.
    replace ((8 * r + 4) / 5 + 8 * q)%nat with ((8 * r + 4) / 5 + q * 8)%nat by lia.
    rewrite Nat.div_add, Nat.Div0.mod_add by lia.
    do 5 (destruct r as [|r]; [cbn; lia|]). lia. }
  rewrite Hcount. unfold ns. rewrite bits_concat_groups.
  - rewrite groups_of_concat.
    + rewrite map_map. rewrite <- (map_id s) at 2. apply map_ext. intros c. apply byte_of_code.
    + apply Forall_fmap, Forall_true. intros c. apply code_range.
  - rewrite Hb. subst n. pose proof (Nat.div_mod_eq (8 * length s + 4) 5). 
    pose proof (Nat.mod_upper_bound (8 * length s + 4) 5). lia.
Qed.

(** ** Codes *)

Lemma Code_encode b step : b <> [] -> Code (b32_encode b) step = Ok (hotp b step).
Proof. intros Hb. unfold Code. rewrite to_upper_encode, b32_decode_encode. by destruct b. Qed.

(** Whether a secret is valid does not depend on the step. *)
Lemma Code_valid secret step step' c : Code secret step = Ok c -> exists c', Code secret step' = Ok c'.
Proof. unfold Code. destruct (b32_decode _) as [[|]|]; naive_solver. Qed.

Lemma is_digit_digit n : 0 <= n < 10 -> is_digit (digit n) = true.
Proof.
  intros Hn. assert (H : Forall (fun n => is_digit (digit n) = true) (seqZ 0 10)) by (vm_compute; repeat constructor).
  rewrite Forall_forall in H. by apply H, elem_of_seqZ.
Qed.

Lemma pad_digits w n : 0 <= n -> length (pad w n) = w /\ forallb is_digit (pad w n) = true.
Proof.
  revert n. induction w as [|w IH]; intros n Hn; [done|]. cbn. destruct (IH (n / 10)) as [Hl Hd].
  { apply Z.div_pos; lia. }
  rewrite length_app, forallb_app, Hl, Hd. cbn. rewrite is_digit_digit; [split; [lia|done]|].
  by apply Z.mod_pos_bound.
Qed.

Lemma digits_kept s : forallb is_digit s = true -> remove_byte " "%char (trim_space s) = s.
Proof.
  rewrite forallb_forall. intros H.
  assert (Hd : forall c, c ∈ s -> is_digit c = true) by (intros c Hc; by apply H, list_elem_of_In).
  rewrite trim_space_none.
  - apply List_filter_all. intros c Hc%Hd. rewrite bool_decide_eq_false_2; [done|]. by intros ->.
  - intros c Hc%Hd. unfold is_digit, is_space in *. bools.
    rewrite !orb_false_iff, andb_false_iff. split; [lia|]. destruct (code c <=? 13) eqn:E; [|by right].
    bools. lia.
Qed.

Lemma remove_space_trimmed s : trimmed s -> trimmed (remove_byte " "%char s).
Proof.
  intros [Hl Hr]. unfold trimmed, remove_byte. rewrite <- filter_rev. split.
  - destruct s as [|c s]; [done|]. cbn [List.filter]. by rewrite bool_decide_eq_false_2 by by intros ->.
  - destruct (rev s) as [|c l]; [done|]. cbn [List.filter]. by rewrite bool_decide_eq_false_2 by by intros ->.
Qed.

Lemma strip_idemp s : remove_byte " "%char (trim_space (remove_byte " "%char (trim_space s))) = remove_byte " "%char (trim_space s).
Proof.
  rewrite (trim_space_id (remove_byte _ _)) by apply remove_space_trimmed, trim_space_trimmed.
  apply List_filter_all. intros c Hc. rewrite bool_decide_eq_false_2; [done|]. intros ->.
  by apply remove_byte_notin in Hc.
Qed.

Lemma LooksLikeCode_strip s : LooksLikeCode (remove_byte " "%char (trim_space s)) = LooksLikeCode s.
Proof. unfold LooksLikeCode. by rewrite strip_idemp. Qed.

Lemma hotp_code key step : LooksLikeCode (hotp key step) = true /\
  remove_byte " "%char (trim_space (hotp key step)) = hotp key step.
Proof.
  unfold LooksLikeCode, hotp. cbv zeta.
  match goal with |- context [pad 6 ?v] => destruct (pad_digits 6 v) as [Hl Hd] end.
  { by apply Z.mod_pos_bound. }
  rewrite digits_kept by done. by rewrite Hl, Hd.
Qed.

Lemma verify_loop_spec secret code lastStep steps step :
  verify_loop secret code lastStep steps = (step, true) <->
  exists before after, steps = before ++ step :: after /\ lastStep < step /\ Code secret step = Ok code /\
    Forall (fun s => lastStep < s -> Code secret s <> Ok code) before.
Proof.
  induction steps as [|s rest IH]; cbn.
  { split; [done|]. intros ([|] & after & [=] & _). }
  destruct (s <=? lastStep) eqn:Es; bools.
  - rewrite IH. split.
    + intros (before & after & -> & ? & ? & HF). exists (s :: before), after. split_and!; try done.
      constructor; [lia|done].
    + intros ([|s' before] & after & [= -> ->] & ? & ? & HF); [lia|]. inversion HF; subst. eauto 10.
  - destruct (Code secret s) as [want|e] eqn:Ec.
    + destruct (decide (want = code)) as [-> | Hne].
      * rewrite bool_decide_eq_true_2 by done. split.
        -- intros [= ->]. exists [], rest. done.
        -- intros ([|s' before] & after & [= -> ->] & ? & ? & HF); [done|]. inversion HF; subst. naive_solver.
      * rewrite bool_decide_eq_false_2, IH by done. split.
        -- intros (before & after & -> & ? & ? & HF). exists (s :: before), after. split_and!; try done.
           constructor; [congruence|done].
        -- intros ([|s' before] & after & [= -> ->] & ? & ? & HF); [congruence|]. inversion HF; subst. eauto 10.
    + split; [done|]. intros (before & after & _ & _ & Hc & _).
      destruct (Code_valid _ _ s _ Hc) as [c' Hc']. congruence.
Qed.

Lemma Verify_later secret given now lastStep step :
  Verify secret given now lastStep = (step, true) -> lastStep < step.
Proof.
  unfold Verify. destruct (negb _); [done|]. by intros (before & after & _ & Hl & _)%verify_loop_spec.
Qed.

(** C27: [Verify] accepts a text exactly when it is six digits equal to the code of a step
    of the window later than the last one used, and it answers the first such step. *)
Theorem Verify_exact secret given now lastStep step :
  Verify secret given now lastStep = (step, true) <->
  LooksLikeCode given = true /\ - Skew <= step - Step now <= Skew /\ lastStep < step /\
  Code secret step = Ok (remove_byte " "%char (trim_space given)) /\
  forall s, - Skew <= s - Step now -> lastStep < s < step ->
    Code secret s <> Ok (remove_byte " "%char (trim_space given)).
Proof.
  unfold Verify, window, Skew. change (- (1)) with (-1). rewrite LooksLikeCode_strip.
  destruct (LooksLikeCode given); cbn [negb map]; [|split; [congruence|intros [? _]; congruence]].
  set (g := remove_byte _ _). rewrite verify_loop_spec. split.
  - intros (before & after & Hw & Hl & Hc & HF). rewrite Forall_forall in HF.
    assert (Hin : step ∈ [Step now + -1; Step now + 0; Step now + 1]) by (rewrite Hw; apply elem_of_app; right; apply list_elem_of_here).
    assert (- (1) <= step - Step now <= 1).
    { rewrite !elem_of_cons, elem_of_nil in Hin. lia. }
    split; [done|]. split; [lia|]. split_and!; [done..|]. intros s Hs1 [Hs2 Hs3]. apply HF; [|done].
    assert (Hs : s ∈ before ++ step :: after).
    { rewrite <- Hw, !elem_of_cons. lia. }
    apply elem_of_app in Hs as [|Hs]; [done|]. exfalso.
    destruct before as [|b1 [|b2 [|b3 [|]]]]; cbn in Hw; simplify_eq; rewrite !elem_of_cons, ?elem_of_nil in Hs; lia.
  - intros (_ & Hr & Hl & Hc & Hmin).
    assert (step = Step now + -1 \/ step = Step now + 0 \/ step = Step now + 1) as [-> | [-> | ->]] by lia.
    + exists [], [Step now + 0; Step now + 1]. done.
    + exists [Step now + -1], [Step now + 1]. split_and!; [done..|]. repeat constructor. intros ?. apply Hmin; lia.
    + exists [Step now + -1; Step now + 0], []. split_and!; [done..|].
      repeat constructor; intros ?; apply Hmin; lia.
Qed.

(** The secret of [NewSecret] is one an authenticator can use: the codes it shows for
    it are those of the random bytes, and as long as no later step was used, the code of
    any step of the window is accepted, as that step or an earlier one. *)
Lemma new_secret_accepted random secret step now lastStep :
  NewSecret (Ok random) = Ok secret -> random <> [] ->
  - Skew <= step - Step now <= Skew -> lastStep < step ->
  Code secret step = Ok (hotp random step) /\
  exists s, Verify secret (hotp random step) now lastStep = (s, true) /\ lastStep < s <= step.
Proof.
  intros [= <-] Hr Hw Hl. rewrite Code_encode by done. split; [done|].
  destruct (hotp_code random step) as [Hlook Hkept]. unfold Verify, window, Skew in *.
  change (- (1)) with (-1) in *.
  rewrite LooksLikeCode_strip, Hlook, Hkept. cbn [negb map verify_loop]. rewrite !Code_encode by done.
  assert (step = Step now + -1 \/ step = Step now + 0 \/ step = Step now + 1) as Hs by lia.
  generalize dependent step. intros step.
  repeat split_match; bools; intros; destruct Hs as [-> | [-> | ->]];
    (lia || congruence || (eexists; split; [done|lia])).
Qed.
