(* ===== verification/StoreTypes.v ===== *)
(** * The rows of the store: [store.Message], [store.Domain], [store.PrimaryStatus], events

    The records follow internal/store/store.go, with the two columns of the queue
    table the Go struct leaves out ([claimed_at], [claimed_by]) added in [qrow].
    A TEXT timestamp column is kept as the time it was written from; every
    comparison the database makes on it goes through its text ([Times.time_leb]). *)

From S2P Require Import Prelude GoStrings Times Errors.
From Stdlib Require Import QArith.
Open Scope Z_scope.

(** [store.Status] and [store.Direction]; the schema's CHECK admits no other status. *)
Inductive status := StatusQueued | StatusDelivering | StatusDelivered | StatusFailed | StatusExpired.
Inductive direction := DirectionInbound | DirectionOutbound.

#[export] Instance status_eq_dec : EqDecision status.
Proof. solve_decision. Defined.
#[export] Instance direction_eq_dec : EqDecision direction.
Proof. solve_decision. Defined.

Definition status_text (s : status) : text :=
  match s with
  | StatusQueued => "queued"%string
  | StatusDelivering => "delivering"%string
  | StatusDelivered => "delivered"%string
  | StatusFailed => "failed"%string
  | StatusExpired => "expired"%string
  end.

Definition direction_text (d : direction) : text :=
  match d with DirectionInbound => "inbound"%string | DirectionOutbound => "outbound"%string end.

(** [store.Message]. *)
Record message := Msg {
  ID : text;
  DomainID : Z;
  EnvelopeFrom : text;
  EnvelopeTo : list text;
  Subject : text;
  SizeBytes : Z;
  ReceivedAt : Z;
  ExpiresAt : Z;
  MStatus : status;
  Attempts : Z;
  NextRetryAt : Z;
  LastError : text;
  DeliveredAt : option Z;
  RemoteAddr : text;
  MDirection : direction;
  SpamScore : option Q;
  SpamAction : text;
  QuarantinedAt : option Z;
  QuarantineReason : text;
  AuthResults : text;
  SenderAuthenticated : bool;
  MalwareScan : text
}.

#[export] Instance Q_eq_dec : EqDecision Q.
Proof. solve_decision. Defined.
#[export] Instance message_eq_dec : EqDecision message.
Proof. solve_decision. Defined.

(** A row of the queue table. *)
Record qrow := QRow {
  q_msg : message;
  q_claimed_at : option Z;
  q_claimed_by : text
}.

#[export] Instance qrow_eq_dec : EqDecision qrow.
Proof. solve_decision. Defined.

(** [store.Domain]. *)
Record domain := Domain {
  DID : Z;
  DName : text;
  PrimaryHost : text;
  PrimaryPort : Z;
  PrimaryTLS : text;
  MaxQueueMessages : option Z;
  MonthlySendLimit : option Z;
  RetentionHours : Z;
  DEnabled : bool;
  DCreatedAt : Z;
  DUpdatedAt : Z
}.

(** [store.PrimaryStatus], keyed by domain. *)
Record primary_status := PrimaryStatus {
  IsUp : bool;
  LastCheck : option Z;
  LastUp : option Z;
  LastDown : option Z;
  ConsecutiveFailures : Z;
  ConsecutiveSuccess : Z;
  PLastError : text
}.

(** The values the sources put in an event's data map or in the body of a reply. *)
Inductive jval :=
| JStr (s : text)
| JNum (n : Z)
| JStrs (l : list text)
| JBool (b : bool)
| JScore (q : Q)
| JTime (t : Z)
| JNull
| JList (l : list jval)
| JObj (m : list (text * jval)).

Abbreviation jmap := (list (text * jval)).

(** [store.Event], without the columns joined in for display. *)
Record event := Event {
  EType : text;
  EDomainID : option Z;
  EQueueID : option text;
  EUserID : option Z;
  EData : jmap
}.

(** ** Field updates *)

Definition set_EnvelopeFrom (v : text) (r : message) : message :=
  Msg (ID r) (DomainID r) v (EnvelopeTo r) (Subject r) (SizeBytes r) (ReceivedAt r) (ExpiresAt
    r) (MStatus r) (Attempts r) (NextRetryAt r) (LastError r) (DeliveredAt r) (RemoteAddr r)
    (MDirection r) (SpamScore r) (SpamAction r) (QuarantinedAt r) (QuarantineReason r)
    (AuthResults r) (SenderAuthenticated r) (MalwareScan r).
Definition set_EnvelopeTo (v : list text) (r : message) : message :=
  Msg (ID r) (DomainID r) (EnvelopeFrom r) v (Subject r) (SizeBytes r) (ReceivedAt r) (ExpiresAt
    r) (MStatus r) (Attempts r) (NextRetryAt r) (LastError r) (DeliveredAt r) (RemoteAddr r)
    (MDirection r) (SpamScore r) (SpamAction r) (QuarantinedAt r) (QuarantineReason r)
    (AuthResults r) (SenderAuthenticated r) (MalwareScan r).
Definition set_MStatus (v : status) (r : message) : message :=
  Msg (ID r) (DomainID r) (EnvelopeFrom r) (EnvelopeTo r) (Subject r) (SizeBytes r) (ReceivedAt
    r) (ExpiresAt r) v (Attempts r) (NextRetryAt r) (LastError r) (DeliveredAt r) (RemoteAddr r)
    (MDirection r) (SpamScore r) (SpamAction r) (QuarantinedAt r) (QuarantineReason r)
    (AuthResults r) (SenderAuthenticated r) (MalwareScan r).
Definition set_Attempts (v : Z) (r : message) : message :=
  Msg (ID r) (DomainID r) (EnvelopeFrom r) (EnvelopeTo r) (Subject r) (SizeBytes r) (ReceivedAt
    r) (ExpiresAt r) (MStatus r) v (NextRetryAt r) (LastError r) (DeliveredAt r) (RemoteAddr r)
    (MDirection r) (SpamScore r) (SpamAction r) (QuarantinedAt r) (QuarantineReason r)
    (AuthResults r) (SenderAuthenticated r) (MalwareScan r).
Definition set_NextRetryAt (v : Z) (r : message) : message :=
  Msg (ID r) (DomainID r) (EnvelopeFrom r) (EnvelopeTo r) (Subject r) (SizeBytes r) (ReceivedAt
    r) (ExpiresAt r) (MStatus r) (Attempts r) v (LastError r) (DeliveredAt r) (RemoteAddr r)
    (MDirection r) (SpamScore r) (SpamAction r) (QuarantinedAt r) (QuarantineReason r)
    (AuthResults r) (SenderAuthenticated r) (MalwareScan r).
Definition set_LastError (v : text) (r : message) : message :=
  Msg (ID r) (DomainID r) (EnvelopeFrom r) (EnvelopeTo r) (Subject r) (SizeBytes r) (ReceivedAt
    r) (ExpiresAt r) (MStatus r) (Attempts r) (NextRetryAt r) v (DeliveredAt r) (RemoteAddr r)
    (MDirection r) (SpamScore r) (SpamAction r) (QuarantinedAt r) (QuarantineReason r)
    (AuthResults r) (SenderAuthenticated r) (MalwareScan r).
Definition set_DeliveredAt (v : option Z) (r : message) : message :=
  Msg (ID r) (DomainID r) (EnvelopeFrom r) (EnvelopeTo r) (Subject r) (SizeBytes r) (ReceivedAt
    r) (ExpiresAt r) (MStatus r) (Attempts r) (NextRetryAt r) (LastError r) v (RemoteAddr r)
    (MDirection r) (SpamScore r) (SpamAction r) (QuarantinedAt r) (QuarantineReason r)
    (AuthResults r) (SenderAuthenticated r) (MalwareScan r).
Definition set_QuarantinedAt (v : option Z) (r : message) : message :=
  Msg (ID r) (DomainID r) (EnvelopeFrom r) (EnvelopeTo r) (Subject r) (SizeBytes r) (ReceivedAt
    r) (ExpiresAt r) (MStatus r) (Attempts r) (NextRetryAt r) (LastError r) (DeliveredAt r)
    (RemoteAddr r) (MDirection r) (SpamScore r) (SpamAction r) v (QuarantineReason r)
    (AuthResults r) (SenderAuthenticated r) (MalwareScan r).
Definition set_QuarantineReason (v : text) (r : message) : message :=
  Msg (ID r) (DomainID r) (EnvelopeFrom r) (EnvelopeTo r) (Subject r) (SizeBytes r) (ReceivedAt
    r) (ExpiresAt r) (MStatus r) (Attempts r) (NextRetryAt r) (LastError r) (DeliveredAt r)
    (RemoteAddr r) (MDirection r) (SpamScore r) (SpamAction r) (QuarantinedAt r) v (AuthResults
    r) (SenderAuthenticated r) (MalwareScan r).

Definition set_q_msg (v : message) (r : qrow) : qrow :=
  QRow v (q_claimed_at r) (q_claimed_by r).
Definition set_q_claimed_at (v : option Z) (r : qrow) : qrow :=
  QRow (q_msg r) v (q_claimed_by r).
Definition set_q_claimed_by (v : text) (r : qrow) : qrow :=
  QRow (q_msg r) (q_claimed_at r) v.

Definition set_DID (v : Z) (r : domain) : domain :=
  Domain v (DName r) (PrimaryHost r) (PrimaryPort r) (PrimaryTLS r) (MaxQueueMessages r)
    (MonthlySendLimit r) (RetentionHours r) (DEnabled r) (DCreatedAt r) (DUpdatedAt r).

(** Update the message inside a row. *)
Definition on_msg (f : message -> message) (r : qrow) : qrow := set_q_msg (f (q_msg r)) r.
