(* ===== verification/Backoff.v ===== *)
(** * Retry backoff (internal/store/queue.go, [Backoff])

    The delay is computed in float64.  A non-negative float64 in the range the
    function meets is an integer number of 2^-54 ns with 53 significant bits, and
    every operation is the exact one followed by rounding to nearest, ties to even
    ([fl]). *)

From S2P Require Import Prelude.

(** ** binary64 on a fixed grid *)

(** Round a non-negative integer to 53 significant bits, ties to even. *)
Definition fl (x : Z) : Z :=
  let e := Z.log2 x in
  if e <? 53 then x
  else
    let u := 2 ^ (e - 52) in
    let q := x / u in
    let r := x mod u in
    if (2 * r <? u) || ((2 * r =? u) && Z.even q) then q * u else (q + 1) * u.

(** A float64: at most 53 significant bits. *)
Definition is_float (x : Z) : Prop := exists m e, 0 <= m <= 2 ^ 53 /\ 0 <= e /\ x = m * 2 ^ e.

(** [rand.Float64()] is [k / 2^53] for a [k] below 2^53. *)
Definition random_bits : Z := 2 ^ 53.

(** [Backoff(attempts, base, max)], with the random draw [k] made explicit. *)
Definition backoff_exp (attempts : Z) : Z := Z.min 32 (Z.max 1 attempts - 1).

Definition backoff_cap (attempts base max : Z) : Z :=
  let d := fl base * 2 ^ backoff_exp attempts in
  if fl max <? d then fl max else d.

Definition Backoff (attempts base max k : Z) : Z :=
  let d := backoff_cap attempts base max in
  let half := d * 2 ^ 53 in                 (* d/2, in units of 2^-54 ns *)
  let jitter := fl (k * d) in               (* rand.Float64() * half *)
  fl (half + jitter) / 2 ^ 54.

Example backoff_first : Backoff 1 60000000000 7200000000000 0 = 30000000000.
Proof. reflexivity. Qed.
Example backoff_capped : Backoff 20 60000000000 7200000000000 (2 ^ 52) = 5400000000000.
Proof. vm_compute. reflexivity. Qed.

(** ** Rounding *)

Section rounding.
Context (x : Z) (Hx : 0 <= x) (Hbig : 53 <= Z.log2 x).

#[local] Lemma unit_pos : 0 < 2 ^ (Z.log2 x - 52).
Proof. apply Z.pow_pos_nonneg; lia. Qed.

#[local] Lemma log2_split : 2 ^ Z.log2 x = 2 ^ 52 * 2 ^ (Z.log2 x - 52).
Proof. rewrite <- Z.pow_add_r by lia. f_equal. lia. Qed.

#[local] Lemma log2_le : 2 ^ Z.log2 x <= x < 2 * 2 ^ Z.log2 x.
Proof.
  assert (0 < x) as H. { destruct (Z.eq_dec x 0) as [->|]; [cbn in Hbig; lia|lia]. }
  pose proof (Z.log2_spec x H). rewrite Z.pow_succ_r in * by lia. lia.
Qed.

Lemma fl_cases :
  let u := 2 ^ (Z.log2 x - 52) in
  (fl x = x / u * u) \/ (fl x = (x / u + 1) * u /\ x mod u <> 0).
Proof.
  intros u. unfold fl. destruct (Z.ltb_spec (Z.log2 x) 53); [lia|]. fold u.
  pose proof unit_pos as Hu. fold u in Hu.
  destruct (Z.ltb_spec (2 * (x mod u)) u); cbn; [by left|].
  destruct (Z.eqb_spec (2 * (x mod u)) u); cbn; [|right; split; [done|lia]].
  destruct (Z.even (x / u)); [by left|right; split; [done|lia]].
Qed.

Lemma quotient_bounds :
  let u := 2 ^ (Z.log2 x - 52) in 2 ^ 52 <= x / u < 2 ^ 53.
Proof.
  intros u. pose proof unit_pos as Hu. fold u in Hu.
  pose proof log2_le as [Hlo Hhi]. rewrite log2_split in Hlo, Hhi. fold u in Hlo, Hhi.
  split.
  - apply Z.div_le_lower_bound; lia.
  - apply Z.div_lt_upper_bound; [lia|]. change (2 ^ 53) with (2 * 2 ^ 52). lia.
Qed.
End rounding.

Lemma fl_small x : Z.log2 x < 53 -> fl x = x.
Proof. intros H. unfold fl. by destruct (Z.ltb_spec (Z.log2 x) 53); [|lia]. Qed.

Lemma fl_float x : 0 <= x -> is_float (fl x).
Proof.
  intros Hx. destruct (Z.lt_ge_cases (Z.log2 x) 53) as [Hs|Hb].
  - rewrite fl_small by done. exists x, 0. destruct (Z.eq_dec x 0) as [->|]; [done|].
    pose proof (Z.log2_spec x ltac:(lia)) as [_ Hu].
    assert (2 ^ Z.succ (Z.log2 x) <= 2 ^ 53) by (apply Z.pow_le_mono_r; lia). lia.
  - pose proof (quotient_bounds x Hx Hb) as Hq. cbv zeta in Hq.
    destruct (fl_cases x Hb) as [->|[-> _]];
      [exists (x / 2 ^ (Z.log2 x - 52)) | exists (x / 2 ^ (Z.log2 x - 52) + 1)];
      exists (Z.log2 x - 52); lia.
Qed.

(** A float of at least [2^e] on the grid of [x], or below its binade. *)
#[local] Lemma float_grid y e :
  is_float y -> 52 <= e -> (exists c, y = c * 2 ^ (e - 52)) \/ y <= 2 ^ e.
Proof.
  intros (m & ey & Hm & He & ->) Hex.
  destruct (Z.le_gt_cases (e - 52) ey) as [Hle|Hgt].
  - left. exists (m * 2 ^ (ey - (e - 52))).
    rewrite <- Z.mul_assoc, <- Z.pow_add_r by lia. do 2 f_equal. lia.
  - right. assert (2 ^ ey <= 2 ^ (e - 53)) by (apply Z.pow_le_mono_r; lia).
    transitivity (2 ^ 53 * 2 ^ (e - 53)).
    + apply Z.mul_le_mono_nonneg; lia.
    + rewrite <- Z.pow_add_r by lia. apply Z.pow_le_mono_r; lia.
Qed.

(** Rounding does not cross a float. *)
Lemma fl_le x y : 0 <= x -> x <= y -> is_float y -> fl x <= y.
Proof.
  intros Hx Hxy Hy. destruct (Z.lt_ge_cases (Z.log2 x) 53) as [Hs|Hb]; [by rewrite fl_small|].
  pose proof (log2_le x Hx Hb) as [Hlo _]. pose proof (unit_pos x Hb) as Hu.
  pose proof (log2_split x Hb) as Hspl.
  set (u := 2 ^ (Z.log2 x - 52)) in *.
  pose proof (Z.div_mod x u ltac:(lia)) as Hdm. pose proof (Z.mod_pos_bound x u Hu) as Hr.
  assert (Hgrid : exists c, y = c * u).
  { destruct (float_grid y (Z.log2 x) Hy ltac:(lia)) as [Hc|Hlow]; [done|].
    exists (2 ^ 52). lia. }
  destruct Hgrid as [c ->].
  destruct (fl_cases x Hb) as [->|[-> Hnz]]; fold u; [lia|].
  fold u in Hnz. assert (x / u < c) by nia. nia.
Qed.

Lemma fl_ge x y : 0 <= x -> y <= x -> is_float y -> y <= fl x.
Proof.
  intros Hx Hxy Hy. destruct (Z.lt_ge_cases (Z.log2 x) 53) as [Hs|Hb]; [by rewrite fl_small|].
  pose proof (log2_le x Hx Hb) as [Hlo _]. pose proof (unit_pos x Hb) as Hu.
  pose proof (quotient_bounds x Hx Hb) as Hq. pose proof (log2_split x Hb) as Hspl. cbv zeta in Hq.
  set (u := 2 ^ (Z.log2 x - 52)) in *.
  pose proof (Z.div_mod x u ltac:(lia)) as Hdm. pose proof (Z.mod_pos_bound x u Hu) as Hr.
  assert (Hfloor : y <= x / u * u).
  { destruct (float_grid y (Z.log2 x) Hy ltac:(lia)) as [[c ->]|Hlow]; fold u.
    - assert (c <= x / u) by nia. nia.
    - nia. }
  destruct (fl_cases x Hb) as [->|[-> _]]; fold u; nia.
Qed.

Lemma fl_id x : is_float x -> 0 <= x -> fl x = x.
Proof. intros Hf Hx. apply Z.le_antisymm; [by apply fl_le|by apply fl_ge]. Qed.

Lemma is_float_scale x k : 0 <= k -> is_float x -> is_float (x * 2 ^ k).
Proof.
  intros Hk (m & e & Hm & He & ->). exists m, (e + k). rewrite Z.pow_add_r by lia. lia.
Qed.

Lemma is_float_nonneg x : is_float x -> 0 <= x.
Proof. intros (m & e & Hm & He & ->). apply Z.mul_nonneg_nonneg; [lia|]. apply Z.pow_nonneg. lia. Qed.

Lemma backoff_exp_range a : 0 <= backoff_exp a <= 32.
Proof. unfold backoff_exp. lia. Qed.

Lemma backoff_cap_float a base max : 0 <= base -> 0 <= max -> is_float (backoff_cap a base max).
Proof.
  intros Hb Hm. unfold backoff_cap. pose proof (backoff_exp_range a).
  case_match; [by apply fl_float|]. apply is_float_scale; [lia|by apply fl_float].
Qed.

Lemma backoff_cap_bounds a base max :
  0 <= base -> 0 <= max -> 0 <= backoff_cap a base max <= fl max.
Proof.
  intros Hb Hm. pose proof (is_float_nonneg _ (backoff_cap_float a base max Hb Hm)).
  split; [done|]. unfold backoff_cap. case_match eqn:E; bools; lia.
Qed.

(** The ceiling doubles with each attempt until it reaches the maximum. *)
Lemma backoff_cap_mono a base max :
  0 <= base -> backoff_cap a base max <= backoff_cap (a + 1) base max.
Proof.
  intros Hb. unfold backoff_cap.
  assert (fl base * 2 ^ backoff_exp a <= fl base * 2 ^ backoff_exp (a + 1)).
  { apply Z.mul_le_mono_nonneg_l; [apply is_float_nonneg, fl_float; lia|].
    apply Z.pow_le_mono_r; [lia|]. unfold backoff_exp. lia. }
  repeat case_match; bools; lia.
Qed.

Lemma half_of_cap d : 0 <= d -> d * 2 ^ 53 / 2 ^ 54 = d / 2.
Proof.
  intros Hd. change (2 ^ 54) with (2 * 2 ^ 53). by rewrite Z.div_mul_cancel_r by lia.
Qed.

(** The delay before a retry lies between half the ceiling and the ceiling, the base
    doubled with each attempt and capped, for every random draw and with every rounding of
    the floating-point computation included. *)
Theorem Backoff_range a base max k :
  0 <= base -> 0 <= max -> 0 <= k < random_bits ->
  backoff_cap a base max / 2 <= Backoff a base max k <= backoff_cap a base max.
Proof.
  intros Hb Hm [Hk0 Hk]. unfold Backoff. set (d := backoff_cap a base max).
  pose proof (backoff_cap_float a base max Hb Hm) as Hd. fold d in Hd.
  pose proof (is_float_nonneg d Hd) as Hd0. unfold random_bits in Hk.
  assert (Hhalf : is_float (d * 2 ^ 53)) by (by apply is_float_scale).
  assert (Hdd : is_float (d * 2 ^ 54)) by (by apply is_float_scale).
  assert (0 <= k * d) by (by apply Z.mul_nonneg_nonneg).
  assert (k * d <= d * 2 ^ 53) by (rewrite (Z.mul_comm d); apply Z.mul_le_mono_nonneg_r; lia).
  assert (fl (k * d) <= d * 2 ^ 53) by (apply fl_le; auto).
  assert (0 <= fl (k * d)) by (by apply is_float_nonneg, fl_float).
  set (j := fl (k * d)) in *. change (2 ^ 54) with (2 * 2 ^ 53) in Hdd.
  assert (fl (d * 2 ^ 53 + j) <= d * (2 * 2 ^ 53)) by (apply fl_le; auto; lia).
  assert (d * 2 ^ 53 <= fl (d * 2 ^ 53 + j)) by (apply fl_ge; auto; lia).
  split.
  - rewrite <- half_of_cap by done. apply Z.div_le_mono; lia.
  - apply Z.div_le_upper_bound; [lia|]. change (2 ^ 54) with (2 * 2 ^ 53). lia.
Qed.

Lemma Backoff_range_witness :
  backoff_cap 3 60000000000 7200000000000 = 240000000000 /\
  120000000000 <= Backoff 3 60000000000 7200000000000 (2 ^ 53 - 1) <= 240000000000.
Proof.
  split; [vm_compute; reflexivity|].
  apply (Backoff_range 3 60000000000 7200000000000 (2 ^ 53 - 1)); [lia|lia|]. unfold random_bits. lia.
Defined.
