(* ===== verification/StoreQueue.v ===== *)
(** * The queue table (internal/store/queue.go, and [Quarantine]/[Release] of filters.go)

    The table is the list of its rows in rowid order.  Each function is one SQL
    statement: it returns the new table and what the statement returns.  Ties of
    [ORDER BY next_retry_at] are broken by rowid, where SQLite promises nothing. *)

From S2P Require Import Prelude GoStrings Times Errors Backoff StoreTypes.
From Stdlib Require Import QArith.
Open Scope Z_scope.

Abbreviation queue := (list qrow).

Definition row_id (r : qrow) : text := ID (q_msg r).
Definition row_status (r : qrow) : status := MStatus (q_msg r).

(** [truncate(s, n)]. *)
Definition truncate (s : text) (n : nat) : text :=
  if (length s <=? n)%nat then s else take n s ++ "..."%string.

(** ** The two shapes of statement *)

(** [UPDATE queue SET f WHERE p]. *)
Definition update_where (p : qrow -> bool) (f : qrow -> qrow) (q : queue) : queue :=
  map (fun r => if p r then f r else r) q.

Definition rows_affected (p : qrow -> bool) (q : queue) : Z := Z.of_nat (length (List.filter p q)).

Definition not_found : error := ESentinel ErrNotFound "store: not found"%string.

(** [db.exec]: no row affected is [ErrNotFound]. *)
Definition exec_update (p : qrow -> bool) (f : qrow -> qrow) (q : queue) : result unit * queue :=
  (if rows_affected p q =? 0 then Err not_found else Ok (), update_where p f q).

Definition by_id (id : text) (r : qrow) : bool := bool_decide (row_id r = id).

Definition lookup_row (id : text) (q : queue) : option qrow := find (by_id id) q.

(** ** Statements *)

(** [Enqueue]: the INSERT names the columns; the rest take the schema's defaults.  The
    primary key and the foreign key on [domains] are enforced. *)
Definition enqueued (m : message) : qrow :=
  QRow (Msg (ID m) (DomainID m) (EnvelopeFrom m) (EnvelopeTo m) (Subject m) (SizeBytes m)
          (ReceivedAt m) (ExpiresAt m) StatusQueued 0 (NextRetryAt m) [] None (RemoteAddr m)
          (MDirection m) (SpamScore m) (SpamAction m) None [] (AuthResults m)
          (SenderAuthenticated m) (MalwareScan m)) None [].

Definition Enqueue (domains : list domain) (m : message) (q : queue) : result unit * queue :=
  if existsb (by_id (ID m)) q then
    (Err (EWrap "store: enqueue"%string (EText "UNIQUE constraint failed: queue.id"%string)), q)
  else if negb (existsb (fun d => DID d =? DomainID m) domains) then
    (Err (EWrap "store: enqueue"%string (EText "FOREIGN KEY constraint failed"%string)), q)
  else (Ok (), q ++ [enqueued m]).

Record QueueStats := { Pending : Z; PendingBytes : Z; Total : Z }.

Definition is_pending (r : qrow) : bool :=
  bool_decide (row_status r = StatusQueued) || bool_decide (row_status r = StatusDelivering).

Definition sum_sizes (q : queue) : Z := foldr (fun r acc => SizeBytes (q_msg r) + acc) 0 q.

Definition Stats (q : queue) : QueueStats :=
  {| Pending := rows_affected is_pending q;
     PendingBytes := sum_sizes (List.filter is_pending q);
     Total := Z.of_nat (length q) |}.

Definition in_domains (ids : list Z) (r : qrow) : bool := bool_decide (DomainID (q_msg r) ∈ ids).

Definition StatsForDomains (ids : list Z) (q : queue) : QueueStats :=
  match ids with
  | [] => {| Pending := 0; PendingBytes := 0; Total := 0 |}
  | _ => Stats (List.filter (in_domains ids) q)
  end.

Definition is_quarantined (r : qrow) : bool := bool_decide (is_Some (QuarantinedAt (q_msg r))).

Definition CountQuarantined (q : queue) : Z := rows_affected is_quarantined q.

Definition CountQuarantinedForDomains (ids : list Z) (q : queue) : Z :=
  match ids with
  | [] => 0
  | _ => rows_affected (fun r => is_quarantined r && in_domains ids r) q
  end.

Definition CountPendingForDomain (id : Z) (q : queue) : Z :=
  rows_affected (fun r => (DomainID (q_msg r) =? id) && is_pending r) q.

(** [ORDER BY next_retry_at], a comparison of texts. *)
Definition retry_le (a b : qrow) : Prop :=
  time_leb (NextRetryAt (q_msg a)) (NextRetryAt (q_msg b)) = true.

#[export] Instance retry_le_dec : RelDecision retry_le.
Proof. intros a b. unfold retry_le. apply _. Defined.

(** [LIMIT ?]: a negative limit is none. *)
Definition sql_limit {A} (n : Z) (l : list A) : list A := if n <? 0 then l else take (Z.to_nat n) l.

Definition claimed_row (worker : text) (now : Z) (r : qrow) : qrow :=
  set_q_claimed_by worker (set_q_claimed_at (Some now) (on_msg (set_MStatus StatusDelivering) r)).

(** [UPDATE ... WHERE id IN (SELECT ... ORDER BY ... LIMIT) RETURNING ...]. *)
Definition claim (eligible : qrow -> bool) (worker : text) (limit now : Z) (q : queue)
  : list message * queue :=
  let ids := map row_id (sql_limit limit (merge_sort retry_le (List.filter eligible q))) in
  let picked r := bool_decide (row_id r ∈ ids) in
  let q' := update_where picked (claimed_row worker now) q in
  (map q_msg (List.filter picked q'), q').

Definition domain_enabled (domains : list domain) (id : Z) : bool :=
  existsb (fun d => (DID d =? id) && DEnabled d) domains.

Definition primary_up (ps : gmap Z primary_status) (id : Z) : bool :=
  match ps !! id with Some p => IsUp p | None => false end.

Definition claimable (dir : direction) (now : Z) (r : qrow) : bool :=
  bool_decide (row_status r = StatusQueued) && negb (is_quarantined r)
  && bool_decide (MDirection (q_msg r) = dir) && time_leb (NextRetryAt (q_msg r)) now.

Definition claimable_inbound (domains : list domain) (ps : gmap Z primary_status) (now : Z) (r : qrow) : bool :=
  claimable DirectionInbound now r && domain_enabled domains (DomainID (q_msg r))
  && primary_up ps (DomainID (q_msg r)).

Definition ClaimBatch (domains : list domain) (ps : gmap Z primary_status)
  (worker : text) (limit now : Z) (q : queue) : list message * queue :=
  claim (claimable_inbound domains ps now) worker limit now q.

Definition claimable_outbound (domains : list domain) (bouncesOnly : bool) (now : Z) (r : qrow) : bool :=
  claimable DirectionOutbound now r
  && (negb bouncesOnly || bool_decide (EnvelopeFrom (q_msg r) = []))
  && domain_enabled domains (DomainID (q_msg r)).

Definition claimOutbound (domains : list domain) (worker : text) (limit now : Z)
  (bouncesOnly : bool) (q : queue) : list message * queue :=
  claim (claimable_outbound domains bouncesOnly now) worker limit now q.

Definition ClaimOutboundBatch domains worker limit now q := claimOutbound domains worker limit now false q.
Definition ClaimBounceBatch domains worker limit now q := claimOutbound domains worker limit now true q.

(** [claimed_at = NULL, claimed_by = '']. *)
Definition unclaim (r : qrow) : qrow := set_q_claimed_by [] (set_q_claimed_at None r).

Definition delivered_row (at_ : Z) (r : qrow) : qrow :=
  unclaim (on_msg (fun m => set_MStatus StatusDelivered (set_DeliveredAt (Some at_) (set_LastError [] m))) r).

Definition MarkDelivered (id : text) (at_ : Z) (q : queue) : result unit * queue :=
  exec_update (by_id id) (delivered_row at_) q.

Definition failed_row (reason : text) (r : qrow) : qrow :=
  unclaim (on_msg (fun m => set_MStatus StatusFailed (set_LastError (truncate reason 1000)
    (set_Attempts (Attempts m + 1) m))) r).

Definition MarkFailed (id reason : text) (q : queue) : result unit * queue :=
  exec_update (by_id id) (failed_row reason) q.

Definition rescheduled_row (attempts : Z) (reason : text) (next : Z) (r : qrow) : qrow :=
  unclaim (on_msg (fun m => set_MStatus StatusQueued (set_Attempts attempts
    (set_LastError (truncate reason 1000) (set_NextRetryAt next m)))) r).

(** [Reschedule]; [k] is the random draw of [Backoff]. *)
Definition Reschedule (id : text) (attempts : Z) (reason : text) (base max now k : Z) (q : queue)
  : result unit * queue :=
  let next := now + Backoff attempts base max k in
  exec_update (by_id id) (rescheduled_row attempts reason next) q.

Definition SetRecipients (id : text) (rcpts : list text) (q : queue) : result unit * queue :=
  exec_update (by_id id) (on_msg (set_EnvelopeTo rcpts)) q.

Definition overdue (now : Z) (r : qrow) : bool :=
  bool_decide (row_status r = StatusQueued) && negb (is_quarantined r)
  && time_leb (ExpiresAt (q_msg r)) now.

Definition expired_row (r : qrow) : qrow :=
  on_msg (fun m => set_MStatus StatusExpired
    (set_LastError "retention exceeded before the primary accepted it"%string m)) r.

Definition ExpireOverdue (now : Z) (q : queue) : list text * queue :=
  (map row_id (List.filter (overdue now) q), update_where (overdue now) expired_row q).

Definition orphaned (olderThan : Z) (r : qrow) : bool :=
  bool_decide (row_status r = StatusDelivering)
  && match q_claimed_at r with None => true | Some c => time_leb c olderThan end.

Definition released_row (r : qrow) : qrow :=
  on_msg (set_LastError "delivery interrupted, requeued"%string)
    (unclaim (on_msg (set_MStatus StatusQueued) r)).

Definition ReleaseOrphanedClaims (olderThan : Z) (q : queue) : Z * queue :=
  (rows_affected (orphaned olderThan) q, update_where (orphaned olderThan) released_row q).

Definition GetMessage (id : text) (q : queue) : result message :=
  match lookup_row id q with Some r => Ok (q_msg r) | None => Err not_found end.

Definition retryable (id : text) (r : qrow) : bool :=
  by_id id r && bool_decide (row_status r ∈ [StatusQueued; StatusFailed; StatusExpired]).

Definition RetryNow (id : text) (now : Z) (q : queue) : result unit * queue :=
  exec_update (retryable id) (on_msg (fun m => set_MStatus StatusQueued (set_NextRetryAt now m))) q.

Definition waiting (domain now : Z) (r : qrow) : bool :=
  (DomainID (q_msg r) =? domain) && bool_decide (row_status r = StatusQueued)
  && negb (time_leb (NextRetryAt (q_msg r)) now).

Definition RetryDomainNow (domain now : Z) (q : queue) : Z * queue :=
  (rows_affected (waiting domain now) q,
   update_where (waiting domain now) (on_msg (set_NextRetryAt now)) q).

Definition delete_where (p : qrow -> bool) (q : queue) : queue := List.filter (fun r => negb (p r)) q.

Definition DeleteMessage (id : text) (q : queue) : result unit * queue :=
  (if rows_affected (by_id id) q =? 0 then Err not_found else Ok (), delete_where (by_id id) q).

Definition purgeable (cutoff : Z) (r : qrow) : bool :=
  bool_decide (row_status r ∈ [StatusDelivered; StatusFailed; StatusExpired])
  && time_leb (ReceivedAt (q_msg r)) cutoff.

Definition PurgeDelivered (cutoff : Z) (q : queue) : Z * queue :=
  (rows_affected (purgeable cutoff) q, delete_where (purgeable cutoff) q).

(** [store/filters.go]. *)
Definition Quarantine (id reason : text) (now : Z) (q : queue) : result unit * queue :=
  exec_update (fun r => by_id id r && negb (is_quarantined r))
    (on_msg (fun m => set_QuarantinedAt (Some now) (set_QuarantineReason (truncate reason 500) m))) q.

Definition Release (id : text) (now : Z) (q : queue) : result unit * queue :=
  exec_update (fun r => by_id id r && is_quarantined r)
    (on_msg (fun m => set_QuarantinedAt None (set_QuarantineReason []
       (set_MStatus StatusQueued (set_NextRetryAt now m))))) q.

(** [ListMessages]. *)
Record ListFilter := {
  lf_Status : option status;
  lf_DomainID : Z;
  lf_DomainIDs : option (list Z);      (* nil or a slice *)
  lf_Direction : option direction;
  lf_Limit : Z;
  lf_Offset : Z;
  lf_Quarantined : Z
}.

Definition list_where (f : ListFilter) (r : qrow) : bool :=
  match lf_Status f with Some s => bool_decide (row_status r = s) | None => true end
  && (if negb (lf_DomainID f =? 0) then DomainID (q_msg r) =? lf_DomainID f
      else match lf_DomainIDs f with
           | Some [] => false
           | Some ids => in_domains ids r
           | None => true
           end)
  && match lf_Direction f with Some d => bool_decide (MDirection (q_msg r) = d) | None => true end
  && (if lf_Quarantined f =? 1 then is_quarantined r
      else if lf_Quarantined f =? -1 then negb (is_quarantined r) else true).

(** [ORDER BY received_at DESC]. *)
Definition received_ge (a b : qrow) : Prop :=
  time_leb (ReceivedAt (q_msg b)) (ReceivedAt (q_msg a)) = true.

#[export] Instance received_ge_dec : RelDecision received_ge.
Proof. intros a b. unfold received_ge. apply _. Defined.

Definition ListMessages (f : ListFilter) (q : queue) : list message :=
  let limit := if (lf_Limit f <=? 0) || (500 <? lf_Limit f) then 100 else lf_Limit f in
  map q_msg (take (Z.to_nat limit)
    (drop (Z.to_nat (lf_Offset f)) (merge_sort received_ge (List.filter (list_where f) q)))).
