(* ===== verification/QueueFacts.v ===== *)
(** * The queue table: lemmas, invariant, and what each statement guarantees *)

From S2P Require Import Prelude GoStrings Times Errors Backoff StoreTypes StoreQueue.
From Stdlib Require Import QArith.
Open Scope Z_scope.

(** ** Updates in place *)

Definition keeps_id (f : qrow -> qrow) : Prop := forall r, row_id (f r) = row_id r.

Lemma update_where_ids p f q : keeps_id f -> map row_id (update_where p f q) = map row_id q.
Proof.
  intros Hf. unfold update_where. rewrite map_map. apply map_ext. intros r.
  by destruct (p r).
Qed.

Lemma elem_of_update_where p f q r :
  r ∈ update_where p f q <-> exists s, s ∈ q /\ r = if p s then f s else s.
Proof. unfold update_where. rewrite list_elem_of_In, in_map_iff. setoid_rewrite list_elem_of_In. naive_solver. Qed.

Lemma rows_affected_zero p q : rows_affected p q = 0 -> update_where p (fun r => r) q = q /\ forall r, r ∈ q -> p r = false.
Proof.
  unfold rows_affected. intros H. assert (List.filter p q = []) as E by (destruct (List.filter p q); [done|cbn in H; lia]).
  split.
  - unfold update_where. rewrite <- (map_id q) at 2. apply map_ext. intros r. by destruct (p r).
  - intros r Hr. destruct (p r) eqn:Ep; [|done].
    assert (r ∈ List.filter p q) as Hin by (by apply elem_of_List_filter). rewrite E in Hin. set_solver.
Qed.

Lemma update_where_none p f q : (forall r, r ∈ q -> p r = false) -> update_where p f q = q.
Proof.
  unfold update_where. intros H. rewrite <- (map_id q) at 2. apply map_ext_in. intros r Hr.
  rewrite H; [done|by apply list_elem_of_In].
Qed.

Lemma delete_where_ids p q : sublist (map row_id (delete_where p q)) (map row_id q).
Proof.
  induction q as [|r q IH]; cbn; [apply sublist_nil|]. destruct (p r); cbn; [by apply sublist_cons|by apply sublist_skip].
Qed.

Definition unique_ids (q : queue) : Prop := NoDup (map row_id q).

Lemma unique_ids_eq q r s : unique_ids q -> r ∈ q -> s ∈ q -> row_id r = row_id s -> r = s.
Proof.
  unfold unique_ids. induction q as [|a q IH]; cbn; [set_solver|].
  rewrite NoDup_cons, !elem_of_cons. intros [Ha Hq] Hr Hs E.
  destruct Hr as [->|Hr], Hs as [->|Hs]; [done| | |by apply IH].
  - destruct Ha. rewrite E. by apply elem_of_map_2.
  - destruct Ha. rewrite <- E. by apply elem_of_map_2.
Qed.

Lemma lookup_row_Some q id r : lookup_row id q = Some r -> r ∈ q /\ row_id r = id.
Proof.
  unfold lookup_row. intros H%find_some. destruct H as [Hin Hid].
  unfold by_id in Hid. bools. by rewrite list_elem_of_In.
Qed.

Lemma lookup_row_None q id : lookup_row id q = None <-> id ∉ map row_id q.
Proof.
  unfold lookup_row. split.
  - intros H Hin. apply elem_of_map in Hin as (r & -> & Hr%list_elem_of_In).
    apply (find_none _ _ H) in Hr. unfold by_id in Hr. by rewrite bool_decide_eq_true_2 in Hr.
  - intros H. destruct (find (by_id id) q) as [r|] eqn:E; [|done].
    apply lookup_row_Some in E as [Hr <-]. destruct H. by apply elem_of_map_2.
Qed.

Lemma lookup_row_elem q r : unique_ids q -> r ∈ q -> lookup_row (row_id r) q = Some r.
Proof.
  intros Hu Hr. destruct (lookup_row (row_id r) q) as [s|] eqn:E.
  - apply lookup_row_Some in E as [Hs Hid]. f_equal. by eapply unique_ids_eq.
  - apply lookup_row_None in E. destruct E. by apply elem_of_map_2.
Qed.

(** Updating the row with an identifier, seen through [lookup_row]. *)
Lemma lookup_update p f q id :
  keeps_id f -> lookup_row id (update_where p f q) =
    (fun r => if p r then f r else r) <$> lookup_row id q.
Proof.
  intros Hf. unfold lookup_row, update_where. induction q as [|r q IH]; cbn; [done|].
  assert (by_id id (if p r then f r else r) = by_id id r) as ->.
  { unfold by_id. destruct (p r); [by rewrite Hf|done]. }
  by destruct (by_id id r).
Qed.

Lemma lookup_app id q r :
  lookup_row id (q ++ [r]) =
    match lookup_row id q with Some s => Some s | None => if by_id id r then Some r else None end.
Proof.
  unfold lookup_row. induction q as [|s q IH]; cbn; [by destruct (by_id id r)|]. by destruct (by_id id s).
Qed.

Lemma keeps_id_on_msg f : (forall m, ID (f m) = ID m) -> keeps_id (on_msg f).
Proof. intros H r. unfold row_id, on_msg. cbn. apply H. Qed.

Lemma keeps_id_claimed w now : keeps_id (claimed_row w now).
Proof. done. Qed.
Lemma keeps_id_delivered t : keeps_id (delivered_row t).
Proof. done. Qed.
Lemma keeps_id_failed t : keeps_id (failed_row t).
Proof. done. Qed.
Lemma keeps_id_rescheduled a t n : keeps_id (rescheduled_row a t n).
Proof. done. Qed.
Lemma keeps_id_expired : keeps_id expired_row.
Proof. done. Qed.
Lemma keeps_id_released : keeps_id released_row.
Proof. done. Qed.
#[export] Hint Resolve keeps_id_on_msg keeps_id_claimed keeps_id_delivered keeps_id_failed
  keeps_id_rescheduled keeps_id_expired keeps_id_released : xmx.

Lemma exec_update_ids p f q r q' : keeps_id f -> exec_update p f q = (r, q') -> map row_id q' = map row_id q.
Proof. intros Hf [= _ <-]. by apply update_where_ids. Qed.

(** ** Claims *)

Section claims.
Context (eligible : qrow -> bool) (worker : text) (limit now : Z) (q : queue).
Hypothesis (Hlimit : 0 <= limit) (Huniq : unique_ids q).

Definition claim_sorted : queue := merge_sort retry_le (List.filter eligible q).
Definition claim_picked : queue := take (Z.to_nat limit) claim_sorted.

Lemma claim_sorted_perm : claim_sorted ≡ₚ List.filter eligible q.
Proof. apply merge_sort_Permutation. Qed.

Lemma picked_in r : r ∈ claim_picked -> r ∈ q /\ eligible r = true.
Proof.
  unfold claim_picked. intros H. assert (r ∈ claim_sorted) as Hs.
  { rewrite <- (take_drop (Z.to_nat limit) claim_sorted). apply elem_of_app. by left. }
  rewrite claim_sorted_perm, elem_of_List_filter in Hs. tauto.
Qed.

Definition claim_test (r : qrow) : bool := bool_decide (row_id r ∈ map row_id claim_picked).

Lemma claim_test_picked r : r ∈ q -> claim_test r = true <-> r ∈ claim_picked.
Proof.
  intros Hr. unfold claim_test. rewrite bool_decide_eq_true, elem_of_map. split; [|eauto].
  intros (s & Hid & Hs). pose proof (picked_in s Hs) as [Hsq _].
  by rewrite <- (unique_ids_eq q s r Huniq Hsq Hr (eq_sym Hid)).
Qed.

Lemma claim_unfold :
  claim eligible worker limit now q =
    (map q_msg (List.filter claim_test (update_where claim_test (claimed_row worker now) q)),
     update_where claim_test (claimed_row worker now) q).
Proof. unfold claim, sql_limit. destruct (Z.ltb_spec limit 0); [lia|done]. Qed.

(** The claimed messages are exactly the picked rows, now delivering. *)
Lemma claim_returns m :
  m ∈ fst (claim eligible worker limit now q) <->
  exists r, r ∈ claim_picked /\ m = set_MStatus StatusDelivering (q_msg r).
Proof.
  rewrite claim_unfold. cbn [fst]. rewrite elem_of_map. setoid_rewrite elem_of_List_filter.
  setoid_rewrite elem_of_update_where. split.
  - intros (r & -> & Ht & s & Hs & ->). exists s. destruct (claim_test s) eqn:E.
    + by apply claim_test_picked in E.
    + congruence.
  - intros (r & Hr & ->). pose proof (picked_in r Hr) as [Hq _].
    assert (claim_test r = true) as E by (by apply claim_test_picked).
    exists (claimed_row worker now r). split_and!; [done|done|]. exists r. by rewrite E.
Qed.

Lemma claim_length : (length (fst (claim eligible worker limit now q)) <= Z.to_nat limit)%nat.
Proof.
  rewrite claim_unfold. cbn [fst]. rewrite length_map.
  set (q' := update_where claim_test (claimed_row worker now) q).
  transitivity (length (map row_id claim_picked)).
  - rewrite <- (length_map row_id (List.filter claim_test q')). apply submseteq_length, NoDup_submseteq.
    + assert (NoDup (map row_id q')) as Hn by (unfold q'; by rewrite update_where_ids).
      revert Hn. clear. induction q' as [|r q' IH]; cbn; [done|].
      rewrite NoDup_cons. intros [Hr Hq]. destruct (claim_test r); cbn; [|by apply IH].
      constructor; [|by apply IH]. contradict Hr. revert Hr.
      rewrite !elem_of_map. intros (s & ? & Hs). exists s. split; [done|].
      by apply elem_of_List_filter in Hs as [_ ?].
    + intros id. rewrite elem_of_map. intros (r & -> & Hr).
      apply elem_of_List_filter in Hr as [Ht _]. unfold claim_test in Ht. by bools.
  - rewrite length_map. unfold claim_picked. rewrite length_take. lia.
Qed.

(** Earliest first: an eligible row left behind is not due before a claimed one. *)
Lemma claim_earliest r s :
  r ∈ claim_picked -> s ∈ q -> eligible s = true -> s ∉ claim_picked -> retry_le r s.
Proof.
  intros Hr Hs He Hn.
  assert (s ∈ claim_sorted) as Hss by (rewrite claim_sorted_perm; by apply elem_of_List_filter).
  rewrite <- (take_drop (Z.to_nat limit) claim_sorted), elem_of_app in Hss.
  destruct Hss as [Hss|Hss]; [done|].
  assert (Transitive retry_le) by (intros ???; apply time_leb_trans).
  assert (base.Total retry_le) by (intros a b; apply time_leb_total).
  assert (StronglySorted retry_le claim_sorted) as HS.
  { apply Sorted_StronglySorted; [done|]. apply (Sorted_merge_sort retry_le). }
  rewrite <- (take_drop (Z.to_nat limit) claim_sorted) in HS.
  eapply StronglySorted_app_1_elem_of; eauto.
Qed.

(** Rows that were not picked are left as they were; the picked ones are delivering. *)
Lemma claim_rows r' :
  r' ∈ snd (claim eligible worker limit now q) <->
  exists r, r ∈ q /\ r' = if bool_decide (r ∈ claim_picked) then claimed_row worker now r else r.
Proof.
  rewrite claim_unfold. cbn [snd]. rewrite elem_of_update_where.
  split; intros (r & Hr & ->); exists r; (split; [done|]);
    destruct (bool_decide_reflect (r ∈ claim_picked)) as [H|H];
    rewrite <- claim_test_picked in H by done;
    destruct (claim_test r); congruence.
Qed.

Lemma claim_ids : map row_id (snd (claim eligible worker limit now q)) = map row_id q.
Proof. rewrite claim_unfold. by apply update_where_ids. Qed.

Lemma claim_eligible m :
  m ∈ fst (claim eligible worker limit now q) ->
  exists r, r ∈ q /\ eligible r = true /\ m = set_MStatus StatusDelivering (q_msg r).
Proof. intros (r & Hr & ->)%claim_returns. apply picked_in in Hr as [??]. eauto. Qed.
End claims.

#[global] Opaque claim.

Lemma claim_unique_ids e w l now q :
  0 <= l -> unique_ids q -> unique_ids (snd (claim e w l now q)).
Proof. intros Hl Hu. unfold unique_ids. by rewrite claim_ids. Qed.

Lemma claimable_status dir now r : claimable dir now r = true -> row_status r = StatusQueued.
Proof. unfold claimable. intros H. bools. done. Qed.

(** What a listing shows is in the table, and satisfies its conditions. *)
Lemma ListMessages_in f q m : m ∈ ListMessages f q -> exists r, r ∈ q /\ q_msg r = m /\ list_where f r = true.
Proof.
  unfold ListMessages. intros (r & -> & Hr)%elem_of_map. exists r. apply subseteq_take, subseteq_drop in Hr.
  rewrite merge_sort_Permutation, elem_of_List_filter in Hr. tauto.
Qed.

(** The domains a listing is narrowed to. *)
Lemma list_where_domains f ids r :
  lf_DomainID f = 0 -> lf_DomainIDs f = Some ids -> list_where f r = true -> DomainID (q_msg r) ∈ ids.
Proof.
  unfold list_where. intros -> -> H. cbn in H. bools. destruct ids; [done|]. unfold in_domains in *. by bools.
Qed.

Lemma list_where_domain f id r : lf_DomainID f = id -> id <> 0 -> list_where f r = true -> DomainID (q_msg r) = id.
Proof.
  unfold list_where. intros -> Hid H. rewrite (proj2 (Z.eqb_neq id 0) Hid) in H. cbn in H. bools. lia.
Qed.
