(* ===== verification/QueueProps.v ===== *)
(** * The queue table as a state machine: invariant and guarantees over any history

    [queue_op] has one constructor per statement the program runs on the table;
    [run_ops] is a history of them, in the order SQLite serialises them, from
    whichever goroutine or API handler they come. *)

From S2P Require Import Prelude GoStrings Times Errors Backoff StoreTypes StoreQueue.
From S2P Require Import QueueFacts.
From Stdlib Require Import QArith.
Open Scope Z_scope.

Inductive queue_op :=
| OpEnqueue (domains : list domain) (m : message)
| OpClaimInbound (domains : list domain) (ps : gmap Z primary_status) (worker : text) (limit : nat) (now : Z)
| OpClaimOutbound (domains : list domain) (worker : text) (limit : nat) (now : Z) (bouncesOnly : bool)
| OpMarkDelivered (id : text) (at_ : Z)
| OpMarkFailed (id reason : text)
| OpReschedule (id : text) (attempts : Z) (reason : text) (base max now k : Z)
| OpSetRecipients (id : text) (rcpts : list text)
| OpExpireOverdue (now : Z)
| OpReleaseOrphanedClaims (olderThan : Z)
| OpRetryNow (id : text) (now : Z)
| OpRetryDomainNow (domain now : Z)
| OpDeleteMessage (id : text)
| OpPurgeDelivered (cutoff : Z)
| OpQuarantine (id reason : text) (now : Z)
| OpRelease (id : text) (now : Z).

Definition run_op (op : queue_op) (q : queue) : queue :=
  match op with
  | OpEnqueue ds m => snd (Enqueue ds m q)
  | OpClaimInbound ds ps w l now => snd (ClaimBatch ds ps w (Z.of_nat l) now q)
  | OpClaimOutbound ds w l now b => snd (claimOutbound ds w (Z.of_nat l) now b q)
  | OpMarkDelivered id t => snd (MarkDelivered id t q)
  | OpMarkFailed id reason => snd (MarkFailed id reason q)
  | OpReschedule id a reason base max now k => snd (Reschedule id a reason base max now k q)
  | OpSetRecipients id rcpts => snd (SetRecipients id rcpts q)
  | OpExpireOverdue now => snd (ExpireOverdue now q)
  | OpReleaseOrphanedClaims t => snd (ReleaseOrphanedClaims t q)
  | OpRetryNow id now => snd (RetryNow id now q)
  | OpRetryDomainNow d now => snd (RetryDomainNow d now q)
  | OpDeleteMessage id => snd (DeleteMessage id q)
  | OpPurgeDelivered cutoff => snd (PurgeDelivered cutoff q)
  | OpQuarantine id reason now => snd (Quarantine id reason now q)
  | OpRelease id now => snd (Release id now q)
  end.

Definition run_ops (ops : list queue_op) (q : queue) : queue := fold_left (fun q op => run_op op q) ops q.

(** The messages a claim hands to the delivery workers; none for another statement. *)
Definition op_claimed (op : queue_op) (q : queue) : list message :=
  match op with
  | OpClaimInbound ds ps w l now => fst (ClaimBatch ds ps w (Z.of_nat l) now q)
  | OpClaimOutbound ds w l now b => fst (claimOutbound ds w (Z.of_nat l) now b q)
  | _ => []
  end.

(** ** The row-level view: every statement maps, drops or appends rows *)

(** The update a statement makes to one row of the table it runs on. *)
Definition row_after (op : queue_op) (q : queue) (r : qrow) : option qrow :=
  let upd (p : qrow -> bool) f := Some (if p r then f r else r) in
  match op with
  | OpEnqueue _ _ => Some r
  | OpClaimInbound ds ps w l now =>
      Some (if claim_test (claimable_inbound ds ps now) (Z.of_nat l) q r then claimed_row w now r else r)
  | OpClaimOutbound ds w l now b =>
      Some (if claim_test (claimable_outbound ds b now) (Z.of_nat l) q r then claimed_row w now r else r)
  | OpMarkDelivered id t => upd (by_id id) (delivered_row t)
  | OpMarkFailed id reason => upd (by_id id) (failed_row reason)
  | OpReschedule id a reason base max now k =>
      upd (by_id id) (rescheduled_row a reason (now + Backoff a base max k))
  | OpSetRecipients id rcpts => upd (by_id id) (on_msg (set_EnvelopeTo rcpts))
  | OpExpireOverdue now => upd (overdue now) expired_row
  | OpReleaseOrphanedClaims t => upd (orphaned t) released_row
  | OpRetryNow id now => upd (retryable id) (on_msg (fun m => set_MStatus StatusQueued (set_NextRetryAt now m)))
  | OpRetryDomainNow d now => upd (waiting d now) (on_msg (set_NextRetryAt now))
  | OpDeleteMessage id => if by_id id r then None else Some r
  | OpPurgeDelivered cutoff => if purgeable cutoff r then None else Some r
  | OpQuarantine id reason now =>
      upd (fun r => by_id id r && negb (is_quarantined r))
        (on_msg (fun m => set_QuarantinedAt (Some now) (set_QuarantineReason (truncate reason 500) m)))
  | OpRelease id now =>
      upd (fun r => by_id id r && is_quarantined r)
        (on_msg (fun m => set_QuarantinedAt None (set_QuarantineReason []
           (set_MStatus StatusQueued (set_NextRetryAt now m)))))
  end.

(** The row a statement appends. *)
Definition row_added (op : queue_op) (q : queue) (r : qrow) : Prop :=
  match op with
  | OpEnqueue ds m => r = enqueued m /\ ID m ∉ map row_id q
  | _ => False
  end.

Lemma existsb_by_id id q : existsb (by_id id) q = true <-> id ∈ map row_id q.
Proof.
  rewrite existsb_elem, elem_of_map. unfold by_id. setoid_rewrite bool_decide_eq_true.
  split; intros (r & ? & ?); eauto.
Qed.

#[local] Transparent claim.
Lemma claim_table e w l now q :
  0 <= l -> snd (claim e w l now q) = update_where (claim_test e l q) (claimed_row w now) q.
Proof. intros Hl. unfold claim, sql_limit. by destruct (Z.ltb_spec l 0); [lia|]. Qed.
#[local] Opaque claim.

Lemma elem_of_delete_where p q r : r ∈ delete_where p q <-> r ∈ q /\ p r = false.
Proof. unfold delete_where. rewrite elem_of_List_filter, negb_true_iff. tauto. Qed.

(** Every row after a statement comes from one before it, or was appended. *)
Lemma run_op_row op q r :
  r ∈ run_op op q -> (exists s, s ∈ q /\ row_after op q s = Some r) \/ row_added op q r.
Proof.
  assert (Hupd : forall (p : qrow -> bool) f, r ∈ update_where p f q ->
            (exists s, s ∈ q /\ Some (if p s then f s else s) = Some r) \/ False).
  { intros p f. rewrite elem_of_update_where. intros (s & ? & ->). eauto. }
  assert (Hdel : forall p, r ∈ delete_where p q ->
            (exists s, s ∈ q /\ (if p s then None else Some s) = Some r) \/ False).
  { intros p. rewrite elem_of_delete_where. intros [Hr E]. left. exists r. by rewrite E. }
  destruct op; cbn -[update_where delete_where]; try apply Hupd; try apply Hdel.
  - unfold Enqueue. destruct (existsb (by_id (ID m)) q) eqn:E; cbn; [eauto|].
    destruct (existsb _ domains); cbn; [|eauto].
    rewrite elem_of_app, list_elem_of_singleton. intros [?|H]; [eauto|].
    right. split; [done|]. by rewrite <- existsb_by_id, E.
  - unfold ClaimBatch. rewrite claim_table by lia. apply Hupd.
  - unfold claimOutbound. rewrite claim_table by lia. apply Hupd.
Qed.

(** ... and every row a statement does not drop is still there, updated. *)
Lemma run_op_row_back op q s r : s ∈ q -> row_after op q s = Some r -> r ∈ run_op op q.
Proof.
  intros Hs.
  assert (Hupd : forall (p : qrow -> bool) f, Some (if p s then f s else s) = Some r -> r ∈ update_where p f q).
  { intros p f [= <-]. apply elem_of_update_where. eauto. }
  assert (Hdel : forall (p : qrow -> bool), (if p s then None else Some s) = Some r -> r ∈ delete_where p q).
  { intros p H. apply elem_of_delete_where. destruct (p s) eqn:E; [done|]. by injection H as <-. }
  destruct op; cbn -[update_where delete_where]; intros Ha;
    try exact (Hupd _ _ Ha); try exact (Hdel _ Ha).
  - unfold Enqueue. injection Ha as <-. destruct (existsb _ q); [done|].
    destruct (existsb _ domains); [|done]. apply elem_of_app. by left.
  - unfold ClaimBatch. rewrite claim_table by lia. exact (Hupd _ _ Ha).
  - unfold claimOutbound. rewrite claim_table by lia. exact (Hupd _ _ Ha).
Qed.

Lemma row_after_id op q s r : row_after op q s = Some r -> row_id r = row_id s.
Proof.
  destruct op; cbn; intros H; repeat split_match_in H; by simplify_eq/=.
Qed.

(** ** The invariant of the table *)

Record queue_wf (q : queue) : Prop := {
  wf_unique : unique_ids q;
  wf_claimed : forall r, r ∈ q -> row_status r = StatusDelivering -> is_Some (q_claimed_at r);
  wf_delivered : forall r, r ∈ q -> row_status r = StatusDelivered -> is_Some (DeliveredAt (q_msg r))
}.

Lemma run_op_unique op q : unique_ids q -> unique_ids (run_op op q).
Proof.
  unfold unique_ids. intros Hu.
  assert (Hdel : forall p, NoDup (map row_id (delete_where p q))).
  { intros p. eapply sublist_NoDup; [exact Hu|apply delete_where_ids]. }
  destruct op; cbn -[update_where delete_where]; try apply Hdel;
    try (rewrite update_where_ids by eauto with xmx; done).
  - unfold Enqueue. destruct (existsb (by_id (ID m)) q) eqn:E; [done|].
    destruct (existsb _ domains); [|done]. cbn. rewrite map_app. cbn.
    apply NoDup_app. split; [done|]. split; [|apply NoDup_singleton].
    intros id Hid. rewrite list_elem_of_singleton. intros ->.
    apply existsb_by_id in Hid. cbn in Hid. congruence.
  - unfold ClaimBatch. rewrite claim_table by lia. by rewrite update_where_ids.
  - unfold claimOutbound. rewrite claim_table by lia. by rewrite update_where_ids.
Qed.

(** What holds of each row alone. *)
Definition row_wf (r : qrow) : Prop :=
  (row_status r = StatusDelivering -> is_Some (q_claimed_at r)) /\
  (row_status r = StatusDelivered -> is_Some (DeliveredAt (q_msg r))).

Lemma row_after_wf op q s r : row_wf s -> row_after op q s = Some r -> row_wf r.
Proof.
  unfold row_wf, row_status. intros [H1 H2].
  destruct op; cbn; intros H; repeat split_match_in H; simplify_eq/=; (split; intros; try done; eauto).
Qed.

Lemma row_wf_all q : queue_wf q <-> unique_ids q /\ forall r, r ∈ q -> row_wf r.
Proof. split; [intros []; split; [done|split; eauto]|intros [? H]; split; [done|apply H|apply H]]. Qed.

Lemma queue_wf_step op q : queue_wf q -> queue_wf (run_op op q).
Proof.
  rewrite !row_wf_all. intros [Hu Hr]. split; [by apply run_op_unique|].
  intros r [(s & Hs & Ha)|Ha]%run_op_row; [by eapply row_after_wf; eauto|].
  destruct op; cbn in Ha; try done. destruct Ha as [-> _]. done.
Qed.

Lemma queue_wf_steps ops q : queue_wf q -> queue_wf (run_ops ops q).
Proof.
  revert q. induction ops as [|op ops IH]; intros q Hq; cbn; [done|]. by apply IH, queue_wf_step.
Qed.

Lemma run_ops_unique ops q : unique_ids q -> unique_ids (run_ops ops q).
Proof. revert q. induction ops as [|op ops IH]; intros q Hq; cbn; [done|]. by apply IH, run_op_unique. Qed.

Lemma claim_test_eligible e l q r :
  0 <= l -> unique_ids q -> r ∈ q -> claim_test e l q r = true -> e r = true.
Proof.
  intros Hl Hu Hr. rewrite claim_test_picked by done. intros Hp.
  unfold claim_picked, claim_sorted in Hp.
  assert (r ∈ merge_sort retry_le (List.filter e q)) as H.
  { rewrite <- (take_drop (Z.to_nat l)). apply elem_of_app. by left. }
  rewrite merge_sort_Permutation, elem_of_List_filter in H. tauto.
Qed.

Lemma claimable_inbound_status ds ps now r :
  claimable_inbound ds ps now r = true -> row_status r = StatusQueued /\ is_quarantined r = false.
Proof. unfold claimable_inbound, claimable. intros H. bools. done. Qed.

Lemma claimable_outbound_status ds b now r :
  claimable_outbound ds b now r = true -> row_status r = StatusQueued /\ is_quarantined r = false.
Proof. unfold claimable_outbound, claimable. intros H. bools. done. Qed.

(** A row no claim may take: not queued, or quarantined. *)
Lemma claim_skips op q r :
  unique_ids q -> r ∈ q -> (row_status r <> StatusQueued \/ is_quarantined r = true) ->
  (forall m, m ∈ op_claimed op q -> ID m <> row_id r) /\
  (forall ds ps w l now, op = OpClaimInbound ds ps w l now -> row_after op q r = Some r) /\
  (forall ds w l now b, op = OpClaimOutbound ds w l now b -> row_after op q r = Some r).
Proof.
  intros Hu Hr Hst.
  assert (Hno : forall e l, (forall s, e s = true -> row_status s = StatusQueued /\ is_quarantined s = false) ->
            0 <= l -> claim_test e l q r = false).
  { intros e l He Hl. destruct (claim_test e l q r) eqn:E; [|done].
    apply claim_test_eligible, He in E as []; try done. destruct Hst; congruence. }
  assert (Hret : forall e l w now m, (forall s, e s = true -> row_status s = StatusQueued /\ is_quarantined s = false) ->
            0 <= l -> m ∈ fst (claim e w l now q) -> ID m <> row_id r).
  { intros e l w now m He Hl (s & Hs & Hes & ->)%claim_eligible Hid; try done.
    assert (s = r) as -> by (by eapply unique_ids_eq). apply He in Hes as []. destruct Hst; congruence. }
  split_and!.
  - intros m Hm. destruct op; cbn in Hm; try (by apply not_elem_of_nil in Hm);
      (eapply Hret; [| |exact Hm]; [|lia]); [apply claimable_inbound_status|apply claimable_outbound_status].
  - intros ds ps w l now ->. cbn. rewrite Hno; [done| |lia]. apply claimable_inbound_status.
  - intros ds w l now b ->. cbn. rewrite Hno; [done| |lia]. apply claimable_outbound_status.
Qed.

(** ** Exclusive claims *)

(** Row [id] is in the hands of a worker since [c]. *)
Definition in_flight (id : text) (c : Z) (q : queue) : Prop :=
  exists r, r ∈ q /\ row_id r = id /\ row_status r = StatusDelivering /\ q_claimed_at r = Some c.

(** The statements that may end it: the worker's own verdicts, an operator's deletion
    or release, and the recovery of claims at least as old as the cutoff. *)
Definition settles (id : text) (c : Z) (op : queue_op) : bool :=
  match op with
  | OpMarkDelivered i _ | OpMarkFailed i _ | OpReschedule i _ _ _ _ _ _
  | OpDeleteMessage i | OpRelease i _ => bool_decide (i = id)
  | OpReleaseOrphanedClaims t => time_leb c t
  | _ => false
  end.

Lemma in_flight_step op id c q :
  unique_ids q -> in_flight id c q -> settles id c op = false -> in_flight id c (run_op op q).
Proof.
  intros Hu (r & Hr & <- & Hst & Hc) Hs.
  assert (exists r', row_after op q r = Some r' /\ row_id r' = row_id r /\
            row_status r' = StatusDelivering /\ q_claimed_at r' = Some c) as (r' & Ha & ?).
  { destruct (claim_skips op q r Hu Hr) as (_ & Hin & Hout); [left; congruence|].
    destruct op; cbn in Hs |- *; unfold by_id, retryable, overdue, orphaned, waiting, purgeable;
      try (rewrite bool_decide_eq_false in Hs; rewrite (bool_decide_eq_false_2 (row_id r = _)) by congruence);
      rewrite ?Hst, ?Hc, ?Hs; cbn;
      try (eexists; split; [done|]; done).
    - exists r. split; [by eapply Hin|done].
    - exists r. split; [by eapply Hout|done].
    - destruct (bool_decide (row_id r = _)); (eexists; split; [done|]; done).
    - rewrite ?andb_false_r. eexists; split; [done|]; done.
    - rewrite ?andb_false_r. eexists; split; [done|]; done.
    - destruct (bool_decide (row_id r = _) && _); (eexists; split; [done|]; done). }
  exists r'. split; [by eapply run_op_row_back|done].
Qed.

Lemma in_flight_steps ops id c q :
  unique_ids q -> in_flight id c q -> Forall (fun op => settles id c op = false) ops ->
  in_flight id c (run_ops ops q).
Proof.
  revert q. induction ops as [|op ops IH]; intros q Hu Hf Ho; cbn; [done|].
  inversion Ho; subst. apply IH; [by apply run_op_unique|by apply in_flight_step|done].
Qed.

(** ** Sample data for the witnesses *)

Definition sample_message (id : text) (domain : Z) (dir : direction) (due : Z) : message :=
  Msg id domain "alice@sender.example"%string [T "bob@you.example"] [] 1000 0 (168 * hour)
    StatusQueued 0 due [] None [] dir None [] None [] [] false [].

Definition sample_domain (id : Z) (name : text) : domain :=
  Domain id name "mail.you.example"%string 25 "opportunistic"%string None None 168 true 0 0.

Definition sample_up : primary_status := PrimaryStatus true None None None 0 2 [].

Definition sample_queue : queue :=
  [enqueued (sample_message "m1"%string 1 DirectionInbound (5 * second));
   enqueued (sample_message "m2"%string 1 DirectionInbound (3 * second));
   enqueued (sample_message "m3"%string 2 DirectionInbound (1 * second));
   enqueued (sample_message "m4"%string 1 DirectionOutbound (1 * second))].

Lemma sample_queue_unique : unique_ids sample_queue.
Proof. refine (bool_decide_unpack (NoDup (map row_id sample_queue)) _). vm_compute. exact I. Qed.

(** ** Properties *)

(** Every table reachable from the empty one by any history of statements has unique
    identifiers, a claim time on every delivering row and a delivery time on every
    delivered one. *)
Theorem queue_reachable_wf ops : queue_wf (run_ops ops []).
Proof.
  apply queue_wf_steps. split; [constructor| |]; intros r Hr; by apply not_elem_of_nil in Hr.
Qed.

(** What "due" promises of a message, in words of its own rather than of the code. *)
Definition due (domains : list domain) (ps : gmap Z primary_status) (now : Z) (m : message) : Prop :=
  MStatus m = StatusQueued /\ QuarantinedAt m = None /\ MDirection m = DirectionInbound /\
  time_leb (NextRetryAt m) now = true /\
  (exists d, d ∈ domains /\ DID d = DomainID m /\ DEnabled d = true) /\
  (exists p, ps !! DomainID m = Some p /\ IsUp p = true).

Lemma domain_enabled_spec domains id :
  domain_enabled domains id = true <-> exists d, d ∈ domains /\ DID d = id /\ DEnabled d = true.
Proof.
  unfold domain_enabled. rewrite existsb_elem. setoid_rewrite andb_true_iff.
  setoid_rewrite Z.eqb_eq. done.
Qed.

Lemma claimable_inbound_due domains ps now r :
  claimable_inbound domains ps now r = true <-> due domains ps now (q_msg r).
Proof.
  unfold claimable_inbound, claimable, due, is_quarantined, primary_up, row_status.
  rewrite !andb_true_iff, negb_true_iff, bool_decide_eq_false, !bool_decide_eq_true, domain_enabled_spec.
  rewrite <- eq_None_not_Some. destruct (ps !! _); naive_solver.
Qed.

(** C17: [ClaimBatch] hands out at most [limit] messages; each was queued, not quarantined,
    inbound, due, of an enabled domain whose primary is up, and is now delivering; a
    message left behind though it could be claimed is not due before a claimed one; every other row is untouched. *)
Theorem ClaimBatch_correct domains ps worker limit now q :
  0 <= limit -> unique_ids q ->
  let '(ms, q') := ClaimBatch domains ps worker limit now q in
  (length ms <= Z.to_nat limit)%nat /\
  (forall m, m ∈ ms -> exists r, r ∈ q /\ due domains ps now (q_msg r) /\
     m = set_MStatus StatusDelivering (q_msg r) /\ claimed_row worker now r ∈ q') /\
  (forall r s, r ∈ q -> s ∈ q -> row_id r ∈ map ID ms -> row_id s ∉ map ID ms ->
     due domains ps now (q_msg s) -> retry_le r s) /\
  (forall r, r ∈ q -> row_id r ∉ map ID ms -> r ∈ q') /\
  map row_id q' = map row_id q.
Proof.
  intros Hl Hu. destruct (ClaimBatch domains ps worker limit now q) as [ms q'] eqn:E.
  unfold ClaimBatch in E. set (el := claimable_inbound domains ps now) in *.
  assert (Hms : fst (claim el worker limit now q) = ms) by (by rewrite E).
  assert (Hq' : snd (claim el worker limit now q) = q') by (by rewrite E).
  assert (Hids : forall r, r ∈ q -> row_id r ∈ map ID ms <-> r ∈ claim_picked el limit q).
  { intros r Hr. rewrite elem_of_map, <- Hms. setoid_rewrite claim_returns; [|done..]. split.
    - intros (m & Hid & s & Hs & ->). pose proof (picked_in _ _ _ s Hs) as [Hsq _].
      by rewrite (unique_ids_eq q r s Hu Hr Hsq Hid).
    - intros Hp. exists (set_MStatus StatusDelivering (q_msg r)). eauto. }
  split_and!.
  - rewrite <- Hms. by apply claim_length.
  - intros m Hm. rewrite <- Hms, claim_returns in Hm by done. destruct Hm as (r & Hp & ->).
    pose proof (picked_in _ _ _ r Hp) as [Hr He%claimable_inbound_due]. exists r. split_and!; [done..|].
    rewrite <- Hq'. apply claim_rows; [done..|]. exists r. by rewrite bool_decide_eq_true_2.
  - intros r s Hr Hs Hri Hsi Hc%claimable_inbound_due. rewrite Hids in Hri, Hsi by done. by eapply claim_earliest.
  - intros r Hr Hri. rewrite Hids in Hri by done. rewrite <- Hq'. apply claim_rows; [done..|].
    exists r. by rewrite bool_decide_eq_false_2.
  - rewrite <- Hq'. by apply claim_ids.
Qed.

(** When a claim is made. *)
Definition op_time (op : queue_op) : Z :=
  match op with OpClaimInbound _ _ _ _ now | OpClaimOutbound _ _ _ now _ => now | _ => 0 end.

Lemma claim_in_flight el w l now q m :
  0 <= l -> unique_ids q -> m ∈ fst (claim el w l now q) -> in_flight (ID m) now (snd (claim el w l now q)).
Proof.
  intros Hl Hu Hm. apply claim_returns in Hm as (r & Hp & ->); [|done..]. pose proof (picked_in _ _ _ r Hp) as [Hr _].
  exists (claimed_row w now r). split_and!; [|done..]. apply claim_rows; [done..|]. exists r. by rewrite bool_decide_eq_true_2.
Qed.

Lemma claimed_in_flight op q m : unique_ids q -> m ∈ op_claimed op q -> in_flight (ID m) (op_time op) (run_op op q).
Proof.
  intros Hu. destruct op; try (by intros ?%not_elem_of_nil); cbn; unfold ClaimBatch, claimOutbound; apply claim_in_flight; auto; lia.
Qed.

(** C9: a message is with one worker at a time.  Once a claim, inbound, outbound or of bounces, has
    handed it out, no claim by any worker hands it out again, whatever statements run in between,
    before one of them ends the first: the verdict of a worker on this message (delivered, failed,
    rescheduled), an operator's deletion of it or its release from quarantine, or a recovery of
    the claims made up to a cutoff that is not before this one.  (The workers recover with three
    delivery timeouts before the present for a cutoff, and with the present when they start.) *)
Theorem claim_exclusive first ops second q m m' :
  unique_ids q -> m ∈ op_claimed first q ->
  m' ∈ op_claimed second (run_ops ops (run_op first q)) -> ID m' = ID m ->
  exists o, o ∈ ops /\ settles (ID m) (op_time first) o = true.
Proof.
  intros Hu Hm Hm' Hid. destruct (existsb (settles (ID m) (op_time first)) ops) eqn:E.
  - apply existsb_exists in E as (o & Ho & Hs). exists o. by rewrite list_elem_of_In.
  - exfalso. assert (Ho : Forall (fun o => settles (ID m) (op_time first) o = false) ops).
    { apply Forall_forall. intros o Ho%list_elem_of_In. destruct (settles _ _ o) eqn:Es; [|done].
      rewrite <- E. symmetry. apply existsb_exists. eauto. }
    destruct (in_flight_steps ops (ID m) (op_time first) (run_op first q)) as (r & Hr & Hri & Hst & _);
      [by apply run_op_unique|by apply claimed_in_flight|done|].
    destruct (claim_skips second (run_ops ops (run_op first q)) r) as [H _];
      [by apply run_ops_unique, run_op_unique|done|left; congruence|]. apply (H m' Hm'). congruence.
Qed.

(** Claimed, rescheduled, and claimed again. *)
Lemma claim_exclusive_witness :
  let claim_by w now := OpClaimInbound [sample_domain 1 "you.example"%string] {[1 := sample_up]} w 1 now in
  let ops := [OpRetryNow "m2"%string (9 * second); OpReschedule "m2"%string 1 "busy"%string 0 0 (4 * second) 0] in
  let m := set_MStatus StatusDelivering (sample_message "m2"%string 1 DirectionInbound (3 * second)) in
  exists o, o ∈ ops /\ settles "m2"%string (4 * second) o = true.
Proof.
  intros claim_by ops m.
  assert (H1 : op_claimed (claim_by "w"%string (4 * second)) sample_queue = [m]) by (vm_compute; reflexivity).
  assert (H2 : map ID (op_claimed (claim_by "v"%string (5 * second)) (run_ops ops (run_op (claim_by "w"%string (4 * second)) sample_queue))) = [T "m2"])
    by (vm_compute; reflexivity).
  destruct (op_claimed (claim_by "v"%string (5 * second)) _) as [|m' rest] eqn:E; [discriminate H2|]. injection H2 as Hid _.
  apply (claim_exclusive (claim_by "w"%string (4 * second)) ops (claim_by "v"%string (5 * second)) sample_queue m m');
    [exact sample_queue_unique|rewrite H1; apply list_elem_of_here|rewrite E; apply list_elem_of_here|exact Hid].
Defined.

Lemma ClaimBatch_correct_witness :
  unique_ids sample_queue /\
  let '(ms, q') := ClaimBatch [sample_domain 1 "you.example"%string] {[1 := sample_up]} "w"%string 2 (4 * second) sample_queue in
  (length ms <= Z.to_nat 2)%nat.
Proof.
  split; [exact sample_queue_unique|].
  pose proof (ClaimBatch_correct [sample_domain 1 "you.example"%string] {[1 := sample_up]} "w"%string 2 (4 * second)
    sample_queue ltac:(lia) sample_queue_unique) as H.
  destruct (ClaimBatch _ _ _ _ _ _) as [ms q']. exact (proj1 H).
Defined.

(** ** Quarantine *)

(** Row [id] is queued and held in quarantine. *)
Definition held (id : text) (q : queue) : Prop :=
  exists r, r ∈ q /\ row_id r = id /\ row_status r = StatusQueued /\ is_quarantined r = true.

(** The statements addressed to one message that can end it: its release, its deletion,
    and a worker's verdicts (which a held message cannot get, being in no worker's hands). *)
Definition addresses (id : text) (op : queue_op) : bool :=
  match op with
  | OpMarkDelivered i _ | OpMarkFailed i _ | OpReschedule i _ _ _ _ _ _
  | OpDeleteMessage i | OpRelease i _ => bool_decide (i = id)
  | _ => false
  end.

Lemma held_step op id q :
  unique_ids q -> held id q -> addresses id op = false -> held id (run_op op q).
Proof.
  intros Hu (r & Hr & <- & Hst & Hq) Hs.
  assert (exists r', row_after op q r = Some r' /\ row_id r' = row_id r /\
            row_status r' = StatusQueued /\ is_quarantined r' = true) as (r' & Ha & ?).
  { destruct (claim_skips op q r Hu Hr) as (_ & Hin & Hout); [by right|].
    destruct op; cbn in Hs |- *; unfold by_id, retryable, overdue, orphaned, waiting, purgeable;
      try (rewrite bool_decide_eq_false in Hs; rewrite (bool_decide_eq_false_2 (row_id r = _)) by congruence);
      rewrite ?Hst, ?Hq; cbn; rewrite ?andb_false_r;
      try (eexists; split; [done|]; done).
    - exists r. split; [by eapply Hin|done].
    - exists r. split; [by eapply Hout|done].
    - destruct (bool_decide (row_id r = _)); (eexists; split; [done|]; done).
    - destruct (by_id _ r && _); (eexists; split; [done|]; done).
    - destruct ((_ =? _) && _ && _); (eexists; split; [done|]; done). }
  exists r'. split; [by eapply run_op_row_back|done].
Qed.

Lemma held_steps ops id q :
  unique_ids q -> held id q -> Forall (fun op => addresses id op = false) ops ->
  held id (run_ops ops q).
Proof.
  revert q. induction ops as [|op ops IH]; intros q Hu Hf Ho; cbn; [done|].
  inversion Ho; subst. apply IH; [by apply run_op_unique|by apply held_step|done].
Qed.

(** A queued message in quarantine is neither handed to a worker nor expired, by any
    history of statements that does not release, delete or settle that very message. *)
Theorem quarantine_holds ops op id q :
  unique_ids q -> held id q -> Forall (fun o => addresses id o = false) ops ->
  held id (run_ops ops q) /\
  (forall m, m ∈ op_claimed op (run_ops ops q) -> ID m <> id) /\
  (forall now, id ∉ fst (ExpireOverdue now (run_ops ops q))).
Proof.
  intros Hu Hh Ho. pose proof (held_steps ops id q Hu Hh Ho) as Hh'.
  pose proof (run_ops_unique ops q Hu) as Hu'. split; [done|].
  destruct Hh' as (r & Hr & <- & Hst & Hq). split.
  - intros m Hm. destruct (claim_skips op (run_ops ops q) r) as [H _]; [done|done|by right|]. by apply H.
  - intros now Hin. apply elem_of_map in Hin as (s & Hid & [Ho' Hs]%elem_of_List_filter).
    assert (s = r) as -> by (by eapply unique_ids_eq). unfold overdue in Ho'. bools. congruence.
Qed.

Lemma quarantine_holds_witness :
  held "m2"%string (run_op (OpQuarantine "m2"%string "malware"%string second) sample_queue) /\
  T "m2" ∉ fst (ExpireOverdue (400 * hour)
    (run_ops [OpRetryNow "m2"%string (9 * second)] (run_op (OpQuarantine "m2"%string "malware"%string second) sample_queue))).
Proof.
  assert (H : held "m2"%string (run_op (OpQuarantine "m2"%string "malware"%string second) sample_queue)).
  { eexists. split; [apply list_elem_of_further, list_elem_of_here|]. vm_compute. done. }
  split; [exact H|].
  apply (quarantine_holds [OpRetryNow "m2"%string (9 * second)] (OpExpireOverdue 0) "m2"%string
    (run_op (OpQuarantine "m2"%string "malware"%string second) sample_queue));
    [apply run_op_unique, sample_queue_unique|exact H|repeat constructor].
Defined.

(** Intake inserts a message it wants quarantined and only then quarantines it, in a
    second statement.  A delivery pass that claims in between takes the message, and the
    later quarantine marks a row that is already with a worker. *)
Theorem quarantine_race :
  let m := sample_message "m9"%string 1 DirectionInbound 0 in
  let ds := [sample_domain 1 "you.example"%string] in
  let q1 := run_op (OpEnqueue ds m) [] in
  let claim := OpClaimInbound ds {[1 := sample_up]} "w"%string 16 (2 * second) in
  let q3 := run_ops [claim; OpQuarantine "m9"%string "malware: Eicar"%string (2 * second)] q1 in
  map ID (op_claimed claim q1) = [T "m9"] /\
  map (fun r => (row_status r, is_quarantined r)) q3 = [(StatusDelivering, true)].
Proof. split; vm_compute; reflexivity. Qed.

(** ** Quotas and listings *)

Lemma sum_sizes_app q q' : sum_sizes (q ++ q') = sum_sizes q + sum_sizes q'.
Proof. induction q as [|r q IH]; cbn; [done|]. unfold sum_sizes in *. lia. Qed.

(** An accepted message adds one to the pending count and its size to the pending
    bytes, which is what the intake quotas are checked against. *)
Theorem Enqueue_stats domains m q q' :
  Enqueue domains m q = (Ok (), q') ->
  Pending (Stats q') = Pending (Stats q) + 1 /\
  PendingBytes (Stats q') = PendingBytes (Stats q) + SizeBytes m /\
  CountPendingForDomain (DomainID m) q' = CountPendingForDomain (DomainID m) q + 1.
Proof.
  unfold Enqueue. destruct (existsb _ q); [done|]. destruct (negb _); [done|]. intros [= <-].
  unfold Stats, CountPendingForDomain, rows_affected. cbn [Pending PendingBytes].
  rewrite !List.filter_app, !length_app, sum_sizes_app. cbn. rewrite Z.eqb_refl. change (is_pending (enqueued m)) with true. cbn. split_and!; lia.
Qed.

Lemma Enqueue_stats_witness :
  let m := sample_message "m9"%string 1 DirectionInbound 0 in
  let q' := snd (Enqueue [sample_domain 1 "you.example"%string] m sample_queue) in
  PendingBytes (Stats q') = PendingBytes (Stats sample_queue) + SizeBytes m.
Proof.
  intros m q'.
  refine (proj1 (proj2 (Enqueue_stats [sample_domain 1 "you.example"%string] m sample_queue q' _))).
  vm_compute. reflexivity.
Defined.

(** A listing scoped to a set of domains never shows a message of another domain; it
    is newest first and at most 500 rows. *)
Theorem ListMessages_scoped f ids q :
  lf_DomainID f = 0 -> lf_DomainIDs f = Some ids ->
  (forall m, m ∈ ListMessages f q -> DomainID m ∈ ids) /\
  (length (ListMessages f q) <= 500)%nat /\
  Sorted (fun a b => time_leb (ReceivedAt b) (ReceivedAt a) = true) (ListMessages f q).
Proof.
  intros H0 Hids. unfold ListMessages.
  set (limit := if (lf_Limit f <=? 0) || (500 <? lf_Limit f) then 100 else lf_Limit f).
  assert (Hl : limit <= 500) by (unfold limit; case_match eqn:E; bools; lia).
  set (sorted := merge_sort received_ge (List.filter (list_where f) q)).
  split_and!.
  - intros m (r & _ & <- & Hw)%ListMessages_in. by eapply list_where_domains.
  - rewrite length_map, length_take. lia.
  - assert (Transitive received_ge) by (intros a b c Hab Hbc; exact (time_leb_trans _ _ _ Hbc Hab)).
    assert (base.Total received_ge) by (intros a b; apply time_leb_total).
    assert (HS : StronglySorted received_ge sorted).
    { apply Sorted_StronglySorted; [done|]. apply (Sorted_merge_sort received_ge). }
    rewrite <- (take_drop (Z.to_nat (lf_Offset f)) sorted) in HS.
    apply StronglySorted_app in HS as (_ & _ & HS).
    rewrite <- (take_drop (Z.to_nat limit) (drop _ sorted)) in HS.
    apply StronglySorted_app in HS as (_ & HS & _).
    apply StronglySorted_Sorted. revert HS. generalize (take (Z.to_nat limit) (drop (Z.to_nat (lf_Offset f)) sorted)).
    clear. induction 1 as [|r l HS IH Hr]; cbn; constructor; [done|].
    apply Forall_map. eapply Forall_impl; [exact Hr|]. done.
Qed.

Lemma ListMessages_scoped_witness :
  let f := {| lf_Status := None; lf_DomainID := 0; lf_DomainIDs := Some [2]; lf_Direction := None;
              lf_Limit := 50; lf_Offset := 0; lf_Quarantined := 0 |} in
  map ID (ListMessages f sample_queue) = [T "m3"] /\
  forall m, m ∈ ListMessages f sample_queue -> DomainID m ∈ [2].
Proof. split; [vm_compute; reflexivity|]. apply ListMessages_scoped; reflexivity. Defined.
