(* ===== verification/StoreDomains.v ===== *)
(** * Domains, primary status, events, recipients and sending usage

    The tables of internal/store/domains.go, recipients.go and sendlimit.go, one
    function per statement or transaction. *)

From S2P Require Import Prelude GoStrings Times Errors StoreTypes StoreQueue.
From Stdlib Require Import QArith.
Open Scope Z_scope.

(** ** Domains *)

Definition normalizeDomain (s : text) : text := to_lower (trim_space (trim_suffix "."%string s)).

Definition primary_tls_check (mode : text) : bool :=
  bool_decide (mode ∈ map T ["none"; "opportunistic"; "starttls"; "tls"]).

(** The tables of domains (rowid order) and of primary status, and the next
    AUTOINCREMENT identifier. *)
Record domain_tables := DomainTables {
  dt_domains : list domain;
  dt_primary : gmap Z primary_status;
  dt_next : Z
}.

Definition fresh_primary : primary_status := PrimaryStatus false None None None 0 0 [].

Definition CreateDomain (d : domain) (now : Z) (t : domain_tables) : result Z * domain_tables :=
  let name := normalizeDomain (DName d) in
  if existsb (fun e => bool_decide (DName e = name)) (dt_domains t) then
    (Err (EWrap "store: create domain"%string (EText "UNIQUE constraint failed: domains.name"%string)), t)
  else if negb (primary_tls_check (PrimaryTLS d)) then
    (Err (EWrap "store: create domain"%string (EText "CHECK constraint failed"%string)), t)
  else
    let id := dt_next t in
    let row := Domain id name (PrimaryHost d) (PrimaryPort d) (PrimaryTLS d) (MaxQueueMessages d)
                 (MonthlySendLimit d) (RetentionHours d) (DEnabled d) now now in
    (Ok id, DomainTables (dt_domains t ++ [row]) (<[id := fresh_primary]> (dt_primary t)) (id + 1)).

Definition DomainByName (name : text) (ds : list domain) : result domain :=
  match find (fun d => bool_decide (DName d = normalizeDomain name)) ds with
  | Some d => Ok d
  | None => Err not_found
  end.

Definition DomainByID (id : Z) (ds : list domain) : result domain :=
  match find (fun d => DID d =? id) ds with
  | Some d => Ok d
  | None => Err not_found
  end.

(** [ORDER BY name]. *)
Definition name_le (a b : domain) : Prop := text_leb (DName a) (DName b) = true.
#[export] Instance name_le_dec : RelDecision name_le.
Proof. intros a b. unfold name_le. apply _. Defined.

Definition ListDomains (ds : list domain) : list domain := merge_sort name_le ds.

Definition UpdateDomain (d : domain) (now : Z) (ds : list domain) : result unit * list domain :=
  if existsb (fun e => DID e =? DID d) ds then
    if negb (primary_tls_check (PrimaryTLS d)) then
      (Err (EWrap "store: exec"%string (EText "CHECK constraint failed"%string)), ds)
    else
      (Ok (), map (fun e => if DID e =? DID d then
         Domain (DID e) (DName e) (PrimaryHost d) (PrimaryPort d) (PrimaryTLS d) (MaxQueueMessages d)
           (MonthlySendLimit d) (RetentionHours d) (DEnabled d) (DCreatedAt e) now else e) ds)
  else (Err not_found, ds).

(** [DeleteDomain]; [ON DELETE CASCADE] clears the queue and the primary status with it. *)
Definition DeleteDomain (id : Z) (t : domain_tables) (q : queue)
  : result unit * (domain_tables * queue) :=
  if existsb (fun e => DID e =? id) (dt_domains t) then
    (Ok (), (DomainTables (List.filter (fun e => negb (DID e =? id)) (dt_domains t))
               (delete id (dt_primary t)) (dt_next t),
             delete_where (fun r => DomainID (q_msg r) =? id) q))
  else (Err not_found, (t, q)).

(** ** Probes: [RecordProbe] *)

Record probe_outcome := { po_flipped : bool; po_up : bool; po_status : primary_status }.

Definition apply_probe (ok : bool) (probeErr : text) (failureThreshold successThreshold now : Z)
  (s : primary_status) : probe_outcome :=
  let neverProbed := match LastCheck s with None => true | Some _ => false end in
  let success := if ok then ConsecutiveSuccess s + 1 else 0 in
  let failures := if ok then 0 else ConsecutiveFailures s + 1 in
  let '(up, flipped) :=
    if ok then
      if negb (IsUp s) && (successThreshold <=? success) then (true, true) else (IsUp s, false)
    else if IsUp s && (failureThreshold <=? failures) then (false, true)
    else (IsUp s, neverProbed) in
  {| po_flipped := flipped;
     po_up := up;
     po_status := PrimaryStatus up (Some now)
       (if flipped && up then Some now else LastUp s)
       (if flipped && negb up then Some now else LastDown s)
       failures success (truncate probeErr 500) |}.

Definition RecordProbe (domainID : Z) (ok : bool) (probeErr : text)
  (failureThreshold successThreshold now : Z) (ps : gmap Z primary_status)
  : result (bool * bool) * gmap Z primary_status :=
  match ps !! domainID with
  | None => (Err not_found, ps)
  | Some s =>
      let o := apply_probe ok probeErr failureThreshold successThreshold now s in
      (Ok (po_flipped o, po_up o), <[domainID := po_status o]> ps)
  end.

(** ** Events *)

Record event_row := EventRow { ev_id : Z; ev_event : event; ev_created : Z }.
Record event_table := EventTable { et_rows : list event_row; et_next : Z }.

Definition RecordEvent (e : event) (now : Z) (t : event_table) : event_table :=
  EventTable (et_rows t ++ [EventRow (et_next t) e now]) (et_next t + 1).

Definition event_limit (limit : Z) : Z := if (limit <=? 0) || (1000 <? limit) then 100 else limit.

(** Identifiers only grow, so [ORDER BY id DESC] is the table read backwards. *)
Definition ListEvents (limit : Z) (t : event_table) : list event_row :=
  take (Z.to_nat (event_limit limit)) (rev (et_rows t)).

Definition ListEventsForDomains (ids : list Z) (limit : Z) (t : event_table) : list event_row :=
  match ids with
  | [] => []
  | _ => take (Z.to_nat (event_limit limit))
      (rev (List.filter (fun r => match EDomainID (ev_event r) with
                                  | Some d => bool_decide (d ∈ ids)
                                  | None => false end) (et_rows t)))
  end.

(** [COALESCE(MIN(id), 0)]. *)
Definition min_id (rows : list event_row) : Z :=
  match rows with
  | [] => 0
  | r :: rest => foldr (fun r m => Z.min (ev_id r) m) (ev_id r) rest
  end.

Definition PurgeEvents (keep : Z) (t : event_table) : Z * event_table :=
  let cut := min_id (sql_limit keep (rev (et_rows t))) - 1 in
  let kept := List.filter (fun r => negb (ev_id r <=? cut)) (et_rows t) in
  (Z.of_nat (length (et_rows t) - length kept), EventTable kept (et_next t)).

(** The event types (domains.go). *)
Definition EventMailReceived : text := "mail_received"%string.
Definition EventMailDelivered : text := "mail_delivered"%string.
Definition EventMailDeferred : text := "mail_deferred"%string.
Definition EventMailFailed : text := "mail_failed"%string.
Definition EventMailExpired : text := "mail_expired"%string.
Definition EventMailRejected : text := "mail_rejected"%string.
Definition EventMailQuarantined : text := "mail_quarantined"%string.
Definition EventPrimaryUp : text := "primary_up"%string.
Definition EventPrimaryDown : text := "primary_down"%string.
Definition EventQueueFull : text := "queue_full"%string.
Definition EventSendLimitReached : text := "send_limit_reached"%string.

(** [EventCatalogue] and [KnownEventType]. *)
Definition EventCatalogue : list (text * list text) :=
  [(T "mail", map T ["mail_received"; "mail_delivered"; "mail_deferred"; "mail_failed"; "mail_expired";
      "mail_rejected"; "mail_quarantined"; "mail_released"]);
   (T "health", map T ["primary_up"; "primary_down"; "queue_full"; "startup"]);
   (T "admin", map T ["login"; "login_failed"; "admin_read_message"; "admin_delete_message";
      "admin_retry_message"; "domain_added"; "domain_deleted"; "smtp_user_created";
      "smtp_user_deleted"; "filter_created"; "filter_deleted"; "dkim_key_created";
      "dkim_key_deleted"; "route_created"; "route_deleted"; "config_imported";
      "api_token_created"; "api_token_deleted"; "webhook_created"; "webhook_updated";
      "webhook_deleted"; "cluster_config_synced"])].

Definition KnownEventType (t : text) : bool :=
  existsb (fun cat => existsb (fun known => bool_decide (known = t)) (snd cat)) EventCatalogue.

(** ** Known recipients *)

Definition NormalizeRecipient (addr : text) : text := to_lower (trim_space addr).

(** [slices.Compact]: drop adjacent repetitions. *)
Fixpoint compact (l : list text) : list text :=
  match l with
  | a :: ((b :: _) as l') => if bool_decide (a = b) then compact l' else a :: compact l'
  | _ => l
  end.

Definition text_le (a b : text) : Prop := text_leb a b = true.
#[export] Instance text_le_dec : RelDecision text_le.
Proof. intros a b. unfold text_le. apply _. Defined.

Definition clean_recipients (addrs : list text) : list text :=
  compact (merge_sort text_le
    (List.filter (fun a => negb (bool_decide (a = []))) (map NormalizeRecipient addrs))).

Definition domain_exists (id : Z) (ds : list domain) : bool := existsb (fun d => DID d =? id) ds.

Definition foreign_key (prefix : text) : error :=
  EWrap prefix (EText "FOREIGN KEY constraint failed"%string).

(** [SetDomainRecipients]: the lists of the domains that have one; the transaction rolls
    back when an insert breaks the foreign key. *)
Definition SetDomainRecipients (ds : list domain) (domainID : Z) (addrs : list text)
  (rs : gmap Z (list text)) : result unit * gmap Z (list text) :=
  match clean_recipients addrs with
  | a :: _ =>
      if domain_exists domainID ds then (Ok (), <[domainID := clean_recipients addrs]> rs)
      else (Err (foreign_key ("store: add recipient "%string ++ a)), rs)
  | [] => (Ok (), delete domainID rs)
  end.

Definition DomainRecipients (domainID : Z) (rs : gmap Z (list text)) : list text :=
  default [] (rs !! domainID).

Definition RecipientAllowed (domainID : Z) (addr : text) (rs : gmap Z (list text)) : bool :=
  let listed := DomainRecipients domainID rs in
  let matched := List.filter (fun a => bool_decide (a = NormalizeRecipient addr)) listed in
  (Z.of_nat (length listed) =? 0) || (0 <? Z.of_nat (length matched)).

(** ** Monthly sending usage *)

Abbreviation usage := (gmap (Z * text) Z).

Definition SentThisMonth (domainID now : Z) (u : usage) : Z := default 0 (u !! (domainID, usageMonth now)).

(** [ReserveSends]: one transaction; a refused or failed reservation writes nothing. *)
Definition ReserveSends (ds : list domain) (domainID n : Z) (limit : option Z) (now : Z) (u : usage)
  : result (bool * Z) * usage :=
  let before := SentThisMonth domainID now u in
  if match limit with Some l => l <? before + n | None => false end then (Ok (false, before), u)
  else if negb (domain_exists domainID ds) then
    (Err (foreign_key "store: record sending usage"%string), u)
  else (Ok (true, before), <[(domainID, usageMonth now) := before + n]> u).

Definition ReleaseSends (domainID n now : Z) (u : usage) : result unit * usage :=
  let key := (domainID, usageMonth now) in
  match u !! key with
  | None => (Err not_found, u)
  | Some v => (Ok (), <[key := Z.max (v - n) 0]> u)
  end.
