(* ===== verification/DomainProps.v ===== *)
(** * Domains, probes, events, recipients and usage: lemmas and guarantees *)

From S2P Require Import Prelude GoStrings Times Errors StoreTypes StoreQueue QueueFacts.
From S2P Require Import StoreDomains.
From Stdlib Require Import QArith.
Open Scope Z_scope.

(** ** Probes refine a specification on the history of outcomes

    A history lists outcomes newest first.  [streak b h] is the length of the run of
    [b] that ends it; the primary comes up when a run of successes reaches the success
    threshold and goes down when a run of failures reaches the failure threshold. *)

Fixpoint streak (b : bool) (h : list bool) : Z :=
  match h with
  | [] => 0
  | o :: h => if Bool.eqb o b then 1 + streak b h else 0
  end.

Fixpoint spec_up (ft st : Z) (h : list bool) : bool :=
  match h with
  | [] => false
  | true :: h' => spec_up ft st h' || (st <=? streak true h)
  | false :: h' => spec_up ft st h' && negb (ft <=? streak false h)
  end.

(** Whether the newest outcome is announced: the state changed, or the very first probe
    of the domain failed. *)
Definition spec_flipped (ft st : Z) (h : list bool) : bool :=
  match h with
  | [] => false
  | o :: h' => negb (Bool.eqb (spec_up ft st h) (spec_up ft st h'))
               || (match h' with [] => negb o | _ => false end)
  end.

(** The state the code keeps after a history, each probe with its error text and time. *)
Fixpoint run_probes (ft st : Z) (h : list (bool * text * Z)) : primary_status :=
  match h with
  | [] => fresh_primary
  | (ok, msg, now) :: h' => po_status (apply_probe ok msg ft st now (run_probes ft st h'))
  end.

Definition outcomes (h : list (bool * text * Z)) : list bool := map (fun p => fst (fst p)) h.

Lemma streak_nonneg b h : 0 <= streak b h.
Proof. induction h as [|o h IH]; cbn; [done|]. destruct (Bool.eqb o b); lia. Qed.

Lemma run_probes_spec ft st h :
  let s := run_probes ft st h in
  IsUp s = spec_up ft st (outcomes h) /\
  ConsecutiveSuccess s = streak true (outcomes h) /\
  ConsecutiveFailures s = streak false (outcomes h) /\
  (LastCheck s = None <-> h = []).
Proof.
  induction h as [|[[ok msg] now] h IH]; cbn; [done|].
  destruct IH as (Hup & Hs & Hf & _).
  unfold apply_probe. rewrite Hup, Hs, Hf.
  destruct ok; cbn.
  - rewrite Z.add_comm. destruct (spec_up _ _ _); cbn; [done|].
    destruct (st <=? _); cbn; done.
  - rewrite Z.add_comm. destruct (spec_up _ _ _); cbn; [|done].
    destruct (ft <=? _); cbn; done.
Qed.

(** C25: after any history of probes the stored state is up exactly when the specification
    says so, the two counters are the lengths of the current runs, and the change that the
    next probe reports is the one the specification calls for. *)
Theorem probes_refine_spec ft st h ok msg now :
  let s := run_probes ft st h in
  let o := apply_probe ok msg ft st now s in
  IsUp s = spec_up ft st (outcomes h) /\
  ConsecutiveSuccess s = streak true (outcomes h) /\
  ConsecutiveFailures s = streak false (outcomes h) /\
  po_up o = spec_up ft st (ok :: outcomes h) /\
  po_flipped o = spec_flipped ft st (ok :: outcomes h).
Proof.
  intros s o. pose proof (run_probes_spec ft st h) as (Hup & Hs & Hf & Hc). fold s in Hup, Hs, Hf, Hc.
  split_and!; [done..| |].
  - pose proof (run_probes_spec ft st ((ok, msg, now) :: h)) as (Hup' & _). cbn [run_probes] in Hup'.
    fold s in Hup'. change (outcomes ((ok, msg, now) :: h)) with (ok :: outcomes h) in Hup'.
    rewrite <- Hup'. subst o. unfold apply_probe.
    destruct ok; cbn; repeat case_match; done.
  - subst o. clearbody s. unfold apply_probe, spec_flipped. rewrite Hup, Hs, Hf.
    assert (Hn : match outcomes h with [] => negb ok | _ => false end
                 = match LastCheck s with None => negb ok | Some _ => false end).
    { destruct h; cbn; [by rewrite (proj2 Hc)|]. destruct (LastCheck s); [done|].
      by destruct Hc as [Hc _]; specialize (Hc eq_refl). }
    rewrite Hn. destruct ok; cbn [spec_up streak Bool.eqb negb].
    + rewrite (Z.add_comm 1). destruct (spec_up ft st (outcomes h)); cbn;
        [by destruct (LastCheck s)|]. destruct (st <=? _); cbn; by destruct (LastCheck s).
    + rewrite (Z.add_comm 1). destruct (spec_up ft st (outcomes h)); cbn.
      * destruct (ft <=? _); cbn; [done|]. by destruct (LastCheck s).
      * by destruct (LastCheck s).
Qed.

Lemma spec_hysteresis ft st h k :
  (spec_up ft st h = true -> streak false h = 0 -> Z.of_nat k < ft ->
     spec_up ft st (replicate k false ++ h) = true) /\
  (spec_up ft st h = false -> streak true h = 0 -> Z.of_nat k < st ->
     spec_up ft st (replicate k true ++ h) = false) /\
  (spec_up ft st h = true -> streak false h = 0 -> 0 < ft -> Z.of_nat k = ft ->
     spec_up ft st (replicate k false ++ h) = false) /\
  (streak true h = 0 -> 0 < st -> Z.of_nat k = st ->
     spec_up ft st (replicate k true ++ h) = true).
Proof.
  assert (Hrun : forall b j, streak b h = 0 -> streak b (replicate j b ++ h) = Z.of_nat j).
  { intros b j H. induction j as [|j IH]; [done|]. cbn. rewrite IH. by destruct b; cbn; lia. }
  assert (Hf : forall j, spec_up ft st h = true -> streak false h = 0 -> Z.of_nat j < ft ->
             spec_up ft st (replicate j false ++ h) = true).
  { intros j Hu Hs. induction j as [|j IH]; intros Hj; [done|].
    cbn [replicate app spec_up]. rewrite IH by lia. change (false :: replicate j false ++ h) with (replicate (S j) false ++ h).
    rewrite Hrun by done. cbn [andb]. destruct (Z.leb_spec ft (Z.of_nat (S j))); [lia|done]. }
  split_and!; [by apply Hf| | |].
  - intros Hu Hs. induction k as [|k IH]; intros Hk; [done|].
    cbn [replicate app spec_up]. rewrite IH by lia. change (true :: replicate k true ++ h) with (replicate (S k) true ++ h).
    rewrite Hrun by done. cbn [orb]. destruct (Z.leb_spec st (Z.of_nat (S k))); [lia|done].
  - intros Hu Hs Hft Hk. destruct k as [|k]; [lia|].
    cbn [replicate app spec_up]. change (false :: replicate k false ++ h) with (replicate (S k) false ++ h).
    rewrite Hrun by done. destruct (Z.leb_spec ft (Z.of_nat (S k))); [|lia]. apply andb_false_r.
  - intros Hs Hst Hk. destruct k as [|k]; [lia|].
    cbn [replicate app spec_up]. change (true :: replicate k true ++ h) with (replicate (S k) true ++ h).
    rewrite Hrun by done. destruct (Z.leb_spec st (Z.of_nat (S k))); [|lia]. apply orb_true_r.
Qed.

(** [k] probes in a row with the same outcome. *)
Definition probe_run (ok : bool) (ps : list (text * Z)) : list (bool * text * Z) :=
  map (fun p => (ok, fst p, snd p)) ps.

Lemma outcomes_run ok ps h : outcomes (probe_run ok ps ++ h) = replicate (length ps) ok ++ outcomes h.
Proof.
  unfold outcomes, probe_run. induction ps as [|p ps IH]; cbn; [done|]. by rewrite IH.
Qed.

(** A primary found up, not failing, survives any run of failures shorter than the
    failure threshold and is down after one that long; a primary found down, not
    recovering, stays down through any shorter run of successes than the success
    threshold and is up after one that long. *)
Theorem probe_hysteresis ft st h ps :
  let s := run_probes ft st h in
  let n := Z.of_nat (length ps) in
  (IsUp s = true -> ConsecutiveFailures s = 0 -> n < ft ->
     IsUp (run_probes ft st (probe_run false ps ++ h)) = true) /\
  (IsUp s = true -> ConsecutiveFailures s = 0 -> 0 < ft -> n = ft ->
     IsUp (run_probes ft st (probe_run false ps ++ h)) = false) /\
  (IsUp s = false -> ConsecutiveSuccess s = 0 -> n < st ->
     IsUp (run_probes ft st (probe_run true ps ++ h)) = false) /\
  (ConsecutiveSuccess s = 0 -> 0 < st -> n = st ->
     IsUp (run_probes ft st (probe_run true ps ++ h)) = true).
Proof.
  intros s n. pose proof (run_probes_spec ft st h) as (Hu & Hs & Hf & _). fold s in Hu, Hs, Hf.
  pose proof (spec_hysteresis ft st (outcomes h) (length ps)) as (H1 & H2 & H3 & H4).
  rewrite Hu, Hs, Hf.
  pose proof (run_probes_spec ft st (probe_run false ps ++ h)) as (-> & _).
  pose proof (run_probes_spec ft st (probe_run true ps ++ h)) as (-> & _).
  rewrite !outcomes_run. auto.
Qed.

(** ** The event log *)

Definition events_ordered (t : event_table) : Prop :=
  StronglySorted (fun a b => ev_id a < ev_id b) (et_rows t) /\
  Forall (fun r => 0 < ev_id r < et_next t) (et_rows t).

Lemma RecordEvent_ordered e now t :
  0 < et_next t -> events_ordered t -> events_ordered (RecordEvent e now t) /\ 0 < et_next (RecordEvent e now t).
Proof.
  intros Hn [Hs Hb]. split; [|cbn; lia]. split; cbn.
  - apply StronglySorted_app_2.
    + intros x y Hx Hy%list_elem_of_singleton. subst y. cbn.
      rewrite Forall_forall in Hb. by apply Hb.
    + done.
    + repeat constructor.
  - apply Forall_app. split; [|repeat constructor; cbn; lia].
    eapply Forall_impl; [exact Hb|]. cbn. lia.
Qed.

Lemma min_id_spec rows :
  rows <> [] -> (exists r, r ∈ rows /\ min_id rows = ev_id r) /\ forall r, r ∈ rows -> min_id rows <= ev_id r.
Proof.
  destruct rows as [|a rows]; [done|]. intros _. cbn.
  assert (H : (foldr (fun r m => Z.min (ev_id r) m) (ev_id a) rows = ev_id a \/
               exists r, r ∈ rows /\ foldr (fun r m => Z.min (ev_id r) m) (ev_id a) rows = ev_id r) /\
              foldr (fun r m => Z.min (ev_id r) m) (ev_id a) rows <= ev_id a /\
              forall r, r ∈ rows -> foldr (fun r m => Z.min (ev_id r) m) (ev_id a) rows <= ev_id r).
  { induction rows as [|b rows IH]; cbn; [split; [by left|split; [lia|set_solver]]|].
    destruct IH as (IH1 & IH2 & IH3).
    set (m := foldr _ _ rows) in *. split_and!; [|lia|].
    - destruct (Z.min_spec (ev_id b) m) as [[_ ->]|[_ ->]]; [right; exists b; set_solver|].
      destruct IH1 as [->|(r & ? & ->)]; [by left|right; exists r; set_solver].
    - intros r [->|Hr]%elem_of_cons; [lia|]. specialize (IH3 r Hr). lia. }
  destruct H as (H1 & H2 & H3). split.
  - destruct H1 as [->|(r & ? & ->)]; [exists a|exists r]; split; set_solver.
  - intros r [->|Hr]%elem_of_cons; [done|auto].
Qed.

(** Pruning the event log keeps exactly the newest [keep] events and reports how many
    it removed. *)
Theorem PurgeEvents_keeps_newest keep t :
  0 < keep -> events_ordered t ->
  let '(n, t') := PurgeEvents keep t in
  et_rows t' = drop (length (et_rows t) - Z.to_nat keep) (et_rows t) /\
  n = Z.max 0 (Z.of_nat (length (et_rows t)) - keep) /\ et_next t' = et_next t.
Proof.
  intros Hk [Hs Hb]. unfold PurgeEvents, sql_limit. destruct (Z.ltb_spec keep 0); [lia|].
  set (rows := et_rows t) in *. set (i := (length rows - Z.to_nat keep)%nat).
  assert (Hlast : take (Z.to_nat keep) (rev rows) = rev (drop i rows)).
  { apply List.firstn_rev. }
  rewrite Hlast. set (cut := min_id (rev (drop i rows)) - 1).
  assert (Hkept : List.filter (fun r => negb (ev_id r <=? cut)) rows = drop i rows).
  { destruct (decide (drop i rows = [])) as [He|He].
    - assert (rows = []) as ->; [|done]. unfold i in He.
      apply (f_equal length) in He. rewrite length_drop in He. cbn in He.
      destruct rows; [done|]. cbn in He. lia.
    - assert (Hne : rev (drop i rows) <> []).
      { intros H0. apply He. by rewrite <- (rev_involutive (drop i rows)), H0. }
      destruct (min_id_spec _ Hne) as [(r0 & Hr0 & Hm) Hmin].
      assert (Hrev : forall r, r ∈ rev (drop i rows) <-> r ∈ drop i rows).
      { intros r. by rewrite !list_elem_of_In, <- in_rev. }
      rewrite <- (take_drop i rows) at 1. rewrite List.filter_app.
      rewrite <- (take_drop i rows) in Hs.
      assert (List.filter (fun r => negb (ev_id r <=? cut)) (take i rows) = []) as ->.
      { apply list_nil_iff_no_elem. intros r [Hf Hr]%elem_of_List_filter.
        pose proof (StronglySorted_app_1_elem_of _ _ _ _ _ Hs Hr (proj1 (Hrev r0) Hr0)) as Hlt.
        cbn in Hlt. unfold cut in Hf. bools. lia. }
      cbn. apply List_filter_all. intros r Hr. apply Hrev, Hmin in Hr.
      unfold cut. destruct (Z.leb_spec (ev_id r) (min_id (rev (drop i rows)) - 1)); [lia|done]. }
  rewrite Hkept, length_drop. split_and!; [done| |done]. unfold i. lia.
Qed.

Definition sample_events : event_table :=
  RecordEvent (Event EventMailFailed (Some 2) None None []) 30
    (RecordEvent (Event EventMailDelivered (Some 1) None None []) 20
      (RecordEvent (Event EventMailReceived (Some 1) None None []) 10 (EventTable [] 1))).

Lemma sample_events_ordered : events_ordered sample_events.
Proof.
  unfold sample_events. apply RecordEvent_ordered; [|apply RecordEvent_ordered; [|apply RecordEvent_ordered]]; cbn; try lia.
  split; constructor.
Qed.

Lemma PurgeEvents_keeps_newest_witness :
  events_ordered sample_events /\
  map ev_id (et_rows (snd (PurgeEvents 2 sample_events))) = [2; 3] /\
  et_next (snd (PurgeEvents 2 sample_events)) = et_next sample_events.
Proof.
  split; [exact sample_events_ordered|]. split; [vm_compute; reflexivity|].
  exact (proj2 (proj2 (PurgeEvents_keeps_newest 2 sample_events ltac:(lia) sample_events_ordered))).
Defined.

(** ** Known recipients *)

Lemma compact_elem a l : a ∈ compact l <-> a ∈ l.
Proof.
  induction l as [|b l IH]; [done|]. destruct l as [|c l]; [done|].
  cbn -[compact]. change (compact (b :: c :: l)) with
    (if bool_decide (b = c) then compact (c :: l) else b :: compact (c :: l)).
  case_bool_decide as Hbc.
  - subst. rewrite IH. set_solver.
  - rewrite !elem_of_cons, IH. set_solver.
Qed.

Lemma clean_recipients_elem a addrs :
  a ∈ clean_recipients addrs <-> a <> [] /\ exists b, b ∈ addrs /\ a = NormalizeRecipient b.
Proof.
  unfold clean_recipients. rewrite compact_elem, merge_sort_Permutation, elem_of_List_filter, elem_of_map.
  rewrite negb_true_iff, bool_decide_eq_false. naive_solver.
Qed.

(** Once a domain's list is set, an address is accepted exactly when the list names no
    one at all, or names that address up to case and surrounding blanks. *)
Theorem recipients_exact ds domainID addrs addr rs rs' :
  SetDomainRecipients ds domainID addrs rs = (Ok (), rs') ->
  RecipientAllowed domainID addr rs' = true <->
  (forall b, b ∈ addrs -> NormalizeRecipient b = []) \/
  (NormalizeRecipient addr <> [] /\ exists b, b ∈ addrs /\ NormalizeRecipient b = NormalizeRecipient addr).
Proof.
  intros Hset.
  assert (Hlist : DomainRecipients domainID rs' = clean_recipients addrs).
  { unfold SetDomainRecipients in Hset. destruct (clean_recipients addrs) as [|a l] eqn:E.
    - injection Hset as <-. unfold DomainRecipients. by rewrite lookup_delete_eq.
    - destruct (domain_exists domainID ds); [|done]. injection Hset as <-.
      unfold DomainRecipients. by rewrite lookup_insert_eq. }
  unfold RecipientAllowed. rewrite Hlist, orb_true_iff, Z.eqb_eq, Z.ltb_lt.
  assert (Hnil : Z.of_nat (length (clean_recipients addrs)) = 0 <->
                 forall b, b ∈ addrs -> NormalizeRecipient b = []).
  { split.
    - intros H b Hb. destruct (decide (NormalizeRecipient b = [])) as [|Hn]; [done|].
      assert (Hin : NormalizeRecipient b ∈ clean_recipients addrs) by (apply clean_recipients_elem; eauto).
      destruct (clean_recipients addrs); [by apply not_elem_of_nil in Hin|cbn in H; lia].
    - intros H. replace (clean_recipients addrs) with (@nil text); [done|]. symmetry.
      apply list_nil_iff_no_elem. intros a (Hn & b & Hb & ->)%clean_recipients_elem. auto. }
  rewrite Hnil.
  set (matched := List.filter _ _).
  assert (Hm : 0 < Z.of_nat (length matched) <-> NormalizeRecipient addr ∈ clean_recipients addrs).
  { assert (Hx : forall a, a ∈ matched <-> a = NormalizeRecipient addr /\ a ∈ clean_recipients addrs).
    { intros a. unfold matched. by rewrite elem_of_List_filter, bool_decide_eq_true. }
    split.
    - destruct matched as [|a l]; cbn; [lia|]. intros _.
      destruct (proj1 (Hx a) (list_elem_of_here _ _)) as [<- ?]. done.
    - intros H. assert (Hin : NormalizeRecipient addr ∈ matched) by (by apply Hx).
      destruct matched; [by apply not_elem_of_nil in Hin|cbn; lia]. }
  rewrite Hm, clean_recipients_elem. naive_solver.
Qed.

Definition sample_domains : list domain :=
  [Domain 1 "you.example"%string "mail.you.example"%string 25 "opportunistic"%string None (Some 5) 168 true 0 0].

Lemma recipients_exact_witness :
  let rs := snd (SetDomainRecipients sample_domains 1 [T " Bob@You.example "; T ""] ∅) in
  RecipientAllowed 1 "mallory@you.example"%string rs = false /\
  RecipientAllowed 1 "BOB@you.example"%string rs = true.
Proof.
  intros rs. split; [vm_compute; reflexivity|].
  apply (recipients_exact sample_domains 1 [T " Bob@You.example "; T ""] "BOB@you.example"%string ∅ rs).
  - vm_compute. reflexivity.
  - right. split; [vm_compute; discriminate|]. exists (T " Bob@You.example ").
    split; [apply list_elem_of_here|vm_compute; reflexivity].
Defined.

(** ** The monthly sending limit *)

Inductive send_op :=
| SReserve (domainID n now : Z)
| SRelease (domainID n now : Z).

Definition run_send (ds : list domain) (limit : Z -> option Z) (u : usage) (op : send_op) : usage :=
  match op with
  | SReserve d n now => snd (ReserveSends ds d n (limit d) now u)
  | SRelease d n now => snd (ReleaseSends d n now u)
  end.

Definition send_nonneg (op : send_op) : Prop :=
  match op with SReserve _ n _ => 0 <= n | SRelease _ n _ => 0 <= n end.

(** The recipients a history of transactions was granted and gave back, for one domain
    and month. *)
Fixpoint granted (ds : list domain) (limit : Z -> option Z) (u : usage) (ops : list send_op) (key : Z * text) : Z :=
  match ops with
  | [] => 0
  | op :: ops =>
      match op with
      | SReserve d n now =>
          match fst (ReserveSends ds d n (limit d) now u) with
          | Ok (true, _) => if bool_decide ((d, usageMonth now) = key) then n else 0
          | _ => 0
          end
      | SRelease _ _ _ => 0
      end + granted ds limit (run_send ds limit u op) ops key
  end.

Lemma ReserveSends_lookup ds d n l now u key :
  default 0 (snd (ReserveSends ds d n l now u) !! key) =
    default 0 (u !! key) +
    match fst (ReserveSends ds d n l now u) with
    | Ok (true, _) => if bool_decide ((d, usageMonth now) = key) then n else 0
    | _ => 0
    end.
Proof.
  unfold ReserveSends, SentThisMonth.
  destruct (match l with Some _ => _ | None => _ end); cbn; [lia|].
  destruct (negb _); cbn; [lia|]. case_bool_decide as Hk.
  - subst key. by rewrite lookup_insert_eq.
  - rewrite lookup_insert_ne by done. lia.
Qed.

Lemma ReserveSends_limit ds d n L now u :
  SentThisMonth d now u <= L ->
  forall now', SentThisMonth d now' u <= L -> SentThisMonth d now' (snd (ReserveSends ds d n (Some L) now u)) <= L.
Proof.
  intros H now' H'. unfold ReserveSends. destruct (Z.ltb_spec L (SentThisMonth d now u + n)); [done|].
  destruct (negb _); [done|]. cbn. unfold SentThisMonth.
  destruct (decide (usageMonth now = usageMonth now')) as [E|E].
  - rewrite <- E, lookup_insert_eq. cbn. fold (SentThisMonth d now u). lia.
  - rewrite lookup_insert_ne by congruence. done.
Qed.

Lemma ReleaseSends_limit d n L now u now' :
  0 <= n -> 0 <= L -> SentThisMonth d now' u <= L -> SentThisMonth d now' (snd (ReleaseSends d n now u)) <= L.
Proof.
  intros Hn HL Hu. unfold ReleaseSends. destruct (u !! (d, usageMonth now)) as [v|] eqn:E; [|done].
  cbn. unfold SentThisMonth in *.
  destruct (decide ((d, usageMonth now) = (d, usageMonth now'))) as [Heq|Hne].
  - rewrite <- Heq in Hu |- *. rewrite lookup_insert_eq. rewrite E in Hu. cbn in *. lia.
  - by rewrite lookup_insert_ne.
Qed.

Lemma run_send_other ds limit d op u now :
  (match op with SReserve d' _ _ | SRelease d' _ _ => d' end) <> d ->
  SentThisMonth d now (run_send ds limit u op) = SentThisMonth d now u.
Proof.
  intros Hne. unfold SentThisMonth. destruct op as [d' n t|d' n t]; cbn in *.
  - unfold ReserveSends. destruct (match limit d' with Some _ => _ | None => _ end); [done|].
    destruct (negb _); [done|]. cbn. by rewrite lookup_insert_ne by congruence.
  - unfold ReleaseSends. destruct (u !! _); [|done]. cbn. by rewrite lookup_insert_ne by congruence.
Qed.

Lemma run_send_limit ds limit d L op u :
  limit d = Some L -> 0 <= L -> send_nonneg op ->
  (forall now, SentThisMonth d now u <= L) -> forall now, SentThisMonth d now (run_send ds limit u op) <= L.
Proof.
  intros Hl HL Hop Hu now.
  destruct (decide ((match op with SReserve d' _ _ | SRelease d' _ _ => d' end) = d)) as [Hd|Hd];
    [|by rewrite run_send_other].
  destruct op as [d' n t|d' n t]; cbn in *; subst d'.
  - rewrite Hl. by apply ReserveSends_limit.
  - by apply ReleaseSends_limit.
Qed.

(** Whatever reservations and releases the submission sessions run, in whatever order,
    a domain with a monthly limit never exceeds it in any month; and without releases the
    counter is exactly the recipients that were granted. *)
Theorem send_limit_safe ds limit d L ops u :
  limit d = Some L -> 0 <= L -> Forall send_nonneg ops ->
  (forall now, SentThisMonth d now u <= L) ->
  (forall now, SentThisMonth d now (fold_left (run_send ds limit) ops u) <= L) /\
  (Forall (fun op => match op with SReserve _ _ _ => True | _ => False end) ops ->
     forall now, SentThisMonth d now (fold_left (run_send ds limit) ops u) =
       SentThisMonth d now u + granted ds limit u ops (d, usageMonth now)).
Proof.
  intros Hl HL. revert u. induction ops as [|op ops IH]; intros u Hops Hu; cbn [fold_left].
  { split; [done|]. intros _ now. cbn. lia. }
  inversion Hops as [|? ? Hop Hrest]; subst.
  destruct (IH (run_send ds limit u op) Hrest (run_send_limit ds limit d L op u Hl HL Hop Hu)) as [IH1 IH2].
  split; [done|]. intros Hall now. inversion Hall as [|? ? Hres Hall']; subst.
  rewrite IH2 by done. destruct op as [d' n t|]; [|done]. cbn [granted].
  unfold SentThisMonth at 1. cbn [run_send]. rewrite ReserveSends_lookup.
  unfold SentThisMonth. cbn [run_send]. lia.
Qed.

Lemma send_limit_safe_witness :
  let ops := [SReserve 1 3 0; SReserve 1 3 second; SRelease 1 1 second; SReserve 1 3 (2 * second)] in
  let u := fold_left (run_send sample_domains (fun _ => Some 5)) ops ∅ in
  SentThisMonth 1 0 u = 5 /\ forall now, SentThisMonth 1 now u <= 5.
Proof.
  intros ops u. split; [vm_compute; reflexivity|].
  apply (send_limit_safe sample_domains (fun _ => Some 5) 1 5 ops ∅ eq_refl ltac:(lia));
    [repeat constructor; cbn; lia|].
  intros now. unfold SentThisMonth. rewrite lookup_empty. cbn. lia.
Defined.

(** ** The domain tables *)

Record domains_wf (t : domain_tables) : Prop := {
  dw_ids : NoDup (map DID (dt_domains t));
  dw_names : NoDup (map DName (dt_domains t));
  dw_next : forall d, d ∈ dt_domains t -> DID d < dt_next t;
  dw_primary : forall d, d ∈ dt_domains t -> is_Some (dt_primary t !! DID d);
  dw_tls : forall d, d ∈ dt_domains t -> primary_tls_check (PrimaryTLS d) = true
}.

Lemma CreateDomain_wf d now t : domains_wf t -> domains_wf (snd (CreateDomain d now t)).
Proof.
  intros [Hid Hname Hnext Hprim Htls]. unfold CreateDomain.
  destruct (existsb _ _) eqn:En; [done|]. destruct (negb _) eqn:Et; [done|]. bools.
  assert (Hfresh : normalizeDomain (DName d) ∉ map DName (dt_domains t)).
  { intros (e & He & Hin)%elem_of_map. rewrite (proj2 (existsb_elem _ _)) in En; [done|].
    exists e. split; [done|]. by rewrite bool_decide_eq_true_2. }
  assert (Hnew : dt_next t ∉ map DID (dt_domains t)).
  { intros (e & He & Hin)%elem_of_map. apply Hnext in Hin. lia. }
  split; cbn.
  - rewrite map_app. apply NoDup_app. split_and!; [done|set_solver|apply NoDup_singleton].
  - rewrite map_app. apply NoDup_app. split_and!; [done|set_solver|apply NoDup_singleton].
  - intros e [He|He%list_elem_of_singleton]%elem_of_app; [apply Hnext in He|subst e; cbn]; lia.
  - intros e [He|He%list_elem_of_singleton]%elem_of_app; [|subst e; cbn].
    + apply lookup_insert_is_Some. destruct (decide (dt_next t = DID e)); [by left|right; auto].
    + rewrite lookup_insert_eq. eauto.
  - intros e [He|He%list_elem_of_singleton]%elem_of_app; [auto|by subst e].
Qed.

Lemma UpdateDomain_wf d now t :
  domains_wf t ->
  domains_wf (DomainTables (snd (UpdateDomain d now (dt_domains t))) (dt_primary t) (dt_next t)).
Proof.
  intros [Hid Hname Hnext Hprim Htls]. unfold UpdateDomain.
  destruct (existsb _ _); [|done]. destruct (negb _) eqn:Et; [done|]. bools. cbn.
  split; cbn; rewrite ?map_map.
  - erewrite map_ext; [exact Hid|]. intros e. cbn. by destruct (DID e =? DID d).
  - erewrite map_ext; [exact Hname|]. intros e. cbn. by destruct (DID e =? DID d).
  - intros e (f & -> & Hf)%elem_of_map. destruct (DID f =? DID d); cbn; auto.
  - intros e (f & -> & Hf)%elem_of_map. destruct (DID f =? DID d); cbn; auto.
  - intros e (f & -> & Hf)%elem_of_map. destruct (DID f =? DID d); cbn; auto.
Qed.

Lemma DeleteDomain_wf id t q : domains_wf t -> domains_wf (fst (snd (DeleteDomain id t q))).
Proof.
  intros [Hid Hname Hnext Hprim Htls]. unfold DeleteDomain.
  destruct (existsb _ _); [|done]. cbn.
  assert (Hsub : forall (f : domain -> text) l, NoDup (map f l) -> NoDup (map f (List.filter (fun e => negb (DID e =? id)) l))).
  { intros f l Hn. eapply sublist_NoDup; [exact Hn|]. apply fmap_sublist, sublist_List_filter. }
  assert (Hsubz : forall (f : domain -> Z) l, NoDup (map f l) -> NoDup (map f (List.filter (fun e => negb (DID e =? id)) l))).
  { intros f l Hn. eapply sublist_NoDup; [exact Hn|]. apply fmap_sublist, sublist_List_filter. }
  split; cbn; [auto|auto|..]; intros e [He Hin]%elem_of_List_filter; bools; [auto| |auto].
  rewrite lookup_delete_ne by done. auto.
Qed.

Inductive domain_op :=
| DCreate (d : domain) (now : Z)
| DUpdate (d : domain) (now : Z)
| DDelete (id : Z)
| DProbe (id : Z) (ok : bool) (msg : text) (ft st now : Z).

Definition run_domain_op (t : domain_tables) (op : domain_op) : domain_tables :=
  match op with
  | DCreate d now => snd (CreateDomain d now t)
  | DUpdate d now => DomainTables (snd (UpdateDomain d now (dt_domains t))) (dt_primary t) (dt_next t)
  | DDelete id => fst (snd (DeleteDomain id t []))
  | DProbe id ok msg ft st now =>
      DomainTables (dt_domains t) (snd (RecordProbe id ok msg ft st now (dt_primary t))) (dt_next t)
  end.

(** Every history of domain creation, change, deletion and probing keeps identifiers
    and names unique, a TLS mode the schema allows, and a primary status row for every
    domain, so that the joins of the claim queries drop no domain. *)
Theorem domains_reachable_wf ops : domains_wf (fold_left run_domain_op ops (DomainTables [] ∅ 1)).
Proof.
  assert (H0 : domains_wf (DomainTables [] ∅ 1)).
  { split; cbn; try apply NoDup_nil_2; intros d Hd; by apply not_elem_of_nil in Hd. }
  revert H0. generalize (DomainTables [] ∅ 1). induction ops as [|op ops IH]; intros t Ht; cbn; [done|].
  apply IH. destruct op as [d now|d now|id|id ok msg ft st now]; cbn.
  - by apply CreateDomain_wf.
  - by apply UpdateDomain_wf.
  - by apply (DeleteDomain_wf id t []).
  - destruct Ht as [Hid Hname Hnext Hprim Htls]. split; cbn; auto.
    intros d Hd. unfold RecordProbe. destruct (dt_primary t !! id) eqn:E; cbn; [|auto].
    apply lookup_insert_is_Some. destruct (decide (id = DID d)); [by left|right; auto].
Qed.

(** Normalising a name trims blanks after the trailing dot, not before it, so a name
    with a dot and then a blank keeps its dot, and normalising twice changes it again: the
    domain is stored under a name no lookup by that name finds. *)
Theorem normalizeDomain_dot_blank :
  normalizeDomain "you.example. "%string = T "you.example." /\
  normalizeDomain (normalizeDomain "you.example. "%string) = T "you.example" /\
  DomainByName "you.example."%string (
    dt_domains (snd (CreateDomain (Domain 0 "you.example. "%string "h"%string 25 "none"%string None None 168 true 0 0) 0 (DomainTables [] ∅ 1)))) = Err not_found.
Proof. split_and!; vm_compute; reflexivity. Qed.
