(* ===== verification/StoreWebhooks.v ===== *)
(** * Webhook subscriptions, their deliveries, and the meta table (internal/store/webhooks.go, meta.go) *)

From S2P Require Import Prelude GoStrings Times Errors StoreTypes StoreQueue StoreDomains.
From Stdlib Require Import QArith.
Open Scope Z_scope.

(** [store.Webhook]; a null secret is the empty one. *)
Record Webhook := {
  WID : Z;
  WName : text;
  WURL : text;
  WSecret : text;
  WEvents : list text;
  WEnabled : bool;
  WCreatedAt : Z;
  WLastError : text;
  WLastSuccessAt : option Z
}.

Definition Wants (w : Webhook) (eventType : text) : bool :=
  WEnabled w && (bool_decide (WEvents w = []) || existsb (fun e => bool_decide (e = eventType)) (WEvents w)).

Inductive delivery_status := DeliveryPending | DeliveryDelivered | DeliveryFailed.

#[export] Instance delivery_status_eq_dec : EqDecision delivery_status.
Proof. solve_decision. Defined.

(** [store.Delivery], without the name joined in for display. *)
Record Delivery := {
  DelID : Z;
  DelWebhookID : Z;
  EventType : text;
  Payload : text;
  DelStatus : delivery_status;
  DelAttempts : Z;
  NextAttemptAt : Z;
  StatusCode : Z;
  DelLastError : text;
  DelCreatedAt : Z;
  DelDeliveredAt : option Z
}.

Record hook_tables := Hooks {
  ht_hooks : list Webhook;
  ht_next : Z;
  ht_deliveries : list Delivery;
  ht_next_delivery : Z;
  ht_meta : gmap text text
}.

Definition set_hooks (l : list Webhook) (t : hook_tables) : hook_tables :=
  Hooks l (ht_next t) (ht_deliveries t) (ht_next_delivery t) (ht_meta t).
Definition set_deliveries (l : list Delivery) (t : hook_tables) : hook_tables :=
  Hooks (ht_hooks t) (ht_next t) l (ht_next_delivery t) (ht_meta t).

(** ** Subscriptions *)

Definition hook_by (id : Z) (w : Webhook) : bool := WID w =? id.
Definition delivery_by (id : Z) (d : Delivery) : bool := DelID d =? id.

Definition CreateWebhook (w : Webhook) (now : Z) (t : hook_tables) : result Z * hook_tables :=
  let row := {| WID := ht_next t; WName := trim_space (WName w); WURL := trim_space (WURL w); WSecret := WSecret w;
                WEvents := WEvents w; WEnabled := WEnabled w; WCreatedAt := now; WLastError := [];
                WLastSuccessAt := None |} in
  (Ok (ht_next t), Hooks (ht_hooks t ++ [row]) (ht_next t + 1) (ht_deliveries t) (ht_next_delivery t) (ht_meta t)).

Definition update_hooks (p : Webhook -> bool) (f : Webhook -> Webhook) (t : hook_tables) : hook_tables :=
  set_hooks (map (fun w => if p w then f w else w) (ht_hooks t)) t.

(** [db.exec]: no row affected is [ErrNotFound]. *)
Definition exec_hooks (p : Webhook -> bool) (f : Webhook -> Webhook) (t : hook_tables) : result unit * hook_tables :=
  if existsb p (ht_hooks t) then (Ok (), update_hooks p f t) else (Err not_found, t).

Definition with_settings (v w : Webhook) : Webhook :=
  {| WID := WID w; WName := trim_space (WName v); WURL := trim_space (WURL v); WSecret := WSecret w;
     WEvents := WEvents v; WEnabled := WEnabled v; WCreatedAt := WCreatedAt w; WLastError := WLastError w;
     WLastSuccessAt := WLastSuccessAt w |}.
Definition with_secret (secret : text) (w : Webhook) : Webhook :=
  {| WID := WID w; WName := WName w; WURL := WURL w; WSecret := secret; WEvents := WEvents w;
     WEnabled := WEnabled w; WCreatedAt := WCreatedAt w; WLastError := WLastError w;
     WLastSuccessAt := WLastSuccessAt w |}.
Definition with_outcome (reason : text) (success : option Z) (w : Webhook) : Webhook :=
  {| WID := WID w; WName := WName w; WURL := WURL w; WSecret := WSecret w; WEvents := WEvents w;
     WEnabled := WEnabled w; WCreatedAt := WCreatedAt w; WLastError := reason;
     WLastSuccessAt := match success with Some at_ => Some at_ | None => WLastSuccessAt w end |}.

Definition UpdateWebhook (w : Webhook) (t : hook_tables) : result unit * hook_tables :=
  exec_hooks (hook_by (WID w)) (with_settings w) t.

Definition SetWebhookSecret (id : Z) (secret : text) (t : hook_tables) : result unit * hook_tables :=
  exec_hooks (hook_by id) (with_secret secret) t.

(** The deliveries of a subscription go with it (ON DELETE CASCADE). *)
Definition DeleteWebhook (id : Z) (t : hook_tables) : result unit * hook_tables :=
  if existsb (hook_by id) (ht_hooks t) then
    (Ok (), Hooks (List.filter (fun w => negb (hook_by id w)) (ht_hooks t)) (ht_next t)
                  (List.filter (fun d => negb (DelWebhookID d =? id)) (ht_deliveries t)) (ht_next_delivery t) (ht_meta t))
  else (Err not_found, t).

Definition Webhook_ (id : Z) (t : hook_tables) : result Webhook :=
  match find (hook_by id) (ht_hooks t) with Some w => Ok w | None => Err not_found end.

(** Identifiers only grow: [ORDER BY id] is the table's order. *)
Definition ListWebhooks (t : hook_tables) : list Webhook := ht_hooks t.

(** ** Deliveries *)

Definition new_delivery (id webhookID : Z) (eventType payload : text) (at_ now : Z) : Delivery :=
  {| DelID := id; DelWebhookID := webhookID; EventType := eventType; Payload := payload;
     DelStatus := DeliveryPending; DelAttempts := 0; NextAttemptAt := at_; StatusCode := 0; DelLastError := [];
     DelCreatedAt := now; DelDeliveredAt := None |}.

Definition EnqueueDelivery (webhookID : Z) (eventType payload : text) (at_ now : Z) (t : hook_tables)
  : result Z * hook_tables :=
  if existsb (hook_by webhookID) (ht_hooks t) then
    (Ok (ht_next_delivery t),
     Hooks (ht_hooks t) (ht_next t)
       (ht_deliveries t ++ [new_delivery (ht_next_delivery t) webhookID eventType payload at_ now])
       (ht_next_delivery t + 1) (ht_meta t))
  else (Err (foreign_key "store: enqueue delivery"%string), t).

Definition is_due (now : Z) (d : Delivery) : bool :=
  bool_decide (DelStatus d = DeliveryPending) && time_leb (NextAttemptAt d) now.

Definition attempt_le (a b : Delivery) : Prop := time_leb (NextAttemptAt a) (NextAttemptAt b) = true.
#[export] Instance attempt_le_dec : RelDecision attempt_le.
Proof. intros a b. unfold attempt_le. apply _. Defined.

Definition DueDeliveries (now limit : Z) (t : hook_tables) : list Delivery :=
  let limit := if limit <=? 0 then 20 else limit in
  sql_limit limit (merge_sort attempt_le (List.filter (is_due now) (ht_deliveries t))).

Definition ListDeliveries (webhookID limit : Z) (t : hook_tables) : list Delivery :=
  let limit := if (limit <=? 0) || (500 <? limit) then 50 else limit in
  sql_limit limit
    (rev (List.filter (fun d => negb (0 <? webhookID) || (DelWebhookID d =? webhookID)) (ht_deliveries t))).

Definition update_deliveries (p : Delivery -> bool) (f : Delivery -> Delivery) (t : hook_tables) : hook_tables :=
  set_deliveries (map (fun d => if p d then f d else d) (ht_deliveries t)) t.

(** [WHERE id = (SELECT webhook_id FROM webhook_deliveries WHERE id = ?)]. *)
Definition owner_of (id : Z) (t : hook_tables) (w : Webhook) : bool :=
  match find (delivery_by id) (ht_deliveries t) with Some d => hook_by (DelWebhookID d) w | None => false end.

(** One attempt more, with its outcome. *)
Definition attempted (st : delivery_status) (code : Z) (reason : text) (next : option Z) (done : option Z) (d : Delivery)
  : Delivery :=
  {| DelID := DelID d; DelWebhookID := DelWebhookID d; EventType := EventType d; Payload := Payload d;
     DelStatus := st; DelAttempts := DelAttempts d + 1;
     NextAttemptAt := match next with Some n => n | None => NextAttemptAt d end; StatusCode := code;
     DelLastError := reason; DelCreatedAt := DelCreatedAt d;
     DelDeliveredAt := match done with Some n => Some n | None => DelDeliveredAt d end |}.

Definition MarkDeliverySucceeded (id statusCode now : Z) (t : hook_tables) : hook_tables :=
  let t1 := update_deliveries (delivery_by id) (attempted DeliveryDelivered statusCode [] None (Some now)) t in
  update_hooks (owner_of id t1) (with_outcome [] (Some now)) t1.

Definition RescheduleDelivery (id statusCode : Z) (reason : text) (next : Z) (t : hook_tables) : hook_tables :=
  let reason := truncate reason 500 in
  let t1 := update_deliveries (delivery_by id)
              (fun d => attempted (DelStatus d) statusCode reason (Some next) None d) t in
  update_hooks (owner_of id t1) (with_outcome reason None) t1.

Definition MarkDeliveryFailed (id statusCode : Z) (reason : text) (t : hook_tables) : hook_tables :=
  let reason := truncate reason 500 in
  let t1 := update_deliveries (delivery_by id) (attempted DeliveryFailed statusCode reason None None) t in
  update_hooks (owner_of id t1) (with_outcome reason None) t1.

(** [status != 'pending' AND created_at < cutoff], between texts. *)
Definition old_delivery (cutoff : Z) (d : Delivery) : bool :=
  negb (bool_decide (DelStatus d = DeliveryPending)) && negb (time_leb cutoff (DelCreatedAt d)).

Definition PurgeDeliveries (cutoff : Z) (t : hook_tables) : Z * hook_tables :=
  (Z.of_nat (length (List.filter (old_delivery cutoff) (ht_deliveries t))),
   set_deliveries (List.filter (fun d => negb (old_delivery cutoff d)) (ht_deliveries t)) t).

(** ** The meta table *)

Definition Meta (key : text) (t : hook_tables) : result text :=
  match ht_meta t !! key with Some v => Ok v | None => Err not_found end.

Definition SetMeta (key value : text) (t : hook_tables) : hook_tables :=
  Hooks (ht_hooks t) (ht_next t) (ht_deliveries t) (ht_next_delivery t) (<[key := value]> (ht_meta t)).

Definition MetaInt (key : text) (t : hook_tables) : result Z :=
  match Meta key t with
  | Err e => Err e
  | Ok v => match ParseInt64 v with
            | Some n => Ok n
            | None => Err (EWrap ("store: meta "%string ++ key ++ " is not a number"%string) (EText "invalid syntax"%string))
            end
  end.

Definition SetMetaInt (key : text) (value : Z) (t : hook_tables) : hook_tables := SetMeta key (dec value) t.

Definition MaxEventID (t : event_table) : Z := foldr (fun r m => Z.max (ev_id r) m) 0 (et_rows t).

(** [id > afterID ORDER BY id LIMIT]. *)
Definition EventsSince (afterID limit : Z) (t : event_table) : list event_row :=
  let limit := if (limit <=? 0) || (500 <? limit) then 200 else limit in
  sql_limit limit (List.filter (fun r => afterID <? ev_id r) (et_rows t)).

(** ** Numbers survive the text of the meta table *)

Lemma MetaInt_SetMetaInt key n t : - 2 ^ 63 <= n < 2 ^ 63 -> MetaInt key (SetMetaInt key n t) = Ok n.
Proof.
  intros Hn. unfold MetaInt, Meta, SetMetaInt, SetMeta. cbn. rewrite lookup_insert_eq.
  by rewrite ParseInt64_dec.
Qed.
