(* ===== verification/StoreCluster.v ===== *)
(** * The nodes of a cluster (internal/store/cluster.go) *)

From S2P Require Import Prelude GoStrings Times Errors StoreTypes StoreQueue.
From Stdlib Require Import QArith.
Open Scope Z_scope.

Definition NodePrimary : text := "primary"%string.
Definition NodeFollower : text := "follower"%string.

(** [store.Node]. *)
Record node := Node {
  NodeID : text;
  AdvertiseURL : text;
  NVersion : text;
  NRole : text;
  NConfigHash : text;
  NQueuePending : Z;
  NQueueBytes : Z;
  NDomains : Z;
  FirstSeen : Z;
  LastSeen : Z
}.

Definition Healthy (n : node) (now within : Z) : bool := now - LastSeen n <=? within.

Definition node_by (id : text) (n : node) : bool := bool_decide (NodeID n = id).

(** A role that is not the primary's is a follower's. *)
Definition node_role (role : text) : text := if bool_decide (role = NodePrimary) then NodePrimary else NodeFollower.

(** The row written for a node at [seen], first met at [first]. *)
Definition node_row (n : node) (first seen : Z) : node :=
  Node (trim_space (NodeID n)) (AdvertiseURL n) (NVersion n) (node_role (NRole n)) (NConfigHash n) (NQueuePending n)
    (NQueueBytes n) (NDomains n) first seen.

(** [INSERT ... ON CONFLICT(node_id) DO UPDATE]: the first sighting stays. *)
Definition UpsertNode (n : node) (now : Z) (t : list node) : list node :=
  let id := trim_space (NodeID n) in
  if existsb (node_by id) t then map (fun o => if node_by id o then node_row n (FirstSeen o) now else o) t
  else t ++ [node_row n now now].

Definition node_le (a b : node) : Prop := text_leb (NodeID a) (NodeID b) = true.
#[export] Instance node_le_dec : RelDecision node_le.
Proof. intros a b. unfold node_le. apply _. Defined.

Definition ListNodes (t : list node) : list node := merge_sort node_le t.

Definition DeleteNode (id : text) (t : list node) : result unit * list node :=
  if existsb (node_by id) t then (Ok (), List.filter (fun n => negb (node_by id n)) t) else (Err not_found, t).

(** [last_seen < cutoff], between texts. *)
Definition stale_node (cutoff : Z) (n : node) : bool := negb (time_leb cutoff (LastSeen n)).

Definition ForgetStaleNodes (cutoff : Z) (t : list node) : Z * list node :=
  (Z.of_nat (length (List.filter (stale_node cutoff) t)), List.filter (fun n => negb (stale_node cutoff n)) t).

(** ** One row for a node *)

Definition nodes_wf (t : list node) : Prop :=
  NoDup (map NodeID t) /\ Forall (fun n => NRole n = NodePrimary \/ NRole n = NodeFollower) t.

Lemma node_role_ok r : node_role r = NodePrimary \/ node_role r = NodeFollower.
Proof. unfold node_role. case_bool_decide; auto. Qed.

Lemma UpsertNode_wf n now t : nodes_wf t -> nodes_wf (UpsertNode n now t).
Proof.
  intros [Hnd Hr]. unfold UpsertNode. destruct (existsb _ t) eqn:E; split.
  - rewrite map_map. erewrite map_ext; [exact Hnd|]. intros o. unfold node_by.
    destruct (bool_decide_reflect (NodeID o = trim_space (NodeID n))) as [->|]; done.
  - apply Forall_map. eapply Forall_impl; [exact Hr|]. intros o Ho. cbn. destruct (node_by _ o); [apply node_role_ok|done].
  - rewrite map_app. apply NoDup_app. split_and!; [done| |apply NoDup_singleton].
    intros id (o & -> & Ho)%elem_of_map Hin%list_elem_of_singleton.
    assert (existsb (node_by (trim_space (NodeID n))) t = true); [|congruence].
    apply existsb_elem. exists o. split; [done|]. unfold node_by. by rewrite bool_decide_eq_true_2.
  - apply Forall_app. split; [done|]. constructor; [apply node_role_ok|constructor].
Qed.

Lemma filter_nodes_wf p t : nodes_wf t -> nodes_wf (List.filter p t).
Proof.
  intros [Hnd Hr]. split.
  - eapply sublist_NoDup; [exact Hnd|]. apply fmap_sublist, sublist_List_filter.
  - apply Forall_forall. intros n [_ Hn]%elem_of_List_filter. rewrite Forall_forall in Hr. by apply Hr.
Qed.

Lemma DeleteNode_wf id t : nodes_wf t -> nodes_wf (snd (DeleteNode id t)).
Proof. intros H. unfold DeleteNode. destruct (existsb _ t); [by apply filter_nodes_wf|done]. Qed.
