(* ===== verification/Net.v ===== *)
(** * Addresses: the part of Go's [net] and [net/netip] the sources use

    [SplitHostPort], [ParseIP] and prefix membership, written after the standard
    library; a v4 address is 32 bits, a v6 address 128 bits, as integers. *)

From S2P Require Import Prelude GoStrings.

(** ** [net.SplitHostPort]; [None] is an error *)

Definition SplitHostPort (hp : text) : option (text * text) :=
  match last_index ":"%char hp with
  | None => None
  | Some i =>
      let port := drop (S i) hp in
      match hp with
      | "["%char :: _ =>
          match index_byte "]"%char hp with
          | None => None
          | Some e =>
              if bool_decide (S e = i) then
                let host := take (e - 1) (drop 1 hp) in
                if bool_decide ("["%char ∈ drop 1 hp) then None
                else if bool_decide ("]"%char ∈ drop (S e) hp) then None
                else Some (host, port)
              else None
          end
      | _ =>
          let host := take i hp in
          if bool_decide (":"%char ∈ host) then None
          else if bool_decide ("["%char ∈ hp) then None
          else if bool_decide ("]"%char ∈ hp) then None
          else Some (host, port)
      end
  end.

(** [hostOf] (smtpd.go) and [hostOnly] (submission.go, spam.go). *)
Definition hostOf (addr : text) : text :=
  match SplitHostPort addr with Some (h, _) => h | None => addr end.

(** ** Addresses *)

Inductive ip := V4 (a : Z) | V6 (a : Z).

#[export] Instance ip_eq_dec : EqDecision ip.
Proof. solve_decision. Defined.

(** [IP.To4] and [Addr.Unmap]: a v4-mapped v6 address is its v4 address. *)
Definition to4 (a : ip) : option Z :=
  match a with
  | V4 a => Some a
  | V6 a => if Z.shiftr a 32 =? 65535 then Some (Z.land a (Z.ones 32)) else None
  end.

Definition unmap (a : ip) : ip := match to4 a with Some v => V4 v | None => a end.

(** ** [net.ParseIP] *)

Fixpoint parse_dec (s : text) (acc : Z) : option Z :=
  match s with
  | [] => Some acc
  | c :: r => if is_digit c then parse_dec r (10 * acc + (code c - 48)) else None
  end.

(** One field of a dotted quad: digits, no leading zero, at most 255. *)
Definition parse_octet (s : text) : option Z :=
  match s with
  | [] => None
  | c :: r =>
      if bool_decide (c = "0"%char) && negb (bool_decide (r = [])) then None
      else match parse_dec s 0 with
           | Some n => if n <=? 255 then Some n else None
           | None => None
           end
  end.

Definition parse_v4 (s : text) : option Z :=
  match map parse_octet (split_byte "."%char s) with
  | [Some a; Some b; Some c; Some d] => Some (((a * 256 + b) * 256 + c) * 256 + d)
  | _ => None
  end.

Definition hex_digit (c : ascii) : option Z :=
  let n := code c in
  if (48 <=? n) && (n <=? 57) then Some (n - 48)
  else if (97 <=? n) && (n <=? 102) then Some (n - 87)
  else if (65 <=? n) && (n <=? 70) then Some (n - 55)
  else None.

(** The hexadecimal digits a group starts with: count, value, rest. *)
Fixpoint hex_group (s : text) : nat * Z * text :=
  match s with
  | [] => (O, 0, [])
  | c :: r =>
      match hex_digit c with
      | None => (O, 0, s)
      | Some d => let '(n, v, rest) := hex_group r in (S n, d * 16 ^ Z.of_nat n + v, rest)
      end
  end.

(** The groups of a v6 address read so far (16 bits each, a v4 tail counts for two), and
    where the ellipsis stands.  [fuel] bounds the number of groups. *)
Fixpoint parse_groups (fuel : nat) (s : text) (groups : list Z) (ellipsis : option nat)
  : option (list Z * option nat) :=
  match fuel with
  | O => None
  | S fuel =>
      if (8 <=? length groups)%nat then None
      else
        let '(n, v, rest) := hex_group s in
        if (n =? 0)%nat then None
        else if match rest with "."%char :: _ => true | _ => false end then
          if match ellipsis with None => negb (length groups =? 6)%nat | _ => false end then None
          else if (6 <? length groups)%nat then None
          else match parse_v4 s with
               | None => None
               | Some a => Some (groups ++ [Z.shiftr a 16; Z.land a 65535], ellipsis)
               end
        else if (4 <? n)%nat then None
        else
          let groups := groups ++ [v] in
          match rest with
          | [] => Some (groups, ellipsis)
          | ":"%char :: [] => None
          | ":"%char :: ":"%char :: rest' =>
              match ellipsis with
              | Some _ => None
              | None =>
                  match rest' with
                  | [] => Some (groups, Some (length groups))
                  | _ => parse_groups fuel rest' groups (Some (length groups))
                  end
              end
          | ":"%char :: rest' => parse_groups fuel rest' groups ellipsis
          | _ => None
          end
  end.

Definition groups_value (g : list Z) : Z := fold_left (fun acc v => acc * 65536 + v) g 0.

Definition parse_v6 (s : text) : option Z :=
  let finish '(groups, ellipsis) :=
    match ellipsis with
    | None => if (length groups =? 8)%nat then Some (groups_value groups) else None
    | Some e =>
        if (length groups <? 8)%nat then
          Some (groups_value (take e groups ++ replicate (8 - length groups) 0 ++ drop e groups))
        else None
    end in
  match s with
  | ":"%char :: ":"%char :: [] => Some 0
  | ":"%char :: ":"%char :: r => match parse_groups 9 r [] (Some O) with Some g => finish g | None => None end
  | _ => match parse_groups 9 s [] None with Some g => finish g | None => None end
  end.

(** The first '.' or ':' decides the family; a zone ('%') is refused by [net.ParseIP]. *)
Fixpoint ip_family (s : text) : option bool :=
  match s with
  | [] => None
  | c :: r =>
      if bool_decide (c = "."%char) then Some true
      else if bool_decide (c = ":"%char) then Some false
      else if bool_decide (c = "%"%char) then None
      else ip_family r
  end.

Definition ParseIP (s : text) : option ip :=
  match ip_family s with
  | Some true => V4 <$> parse_v4 s
  | Some false => if bool_decide ("%"%char ∈ s) then None else V6 <$> parse_v6 s
  | None => None
  end.

Example parse_v4_ex : ParseIP "192.0.2.1"%string = Some (V4 3221225985).
Proof. reflexivity. Qed.
Example parse_v4_zero : ParseIP "192.0.02.1"%string = None.
Proof. reflexivity. Qed.
Example parse_v6_ex : ParseIP "2001:db8::1"%string = Some (V6 (0x20010db8 * 2 ^ 96 + 1)).
Proof. reflexivity. Qed.
Example parse_v6_mapped : to4 <$> ParseIP "::ffff:10.0.0.1"%string = Some (Some 167772161).
Proof. reflexivity. Qed.
Example parse_v6_full : ParseIP "1:2:3:4:5:6:7::"%string = Some (V6 (groups_value [1;2;3;4;5;6;7;0])).
Proof. reflexivity. Qed.
Example parse_v6_bad : ParseIP "1:2:3:4:5:6:7:8::"%string = None.
Proof. reflexivity. Qed.
Example split_ex : SplitHostPort "[2001:db8::1]:25"%string = Some (T "2001:db8::1", T "25").
Proof. reflexivity. Qed.

(** ** Prefixes *)

Inductive prefix := P4 (a : Z) (bits : Z) | P6 (a : Z) (bits : Z).

(** [netip.Prefix.Contains] of an address without a zone: families must agree. *)
Definition prefix_contains (p : prefix) (a : ip) : bool :=
  match p, a with
  | P4 n b, V4 x => Z.shiftr n (32 - b) =? Z.shiftr x (32 - b)
  | P6 n b, V6 x => Z.shiftr n (128 - b) =? Z.shiftr x (128 - b)
  | _, _ => false
  end.

(** [net.IPNet.Contains]: a v4-mapped address is looked up as v4. *)
Definition ipnet_contains (p : prefix) (a : ip) : bool := prefix_contains p (unmap a).

(** A dotted or hexadecimal literal with its length, as in the sources' tables. *)
Definition cidr (s : text) : option prefix :=
  match last_index "/"%char s with
  | None => None
  | Some i =>
      match ParseIP (take i s), parse_dec (drop (S i) s) 0 with
      | Some (V4 a), Some b =>
          if (b <=? 32) && negb (bool_decide (drop (S i) s = [])) then
            Some (P4 (Z.shiftl (Z.shiftr a (32 - b)) (32 - b)) b) else None
      | Some (V6 a), Some b =>
          if (b <=? 128) && negb (bool_decide (drop (S i) s = [])) then
            Some (P6 (Z.shiftl (Z.shiftr a (128 - b)) (128 - b)) b) else None
      | _, _ => None
      end
  end.

Fixpoint cidrs (l : list text) : list prefix :=
  match l with
  | [] => []
  | s :: l => match cidr s with Some p => p :: cidrs l | None => cidrs l end
  end.

(** Membership of a v4 prefix is the integer interval it covers. *)
Lemma prefix4_interval n b x :
  0 <= b <= 32 -> Z.shiftr n (32 - b) * 2 ^ (32 - b) = n ->
  prefix_contains (P4 n b) (V4 x) = true <-> n <= x < n + 2 ^ (32 - b).
Proof.
  intros Hb Hn. cbn. rewrite Z.eqb_eq, !Z.shiftr_div_pow2 in * by lia.
  assert (0 < 2 ^ (32 - b)) by (apply Z.pow_pos_nonneg; lia).
  pose proof (Z.div_mod x (2 ^ (32 - b)) ltac:(lia)).
  pose proof (Z.mod_pos_bound x (2 ^ (32 - b)) ltac:(lia)).
  split; [intros E; rewrite <- E in *; nia|].
  intros Hx. apply Z.le_antisymm.
  - apply Z.div_le_lower_bound; lia.
  - apply Z.lt_succ_r. apply Z.div_lt_upper_bound; nia.
Qed.

Lemma prefix6_interval n b x :
  0 <= b <= 128 -> Z.shiftr n (128 - b) * 2 ^ (128 - b) = n ->
  prefix_contains (P6 n b) (V6 x) = true <-> n <= x < n + 2 ^ (128 - b).
Proof.
  intros Hb Hn. cbn. rewrite Z.eqb_eq, !Z.shiftr_div_pow2 in * by lia.
  assert (0 < 2 ^ (128 - b)) by (apply Z.pow_pos_nonneg; lia).
  pose proof (Z.div_mod x (2 ^ (128 - b)) ltac:(lia)).
  pose proof (Z.mod_pos_bound x (2 ^ (128 - b)) ltac:(lia)).
  split; [intros E; rewrite <- E in *; nia|].
  intros Hx. apply Z.le_antisymm.
  - apply Z.div_le_lower_bound; lia.
  - apply Z.lt_succ_r. apply Z.div_lt_upper_bound; nia.
Qed.

(** The host part is made of bytes of the address. *)
Lemma hostOf_elem c a : c ∈ hostOf a -> c ∈ a.
Proof.
  unfold hostOf, SplitHostPort. intros Hc.
  assert (Hd : forall n (l : text), c ∈ drop n l -> c ∈ l).
  { intros n l H. rewrite <- (take_drop n l). apply elem_of_app. by right. }
  assert (Ht : forall n (l : text), c ∈ take n l -> c ∈ l).
  { intros n l H. rewrite <- (take_drop n l). apply elem_of_app. by left. }
  repeat split_match_in Hc; repeat match goal with H : Some _ = Some _ |- _ => injection H as <- <- end;
    try done; eauto.
Qed.

Lemma hostOf_no_break a : no_break a -> no_break (hostOf a).
Proof. apply no_break_elems. intros c. apply hostOf_elem. Qed.
#[export] Hint Resolve hostOf_no_break : xmx.
