(* ===== verification/SmtpClient.v ===== *)
(** * Opening an SMTP session (internal/smtpclient)

    [Dial] over what the network does: the addresses a name resolves to, and how each
    connection, handshake, STARTTLS and EHLO turns out, are functions of what was done
    before.  The theorem says on which channels the session speaks, and that with private
    destinations refused no connection leaves for an address that is not public. *)

From S2P Require Import Prelude GoStrings Errors Net StoreTypes.
Open Scope Z_scope.

(** ** Public addresses (public.go) *)

Definition nonPublicPrefixes : list prefix :=
  cidrs [T "0.0.0.0/8"; T "10.0.0.0/8"; T "100.64.0.0/10"; T "127.0.0.0/8"; T "169.254.0.0/16"; T "172.16.0.0/12";
         T "192.0.0.0/24"; T "192.0.2.0/24"; T "192.88.99.0/24"; T "192.168.0.0/16"; T "198.18.0.0/15"; T "198.51.100.0/24";
         T "203.0.113.0/24"; T "224.0.0.0/4"; T "240.0.0.0/4"; T "::/128"; T "::1/128"; T "64:ff9b:1::/48"; T "100::/64";
         T "2001::/23"; T "2001:db8::/32"; T "2002::/16"; T "fc00::/7"; T "fe80::/10"; T "ff00::/8"].

(** A [netip.Addr] with its zone, empty for most. *)
Definition IsPublic (addr : ip * text) : bool :=
  let a := unmap (fst addr) in
  if negb (bool_decide (snd addr = [])) then false
  else negb (existsb (fun p => prefix_contains p a) nonPublicPrefixes).

(** [netip.ParseAddr]: the first of '.', ':' and '%' decides. *)
Definition ParseAddr (s : text) : option (ip * text) :=
  match ip_family s with
  | Some true => a ← parse_v4 s; Some (V4 a, [])
  | Some false =>
      match index_byte "%"%char s with
      | None => a ← parse_v6 s; Some (V6 a, [])
      | Some i => match drop (S i) s with
                  | [] => None
                  | zone => a ← parse_v6 (take i s); Some (V6 a, zone)
                  end
      end
  | None => None
  end.

(** [strconv.ParseUint(s, 10, 16)]. *)
Definition parse_port (s : text) : option Z :=
  match s, parse_dec s 0 with
  | [], _ | _, None => None
  | _, Some n => if n <=? 65535 then Some n else None
  end.

(** [netip.ParseAddrPort]. *)
Definition ParseAddrPort (s : text) : option (ip * text) :=
  match last_index ":"%char s with
  | None => None
  | Some i =>
      let host := take i s in
      match parse_port (drop (S i) s), host with
      | None, _ | _, [] => None
      | Some _, c :: _ =>
          if bool_decide (c = "["%char) then
            if bool_decide (last host = Some "]"%char) && (2 <=? length host)%nat then
              match ParseAddr (drop 1 (take (length host - 1) host)) with
              | Some (V6 a, zone) => Some (V6 a, zone)
              | _ => None
              end
            else None
          else match ParseAddr host with
               | Some (V4 a, zone) => Some (V4 a, zone)
               | _ => None
               end
      end
  end.

Definition ErrNonPublicAddress : text := "destination is not a public address (queue.allow_private_destinations)"%string.

(** What [net.Dialer] asks before each connection; the address it names is written as in
    the host part of the dialer's own text. *)
Definition rejectNonPublic (address : text) : option error :=
  match ParseAddrPort address with
  | None => Some (ESentinel ErrNonPublic (ErrNonPublicAddress ++ ": "%string ++ address))
  | Some a => if IsPublic a then None else Some (ESentinel ErrNonPublic (ErrNonPublicAddress ++ ": "%string ++ hostOf address))
  end.

(** ** The wire *)

Inductive wire_act :=
| WConnect (address : text)
| WHandshake (verify : bool)            (* TLS from the first byte *)
| WStartTLS (verify : bool)
| WHello (name : text)
| WClose.

#[export] Instance wire_act_eq_dec : EqDecision wire_act.
Proof. solve_decision. Defined.

(** What was done, oldest first, and the error of each step that failed. *)
Definition wire_log := list (wire_act * option error).

Record network := Network {
  n_resolve : wire_log -> text -> Z -> list text;     (* addresses with the port, as the dialer tries them *)
  n_answer : wire_log -> wire_act -> option error;
  n_ctx : wire_log -> option error                    (* [ctx.Err()] *)
}.

Definition W (A : Type) : Type := wire_log -> A * wire_log.
Definition wret {A} (a : A) : W A := fun h => (a, h).
Definition wbind {A B} (m : W A) (k : A -> W B) : W B := fun h => let '(a, h) := m h in k a h.
Notation "'let!' x := m 'in' k" := (wbind m (fun x => k))
  (at level 10, x pattern at level 0, m at level 100, k at level 200,
   format "'[v' 'let!'  x  :=  m  'in' '/' k ']'").

(** ** [Dial] (dial.go) *)

Definition TLSNone : text := "none"%string.
Definition TLSOpportunistic : text := "opportunistic"%string.
Definition TLSRequired : text := "starttls"%string.
Definition TLSImplicit : text := "tls"%string.

Definition ValidTLSMode (mode : text) : bool :=
  bool_decide (mode ∈ [TLSNone; TLSOpportunistic; TLSRequired; TLSImplicit]).

Definition HelloName (d : domain) : text := "xeronmx."%string ++ DName d.

Section dial.
Context (net : network).

Definition act (a : wire_act) : W (option error) := fun h => let e := n_answer net h a in (e, h ++ [(a, e)]).
Definition ctx_err : W (option error) := fun h => (n_ctx net h, h).
Definition resolve (host : text) (port : Z) : W (list text) := fun h => (n_resolve net h host port, h).

(** [net.Dialer]: the addresses in turn, each after the control function; the first error
    is the one reported. *)
Fixpoint connect (publicOnly : bool) (addrs : list text) (first : option error) : W (option error) :=
  match addrs with
  | [] => wret (match first with Some e => Some e | None => Some (EText "missing address"%string) end)
  | a :: rest =>
      let keep e := match first with Some f => Some f | None => Some e end in
      match (if publicOnly then rejectNonPublic a else None) with
      | Some e => connect publicOnly rest (keep e)
      | None =>
          let! e := act (WConnect a) in
          match e with
          | None => wret None
          | Some e => connect publicOnly rest (keep e)
          end
      end
  end.

Definition JoinHostPort (host : text) (port : Z) : text :=
  if bool_decide (":"%char ∈ host) || bool_decide ("%"%char ∈ host) then "["%string ++ host ++ "]:"%string ++ dec port
  else host ++ ":"%string ++ dec port.

Definition connect_error (host : text) (port : Z) (e : error) : error :=
  EWrap ("connect "%string ++ JoinHostPort host port) e.

Definition dial_conn (publicOnly : bool) (host : text) (port : Z) (implicitTLS : bool) : W (option error) :=
  let! addrs := resolve host port in
  let! e := connect publicOnly addrs None in
  match e with
  | Some e => wret (Some (connect_error host port e))
  | None =>
      if implicitTLS then
        let! e := act (WHandshake true) in
        match e with
        | Some e => let! _ := act WClose in wret (Some (connect_error host port e))
        | None => wret None
        end
      else wret None
  end.

Definition stageError (stage : text) (e : error) : W error :=
  let! c := ctx_err in wret (EWrap stage (match c with Some c => c | None => e end)).

Definition startTLS (verify : bool) (helloName : text) : W (option error) :=
  let! e := act (WStartTLS verify) in
  match e with
  | Some e => let! _ := act WClose in wret (Some e)
  | None =>
      let! e := act (WHello helloName) in
      match e with
      | Some e => let! _ := act WClose in wret (Some e)
      | None => wret None
      end
  end.

Definition hello (helloName : text) : W (result unit) :=
  let! e := act (WHello helloName) in
  match e with
  | Some e => let! _ := act WClose in let! e := stageError "EHLO"%string e in wret (Err e)
  | None => wret (Ok tt)
  end.

Definition tls_mode (d : domain) : text := if bool_decide (PrimaryTLS d = []) then TLSOpportunistic else PrimaryTLS d.

Definition Dial (publicOnly : bool) (d : domain) (helloName : text) : W (result unit) :=
  let mode := tls_mode d in
  let dial := dial_conn publicOnly (PrimaryHost d) (PrimaryPort d) in
  let! e := dial (bool_decide (mode = TLSImplicit)) in
  match e with
  | Some e => wret (Err e)
  | None =>
      if bool_decide (mode = TLSRequired) || bool_decide (mode = TLSOpportunistic) then
        let! e := startTLS (negb (bool_decide (mode = TLSOpportunistic))) helloName in
        match e with
        | None => wret (Ok tt)
        | Some e =>
            let! c := ctx_err in
            if bool_decide (mode = TLSRequired) || bool_decide (is_Some c) then
              let! e := stageError "STARTTLS"%string e in wret (Err e)
            else
              let! e := dial false in
              match e with
              | Some e => wret (Err e)
              | None => hello helloName
              end
        end
      else hello helloName
  end.
End dial.

(** ** What the policy of a domain guarantees *)

(** The reserved ranges, as first address and size. *)
Definition reserved4 : list (Z * Z) :=
  [(0, 2 ^ 24); (10 * 2 ^ 24, 2 ^ 24); (100 * 2 ^ 24 + 64 * 2 ^ 16, 2 ^ 22); (127 * 2 ^ 24, 2 ^ 24);
   (169 * 2 ^ 24 + 254 * 2 ^ 16, 2 ^ 16); (172 * 2 ^ 24 + 16 * 2 ^ 16, 2 ^ 20); (192 * 2 ^ 24, 2 ^ 8);
   (192 * 2 ^ 24 + 2 * 2 ^ 8, 2 ^ 8); (192 * 2 ^ 24 + 88 * 2 ^ 16 + 99 * 2 ^ 8, 2 ^ 8);
   (192 * 2 ^ 24 + 168 * 2 ^ 16, 2 ^ 16); (198 * 2 ^ 24 + 18 * 2 ^ 16, 2 ^ 17);
   (198 * 2 ^ 24 + 51 * 2 ^ 16 + 100 * 2 ^ 8, 2 ^ 8); (203 * 2 ^ 24 + 113 * 2 ^ 8, 2 ^ 8);
   (224 * 2 ^ 24, 2 ^ 28); (240 * 2 ^ 24, 2 ^ 28)].

Definition reserved6 : list (Z * Z) :=
  [(0, 1); (1, 1); (0x64ff9b0001 * 2 ^ 80, 2 ^ 80); (0x100 * 2 ^ 112, 2 ^ 64); (0x2001 * 2 ^ 112, 2 ^ 105);
   (0x20010db8 * 2 ^ 96, 2 ^ 96); (0x2002 * 2 ^ 112, 2 ^ 112); (0xfc00 * 2 ^ 112, 2 ^ 121);
   (0xfe80 * 2 ^ 112, 2 ^ 118); (0xff00 * 2 ^ 112, 2 ^ 120)].

Definition outside (x : Z) (ranges : list (Z * Z)) : Prop := Forall (fun r => ~ fst r <= x < fst r + snd r) ranges.

Definition public (a : ip) : Prop :=
  match unmap a with V4 x => outside x reserved4 | V6 x => outside x reserved6 end.

Definition range4 (p : prefix) : option (Z * Z) := match p with P4 n b => Some (n, 2 ^ (32 - b)) | P6 _ _ => None end.
Definition range6 (p : prefix) : option (Z * Z) := match p with P6 n b => Some (n, 2 ^ (128 - b)) | P4 _ _ => None end.

(** A prefix of the table is a proper one: its host bits are zero. *)
Definition aligned (p : prefix) : bool :=
  match p with
  | P4 n b => (0 <=? b) && (b <=? 32) && (Z.shiftr n (32 - b) * 2 ^ (32 - b) =? n)
  | P6 n b => (0 <=? b) && (b <=? 128) && (Z.shiftr n (128 - b) * 2 ^ (128 - b) =? n)
  end.

Lemma table_ranges : omap range4 nonPublicPrefixes = reserved4 /\ omap range6 nonPublicPrefixes = reserved6 /\
  forallb aligned nonPublicPrefixes = true.
Proof. vm_compute. auto. Qed.

#[local] Opaque nonPublicPrefixes reserved4 reserved6.

Lemma outside_prefixes (P : prefix -> bool) range x ps :
  (forall p r, range p = Some r -> aligned p = true -> P p = true <-> fst r <= x < fst r + snd r) ->
  forallb aligned ps = true -> existsb P ps = false -> outside x (omap range ps).
Proof.
  intros HP. induction ps as [|p ps IH]; cbn; [constructor|]. intros [Hp Hps]%andb_true_iff [Hn Hns]%orb_false_iff.
  destruct (range p) as [r|] eqn:Er; [|by apply IH]. constructor; [|by apply IH].
  rewrite <- (HP p r Er Hp). by rewrite Hn.
Qed.

Lemma IsPublic_public a zone : IsPublic (a, zone) = true -> zone = [] /\ public a.
Proof.
  unfold IsPublic, public. cbn [fst snd]. case_bool_decide as Hz; [|done]. cbn [negb]. intros Hn%negb_true_iff.
  split; [done|]. destruct table_ranges as (H4 & H6 & Ha).
  destruct (unmap a) as [x|x]; [rewrite <- H4|rewrite <- H6]; (eapply outside_prefixes; [|exact Ha|exact Hn]).
  - intros [n b|n b] r [= <-] Hp. unfold aligned in Hp. apply andb_true_iff in Hp as [[Hl%Z.leb_le Hr%Z.leb_le]%andb_true_iff He%Z.eqb_eq].
    exact (prefix4_interval n b x (conj Hl Hr) He).
  - intros [n b|n b] r [= <-] Hp. unfold aligned in Hp. apply andb_true_iff in Hp as [[Hl%Z.leb_le Hr%Z.leb_le]%andb_true_iff He%Z.eqb_eq].
    exact (prefix6_interval n b x (conj Hl Hr) He).
Qed.

Lemma rejectNonPublic_None a : rejectNonPublic a = None -> exists addr, ParseAddrPort a = Some (addr, []) /\ public addr.
Proof.
  unfold rejectNonPublic. destruct (ParseAddrPort a) as [[addr zone]|]; [|done].
  destruct (IsPublic (addr, zone)) eqn:E; [|done]. intros _. apply IsPublic_public in E as [-> Hp]. eauto.
Qed.

(** *** Channels *)

Inductive channel := Closed | Plain | Secured (verified : bool).

Definition after (c : channel) (a : wire_act * option error) : channel :=
  match a with
  | (WConnect _, None) => Plain
  | (WHandshake v, None) | (WStartTLS v, None) => Secured v
  | (WClose, _) => Closed
  | _ => c
  end.

Definition channel_of (h : wire_log) : channel := fold_left after h Closed.

(** The channel each EHLO of our own was said on. *)
Fixpoint greetings (c : channel) (h : wire_log) : list (channel * text) :=
  match h with
  | [] => []
  | (WHello n, e) :: h => (c, n) :: greetings (after c (WHello n, e)) h
  | a :: h => greetings (after c a) h
  end.

Definition allowed (mode : text) (c : channel) : Prop :=
  if bool_decide (mode ∈ [TLSRequired; TLSImplicit]) then c = Secured true
  else if bool_decide (mode = TLSOpportunistic) then c = Secured false \/ c = Plain
  else c = Plain.

Lemma channel_app h h' : channel_of (h ++ h') = fold_left after h' (channel_of h).
Proof. unfold channel_of. apply fold_left_app. Qed.

Lemma greetings_app c h h' : greetings c (h ++ h') = greetings c h ++ greetings (fold_left after h c) h'.
Proof.
  revert c. induction h as [|[a e] h IH]; intros c; [done|]. cbn [greetings app fold_left].
  destruct a; cbn [app]; by rewrite IH.
Qed.

Section policy.
Context (net : network) (publicOnly : bool) (d : domain) (helloName : text).

(** What holds of the log at every point of [Dial]. *)
Record log_ok (h : wire_log) : Prop := {
  lo_public : forall a e, (WConnect a, e) ∈ h -> publicOnly = true -> exists addr, ParseAddrPort a = Some (addr, []) /\ public addr;
  lo_hello : forall c n, (c, n) ∈ greetings Closed h -> n = helloName /\ allowed (tls_mode d) c
}.

Definition wwp {A} (m : W A) (Q : A -> wire_log -> Prop) (h : wire_log) : Prop := let '(a, h') := m h in Q a h'.

Lemma wwp_ret {A} (a : A) Q h : Q a h -> wwp (wret a) Q h.
Proof. done. Qed.

Lemma wwp_bind {A B} (m : W A) (k : A -> W B) Q h : wwp m (fun a h' => wwp (k a) Q h') h -> wwp (wbind m k) Q h.
Proof. unfold wwp, wbind. by destruct (m h). Qed.

Lemma wwp_mono {A} (m : W A) (P Q : A -> wire_log -> Prop) h :
  wwp m P h -> (forall a h', P a h' -> Q a h') -> wwp m Q h.
Proof. unfold wwp. destruct (m h). auto. Qed.

Lemma wwp_act a Q h : (forall e, Q e (h ++ [(a, e)])) -> wwp (act net a) Q h.
Proof. intros HQ. apply HQ. Qed.

Lemma wwp_ctx Q h : (forall e, Q e h) -> wwp (ctx_err net) Q h.
Proof. intros HQ. apply HQ. Qed.

Lemma log_ok_step h a e :
  log_ok h ->
  match a with
  | WConnect addr => publicOnly = true -> rejectNonPublic addr = None
  | WHello n => n = helloName /\ allowed (tls_mode d) (channel_of h)
  | _ => True
  end -> log_ok (h ++ [(a, e)]).
Proof.
  intros [Hp Hh] Ha. split.
  - intros b eb [Hb|[= <- <-]%list_elem_of_singleton]%elem_of_app Hpub; [by eapply Hp|].
    by apply rejectNonPublic_None, Ha.
  - intros c n. rewrite greetings_app. intros [Hc|Hc]%elem_of_app; [by apply Hh|].
    destruct a; cbn in Hc; try (by inv Hc). apply list_elem_of_singleton in Hc as [= -> ->]. exact Ha.
Qed.

Lemma wwp_connect addrs first h :
  log_ok h ->
  wwp (connect net publicOnly addrs first)
    (fun e h' => log_ok h' /\ (e = None -> channel_of h' = Plain)) h.
Proof.
  revert first h. induction addrs as [|a rest IH]; intros first h Hh; cbn [connect]; [by apply wwp_ret; destruct first|].
  destruct (if publicOnly then rejectNonPublic a else None) as [e|] eqn:Ea; [by apply IH|].
  apply wwp_bind, wwp_act. intros e.
  assert (Hh' : log_ok (h ++ [(WConnect a, e)])) by (apply log_ok_step; [done|by intros ->]).
  destruct e; [by apply IH|]. apply wwp_ret. split; [done|]. by rewrite channel_app.
Qed.

Lemma wwp_dial_conn implicit h :
  log_ok h ->
  wwp (dial_conn net publicOnly (PrimaryHost d) (PrimaryPort d) implicit)
    (fun e h' => log_ok h' /\ (e = None -> channel_of h' = if implicit then Secured true else Plain)) h.
Proof.
  intros Hh. unfold dial_conn. apply wwp_bind. unfold wwp at 1, resolve. apply wwp_bind.
  eapply wwp_mono; [by apply wwp_connect|]. cbn beta. intros e h' [Hh' Hc]. destruct e as [e|]; [by apply wwp_ret|].
  destruct implicit; [|apply wwp_ret; auto]. apply wwp_bind, wwp_act. intros e.
  assert (Hh2 : log_ok (h' ++ [(WHandshake true, e)])) by by apply log_ok_step.
  destruct e as [e|]; [apply wwp_bind, wwp_act; intros ?; apply wwp_ret; by split; [apply log_ok_step|]|].
  apply wwp_ret. split; [done|]. by rewrite channel_app.
Qed.

(** The session is greeted on the channel it is returned with. *)
Definition greeted (h : wire_log) : Prop :=
  exists before, h = before ++ [(WHello helloName, None)] /\ allowed (tls_mode d) (channel_of h).

Lemma greeted_hello h : allowed (tls_mode d) (channel_of h) -> greeted (h ++ [(WHello helloName, None)]).
Proof. intros Ha. exists h. split; [done|]. by rewrite channel_app. Qed.

Lemma wwp_hello h :
  log_ok h -> allowed (tls_mode d) (channel_of h) ->
  wwp (hello net helloName) (fun r h' => log_ok h' /\ (r = Ok tt -> greeted h')) h.
Proof.
  intros Hh Ha. unfold hello. apply wwp_bind, wwp_act. intros e.
  assert (Hh' : log_ok (h ++ [(WHello helloName, e)])) by by apply log_ok_step.
  destruct e as [e|].
  - apply wwp_bind, wwp_act. intros e2. unfold stageError. apply wwp_bind, wwp_bind, wwp_ctx. intros c.
    apply wwp_ret, wwp_ret. split; [by apply log_ok_step|done].
  - apply wwp_ret. split; [done|]. intros _. by apply greeted_hello.
Qed.

Lemma wwp_startTLS verify h :
  log_ok h -> allowed (tls_mode d) (Secured verify) ->
  wwp (startTLS net verify helloName)
    (fun e h' => log_ok h' /\ (e = None -> greeted h')) h.
Proof.
  intros Hh Ha. unfold startTLS. apply wwp_bind, wwp_act. intros e.
  assert (Hh' : log_ok (h ++ [(WStartTLS verify, e)])) by by apply log_ok_step.
  destruct e as [e|]; [apply wwp_bind, wwp_act; intros ?; apply wwp_ret; by split; [apply log_ok_step|]|].
  assert (Hc : channel_of (h ++ [(WStartTLS verify, None)]) = Secured verify) by by rewrite channel_app.
  apply wwp_bind, wwp_act. intros e.
  assert (Hh2 : log_ok ((h ++ [(WStartTLS verify, None)]) ++ [(WHello helloName, e)])).
  { apply log_ok_step; [done|]. by rewrite Hc. }
  destruct e as [e|]; [apply wwp_bind, wwp_act; intros ?; apply wwp_ret; by split; [apply log_ok_step|]|].
  apply wwp_ret. split; [done|]. intros _. apply greeted_hello. by rewrite Hc.
Qed.

Lemma wwp_Dial : wwp (Dial net publicOnly d helloName) (fun r h => log_ok h /\ (r = Ok tt -> greeted h)) [].
Proof.
  assert (H0 : log_ok []) by by split; [intros a e Hin; inv Hin|intros c n Hin; inv Hin].
  unfold Dial. cbv zeta. apply wwp_bind. eapply wwp_mono; [by apply wwp_dial_conn|]. cbn beta. intros e h [Hh Hc].
  destruct e as [e|]; [by apply wwp_ret|]. specialize (Hc eq_refl).
  destruct (bool_decide (tls_mode d = TLSRequired) || bool_decide (tls_mode d = TLSOpportunistic)) eqn:Em.
  - apply wwp_bind. eapply wwp_mono; [apply wwp_startTLS; [done|]|].
    { unfold allowed. apply orb_true_iff in Em as [Em|Em]; apply bool_decide_eq_true in Em; rewrite Em; [done|by left]. }
    cbn beta. intros e h1 [Hh1 Hg]. destruct e as [e|]; [|by apply wwp_ret; auto].
    apply wwp_bind, wwp_ctx. intros c. destruct (bool_decide (tls_mode d = TLSRequired) || bool_decide (is_Some c)) eqn:Er.
    + unfold stageError. apply wwp_bind, wwp_bind, wwp_ctx. intros c'. by apply wwp_ret, wwp_ret.
    + apply orb_false_iff in Er as [Er _]. rewrite Er in Em. cbn in Em. apply bool_decide_eq_true in Em.
      apply wwp_bind. eapply wwp_mono; [by apply wwp_dial_conn|]. cbn beta. intros e2 h2 [Hh2 Hc2].
      destruct e2 as [e2|]; [by apply wwp_ret|]. apply wwp_hello; [done|]. rewrite (Hc2 eq_refl).
      unfold allowed. rewrite Em. by right.
  - apply orb_false_iff in Em as [Er Eo]. apply wwp_hello; [done|]. rewrite Hc. unfold allowed. rewrite Eo.
    apply bool_decide_eq_false in Er. destruct (decide (tls_mode d = TLSImplicit)) as [Ei|Ei]; [by rewrite Ei|].
    rewrite (bool_decide_eq_false_2 (_ ∈ _)) by set_solver. by rewrite bool_decide_eq_false_2.
Qed.
End policy.

(** C12: whatever the network does, a session to a server speaks only on a channel its TLS mode
    allows: with starttls or tls it says EHLO only inside a connection whose certificate was
    verified, and the channel handed over is one; with private destinations refused, every
    connection tried goes to an address outside the reserved ranges, in whichever form it is
    written. *)
Theorem Dial_policy net publicOnly d helloName :
  let '(r, h) := Dial net publicOnly d helloName [] in
  (forall c n, (c, n) ∈ greetings Closed h -> n = helloName /\ allowed (tls_mode d) c) /\
  (publicOnly = true -> forall a e, (WConnect a, e) ∈ h -> exists addr, ParseAddrPort a = Some (addr, []) /\ public addr) /\
  (r = Ok tt -> allowed (tls_mode d) (channel_of h) /\ exists before, h = before ++ [(WHello helloName, None)]).
Proof.
  pose proof (wwp_Dial net publicOnly d helloName) as Hd. unfold wwp in Hd.
  destruct (Dial net publicOnly d helloName []) as [r h]. destruct Hd as [[Hp Hh] Hg].
  split_and!; [exact Hh|by intros ? ? ? ?; eapply Hp|]. intros Hr. destruct (Hg Hr) as (before & E & Ha). eauto.
Qed.
