(* ===== verification/Netlimit.v ===== *)
(** * Connection limits, trusted proxies, the drain switch (internal/netlimit, proxy, maintenance)

    The listener keeps a slot per open connection.  A history of connections offered and
    closed, in any order and with any repetition, is a list of events; the Go runtime's
    buffered channel is the count of slots taken. *)

From S2P Require Import Prelude GoStrings Net Errors.
Open Scope Z_scope.

(** ** The limiting listener *)

(** [conn]: whether its [sync.Once] has run. *)
Record limited := Limited { li_id : Z; li_released : bool }.

Record listener := Listener {
  ln_max : nat;
  ln_greeting : text;
  ln_slots : nat;                       (* len(slots) *)
  ln_conns : list limited               (* handed to the server *)
}.

Definition Listen (max : Z) (greeting : text) : option listener :=
  if max <=? 0 then None else Some (Listener (Z.to_nat max) greeting 0 []).

Inductive fate := Admitted_ | TurnedAway (written : text).

(** [Accept] meets connection [id]. *)
Definition Accept (id : Z) (l : listener) : fate * listener :=
  if (ln_slots l <? ln_max l)%nat then
    (Admitted_, Listener (ln_max l) (ln_greeting l) (S (ln_slots l)) (ln_conns l ++ [Limited id false]))
  else (TurnedAway (ln_greeting l), l).

Definition conn_by (id : Z) (c : limited) : bool := li_id c =? id.

(** [conn.Close], which may be called again. *)
Definition Close (id : Z) (l : listener) : listener :=
  match find (conn_by id) (ln_conns l) with
  | Some c =>
      if li_released c then l
      else Listener (ln_max l) (ln_greeting l) (ln_slots l - 1)
             (map (fun c => if conn_by id c then Limited (li_id c) true else c) (ln_conns l))
  | None => l
  end.

Inductive net_event := Offered (id : Z) | Closed_ (id : Z).

Definition net_step (l : listener) (e : net_event) : listener :=
  match e with Offered id => snd (Accept id l) | Closed_ id => Close id l end.

Definition net_run (l : listener) (h : list net_event) : listener := fold_left net_step h l.

(** ** Trusted proxies *)

(** [net.ParseCIDR], its network; a v4-mapped network is looked up as v4. *)
Definition ParseCIDR (s : text) : option prefix :=
  match index_byte "/"%char s with
  | None => None
  | Some i =>
      match ParseIP (take i s), drop (S i) s, parse_dec (drop (S i) s) 0 with
      | Some (V4 a), _ :: _, Some b =>
          if b <=? 32 then Some (P4 (Z.shiftl (Z.shiftr a (32 - b)) (32 - b)) b) else None
      | Some (V6 a), _ :: _, Some b =>
          if b <=? 128 then
            let m := Z.shiftl (Z.shiftr a (128 - b)) (128 - b) in
            match to4 (V6 m) with Some v => Some (P4 v (b - 96)) | None => Some (P6 m b) end
          else None
      | _, _, _ => None
      end
  end.

(** [%q] is the library's; the texts of the errors name the entry. *)
Definition parse_entry (entry : text) : result prefix :=
  if negb (bool_decide ("/"%char ∈ entry)) then
    match ParseIP entry with
    | None => Err (EText (entry ++ " is neither an address nor a CIDR range"%string))
    | Some a => match unmap a with V4 v => Ok (P4 v 32) | V6 v => Ok (P6 v 128) end
    end
  else match ParseCIDR entry with
       | None => Err (EText (entry ++ " is not a valid CIDR range"%string))
       | Some n => Ok n
       end.

Fixpoint ParseTrusted (entries : list text) : result (list prefix) :=
  match entries with
  | [] => Ok []
  | raw :: rest =>
      let entry := trim_space raw in
      if bool_decide (entry = []) then ParseTrusted rest
      else match parse_entry entry with
           | Err e => Err e
           | Ok n => match ParseTrusted rest with Err e => Err e | Ok out => Ok (n :: out) end
           end
  end.

(** The address of a connection: TCP, or the text of another kind. *)
Inductive net_addr := TCPAddr (a : option ip) | OtherAddr (s : text).

Definition Trusted (addr : net_addr) (trusted : list prefix) : bool :=
  let a := match addr with
           | TCPAddr a => a
           | OtherAddr s => match SplitHostPort s with Some (host, _) => ParseIP host | None => None end
           end in
  match a with
  | None => false
  | Some a => existsb (fun n => ipnet_contains n a) trusted
  end.

Inductive proxy_policy := REQUIRE | SKIP.

(** The policy [proxy.Listen] gives a connection; [None] when the listener is left as it is. *)
Definition conn_policy (upstream : net_addr) (trusted : list prefix) : option proxy_policy :=
  match trusted with
  | [] => None
  | _ => Some (if Trusted upstream trusted then REQUIRE else SKIP)
  end.

(** ** The drain switch *)

Definition NewManager (initialDrain : bool) : option bool := Some initialDrain.
Definition IsDraining (m : option bool) : bool := default false m.
Definition SetDraining (v : bool) (m : option bool) : option bool := match m with Some _ => Some v | None => None end.

(** ** Lemmas *)

Definition is_open (c : limited) : bool := negb (li_released c).
Definition open_conns (l : listener) : list limited := List.filter is_open (ln_conns l).

(** Connections have identifiers of their own. *)
Definition net_wf (l : listener) : Prop :=
  NoDup (map li_id (ln_conns l)) /\ ln_slots l = length (open_conns l) /\ (ln_slots l <= ln_max l)%nat.

Definition offered (e : net_event) : option Z := match e with Offered id => Some id | Closed_ _ => None end.

Lemma conn_ids_close id cs :
  map li_id (map (fun c => if conn_by id c then Limited (li_id c) true else c) cs) = map li_id cs.
Proof. rewrite map_map. apply map_ext. intros c. by destruct (conn_by id c). Qed.

Lemma open_close id cs c :
  NoDup (map li_id cs) -> find (conn_by id) cs = Some c -> li_released c = false ->
  S (length (List.filter is_open (map (fun c => if conn_by id c then Limited (li_id c) true else c) cs))) =
  length (List.filter is_open cs).
Proof.
  intros Hnd Hf Hr. induction cs as [|x cs IH]; [done|]. cbn in Hnd. apply NoDup_cons in Hnd as [Hx Hnd]. cbn in Hf |- *.
  destruct (conn_by id x) eqn:Ex.
  - injection Hf as ->. assert (Ho : is_open c = true) by (unfold is_open; by rewrite Hr). rewrite Ho.
    change (is_open (Limited (li_id c) true)) with false. cbn iota. cbn [length]. f_equal. f_equal. f_equal.
    rewrite <- (map_id cs) at 2. apply map_ext_in. intros y Hy. unfold conn_by in *. destruct (Z.eqb_spec (li_id y) id) as [E|]; [|done].
    apply Z.eqb_eq in Ex. exfalso. apply Hx. rewrite Ex, <- E. apply list_elem_of_fmap_2. by apply list_elem_of_In.
  - specialize (IH Hnd Hf). destruct (is_open x); cbn; lia.
Qed.

Lemma net_wf_close id l : net_wf l -> net_wf (Close id l).
Proof.
  intros (Hnd & Hs & Hm). unfold Close. destruct (find _ _) as [c|] eqn:Ef; [|done].
  destruct (li_released c) eqn:Er; [done|]. unfold net_wf, open_conns in *. cbn.
  rewrite conn_ids_close. pose proof (open_close id (ln_conns l) c Hnd Ef Er). split_and!; [done|lia|lia].
Qed.

Lemma net_wf_accept id l : id ∉ map li_id (ln_conns l) -> net_wf l -> net_wf (snd (Accept id l)).
Proof.
  intros Hid (Hnd & Hs & Hm). unfold Accept. destruct (Nat.ltb_spec (ln_slots l) (ln_max l)); [|done].
  unfold net_wf, open_conns in *. cbn. rewrite map_app, List.filter_app, length_app. cbn. split_and!; [|lia|lia].
  apply NoDup_app. split_and!; [done| |apply NoDup_singleton]. by intros x Hx ->%list_elem_of_singleton.
Qed.

Lemma net_step_ids l e id :
  id ∈ map li_id (ln_conns (net_step l e)) -> id ∈ map li_id (ln_conns l) \/ offered e = Some id.
Proof.
  destruct e as [i|i]; cbn.
  - unfold Accept. destruct (_ <? _)%nat; cbn; [|by left]. rewrite map_app, elem_of_app. cbn.
    intros [| ->%list_elem_of_singleton]; [by left|by right].
  - unfold Close. destruct (find _ _) as [c|]; [|by left]. destruct (li_released c); [by left|]. cbn.
    rewrite conn_ids_close. by left.
Qed.

Lemma net_run_wf h l :
  NoDup (omap offered h) -> (forall id, id ∈ omap offered h -> id ∉ map li_id (ln_conns l)) -> net_wf l -> net_wf (net_run l h).
Proof.
  revert l. induction h as [|e h IH]; intros l Hnd Hnew Hwf; [done|]. unfold net_run in *. cbn [fold_left].
  assert (Hnd' : NoDup (omap offered h) /\ (forall id, offered e = Some id -> id ∉ omap offered h)).
  { destruct e; cbn in Hnd; [apply NoDup_cons in Hnd as [? ?]; split; [done|by intros ? [= <-]]|by split]. }
  assert (Hin : forall id, id ∈ omap offered h -> id ∈ omap offered (e :: h)).
  { intros id. destruct e; cbn; [by right|done]. }
  apply IH; [apply Hnd'| |].
  - intros id Hid Hc. apply net_step_ids in Hc as [Hc|Hc]; [by apply (Hnew id (Hin id Hid))|by apply (proj2 Hnd' id)].
  - destruct e as [i|i]; cbn; [apply net_wf_accept; [|done]|by apply net_wf_close].
    apply Hnew. cbn. apply list_elem_of_here.
Qed.

(** However connections come and are closed, and however often one is closed, the slots taken
    are exactly the connections handed to the server and not yet closed, never more than the
    limit; the next one is served exactly when fewer are open, and otherwise only greeted. *)
Theorem slots_exact max greeting l h id :
  Listen max greeting = Some l -> NoDup (omap offered h) ->
  let l' := net_run l h in
  ln_slots l' = length (open_conns l') /\ Z.of_nat (ln_slots l') <= max /\
  (fst (Accept id l') = Admitted_ <-> Z.of_nat (length (open_conns l')) < max).
Proof.
  unfold Listen. destruct (Z.leb_spec max 0) as [|Hmax]; [done|].
  intros [= <-] Hnd.
  set (l' := net_run (Listener (Z.to_nat max) greeting 0 []) h).
  assert (Hwf : net_wf l').
  { apply net_run_wf; [done|intros id' _; cbn; by intros ?%elem_of_nil|]. split_and!; [constructor|done|cbn; lia]. }
  assert (Em : ln_max l' = Z.to_nat max).
  { unfold l', net_run. assert (H : forall h l, ln_max (fold_left net_step h l) = ln_max l); [|apply H].
    clear. induction h as [|e h IH]; intros l; [done|]. cbn. rewrite IH. destruct e; cbn.
    - unfold Accept. by destruct (_ <? _)%nat.
    - unfold Close. destruct (find _ _) as [c|]; [|done]. by destruct (li_released c). }
  destruct Hwf as (_ & Hs & Hm). rewrite Em in Hm. split_and!; [done|lia|]. unfold Accept. rewrite Em.
  destruct (Nat.ltb_spec (ln_slots l') (Z.to_nat max)); cbn; split; [lia|done|done|lia].
Qed.

(** Three are offered to two slots, the first is closed twice, a fourth comes. *)
Lemma slots_exact_witness :
  exists l, Listen 2 "421 busy"%string = Some l /\
    let l' := net_run l [Offered 1; Offered 2; Offered 3; Closed_ 1; Closed_ 1; Offered 4] in
    map li_id (open_conns l') = [2; 4] /\ Z.of_nat (ln_slots l') <= 2 /\
    (fst (Accept 5 l') = Admitted_ <-> Z.of_nat (length (open_conns l')) < 2).
Proof.
  eexists. split; [reflexivity|]. split; [reflexivity|].
  destruct (slots_exact 2 "421 busy"%string _ [Offered 1; Offered 2; Offered 3; Closed_ 1; Closed_ 1; Offered 4] 5 eq_refl)
    as (_ & H2 & H3); [repeat constructor; set_solver|]. split; [exact H2|exact H3].
Defined.

(** An entry that is an address trusts that address and no other. *)
Lemma parse_entry_exact entry a n b :
  "/"%char ∉ entry -> ParseIP entry = Some a -> parse_entry entry = Ok n ->
  (forall x, unmap b = V4 x -> 0 <= x) -> (forall x, unmap a = V4 x -> 0 <= x) ->
  ipnet_contains n b = bool_decide (unmap a = unmap b).
Proof.
  intros Hs Ha. unfold parse_entry. rewrite bool_decide_eq_false_2 by done. cbn [negb]. rewrite Ha.
  unfold ipnet_contains. destruct (unmap a) as [v|v] eqn:Ea, (unmap b) as [w|w] eqn:Eb; intros [= <-] Hb Hav; cbn;
    try (by rewrite bool_decide_eq_false_2).
  - rewrite !Z.shiftr_0_r. destruct (Z.eqb_spec v w) as [->|]; [by rewrite bool_decide_eq_true_2|].
    rewrite bool_decide_eq_false_2; [done|congruence].
  - rewrite !Z.shiftr_0_r. destruct (Z.eqb_spec v w) as [->|]; [by rewrite bool_decide_eq_true_2|].
    rewrite bool_decide_eq_false_2; [done|congruence].
Qed.

Example trusted_ex :
  match ParseTrusted [T " 10.0.0.0/8"; T ""; T "2001:db8::7"; T "::ffff:192.0.2.0/120"] with
  | Ok l => map (fun s => Trusted (OtherAddr s) l) [T "10.1.2.3:9"; T "[2001:db8::7]:9"; T "192.0.2.200:1"; T "192.0.3.1:1"; T "bad"]
  | Err _ => []
  end = [true; true; true; false; false].
Proof. vm_compute. reflexivity. Qed.
