(* ===== verification/Config.v ===== *)
(** * The settings of the process (internal/config)

    A section of the file is a record with the names of the source after the name of the section.
    [Default], the variables of the environment ([applyEnv]: every variable belongs to one setting,
    so a record is rebuilt setting by setting), the checks of [Validate] in their order, and the
    values derived from the settings.  Reading the file and YAML are a class; a duration is in
    nanoseconds, an [int] is an [int64]. *)

From S2P Require Import Prelude GoStrings Times Errors Net Netlimit.
Open Scope Z_scope.

Definition BouncesAuthenticated : text := "authenticated"%string.
Definition BouncesOff : text := "off"%string.

Definition RoleAdmin : text := "admin"%string.
Definition RoleOperator : text := "operator"%string.
Definition RoleViewer : text := "viewer"%string.
Definition NodePrimary : text := "primary"%string.
Definition NodeFollower : text := "follower"%string.

(** ** The sections *)

Record SMTPConfig := {
  SMTP_Addr : text;
  SMTP_Hostname : text;
  SMTP_MaxMessageBytes : Z;
  SMTP_MaxRecipients : Z;
  SMTP_ReadTimeout : Z;
  SMTP_WriteTimeout : Z;
  SMTP_MaxConnections : Z;
  SMTP_TLSCert : text;
  SMTP_TLSKey : text;
  SMTP_SenderAuth : bool;
  SMTP_ProxyProtocolTrusted : list text
}.

Record ACMEConfig := {
  ACME_Enabled : bool;
  ACME_Domains : list text;
  ACME_Email : text;
  ACME_CacheDir : text;
  ACME_ChallengeAddr : text;
  ACME_DirectoryURL : text;
  ACME_TermsAgreed : bool;
  ACME_RenewBefore : Z
}.

Record HTTPConfig := {
  HTTP_Addr : text;
  HTTP_BaseURL : text;
  HTTP_SessionTTL : Z;
  HTTP_TLSCert : text;
  HTTP_TLSKey : text;
  HTTP_ACME : ACMEConfig
}.

Record QueueConfig := {
  Queue_MaxMessages : Z;
  Queue_MaxBytes : Z;
  Queue_MinFreeDiskBytes : Z;
  Queue_Retention : Z;
  Queue_Workers : Z;
  Queue_RetryBase : Z;
  Queue_RetryMax : Z;
  Queue_DeliveryTimeout : Z;
  Queue_Bounces : text;
  Queue_AllowPrivateDestinations : bool
}.

Record HealthConfig := {
  Health_Interval : Z;
  Health_Timeout : Z;
  Health_FailureThreshold : Z;
  Health_SuccessThreshold : Z
}.

Record MetricsConfig := {
  Metrics_Enabled : bool;
  Metrics_Token : text
}.

Record SpamConfig := {
  Spam_Enabled : bool;
  Spam_URL : text;
  Spam_Password : text;
  Spam_Timeout : Z;
  Spam_MaxSizeBytes : Z;
  Spam_RejectEnabled : bool;
  Spam_DeferEnabled : bool
}.

Record OutboundConfig := {
  Outbound_Enabled : bool;
  Outbound_Addr : text;
  Outbound_Mode : text;
  Outbound_RelayHost : text;
  Outbound_RelayPort : Z;
  Outbound_RelayTLS : text;
  Outbound_RelayUsername : text;
  Outbound_RelayPassword : text;
  Outbound_MaxMessageBytes : Z;
  Outbound_MaxConnections : Z;
  Outbound_RequireTLS : bool
}.

Record WebhookConfig := {
  AlertWebhook_URL : text;
  AlertWebhook_Secret : text;
  AlertWebhook_Timeout : Z
}.

Record AlertEmailConfig := {
  AlertEmail_To : list text;
  AlertEmail_From : text;
  AlertEmail_Host : text;
  AlertEmail_Port : Z;
  AlertEmail_Username : text;
  AlertEmail_Password : text;
  AlertEmail_TLS : text
}.

Record AlertConfig := {
  Alerts_Enabled : bool;
  Alerts_PrimaryDownAfter : Z;
  Alerts_MinInterval : Z;
  Alerts_Webhook : WebhookConfig;
  Alerts_Email : AlertEmailConfig
}.

Record BackupConfig := {
  Backup_Enabled : bool;
  Backup_Dir : text;
  Backup_Interval : Z;
  Backup_Keep : Z
}.

Record WebhooksConfig := {
  Webhooks_Enabled : bool;
  Webhooks_Workers : Z;
  Webhooks_Timeout : Z;
  Webhooks_MaxAttempts : Z;
  Webhooks_RetryBase : Z;
  Webhooks_RetryMax : Z;
  Webhooks_Retention : Z
}.

Record OIDCConfig := {
  OIDC_Enabled : bool;
  OIDC_Issuer : text;
  OIDC_ClientID : text;
  OIDC_ClientSecret : text;
  OIDC_RedirectURL : text;
  OIDC_Scopes : list text;
  OIDC_AutoProvision : bool;
  OIDC_DefaultRole : text;
  OIDC_AllowedDomains : list text;
  OIDC_AllowPasswordLogin : bool;
  OIDC_SkipEmailVerified : bool;
  OIDC_HostedDomain : text;
  OIDC_RolesClaim : text;
  OIDC_AdminGroups : list text;
  OIDC_OperatorGroups : list text;
  OIDC_ViewerGroups : list text
}.

Record ClusterConfig := {
  Cluster_Enabled : bool;
  Cluster_NodeID : text;
  Cluster_Role : text;
  Cluster_PrimaryNodeID : text;
  Cluster_AdvertiseURL : text;
  Cluster_Peers : list text;
  Cluster_Secret : text;
  Cluster_Interval : Z;
  Cluster_Timeout : Z;
  Cluster_SyncConfig : bool
}.

Record LogConfig := {
  Log_Level : text;
  Log_Format : text
}.

Record DNSBLConfig := {
  DNSBL_Enabled : bool;
  DNSBL_Zones : list text;
  DNSBL_Timeout : Z;
  DNSBL_Whitelist : list text
}.

Record ClamAVConfig := {
  ClamAV_Enabled : bool;
  ClamAV_Addr : text;
  ClamAV_Timeout : Z;
  ClamAV_Action : text;
  ClamAV_MaxSizeBytes : Z
}.

Record MaintenanceConfig := {
  Maintenance_Drain : bool
}.

Record Config := {
  cfg_DataDir : text;
  cfg_SMTP : SMTPConfig;
  cfg_HTTP : HTTPConfig;
  cfg_Queue : QueueConfig;
  cfg_Health : HealthConfig;
  cfg_Metrics : MetricsConfig;
  cfg_Spam : SpamConfig;
  cfg_Outbound : OutboundConfig;
  cfg_Alerts : AlertConfig;
  cfg_Backup : BackupConfig;
  cfg_Webhooks : WebhooksConfig;
  cfg_OIDC : OIDCConfig;
  cfg_Cluster : ClusterConfig;
  cfg_Log : LogConfig;
  cfg_DNSBL : DNSBLConfig;
  cfg_ClamAV : ClamAVConfig;
  cfg_Maintenance : MaintenanceConfig
}.

(** ** The defaults *)

Definition Default : Config :=
  {| cfg_DataDir := "/var/lib/xeronmx"%string;
     cfg_SMTP := {| SMTP_Addr := ":25"%string; SMTP_Hostname := []; SMTP_MaxMessageBytes := Z.shiftl 50 20;
         SMTP_MaxRecipients := 100; SMTP_ReadTimeout := 5 * minute; SMTP_WriteTimeout := 5 * minute;
         SMTP_MaxConnections := 200; SMTP_TLSCert := []; SMTP_TLSKey := []; SMTP_SenderAuth := true;
         SMTP_ProxyProtocolTrusted := [] |};
     cfg_HTTP := {| HTTP_Addr := ":8080"%string; HTTP_BaseURL := []; HTTP_SessionTTL := 7 * 24 * hour;
         HTTP_TLSCert := []; HTTP_TLSKey := [];
         HTTP_ACME := {| ACME_Enabled := false; ACME_Domains := []; ACME_Email := []; ACME_CacheDir := [];
             ACME_ChallengeAddr := ":80"%string; ACME_DirectoryURL := []; ACME_TermsAgreed := false;
             ACME_RenewBefore := 0 |} |};
     cfg_Queue := {| Queue_MaxMessages := 100000; Queue_MaxBytes := Z.shiftl 20 30;
         Queue_MinFreeDiskBytes := Z.shiftl 1 30; Queue_Retention := 7 * 24 * hour; Queue_Workers := 4;
         Queue_RetryBase := 1 * minute; Queue_RetryMax := 2 * hour; Queue_DeliveryTimeout := 5 * minute;
         Queue_Bounces := BouncesAuthenticated; Queue_AllowPrivateDestinations := false |};
     cfg_Health := {| Health_Interval := 30 * second; Health_Timeout := 10 * second; Health_FailureThreshold := 3;
         Health_SuccessThreshold := 2 |};
     cfg_Metrics := {| Metrics_Enabled := true; Metrics_Token := [] |};
     cfg_Spam := {| Spam_Enabled := false; Spam_URL := []; Spam_Password := []; Spam_Timeout := 10 * second;
         Spam_MaxSizeBytes := Z.shiftl 10 20; Spam_RejectEnabled := false; Spam_DeferEnabled := true |};
     cfg_Outbound := {| Outbound_Enabled := false; Outbound_Addr := ":587"%string; Outbound_Mode := "relay"%string;
         Outbound_RelayHost := []; Outbound_RelayPort := 587; Outbound_RelayTLS := "starttls"%string;
         Outbound_RelayUsername := []; Outbound_RelayPassword := [];
         Outbound_MaxMessageBytes := Z.shiftl 50 20; Outbound_MaxConnections := 100;
         Outbound_RequireTLS := true |};
     cfg_Alerts := {| Alerts_Enabled := false; Alerts_PrimaryDownAfter := 5 * minute; Alerts_MinInterval := 30 * minute;
         Alerts_Webhook := {| AlertWebhook_URL := []; AlertWebhook_Secret := []; AlertWebhook_Timeout := 10 * second |};
         Alerts_Email := {| AlertEmail_To := []; AlertEmail_From := []; AlertEmail_Host := []; AlertEmail_Port := 587;
             AlertEmail_Username := []; AlertEmail_Password := []; AlertEmail_TLS := "starttls"%string |} |};
     cfg_Backup := {| Backup_Enabled := false; Backup_Dir := []; Backup_Interval := 24 * hour; Backup_Keep := 7 |};
     cfg_Webhooks := {| Webhooks_Enabled := true; Webhooks_Workers := 2; Webhooks_Timeout := 10 * second;
         Webhooks_MaxAttempts := 8; Webhooks_RetryBase := 30 * second; Webhooks_RetryMax := hour;
         Webhooks_Retention := 7 * 24 * hour |};
     cfg_OIDC := {| OIDC_Enabled := false; OIDC_Issuer := []; OIDC_ClientID := []; OIDC_ClientSecret := [];
         OIDC_RedirectURL := []; OIDC_Scopes := [T "openid"; T "email"; T "profile"];
         OIDC_AutoProvision := false; OIDC_DefaultRole := "viewer"%string; OIDC_AllowedDomains := [];
         OIDC_AllowPasswordLogin := true; OIDC_SkipEmailVerified := false; OIDC_HostedDomain := [];
         OIDC_RolesClaim := []; OIDC_AdminGroups := []; OIDC_OperatorGroups := []; OIDC_ViewerGroups := [] |};
     cfg_Cluster := {| Cluster_Enabled := false; Cluster_NodeID := []; Cluster_Role := "follower"%string;
         Cluster_PrimaryNodeID := []; Cluster_AdvertiseURL := []; Cluster_Peers := []; Cluster_Secret := [];
         Cluster_Interval := 30 * second; Cluster_Timeout := 10 * second; Cluster_SyncConfig := false |};
     cfg_Log := {| Log_Level := "info"%string; Log_Format := "json"%string |};
     cfg_DNSBL := {| DNSBL_Enabled := false; DNSBL_Zones := [T "zen.spamhaus.org"; T "bl.spamcop.net"];
         DNSBL_Timeout := 2500 * 1000000; DNSBL_Whitelist := [] |};
     cfg_ClamAV := {| ClamAV_Enabled := false; ClamAV_Addr := "localhost:3310"%string; ClamAV_Timeout := 10 * second;
         ClamAV_Action := "quarantine"%string; ClamAV_MaxSizeBytes := Z.shiftl 25 20 |};
     cfg_Maintenance := {| Maintenance_Drain := false |} |}.

(** ** The environment *)

Section env.
Context (LookupEnv : text -> option text).

(** [strconv.ParseBool]. *)
Definition ParseBool (s : text) : option bool :=
  if bool_decide (s ∈ map T ["1"; "t"; "T"; "true"; "TRUE"; "True"]%string) then Some true
  else if bool_decide (s ∈ map T ["0"; "f"; "F"; "false"; "FALSE"; "False"]%string) then Some false
  else None.

Definition splitList (v : text) : list text :=
  List.filter (fun p => negb (bool_decide (p = []))) (map trim_space (split_byte ","%char v)).

Definition str (key dst : text) : text := default dst (LookupEnv key).

(** A value that does not parse is ignored. *)
Definition parsed {A} (parse : text -> option A) (key : text) (dst : A) : A := default dst (LookupEnv key ≫= parse).
Definition num : text -> Z -> Z := parsed ParseInt64.
Definition boolean : text -> bool -> bool := parsed ParseBool.
Definition dur : text -> Z -> Z := parsed ParseDuration.

(** The three ways to read a list; an empty value is no value for two of them. *)
Definition given (v : text) : option text := if bool_decide (v = []) then None else Some v.
Definition list_ : text -> list text -> list text := parsed (fun v => splitList <$> given v).
Definition trimmed : text -> list text -> list text := parsed (fun v => map trim_space ∘ split_byte ","%char <$> given v).
Definition split : text -> list text -> list text := parsed (fun v => Some (split_byte ","%char v)).

Definition env_SMTP (c : SMTPConfig) : SMTPConfig :=
  {| SMTP_Addr := str "XERONMX_SMTP_ADDR"%string (SMTP_Addr c);
     SMTP_Hostname := str "XERONMX_SMTP_HOSTNAME"%string (SMTP_Hostname c);
     SMTP_MaxMessageBytes := num "XERONMX_SMTP_MAX_MESSAGE_BYTES"%string (SMTP_MaxMessageBytes c);
     SMTP_MaxRecipients := SMTP_MaxRecipients c; SMTP_ReadTimeout := SMTP_ReadTimeout c;
     SMTP_WriteTimeout := SMTP_WriteTimeout c;
     SMTP_MaxConnections := num "XERONMX_SMTP_MAX_CONNECTIONS"%string (SMTP_MaxConnections c);
     SMTP_TLSCert := str "XERONMX_SMTP_TLS_CERT"%string (SMTP_TLSCert c);
     SMTP_TLSKey := str "XERONMX_SMTP_TLS_KEY"%string (SMTP_TLSKey c);
     SMTP_SenderAuth := boolean "XERONMX_SMTP_SENDER_AUTH"%string (SMTP_SenderAuth c);
     SMTP_ProxyProtocolTrusted := split "XERONMX_SMTP_PROXY_PROTOCOL_TRUSTED"%string (SMTP_ProxyProtocolTrusted c) |}.

Definition env_ACME (c : ACMEConfig) : ACMEConfig :=
  {| ACME_Enabled := boolean "XERONMX_ACME_ENABLED"%string (ACME_Enabled c);
     ACME_Domains := trimmed "XERONMX_ACME_DOMAINS"%string (ACME_Domains c);
     ACME_Email := str "XERONMX_ACME_EMAIL"%string (ACME_Email c);
     ACME_CacheDir := str "XERONMX_ACME_CACHE_DIR"%string (ACME_CacheDir c);
     ACME_ChallengeAddr := str "XERONMX_ACME_CHALLENGE_ADDR"%string (ACME_ChallengeAddr c);
     ACME_DirectoryURL := str "XERONMX_ACME_DIRECTORY_URL"%string (ACME_DirectoryURL c);
     ACME_TermsAgreed := boolean "XERONMX_ACME_TERMS_AGREED"%string (ACME_TermsAgreed c);
     ACME_RenewBefore := dur "XERONMX_ACME_RENEW_BEFORE"%string (ACME_RenewBefore c) |}.

Definition env_HTTP (c : HTTPConfig) : HTTPConfig :=
  {| HTTP_Addr := str "XERONMX_HTTP_ADDR"%string (HTTP_Addr c);
     HTTP_BaseURL := str "XERONMX_HTTP_BASE_URL"%string (HTTP_BaseURL c); HTTP_SessionTTL := HTTP_SessionTTL c;
     HTTP_TLSCert := str "XERONMX_HTTP_TLS_CERT"%string (HTTP_TLSCert c);
     HTTP_TLSKey := str "XERONMX_HTTP_TLS_KEY"%string (HTTP_TLSKey c); HTTP_ACME := env_ACME (HTTP_ACME c) |}.

Definition env_Queue (c : QueueConfig) : QueueConfig :=
  {| Queue_MaxMessages := num "XERONMX_QUEUE_MAX_MESSAGES"%string (Queue_MaxMessages c);
     Queue_MaxBytes := num "XERONMX_QUEUE_MAX_BYTES"%string (Queue_MaxBytes c);
     Queue_MinFreeDiskBytes := num "XERONMX_QUEUE_MIN_FREE_DISK_BYTES"%string (Queue_MinFreeDiskBytes c);
     Queue_Retention := dur "XERONMX_QUEUE_RETENTION"%string (Queue_Retention c);
     Queue_Workers := num "XERONMX_QUEUE_WORKERS"%string (Queue_Workers c);
     Queue_RetryBase := Queue_RetryBase c; Queue_RetryMax := Queue_RetryMax c;
     Queue_DeliveryTimeout := Queue_DeliveryTimeout c;
     Queue_Bounces := str "XERONMX_QUEUE_BOUNCES"%string (Queue_Bounces c);
     Queue_AllowPrivateDestinations := boolean "XERONMX_QUEUE_ALLOW_PRIVATE_DESTINATIONS"%string (Queue_AllowPrivateDestinations c) |}.

Definition env_Health (c : HealthConfig) : HealthConfig :=
  {| Health_Interval := dur "XERONMX_HEALTH_INTERVAL"%string (Health_Interval c);
     Health_Timeout := Health_Timeout c; Health_FailureThreshold := Health_FailureThreshold c;
     Health_SuccessThreshold := Health_SuccessThreshold c |}.

Definition env_Metrics (c : MetricsConfig) : MetricsConfig :=
  {| Metrics_Enabled := boolean "XERONMX_METRICS_ENABLED"%string (Metrics_Enabled c);
     Metrics_Token := str "XERONMX_METRICS_TOKEN"%string (Metrics_Token c) |}.

Definition env_Spam (c : SpamConfig) : SpamConfig :=
  {| Spam_Enabled := boolean "XERONMX_SPAM_ENABLED"%string (Spam_Enabled c);
     Spam_URL := str "XERONMX_SPAM_URL"%string (Spam_URL c);
     Spam_Password := str "XERONMX_SPAM_PASSWORD"%string (Spam_Password c);
     Spam_Timeout := dur "XERONMX_SPAM_TIMEOUT"%string (Spam_Timeout c);
     Spam_MaxSizeBytes := Spam_MaxSizeBytes c;
     Spam_RejectEnabled := boolean "XERONMX_SPAM_REJECT_ENABLED"%string (Spam_RejectEnabled c);
     Spam_DeferEnabled := Spam_DeferEnabled c |}.

Definition env_Outbound (c : OutboundConfig) : OutboundConfig :=
  {| Outbound_Enabled := boolean "XERONMX_OUTBOUND_ENABLED"%string (Outbound_Enabled c);
     Outbound_Addr := str "XERONMX_OUTBOUND_ADDR"%string (Outbound_Addr c);
     Outbound_Mode := str "XERONMX_OUTBOUND_MODE"%string (Outbound_Mode c);
     Outbound_RelayHost := str "XERONMX_OUTBOUND_RELAY_HOST"%string (Outbound_RelayHost c);
     Outbound_RelayPort := num "XERONMX_OUTBOUND_RELAY_PORT"%string (Outbound_RelayPort c);
     Outbound_RelayTLS := str "XERONMX_OUTBOUND_RELAY_TLS"%string (Outbound_RelayTLS c);
     Outbound_RelayUsername := str "XERONMX_OUTBOUND_RELAY_USERNAME"%string (Outbound_RelayUsername c);
     Outbound_RelayPassword := str "XERONMX_OUTBOUND_RELAY_PASSWORD"%string (Outbound_RelayPassword c);
     Outbound_MaxMessageBytes := Outbound_MaxMessageBytes c;
     Outbound_MaxConnections := num "XERONMX_OUTBOUND_MAX_CONNECTIONS"%string (Outbound_MaxConnections c);
     Outbound_RequireTLS := boolean "XERONMX_OUTBOUND_REQUIRE_TLS"%string (Outbound_RequireTLS c) |}.

Definition env_AlertWebhook (c : WebhookConfig) : WebhookConfig :=
  {| AlertWebhook_URL := str "XERONMX_ALERTS_WEBHOOK_URL"%string (AlertWebhook_URL c);
     AlertWebhook_Secret := str "XERONMX_ALERTS_WEBHOOK_SECRET"%string (AlertWebhook_Secret c);
     AlertWebhook_Timeout := AlertWebhook_Timeout c |}.

Definition env_AlertEmail (c : AlertEmailConfig) : AlertEmailConfig :=
  {| AlertEmail_To := trimmed "XERONMX_ALERTS_EMAIL_TO"%string (AlertEmail_To c);
     AlertEmail_From := str "XERONMX_ALERTS_EMAIL_FROM"%string (AlertEmail_From c);
     AlertEmail_Host := str "XERONMX_ALERTS_EMAIL_HOST"%string (AlertEmail_Host c);
     AlertEmail_Port := num "XERONMX_ALERTS_EMAIL_PORT"%string (AlertEmail_Port c);
     AlertEmail_Username := str "XERONMX_ALERTS_EMAIL_USERNAME"%string (AlertEmail_Username c);
     AlertEmail_Password := str "XERONMX_ALERTS_EMAIL_PASSWORD"%string (AlertEmail_Password c);
     AlertEmail_TLS := str "XERONMX_ALERTS_EMAIL_TLS"%string (AlertEmail_TLS c) |}.

Definition env_Alerts (c : AlertConfig) : AlertConfig :=
  {| Alerts_Enabled := boolean "XERONMX_ALERTS_ENABLED"%string (Alerts_Enabled c);
     Alerts_PrimaryDownAfter := dur "XERONMX_ALERTS_PRIMARY_DOWN_AFTER"%string (Alerts_PrimaryDownAfter c);
     Alerts_MinInterval := dur "XERONMX_ALERTS_MIN_INTERVAL"%string (Alerts_MinInterval c);
     Alerts_Webhook := env_AlertWebhook (Alerts_Webhook c); Alerts_Email := env_AlertEmail (Alerts_Email c) |}.

Definition env_Backup (c : BackupConfig) : BackupConfig :=
  {| Backup_Enabled := boolean "XERONMX_BACKUP_ENABLED"%string (Backup_Enabled c);
     Backup_Dir := str "XERONMX_BACKUP_DIR"%string (Backup_Dir c);
     Backup_Interval := dur "XERONMX_BACKUP_INTERVAL"%string (Backup_Interval c);
     Backup_Keep := num "XERONMX_BACKUP_KEEP"%string (Backup_Keep c) |}.

Definition env_Webhooks (c : WebhooksConfig) : WebhooksConfig :=
  {| Webhooks_Enabled := boolean "XERONMX_WEBHOOKS_ENABLED"%string (Webhooks_Enabled c);
     Webhooks_Workers := Webhooks_Workers c;
     Webhooks_Timeout := dur "XERONMX_WEBHOOKS_TIMEOUT"%string (Webhooks_Timeout c);
     Webhooks_MaxAttempts := num "XERONMX_WEBHOOKS_MAX_ATTEMPTS"%string (Webhooks_MaxAttempts c);
     Webhooks_RetryBase := Webhooks_RetryBase c; Webhooks_RetryMax := Webhooks_RetryMax c;
     Webhooks_Retention := dur "XERONMX_WEBHOOKS_RETENTION"%string (Webhooks_Retention c) |}.

Definition env_OIDC (c : OIDCConfig) : OIDCConfig :=
  {| OIDC_Enabled := boolean "XERONMX_OIDC_ENABLED"%string (OIDC_Enabled c);
     OIDC_Issuer := str "XERONMX_OIDC_ISSUER"%string (OIDC_Issuer c);
     OIDC_ClientID := str "XERONMX_OIDC_CLIENT_ID"%string (OIDC_ClientID c);
     OIDC_ClientSecret := str "XERONMX_OIDC_CLIENT_SECRET"%string (OIDC_ClientSecret c);
     OIDC_RedirectURL := str "XERONMX_OIDC_REDIRECT_URL"%string (OIDC_RedirectURL c);
     OIDC_Scopes := list_ "XERONMX_OIDC_SCOPES"%string (OIDC_Scopes c);
     OIDC_AutoProvision := boolean "XERONMX_OIDC_AUTO_PROVISION"%string (OIDC_AutoProvision c);
     OIDC_DefaultRole := str "XERONMX_OIDC_DEFAULT_ROLE"%string (OIDC_DefaultRole c);
     OIDC_AllowedDomains := list_ "XERONMX_OIDC_ALLOWED_DOMAINS"%string (OIDC_AllowedDomains c);
     OIDC_AllowPasswordLogin := boolean "XERONMX_OIDC_ALLOW_PASSWORD_LOGIN"%string (OIDC_AllowPasswordLogin c);
     OIDC_SkipEmailVerified := OIDC_SkipEmailVerified c; OIDC_HostedDomain := OIDC_HostedDomain c;
     OIDC_RolesClaim := str "XERONMX_OIDC_ROLES_CLAIM"%string (OIDC_RolesClaim c);
     OIDC_AdminGroups := list_ "XERONMX_OIDC_ADMIN_GROUPS"%string (OIDC_AdminGroups c);
     OIDC_OperatorGroups := list_ "XERONMX_OIDC_OPERATOR_GROUPS"%string (OIDC_OperatorGroups c);
     OIDC_ViewerGroups := list_ "XERONMX_OIDC_VIEWER_GROUPS"%string (OIDC_ViewerGroups c) |}.

Definition env_Cluster (c : ClusterConfig) : ClusterConfig :=
  {| Cluster_Enabled := boolean "XERONMX_CLUSTER_ENABLED"%string (Cluster_Enabled c);
     Cluster_NodeID := str "XERONMX_CLUSTER_NODE_ID"%string (Cluster_NodeID c);
     Cluster_Role := str "XERONMX_CLUSTER_ROLE"%string (Cluster_Role c);
     Cluster_PrimaryNodeID := str "XERONMX_CLUSTER_PRIMARY_NODE_ID"%string (Cluster_PrimaryNodeID c);
     Cluster_AdvertiseURL := str "XERONMX_CLUSTER_ADVERTISE_URL"%string (Cluster_AdvertiseURL c);
     Cluster_Peers := list_ "XERONMX_CLUSTER_PEERS"%string (Cluster_Peers c);
     Cluster_Secret := str "XERONMX_CLUSTER_SECRET"%string (Cluster_Secret c);
     Cluster_Interval := dur "XERONMX_CLUSTER_INTERVAL"%string (Cluster_Interval c);
     Cluster_Timeout := Cluster_Timeout c;
     Cluster_SyncConfig := boolean "XERONMX_CLUSTER_SYNC_CONFIG"%string (Cluster_SyncConfig c) |}.

Definition env_Log (c : LogConfig) : LogConfig :=
  {| Log_Level := str "XERONMX_LOG_LEVEL"%string (Log_Level c);
     Log_Format := str "XERONMX_LOG_FORMAT"%string (Log_Format c) |}.

Definition env_DNSBL (c : DNSBLConfig) : DNSBLConfig :=
  {| DNSBL_Enabled := boolean "XERONMX_DNSBL_ENABLED"%string (DNSBL_Enabled c);
     DNSBL_Zones := list_ "XERONMX_DNSBL_ZONES"%string (DNSBL_Zones c);
     DNSBL_Timeout := dur "XERONMX_DNSBL_TIMEOUT"%string (DNSBL_Timeout c);
     DNSBL_Whitelist := list_ "XERONMX_DNSBL_WHITELIST"%string (DNSBL_Whitelist c) |}.

Definition env_ClamAV (c : ClamAVConfig) : ClamAVConfig :=
  {| ClamAV_Enabled := boolean "XERONMX_CLAMAV_ENABLED"%string (ClamAV_Enabled c);
     ClamAV_Addr := str "XERONMX_CLAMAV_ADDR"%string (ClamAV_Addr c);
     ClamAV_Timeout := dur "XERONMX_CLAMAV_TIMEOUT"%string (ClamAV_Timeout c);
     ClamAV_Action := str "XERONMX_CLAMAV_ACTION"%string (ClamAV_Action c);
     ClamAV_MaxSizeBytes := num "XERONMX_CLAMAV_MAX_SIZE_BYTES"%string (ClamAV_MaxSizeBytes c) |}.

Definition env_Maintenance (c : MaintenanceConfig) : MaintenanceConfig :=
  {| Maintenance_Drain := boolean "XERONMX_MAINTENANCE_DRAIN"%string (Maintenance_Drain c) |}.

Definition applyEnv (c : Config) : Config :=
  {| cfg_DataDir := str "XERONMX_DATA_DIR"%string (cfg_DataDir c); cfg_SMTP := env_SMTP (cfg_SMTP c);
     cfg_HTTP := env_HTTP (cfg_HTTP c); cfg_Queue := env_Queue (cfg_Queue c);
     cfg_Health := env_Health (cfg_Health c); cfg_Metrics := env_Metrics (cfg_Metrics c);
     cfg_Spam := env_Spam (cfg_Spam c); cfg_Outbound := env_Outbound (cfg_Outbound c);
     cfg_Alerts := env_Alerts (cfg_Alerts c); cfg_Backup := env_Backup (cfg_Backup c);
     cfg_Webhooks := env_Webhooks (cfg_Webhooks c); cfg_OIDC := env_OIDC (cfg_OIDC c);
     cfg_Cluster := env_Cluster (cfg_Cluster c); cfg_Log := env_Log (cfg_Log c);
     cfg_DNSBL := env_DNSBL (cfg_DNSBL c); cfg_ClamAV := env_ClamAV (cfg_ClamAV c);
     cfg_Maintenance := env_Maintenance (cfg_Maintenance c) |}.
End env.

(** ** Derived values *)

(** [path.Clean], and [filepath.Join] of two. *)
Definition clean_step (rooted : bool) (stack : list text) (c : text) : list text :=
  if bool_decide (c = []) || bool_decide (c = T ".") then stack
  else if bool_decide (c = T "..") then
    match stack with
    | top :: rest => if bool_decide (top = T "..") then c :: stack else rest
    | [] => if rooted then [] else [c]
    end
  else c :: stack.

Definition Clean (path : text) : text :=
  let rooted := has_prefix "/"%string path in
  let body := join "/"%string (rev (fold_left (clean_step rooted) (split_byte "/"%char path) [])) in
  if rooted then "/"%string ++ body else if bool_decide (body = []) then "."%string else body.

Definition Join (dir name : text) : text := Clean (if bool_decide (dir = []) then name else dir ++ "/"%string ++ name).

Example Join_ex :
  map (fun d => Join (T d) "spool"%string) ["/var/lib/xeronmx"; "data/"; ""; "/a/../b/./"; "../x"; "."]%string
  = [T "/var/lib/xeronmx/spool"; T "data/spool"; T "spool"; T "/b/spool"; T "../x/spool"; T "spool"].
Proof. vm_compute. reflexivity. Qed.

Definition DBPath (c : Config) : text := Join (cfg_DataDir c) "xeronmx.db"%string.
Definition SpoolDir (c : Config) : text := Join (cfg_DataDir c) "spool"%string.
Definition KeyPath (c : Config) : text := Join (cfg_DataDir c) "master.key"%string.
Definition BackupDir (c : Config) : text :=
  if negb (bool_decide (Backup_Dir (cfg_Backup c) = [])) then Backup_Dir (cfg_Backup c) else Join (cfg_DataDir c) "backups"%string.
Definition ACMECacheDir (c : Config) : text :=
  let dir := ACME_CacheDir (HTTP_ACME (cfg_HTTP c)) in
  if negb (bool_decide (dir = [])) then dir else Join (cfg_DataDir c) "acme"%string.

Definition OIDCRedirectURL (c : Config) : text :=
  if negb (bool_decide (OIDC_RedirectURL (cfg_OIDC c) = [])) then OIDC_RedirectURL (cfg_OIDC c)
  else trim_right (fun x => bool_decide (x = "/"%char)) (HTTP_BaseURL (cfg_HTTP c)) ++ "/api/v1/auth/oidc/callback"%string.

(** [hostname] is [os.Hostname]. *)
Definition ClusterNodeID (hostname : result text) (c : Config) : text :=
  if negb (bool_decide (Cluster_NodeID (cfg_Cluster c) = [])) then Cluster_NodeID (cfg_Cluster c)
  else match hostname with
       | Ok h => if bool_decide (h = []) then "xeronmx"%string else h
       | Err _ => "xeronmx"%string
       end.

Definition ClusterRole (hostname : result text) (c : Config) : text :=
  let primary := Cluster_PrimaryNodeID (cfg_Cluster c) in
  if negb (bool_decide (primary = [])) then
    if equal_fold primary (ClusterNodeID hostname c) then NodePrimary else NodeFollower
  else if bool_decide (Cluster_Role (cfg_Cluster c) = NodePrimary) then NodePrimary
  else NodeFollower.

(** ** Validation *)

(** A check that fails ends the rest. *)
Definition refuse (wrong : bool) (msg : text) : option error := if wrong then Some (EText msg) else None.

Fixpoint first_refusal (checks : list (option error)) : option error :=
  match checks with
  | [] => None
  | Some e :: _ => Some e
  | None :: rest => first_refusal rest
  end.

Definition when (enabled : bool) (checks : list (option error)) : option error :=
  if enabled then first_refusal checks else None.

Definition empty {A} (l : list A) : bool := match l with [] => true | _ => false end.

Definition http_url (u : text) : bool := has_prefix "http://"%string u || has_prefix "https://"%string u.

Definition valid_port (p : Z) : bool := (1 <=? p) && (p <=? 65535).

Definition one_of (names : list text) (s : text) : bool := bool_decide (s ∈ names).

Definition check_acme (h : HTTPConfig) : option error :=
  let a := HTTP_ACME h in
  when (ACME_Enabled a)
    ([refuse (empty (ACME_Domains a)) "http.acme.domains must list at least one hostname when ACME is enabled"%string]
     ++ map (fun d => refuse (empty d || negb (contains "."%string d))
                        ("http.acme.domains contains "%string ++ quote d ++ ", which is not a hostname"%string)) (ACME_Domains a)
     ++ [refuse (negb (ACME_TermsAgreed a)) ("http.acme.terms_agreed must be true to request certificates: "%string
                                             ++ "this accepts the CA subscriber agreement on your behalf"%string);
         refuse (negb (empty (HTTP_TLSCert h))) "http.acme is enabled and http.tls_cert is set; use one or the other"%string;
         refuse (ACME_RenewBefore a <? 0) "http.acme.renew_before must not be negative"%string;
         refuse ((0 <? ACME_RenewBefore a) && (ACME_RenewBefore a <? hour))
           ("http.acme.renew_before is "%string ++ DurationString (ACME_RenewBefore a) ++ ", which leaves no room to retry a "%string
            ++ "failed renewal before the certificate expires"%string)]).

Definition check_spam (c : SpamConfig) : option error :=
  when (Spam_Enabled c)
    [refuse (empty (Spam_URL c)) "spam.url must be set when spam filtering is enabled"%string;
     refuse (negb (http_url (Spam_URL c))) ("spam.url must start with http:// or https://, got "%string ++ quote (Spam_URL c));
     refuse (Spam_Timeout c <=? 0) "spam.timeout must be positive"%string].

Definition check_dnsbl (c : DNSBLConfig) : option error :=
  when (DNSBL_Enabled c)
    ([refuse (DNSBL_Timeout c <=? 0) "dnsbl.timeout must be positive"%string;
      refuse (empty (DNSBL_Zones c)) "dnsbl.zones must not be empty when dnsbl is enabled"%string]
     ++ map (fun z => refuse (empty z) "dnsbl.zones contains an empty entry"%string) (DNSBL_Zones c)).

Definition check_clamav (c : ClamAVConfig) : option error :=
  when (ClamAV_Enabled c)
    [refuse (empty (ClamAV_Addr c)) "clamav.addr must be set when clamav is enabled"%string;
     refuse (ClamAV_Timeout c <=? 0) "clamav.timeout must be positive"%string;
     refuse (negb (one_of [T "quarantine"; T "reject"] (ClamAV_Action c)))
       ("clamav.action must be quarantine or reject, got "%string ++ quote (ClamAV_Action c));
     refuse (ClamAV_MaxSizeBytes c <? 0) "clamav.max_size_bytes must not be negative"%string].

Definition check_backup (c : BackupConfig) : option error :=
  when (Backup_Enabled c)
    [refuse (Backup_Interval c <=? 0) "backup.interval must be positive"%string;
     refuse (Backup_Keep c <? 0) "backup.keep must not be negative (0 keeps every snapshot)"%string].

Definition check_alert_email (m : AlertEmailConfig) : option error :=
  when (negb (empty (AlertEmail_To m)))
    [refuse (empty (AlertEmail_Host m)) ("alerts.email.host must be set: the relay the alerts go through, "%string
                                         ++ "which should not be the mail server this instance is watching"%string);
     refuse (empty (AlertEmail_From m)) "alerts.email.from must be set"%string;
     refuse (negb (valid_port (AlertEmail_Port m))) "alerts.email.port must be between 1 and 65535"%string;
     refuse (negb (one_of [T ""; T "none"; T "opportunistic"; T "starttls"; T "tls"] (AlertEmail_TLS m)))
       "alerts.email.tls must be one of: none, opportunistic, starttls, tls"%string].

Definition check_alerts (c : AlertConfig) : option error :=
  let u := AlertWebhook_URL (Alerts_Webhook c) in
  when (Alerts_Enabled c)
    [refuse (empty u && empty (AlertEmail_To (Alerts_Email c)))
       ("alerts.enabled is on but neither alerts.webhook.url nor "%string
        ++ "alerts.email.to is set, so nothing would ever be sent"%string);
     refuse (negb (empty u) && negb (http_url u)) ("alerts.webhook.url must start with http:// or https://, got "%string ++ quote u);
     check_alert_email (Alerts_Email c)].

Definition check_outbound (c : OutboundConfig) : option error :=
  when (Outbound_Enabled c)
    [if bool_decide (Outbound_Mode c = T "relay") then
       first_refusal
         [refuse (empty (Outbound_RelayHost c)) ("outbound.relay_host must be set in relay mode: "%string
                                                 ++ "the smarthost that actually sends the mail"%string);
          refuse (negb (valid_port (Outbound_RelayPort c))) "outbound.relay_port must be between 1 and 65535"%string]
     else refuse (negb (bool_decide (Outbound_Mode c = T "direct")))
            ("outbound.mode must be relay or direct, got "%string ++ quote (Outbound_Mode c));
     refuse (empty (Outbound_Addr c)) "outbound.addr must be set when outbound submission is enabled"%string;
     refuse (Outbound_MaxMessageBytes c <=? 0) "outbound.max_message_bytes must be positive"%string].

Definition check_webhooks (c : WebhooksConfig) : option error :=
  when (Webhooks_Enabled c)
    [refuse (Webhooks_Workers c <=? 0) "webhooks.workers must be positive"%string;
     refuse (Webhooks_MaxAttempts c <=? 0) "webhooks.max_attempts must be positive"%string;
     refuse ((Webhooks_RetryBase c <=? 0) || (Webhooks_RetryMax c <? Webhooks_RetryBase c))
       "webhooks.retry_max must be >= webhooks.retry_base, both positive"%string;
     refuse (Webhooks_Timeout c <=? 0) "webhooks.timeout must be positive"%string].

Definition check_oidc (h : HTTPConfig) (c : OIDCConfig) : option error :=
  when (OIDC_Enabled c)
    ([refuse (empty (OIDC_Issuer c)) "oidc.issuer must be set when OIDC is enabled"%string;
      refuse (negb (has_prefix "https://"%string (OIDC_Issuer c))) ("oidc.issuer must start with https://, got "%string ++ quote (OIDC_Issuer c));
      refuse (empty (OIDC_ClientID c)) "oidc.client_id must be set when OIDC is enabled"%string;
      refuse (empty (OIDC_RedirectURL c) && empty (HTTP_BaseURL h))
        ("either oidc.redirect_url or http.base_url must be set: "%string
         ++ "the provider has to be told exactly where to send the browser back"%string);
      refuse (negb (one_of [RoleAdmin; RoleOperator; RoleViewer] (OIDC_DefaultRole c)))
        ("oidc.default_role must be admin, operator or viewer, got "%string ++ quote (OIDC_DefaultRole c))]
     ++ map (fun d => refuse (empty d || existsb (fun x => bool_decide (x ∈ T "@ ")) d)
                        ("oidc.allowed_domains contains "%string ++ quote d ++ ", which is not a bare domain"%string)) (OIDC_AllowedDomains c)).

Definition check_cluster (hostname : result text) (c : Config) : option error :=
  let k := cfg_Cluster c in
  when (Cluster_Enabled k)
    ([refuse (empty (Cluster_Secret k)) ("cluster.secret must be set when clustering is enabled: "%string
                                         ++ "the cluster endpoints hand out configuration and must not be open"%string);
      refuse (length (Cluster_Secret k) <? 16)%nat "cluster.secret must be at least 16 characters"%string;
      refuse (empty (Cluster_PrimaryNodeID k) && negb (one_of [NodePrimary; NodeFollower] (Cluster_Role k)))
        ("cluster.role must be primary or follower, got "%string ++ quote (Cluster_Role k));
      refuse (Cluster_Interval k <=? 0) "cluster.interval must be positive"%string;
      refuse (Cluster_Timeout k <=? 0) "cluster.timeout must be positive"%string]
     ++ map (fun peer => refuse (negb (http_url peer))
                           ("cluster.peers contains "%string ++ quote peer ++ "; peers are URLs, "%string
                            ++ "for example https://mx2.example.com"%string)) (Cluster_Peers k)
     ++ [refuse (Cluster_SyncConfig k && bool_decide (ClusterRole hostname c = NodeFollower) && empty (Cluster_Peers k))
           ("cluster.sync_config is on for a follower with no peers, "%string
            ++ "so there is nothing to pull configuration from"%string)]).

(** [None] when the settings are accepted. *)
Definition Validate (hostname : result text) (c : Config) : option error :=
  let smtp := cfg_SMTP c in
  let q := cfg_Queue c in
  let http := cfg_HTTP c in
  first_refusal [
    match ParseTrusted (SMTP_ProxyProtocolTrusted smtp) with
    | Err e => Some (EWrap "smtp.proxy_protocol_trusted"%string e)
    | Ok _ => None
    end;
    refuse (empty (cfg_DataDir c)) "data_dir must not be empty"%string;
    refuse (SMTP_MaxMessageBytes smtp <=? 0) "smtp.max_message_bytes must be positive"%string;
    refuse (SMTP_MaxConnections smtp <? 0) "smtp.max_connections must not be negative (0 means no limit)"%string;
    refuse (Outbound_MaxConnections (cfg_Outbound c) <? 0)
      "outbound.max_connections must not be negative (0 means no limit)"%string;
    refuse (Queue_Workers q <=? 0) "queue.workers must be positive"%string;
    refuse ((Queue_RetryBase q <=? 0) || (Queue_RetryMax q <? Queue_RetryBase q))
      "queue.retry_max must be >= queue.retry_base, both positive"%string;
    refuse (Queue_Retention q <=? 0) "queue.retention must be positive"%string;
    refuse (negb (one_of [BouncesAuthenticated; BouncesOff] (Queue_Bounces q)))
      ("queue.bounces must be "%string ++ quote BouncesAuthenticated ++ " or "%string ++ quote BouncesOff);
    refuse (bool_decide (Queue_Bounces q = BouncesAuthenticated) && negb (SMTP_SenderAuth smtp))
      ("queue.bounces: "%string ++ quote BouncesAuthenticated
       ++ " needs smtp.sender_auth, which is what decides who is authenticated"%string);
    refuse (Queue_MinFreeDiskBytes q <? 0) "queue.min_free_disk_bytes must not be negative (0 to disable)"%string;
    refuse ((Health_FailureThreshold (cfg_Health c) <=? 0) || (Health_SuccessThreshold (cfg_Health c) <=? 0))
      "health thresholds must be positive"%string;
    refuse (negb (one_of [T "json"; T "text"] (to_lower (Log_Format (cfg_Log c)))))
      ("log.format must be json or text, got "%string ++ quote (Log_Format (cfg_Log c)));
    refuse (negb (Bool.eqb (empty (HTTP_TLSCert http)) (empty (HTTP_TLSKey http))))
      "http.tls_cert and http.tls_key must be set together"%string;
    refuse (negb (Bool.eqb (empty (SMTP_TLSCert smtp)) (empty (SMTP_TLSKey smtp))))
      "smtp.tls_cert and smtp.tls_key must be set together"%string;
    check_acme http; check_spam (cfg_Spam c); check_dnsbl (cfg_DNSBL c); check_clamav (cfg_ClamAV c);
    check_backup (cfg_Backup c); check_alerts (cfg_Alerts c); check_outbound (cfg_Outbound c);
    check_webhooks (cfg_Webhooks c); check_oidc http (cfg_OIDC c); check_cluster hostname c].

(** ** Loading *)

(** What [os.ReadFile] finds at a path. *)
Inductive file_read := FileMissing | FileError (e : error) | FileRead (raw : text).

(** [yaml.Unmarshal] into settings that already have values. *)
Class ConfigLib := {
  os_ReadFile : text -> file_read;
  os_LookupEnv : text -> option text;
  os_Hostname : result text;
  yaml_Unmarshal : text -> Config -> option error * Config
}.

Definition Load `{ConfigLib} (path : text) : option error * Config :=
  let finish cfg :=
    let cfg := applyEnv os_LookupEnv cfg in
    (Validate os_Hostname cfg, cfg) in
  if bool_decide (path = []) then finish Default
  else match os_ReadFile path with
       | FileMissing => finish Default
       | FileError e => (Some (EWrap ("read "%string ++ path) e), Default)
       | FileRead raw =>
           match yaml_Unmarshal raw Default with
           | (Some e, cfg) => (Some (EWrap ("parse "%string ++ path) e), cfg)
           | (None, cfg) => finish cfg
           end
       end.
