(* ===== verification/Dnsbl.v ===== *)
(** * Block lists (internal/dnsbl)

    The zones are asked at once, a goroutine each; [arrivals] is the order in which their
    answers come, any order of the zones.  [lookup] is the resolver. *)

From S2P Require Import Prelude GoStrings Net Errors Netlimit.
Open Scope Z_scope.

(** [dnsbl.Result], less its duration. *)
Record dnsbl_result := { bl_Listed : bool; bl_Zone : text; bl_Record : text }.

Definition not_listed : dnsbl_result := {| bl_Listed := false; bl_Zone := []; bl_Record := [] |}.

Record CheckDetail := { cd_Zone : text; cd_Listed : bool; cd_Record : text; cd_Error : text }.

Record DetailedResult := { dr_IP : ip; dr_Listed : bool; dr_Zone : text; dr_Record : text; dr_Details : list CheckDetail }.

(** [config.DNSBLConfig]. *)
Record DNSBLConfig := { bl_Enabled : bool; bl_Zones : list text; bl_Whitelist : list text }.

Definition defaultPrivateRanges : list text :=
  [T "127.0.0.0/8"; T "::1/128"; T "10.0.0.0/8"; T "172.16.0.0/12"; T "192.168.0.0/16"; T "fc00::/7"; T "fe80::/10"].

(** A configured entry without a length names one address. *)
Definition whitelist_entry (raw : text) : option prefix :=
  let trimmed := trim_space raw in
  if bool_decide (trimmed = []) then None
  else if bool_decide ("/"%char ∈ trimmed) then ParseCIDR trimmed
  else if bool_decide (":"%char ∈ trimmed) then ParseCIDR (trimmed ++ "/128"%string)
  else ParseCIDR (trimmed ++ "/32"%string).

Record Checker := { ck_enabled : bool; ck_zones : list text; ck_whitelist : list prefix }.

Definition New (cfg : DNSBLConfig) : Checker :=
  {| ck_enabled := bl_Enabled cfg; ck_zones := bl_Zones cfg;
     ck_whitelist := cidrs defaultPrivateRanges ++ omap whitelist_entry (bl_Whitelist cfg) |}.

Definition IsWhitelisted (c : Checker) (a : ip) : bool := existsb (fun n => ipnet_contains n a) (ck_whitelist c).

Definition ParseIPString (addr : text) : result ip :=
  let trimmed := trim_space addr in
  if bool_decide (trimmed = []) then Err (EText "empty IP address"%string)
  else match ParseIP (hostOf trimmed) with
       | None => Err (EText ("invalid IP address: "%string ++ quote addr))
       | Some a => Ok a
       end.

(** ** Reversed names *)

(** The [n] digits of [a] in base [b], least first. *)
Fixpoint digits_le (n : nat) (b a : Z) : list Z :=
  match n with O => [] | S n => a mod b :: digits_le n b (a / b) end.

Definition ReverseIPv4 (a : Z) : text := join "."%string (map dec (digits_le 4 256 a)).
Definition ReverseIPv6 (a : Z) : text := join "."%string (map (fun n => [hex_lower n]) (digits_le 32 16 a)).

Definition ReverseIP (a : ip) : text :=
  match unmap a with V4 x => ReverseIPv4 x | V6 x => ReverseIPv6 x end.

(** ** Asking *)

(** 127.255.255.0/24 answers are a list's complaints about the asker. *)
Definition isListingCode (addr : text) : bool :=
  if has_prefix "127.255.255."%string addr then false else has_prefix "127."%string addr.

Section asking.
Context (lookup : text -> result (list text)).

(** What the goroutine of a zone sends. *)
Definition zone_hit (rev zone : text) : option text :=
  match lookup (rev ++ "."%string ++ zone) with
  | Err _ => None
  | Ok addrs => find isListingCode addrs
  end.

Fixpoint first_hit (rev : text) (arrivals : list text) : dnsbl_result :=
  match arrivals with
  | [] => not_listed
  | z :: rest =>
      match zone_hit rev z with
      | Some record => {| bl_Listed := true; bl_Zone := z; bl_Record := record |}
      | None => first_hit rev rest
      end
  end.

Definition Check_ (c : Checker) (remoteAddr : text) (arrivals : list text) : dnsbl_result :=
  if negb (ck_enabled c) || bool_decide (ck_zones c = []) then not_listed
  else match ParseIPString remoteAddr with
  | Err _ => not_listed
  | Ok a =>
      if IsWhitelisted c a then not_listed
      else if bool_decide (ReverseIP a = []) then not_listed
      else first_hit (ReverseIP a) arrivals
  end.

(** Only an error that is itself a [*net.DNSError] is asked; [err_text] is [err.Error()]. *)
Definition isNotFound (err_text : error -> text) (e : error) : bool :=
  match e with
  | EDNS b _ => b
  | _ => contains "no such host"%string (to_lower (err_text e)) || contains "not found"%string (to_lower (err_text e))
  end.

(** The detail of a zone. *)
Definition zone_detail (err_text : error -> text) (rev zone : text) : CheckDetail :=
  match lookup (rev ++ "."%string ++ zone) with
  | Err e =>
      {| cd_Zone := zone; cd_Listed := false; cd_Record := []; cd_Error := if isNotFound err_text e then [] else err_text e |}
  | Ok addrs =>
      match find isListingCode addrs with
      | Some a => {| cd_Zone := zone; cd_Listed := true; cd_Record := a; cd_Error := [] |}
      | None => {| cd_Zone := zone; cd_Listed := false; cd_Record := []; cd_Error := [] |}
      end
  end.

(** One goroutine's turn under the mutex. *)
Definition add_detail (r : DetailedResult) (d : CheckDetail) : DetailedResult :=
  let first := cd_Listed d && negb (dr_Listed r) in
  {| dr_IP := dr_IP r; dr_Listed := dr_Listed r || first; dr_Zone := if first then cd_Zone d else dr_Zone r;
     dr_Record := if first then cd_Record d else dr_Record r; dr_Details := dr_Details r ++ [d] |}.

Definition CheckDetailed (err_text : error -> text) (c : Checker) (ipStr : text) (arrivals : list text) : result DetailedResult :=
  match ParseIPString ipStr with
  | Err e => Err e
  | Ok a =>
      let ret := {| dr_IP := a; dr_Listed := false; dr_Zone := []; dr_Record := []; dr_Details := [] |} in
      if IsWhitelisted c a then Ok ret
      else if bool_decide (ReverseIP a = []) then Ok ret
      else Ok (fold_left add_detail (map (zone_detail err_text (ReverseIP a)) arrivals) ret)
  end.
End asking.

Example reverse_ex : map (fun s => match ParseIP s with Some a => ReverseIP a | None => [] end) [T "192.0.2.99"; T "::ffff:192.0.2.99"; T "2001:db8::1"]
  = [T "99.2.0.192"; T "99.2.0.192"; T "1.0.0.0.0.0.0.0.0.0.0.0.0.0.0.0.0.0.0.0.0.0.0.0.8.b.d.0.1.0.0.2"].
Proof. vm_compute. reflexivity. Qed.

(** ** Lemmas *)

Lemma length_digits_le n b a : length (digits_le n b a) = n.
Proof. revert a. induction n as [|n IH]; intros a; cbn; [done|by rewrite IH]. Qed.

Lemma digits_le_range n b a : 0 < b -> Forall (fun d => 0 <= d < b) (digits_le n b a).
Proof. intros Hb. revert a. induction n as [|n IH]; intros a; cbn; constructor; [by apply Z.mod_pos_bound|done]. Qed.

Lemma digits_le_inj n b x y :
  0 < b -> 0 <= x < b ^ Z.of_nat n -> 0 <= y < b ^ Z.of_nat n -> digits_le n b x = digits_le n b y -> x = y.
Proof.
  intros Hb. revert x y. induction n as [|n IH]; intros x y Hx Hy; [cbn in *; lia|].
  rewrite Nat2Z.inj_succ, Z.pow_succ_r in * by lia. cbn. intros [= Hm Hd].
  rewrite (Z.div_mod x b), (Z.div_mod y b) by lia. rewrite Hm. f_equal. f_equal.
  apply IH; [..|exact Hd]; (split; [apply Z.div_pos; lia|apply Z.div_lt_upper_bound; lia]).
Qed.

Lemma join_dot_inj ps qs :
  ps <> [] -> qs <> [] -> Forall (fun p => "."%char ∉ p) ps -> Forall (fun p => "."%char ∉ p) qs ->
  join "."%string ps = join "."%string qs -> ps = qs.
Proof.
  intros Hp Hq Hps Hqs E. rewrite <- (split_join "."%char ps), <- (split_join "."%char qs) by done. by f_equal.
Qed.

Lemma dec_byte d : 0 <= d < 256 -> ("."%char ∉ dec d) /\ forall e, 0 <= e < 256 -> dec d = dec e -> d = e.
Proof.
  intros Hd. split.
  - assert (H : Forall (fun n => "."%char ∉ dec (Z.of_nat n)) (seq 0 256)) by (apply (bool_decide_unpack _); vm_compute; done).
    rewrite Forall_forall in H. specialize (H (Z.to_nat d)). rewrite Z2Nat.id in H by lia. apply H, elem_of_seq. lia.
  - intros e He E. unfold dec, T in E. apply (f_equal String.string_of_list_ascii) in E.
    rewrite !String.string_of_list_ascii_of_string in E. by apply (inj pretty) in E.
Qed.

Lemma hex_lower_nibble d : 0 <= d < 16 -> ("."%char ∉ [hex_lower d]) /\ forall e, 0 <= e < 16 -> [hex_lower d] = [hex_lower e] -> d = e.
Proof.
  intros Hd. assert (H : Forall (fun n => "."%char <> hex_lower (Z.of_nat n) /\
    Forall (fun m => hex_lower (Z.of_nat n) = hex_lower (Z.of_nat m) -> n = m) (seq 0 16)) (seq 0 16))
    by (apply (bool_decide_unpack _); vm_compute; done).
  rewrite Forall_forall in H. specialize (H (Z.to_nat d) ltac:(apply elem_of_seq; lia)).
  rewrite Z2Nat.id in H by lia. destruct H as [Hdot Hinj]. split; [set_solver|]. intros e He [= E].
  rewrite Forall_forall in Hinj. specialize (Hinj (Z.to_nat e) ltac:(apply elem_of_seq; lia)).
  rewrite Z2Nat.id in Hinj by lia. specialize (Hinj E). lia.
Qed.

Lemma map_inj_on {A B} (f : A -> B) (P : A -> Prop) l l' :
  (forall x y, P x -> P y -> f x = f y -> x = y) -> Forall P l -> Forall P l' -> map f l = map f l' -> l = l'.
Proof.
  intros Hf Hl. revert l'. induction Hl as [|x l Hx _ IH]; intros [|y l'] Hl' E; inversion Hl'; subst; try done.
  cbn in E. injection E as E1 E2. f_equal; [by apply Hf|by apply IH].
Qed.

(** An address as the network has it. *)
Definition ip_ok (a : ip) : Prop := match a with V4 x => 0 <= x < 2 ^ 32 | V6 x => 0 <= x < 2 ^ 128 end.

(** The labels of a reversed name. *)
Definition reverse_labels (a : ip) : list text :=
  match a with
  | V4 x => map dec (digits_le 4 256 x)
  | V6 x => map (fun n => [hex_lower n]) (digits_le 32 16 x)
  end.

Lemma reverse_labels_ok a : reverse_labels a <> [] /\ Forall (fun p => "."%char ∉ p) (reverse_labels a).
Proof.
  destruct a as [x|x]; (split; [done|]); apply Forall_map.
  - eapply Forall_impl; [apply (digits_le_range 4 256 x); lia|]. intros d Hd. by apply dec_byte.
  - eapply Forall_impl; [apply (digits_le_range 32 16 x); lia|]. intros d Hd. by apply hex_lower_nibble.
Qed.

Lemma reverse_labels_inj a b : ip_ok a -> ip_ok b -> reverse_labels a = reverse_labels b -> a = b.
Proof.
  destruct a as [x|x], b as [y|y]; cbn [ip_ok reverse_labels]; intros Ha Hb E.
  - f_equal. apply (digits_le_inj 4 256); [lia|done|done|].
    eapply (map_inj_on dec (fun d => 0 <= d < 256)); [|by apply digits_le_range..|exact E].
    intros d e Hd He Ed. by apply (proj2 (dec_byte d Hd)).
  - apply (f_equal length) in E. by rewrite !length_map, !length_digits_le in E.
  - apply (f_equal length) in E. by rewrite !length_map, !length_digits_le in E.
  - f_equal. apply (digits_le_inj 32 16); [lia|done|done|].
    eapply (map_inj_on (fun n => [hex_lower n]) (fun d => 0 <= d < 16)); [|by apply digits_le_range..|exact E].
    intros d e Hd He Ed. by apply (proj2 (hex_lower_nibble d Hd)).
Qed.

(** A reversed name is that of one address. *)
Lemma ReverseIP_inj a b : ip_ok (unmap a) -> ip_ok (unmap b) -> ReverseIP a = ReverseIP b -> unmap a = unmap b.
Proof.
  intros Ha Hb E. apply reverse_labels_inj; [done|done|]. destruct (reverse_labels_ok (unmap a)) as [Hna Hfa].
  destruct (reverse_labels_ok (unmap b)) as [Hnb Hfb]. apply join_dot_inj; [done..|].
  unfold ReverseIP in E. by destruct (unmap a), (unmap b).
Qed.

Lemma ReverseIP_nonempty a : ReverseIP a <> [].
Proof.
  intros E. destruct (reverse_labels_ok (unmap a)) as [Hne Hf]. pose proof (split_join "."%char _ Hne Hf) as Hs.
  assert (Hj : join "."%string (reverse_labels (unmap a)) = []).
  { rewrite <- E. unfold ReverseIP. by destruct (unmap a). }
  change (join ["."%char] (reverse_labels (unmap a)) = []) in Hj. rewrite Hj in Hs. cbn in Hs.
  apply (f_equal length) in Hs. destruct (unmap a); cbn in Hs; discriminate Hs.
Qed.

Section race.
Context (lookup : text -> result (list text)) (err_text : error -> text).

Lemma first_hit_spec rev arrivals :
  let r := first_hit lookup rev arrivals in
  (bl_Listed r = true /\ bl_Zone r ∈ arrivals /\ zone_hit lookup rev (bl_Zone r) = Some (bl_Record r)) \/
  (r = not_listed /\ forall z, z ∈ arrivals -> zone_hit lookup rev z = None).
Proof.
  induction arrivals as [|z rest IH]; cbn; [right; split; [done|intros z Hz; inv Hz]|].
  destruct (zone_hit lookup rev z) as [rec|] eqn:E.
  - left. cbn. split_and!; [done|apply list_elem_of_here|done].
  - destruct IH as [(Hl & Hz & Hr)|[Hn Hall]]; [left|right].
    + split_and!; [done|by apply list_elem_of_further|done].
    + split; [done|]. intros z' [->|Hz']%elem_of_cons; [done|auto].
Qed.

Lemma zone_detail_listed rev z :
  let d := zone_detail lookup err_text rev z in
  cd_Zone d = z /\ match zone_hit lookup rev z with
                  | Some a => cd_Listed d = true /\ cd_Record d = a
                  | None => cd_Listed d = false
                  end.
Proof. unfold zone_detail, zone_hit. destruct (lookup _) as [addrs|e]; cbn; [|done]. by destruct (find _ addrs). Qed.

Lemma add_details_spec rev arrivals r :
  let r' := fold_left add_detail (map (zone_detail lookup err_text rev) arrivals) r in
  dr_IP r' = dr_IP r /\ dr_Details r' = dr_Details r ++ map (zone_detail lookup err_text rev) arrivals /\
  (dr_Listed r' = dr_Listed r || bl_Listed (first_hit lookup rev arrivals)) /\
  (dr_Listed r = false -> dr_Listed r' = true ->
     dr_Zone r' = bl_Zone (first_hit lookup rev arrivals) /\ dr_Record r' = bl_Record (first_hit lookup rev arrivals)) /\
  (dr_Listed r = true -> dr_Zone r' = dr_Zone r /\ dr_Record r' = dr_Record r).
Proof.
  revert r. induction arrivals as [|z rest IH]; intros r; cbn [map fold_left first_hit].
  { cbn. rewrite app_nil_r, orb_false_r. split_and!; try done. congruence. }
  destruct (zone_detail_listed rev z) as [Hz Hd]. cbn zeta in Hz, Hd.
  destruct (IH (add_detail r (zone_detail lookup err_text rev z))) as (H1 & H2 & H3 & H4 & H5).
  unfold add_detail in *. cbn [dr_IP dr_Listed dr_Zone dr_Record dr_Details] in *.
  rewrite H1, H2, H3. rewrite <- app_assoc. split_and!; [done|done|..].
  - destruct (zone_hit lookup rev z); [destruct Hd as [-> _]|rewrite Hd]; cbn; destruct (dr_Listed r); cbn; by rewrite ?orb_true_r.
  - intros Hr Hl. rewrite Hr in *. destruct (zone_hit lookup rev z) as [a|]; [destruct Hd as [Hd Ha]|]; rewrite Hd in *; cbn in *.
    + destruct H5 as [-> ->]; [done|]. by rewrite Hz, Ha.
    + apply H4; [done|by rewrite H3].
  - intros Hr. rewrite Hr in *. cbn in *. rewrite andb_false_r in *. by apply H5.
Qed.
End race.

Lemma perm_elem (l k : list text) z : l ≡ₚ k -> z ∈ l -> z ∈ k.
Proof. by intros ->. Qed.

(** ** What a verdict means *)

(** The private ranges, as first address and size. *)
Definition private4 : list (Z * Z) :=
  [(127 * 2 ^ 24, 2 ^ 24); (10 * 2 ^ 24, 2 ^ 24); (172 * 2 ^ 24 + 16 * 2 ^ 16, 2 ^ 20); (192 * 2 ^ 24 + 168 * 2 ^ 16, 2 ^ 16)].
Definition private6 : list (Z * Z) := [(1, 1); (0xfc00 * 2 ^ 112, 2 ^ 121); (0xfe80 * 2 ^ 112, 2 ^ 118)].

Definition within_one (x : Z) (ranges : list (Z * Z)) : Prop := Exists (fun r => fst r <= x < fst r + snd r) ranges.

Definition private (a : ip) : Prop :=
  match unmap a with V4 x => within_one x private4 | V6 x => within_one x private6 end.

(** The operator's list names the address, alone or in a range. *)
Definition allowed (cfg : DNSBLConfig) (a : ip) : Prop :=
  exists raw n, raw ∈ bl_Whitelist cfg /\
    ParseCIDR (let t := trim_space raw in if bool_decide ("/"%char ∈ t) then t else if bool_decide (":"%char ∈ t) then t ++ T "/128" else t ++ T "/32") = Some n /\
    ipnet_contains n a = true.

(** A zone lists the address: among what it answers for the reversed name there is an address
    127.x.y.z that is not 127.255.255.z, which would be a complaint about the asker. *)
Definition lists (lookup : text -> result (list text)) (a : ip) (zone record : text) : Prop :=
  exists addrs, lookup (ReverseIP a ++ T "." ++ zone) = Ok addrs /\ record ∈ addrs /\
    (exists rest, record = T "127." ++ rest) /\ forall rest, record <> T "127.255.255." ++ rest.

Definition refusable (lookup : text -> result (list text)) (cfg : DNSBLConfig) (a : ip) : Prop :=
  ~ private a /\ ~ allowed cfg a /\ exists z record, z ∈ bl_Zones cfg /\ lists lookup a z record.

Lemma private_whitelisted a : existsb (fun n => ipnet_contains n a) (cidrs defaultPrivateRanges) = true <-> private a.
Proof.
  assert (E : cidrs defaultPrivateRanges =
    [P4 (127 * 2 ^ 24) 8; P6 1 128; P4 (10 * 2 ^ 24) 8; P4 (172 * 2 ^ 24 + 16 * 2 ^ 16) 12;
     P4 (192 * 2 ^ 24 + 168 * 2 ^ 16) 16; P6 (0xfc00 * 2 ^ 112) 7; P6 (0xfe80 * 2 ^ 112) 10]) by (vm_compute; reflexivity).
  rewrite E. unfold private, within_one, ipnet_contains, private4, private6. cbn [existsb].
  rewrite !orb_true_iff. destruct (unmap a) as [x|x]; rewrite !Exists_cons, !Exists_nil; cbn [fst snd].
  - rewrite !(prefix4_interval _ _ x) by (vm_compute; intuition congruence).
    change (32 - 8) with 24. change (32 - 12) with 20. change (32 - 16) with 16. cbn [prefix_contains]. intuition congruence.
  - rewrite !(prefix6_interval _ _ x) by (vm_compute; intuition congruence).
    change (128 - 128) with 0. change (128 - 7) with 121. change (128 - 10) with 118. change (2 ^ 0) with 1.
    cbn [prefix_contains]. intuition congruence.
Qed.

Lemma allowed_whitelisted cfg a :
  existsb (fun n => ipnet_contains n a) (omap whitelist_entry (bl_Whitelist cfg)) = true <-> allowed cfg a.
Proof.
  rewrite existsb_elem. unfold allowed, whitelist_entry. split.
  - intros (n & (raw & Hraw & Hn)%list_elem_of_omap & Hc). exists raw, n. split; [done|].
    case_bool_decide; [done|]. split; [|done]. by repeat case_bool_decide.
  - intros (raw & n & Hraw & Hn & Hc). exists n. split; [|done]. apply list_elem_of_omap. exists raw. split; [done|].
    cbv zeta in Hn |- *. destruct (bool_decide_reflect (trim_space raw = [])) as [E|_]; [rewrite E in Hn; vm_compute in Hn; done|].
    repeat case_match; done || exact Hn.
Qed.

Lemma IsWhitelisted_spec cfg a : IsWhitelisted (New cfg) a = true <-> private a \/ allowed cfg a.
Proof. unfold IsWhitelisted. cbn. by rewrite existsb_app, orb_true_iff, private_whitelisted, allowed_whitelisted. Qed.

Lemma isListingCode_spec r :
  isListingCode r = true <-> (exists rest, r = T "127." ++ rest) /\ forall rest, r <> T "127.255.255." ++ rest.
Proof.
  unfold isListingCode. rewrite <- has_prefix_spec. destruct (has_prefix "127.255.255."%string r) eqn:E.
  - apply has_prefix_spec in E as [rest ->]. split; [done|]. intros [_ Hn]. by destruct (Hn rest).
  - split; [|by intros []]. intros Hp. split; [done|]. intros rest ->. by rewrite (proj2 (has_prefix_spec _ _) (ex_intro _ rest eq_refl)) in E.
Qed.

Lemma zone_hit_lists lookup a z record : zone_hit lookup (ReverseIP a) z = Some record -> lists lookup a z record.
Proof.
  unfold zone_hit, lists. destruct (lookup _) as [addrs|]; [|done]. intros [Hin Hc]%find_some. exists addrs.
  apply list_elem_of_In in Hin. by apply isListingCode_spec in Hc as [].
Qed.

Lemma lists_zone_hit lookup a z record : lists lookup a z record -> zone_hit lookup (ReverseIP a) z <> None.
Proof.
  intros (addrs & E & Hin & Hc). unfold zone_hit. rewrite E. intros Hn.
  apply list_elem_of_In in Hin. apply (find_none _ _ Hn) in Hin. apply isListingCode_spec in Hc. congruence.
Qed.

Lemma first_hit_listed lookup cfg a arrivals :
  arrivals ≡ₚ bl_Zones cfg ->
  bl_Listed (first_hit lookup (ReverseIP a) arrivals) = true <-> exists z record, z ∈ bl_Zones cfg /\ lists lookup a z record.
Proof.
  intros Ha. destruct (first_hit_spec lookup (ReverseIP a) arrivals) as [(Hl & Hz & Hh)|[Hn Hall]].
  - split; [|done]. intros _. apply zone_hit_lists in Hh. apply (perm_elem _ _ _ Ha) in Hz. eauto.
  - rewrite Hn. split; [done|]. intros (z & record & Hz & Hl). apply lists_zone_hit in Hl.
    apply (perm_elem _ _ _ (symmetry Ha)) in Hz. by destruct (Hl (Hall z Hz)).
Qed.

Lemma Check_first_hit lookup cfg remote a arrivals :
  arrivals ≡ₚ bl_Zones cfg -> ParseIPString remote = Ok a ->
  Check_ lookup (New cfg) remote arrivals =
    if negb (bl_Enabled cfg) || IsWhitelisted (New cfg) a then not_listed else first_hit lookup (ReverseIP a) arrivals.
Proof.
  intros Ha Hp. unfold Check_. cbn [ck_enabled ck_zones New]. rewrite Hp. destruct (bl_Enabled cfg); [|done]. cbn [negb orb].
  rewrite (bool_decide_eq_false_2 (ReverseIP a = [])) by apply ReverseIP_nonempty.
  case_bool_decide as Ez; [|done]. rewrite Ez in Ha. apply Permutation_nil_r in Ha. subst. by destruct (IsWhitelisted (New cfg) a).
Qed.

Lemma CheckDetailed_listed lookup err_text cfg remote a arrivals :
  arrivals ≡ₚ bl_Zones cfg -> ParseIPString remote = Ok a ->
  exists d, CheckDetailed lookup err_text (New cfg) remote arrivals = Ok d /\ (dr_Listed d = true <-> refusable lookup cfg a).
Proof.
  intros Ha Hp. unfold CheckDetailed, refusable. rewrite Hp. pose proof (IsWhitelisted_spec cfg a) as Hw.
  destruct (IsWhitelisted (New cfg) a).
  { eexists. split; [done|]. cbn. split; [done|]. tauto. }
  rewrite bool_decide_eq_false_2 by apply ReverseIP_nonempty. eexists. split; [done|].
  destruct (add_details_spec lookup err_text (ReverseIP a) arrivals
    {| dr_IP := a; dr_Listed := false; dr_Zone := []; dr_Record := []; dr_Details := [] |}) as (_ & _ & -> & _).
  cbn [dr_Listed orb]. rewrite (first_hit_listed lookup cfg a arrivals Ha). intuition congruence.
Qed.

(** C39: the order in which the zones answer decides at most which of them is named.  A checker
    that is switched on refuses a client exactly when its address is neither in a private range
    nor on the operator's list and some zone answers for its reversed name with a listing
    code, and the zone and the record named are such; one that is switched off refuses
    nobody.  The detailed check of the same address, switched on or off and with another order
    of answers, calls it listed under the same condition.  The name asked for is that of the
    client's address and of no other. *)
Theorem dnsbl_race lookup err_text cfg remote a arrivals arrivals' :
  arrivals ≡ₚ bl_Zones cfg -> arrivals' ≡ₚ bl_Zones cfg -> ParseIPString remote = Ok a ->
  let r := Check_ lookup (New cfg) remote arrivals in
  (bl_Listed r = true <-> bl_Enabled cfg = true /\ refusable lookup cfg a) /\
  (bl_Listed r = true -> bl_Zone r ∈ bl_Zones cfg /\ lists lookup a (bl_Zone r) (bl_Record r)) /\
  (exists d, CheckDetailed lookup err_text (New cfg) remote arrivals' = Ok d /\ (dr_Listed d = true <-> refusable lookup cfg a)) /\
  (forall b, ip_ok (unmap a) -> ip_ok (unmap b) -> ReverseIP a = ReverseIP b -> unmap a = unmap b).
Proof.
  intros Ha Ha' Hp r. assert (Er := Check_first_hit lookup cfg remote a arrivals Ha Hp). fold r in Er.
  pose proof (IsWhitelisted_spec cfg a) as Hw. pose proof (first_hit_listed lookup cfg a arrivals Ha) as Hl.
  split_and!; [| |by apply CheckDetailed_listed|intros b; apply ReverseIP_inj]; rewrite Er; unfold refusable;
    destruct (bl_Enabled cfg), (IsWhitelisted (New cfg) a); cbn [negb orb]; try (cbn; intuition congruence).
  destruct (first_hit_spec lookup (ReverseIP a) arrivals) as [(_ & Hz & Hh)|[-> _]]; [|done]. intros _.
  split; [by apply (perm_elem _ _ _ Ha)|by apply zone_hit_lists].
Qed.

(** Two zones of three list a client; whichever answers first, it is refused. *)
Definition sample_lists : DNSBLConfig :=
  {| bl_Enabled := true; bl_Zones := [T "a.example"; T "b.example"; T "c.example"]; bl_Whitelist := [T "192.0.2.0/28"] |}.

Definition sample_zone_answers (name : text) : result (list text) :=
  if has_suffix "b.example"%string name then Ok [T "127.0.0.2"]
  else if has_suffix "c.example"%string name then Ok [T "127.255.255.254"; T "127.0.0.4"]
  else Err (EDNS true "no such host"%string).

Lemma dnsbl_race_witness :
  bl_Zone (Check_ sample_zone_answers (New sample_lists) "192.0.2.99:5000"%string [T "a.example"; T "c.example"; T "b.example"]) = T "c.example" /\
  refusable sample_zone_answers sample_lists (V4 3221226083) /\
  exists d, CheckDetailed sample_zone_answers (fun _ => []) (New sample_lists) "192.0.2.99:5000"%string
    [T "a.example"; T "b.example"; T "c.example"] = Ok d /\ dr_Listed d = true.
Proof.
  split; [vm_compute; reflexivity|].
  destruct (dnsbl_race sample_zone_answers (fun _ => []) sample_lists "192.0.2.99:5000"%string (V4 3221226083)
    [T "a.example"; T "c.example"; T "b.example"] [T "a.example"; T "b.example"; T "c.example"]) as (Hr & _ & Hd & _);
    [by apply Permutation_cons, Permutation_swap|reflexivity|vm_compute; reflexivity|].
  assert (Href : refusable sample_zone_answers sample_lists (V4 3221226083)) by (apply Hr; vm_compute; reflexivity).
  split; [exact Href|]. destruct Hd as (d & Ed & Hl). exists d. split; [exact Ed|]. by apply Hl.
Defined.
