(* ===== verification/MailUtil.v ===== *)
(** * Message headers (internal/mailutil)

    [ExtractSubject], the counting of header fields, and the [Received] field the
    intake and the submission server put in front of a message.  A header block is
    read the way the sources read it: CRLF becomes LF, lines are split at LF, and an
    empty line ends the block. *)

From S2P Require Import Prelude GoStrings Times Net.

(** ** [PeekHeaders]: the bytes read ahead; the reader returned replays them and goes on

    An error met while reading ahead is left out: the readers it is called on give it again when they are read on. *)

Definition PeekHeaders (r : text) (limit : nat) : text * text :=
  let head := take limit r in (head, head ++ drop limit r).

(** ** [strings.ToValidUTF8(s, "")] *)

Definition byte_in (lo hi : Z) (c : ascii) : bool := (lo <=? code c) && (code c <=? hi).

Definition utf8_cont (c : ascii) : bool := byte_in 128 191 c.

Definition utf8_2 (c0 c1 : ascii) : bool := byte_in 194 223 c0 && utf8_cont c1.

Definition utf8_3 (c0 c1 c2 : ascii) : bool :=
  ((byte_in 224 224 c0 && byte_in 160 191 c1)
   || ((byte_in 225 236 c0 || byte_in 238 239 c0) && utf8_cont c1)
   || (byte_in 237 237 c0 && byte_in 128 159 c1)) && utf8_cont c2.

Definition utf8_4 (c0 c1 c2 c3 : ascii) : bool :=
  ((byte_in 240 240 c0 && byte_in 144 191 c1)
   || (byte_in 241 243 c0 && utf8_cont c1)
   || (byte_in 244 244 c0 && byte_in 128 143 c1)) && utf8_cont c2 && utf8_cont c3.

(** Well-formed UTF-8, as [utf8.ValidString] accepts it. *)
Inductive valid_utf8 : text -> Prop :=
| utf8_nil : valid_utf8 []
| utf8_one c s : code c < 128 -> valid_utf8 s -> valid_utf8 (c :: s)
| utf8_two c0 c1 s : utf8_2 c0 c1 = true -> valid_utf8 s -> valid_utf8 (c0 :: c1 :: s)
| utf8_three c0 c1 c2 s :
    utf8_3 c0 c1 c2 = true -> valid_utf8 s -> valid_utf8 (c0 :: c1 :: c2 :: s)
| utf8_four c0 c1 c2 c3 s :
    utf8_4 c0 c1 c2 c3 = true -> valid_utf8 s -> valid_utf8 (c0 :: c1 :: c2 :: c3 :: s).

(** Every byte that does not start or continue a well-formed rune is dropped. *)
Fixpoint to_valid_utf8 (s : text) : text :=
  match s with
  | [] => []
  | c0 :: r0 =>
      if code c0 <? 128 then c0 :: to_valid_utf8 r0
      else
        match r0 with
        | c1 :: r1 =>
            if utf8_2 c0 c1 then c0 :: c1 :: to_valid_utf8 r1
            else
              match r1 with
              | c2 :: r2 =>
                  if utf8_3 c0 c1 c2 then c0 :: c1 :: c2 :: to_valid_utf8 r2
                  else
                    match r2 with
                    | c3 :: r3 =>
                        if utf8_4 c0 c1 c2 c3 then c0 :: c1 :: c2 :: c3 :: to_valid_utf8 r3
                        else to_valid_utf8 r0
                    | [] => to_valid_utf8 r0
                    end
              | [] => to_valid_utf8 r0
              end
        | [] => to_valid_utf8 r0
        end
  end.

(** ** [ExtractSubject] *)

Definition header_lines (head : text) : list text := split_byte LF (crlf_to_lf head).

(** The continuation loop: [subject += " " + strings.TrimSpace(cont)]. *)
Fixpoint continued (subject : text) (lines : list text) : text :=
  match lines with
  | [] => subject
  | cont :: rest =>
      if bool_decide (cont = [])
         || (negb (has_prefix " "%string cont) && negb (has_prefix [TAB] cont))
      then subject
      else continued (subject ++ " "%string ++ trim_space cont) rest
  end.

Fixpoint subject_of (lines : list text) : text :=
  match lines with
  | [] => []
  | line :: rest =>
      if bool_decide (line = []) then []
      else if (length line <? 8)%nat || negb (equal_fold (take 8 line) "subject:"%string)
      then subject_of rest
      else
        let subject := continued (trim_space (drop 8 line)) rest in
        to_valid_utf8 (if (500 <? length subject)%nat then take 500 subject else subject)
  end.

Definition ExtractSubject (head : text) : text := subject_of (header_lines head).

(** ** Counting fields *)

Definition field_line (prefix line : text) : bool :=
  (length prefix <=? length line)%nat && equal_fold (take (length prefix) line) prefix.

Fixpoint count_lines (prefix : text) (lines : list text) : nat :=
  match lines with
  | [] => O
  | line :: rest =>
      if bool_decide (line = []) then O
      else (if field_line prefix line then 1 else 0) + count_lines prefix rest
  end%nat.

Definition countHeader (head name : text) : nat :=
  count_lines (name ++ ":"%string) (header_lines head).

Definition CountReceived (head : text) : nat := countHeader head "received"%string.
Definition HasHeader (head name : text) : bool := (0 <? countHeader head name)%nat.

Definition MaxHops : nat := 50.

(** ** The [Received] field *)

(** [traceToken]: the first 255 bytes, less blanks, controls, non-ASCII runes and the
    specials of RFC 5322; dropping a non-ASCII rune is dropping each of its bytes. *)
Definition trace_safe (c : ascii) : bool :=
  negb ((code c <=? 32) || (127 <=? code c) || bool_decide (c ∈ T "()[]<>;\" ++ [DQ])).

Definition traceToken (s : text) : text := List.filter trace_safe (take 255 s).

Record Trace := {
  Helo : text;
  Remote : text;
  By : text;
  TProtocol : text;
  TID : text;
  Recipient : text;
  At : Z
}.

(** [zone] is the server's offset from UTC in minutes. *)
Definition Header (zone : Z) (t : Trace) : text :=
  let ip := hostOf (Remote t) in
  let literal :=
    match ParseIP ip with
    | Some a => if bool_decide (to4 a = None) then "[IPv6:"%string ++ ip ++ "]"%string
                else "["%string ++ ip ++ "]"%string
    | None => "["%string ++ ip ++ "]"%string
    end in
  let helo := if bool_decide (traceToken (Helo t) = []) then "unknown"%string : text else traceToken (Helo t) in
  let rcpt := traceToken (Recipient t) in
  "Received: from "%string ++ helo ++ " ("%string ++ literal ++ ")"%string ++ CRLF
  ++ [TAB] ++ "by "%string ++ traceToken (By t) ++ " (XeronMX) with "%string ++ TProtocol t
  ++ " id "%string ++ TID t
  ++ (if bool_decide (rcpt = []) then [] else CRLF ++ [TAB] ++ "for <"%string ++ rcpt ++ ">"%string)
  ++ "; "%string ++ rfc1123z zone (At t) ++ CRLF.

Definition Protocol (tls authenticated : bool) : text :=
  "ESMTP"%string ++ (if tls then "S"%string : text else []) ++ (if authenticated then "A"%string : text else []).

(** [Hostname]; the argument [os] is what [os.Hostname] returns, if it does. *)
Definition Hostname (os : option text) (configured : text) : text :=
  if negb (bool_decide (configured = [])) then configured
  else match os with
       | Some h => if bool_decide (h = []) then "localhost"%string else h
       | None => "localhost"%string
       end.

Example subject_ex :
  ExtractSubject (T "To: a" ++ CRLF ++ T "SUBJECT:  hello" ++ CRLF ++ T "  world " ++ CRLF ++ CRLF ++ T "Subject: no")
  = T "hello world".
Proof. vm_compute. reflexivity. Qed.
Example utf8_ex : to_valid_utf8 ["195"; "169"; "255"; "a"; "195"]%char = ["195"; "169"; "a"]%char.
Proof. reflexivity. Qed.
Example header_ex :
  Header 0 {| Helo := "mx.example.com"%string; Remote := "[2001:db8::1]:25"%string; By := "b"%string;
              TProtocol := "ESMTP"%string; TID := "7"%string; Recipient := []; At := 0 |}
  = T "Received: from mx.example.com ([IPv6:2001:db8::1])" ++ CRLF
    ++ [TAB] ++ T "by b (XeronMX) with ESMTP id 7; Thu, 01 Jan 1970 00:00:00 +0000" ++ CRLF.
Proof. vm_compute. reflexivity. Qed.

(** * Lemmas and properties *)

(** ** Subjects *)

(** One step of the decoder: a rune is kept, or one byte is dropped. *)
Lemma to_valid_utf8_step c0 r0 :
  let s := c0 :: r0 in
  (exists rune r, s = rune ++ r /\ (length r < length s)%nat /\
     to_valid_utf8 s = rune ++ to_valid_utf8 r /\
     forall t, valid_utf8 t -> valid_utf8 (rune ++ t)) \/
  to_valid_utf8 s = to_valid_utf8 r0.
Proof.
  cbv zeta. cbn [to_valid_utf8]. destruct (Z.ltb_spec (code c0) 128).
  - left. exists [c0], r0. split_and!; [done|cbn; lia|done|by constructor].
  - destruct r0 as [|c1 r1]; [by right|]. destruct (utf8_2 c0 c1) eqn:E2.
    + left. exists [c0; c1], r1. split_and!; [done|cbn; lia|done|by constructor].
    + destruct r1 as [|c2 r2]; [by right|]. destruct (utf8_3 c0 c1 c2) eqn:E3.
      * left. exists [c0; c1; c2], r2. split_and!; [done|cbn; lia|done|by constructor].
      * destruct r2 as [|c3 r3]; [by right|]. destruct (utf8_4 c0 c1 c2 c3) eqn:E4; [|by right].
        left. exists [c0; c1; c2; c3], r3. split_and!; [done|cbn; lia|done|by constructor].
Qed.

Lemma length_ind (P : text -> Prop) :
  (forall s, (forall r, (length r < length s)%nat -> P r) -> P s) -> forall s, P s.
Proof.
  intros H s. remember (length s) as n eqn:Hn. assert (length s <= n)%nat as Hl by lia. clear Hn.
  revert s Hl. induction n as [|n IH]; intros s Hl; apply H; intros r Hr; [lia|]. apply IH. lia.
Qed.

Lemma to_valid_utf8_valid s : valid_utf8 (to_valid_utf8 s).
Proof.
  induction s as [[|c s] IH] using length_ind; [constructor|].
  destruct (to_valid_utf8_step c s) as [(rune & r & _ & Hl & -> & Hv)| ->]; [by apply Hv, IH|].
  apply IH. cbn. lia.
Qed.

Lemma to_valid_utf8_sublist s : sublist (to_valid_utf8 s) s.
Proof.
  induction s as [[|c s] IH] using length_ind; [apply sublist_nil|].
  destruct (to_valid_utf8_step c s) as [(rune & r & E & Hl & -> & _)| ->].
  - rewrite E. apply sublist_app; [done|by apply IH].
  - apply sublist_cons, IH. cbn. lia.
Qed.

Lemma to_valid_utf8_id s : valid_utf8 s -> to_valid_utf8 s = s.
Proof.
  induction 1 as [|c s Hc _ IH|c0 c1 s Hc _ IH|c0 c1 c2 s Hc _ IH|c0 c1 c2 c3 s Hc _ IH]; cbn [to_valid_utf8].
  - done.
  - destruct (Z.ltb_spec (code c) 128); [by rewrite IH|lia].
  - assert ((code c0 <? 128) = false) as ->
      by (unfold utf8_2, byte_in in Hc; bools; apply Z.ltb_ge; lia).
    by rewrite Hc, IH.
  - assert (224 <= code c0 <= 239).
    { unfold utf8_3, byte_in in Hc. bools. 
      repeat match goal with H : (_ || _)%bool = true |- _ => apply orb_true_iff in H as [H|H] end; bools; lia. }
    assert ((code c0 <? 128) = false) as -> by (apply Z.ltb_ge; lia).
    assert (utf8_2 c0 c1 = false) as ->.
    { unfold utf8_2, byte_in. replace (code c0 <=? 223) with false by (symmetry; apply Z.leb_gt; lia).
      by rewrite andb_false_r. }
    by rewrite Hc, IH.
  - assert (240 <= code c0).
    { unfold utf8_4, byte_in in Hc. bools.
      repeat match goal with H : (_ || _)%bool = true |- _ => apply orb_true_iff in H as [H|H] end; bools; lia. }
    assert ((code c0 <? 128) = false) as -> by (apply Z.ltb_ge; lia).
    assert (forall x, utf8_2 c0 x = false) as ->.
    { intros x. unfold utf8_2, byte_in. replace (code c0 <=? 223) with false by (symmetry; apply Z.leb_gt; lia).
      by rewrite andb_false_r. }
    assert (utf8_3 c0 c1 c2 = false) as ->.
    { unfold utf8_3, byte_in.
      replace (code c0 <=? 224) with false by (symmetry; apply Z.leb_gt; lia).
      replace (code c0 <=? 236) with false by (symmetry; apply Z.leb_gt; lia).
      replace (code c0 <=? 239) with false by (symmetry; apply Z.leb_gt; lia).
      replace (code c0 <=? 237) with false by (symmetry; apply Z.leb_gt; lia).
      by rewrite !andb_false_r. }
    by rewrite Hc, IH.
Qed.

Lemma sublist_elem {A} (l k : list A) x : sublist l k -> x ∈ l -> x ∈ k.
Proof. intros H Hx. eapply elem_of_submseteq; [done|]. by apply sublist_submseteq. Qed.

Lemma header_lines_no_lf head : Forall (fun l => LF ∉ l) (header_lines head).
Proof. apply split_byte_no_sep. Qed.

Lemma continued_elem c subject lines :
  c ∈ continued subject lines -> c = " "%char \/ c ∈ subject \/ exists l, l ∈ lines /\ c ∈ l.
Proof.
  revert subject. induction lines as [|l lines IH]; intros subject; cbn; [auto|].
  case_match; [auto|]. intros [->|[Hs|(k & Hk & Hc)]]%IH; [auto| |].
  - apply elem_of_app in Hs as [Hs|Hs]; [auto|]. cbn in Hs.
    apply elem_of_cons in Hs as [->|Hs]; [auto|]. apply trim_space_elem in Hs.
    right. right. exists l. split; [apply list_elem_of_here|done].
  - right. right. exists k. split; [by apply list_elem_of_further|done].
Qed.

Lemma elem_of_take {A} n (l : list A) x : x ∈ take n l -> x ∈ l.
Proof. intros H. rewrite <- (take_drop n l). apply elem_of_app. by left. Qed.

Lemma elem_of_drop {A} n (l : list A) x : x ∈ drop n l -> x ∈ l.
Proof. intros H. rewrite <- (take_drop n l). apply elem_of_app. by right. Qed.

Lemma subject_of_elem c lines :
  c ∈ subject_of lines -> c = " "%char \/ exists l, l ∈ lines /\ c ∈ l.
Proof.
  induction lines as [|l lines IH]; cbn; [set_solver|].
  case_bool_decide; [set_solver|]. case_match; [intros Hc|].
  - destruct (IH Hc) as [->|(k & ? & ?)]; [auto|]. right. exists k.
    split; [by apply list_elem_of_further|done].
  - intros Hc. eapply sublist_elem in Hc; [|apply to_valid_utf8_sublist].
    assert (c ∈ continued (trim_space (drop 8 l)) lines) as Hd
      by (case_match; [by apply elem_of_take in Hc|done]).
    apply continued_elem in Hd as [->|[Hd|(k & ? & ?)]]; [auto| |].
    + right. exists l. split; [apply list_elem_of_here|].
      by eapply elem_of_drop, trim_space_elem.
    + right. exists k. split; [by apply list_elem_of_further|done].
Qed.

Lemma subject_of_length lines : (length (subject_of lines) <= 500)%nat.
Proof.
  induction lines as [|l lines IH]; cbn [subject_of]; [cbn; lia|]. case_bool_decide; [cbn; lia|].
  case_match; [done|]. etransitivity; [apply sublist_length, to_valid_utf8_sublist|].
  destruct (Nat.ltb_spec 500 (length (continued (trim_space (drop 8 l)) lines))).
  - rewrite length_take. lia.
  - lia.
Qed.

Lemma subject_of_valid lines : valid_utf8 (subject_of lines).
Proof.
  induction lines as [|l lines IH]; cbn; [constructor|]. case_bool_decide; [constructor|].
  case_match; [done|]. apply to_valid_utf8_valid.
Qed.

(** Whatever bytes the client sends as a header block, the subject stored with the
    message and shown in the listings is valid UTF-8, at most 500 bytes long and on one
    line. *)
Theorem subject_stored_safely head :
  valid_utf8 (ExtractSubject head) /\ (length (ExtractSubject head) <= 500)%nat /\
  LF ∉ ExtractSubject head.
Proof.
  unfold ExtractSubject. split_and!; [apply subject_of_valid|apply subject_of_length|].
  intros [H|(l & Hl & Hc)]%subject_of_elem; [done|].
  pose proof (header_lines_no_lf head) as Hn. rewrite Forall_forall in Hn. by eapply Hn.
Qed.

(** ** Blocks of lines *)

(** A field as it stands in the block: lines ended by CRLF, none of them empty. *)
Definition line_ok (l : text) : Prop := no_break l /\ l <> [].

Definition block (lines : list text) : text := concat (map (fun l => l ++ CRLF) lines).

Lemma header_lines_line l s : no_break l -> header_lines (l ++ CRLF ++ s) = l :: header_lines s.
Proof.
  intros [Hcr Hlf]. unfold header_lines. rewrite crlf_to_lf_line by done. by rewrite split_byte_app.
Qed.

Lemma header_lines_block lines s :
  Forall no_break lines -> header_lines (block lines ++ s) = lines ++ header_lines s.
Proof.
  induction 1 as [|l lines Hl _ IH]; [done|].
  change (block (l :: lines)) with ((l ++ CRLF) ++ block lines).
  rewrite <- !app_assoc, header_lines_line by done. by rewrite IH.
Qed.

Lemma subject_of_here name v rest :
  to_lower name = "subject:"%string ->
  subject_of ((name ++ v) :: rest) =
    let subject := continued (trim_space v) rest in
    to_valid_utf8 (if (500 <? length subject)%nat then take 500 subject else subject).
Proof.
  intros Hn. assert (length name = 8%nat) as H8 by (by rewrite <- (length_to_lower name), Hn).
  cbn [subject_of]. rewrite bool_decide_eq_false_2 by (destruct name; done).
  assert ((length (name ++ v) <? 8)%nat = false) as -> by (apply Nat.ltb_ge; rewrite length_app; lia).
  rewrite take_app_length', drop_app_length' by done.
  assert (equal_fold name "subject:"%string = true) as ->; [|done].
  apply equal_fold_spec. rewrite Hn. reflexivity.
Qed.

(** The first field named Subject, in any case, gives the subject: the fields before
    it are skipped, its value loses the blanks around it, and nothing after the next
    field is read. *)
Theorem ExtractSubject_finds before name value next rest :
  Forall line_ok before ->
  Forall (fun l => field_line "subject:"%string l = false) before ->
  to_lower name = "subject:"%string ->
  no_break name -> no_break value -> no_break next ->
  has_prefix " "%string next = false -> has_prefix [TAB] next = false ->
  trim_space value = value -> valid_utf8 value -> (length value <= 500)%nat ->
  ExtractSubject (block (before ++ [name ++ " "%string ++ value; next]) ++ rest) = value.
Proof.
  intros Hb Hf Hname Hnb Hvb Hxb Hsp Htab Htrim Hv Hlen. unfold ExtractSubject.
  rewrite header_lines_block.
  2: { apply Forall_app. split; [eapply Forall_impl; [exact Hb|]; by intros ? []|].
       constructor; [no_breaks|]. by apply Forall_singleton. }
  rewrite <- app_assoc. induction before as [|l before IH].
  - cbn [app]. rewrite subject_of_here by done.
    cbn [continued]. rewrite Hsp, Htab, orb_true_r.
    assert (trim_space (" "%string ++ value) = value) as Htr.
    { exact Htrim. }
    rewrite Htr. cbv zeta.
    destruct (Nat.ltb_spec 500 (length value)); [lia|]. by apply to_valid_utf8_id.
  - inversion Hb as [|? ? [Hlb Hne] Hb']; subst. inversion Hf as [|? ? Hlf Hf']; subst.
    cbn [app subject_of]. rewrite bool_decide_eq_false_2 by done.
    replace ((length l <? 8)%nat || negb (equal_fold (take 8 l) "subject:"%string)) with true; [by apply IH|].
    unfold field_line in Hlf. change (length (T "subject:")) with 8%nat in Hlf.
    destruct (Nat.ltb_spec (length l) 8) as [?|Hge]; [done|].
    apply Nat.leb_le in Hge. rewrite Hge in Hlf. cbn [andb] in Hlf. by rewrite Hlf.
Qed.

Lemma ExtractSubject_finds_witness :
  ExtractSubject (block [T "From: a@example.com"; T "SUBJECT: hello world"; T "To: b@example.org"] ++ CRLF)
  = T "hello world".
Proof.
  apply (ExtractSubject_finds [T "From: a@example.com"] (T "SUBJECT:") (T "hello world")
           (T "To: b@example.org") CRLF); try reflexivity; try (apply no_break_lit; reflexivity).
  - constructor; [split; [apply no_break_lit; reflexivity|discriminate]|constructor].
  - repeat constructor.
  - repeat (apply utf8_one; [reflexivity|]). constructor.
  - cbn. lia.
Defined.

(** ** The trace field *)

Lemma traceToken_no_break s : no_break (traceToken s).
Proof. unfold traceToken. by apply no_break_filter. Qed.
#[export] Hint Resolve traceToken_no_break : xmx.

Lemma count_lines_cons prefix l rest :
  l <> [] -> count_lines prefix (l :: rest) =
    ((if field_line prefix l then 1 else 0) + count_lines prefix rest)%nat.
Proof. intros H. cbn. by rewrite bool_decide_eq_false_2. Qed.

Lemma length_count_prefix p q : has_prefix p q = true -> (length p <= length q)%nat.
Proof. intros [r ->]%has_prefix_spec. rewrite length_app. lia. Qed.

(** The lines of a trace field: one that starts it and continuations. *)
Lemma Header_lines zone t :
  no_break (Remote t) -> no_break (TProtocol t) -> no_break (TID t) ->
  exists first conts,
    Header zone t = block (("Received: "%string ++ first) :: map (cons TAB) conts) /\
    no_break first /\ Forall no_break conts.
Proof.
  intros Hr Hp Hid. unfold Header.
  set (helo := if bool_decide _ then _ else _).
  set (lit := match ParseIP _ with Some _ => _ | None => _ end).
  assert (no_break helo) by (unfold helo; case_bool_decide; [apply no_break_lit; reflexivity|auto with xmx]).
  assert (no_break lit).
  { unfold lit. destruct (ParseIP _) as [a|]; [case_bool_decide|]; no_breaks; auto with xmx. }
  exists ("from "%string ++ helo ++ " ("%string ++ lit ++ ")"%string).
  set (by_ := "by "%string ++ traceToken (By t) ++ " (XeronMX) with "%string ++ TProtocol t
              ++ " id "%string ++ TID t).
  assert (no_break by_) by (unfold by_; no_breaks).
  set (date := "; "%string ++ rfc1123z zone (At t)).
  assert (no_break date) by (unfold date; no_breaks).
  case_bool_decide.
  - exists [by_ ++ date]. split_and!; [|no_breaks|apply Forall_singleton; no_breaks].
    unfold block, by_, date, CRLF. cbn. rewrite <- !app_assoc. cbn. by rewrite <- !app_assoc.
  - set (for_ := "for <"%string ++ traceToken (Recipient t) ++ ">"%string).
    assert (no_break for_) by (unfold for_; no_breaks; auto with xmx).
    exists [by_; for_ ++ date].
    split_and!; [|no_breaks|apply Forall_cons; split; [|apply Forall_singleton]; no_breaks].
    unfold block, by_, for_, date, CRLF. cbn. rewrite <- !app_assoc. cbn. by rewrite <- !app_assoc.
Qed.

Lemma field_line_cont prefix l :
  match prefix with c :: _ => lower_char TAB <> lower_char c | [] => False end ->
  field_line prefix (TAB :: l) = false.
Proof.
  destruct prefix as [|c prefix]; [done|]. intros Hc. unfold field_line, equal_fold.
  apply andb_false_iff. right. apply bool_decide_eq_false. cbn -[lower_char]. congruence.
Qed.

(** The trace field put in front of a message adds exactly one to its [Received]
    fields, whatever the client said in HELO and RCPT, and hides or adds no other field:
    no HELO name can forge a field or end the header block. *)
Theorem Header_adds_one_hop zone t head :
  no_break (Remote t) -> no_break (TProtocol t) -> no_break (TID t) ->
  CountReceived (Header zone t ++ head) = S (CountReceived head) /\
  (forall name, match name with c :: _ => lower_char c <> TAB | [] => False end ->
     field_line (name ++ ":"%string) "Received: "%string = false ->
     (length name < 9)%nat ->
     countHeader (Header zone t ++ head) name = countHeader head name).
Proof.
  intros Hr Hp Hid. destruct (Header_lines zone t Hr Hp Hid) as (first & conts & -> & Hf & Hc).
  assert (Hlines : header_lines (block (("Received: "%string ++ first) :: map (cons TAB) conts) ++ head)
    = ("Received: "%string ++ first) :: map (cons TAB) conts ++ header_lines head).
  { rewrite header_lines_block; [done|]. constructor; [no_breaks|].
    apply Forall_map. eapply Forall_impl; [exact Hc|]. intros l Hl. apply no_break_cons. by split. }
  assert (Hconts : forall p rest, match p with c :: _ => lower_char TAB <> lower_char c | [] => False end ->
    count_lines p (map (cons TAB) conts ++ rest) = count_lines p rest).
  { intros p rest Hp'. clear -Hp'. induction conts as [|l conts IH]; [done|].
    cbn [map app]. rewrite count_lines_cons by done. by rewrite field_line_cont, IH. }
  unfold CountReceived, countHeader. rewrite Hlines. split.
  - rewrite count_lines_cons by done. by rewrite Hconts.
  - intros name Hname Hno Hlen. rewrite count_lines_cons by done.
    rewrite Hconts by (destruct name as [|c name]; [done|]; cbn; intros E; apply Hname; by rewrite <- E).
    replace (field_line _ _) with false; [done|]. symmetry.
    unfold field_line in Hno |- *. rewrite !length_app in *. cbn [length T String.list_ascii_of_string] in *.
    rewrite take_app_le by (cbn; lia).
    replace (length name + 1 <=? 10)%nat with true in Hno by (symmetry; apply Nat.leb_le; lia).
    by rewrite andb_true_l in Hno; rewrite Hno, andb_false_r.
Qed.

Lemma Header_adds_one_hop_witness :
  let t := {| Helo := "evil" ++ CRLF ++ "Received: from x" ++ CRLF ++ CRLF; Remote := "192.0.2.1:25"%string;
              By := "mx"%string; TProtocol := "ESMTPS"%string; TID := "0123"%string;
              Recipient := "a@b.c"%string; At := 0 |} in
  CountReceived (Header 0 t ++ T "Received: from a" ++ CRLF ++ CRLF) = 2%nat.
Proof.
  intros t.
  apply (Header_adds_one_hop 0 t (T "Received: from a" ++ CRLF ++ CRLF));
    apply no_break_lit; reflexivity.
Defined.
