(* ===== verification/Auth.v ===== *)
(** * Passwords and tokens (internal/auth)

    argon2id is a function of the [PasswordCrypto] class, SHA-256 is that of [Sha]; what is
    modelled is how the sources build, read and compare what those functions return.
    The semaphore that bounds concurrent hashing is left out. *)

From S2P Require Import Prelude GoStrings Base64 Sha Errors MailUtil.

(** The function of golang.org/x/crypto/argon2. *)
Class PasswordCrypto := {
  IDKey : text -> text -> Z -> Z -> Z -> Z -> text       (* password, salt, time, memory, threads, keyLen *)
}.

(** ** The part of [fmt.Sscanf] the sources use: literals and %d *)

Inductive directive :=
| Literal (c : ascii)
| Int (bits : Z)
| Uint (bits : Z).

Definition literals (s : text) : list directive := map Literal s.

(** [SkipSpace]: a line end is an error. *)
Fixpoint skip_space (s : text) : option text :=
  match s with
  | c :: r => if bool_decide (c = LF) then None else if is_space c then skip_space r else Some s
  | [] => Some []
  end.

Fixpoint take_digits (s : text) : text * text :=
  match s with
  | c :: r => if is_digit c then let '(d, rest) := take_digits r in (c :: d, rest) else ([], s)
  | [] => ([], [])
  end.

Fixpoint digits_value (acc : Z) (s : text) : Z :=
  match s with [] => acc | c :: r => digits_value (10 * acc + (code c - 48)) r end.

(** A run of digits below the bound; none at all is an error. *)
Definition scan_number (s : text) (bound : Z) : option (Z * text) :=
  let '(d, rest) := take_digits s in
  if bool_decide (d = []) then None
  else if digits_value 0 d <? bound then Some (digits_value 0 d, rest) else None.

Definition scan_int (bits : Z) (s : text) : option (Z * text) :=
  match s with
  | "-"%char :: r => '(n, rest) ← scan_number r (2 ^ (bits - 1) + 1); Some (- n, rest)
  | "+"%char :: r => scan_number r (2 ^ (bits - 1))
  | _ => scan_number s (2 ^ (bits - 1))
  end.

(** What follows the last directive is left unread. *)
Fixpoint Sscanf (s : text) (format : list directive) : option (list Z) :=
  match format with
  | [] => Some []
  | Literal c :: format =>
      match s with
      | d :: s => if bool_decide (c = d) then Sscanf s format else None
      | [] => None
      end
  | Int bits :: format =>
      s ← skip_space s;
      '(n, s) ← scan_int bits s;
      ns ← Sscanf s format;
      Some (n :: ns)
  | Uint bits :: format =>
      s ← skip_space s;
      '(n, s) ← scan_number s (2 ^ bits);
      ns ← Sscanf s format;
      Some (n :: ns)
  end.

(** ** Passwords *)

Definition argonTime : Z := 2.
Definition argonMemory : Z := 19 * 1024.
Definition argonThreads : Z := 1.
Definition argonKeyLen : Z := 32.
Definition saltLen : nat := 16.
Definition argon2_Version : Z := 19.       (* argon2.Version, 0x13 *)

Definition MinPasswordLength : Z := 12.
Definition MaxPasswordBytes : Z := 1024.

Definition ErrInvalidHash : error := EText "auth: malformed password hash"%string.
Definition ErrPasswordTooLong : error := EText ("auth: password exceeds "%string ++ dec MaxPasswordBytes ++ " bytes"%string).

(** [utf8.RuneCountInString]: a malformed byte counts as one rune. *)
Fixpoint rune_count (s : text) : Z :=
  match s with
  | [] => 0
  | c0 :: r0 =>
      1 + match r0 with
          | c1 :: r1 =>
              if utf8_2 c0 c1 then rune_count r1
              else match r1 with
                   | c2 :: r2 =>
                       if utf8_3 c0 c1 c2 then rune_count r2
                       else match r2 with
                            | c3 :: r3 => if utf8_4 c0 c1 c2 c3 then rune_count r3 else rune_count r0
                            | [] => rune_count r0
                            end
                   | [] => rune_count r0
                   end
          | [] => 0
          end
  end.

Section auth.
Context `{PasswordCrypto}.

(** [salt] is what [rand.Read] fills the buffer with, if it does. *)
Definition HashPassword (salt : result text) (password : text) : result text :=
  if MaxPasswordBytes <? Z.of_nat (length password) then Err ErrPasswordTooLong
  else
    match salt with
    | Err e => Err (EWrap "auth: generate salt"%string e)
    | Ok salt =>
        let key := IDKey password salt argonTime argonMemory argonThreads argonKeyLen in
        Ok ("$argon2id$v="%string ++ dec argon2_Version
            ++ "$m="%string ++ dec argonMemory ++ ",t="%string ++ dec argonTime ++ ",p="%string ++ dec argonThreads
            ++ "$"%string ++ EncodeToString std_alphabet salt
            ++ "$"%string ++ EncodeToString std_alphabet key)
    end.

Definition version_format : list directive := literals "v="%string ++ [Int 64].
Definition params_format : list directive :=
  literals "m="%string ++ [Uint 32] ++ literals ",t="%string ++ [Uint 32] ++ literals ",p="%string ++ [Uint 8].

(** The last step of [VerifyPassword], on the decoded fields. *)
Definition same_key (password salt want : text) (memory time threads : Z) : bool :=
  bool_decide (IDKey password salt time memory threads (Z.of_nat (length want) mod 2 ^ 32) = want).

Definition VerifyPassword (password encoded : text) : result bool :=
  if MaxPasswordBytes <? Z.of_nat (length password) then Ok false
  else
    match split_byte "$"%char encoded with
    | [_; kind; version; params; salt; want] =>
        if negb (bool_decide (kind = "argon2id"%string)) then Err ErrInvalidHash
        else
          match Sscanf version version_format, Sscanf params params_format with
          | Some [v], Some [memory; time; threads] =>
              if negb (v =? argon2_Version) then Err ErrInvalidHash
              else match DecodeString std_alphabet salt, DecodeString std_alphabet want with
                   | Some salt, Some want => Ok (same_key password salt want memory time threads)
                   | _, _ => Err ErrInvalidHash
                   end
          | _, _ => Err ErrInvalidHash
          end
    | _ => Err ErrInvalidHash
    end.

Definition ValidatePassword (password : text) : option error :=
  if rune_count password <? MinPasswordLength then
    Some (EText ("password must be at least "%string ++ dec MinPasswordLength ++ " characters"%string))
  else if MaxPasswordBytes <? Z.of_nat (length password) then
    Some (EText ("password must be at most "%string ++ dec MaxPasswordBytes ++ " bytes"%string))
  else None.

(** ** Tokens *)

Definition HashToken (token : text) : text := hex_encode (Sum256 token).

(** [random] is the 32 bytes of [rand.Read], if it gives them. *)
Definition NewSessionToken (random : result text) : result (text * text) :=
  match random with
  | Err e => Err (EWrap "auth: generate session token"%string e)
  | Ok b => let token := EncodeToString url_alphabet b in Ok (token, HashToken token)
  end.

Definition TokenPrefix : text := "xmx_"%string.
Definition PrefixLength : nat := length TokenPrefix + 8.

Definition NewAPIToken (random : result text) : result (text * text * text) :=
  match random with
  | Err e => Err (EWrap "auth: generate api token"%string e)
  | Ok b =>
      let token := TokenPrefix ++ EncodeToString url_alphabet b in
      Ok (token, HashToken token, take PrefixLength token)
  end.

(** ** A stored hash reads back as it was written *)

Lemma std_no_dollar s : "$"%char ∉ EncodeToString std_alphabet s.
Proof.
  apply std_encode_excludes; [|done]. by apply (bool_decide_eq_true_1 (_ ∉ _)).
Qed.

Lemma HashPassword_fields salt password :
  Z.of_nat (length password) <= MaxPasswordBytes ->
  exists encoded, HashPassword (Ok salt) password = Ok encoded /\
    split_byte "$"%char encoded =
      [[]; T "argon2id"; T "v=19"; T "m=19456,t=2,p=1"; EncodeToString std_alphabet salt;
       EncodeToString std_alphabet (IDKey password salt argonTime argonMemory argonThreads argonKeyLen)].
Proof.
  intros Hlen. unfold HashPassword. destruct (Z.ltb_spec MaxPasswordBytes (Z.of_nat (length password))); [lia|].
  eexists. split; [reflexivity|].
  set (key := IDKey _ _ _ _ _ _). set (es := EncodeToString std_alphabet salt). set (ek := EncodeToString std_alphabet key).
  transitivity (split_byte "$"%char ([] ++ "$"%char :: T "argon2id" ++ "$"%char :: T "v=19" ++ "$"%char ::
    T "m=19456,t=2,p=1" ++ "$"%char :: es ++ "$"%char :: ek)); [reflexivity|].
  rewrite !split_byte_app; try apply std_no_dollar; try by apply (bool_decide_eq_true_1 (_ ∉ _)).
  by rewrite split_byte_id by apply std_no_dollar.
Qed.

Lemma VerifyPassword_hash salt password q encoded :
  HashPassword (Ok salt) password = Ok encoded ->
  Z.of_nat (length (IDKey password salt argonTime argonMemory argonThreads argonKeyLen)) = argonKeyLen ->
  VerifyPassword q encoded =
    Ok (negb (MaxPasswordBytes <? Z.of_nat (length q)) &&
        bool_decide (IDKey q salt argonTime argonMemory argonThreads argonKeyLen =
                     IDKey password salt argonTime argonMemory argonThreads argonKeyLen)).
Proof.
  intros Hh Hlen. unfold VerifyPassword. destruct (MaxPasswordBytes <? Z.of_nat (length q)); [done|].
  assert (Hp : Z.of_nat (length password) <= MaxPasswordBytes).
  { unfold HashPassword in Hh. destruct (Z.ltb_spec MaxPasswordBytes (Z.of_nat (length password))); [done|lia]. }
  destruct (HashPassword_fields salt password Hp) as (e & He & Hs). rewrite He in Hh. injection Hh as ->.
  rewrite Hs. rewrite bool_decide_eq_true_2 by done. cbn [negb].
  replace (Sscanf (T "v=19") version_format) with (Some [19]) by (vm_compute; reflexivity).
  replace (Sscanf (T "m=19456,t=2,p=1") params_format) with (Some [19456; 2; 1]) by (vm_compute; reflexivity).
  cbn [Z.eqb]. rewrite !decode_encode by apply std_alphabet_ok. unfold same_key. rewrite Hlen.
  done.
Qed.
End auth.

(** ** Properties *)

(** A password set and then presented is accepted, and any other password is accepted
    exactly when argon2id gives it the same key under the stored salt: the hash that is
    written reads back with its own parameters, salt and key, and a password beyond the
    length limit is neither stored nor accepted. *)
Theorem password_round_trip `{PasswordCrypto} salt password q encoded :
  (forall p s t m th n, 0 <= n -> Z.of_nat (length (IDKey p s t m th n)) = n) ->
  HashPassword (Ok salt) password = Ok encoded ->
  VerifyPassword password encoded = Ok true /\
  VerifyPassword q encoded =
    Ok (negb (MaxPasswordBytes <? Z.of_nat (length q)) &&
        bool_decide (IDKey q salt argonTime argonMemory argonThreads argonKeyLen =
                     IDKey password salt argonTime argonMemory argonThreads argonKeyLen)).
Proof.
  intros Hlen Hh. split; [|by apply VerifyPassword_hash, Hlen].
  rewrite (VerifyPassword_hash salt password password encoded Hh) by by apply Hlen.
  rewrite bool_decide_eq_true_2 by done. unfold HashPassword in Hh.
  by destruct (MaxPasswordBytes <? Z.of_nat (length password)).
Qed.

(** A key derivation with the length argon2id promises, for examples. *)
Definition sample_crypto : PasswordCrypto :=
  {| IDKey := fun p s t m th n => take (Z.to_nat n) (p ++ s ++ replicate (Z.to_nat n) "0"%char) |}.

Lemma password_round_trip_witness :
  exists encoded, @HashPassword sample_crypto (Ok (T "0123456789abcdef")) "correct horse battery"%string = Ok encoded /\
    @VerifyPassword sample_crypto "correct horse battery"%string encoded = Ok true /\
    @VerifyPassword sample_crypto "correct horse batterz"%string encoded = Ok false.
Proof.
  eexists. split; [reflexivity|].
  assert (Hlen : forall p s t m th n, 0 <= n -> Z.of_nat (length (@IDKey sample_crypto p s t m th n)) = n).
  { intros p s t m th n Hn. cbn. rewrite length_take, !length_app, length_replicate. lia. }
  destruct (@password_round_trip sample_crypto (T "0123456789abcdef") "correct horse battery"%string
    "correct horse batterz"%string _ Hlen eq_refl) as [H1 H2].
  split; [exact H1|]. rewrite H2. reflexivity.
Defined.
