(* ===== verification/Dsn.v ===== *)
(** * Delivery status notifications (internal/dsn)

    The failures of a message and the multipart/report built from them.  The two
    random tokens of a report are arguments; an absent one is a failed read of the
    random source. *)

From S2P Require Import Prelude GoStrings Times Errors.
From S2P Require Import Net MailUtil.

Record Failure := { FRecipient : text; FStatus : text; Diagnostic : text }.

Record Report := {
  ReportingMTA : text;
  RQueueID : text;
  Arrival : option Z;          (* [None]: the zero time *)
  RRecipient : text;
  Failures : list Failure;
  Headers : text
}.

(** [fmt.Sprintf("%d.%d.%d", ...)] of an enhanced code. *)
Definition enhanced_text (c : enhanced_code) : text :=
  dec (enh_class c) ++ "."%string ++ dec (enh_subject c) ++ "."%string ++ dec (enh_detail c).

Definition FromError `{SmtpLib} (rcpt : text) (err : error) : Failure :=
  match as_smtp err with
  | Some reply =>
      let c := EnhancedCode reply in
      let status :=
        if (enh_class c =? 4) || (enh_class c =? 5) then enhanced_text c
        else dec (Z.quot (Code reply) 100) ++ ".0.0"%string in
      {| FRecipient := rcpt; FStatus := status;
         Diagnostic := "smtp; "%string ++ dec (Code reply) ++ " "%string ++ status ++ " "%string ++ Message reply |}
  | None =>
      {| FRecipient := rcpt; FStatus := "5.0.0"%string;
         Diagnostic := "X-XeronMX; "%string ++ error_text err |}
  end.

(** [d.Round(time.Hour)]: to the nearest hour, halves away from zero. *)
Definition round_hour (d : Z) : Z :=
  let r := Z.rem (Z.abs d) hour in
  let a := if r + r <? hour then Z.abs d - r else Z.abs d + (hour - r) in
  if d <? 0 then - a else a.

(** [Duration.String] of a whole number of hours. *)
Definition hours_text (d : Z) : text :=
  if d =? 0 then "0s"%string else dec (Z.quot d hour) ++ "h0m0s"%string.

Definition Expired (rcpt : text) (held : Z) : Failure :=
  {| FRecipient := rcpt; FStatus := "4.4.7"%string;
     Diagnostic := "X-XeronMX; the destination server did not accept the message within "%string
                   ++ hours_text (round_hour held) |}.

Definition Lost (rcpt : text) : Failure :=
  {| FRecipient := rcpt; FStatus := "5.3.0"%string;
     Diagnostic := "X-XeronMX; the message could not be read back from the backup server's spool"%string |}.

(** ** [HeadersOf]: the header block of the original, lines ended by CRLF *)

Definition maxHeaderBytes : nat := Z.to_nat 65536.

Definition line_end (c : ascii) : bool := bool_decide (c = CR) || bool_decide (c = LF).

Fixpoint headers_of_lines (lines : list text) : text :=
  match lines with
  | [] => []
  | line :: rest =>
      let line := trim_right line_end line in
      if bool_decide (line = []) then [] else line ++ CRLF ++ headers_of_lines rest
  end.

Definition HeadersOf (r : text) : text := headers_of_lines (split_byte LF (take maxHeaderBytes r)).

(** ** [Build] *)

Definition clean_keeps (c : ascii) : bool :=
  negb (bool_decide (c = CR) || bool_decide (c = LF)
        || (code c <? 32) && negb (bool_decide (c = TAB)) || (126 <? code c)).

Definition clean (s : text) : text := List.filter clean_keeps s.

(** [w(format, ...)]: a line and its CRLF. *)
Definition w (line : text) : text := line ++ CRLF.

Definition failure_text (f : Failure) : text :=
  w ("  <"%string ++ clean (FRecipient f) ++ ">: "%string ++ clean (Diagnostic f)).

Definition failure_fields (f : Failure) : text :=
  w [] ++ w ("Final-Recipient: rfc822; "%string ++ clean (FRecipient f)) ++ w "Action: failed"%string
  ++ w ("Status: "%string ++ clean (FStatus f))
  ++ w ("Diagnostic-Code: "%string ++ clean (Diagnostic f)).

Definition report_fields (r : Report) (host boundary nonce : text) (now : Z) : text :=
  w ("From: Mail Delivery System <MAILER-DAEMON@"%string ++ host ++ ">"%string)
  ++ w ("To: <"%string ++ clean (RRecipient r) ++ ">"%string)
  ++ w "Subject: Undelivered Mail Returned to Sender"%string
  ++ w ("Date: "%string ++ rfc1123z 0 now)
  ++ w ("Message-ID: <"%string ++ clean (RQueueID r) ++ "."%string ++ nonce ++ "@"%string ++ host ++ ">"%string)
  ++ w "Auto-Submitted: auto-replied"%string
  ++ w "MIME-Version: 1.0"%string
  ++ w ("Content-Type: multipart/report; report-type=delivery-status; boundary="%string ++ [DQ] ++ boundary ++ [DQ]).

Definition Build (tokens : option text * option text) (r : Report) (now : Z) : result text :=
  if bool_decide (RRecipient r = []) then Err (EText "dsn: a report needs somewhere to go"%string)
  else if bool_decide (Failures r = []) then Err (EText "dsn: nothing to report"%string)
  else match tokens with
  | (None, _) | (_, None) => Err (EWrap "dsn"%string (EText "random source failed"%string))
  | (Some boundary, Some nonce) =>
      let host := clean (ReportingMTA r) in
      Ok (report_fields r host boundary nonce now
          ++ w []
          ++ w "This is a MIME-formatted message delivery status notification."%string
          ++ w []
          ++ w ("--"%string ++ boundary)
          ++ w "Content-Type: text/plain; charset=us-ascii"%string
          ++ w []
          ++ w ("This is the mail system at "%string ++ host ++ ", a backup mail exchanger."%string)
          ++ w []
          ++ w "Your message was accepted here while the destination server was"%string
          ++ w "unreachable, but it could not be delivered to the following"%string
          ++ w "recipients. The report below says why."%string
          ++ w []
          ++ concat (map failure_text (Failures r))
          ++ w []
          ++ w ("--"%string ++ boundary)
          ++ w "Content-Type: message/delivery-status"%string
          ++ w []
          ++ w ("Reporting-MTA: dns; "%string ++ host)
          ++ (if bool_decide (RQueueID r = []) then []
              else w ("X-XeronMX-Queue-ID: "%string ++ clean (RQueueID r)))
          ++ match Arrival r with
             | Some t => w ("Arrival-Date: "%string ++ rfc1123z 0 t)
             | None => []
             end
          ++ concat (map failure_fields (Failures r))
          ++ w []
          ++ (if (0 <? length (Headers r))%nat then
                w ("--"%string ++ boundary) ++ w "Content-Type: text/rfc822-headers"%string ++ w []
                ++ Headers r ++ w []
              else [])
          ++ w ("--"%string ++ boundary ++ "--"%string))
  end.

Example expired_ex :
  Diagnostic (Expired [] (120 * hour + 31 * minute))
  = T "X-XeronMX; the destination server did not accept the message within 121h0m0s".
Proof. reflexivity. Qed.

(** * What a report can and cannot contain *)

Lemma clean_no_break s : no_break (clean s).
Proof. unfold clean. by apply no_break_filter. Qed.
#[export] Hint Resolve clean_no_break : xmx.

(** The lines of the header block of a text: those before its first empty line. *)
Fixpoint before_blank (lines : list text) : list text :=
  match lines with
  | [] => []
  | l :: rest => if bool_decide (l = []) then [] else l :: before_blank rest
  end.

Definition header_block (msg : text) : list text := before_blank (header_lines msg).

Lemma header_block_line l msg :
  no_break l -> l <> [] -> header_block (w l ++ msg) = l :: header_block msg.
Proof.
  intros Hl Hne. unfold header_block, w. rewrite <- app_assoc, header_lines_line by done.
  cbn. by rewrite bool_decide_eq_false_2.
Qed.

Lemma header_block_end msg : header_block (w [] ++ msg) = [].
Proof. unfold header_block, w. rewrite <- app_assoc, header_lines_line by apply no_break_nil. done. Qed.

(** A report that can be built has exactly the eight header fields of its template, the
    one recipient it was asked for, and [Auto-Submitted]: nothing in the failed
    recipients, the remote diagnostics, the queue identifier or the original's headers
    reaches the header block; it is refused when it has no recipient or no failure. *)
Theorem Build_header_exact boundary nonce r now :
  no_break boundary -> no_break nonce ->
  match Build (Some boundary, Some nonce) r now with
  | Ok body =>
      header_block body =
        ["From: Mail Delivery System <MAILER-DAEMON@"%string ++ clean (ReportingMTA r) ++ ">"%string;
         "To: <"%string ++ clean (RRecipient r) ++ ">"%string;
         T "Subject: Undelivered Mail Returned to Sender";
         "Date: "%string ++ rfc1123z 0 now;
         "Message-ID: <"%string ++ clean (RQueueID r) ++ "."%string ++ nonce ++ "@"%string
           ++ clean (ReportingMTA r) ++ ">"%string;
         T "Auto-Submitted: auto-replied";
         T "MIME-Version: 1.0";
         "Content-Type: multipart/report; report-type=delivery-status; boundary="%string
           ++ [DQ] ++ boundary ++ [DQ]]
      /\ RRecipient r <> [] /\ Failures r <> []
  | Err _ => RRecipient r = [] \/ Failures r = []
  end.
Proof.
  intros Hb Hn. unfold Build. case_bool_decide; [by left|]. case_bool_decide; [by right|].
  split; [|done]. unfold report_fields. rewrite <- !app_assoc.
  repeat (rewrite header_block_line; [|no_breaks|discriminate]).
  by rewrite header_block_end.
Qed.

Definition sample_report : Report :=
  {| ReportingMTA := "backup.example.net"%string; RQueueID := "ab12"%string; Arrival := Some 0;
     RRecipient := "sender@example.org" ++ CRLF ++ "Bcc: victim@example.com";
     Failures := [{| FRecipient := "user@example.com"%string; FStatus := "5.1.1"%string;
                     Diagnostic := "smtp; 550 no" ++ CRLF ++ CRLF ++ "--x" |}];
     Headers := "Subject: hi" ++ CRLF |}.

Lemma Build_header_exact_witness :
  exists body, Build (Some (T "00ff"), Some (T "11ee")) sample_report 0 = Ok body /\
    nth 1 (header_block body) [] = T "To: <sender@example.orgBcc: victim@example.com>".
Proof.
  pose proof (Build_header_exact (T "00ff") (T "11ee") sample_report 0
    ltac:(apply no_break_lit; reflexivity) ltac:(apply no_break_lit; reflexivity)) as H.
  destruct (Build _ sample_report 0) as [body|e] eqn:E; [|discriminate].
  exists body. split; [done|]. destruct H as [-> _]. reflexivity.
Defined.
