(* ===== verification/Filter.v ===== *)
(** * Filter rules (internal/store/filters.go, internal/filter)

    The rule table, the compiled set the intake evaluates, and the tester of the
    administration API.  Go's [regexp] is an argument: [Compile] of a pattern and
    [MatchString] of what it gives. *)

From S2P Require Import Prelude GoStrings Times Errors StoreTypes StoreQueue StoreDomains.
From Stdlib Require Import QArith.
Open Scope Z_scope.

(** ** The table *)

Definition FieldFrom : text := "from"%string.
Definition FieldTo : text := "to"%string.
Definition FieldSubject : text := "subject"%string.
Definition FilterReject : text := "reject"%string.
Definition FilterQuarantine : text := "quarantine"%string.
Definition FilterAllow : text := "allow"%string.

Record Filter := {
  FltID : Z;
  FltName : text;
  FltField : text;
  FltPattern : text;
  FltAction : text;
  FltEnabled : bool;
  FltPriority : Z;
  FltMatchCount : Z;
  FltLastMatchAt : option Z;
  FltCreatedAt : Z
}.

Definition ValidFilterField (f : text) : bool := bool_decide (f ∈ [FieldFrom; FieldTo; FieldSubject]).

Definition ValidFilterAction (a : text) : bool :=
  bool_decide (a ∈ [FilterReject; FilterQuarantine; FilterAllow]).

Record filter_table := FilterTable { flt_rows : list Filter; flt_next : Z }.

(** The schema's CHECK constraints. *)
Definition filter_checks (f : Filter) : bool := ValidFilterField (FltField f) && ValidFilterAction (FltAction f).

Definition check_failed (prefix : text) : error := EWrap prefix (EText "CHECK constraint failed"%string).

Definition CreateFilter (f : Filter) (now : Z) (t : filter_table) : result Z * filter_table :=
  if filter_checks f then
    let row := {| FltID := flt_next t; FltName := trim_space (FltName f); FltField := FltField f;
                  FltPattern := FltPattern f; FltAction := FltAction f; FltEnabled := FltEnabled f;
                  FltPriority := FltPriority f; FltMatchCount := 0; FltLastMatchAt := None;
                  FltCreatedAt := now |} in
    (Ok (flt_next t), FilterTable (flt_rows t ++ [row]) (flt_next t + 1))
  else (Err (check_failed "store: create filter"%string), t).

Definition filter_is (id : Z) (f : Filter) : bool := FltID f =? id.

Definition UpdateFilter (f : Filter) (t : filter_table) : result unit * filter_table :=
  if existsb (filter_is (FltID f)) (flt_rows t) then
    if filter_checks f then
      let upd r :=
        if filter_is (FltID f) r then
          {| FltID := FltID r; FltName := trim_space (FltName f); FltField := FltField f;
             FltPattern := FltPattern f; FltAction := FltAction f; FltEnabled := FltEnabled f;
             FltPriority := FltPriority f; FltMatchCount := FltMatchCount r;
             FltLastMatchAt := FltLastMatchAt r; FltCreatedAt := FltCreatedAt r |}
        else r in
      (Ok (), FilterTable (map upd (flt_rows t)) (flt_next t))
    else (Err (check_failed "store: exec"%string), t)
  else (Err not_found, t).

Definition DeleteFilter (id : Z) (t : filter_table) : result unit * filter_table :=
  if existsb (filter_is id) (flt_rows t) then
    (Ok (), FilterTable (List.filter (fun r => negb (filter_is id r)) (flt_rows t)) (flt_next t))
  else (Err not_found, t).

Definition FilterByID (id : Z) (t : filter_table) : result Filter :=
  match find (filter_is id) (flt_rows t) with Some f => Ok f | None => Err not_found end.

(** [ORDER BY priority, id]. *)
Definition filter_le (a b : Filter) : Prop :=
  FltPriority a < FltPriority b \/ (FltPriority a = FltPriority b /\ FltID a <= FltID b).
#[export] Instance filter_le_dec : RelDecision filter_le.
Proof. intros a b. unfold filter_le. apply _. Defined.

Definition ListFilters (t : filter_table) : list Filter := merge_sort filter_le (flt_rows t).

(** A rule deleted meanwhile is no error. *)
Definition RecordFilterMatch (id now : Z) (t : filter_table) : filter_table :=
  let upd r :=
    if filter_is id r then
      {| FltID := FltID r; FltName := FltName r; FltField := FltField r; FltPattern := FltPattern r;
         FltAction := FltAction r; FltEnabled := FltEnabled r; FltPriority := FltPriority r;
         FltMatchCount := FltMatchCount r + 1; FltLastMatchAt := Some now;
         FltCreatedAt := FltCreatedAt r |}
    else r in
  FilterTable (map upd (flt_rows t)) (flt_next t).

(** ** Evaluation *)

(** [regexp.Compile] and [Regexp.MatchString]. *)
Class RegexpLib := {
  regexp : Type;
  regexp_compile : text -> result regexp;
  MatchString : regexp -> text -> bool
}.

Record Verdict := {
  VAction : text;
  VFilterID : Z;
  VName : text;
  VField : text;
  VMatched : text
}.

Definition no_verdict : Verdict := {| VAction := []; VFilterID := 0; VName := []; VField := []; VMatched := [] |}.

Definition VReject (v : Verdict) : bool := bool_decide (VAction v = FilterReject).
Definition VQuarantine (v : Verdict) : bool := bool_decide (VAction v = FilterQuarantine).

(** [Verdict.Reason]. *)
Definition Reason (v : Verdict) : text :=
  if bool_decide (VName v = []) then []
  else "matched filter "%string ++ quote (VName v) ++ " on "%string ++ VField v ++ ": "%string ++ VMatched v.

Record envelope := { env_From : text; env_To : list text; env_Subject : text }.

Section evaluation.
Context `{RegexpLib}.

Record compiled := { c_rule : Filter; c_re : regexp }.

Definition MaxPatternLength : nat := 500.

Definition Compile (pattern : text) : result regexp :=
  if bool_decide (trim_space pattern = []) then Err (EText "the pattern is empty"%string)
  else if (MaxPatternLength <? length pattern)%nat then
    Err (EText ("the pattern is longer than "%string ++ dec 500 ++ " characters"%string))
  else regexp_compile ("(?i)"%string ++ pattern).

(** [Set.Load]: enabled rules, in order, less those that do not compile. *)
Fixpoint Load (rules : list Filter) : list compiled :=
  match rules with
  | [] => []
  | r :: rest =>
      if negb (FltEnabled r) then Load rest
      else match Compile (FltPattern r) with
           | Ok re => {| c_rule := r; c_re := re |} :: Load rest
           | Err _ => Load rest
           end
  end.

(** [match]. *)
Definition match_rule (c : compiled) (m : envelope) : option text :=
  let f := FltField (c_rule c) in
  if bool_decide (f = FieldFrom) then
    if MatchString (c_re c) (env_From m) then Some (env_From m) else None
  else if bool_decide (f = FieldSubject) then
    if MatchString (c_re c) (env_Subject m) then Some (env_Subject m) else None
  else if bool_decide (f = FieldTo) then find (MatchString (c_re c)) (env_To m)
  else None.

Definition verdict_of (c : compiled) (matched : text) : Verdict :=
  {| VAction := FltAction (c_rule c); VFilterID := FltID (c_rule c); VName := FltName (c_rule c);
     VField := FltField (c_rule c); VMatched := matched |}.

(** [Set.Evaluate]: the first rule that matches decides. *)
Fixpoint Evaluate (rules : list compiled) (m : envelope) : Verdict :=
  match rules with
  | [] => no_verdict
  | c :: rest =>
      match match_rule c m with
      | None => Evaluate rest m
      | Some matched =>
          if bool_decide (FltAction (c_rule c) = FilterAllow) then
            {| VAction := FilterAllow; VFilterID := FltID (c_rule c); VName := FltName (c_rule c);
               VField := FltField (c_rule c); VMatched := matched |}
          else verdict_of c matched
      end
  end.

(** [Test]: like [Load] and [Evaluate], but a pattern that does not compile is an error. *)
Fixpoint compile_all (rules : list Filter) : result (list compiled) :=
  match rules with
  | [] => Ok []
  | r :: rest =>
      if negb (FltEnabled r) then compile_all rest
      else match Compile (FltPattern r) with
           | Err e => Err (EWrap ("filter "%string ++ quote (FltName r)) e)
           | Ok re =>
               match compile_all rest with
               | Ok cs => Ok ({| c_rule := r; c_re := re |} :: cs)
               | Err e => Err e
               end
           end
  end.

Fixpoint first_match (rules : list compiled) (m : envelope) : Verdict :=
  match rules with
  | [] => no_verdict
  | c :: rest => match match_rule c m with Some s => verdict_of c s | None => first_match rest m end
  end.

Definition Test (rules : list Filter) (m : envelope) : result Verdict :=
  match compile_all rules with Ok cs => Ok (first_match cs m) | Err e => Err e end.
End evaluation.
