(* ===== verification/Routes.v ===== *)
(** * Outbound routes and DKIM keys (internal/store/outbound.go) *)

From S2P Require Import Prelude GoStrings Times Errors StoreTypes StoreQueue StoreDomains.
From S2P Require Import Filter.
From Stdlib Require Import QArith.
Open Scope Z_scope.

(** ** DKIM keys, one per domain *)

Record DKIMKey := {
  KDomainID : Z;
  Selector : text;
  Algorithm : text;
  PrivateKey : text;
  PublicKey : text;
  KEnabled : bool;
  KCreatedAt : Z
}.

Definition ValidDKIMAlgorithm (a : text) : bool := bool_decide (a = "rsa"%string) || bool_decide (a = "ed25519"%string).

Definition SaveDKIMKey (ds : list domain) (k : DKIMKey) (now : Z) (t : gmap Z DKIMKey)
  : result unit * gmap Z DKIMKey :=
  if negb (ValidDKIMAlgorithm (Algorithm k)) then (Err (check_failed "store: save dkim key"%string), t)
  else
    let created := match t !! KDomainID k with Some old => KCreatedAt old | None => now end in
    if negb (domain_exists (KDomainID k) ds) then (Err (foreign_key "store: save dkim key"%string), t)
    else (Ok (), <[KDomainID k :=
      {| KDomainID := KDomainID k; Selector := trim_space (Selector k); Algorithm := Algorithm k;
         PrivateKey := PrivateKey k; PublicKey := PublicKey k; KEnabled := KEnabled k;
         KCreatedAt := created |}]> t).

Definition DKIMKeyFor (domainID : Z) (t : gmap Z DKIMKey) : result DKIMKey :=
  match t !! domainID with Some k => Ok k | None => Err not_found end.

Definition SetDKIMEnabled (domainID : Z) (enabled : bool) (t : gmap Z DKIMKey) : result unit * gmap Z DKIMKey :=
  match t !! domainID with
  | None => (Err not_found, t)
  | Some k => (Ok (), <[domainID :=
      {| KDomainID := KDomainID k; Selector := Selector k; Algorithm := Algorithm k;
         PrivateKey := PrivateKey k; PublicKey := PublicKey k; KEnabled := enabled;
         KCreatedAt := KCreatedAt k |}]> t)
  end.

Definition DeleteDKIMKey (domainID : Z) (t : gmap Z DKIMKey) : result unit * gmap Z DKIMKey :=
  match t !! domainID with
  | None => (Err not_found, t)
  | Some _ => (Ok (), delete domainID t)
  end.

(** ** Routes *)

Record Route := {
  RID : Z;
  Destination : text;
  Mode : text;
  RelayHost : text;
  RelayPort : Z;
  RelayTLS : text;
  RelayUsername : text;
  RelayPassword : text;      (* sealed; empty when there is none *)
  REnabled : bool;
  RCreatedAt : Z
}.

Record route_table := RouteTable { rt_rows : list Route; rt_next : Z }.

Definition normalizeDestination (s : text) : text := to_lower (trim_space (trim_suffix "."%string s)).

Definition route_checks (r : Route) : bool :=
  bool_decide (Mode r ∈ map T ["relay"; "direct"]) && primary_tls_check (RelayTLS r).

Definition route_row (id created : Z) (r : Route) : Route :=
  {| RID := id; Destination := normalizeDestination (Destination r); Mode := Mode r;
     RelayHost := RelayHost r; RelayPort := RelayPort r; RelayTLS := RelayTLS r;
     RelayUsername := RelayUsername r; RelayPassword := RelayPassword r;
     REnabled := REnabled r; RCreatedAt := created |}.

Definition destination_is (d : text) (r : Route) : bool := bool_decide (Destination r = d).
Definition route_is (id : Z) (r : Route) : bool := RID r =? id.

Definition destination_taken : error := EText "UNIQUE constraint failed: routes.destination"%string.

Definition CreateRoute (r : Route) (now : Z) (t : route_table) : result Z * route_table :=
  if negb (route_checks r) then (Err (check_failed "store: create route"%string), t)
  else if existsb (destination_is (normalizeDestination (Destination r))) (rt_rows t) then
    (Err (EWrap "store: create route"%string destination_taken), t)
  else (Ok (rt_next t), RouteTable (rt_rows t ++ [route_row (rt_next t) now r]) (rt_next t + 1)).

Definition UpdateRoute (r : Route) (t : route_table) : result unit * route_table :=
  if negb (existsb (route_is (RID r)) (rt_rows t)) then (Err not_found, t)
  else if negb (route_checks r) then (Err (check_failed "store: exec"%string), t)
  else if existsb (fun o => negb (route_is (RID r) o) && destination_is (normalizeDestination (Destination r)) o)
            (rt_rows t) then (Err (EWrap "store: exec"%string destination_taken), t)
  else (Ok (), RouteTable
    (map (fun o => if route_is (RID r) o then route_row (RID o) (RCreatedAt o) r else o) (rt_rows t)) (rt_next t)).

Definition DeleteRoute (id : Z) (t : route_table) : result unit * route_table :=
  if existsb (route_is id) (rt_rows t) then
    (Ok (), RouteTable (List.filter (fun o => negb (route_is id o)) (rt_rows t)) (rt_next t))
  else (Err not_found, t).

Definition RouteByID (id : Z) (t : route_table) : result Route :=
  match find (route_is id) (rt_rows t) with Some r => Ok r | None => Err not_found end.

(** [ORDER BY destination]. *)
Definition route_le (a b : Route) : Prop := text_leb (Destination a) (Destination b) = true.
#[export] Instance route_le_dec : RelDecision route_le.
Proof. intros a b. unfold route_le. apply _. Defined.

Definition ListRoutes (t : route_table) : list Route := merge_sort route_le (rt_rows t).

Definition routeMatches (pattern dest : text) : bool :=
  if has_prefix "."%string pattern then has_suffix pattern dest else bool_decide (pattern = dest).

(** The loop of [RouteFor]: the longest enabled destination that matches. *)
Fixpoint best_route (dest : text) (best : option Route) (routes : list Route) : option Route :=
  match routes with
  | [] => best
  | r :: rest =>
      if negb (REnabled r) || negb (routeMatches (Destination r) dest) then best_route dest best rest
      else match best with
           | None => best_route dest (Some r) rest
           | Some b =>
               if (length (Destination b) <? length (Destination r))%nat
               then best_route dest (Some r) rest else best_route dest best rest
           end
  end.

Definition RouteFor (destination : text) (t : route_table) : result Route :=
  match best_route (normalizeDestination destination) None (ListRoutes t) with
  | Some r => Ok r
  | None => Err not_found
  end.
