(* ===== verification/Dkim.v ===== *)
(** * The signing keys of a domain and the record that publishes them (internal/dkim/dkim.go, verify.go)

    Generating a key, parsing it and signing a message belong to libraries.  The answers of
    the two DNS-over-HTTPS services and of the system's resolver are functions of what is
    asked. *)

From S2P Require Import Prelude GoStrings Base64 Errors StoreTypes StoreQueue StoreDomains Filter Routes.
From Stdlib Require Import QArith.
Open Scope Z_scope.

Definition AlgorithmRSA : text := "rsa"%string.
Definition AlgorithmEd25519 : text := "ed25519"%string.

Definition DefaultSelector : text := "xeronmx"%string.

Record Key := { k_Selector : text; k_Algorithm : text; k_PrivatePEM : text; k_PublicB64 : text }.

(** The PEM of the private key and the base64 of the public one, from random bytes. *)
Class KeyGenLib := {
  ed25519_GenerateKey : result text -> result (text * text);
  rsa_GenerateKey : result text -> result (text * text)
}.

Definition selector_char (c : ascii) : bool :=
  ((97 <=? code c) && (code c <=? 122)) || ((65 <=? code c) && (code c <=? 90)) || is_digit c
  || bool_decide (c = "-"%char) || bool_decide (c = "."%char).

Definition validSelector (s : text) : bool := forallb selector_char s.

Definition new_key (selector algorithm : text) (r : result (text * text)) : result Key :=
  match r with
  | Err e => Err e
  | Ok (pem, pub) => Ok {| k_Selector := selector; k_Algorithm := algorithm; k_PrivatePEM := pem; k_PublicB64 := pub |}
  end.

Definition Generate `{KeyGenLib} (random : result text) (selector algorithm : text) : result Key :=
  let selector := if bool_decide (trim_space selector = []) then DefaultSelector else trim_space selector in
  if negb (validSelector selector) then
    Err (EText ("dkim: "%string ++ quote selector ++ " is not a usable selector: use letters, digits, hyphens and dots"%string))
  else if bool_decide (algorithm = AlgorithmEd25519) then new_key selector AlgorithmEd25519 (ed25519_GenerateKey random)
  else if bool_decide (algorithm = []) || bool_decide (algorithm = AlgorithmRSA) then
    new_key selector AlgorithmRSA (rsa_GenerateKey random)
  else Err (EText ("dkim: unknown algorithm "%string ++ quote algorithm)).

Definition RecordName (selector domain : text) : text := selector ++ "._domainkey."%string ++ domain ++ "."%string.

Definition RecordValue (algorithm publicB64 : text) : text :=
  "v=DKIM1; k="%string ++ (if bool_decide (algorithm = AlgorithmEd25519) then "ed25519"%string else "rsa"%string)
  ++ "; p="%string ++ publicB64.

(** ** Reading a published record *)

(** [strings.Trim] with a cutset. *)
Definition trim_set (cut s : text) : text :=
  let f c := bool_decide (c ∈ cut) in trim_right f (trim_left f s).

(** [strings.Split] with a separator of several bytes; [skip] of them are still to be passed over. *)
Fixpoint split_go (sep : text) (skip : nat) (acc s : text) : list text :=
  match s with
  | [] => [rev acc]
  | c :: rest =>
      match skip with
      | S k => split_go sep k acc rest
      | O => if has_prefix sep s then rev acc :: split_go sep (pred (length sep)) [] rest
             else split_go sep 0 (c :: acc) rest
      end
  end.

Definition split_text (sep s : text) : list text := split_go sep 0 [] s.

Definition chunk_gap : text := [DQ; SP; DQ].

Definition CleanTXTRecord (raw : text) : text :=
  let raw := trim_space raw in
  if contains chunk_gap raw then concat (map (trim_set [DQ]) (split_text chunk_gap raw))
  else trim_set [DQ] raw.

Definition key_noise (c : ascii) : bool := bool_decide (c ∈ [SP; DQ; TAB; CR; LF]).

(** The value of the first [p=]. *)
Fixpoint public_key_in (parts : list text) : text :=
  match parts with
  | [] => []
  | part :: parts =>
      let trimmed := trim_space part in
      if has_prefix "p="%string (to_lower trimmed) then List.filter (fun c => negb (key_noise c)) (drop 2 trimmed)
      else public_key_in parts
  end.

Definition ExtractPublicKey (record : text) : text := public_key_in (split_byte ";"%char record).

(** ** Asking for it *)

Record doh_answer := { an_Type : Z; an_Data : text }.
Record dohResponse := { doh_Status : Z; doh_Answer : list doh_answer }.

Class DohLib := {
  http_GET : text -> error + Z * text;             (* status and body *)
  doh_Unmarshal : text -> option dohResponse;
  QueryEscape : text -> text;
  sys_LookupTXT : text -> result (list text)
}.

Record DNSCheckResult := {
  dc_Valid : bool;
  dc_Found : bool;
  dc_Matched : bool;
  dc_RecordName : text;
  dc_Records : list text;
  dc_Status : text;
  dc_Error : text
}.

(** The first occurrences. *)
Definition add_new (seen : list text) (r : text) : list text := if bool_decide (r ∈ seen) then seen else seen ++ [r].

Definition uniqueRecords (raw : list text) : list text := fold_left add_new (map CleanTXTRecord raw) [].

Section check.
Context `{DohLib} `{SmtpLib}.

Definition doh_endpoints (name : text) : list text :=
  ["https://dns.google/resolve?name="%string ++ QueryEscape name ++ "&type=TXT"%string;
   "https://1.1.1.1/dns-query?name="%string ++ QueryEscape name ++ "&type=TXT"%string].

Definition queryDoHEndpoint (endpoint : text) : result (list text * Z) :=
  match http_GET endpoint with
  | inl e => Err e
  | inr (status, body) =>
      if negb (status =? 200) then Err (EText ("doh returned status "%string ++ dec status))
      else match doh_Unmarshal (take (64 * 1024) body) with
           | None => Err (EText "unexpected end of JSON input"%string)
           | Some r => Ok (map an_Data (List.filter (fun a => (an_Type a =? 16) && negb (bool_decide (an_Data a = []))) (doh_Answer r)),
                           doh_Status r)
           end
  end.

(** The records, the status and the last error after some endpoints. *)
Definition merge_answer (st : list text * Z * error) (answer : result (list text * Z)) : list text * Z * error :=
  let '(records, best, last) := st in
  match answer with
  | Err e => (records, best, e)
  | Ok (recs, status) =>
      (fold_left add_new recs records, if (best =? -1) || (status =? 0) then status else best, last)
  end.

Definition no_error : error := EText [].

Definition queryDoH (name : text) : result (list text * Z) :=
  let '(records, best, last) := fold_left merge_answer (map queryDoHEndpoint (doh_endpoints name)) ([], -1, no_error) in
  if bool_decide (records = []) && (best =? -1) then Err last else Ok (records, best).

(** What is found: the services' answer, or the resolver's when both failed. *)
Definition published (recordName : text) : text + list text * Z :=
  match queryDoH recordName with
  | Ok r => inr r
  | Err _ =>
      match sys_LookupTXT recordName with
      | Err e => inl (error_text e)
      | Ok records => inr (records, 0)
      end
  end.

Definition CheckDNS (domain selector expectedPublicB64 : text) : DNSCheckResult :=
  let selector := if bool_decide (selector = []) then DefaultSelector else selector in
  let recordName := selector ++ "._domainkey."%string ++ domain in
  let expected := List.filter (fun c => negb (bool_decide (c ∈ [SP; LF; CR]))) expectedPublicB64 in
  let result found matched records status err :=
    {| dc_Valid := matched; dc_Found := found; dc_Matched := matched; dc_RecordName := recordName; dc_Records := records;
       dc_Status := status; dc_Error := err |} in
  match published recordName with
  | inl e => result false false [] "LOOKUP_FAILED"%string e
  | inr (raw, status) =>
      if status =? 3 then result false false [] "NXDOMAIN"%string "Record not found (NXDOMAIN)"%string
      else
        let name := if status =? 0 then T "NOERROR" else "DNS_STATUS_"%string ++ dec status in
        if bool_decide (raw = []) then result false false [] name "No TXT records returned"%string
        else
          let records := uniqueRecords raw in
          let matched := existsb (fun r => negb (bool_decide (ExtractPublicKey r = []))
                                           && bool_decide (ExtractPublicKey r = expected)) records in
          result true matched records name (if matched then [] else T "Record found but public key does not match")
  end.
End check.

(** ** A record that is published is found *)

Lemma trim_left_skip (f : ascii -> bool) l s : (forall c, c ∈ l -> f c = true) -> trim_left f (l ++ s) = trim_left f s.
Proof.
  induction l as [|c l IH]; intros Hl; cbn; [done|]. rewrite (Hl c) by apply list_elem_of_here.
  apply IH. intros x Hx. apply Hl. by apply list_elem_of_further.
Qed.

(** Quotes around a text without quotes. *)
Lemma trim_quotes a b c : DQ ∉ c -> trim_set [DQ] (replicate a DQ ++ (c ++ replicate b DQ)) = c.
Proof.
  intros Hc. unfold trim_set, trim_right. set (f := fun x => bool_decide (x ∈ [DQ])).
  assert (Hf : forall n x, x ∈ replicate n DQ -> f x = true).
  { intros n x [-> _]%elem_of_replicate. done. }
  assert (Hno : forall x, x ∈ c -> f x = false).
  { intros x Hx. unfold f. apply bool_decide_eq_false_2. intros ->%list_elem_of_singleton. done. }
  rewrite (trim_left_skip f) by apply Hf. destruct c as [|x c].
  - cbn [app]. replace (replicate b DQ) with (replicate b DQ ++ []) by apply app_nil_r.
    by rewrite (trim_left_skip f) by apply Hf.
  - assert (E : trim_left f ((x :: c) ++ replicate b DQ) = (x :: c) ++ replicate b DQ)
      by (cbn; by rewrite (Hno x) by apply list_elem_of_here).
    rewrite E, rev_app_distr, (trim_left_skip f) by (intros y; rewrite elem_of_rev; apply Hf).
    rewrite trim_left_none; [apply rev_involutive|]. intros y. rewrite elem_of_rev. apply Hno.
Qed.

Definition quoted (c : text) : text := [DQ] ++ c ++ [DQ].

Definition chunk_ok (c : text) : Prop := (DQ ∉ c) /\ c <> [SP].

(** The pieces of a quoted sequence. *)
Lemma split_go_piece acc c rest :
  DQ ∉ c -> split_go chunk_gap 0 acc (c ++ chunk_gap ++ rest) = (rev acc ++ c) :: split_go chunk_gap 0 [] rest.
Proof.
  revert acc. induction c as [|x c IH]; intros acc Hc.
  - rewrite app_nil_r. cbn [app chunk_gap split_go]. by destruct rest.
  - apply not_elem_of_cons in Hc as [Hx Hc]. cbn [app split_go].
    assert (E : has_prefix chunk_gap (x :: c ++ chunk_gap ++ rest) = false).
    { cbn. by rewrite bool_decide_eq_false_2. }
    rewrite E, IH by done. cbn [rev]. by rewrite <- app_assoc.
Qed.

Lemma split_go_last acc c : DQ ∉ c -> split_go chunk_gap 0 acc (c ++ [DQ]) = [rev acc ++ c ++ [DQ]].
Proof.
  revert acc. induction c as [|x c IH]; intros acc Hc; [done|].
  apply not_elem_of_cons in Hc as [Hx Hc]. cbn [app split_go].
  assert (E : has_prefix chunk_gap (x :: c ++ [DQ]) = false) by (cbn; by rewrite bool_decide_eq_false_2).
  rewrite E, IH by done. cbn [rev]. by rewrite <- app_assoc.
Qed.

(** What follows the first chunk. *)
Fixpoint more_chunks (cs : list text) : text :=
  match cs with [] => [DQ] | c :: cs => chunk_gap ++ c ++ more_chunks cs end.

Lemma join_quoted c cs : join [SP] (map quoted (c :: cs)) = [DQ] ++ c ++ more_chunks cs.
Proof.
  revert c. induction cs as [|d cs IH]; intros c; [done|]. change (map quoted (c :: d :: cs)) with (quoted c :: map quoted (d :: cs)).
  rewrite join_cons, IH by done. unfold quoted. cbn [more_chunks]. unfold chunk_gap. by rewrite <- !app_assoc.
Qed.

Lemma split_more acc c cs :
  DQ ∉ c -> Forall (fun c => DQ ∉ c) cs ->
  concat (map (trim_set [DQ]) (split_go chunk_gap 0 acc (c ++ more_chunks cs))) =
  trim_set [DQ] (rev acc ++ c ++ match cs with [] => [DQ] | _ => [] end) ++ concat cs.
Proof.
  revert acc c. induction cs as [|d cs IH]; intros acc c Hc Hcs; cbn [more_chunks].
  - rewrite split_go_last by done. cbn. by rewrite !app_nil_r.
  - apply Forall_cons in Hcs as [Hd Hcs]. rewrite split_go_piece by done. cbn [map concat].
    rewrite IH by done. cbn [rev app]. rewrite app_nil_r. f_equal. cbn [concat]. f_equal.
    destruct cs; [apply (trim_quotes 0 1)|apply (trim_quotes 0 0)]; done.
Qed.

Lemma CleanTXTRecord_chunks c cs :
  chunk_ok c -> Forall (fun c => DQ ∉ c) cs -> CleanTXTRecord (join [SP] (map quoted (c :: cs))) = c ++ concat cs.
Proof.
  intros [Hc Hsp] Hcs. rewrite join_quoted. unfold CleanTXTRecord. set (raw := [DQ] ++ c ++ more_chunks cs).
  assert (Hlast : exists l, more_chunks cs = l ++ [DQ]).
  { clear. induction cs as [|d cs [l IH]]; [by exists []|]. cbn [more_chunks]. rewrite IH. exists (chunk_gap ++ d ++ l).
    by rewrite !app_assoc. }
  assert (Et : trim_space raw = raw).
  { apply trim_space_id. split; [done|]. destruct Hlast as [l Hl]. unfold raw. rewrite Hl, !app_assoc, rev_app_distr. done. }
  rewrite Et. destruct cs as [|d cs].
  - assert (E : contains chunk_gap raw = false).
    { destruct (contains chunk_gap raw) eqn:E; [|done]. apply contains_spec in E as (l & r & E). destruct l as [|x l].
      - unfold raw, chunk_gap in E. cbn in E. injection E as E. destruct c as [|y c]; [done|]. injection E as -> E.
        destruct c as [|z c]; [done|]. injection E as -> _. apply not_elem_of_cons in Hc as [_ Hc].
        by apply not_elem_of_cons in Hc as [Hc _].
      - unfold raw in E. cbn in E. injection E as _ E.
        assert (Hbad : forall c l, DQ ∉ c -> c ++ [DQ] = l ++ DQ :: SP :: DQ :: r -> False); [|by destruct (Hbad c l Hc E)].
        clear. induction c as [|y c IH]; intros l Hc E.
        + destruct l as [|? [|]]; done.
        + apply not_elem_of_cons in Hc as [Hy Hc]. destruct l as [|z l]; [by injection E as -> _|].
          injection E as _ E. by eapply IH. }
    rewrite E. unfold raw. cbn [more_chunks concat]. rewrite app_nil_r. by apply (trim_quotes 1 1).
  - assert (E : contains chunk_gap raw = true).
    { apply contains_spec. exists (DQ :: c), (d ++ more_chunks cs). done. }
    rewrite E. unfold split_text, raw. cbn [app].
    assert (E1 : split_go chunk_gap 0 [] (DQ :: c ++ more_chunks (d :: cs)) = split_go chunk_gap 0 [DQ] (c ++ more_chunks (d :: cs))).
    { cbn [split_go]. assert (Hp : has_prefix chunk_gap (DQ :: c ++ more_chunks (d :: cs)) = false); [|by rewrite Hp].
      cbn. destruct c as [|x c]; [done|]. cbn. destruct (bool_decide_reflect (SP = x)) as [<-|]; [|done].
      destruct c as [|y c]; [done|]. cbn. apply not_elem_of_cons in Hc as [_ Hc]. apply not_elem_of_cons in Hc as [Hy _].
      by rewrite (bool_decide_eq_false_2 (DQ = y)). }
    rewrite E1, split_more by done. f_equal. rewrite app_nil_r. cbn [rev app].
    rewrite <- (app_nil_r c) at 1. by apply (trim_quotes 1 0).
Qed.

Lemma elem_of_add_new l seen r : r ∈ fold_left add_new l seen <-> r ∈ seen \/ r ∈ l.
Proof.
  revert seen. induction l as [|x l IH]; intros seen; cbn; [by split; [left|intros [|?%not_elem_of_nil]]|].
  rewrite IH, elem_of_cons. unfold add_new. destruct (bool_decide_reflect (x ∈ seen)).
  - split; [intros []; eauto|intros [?|[->|?]]; eauto].
  - rewrite elem_of_app, list_elem_of_singleton. tauto.
Qed.

Lemma elem_of_uniqueRecords raw r : r ∈ uniqueRecords raw <-> exists x, x ∈ raw /\ r = CleanTXTRecord x.
Proof.
  unfold uniqueRecords. rewrite elem_of_add_new, list_elem_of_fmap.
  split; [intros [?%not_elem_of_nil|(x & -> & Hx)]; [done|eauto]|intros (x & Hx & ->); eauto].
Qed.

(** A public key as it is stored: the base64 of some bytes. *)
Definition key_char (c : ascii) : bool := negb (key_noise c) && negb (is_space c) && negb (bool_decide (c = ";"%char)).

Lemma key_chars der c : c ∈ std_EncodeToString der -> key_char c = true.
Proof.
  intros Hc. assert (Hin : c ∈ std_alphabet ++ [pad_char]).
  { unfold std_EncodeToString in Hc. apply elem_of_app in Hc as [Hc|[-> _]%elem_of_replicate]; [|set_solver].
    apply encode_chars in Hc as (n & Hn & ->). apply elem_of_app. left. unfold sextet_char.
    destruct (nth_in_or_default (Z.to_nat n) std_alphabet "A"%char) as [Hin| ->]; [by apply list_elem_of_In|].
    apply list_elem_of_here. }
  assert (Hall : forallb key_char (std_alphabet ++ [pad_char]) = true) by done.
  rewrite forallb_forall in Hall. by apply Hall, list_elem_of_In.
Qed.

Lemma key_char_spec c : key_char c = true -> key_noise c = false /\ is_space c = false /\ c <> ";"%char.
Proof. unfold key_char. rewrite !andb_true_iff, !negb_true_iff. intros [[? ?] ?%bool_decide_eq_false]. done. Qed.

Lemma ExtractPublicKey_RecordValue algorithm der :
  ExtractPublicKey (RecordValue algorithm (std_EncodeToString der)) = std_EncodeToString der.
Proof.
  set (pub := std_EncodeToString der).
  assert (Hpub : ";"%char ∉ " p="%string ++ pub).
  { intros [Hc|Hc]%elem_of_app; [|by apply key_chars, key_char_spec in Hc as (_ & _ & ?)].
    revert Hc. apply (bool_decide_unpack _). vm_compute. done. }
  assert (Hid : List.filter (fun c => negb (key_noise c)) pub = pub).
  { apply List_filter_all. intros c Hc. by apply key_chars, key_char_spec in Hc as (-> & _). }
  assert (Ht : trim_space (" p="%string ++ pub) = "p="%string ++ pub).
  { assert (E : trim_space (" p="%string ++ pub) = trim_space ("p="%string ++ pub)) by done. rewrite E.
    apply trim_space_none. intros c [Hc|Hc]%elem_of_app; [|by apply key_chars, key_char_spec in Hc as (_ & ? & _)].
    assert (Hall : forallb (fun c => negb (is_space c)) (T "p=") = true) by done.
    rewrite forallb_forall in Hall. by apply negb_true_iff, Hall, list_elem_of_In. }
  unfold ExtractPublicKey, RecordValue.
  assert (Es : forall k, ";"%char ∉ k -> split_byte ";"%char ("v=DKIM1; k="%string ++ k ++ "; p="%string ++ pub)
             = [T "v=DKIM1"; " k="%string ++ k; " p="%string ++ pub]).
  { intros k Hk. replace ("v=DKIM1; k="%string ++ k ++ "; p="%string ++ pub)
      with (T "v=DKIM1" ++ ";"%char :: ((T " k=" ++ k) ++ ";"%char :: (T " p=" ++ pub))) by (cbn; by rewrite <- ?app_assoc).
    rewrite split_byte_app by (apply (bool_decide_unpack _); vm_compute; done).
    rewrite split_byte_app by (rewrite not_elem_of_app; split; [apply (bool_decide_unpack _); vm_compute; done|done]).
    by rewrite split_byte_id. }
  rewrite Es by (case_bool_decide; apply (bool_decide_unpack _); vm_compute; done).
  assert (Hlast : public_key_in [" p="%string ++ pub] = pub).
  { cbn [public_key_in]. rewrite Ht. exact Hid. }
  case_bool_decide; exact Hlast.
Qed.

Section found.
Context `{DohLib} `{SmtpLib}.

(** When the key of a domain counts as published. *)
Lemma CheckDNS_valid domain selector der records status :
  selector <> [] -> std_EncodeToString der <> [] ->
  published (selector ++ "._domainkey."%string ++ domain) = inr (records, status) -> status <> 3 ->
  dc_Valid (CheckDNS domain selector (std_EncodeToString der)) = true <->
  exists r, r ∈ records /\ ExtractPublicKey (CleanTXTRecord r) = std_EncodeToString der.
Proof.
  intros Hs Hne Hp H3. unfold CheckDNS. rewrite (bool_decide_eq_false_2 (selector = [])), Hp by done.
  set (pub := std_EncodeToString der) in *.
  assert (Hid : List.filter (fun c => negb (bool_decide (c ∈ [SP; LF; CR]))) pub = pub).
  { apply List_filter_all. intros c Hc. apply key_chars, key_char_spec in Hc as (Hc & _). unfold key_noise in Hc.
    apply bool_decide_eq_false in Hc. apply negb_true_iff, bool_decide_eq_false_2. set_solver. }
  rewrite Hid. destruct (Z.eqb_spec status 3) as [|_]; [done|]. case_bool_decide as Hr; cbn [dc_Valid].
  - subst records. split; [done|]. by intros (r & []%not_elem_of_nil & _).
  - rewrite existsb_exists. split.
    + intros (x & Hx & Hm). apply andb_true_iff in Hm as [_ Hm%bool_decide_eq_true].
      apply list_elem_of_In, elem_of_uniqueRecords in Hx as (r & Hin & ->). eauto.
    + intros (r & Hin & Er). exists (CleanTXTRecord r). split; [apply list_elem_of_In, elem_of_uniqueRecords; eauto|].
      by rewrite Er, bool_decide_eq_false_2, bool_decide_eq_true_2.
Qed.

(** The record the panel tells to publish is the one the check accepts: however a DNS
    server splits it into quoted strings, the domain's key is found valid as soon as that record is
    among the answers; and it is never found valid unless some answer, once cleaned, holds exactly
    this key. *)
Theorem published_key_found domain selector der records status :
  selector <> [] -> std_EncodeToString der <> [] ->
  published (selector ++ "._domainkey."%string ++ domain) = inr (records, status) -> status <> 3 ->
  (forall algorithm c cs,
     c ++ concat cs = RecordValue algorithm (std_EncodeToString der) -> join [SP] (map quoted (c :: cs)) ∈ records ->
     dc_Valid (CheckDNS domain selector (std_EncodeToString der)) = true) /\
  (dc_Valid (CheckDNS domain selector (std_EncodeToString der)) = true ->
   exists r, r ∈ records /\ ExtractPublicKey (CleanTXTRecord r) = std_EncodeToString der).
Proof.
  intros Hs Hne Hp H3. pose proof (CheckDNS_valid domain selector der records status Hs Hne Hp H3) as Hiff.
  split; [|apply Hiff]. intros algorithm c cs Hc Hin. apply Hiff. exists (join [SP] (map quoted (c :: cs))). split; [done|].
  assert (Hno : DQ ∉ c ++ concat cs).
  { rewrite Hc. unfold RecordValue. rewrite !not_elem_of_app. split_and!; [by apply (bool_decide_unpack _)| |by apply (bool_decide_unpack _)|].
    - case_bool_decide; by apply (bool_decide_unpack _).
    - intros Hd. apply key_chars, key_char_spec in Hd as (Hd & _). done. }
  apply not_elem_of_app in Hno as [Hc1 Hc2].
  rewrite CleanTXTRecord_chunks, Hc; [apply ExtractPublicKey_RecordValue| |].
  - split; [done|]. intros ->. by destruct algorithm.
  - apply Forall_forall. intros d Hd Hq. apply Hc2. apply list_elem_of_In, in_concat. exists d.
    by rewrite <- !list_elem_of_In.
Qed.
End found.

(** A service that answers with the record cut in two; the other one is down. *)
Definition sample_doh : DohLib := {|
  http_GET := fun url => if has_prefix "https://dns.google"%string url then inr (200, T "{}") else inl (EText "refused"%string);
  doh_Unmarshal := fun _ => Some {| doh_Status := 0; doh_Answer :=
    [{| an_Type := 5; an_Data := T "alias.example." |};
     {| an_Type := 16; an_Data := join [SP] (map quoted [T "v=DKIM1; k=rs"; T "a; p=YWI="]) |}] |};
  QueryEscape := fun s => s;
  sys_LookupTXT := fun _ => Err (EText "no such host"%string) |}.

Definition sample_doh_smtp : SmtpLib :=
  {| smtp_error_text := fun e => Message e; ErrAuthRequired := SMTPError 502 (Enh 5 7 0) [];
     ErrAuthFailed := SMTPError 535 (Enh 5 7 8) []; ErrAuthUnsupported := SMTPError 504 (Enh 5 7 4) [] |}.

Lemma published_key_found_witness :
  let check := CheckDNS (H := sample_doh) (H0 := sample_doh_smtp) (T "you.example") DefaultSelector in
  dc_Valid (check (std_EncodeToString (T "ab"))) = true /\ dc_Valid (check (std_EncodeToString (T "ac"))) = false.
Proof.
  split.
  - destruct (published_key_found (H := sample_doh) (H0 := sample_doh_smtp) (T "you.example") DefaultSelector (T "ab")
      [join [SP] (map quoted [T "v=DKIM1; k=rs"; T "a; p=YWI="])] 0) as [Hfound _]; [done..|vm_compute; reflexivity|done|].
    apply (Hfound AlgorithmRSA (T "v=DKIM1; k=rs") [T "a; p=YWI="]); [vm_compute; reflexivity|apply list_elem_of_here].
  - vm_compute. reflexivity.
Defined.
