(* ===== verification/Dmarc.v ===== *)
(** * The DMARC policy of a domain as its DNS publishes it (internal/dmarc/dmarc.go)

    The tag list of a record is read by a library.  The services asked and their answers are
    those of Dkim.v; this package keeps copies of its cleaning of a record and of its answer
    type, and asks in another way: the first service that has a record is believed. *)

From S2P Require Import Prelude GoStrings Errors StoreTypes Dkim.
Open Scope Z_scope.

Record dmarc_record := { dr_Policy : text; dr_SubdomainPolicy : text; dr_DKIMAlignment : text; dr_SPFAlignment : text;
                         dr_ReportURIAggregate : list text }.

Class DmarcLib := { dmarc_Parse : text -> result dmarc_record }.

Record CheckResult := {
  dm_Valid : bool;
  dm_Found : bool;
  dm_RecordName : text;
  dm_Records : list text;
  dm_Policy : text;
  dm_SubdomainPolicy : text;
  dm_RUA : list text;
  dm_DKIMAlignment : text;
  dm_SPFAlignment : text;
  dm_Status : text;
  dm_Error : text
}.

Definition trim_dots (s : text) : text := trim_set ["."%char] s.

Definition RecordName (domain : text) : text := "_dmarc."%string ++ trim_dots domain ++ "."%string.

Definition DefaultValue (domain policy : text) : text :=
  let d := trim_dots domain in
  let p := if bool_decide (policy = []) then T "quarantine" else policy in
  "v=DMARC1; p="%string ++ p ++ "; sp="%string ++ p ++ "; rua=mailto:dmarc@"%string ++ d ++ "; pct=100"%string.

Definition cleanTXT (raw : text) : text :=
  let raw := trim_space raw in
  if contains chunk_gap raw then concat (map (trim_set [DQ]) (split_text chunk_gap raw))
  else trim_set [DQ] raw.

Section check.
Context `{DohLib} `{DmarcLib} `{SmtpLib}.

(** The body is read to its end here, and an answer without data is kept. *)
Definition queryDoHEndpoint (endpoint : text) : result (list text * Z) :=
  match http_GET endpoint with
  | inl e => Err e
  | inr (status, body) =>
      if negb (status =? 200) then Err (EText ("doh: status "%string ++ dec status))
      else match doh_Unmarshal body with
           | None => Err (EText "unexpected EOF"%string)
           | Some r => Ok (map an_Data (List.filter (fun a => an_Type a =? 16) (doh_Answer r)), doh_Status r)
           end
  end.

(** [last] is the error of the last service that gave one. *)
Fixpoint ask_each (endpoints : list text) (best : Z) (last : option error) : list text * Z * option error :=
  match endpoints with
  | [] => ([], best, last)
  | ep :: endpoints =>
      match queryDoHEndpoint ep with
      | Err e => ask_each endpoints best (Some e)
      | Ok (recs, status) =>
          let best := if (best =? -1) || (status =? 0) then status else best in
          match fold_left add_new recs [] with
          | [] => ask_each endpoints best last
          | records => (records, status, None)
          end
      end
  end.

Definition queryDoH (name : text) : list text * Z * option error := ask_each (doh_endpoints name) (-1) None.

Definition policy_record (r : text) : bool := has_prefix "V=DMARC1"%string (to_upper r).

Definition CheckDNS (domain : text) : CheckResult :=
  let recordName := "_dmarc."%string ++ trim_dots domain in
  let result valid found records (p : dmarc_record) status err :=
    {| dm_Valid := valid; dm_Found := found; dm_RecordName := recordName; dm_Records := records; dm_Policy := dr_Policy p;
       dm_SubdomainPolicy := dr_SubdomainPolicy p; dm_RUA := dr_ReportURIAggregate p; dm_DKIMAlignment := dr_DKIMAlignment p;
       dm_SPFAlignment := dr_SPFAlignment p; dm_Status := status; dm_Error := err |} in
  let nothing := {| dr_Policy := []; dr_SubdomainPolicy := []; dr_DKIMAlignment := []; dr_SPFAlignment := [];
                    dr_ReportURIAggregate := [] |} in
  let answer :=
    match queryDoH recordName with
    | (records, status, None) => inr (records, status)
    | (_, _, Some _) =>
        match sys_LookupTXT recordName with
        | Err e => inl (error_text e)
        | Ok records => inr (records, 0)
        end
    end in
  match answer with
  | inl e => result false false [] nothing "LOOKUP_FAILED"%string e
  | inr (raw, status) =>
      if status =? 3 then result false false [] nothing "NXDOMAIN"%string "Record not found (NXDOMAIN)"%string
      else
        let name := if status =? 0 then T "NOERROR" else "DNS_STATUS_"%string ++ dec status in
        match List.filter policy_record (map cleanTXT raw) with
        | [] => result false false [] nothing name
                  (if bool_decide (raw = []) then T "No TXT records returned"
                   else T "TXT record found at _dmarc host but missing v=DMARC1 tag")
        | first :: _ as records =>
            match dmarc_Parse first with
            | Err e => result false true records nothing name ("invalid DMARC syntax: "%string ++ error_text e)
            | Ok p => result true true records p name []
            end
        end
  end.
End check.
