(* ===== verification/StoreUsers.v ===== *)
(** * Accounts, sessions and tokens (internal/store/users.go, account.go, tokens.go)

    The tables are lists of rows in rowid order; a function is one statement or one
    transaction, except where the code runs several: those are given as a reading step
    and a writing step, so that interleavings can be stated.  A list of domain names is
    kept as a list where the schema keeps its JSON text. *)

From S2P Require Import Prelude GoStrings Times Errors StoreTypes StoreQueue StoreDomains.
From S2P Require Import Filter.
From Stdlib Require Import QArith.
Open Scope Z_scope.

(** ** Rows *)

Definition RoleAdmin : text := "admin"%string.
Definition RoleOperator : text := "operator"%string.
Definition RoleViewer : text := "viewer"%string.

(** [store.User]; issuer and subject are NULL together. *)
Record User := {
  UID : Z;
  Email : text;
  PasswordHash : text;
  Role : text;
  AllowedDomains : list text;
  UCreatedAt : Z;
  LastLoginAt : option Z;
  OIDC : option (text * text);
  TOTPSecret : text;
  TOTPEnabled : bool;
  TOTPLastStep : Z
}.

Record session_row := SessionRow {
  sr_token : text;
  sr_user : Z;
  sr_created : Z;
  sr_expires : Z;
  sr_agent : text
}.

Record recovery_row := RecoveryRow { rr_user : Z; rr_hash : text; rr_used : option Z }.

(** [store.APIToken] with its hash. *)
Record APIToken := {
  TokID : Z;
  TokName : text;
  TokPrefix : text;
  TokHash : text;
  TokRole : text;
  CreatedBy : option Z;
  TokCreatedAt : Z;
  TokExpiresAt : option Z;
  TokLastUsedAt : option Z
}.

(** [store.SMTPUser]. *)
Record SMTPUser := {
  SID : Z;
  Username : text;
  SPasswordHash : text;
  SAllowedDomains : list text;
  SEnabled : bool;
  SCreatedAt : Z;
  LastUsedAt : option Z
}.

Record user_tables := Users {
  ut_users : list User;
  ut_next : Z;
  ut_sessions : list session_row;
  ut_codes : list recovery_row;
  ut_tokens : list APIToken;
  ut_next_token : Z
}.

Record smtp_user_table := SMTPUsers { su_rows : list SMTPUser; su_next : Z }.

(** ** Statements on a list of rows *)

Section rows.
Context {A : Type}.

Definition update_rows (p : A -> bool) (f : A -> A) (l : list A) : list A := map (fun r => if p r then f r else r) l.
Definition affected (p : A -> bool) (l : list A) : Z := Z.of_nat (length (List.filter p l)).
Definition delete_rows (p : A -> bool) (l : list A) : list A := List.filter (fun r => negb (p r)) l.

(** [db.exec]. *)
Definition exec_rows (p : A -> bool) (f : A -> A) (l : list A) : result unit * list A :=
  (if affected p l =? 0 then Err not_found else Ok (), update_rows p f l).

Definition find_row (p : A -> bool) (l : list A) : result A :=
  match find p l with Some r => Ok r | None => Err not_found end.
End rows.

Definition set_users (us : list User) (t : user_tables) : user_tables :=
  Users us (ut_next t) (ut_sessions t) (ut_codes t) (ut_tokens t) (ut_next_token t).
Definition set_sessions (ss : list session_row) (t : user_tables) : user_tables :=
  Users (ut_users t) (ut_next t) ss (ut_codes t) (ut_tokens t) (ut_next_token t).
Definition set_codes (cs : list recovery_row) (t : user_tables) : user_tables :=
  Users (ut_users t) (ut_next t) (ut_sessions t) cs (ut_tokens t) (ut_next_token t).
Definition set_tokens (ts : list APIToken) (t : user_tables) : user_tables :=
  Users (ut_users t) (ut_next t) (ut_sessions t) (ut_codes t) ts (ut_next_token t).

Definition on_users {R} (f : list User -> R * list User) (t : user_tables) : R * user_tables :=
  let '(r, us) := f (ut_users t) in (r, set_users us t).

Definition user_by (id : Z) (u : User) : bool := UID u =? id.

(** ** What an account may see *)

Definition Scoped (u : User) : bool := negb (bool_decide (Role u = RoleAdmin)) && negb (bool_decide (AllowedDomains u = [])).

Definition CanAccessDomain (u : User) (domainName : text) : bool :=
  if negb (Scoped u) then true else existsb (fun d => equal_fold d domainName) (AllowedDomains u).

Definition CanAccessDomainID (u : User) (ds : list domain) (domainID : Z) : result bool :=
  if negb (Scoped u) then Ok true
  else match DomainByID domainID ds with
       | Err e => Err e
       | Ok d => Ok (CanAccessDomain u (DName d))
       end.

Definition FromDirectory (u : User) : bool :=
  match OIDC u with Some (_, subject) => negb (bool_decide (subject = [])) | None => false end.
Definition HasPassword (u : User) : bool := negb (bool_decide (PasswordHash u = [])).

(** ** Users *)

Definition normalizeEmail (s : text) : text := to_lower (trim_space s).

Definition role_check (role : text) : bool := bool_decide (role ∈ [RoleAdmin; RoleOperator; RoleViewer]).

Definition unique_failed (prefix : text) : error := EWrap prefix (EText "UNIQUE constraint failed"%string).

Definition oidc_is (o : option (text * text)) (u : User) : bool := bool_decide (OIDC u = o).

(** The INSERT of [CreateUser], [CreateFirstUser] and [CreateOIDCUser]. *)
Definition insert_user (prefix email hash role : text) (allowed : list text) (oidc : option (text * text))
  (now : Z) (t : user_tables) : result Z * user_tables :=
  let email := normalizeEmail email in
  if existsb (fun u => bool_decide (Email u = email)) (ut_users t) then (Err (unique_failed prefix), t)
  else if match oidc with Some _ => existsb (oidc_is oidc) (ut_users t) | None => false end
  then (Err (unique_failed prefix), t)
  else if negb (role_check role) then (Err (check_failed prefix), t)
  else
    let id := ut_next t in
    let row := {| UID := id; Email := email; PasswordHash := hash; Role := role; AllowedDomains := allowed;
                  UCreatedAt := now; LastLoginAt := None; OIDC := oidc; TOTPSecret := []; TOTPEnabled := false;
                  TOTPLastStep := 0 |} in
    (Ok id, Users (ut_users t ++ [row]) (id + 1) (ut_sessions t) (ut_codes t) (ut_tokens t) (ut_next_token t)).

Definition CountUsers (t : user_tables) : Z := Z.of_nat (length (ut_users t)).

Definition CreateUser (email hash role : text) (allowed : list text) (now : Z) (t : user_tables) : result Z * user_tables :=
  insert_user "store: create user"%string email hash role allowed None now t.

Definition ErrAlreadySetUp : error := EText "store: this instance already has an account"%string.
Definition ErrLastAdmin : error := EText "store: cannot remove or demote the last administrator"%string.

(** One statement: the INSERT selects from nothing when an account exists. *)
Definition CreateFirstUser (email hash role : text) (now : Z) (t : user_tables) : result Z * user_tables :=
  if 0 <? CountUsers t then (Err ErrAlreadySetUp, t)
  else insert_user "store: create first user"%string email hash role [] None now t.

Definition CreateOIDCUser (email role issuer subject : text) (allowed : list text) (now : Z) (t : user_tables)
  : result Z * user_tables :=
  insert_user "store: create oidc user"%string email [] role allowed (Some (issuer, subject)) now t.

Definition UserByEmail (email : text) (t : user_tables) : result User :=
  find_row (fun u => bool_decide (Email u = normalizeEmail email)) (ut_users t).
Definition UserByID (id : Z) (t : user_tables) : result User := find_row (user_by id) (ut_users t).
Definition UserByOIDC (issuer subject : text) (t : user_tables) : result User :=
  find_row (oidc_is (Some (issuer, subject))) (ut_users t).

Definition with_login (at_ : Z) (u : User) : User :=
  {| UID := UID u; Email := Email u; PasswordHash := PasswordHash u; Role := Role u; AllowedDomains := AllowedDomains u;
     UCreatedAt := UCreatedAt u; LastLoginAt := Some at_; OIDC := OIDC u; TOTPSecret := TOTPSecret u;
     TOTPEnabled := TOTPEnabled u; TOTPLastStep := TOTPLastStep u |}.
Definition with_scope (role : text) (allowed : list text) (u : User) : User :=
  {| UID := UID u; Email := Email u; PasswordHash := PasswordHash u; Role := role; AllowedDomains := allowed;
     UCreatedAt := UCreatedAt u; LastLoginAt := LastLoginAt u; OIDC := OIDC u; TOTPSecret := TOTPSecret u;
     TOTPEnabled := TOTPEnabled u; TOTPLastStep := TOTPLastStep u |}.
Definition with_password (hash : text) (u : User) : User :=
  {| UID := UID u; Email := Email u; PasswordHash := hash; Role := Role u; AllowedDomains := AllowedDomains u;
     UCreatedAt := UCreatedAt u; LastLoginAt := LastLoginAt u; OIDC := OIDC u; TOTPSecret := TOTPSecret u;
     TOTPEnabled := TOTPEnabled u; TOTPLastStep := TOTPLastStep u |}.
Definition with_oidc (o : option (text * text)) (u : User) : User :=
  {| UID := UID u; Email := Email u; PasswordHash := PasswordHash u; Role := Role u; AllowedDomains := AllowedDomains u;
     UCreatedAt := UCreatedAt u; LastLoginAt := LastLoginAt u; OIDC := o; TOTPSecret := TOTPSecret u;
     TOTPEnabled := TOTPEnabled u; TOTPLastStep := TOTPLastStep u |}.
Definition with_totp (secret : text) (enabled : bool) (step : Z) (u : User) : User :=
  {| UID := UID u; Email := Email u; PasswordHash := PasswordHash u; Role := Role u; AllowedDomains := AllowedDomains u;
     UCreatedAt := UCreatedAt u; LastLoginAt := LastLoginAt u; OIDC := OIDC u; TOTPSecret := secret;
     TOTPEnabled := enabled; TOTPLastStep := step |}.

Definition TouchLogin (id now : Z) (t : user_tables) : result unit * user_tables :=
  on_users (exec_rows (user_by id) (with_login now)) t.

(** [ORDER BY created_at ASC], rowid order on ties. *)
Definition created_le (a b : User) : Prop := time_leb (UCreatedAt a) (UCreatedAt b) = true.
#[export] Instance created_le_dec : RelDecision created_le.
Proof. intros a b. unfold created_le. apply _. Defined.

Definition ListUsers (t : user_tables) : list User := merge_sort created_le (ut_users t).

Definition is_admin (u : User) : bool := bool_decide (Role u = RoleAdmin).

Definition CountAdminUsers (t : user_tables) : Z := affected is_admin (ut_users t).

(** [UpdateUserScope] reads, decides, and only then writes. *)
Definition may_change_role (id : Z) (newRole : text) (t : user_tables) : result unit :=
  match UserByID id t with
  | Err e => Err e
  | Ok u => if is_admin u && negb (bool_decide (newRole = RoleAdmin)) && (CountAdminUsers t <=? 1)
            then Err ErrLastAdmin else Ok ()
  end.

Definition write_scope (id : Z) (newRole : text) (allowed : list text) (t : user_tables) : result unit * user_tables :=
  if existsb (user_by id) (ut_users t) && negb (role_check newRole) then (Err (check_failed "store: exec"%string), t)
  else on_users (exec_rows (user_by id) (with_scope newRole allowed)) t.

Definition UpdateUserScope (id : Z) (newRole : text) (allowed : list text) (t : user_tables) : result unit * user_tables :=
  match may_change_role id newRole t with
  | Err e => (Err e, t)
  | Ok _ => write_scope id newRole allowed t
  end.

Definition UpdateUserRole (id : Z) (newRole : text) (t : user_tables) : result unit * user_tables :=
  match UserByID id t with
  | Err e => (Err e, t)
  | Ok u => UpdateUserScope id newRole (AllowedDomains u) t
  end.

Definition DeleteUserSessions (id : Z) (t : user_tables) : user_tables :=
  set_sessions (delete_rows (fun s => sr_user s =? id) (ut_sessions t)) t.

Definition may_delete (id : Z) (t : user_tables) : result unit :=
  match UserByID id t with
  | Err e => Err e
  | Ok u => if is_admin u && (CountAdminUsers t <=? 1) then Err ErrLastAdmin else Ok ()
  end.

Definition orphan_token (id : Z) (k : APIToken) : APIToken :=
  {| TokID := TokID k; TokName := TokName k; TokPrefix := TokPrefix k; TokHash := TokHash k; TokRole := TokRole k;
     CreatedBy := if bool_decide (CreatedBy k = Some id) then None else CreatedBy k;
     TokCreatedAt := TokCreatedAt k; TokExpiresAt := TokExpiresAt k; TokLastUsedAt := TokLastUsedAt k |}.

(** [DELETE FROM users]: sessions and recovery codes go with the row, tokens lose their
    creator.  (Events lose their user too; they are a table of their own.) *)
Definition erase_user (id : Z) (t : user_tables) : result unit * user_tables :=
  if affected (user_by id) (ut_users t) =? 0 then (Err not_found, t)
  else (Ok (), Users (delete_rows (user_by id) (ut_users t)) (ut_next t)
                 (delete_rows (fun s => sr_user s =? id) (ut_sessions t))
                 (delete_rows (fun c => rr_user c =? id) (ut_codes t))
                 (map (orphan_token id) (ut_tokens t)) (ut_next_token t)).

Definition DeleteUser (id : Z) (t : user_tables) : result unit * user_tables :=
  match may_delete id t with
  | Err e => (Err e, t)
  | Ok _ => erase_user id (DeleteUserSessions id t)
  end.

Definition LinkOIDC (id : Z) (issuer subject : text) (t : user_tables) : result unit * user_tables :=
  if existsb (user_by id) (ut_users t)
     && existsb (fun u => oidc_is (Some (issuer, subject)) u && negb (user_by id u)) (ut_users t)
  then (Err (unique_failed "store: exec"%string), t)
  else on_users (exec_rows (user_by id) (with_oidc (Some (issuer, subject)))) t.

(** ** Sessions *)

Definition CreateSession (token : text) (user now ttl : Z) (agent : text) (t : user_tables) : result unit * user_tables :=
  if existsb (fun s => bool_decide (sr_token s = token)) (ut_sessions t) then
    (Err (unique_failed "store: create session"%string), t)
  else if negb (existsb (user_by user) (ut_users t)) then (Err (foreign_key "store: create session"%string), t)
  else (Ok (), set_sessions (ut_sessions t ++ [SessionRow token user now (now + ttl) (truncate agent 300)]) t).

(** [expires_at > now], between texts. *)
Definition alive (now : Z) (s : session_row) : bool := negb (time_leb (sr_expires s) now).

Definition UserBySessionToken (token : text) (now : Z) (t : user_tables) : result User :=
  match find (fun s => bool_decide (sr_token s = token) && alive now s) (ut_sessions t) with
  | Some s => UserByID (sr_user s) t
  | None => Err not_found
  end.

Definition DeleteSession (token : text) (t : user_tables) : user_tables :=
  set_sessions (delete_rows (fun s => bool_decide (sr_token s = token)) (ut_sessions t)) t.

Definition DeleteOtherSessions (id : Z) (keep : text) (t : user_tables) : user_tables :=
  set_sessions (delete_rows (fun s => (sr_user s =? id) && negb (bool_decide (sr_token s = keep))) (ut_sessions t)) t.

Definition PurgeExpiredSessions (now : Z) (t : user_tables) : Z * user_tables :=
  let dead := fun s => time_leb (sr_expires s) now in
  (affected dead (ut_sessions t), set_sessions (delete_rows dead (ut_sessions t)) t).

Definition UpdatePassword (id : Z) (hash : text) (t : user_tables) : result unit * user_tables :=
  on_users (exec_rows (user_by id) (with_password hash)) t.

(** ** The second factor *)

Definition pending_totp (id : Z) (u : User) : bool := user_by id u && negb (TOTPEnabled u).

Definition SetPendingTOTP (id : Z) (sealed : text) (t : user_tables) : result unit * user_tables :=
  on_users (exec_rows (pending_totp id) (with_totp sealed false 0)) t.

(** [replaceRecoveryCodes]: a repeated hash breaks the unique constraint. *)
Definition replaceRecoveryCodes (id : Z) (hashes : list text) (t : user_tables) : result unit * user_tables :=
  if bool_decide (NoDup hashes) then
    if existsb (user_by id) (ut_users t) || bool_decide (hashes = []) then
      (Ok (), set_codes (delete_rows (fun c => rr_user c =? id) (ut_codes t)
                         ++ map (fun h => RecoveryRow id h None) hashes) t)
    else (Err (foreign_key "store: replace recovery codes"%string), t)
  else (Err (unique_failed "store: replace recovery codes"%string), t).

Definition ReplaceRecoveryCodes : Z -> list text -> user_tables -> result unit * user_tables := replaceRecoveryCodes.

Definition enrolling (id : Z) (u : User) : bool := pending_totp id u && negb (bool_decide (TOTPSecret u = [])).

(** One transaction: all of it or nothing. *)
Definition EnableTOTP (id step : Z) (hashes : list text) (t : user_tables) : result unit * user_tables :=
  if affected (enrolling id) (ut_users t) =? 0 then (Err not_found, t)
  else
    let t1 := set_users (update_rows (enrolling id) (fun u => with_totp (TOTPSecret u) true step u) (ut_users t)) t in
    match replaceRecoveryCodes id hashes t1 with
    | (Ok _, t2) => (Ok (), t2)
    | (Err e, _) => (Err e, t)
    end.

Definition step_ahead (id step : Z) (u : User) : bool := user_by id u && TOTPEnabled u && (TOTPLastStep u <? step).

Definition ConsumeTOTPStep (id step : Z) (t : user_tables) : result bool * user_tables :=
  let p := step_ahead id step in
  (Ok (affected p (ut_users t) =? 1),
   set_users (update_rows p (fun u => with_totp (TOTPSecret u) (TOTPEnabled u) step u) (ut_users t)) t).

Definition unused_code (id : Z) (h : text) (c : recovery_row) : bool :=
  (rr_user c =? id) && bool_decide (rr_hash c = h) && bool_decide (rr_used c = None).

Definition ConsumeRecoveryCode (id : Z) (h : text) (now : Z) (t : user_tables) : result bool * user_tables :=
  let p := unused_code id h in
  (Ok (affected p (ut_codes t) =? 1),
   set_codes (update_rows p (fun c => RecoveryRow (rr_user c) (rr_hash c) (Some now)) (ut_codes t)) t).

Definition RecoveryCodesLeft (id : Z) (t : user_tables) : Z :=
  affected (fun c => (rr_user c =? id) && bool_decide (rr_used c = None)) (ut_codes t).

Definition DisableTOTP (id : Z) (t : user_tables) : user_tables :=
  set_codes (delete_rows (fun c => rr_user c =? id) (ut_codes t))
    (set_users (update_rows (user_by id) (with_totp [] false 0) (ut_users t)) t).

(** ** API tokens *)

(** [APIToken.Expired]. *)
Definition Expired (now : Z) (k : APIToken) : bool :=
  match TokExpiresAt k with Some e => e <=? now | None => false end.

Definition token_role_check (role : text) : bool := bool_decide (role ∈ [RoleAdmin; RoleViewer]).

Definition CreateAPIToken (k : APIToken) (hash : text) (now : Z) (t : user_tables) : result Z * user_tables :=
  let prefix : text := "store: create api token"%string in
  if existsb (fun k => bool_decide (TokHash k = hash)) (ut_tokens t) then (Err (unique_failed prefix), t)
  else if negb (token_role_check (TokRole k)) then (Err (check_failed prefix), t)
  else if match CreatedBy k with Some u => negb (existsb (user_by u) (ut_users t)) | None => false end
  then (Err (foreign_key prefix), t)
  else
    let id := ut_next_token t in
    let row := {| TokID := id; TokName := trim_space (TokName k); TokPrefix := TokPrefix k; TokHash := hash;
                  TokRole := TokRole k; CreatedBy := CreatedBy k; TokCreatedAt := now;
                  TokExpiresAt := TokExpiresAt k; TokLastUsedAt := None |} in
    (Ok id, Users (ut_users t) (ut_next t) (ut_sessions t) (ut_codes t) (ut_tokens t ++ [row]) (id + 1)).

Definition APITokenByHash (hash : text) (now : Z) (t : user_tables) : result APIToken :=
  match find_row (fun k => bool_decide (TokHash k = hash)) (ut_tokens t) with
  | Ok k => if Expired now k then Err not_found else Ok k
  | Err e => Err e
  end.

(** [ORDER BY id DESC]: identifiers only grow. *)
Definition ListAPITokens (t : user_tables) : list APIToken := rev (ut_tokens t).

Definition DeleteAPIToken (id : Z) (t : user_tables) : result unit * user_tables :=
  let p := fun k => TokID k =? id in
  (if affected p (ut_tokens t) =? 0 then Err not_found else Ok (), set_tokens (delete_rows p (ut_tokens t)) t).

Definition touched (now : Z) (k : APIToken) : APIToken :=
  {| TokID := TokID k; TokName := TokName k; TokPrefix := TokPrefix k; TokHash := TokHash k; TokRole := TokRole k;
     CreatedBy := CreatedBy k; TokCreatedAt := TokCreatedAt k; TokExpiresAt := TokExpiresAt k; TokLastUsedAt := Some now |}.

(** At most one write a minute. *)
Definition TouchAPIToken (id now : Z) (t : user_tables) : user_tables :=
  set_tokens (update_rows (fun k => (TokID k =? id) &&
    match TokLastUsedAt k with
    | None => true
    | Some l => negb (time_leb (now - minute) l)
    end) (touched now) (ut_tokens t)) t.

(** ** Submission accounts *)

(** [SMTPUser.MaySend]. *)
Definition MaySend (u : SMTPUser) (from : text) : bool :=
  if negb (SEnabled u) then false
  else if bool_decide (SAllowedDomains u = []) then true
  else if bool_decide (from = []) then true
  else match last_index "@"%char from with
       | None => false
       | Some at_ => existsb (fun allowed => equal_fold allowed (to_lower (drop (S at_) from))) (SAllowedDomains u)
       end.

Definition smtp_by (id : Z) (u : SMTPUser) : bool := SID u =? id.

Definition CreateSMTPUser (username hash : text) (allowed : list text) (now : Z) (t : smtp_user_table)
  : result Z * smtp_user_table :=
  let username := trim_space username in
  if existsb (fun u => bool_decide (Username u = username)) (su_rows t) then
    (Err (unique_failed "store: create smtp user"%string), t)
  else (Ok (su_next t), SMTPUsers (su_rows t ++
    [{| SID := su_next t; Username := username; SPasswordHash := hash; SAllowedDomains := allowed; SEnabled := true;
        SCreatedAt := now; LastUsedAt := None |}]) (su_next t + 1)).

Definition SMTPUserByName (username : text) (t : smtp_user_table) : result SMTPUser :=
  find_row (fun u => bool_decide (Username u = trim_space username)) (su_rows t).

Definition username_le (a b : SMTPUser) : Prop := text_leb (Username a) (Username b) = true.
#[export] Instance username_le_dec : RelDecision username_le.
Proof. intros a b. unfold username_le. apply _. Defined.

Definition ListSMTPUsers (t : smtp_user_table) : list SMTPUser := merge_sort username_le (su_rows t).

Definition with_enabled (enabled : bool) (u : SMTPUser) : SMTPUser :=
  {| SID := SID u; Username := Username u; SPasswordHash := SPasswordHash u; SAllowedDomains := SAllowedDomains u;
     SEnabled := enabled; SCreatedAt := SCreatedAt u; LastUsedAt := LastUsedAt u |}.
Definition with_use (now : Z) (u : SMTPUser) : SMTPUser :=
  {| SID := SID u; Username := Username u; SPasswordHash := SPasswordHash u; SAllowedDomains := SAllowedDomains u;
     SEnabled := SEnabled u; SCreatedAt := SCreatedAt u; LastUsedAt := Some now |}.

Definition on_smtp (f : list SMTPUser -> result unit * list SMTPUser) (t : smtp_user_table) : result unit * smtp_user_table :=
  let '(r, l) := f (su_rows t) in (r, SMTPUsers l (su_next t)).

Definition DeleteSMTPUser (id : Z) (t : smtp_user_table) : result unit * smtp_user_table :=
  on_smtp (fun l => (if affected (smtp_by id) l =? 0 then Err not_found else Ok (), delete_rows (smtp_by id) l)) t.
Definition SetSMTPUserEnabled (id : Z) (enabled : bool) (t : smtp_user_table) : result unit * smtp_user_table :=
  on_smtp (exec_rows (smtp_by id) (with_enabled enabled)) t.
Definition TouchSMTPUser (id now : Z) (t : smtp_user_table) : result unit * smtp_user_table :=
  on_smtp (exec_rows (smtp_by id) (with_use now)) t.
