(* ===== verification/UserProps.v ===== *)
(** * Accounts: lemmas and guarantees *)

From S2P Require Import Prelude GoStrings Times Errors StoreTypes StoreQueue StoreDomains.
From S2P Require Import Filter StoreUsers.
From Stdlib Require Import QArith.
Open Scope Z_scope.

(** ** Histories of account operations *)

Inductive account_op :=
| ACreate (email hash role : text) (allowed : list text) (now : Z)
| AFirst (email hash role : text) (now : Z)
| AOIDC (email role issuer subject : text) (allowed : list text) (now : Z)
| ALogin (id now : Z)
| AScope (id : Z) (role : text) (allowed : list text)
| ARole (id : Z) (role : text)
| ADelete (id : Z)
| ALink (id : Z) (issuer subject : text)
| ASession (token : text) (user now ttl : Z) (agent : text)
| ALogout (token : text)
| AOthers (id : Z) (keep : text)
| APurge (now : Z)
| APassword (id : Z) (hash : text)
| APending (id : Z) (sealed : text)
| AEnable (id step : Z) (hashes : list text)
| AStep (id step : Z)
| ACode (id : Z) (h : text) (now : Z)
| ACodes (id : Z) (hashes : list text)
| ADisable (id : Z)
| AToken (k : APIToken) (hash : text) (now : Z)
| ATokenDelete (id : Z)
| ATokenTouch (id now : Z).

Definition run_account_op (t : user_tables) (op : account_op) : user_tables :=
  match op with
  | ACreate e h r a now => snd (CreateUser e h r a now t)
  | AFirst e h r now => snd (CreateFirstUser e h r now t)
  | AOIDC e r i s a now => snd (CreateOIDCUser e r i s a now t)
  | ALogin id now => snd (TouchLogin id now t)
  | AScope id r a => snd (UpdateUserScope id r a t)
  | ARole id r => snd (UpdateUserRole id r t)
  | ADelete id => snd (DeleteUser id t)
  | ALink id i s => snd (LinkOIDC id i s t)
  | ASession k u now ttl a => snd (CreateSession k u now ttl a t)
  | ALogout k => DeleteSession k t
  | AOthers id keep => DeleteOtherSessions id keep t
  | APurge now => snd (PurgeExpiredSessions now t)
  | APassword id h => snd (UpdatePassword id h t)
  | APending id s => snd (SetPendingTOTP id s t)
  | AEnable id step hs => snd (EnableTOTP id step hs t)
  | AStep id step => snd (ConsumeTOTPStep id step t)
  | ACode id h now => snd (ConsumeRecoveryCode id h now t)
  | ACodes id hs => snd (ReplaceRecoveryCodes id hs t)
  | ADisable id => DisableTOTP id t
  | AToken k h now => snd (CreateAPIToken k h now t)
  | ATokenDelete id => snd (DeleteAPIToken id t)
  | ATokenTouch id now => TouchAPIToken id now t
  end.

Definition run_account (ops : list account_op) (t : user_tables) : user_tables := fold_left run_account_op ops t.

Definition no_accounts : user_tables := Users [] 1 [] [] [] 1.

(** ** The shapes of what an operation does to the users *)

Inductive users_shape (t t' : user_tables) : Prop :=
| shape_map f :
    ut_users t' = map f (ut_users t) -> ut_next t' = ut_next t ->
    (forall u, UID (f u) = UID u /\ Email (f u) = Email u) -> users_shape t t'
| shape_add u :
    ut_users t' = ut_users t ++ [u] -> ut_next t' = ut_next t + 1 -> UID u = ut_next t ->
    Email u ∉ map Email (ut_users t) -> users_shape t t'
| shape_delete id :
    ut_users t' = delete_rows (user_by id) (ut_users t) -> ut_next t' = ut_next t ->
    (forall s, s ∈ ut_sessions t' -> sr_user s <> id) -> (forall c, c ∈ ut_codes t' -> rr_user c <> id) ->
    users_shape t t'.

Lemma shape_same t t' : ut_users t' = ut_users t -> ut_next t' = ut_next t -> users_shape t t'.
Proof. intros E1 E2. apply (shape_map t t' (fun u => u)); [by rewrite map_id|done|done]. Qed.

Lemma shape_update t t' p f :
  ut_users t' = update_rows p f (ut_users t) -> ut_next t' = ut_next t ->
  (forall u, UID (f u) = UID u /\ Email (f u) = Email u) -> users_shape t t'.
Proof.
  intros E1 E2 Hf. apply (shape_map t t' (fun u => if p u then f u else u)); [done|done|].
  intros u. destruct (p u); [apply Hf|done].
Qed.

Lemma insert_user_shape prefix e h r a o now t :
  users_shape t (snd (insert_user prefix e h r a o now t)).
Proof.
  unfold insert_user. destruct (existsb _ (ut_users t)) eqn:Ee; [by apply shape_same|].
  destruct (match o with Some _ => _ | None => _ end); [by apply shape_same|].
  destruct (negb _); [by apply shape_same|]. eapply shape_add; [reflexivity..|]. cbn.
  intros (u & Hu & Hin)%elem_of_map. rewrite (proj2 (existsb_elem _ _)) in Ee; [done|].
  exists u. split; [done|]. by rewrite bool_decide_eq_true_2.
Qed.

Lemma exec_shape p f t :
  (forall u, UID (f u) = UID u /\ Email (f u) = Email u) ->
  users_shape t (snd (on_users (exec_rows p f) t)).
Proof. intros Hf. eapply shape_update; [reflexivity..|done]. Qed.

Lemma write_scope_shape id r a t : users_shape t (snd (write_scope id r a t)).
Proof. unfold write_scope. destruct (_ && _); [by apply shape_same|]. by apply exec_shape. Qed.

Lemma UpdateUserScope_shape id r a t : users_shape t (snd (UpdateUserScope id r a t)).
Proof. unfold UpdateUserScope. destruct (may_change_role _ _ _); [apply write_scope_shape|by apply shape_same]. Qed.

Lemma replaceRecoveryCodes_users id hs t :
  ut_users (snd (replaceRecoveryCodes id hs t)) = ut_users t /\ ut_next (snd (replaceRecoveryCodes id hs t)) = ut_next t.
Proof. unfold replaceRecoveryCodes. repeat case_match; done. Qed.

Lemma run_account_op_shape t op : users_shape t (run_account_op t op).
Proof.
  destruct op; cbn [run_account_op].
  - apply insert_user_shape.
  - unfold CreateFirstUser. destruct (_ <? _); [by apply shape_same|apply insert_user_shape].
  - apply insert_user_shape.
  - by apply exec_shape.
  - apply UpdateUserScope_shape.
  - unfold UpdateUserRole. destruct (UserByID _ _); [apply UpdateUserScope_shape|by apply shape_same].
  - unfold DeleteUser. destruct (may_delete _ _); [|by apply shape_same]. unfold erase_user.
    destruct (_ =? 0); [by apply shape_same|].
    eapply shape_delete; [done..| |]; cbn; intros x [Hx _]%elem_of_List_filter; by bools.
  - unfold LinkOIDC. destruct (_ && _); [by apply shape_same|by apply exec_shape].
  - unfold CreateSession. repeat split_match; by apply shape_same.
  - by apply shape_same.
  - by apply shape_same.
  - by apply shape_same.
  - by apply exec_shape.
  - by apply exec_shape.
  - unfold EnableTOTP. destruct (_ =? 0); [by apply shape_same|].
    destruct (replaceRecoveryCodes _ _ _) as [[]t2] eqn:E; [|by apply shape_same].
    pose proof (replaceRecoveryCodes_users id hashes (set_users (update_rows (enrolling id)
      (fun u => with_totp (TOTPSecret u) true step u) (ut_users t)) t)) as [E1 E2].
    rewrite E in E1, E2. cbn in E1, E2 |- *. by eapply shape_update.
  - by eapply shape_update.
  - by apply shape_same.
  - by apply shape_same; apply replaceRecoveryCodes_users.
  - by eapply shape_update.
  - unfold CreateAPIToken. repeat split_match; by apply shape_same.
  - by apply shape_same.
  - by apply shape_same.
Qed.

(** ** Well-formed tables *)

Definition has_user (t : user_tables) (id : Z) : Prop := id ∈ map UID (ut_users t).

Record users_wf (t : user_tables) : Prop := {
  uw_ids : NoDup (map UID (ut_users t));
  uw_emails : NoDup (map Email (ut_users t));
  uw_next : forall id, has_user t id -> id < ut_next t;
  uw_sessions : forall s, s ∈ ut_sessions t -> has_user t (sr_user s);
  uw_codes : forall c, c ∈ ut_codes t -> has_user t (rr_user c)
}.

Lemma existsb_user_by id l : existsb (user_by id) l = true <-> id ∈ map UID l.
Proof.
  rewrite existsb_elem, elem_of_map. unfold user_by. setoid_rewrite Z.eqb_eq. naive_solver.
Qed.

(** An operation only ever adds sessions and codes of users that exist. *)
Lemma run_account_op_sessions t op s :
  s ∈ ut_sessions (run_account_op t op) -> s ∈ ut_sessions t \/ has_user t (sr_user s).
Proof.
  assert (Hdel : forall p, s ∈ delete_rows p (ut_sessions t) -> s ∈ ut_sessions t).
  { intros p [_ Hs]%elem_of_List_filter. done. }
  destruct op; cbn [run_account_op]; try (by left).
  - unfold CreateUser, insert_user. repeat split_match; auto.
  - unfold CreateFirstUser, insert_user. repeat split_match; auto.
  - unfold CreateOIDCUser, insert_user. repeat split_match; auto.
  - unfold UpdateUserScope, write_scope. repeat split_match; auto.
  - unfold UpdateUserRole, UpdateUserScope, write_scope. repeat split_match; auto.
  - unfold DeleteUser, erase_user. repeat split_match; auto; cbn; intros Hs; left;
    repeat apply elem_of_List_filter in Hs as [_ Hs]; done.
  - unfold LinkOIDC. repeat split_match; auto.
  - unfold CreateSession. destruct (existsb _ (ut_sessions t)); [by left|].
    destruct (existsb (user_by user) _) eqn:Eu; cbn; [|by left].
    intros [?|Hs]%elem_of_app; [by left|right].
    apply list_elem_of_singleton in Hs as ->. by apply existsb_user_by.
  - cbn. intros Hs. left. by apply Hdel in Hs.
  - cbn. intros Hs. left. by apply Hdel in Hs.
  - cbn. intros Hs. left. by apply Hdel in Hs.
  - unfold EnableTOTP, replaceRecoveryCodes. repeat split_match; auto.
  - unfold ReplaceRecoveryCodes, replaceRecoveryCodes. repeat split_match; auto.
  - unfold CreateAPIToken. repeat split_match; auto.
Qed.

Lemma replaceRecoveryCodes_codes id hs t c :
  c ∈ ut_codes (snd (replaceRecoveryCodes id hs t)) -> c ∈ ut_codes t \/ has_user t (rr_user c).
Proof.
  unfold replaceRecoveryCodes. case_bool_decide; [|by left].
  destruct (existsb (user_by id) _) eqn:Eu; cbn.
  - intros [[_ ?]%elem_of_List_filter|(h & -> & _)%elem_of_map]%elem_of_app; [by left|right].
    by apply existsb_user_by.
  - case_bool_decide; [|by left]. subst hs. rewrite app_nil_r. intros [_ ?]%elem_of_List_filter. by left.
Qed.

Lemma run_account_op_codes t op c :
  c ∈ ut_codes (run_account_op t op) ->
  (exists c0, c0 ∈ ut_codes t /\ rr_user c0 = rr_user c) \/ has_user t (rr_user c).
Proof.
  assert (Hsame : c ∈ ut_codes t -> (exists c0, c0 ∈ ut_codes t /\ rr_user c0 = rr_user c) \/ has_user t (rr_user c)) by eauto.
  assert (Hdel : forall p, c ∈ delete_rows p (ut_codes t) -> (exists c0, c0 ∈ ut_codes t /\ rr_user c0 = rr_user c) \/ has_user t (rr_user c)).
  { intros p [_ Hs]%elem_of_List_filter. auto. }
  destruct op; cbn [run_account_op]; try exact Hsame.
  - unfold CreateUser, insert_user. repeat split_match; auto.
  - unfold CreateFirstUser, insert_user. repeat split_match; auto.
  - unfold CreateOIDCUser, insert_user. repeat split_match; auto.
  - unfold UpdateUserScope, write_scope. repeat split_match; auto.
  - unfold UpdateUserRole, UpdateUserScope, write_scope. repeat split_match; auto.
  - unfold DeleteUser, erase_user. repeat split_match; auto. apply Hdel.
  - unfold LinkOIDC. repeat split_match; auto.
  - unfold CreateSession. repeat split_match; auto.
  - unfold EnableTOTP. destruct (_ =? 0); [exact Hsame|].
    destruct (replaceRecoveryCodes _ _ _) as [[]t2] eqn:E; [|exact Hsame]. cbn. intros Hc.
    pose proof (replaceRecoveryCodes_codes id hashes (set_users (update_rows (enrolling id)
      (fun u => with_totp (TOTPSecret u) true step u) (ut_users t)) t) c) as H.
    rewrite E in H. cbn in H. destruct (H Hc) as [?|Hu]; [auto|right]. unfold has_user in *. cbn in Hu.
    unfold update_rows in Hu. rewrite map_map in Hu. erewrite map_ext in Hu; [exact Hu|].
    intros u. by destruct (enrolling id u).
  - cbn. intros (c0 & -> & Hc)%elem_of_map. left. exists c0. split; [done|]. by destruct (unused_code id h c0).
  - intros Hc. apply replaceRecoveryCodes_codes in Hc as [?|?]; auto.
  - cbn. apply Hdel.
  - unfold CreateAPIToken. repeat split_match; auto.
Qed.

Lemma NoDup_map_delete {A B} (f : A -> B) (p : A -> bool) l : NoDup (map f l) -> NoDup (map f (delete_rows p l)).
Proof.
  intros Hn. eapply sublist_NoDup; [exact Hn|]. unfold delete_rows. clear Hn.
  induction l as [|e l IH]; cbn; [apply sublist_nil|].
  destruct (p e); cbn; [by apply sublist_cons|by apply sublist_skip].
Qed.

Lemma shape_ids t t' : users_shape t t' ->
  (forall id, has_user t' id -> has_user t id \/ id = ut_next t) /\ ut_next t <= ut_next t'.
Proof.
  unfold has_user. intros [f E1 E2 Hf|u E1 E2 Hu He|id E1 E2 _ _]; rewrite E1; (split; [|lia]); intros i.
  - rewrite map_map, (map_ext _ UID) by apply Hf. auto.
  - rewrite map_app. intros [?|Hi%list_elem_of_singleton]%elem_of_app; [auto|right]. cbn in Hi. congruence.
  - intros (u & -> & [_ Hu]%elem_of_List_filter)%elem_of_map. left. by apply elem_of_map_2.
Qed.

Lemma run_account_op_wf t op : users_wf t -> users_wf (run_account_op t op).
Proof.
  intros [Hids Hemails Hnext Hs Hc]. pose proof (run_account_op_sessions t op) as Hs'.
  pose proof (run_account_op_codes t op) as Hc'. pose proof (run_account_op_shape t op) as Hsh.
  set (t' := run_account_op t op) in *. clearbody t'.
  assert (Hold : (forall id, has_user t id -> has_user t' id) ->
    (forall s, s ∈ ut_sessions t' -> has_user t' (sr_user s)) /\ (forall c, c ∈ ut_codes t' -> has_user t' (rr_user c))).
  { intros Hsub. split.
    - intros s Hin. destruct (Hs' s Hin); auto.
    - intros c Hin. destruct (Hc' c Hin) as [(c0 & Hc0 & <-)|]; auto. }
  destruct Hsh as [f E1 E2 Hf|u E1 E2 Hu He|id E1 E2 Hsd Hcd]; unfold has_user in *.
  - assert (Em : map UID (ut_users t') = map UID (ut_users t)).
    { rewrite E1, map_map. apply map_ext. intros u. apply Hf. }
    destruct Hold as [? ?]; [by rewrite Em|]. split; unfold has_user; [..|done|done].
    + by rewrite Em.
    + rewrite E1, map_map, (map_ext _ Email) by apply Hf. done.
    + rewrite Em, E2. done.
  - assert (Em : map UID (ut_users t') = map UID (ut_users t) ++ [ut_next t]).
    { rewrite E1, map_app. cbn. by rewrite Hu. }
    destruct Hold as [? ?]; [rewrite Em; set_solver|]. split; unfold has_user; [..|done|done].
    + rewrite Em. apply NoDup_app. split_and!; [done| |apply NoDup_singleton].
      intros i Hi%Hnext ->%list_elem_of_singleton. lia.
    + rewrite E1, map_app. apply NoDup_app. split_and!; [done| |apply NoDup_singleton].
      intros e Hin ->%list_elem_of_singleton. done.
    + rewrite Em, E2. intros i [Hi%Hnext| ->%list_elem_of_singleton]%elem_of_app; lia.
  - assert (Hkeep : forall i, i ∈ map UID (ut_users t) -> i <> id -> i ∈ map UID (ut_users t')).
    { intros i (u & -> & Hu)%elem_of_map Hne. rewrite E1. apply elem_of_map_2, elem_of_List_filter.
      split; [|done]. unfold user_by. by apply negb_true_iff, Z.eqb_neq. }
    split; unfold has_user.
    + rewrite E1. by apply NoDup_map_delete.
    + rewrite E1. by apply NoDup_map_delete.
    + intros i (u & -> & Hu)%elem_of_map. rewrite E2. apply Hnext. rewrite E1 in Hu.
      apply elem_of_List_filter in Hu as [_ Hu]. by apply elem_of_map_2.
    + intros s Hin. apply Hkeep; [|by apply Hsd]. destruct (Hs' s Hin); auto.
    + intros c Hin. apply Hkeep; [|by apply Hcd]. destruct (Hc' c Hin) as [(c0 & Hc0 & <-)|]; auto.
Qed.

Lemma run_account_wf ops t : users_wf t -> users_wf (run_account ops t).
Proof.
  revert t. induction ops as [|op ops IH]; intros t Ht; [done|]. cbn. by apply IH, run_account_op_wf.
Qed.

Lemma no_accounts_wf : users_wf no_accounts.
Proof.
  split; cbn; try apply NoDup_nil_2; unfold has_user; cbn; intros x Hx; by apply not_elem_of_nil in Hx.
Qed.

(** ** The last administrator *)

Lemma affected_app {A} (p : A -> bool) l1 l2 : affected p (l1 ++ l2) = affected p l1 + affected p l2.
Proof. unfold affected. rewrite List.filter_app, length_app. lia. Qed.

Lemma affected_cons {A} (p : A -> bool) x l : affected p (x :: l) = (if p x then 1 else 0) + affected p l.
Proof. unfold affected. cbn. destruct (p x); cbn; lia. Qed.

Lemma affected_nonneg {A} (p : A -> bool) l : 0 <= affected p l.
Proof. unfold affected. lia. Qed.

Lemma affected_map_keep {A} (p : A -> bool) f l : (forall x, p (f x) = p x) -> affected p (map f l) = affected p l.
Proof. intros H. induction l as [|x l IH]; [done|]. cbn. rewrite !affected_cons, IH, H. done. Qed.

Lemma affected_absent id l : id ∉ map UID l -> affected (user_by id) l = 0.
Proof.
  induction l as [|u l IH]; intros H; [done|]. rewrite affected_cons. cbn in H. apply not_elem_of_cons in H as [H1 H2].
  rewrite IH by done. unfold user_by at 1. destruct (Z.eqb_spec (UID u) id); [congruence|done].
Qed.

(** Touching the rows of one identifier loses at most one administrator, and none when
    that row is not one. *)
Lemma admins_update_one id (f : User -> User) l :
  NoDup (map UID l) -> affected is_admin l - 1 <= affected is_admin (update_rows (user_by id) f l).
Proof.
  induction l as [|u l IH]; intros Hn; [done|]. cbn in Hn. inversion Hn as [|? ? Hnot Hn']; subst.
  cbn [update_rows map]. rewrite !affected_cons.
  destruct (user_by id u) eqn:E.
  - assert (Hl : map (fun r => if user_by id r then f r else r) l = l).
    { rewrite <- (map_id l) at 2. apply map_ext_in. intros v Hv%list_elem_of_In.
      destruct (user_by id v) eqn:Ev; [|done]. unfold user_by in *. bools. destruct Hnot.
      rewrite <- Ev in E. rewrite E. by apply elem_of_map_2. }
    unfold update_rows. rewrite Hl. destruct (is_admin u), (is_admin (f u)); lia.
  - specialize (IH Hn'). unfold update_rows in IH. destruct (is_admin u); lia.
Qed.

Lemma admins_update_other id f l :
  (forall u, u ∈ l -> user_by id u = true -> is_admin u = true -> is_admin (f u) = true) ->
  affected is_admin l <= affected is_admin (update_rows (user_by id) f l).
Proof.
  induction l as [|u l IH]; intros H; [done|]. cbn [update_rows map]. rewrite !affected_cons.
  assert (affected is_admin l <= affected is_admin (update_rows (user_by id) f l)).
  { apply IH. intros v Hv. apply H. by apply list_elem_of_further. }
  unfold update_rows in *. destruct (user_by id u) eqn:E; [|lia]. destruct (is_admin u) eqn:Ea.
  - rewrite (H u) by (done || apply list_elem_of_here). lia.
  - destruct (is_admin (f u)); lia.
Qed.

Lemma admins_delete_one id l :
  NoDup (map UID l) -> affected is_admin l - 1 <= affected is_admin (delete_rows (user_by id) l).
Proof.
  induction l as [|u l IH]; intros Hn; [done|]. cbn in Hn. inversion Hn as [|? ? Hnot Hn']; subst.
  unfold delete_rows in *. cbn. destruct (user_by id u) eqn:E; cbn.
  - rewrite affected_cons. rewrite List_filter_all; [destruct (is_admin u); lia|].
    intros v Hv. destruct (user_by id v) eqn:Ev; [|done]. unfold user_by in *. bools. destruct Hnot.
    rewrite <- Ev in E. rewrite E. by apply elem_of_map_2.
  - rewrite !affected_cons. specialize (IH Hn'). lia.
Qed.

Lemma admins_delete_other id l :
  (forall u, u ∈ l -> user_by id u = true -> is_admin u = false) ->
  affected is_admin l <= affected is_admin (delete_rows (user_by id) l).
Proof.
  induction l as [|u l IH]; intros H; [done|]. unfold delete_rows in *. cbn.
  assert (IH' : affected is_admin l <= affected is_admin (List.filter (fun r => negb (user_by id r)) l)).
  { apply IH. intros v Hv. apply H. by apply list_elem_of_further. }
  rewrite affected_cons. destruct (user_by id u) eqn:E; cbn.
  - rewrite (H u) by (done || apply list_elem_of_here). lia.
  - rewrite affected_cons. lia.
Qed.

(** With unique identifiers, the row [UserByID] reads is every row of that identifier. *)
Lemma UserByID_unique t id u v :
  users_wf t -> UserByID id t = Ok u -> v ∈ ut_users t -> user_by id v = true -> v = u.
Proof.
  intros [Hn _ _ _ _] Hu Hv Ev. unfold UserByID, find_row in Hu. destruct (find _ _) as [w|] eqn:E; [|done].
  injection Hu as ->. apply find_some in E as [Hin Eu]. apply list_elem_of_In in Hin. unfold user_by in *. bools.
  assert (Huid : UID v = UID u) by congruence. clear -Hn Hv Hin Huid.
  induction (ut_users t) as [|x l IH]; [by apply not_elem_of_nil in Hv|]. cbn in Hn.
  inversion Hn as [|? ? Hnot Hn']; subst. apply elem_of_cons in Hv as [->|Hv], Hin as [->|Hin].
  - done.
  - destruct Hnot. rewrite Huid. by apply elem_of_map_2.
  - destruct Hnot. rewrite <- Huid. by apply elem_of_map_2.
  - by apply IH.
Qed.

Lemma write_scope_admins id role allowed t :
  users_wf t -> may_change_role id role t = Ok () -> 1 <= CountAdminUsers t ->
  1 <= CountAdminUsers (snd (write_scope id role allowed t)).
Proof.
  intros Hwf Hmay Hone. unfold write_scope. destruct (_ && _); [done|].
  unfold CountAdminUsers in *. cbn. unfold may_change_role in Hmay.
  destruct (UserByID id t) as [u|] eqn:Eu; [|done].
  destruct (is_admin u && _ && _) eqn:Eg; [done|].
  apply andb_false_iff in Eg as [Eg|Eg].
  - pose proof (admins_update_other id (with_scope role allowed) (ut_users t)) as H. etrans; [exact Hone|]. apply H.
    intros v Hv Ev Ea. rewrite (UserByID_unique t id u v Hwf Eu Hv Ev) in Ea. rewrite Ea in Eg. cbn in Eg. by apply negb_false_iff in Eg.
  - bools. pose proof (admins_update_one id (with_scope role allowed) (ut_users t) (uw_ids t Hwf)).
    unfold CountAdminUsers in Eg. lia.
Qed.

Lemma UpdateUserScope_admins id role allowed t :
  users_wf t -> 1 <= CountAdminUsers t -> 1 <= CountAdminUsers (snd (UpdateUserScope id role allowed t)).
Proof.
  intros Hwf Hone. unfold UpdateUserScope. destruct (may_change_role id role t) as [[]|] eqn:E; [|done].
  by apply write_scope_admins.
Qed.

Lemma DeleteUser_admins id t :
  users_wf t -> 1 <= CountAdminUsers t -> 1 <= CountAdminUsers (snd (DeleteUser id t)).
Proof.
  intros Hwf Hone. unfold DeleteUser, may_delete. destruct (UserByID id t) as [u|] eqn:Eu; [|done].
  destruct (is_admin u && _) eqn:Eg; [done|]. unfold erase_user. destruct (_ =? 0); [done|].
  unfold CountAdminUsers in *. cbn. apply andb_false_iff in Eg as [Eg|Eg].
  - etrans; [exact Hone|]. apply admins_delete_other. intros v Hv Ev.
    by rewrite (UserByID_unique t id u v Hwf Eu Hv Ev).
  - bools. pose proof (admins_delete_one id (ut_users t) (uw_ids t Hwf)).
    unfold delete_rows in *. lia.
Qed.

Lemma exec_admins p f t :
  (forall u, Role (f u) = Role u) -> CountAdminUsers (snd (on_users (exec_rows p f) t)) = CountAdminUsers t.
Proof.
  intros Hf. unfold CountAdminUsers. cbn. apply affected_map_keep. intros u. unfold is_admin.
  destruct (p u); [by rewrite Hf|done].
Qed.

Lemma insert_user_admins prefix e h r a o now t :
  CountAdminUsers t <= CountAdminUsers (snd (insert_user prefix e h r a o now t)).
Proof.
  assert (Happ : forall l, CountAdminUsers t <= affected is_admin (ut_users t ++ l)).
  { intros l. rewrite affected_app. pose proof (affected_nonneg is_admin l). unfold CountAdminUsers. lia. }
  unfold insert_user. repeat split_match; (apply Z.le_refl || apply Happ).
Qed.

Lemma run_account_op_admins t op :
  users_wf t -> 1 <= CountAdminUsers t -> 1 <= CountAdminUsers (run_account_op t op).
Proof.
  intros Hwf Hone. assert (Hins : forall prefix e h r a o now, 1 <= CountAdminUsers (snd (insert_user prefix e h r a o now t))).
  { intros. etrans; [exact Hone|apply insert_user_admins]. }
  assert (Hkeep : forall p (f : User -> User), (forall u, Role (f u) = Role u) -> 1 <= affected is_admin (update_rows p f (ut_users t))).
  { intros p f Hf. etrans; [exact Hone|]. rewrite <- (exec_admins p f t Hf). done. }
  destruct op; cbn [run_account_op]; try exact Hone.
  - apply Hins.
  - unfold CreateFirstUser. destruct (_ <? _); [done|apply Hins].
  - apply Hins.
  - by apply Hkeep.
  - by apply UpdateUserScope_admins.
  - unfold UpdateUserRole. destruct (UserByID _ _); [by apply UpdateUserScope_admins|done].
  - by apply DeleteUser_admins.
  - unfold LinkOIDC. destruct (_ && _); [done|]. by apply Hkeep.
  - unfold CreateSession. repeat split_match; done.
  - by apply Hkeep.
  - by apply Hkeep.
  - unfold EnableTOTP. destruct (_ =? 0); [done|]. destruct (replaceRecoveryCodes _ _ _) as [[]t2] eqn:E; [|done].
    pose proof (replaceRecoveryCodes_users id hashes (set_users (update_rows (enrolling id)
      (fun u => with_totp (TOTPSecret u) true step u) (ut_users t)) t)) as [E1 _].
    rewrite E in E1. cbn in E1 |- *. unfold CountAdminUsers. rewrite E1. by apply Hkeep.
  - by apply Hkeep.
  - unfold ReplaceRecoveryCodes, CountAdminUsers. rewrite (proj1 (replaceRecoveryCodes_users id hashes t)). exact Hone.
  - by apply Hkeep.
  - unfold CreateAPIToken. repeat split_match; done.
Qed.

(** ** The second factor is spent once *)

(** What may have become of a user's second factor: the user is new, or was there, and if
    the factor was on it still is, with the secret it had and a last step that only grew. *)
Definition still_on (u u' : User) : Prop :=
  TOTPEnabled u = true ->
  TOTPEnabled u' = true /\ TOTPSecret u' = TOTPSecret u /\ TOTPLastStep u <= TOTPLastStep u'.

Definition factor_kept (t : user_tables) (u' : User) : Prop :=
  UID u' = ut_next t \/ exists u, u ∈ ut_users t /\ UID u = UID u' /\ still_on u u'.

Lemma factor_update t p f u' :
  (forall u, p u = true -> UID (f u) = UID u /\ still_on u (f u)) ->
  u' ∈ update_rows p f (ut_users t) -> factor_kept t u'.
Proof.
  intros Hf (u & -> & Hu)%elem_of_map. right. exists u. unfold still_on in *. destruct (p u) eqn:Ep; [|done].
  destruct (Hf u Ep) as [E H]. done.
Qed.

Lemma factor_same t u' : u' ∈ ut_users t -> factor_kept t u'.
Proof. intros Hu. right. exists u'. unfold still_on. done. Qed.

Lemma insert_user_factor prefix e h r a o now t u' :
  u' ∈ ut_users (snd (insert_user prefix e h r a o now t)) -> factor_kept t u'.
Proof.
  unfold insert_user. repeat split_match; try apply factor_same; cbn [snd ut_users];
    (intros [?| ->%list_elem_of_singleton]%elem_of_app; [by apply factor_same|by left]).
Qed.

Lemma run_account_op_factor t op u' :
  op <> ADisable (UID u') -> u' ∈ ut_users (run_account_op t op) -> factor_kept t u'.
Proof.
  intros Hop. assert (Hup : forall p f, (forall u, UID (f u) = UID u /\ TOTPEnabled (f u) = TOTPEnabled u /\ TOTPSecret (f u) = TOTPSecret u /\ TOTPLastStep (f u) = TOTPLastStep u) ->
    u' ∈ update_rows p f (ut_users t) -> factor_kept t u').
  { intros p f Hf. apply factor_update. intros u _. unfold still_on. destruct (Hf u) as (-> & -> & -> & ->). done. }
  assert (Hscope : forall id r a, u' ∈ ut_users (snd (UpdateUserScope id r a t)) -> factor_kept t u').
  { intros id r a. unfold UpdateUserScope, write_scope. repeat split_match; try apply factor_same. by apply Hup. }
  destruct op; cbn [run_account_op]; try apply factor_same.
  - apply insert_user_factor.
  - unfold CreateFirstUser. destruct (_ <? _); [apply factor_same|apply insert_user_factor].
  - apply insert_user_factor.
  - by apply Hup.
  - apply Hscope.
  - unfold UpdateUserRole. destruct (UserByID _ _); [apply Hscope|apply factor_same].
  - unfold DeleteUser, erase_user. destruct (may_delete _ _); [|apply factor_same].
    destruct (_ =? 0); [apply factor_same|]. cbn. intros Hu.
    apply elem_of_List_filter in Hu as [_ Hu]. by apply factor_same.
  - unfold LinkOIDC. destruct (_ && _); [apply factor_same|by apply Hup].
  - unfold CreateSession. repeat split_match; apply factor_same.
  - by apply Hup.
  - apply factor_update. intros u Hu. split; [done|]. unfold still_on, pending_totp in *. bools. congruence.
  - unfold EnableTOTP. destruct (_ =? 0); [apply factor_same|].
    destruct (replaceRecoveryCodes _ _ _) as [[]t2] eqn:E; [|apply factor_same].
    pose proof (replaceRecoveryCodes_users id hashes (set_users (update_rows (enrolling id)
      (fun u => with_totp (TOTPSecret u) true step u) (ut_users t)) t)) as [E1 _].
    rewrite E in E1. cbn in E1 |- *. rewrite E1. apply factor_update. intros u Hu. split; [done|].
    unfold still_on, enrolling, pending_totp in *. bools. congruence.
  - apply factor_update. intros u Hu. split; [done|]. intros Hen. cbn. unfold step_ahead in Hu. bools. split_and!; [done..|lia].
  - unfold ReplaceRecoveryCodes. rewrite (proj1 (replaceRecoveryCodes_users id hashes t)). apply factor_same.
  - cbn. intros (u & -> & Hu)%elem_of_map. destruct (user_by id u) eqn:Eid; [|by apply factor_same].
    unfold user_by in Eid. bools. destruct Hop. by rewrite <- Eid.
  - unfold CreateAPIToken. repeat split_match; apply factor_same.
Qed.

Definition step_spent (id s : Z) (t : user_tables) : Prop :=
  id < ut_next t /\ forall u, u ∈ ut_users t -> UID u = id -> TOTPEnabled u = true /\ s <= TOTPLastStep u.

(** What stays true of an account while its factor is on. *)
Lemma run_account_enrolled id (P : User -> Prop) ops t :
  (forall u u', TOTPEnabled u = true -> still_on u u' -> P u -> P u') -> ADisable id ∉ ops ->
  (id < ut_next t /\ forall u, u ∈ ut_users t -> UID u = id -> TOTPEnabled u = true /\ P u) ->
  id < ut_next (run_account ops t) /\ forall u, u ∈ ut_users (run_account ops t) -> UID u = id -> TOTPEnabled u = true /\ P u.
Proof.
  intros HP. revert t. induction ops as [|op ops IH]; intros t Hops [Hid Hs]; [done|]. cbn.
  apply not_elem_of_cons in Hops as [Hop Hops]. apply IH; [done|].
  pose proof (shape_ids _ _ (run_account_op_shape t op)) as [_ Hnext]. split; [lia|].
  intros u' Hu' Eid. assert (Hne : op <> ADisable (UID u')) by congruence.
  destruct (run_account_op_factor t op u' Hne Hu') as [E|(u & Hu & Eu & Hkeep)]; [lia|].
  destruct (Hs u Hu) as [Hen Hle]; [congruence|]. split; [by destruct (Hkeep Hen)|by eapply HP].
Qed.

Lemma run_account_step_spent id s ops t :
  ADisable id ∉ ops -> step_spent id s t -> step_spent id s (run_account ops t).
Proof. apply run_account_enrolled. intros u u' Hen Hon Hle. destruct (Hon Hen) as (_ & _ & Hgrow). lia. Qed.

(** The account has this secret, and its factor is on. *)
Definition secret_is (id : Z) (sealed : text) (t : user_tables) : Prop :=
  id < ut_next t /\ forall u, u ∈ ut_users t -> UID u = id -> TOTPEnabled u = true /\ TOTPSecret u = sealed.

Lemma run_account_secret_is id sealed ops t :
  ADisable id ∉ ops -> secret_is id sealed t -> secret_is id sealed (run_account ops t).
Proof. apply run_account_enrolled. intros u u' Hen Hon <-. by destruct (Hon Hen) as (_ & -> & _). Qed.

Lemma user_unique t u v : users_wf t -> u ∈ ut_users t -> v ∈ ut_users t -> UID u = UID v -> u = v.
Proof.
  intros [Hn _ _ _ _] Hu Hv E. induction (ut_users t) as [|x l IH]; [by apply not_elem_of_nil in Hv|].
  cbn in Hn. inversion Hn as [|? ? Hnot Hn']; subst. apply elem_of_cons in Hv as [->|Hv], Hu as [->|Hu].
  - done.
  - destruct Hnot. rewrite <- E. by apply elem_of_map_2.
  - destruct Hnot. rewrite E. by apply elem_of_map_2.
  - by apply IH.
Qed.

Lemma affected_zero {A} (p : A -> bool) l : (forall x, x ∈ l -> p x = false) -> affected p l = 0.
Proof.
  induction l as [|x l IH]; intros H; [done|]. rewrite affected_cons, H by apply list_elem_of_here.
  rewrite IH; [done|]. intros y Hy. apply H. by apply list_elem_of_further.
Qed.

Lemma affected_some {A} (p : A -> bool) l : affected p l <> 0 -> exists x, x ∈ l /\ p x = true.
Proof.
  intros H. destruct (existsb p l) eqn:E; [by apply existsb_elem|]. destruct H. apply affected_zero.
  intros x Hx. destruct (p x) eqn:Ep; [|done]. by rewrite (proj2 (existsb_elem p l) (ex_intro _ x (conj Hx Ep))) in E.
Qed.

Lemma consumed_step_spent id s t t1 :
  users_wf t -> ConsumeTOTPStep id s t = (Ok true, t1) -> step_spent id s t1.
Proof.
  intros Hwf. unfold ConsumeTOTPStep. intros [= Hone <-]. bools.
  destruct (affected_some (step_ahead id s) (ut_users t)) as (u & Hu & Ep); [lia|].
  unfold step_spent. cbn. split.
  - apply (uw_next t Hwf). unfold step_ahead, user_by in Ep. bools. subst id. by apply elem_of_map_2.
  - intros u' (v & -> & Hv)%elem_of_map Eid.
    assert (v = u).
    { apply (user_unique t); [done..|]. unfold step_ahead, user_by in Ep. bools. destruct (step_ahead id s v); cbn in Eid; congruence. }
    subst v. rewrite Ep. cbn. unfold step_ahead in Ep. bools. done.
Qed.

(** Recovery codes come back only when they are replaced. *)
Definition codes_replaced (id : Z) (op : account_op) : bool :=
  match op with
  | AEnable i _ _ | ACodes i _ | ADisable i => i =? id
  | _ => false
  end.

Lemma replaceRecoveryCodes_other id hs t c :
  c ∈ ut_codes (snd (replaceRecoveryCodes id hs t)) -> rr_user c <> id -> c ∈ ut_codes t.
Proof.
  unfold replaceRecoveryCodes. case_bool_decide; [|done]. destruct (_ || _); cbn; [|done].
  intros [[_ ?]%elem_of_List_filter|(h & -> & _)%elem_of_map]%elem_of_app Hne; [done|by destruct Hne].
Qed.

Definition code_spent (id : Z) (h : text) (t : user_tables) : Prop :=
  forall c, c ∈ ut_codes t -> rr_user c = id -> rr_hash c = h -> rr_used c <> None.

Lemma run_account_op_spent id h t op :
  codes_replaced id op = false -> code_spent id h t -> code_spent id h (run_account_op t op).
Proof.
  intros Hop Hs. assert (Hsub : forall p c, c ∈ delete_rows p (ut_codes t) -> c ∈ ut_codes t).
  { intros p c [_ Hc]%elem_of_List_filter. done. }
  destruct op; cbn [run_account_op codes_replaced] in *; try exact Hs.
  - unfold CreateUser, insert_user. repeat split_match; exact Hs.
  - unfold CreateFirstUser, insert_user. repeat split_match; exact Hs.
  - unfold CreateOIDCUser, insert_user. repeat split_match; exact Hs.
  - unfold UpdateUserScope, write_scope. repeat split_match; exact Hs.
  - unfold UpdateUserRole, UpdateUserScope, write_scope. repeat split_match; exact Hs.
  - unfold DeleteUser, erase_user. repeat split_match; try exact Hs. intros c Hc. cbn in Hc. apply Hs.
    by apply Hsub in Hc.
  - unfold LinkOIDC. repeat split_match; exact Hs.
  - unfold CreateSession. repeat split_match; exact Hs.
  - unfold EnableTOTP. destruct (_ =? 0); [exact Hs|].
    destruct (replaceRecoveryCodes _ _ _) as [[]t2] eqn:E; [|exact Hs]. cbn. intros c Hc Eu Eh.
    pose proof (replaceRecoveryCodes_other id0 hashes (set_users (update_rows (enrolling id0)
      (fun u => with_totp (TOTPSecret u) true step u) (ut_users t)) t) c) as H.
    rewrite E in H. cbn in H. bools. apply Hs; [|done..]. apply H; [done|congruence].
  - cbn. intros c (c0 & -> & Hc)%elem_of_map. destruct (unused_code id0 h0 c0); [done|by apply Hs].
  - intros c Hc Eu Eh. bools. apply Hs; [|done..]. apply replaceRecoveryCodes_other in Hc; [done|congruence].
  - cbn. intros c Hc. apply Hs. by apply Hsub in Hc.
  - unfold CreateAPIToken. repeat split_match; exact Hs.
Qed.

Lemma run_account_spent id h ops t :
  Forall (fun op => codes_replaced id op = false) ops -> code_spent id h t -> code_spent id h (run_account ops t).
Proof.
  intros Hops. revert t. induction Hops as [|op ops Hop Hops IH]; intros t Hs; [done|]. cbn.
  by apply IH, run_account_op_spent.
Qed.

Lemma consumed_code_spent id h now t : code_spent id h (snd (ConsumeRecoveryCode id h now t)).
Proof.
  cbn. intros c (c0 & -> & Hc)%elem_of_map. destruct (unused_code id h c0) eqn:E; cbn; [done|].
  intros Eu Eh Eused. unfold unused_code in E. rewrite Eu, Z.eqb_refl, !bool_decide_eq_true_2 in E by done. done.
Qed.

(** ** Properties *)

(** C36: once there is an administrator, every history of account operations, each run to
    its end, leaves at least one, whatever is demoted or deleted; and the tables stay
    sound: identifiers and addresses unique, no session or recovery code without its
    user. *)
Theorem last_admin_kept before after :
  let t := run_account before no_accounts in
  1 <= CountAdminUsers t ->
  1 <= CountAdminUsers (run_account (before ++ after) no_accounts) /\ users_wf (run_account (before ++ after) no_accounts).
Proof.
  cbv zeta. intros Hone. split; [|by apply run_account_wf, no_accounts_wf].
  unfold run_account. rewrite fold_left_app. fold (run_account before no_accounts).
  pose proof (run_account_wf before _ no_accounts_wf) as Hwf. revert Hone Hwf.
  generalize (run_account before no_accounts). induction after as [|op after IH]; intros t Hone Hwf; [done|].
  cbn. apply IH; [by apply run_account_op_admins|by apply run_account_op_wf].
Qed.

(** The check and the write of a demotion are separate statements: two administrators
    demoted at the same time both pass the check, and none is left. *)
Theorem last_admin_race :
  let t := run_account [AFirst "a@example.com"%string "h"%string RoleAdmin 0;
                        ACreate "b@example.com"%string "h"%string RoleAdmin [] 1] no_accounts in
  may_change_role 1 RoleViewer t = Ok () /\ may_change_role 2 RoleViewer t = Ok () /\
  let t1 := snd (write_scope 1 RoleViewer [] t) in
  let t2 := snd (write_scope 2 RoleViewer [] t1) in
  CountAdminUsers t = 2 /\ CountAdminUsers t2 = 0.
Proof. vm_compute. auto. Qed.

(** A second factor is spent once.  After a one-time step was consumed for a user, that
    step and every earlier one are refused, and after a recovery code was consumed, it is
    refused, through any later history that does not turn the factor off (or, for a
    recovery code, replace the codes). *)
Theorem second_factor_once before after id s h now now' :
  let t := run_account before no_accounts in
  (forall t1 s', ConsumeTOTPStep id s t = (Ok true, t1) -> ADisable id ∉ after -> s' <= s ->
     fst (ConsumeTOTPStep id s' (run_account after t1)) = Ok false) /\
  (forall t1, ConsumeRecoveryCode id h now t = (Ok true, t1) ->
     Forall (fun op => codes_replaced id op = false) after ->
     fst (ConsumeRecoveryCode id h now' (run_account after t1)) = Ok false).
Proof.
  intros t. pose proof (run_account_wf before _ no_accounts_wf) as Hwf. fold t in Hwf. split.
  - intros t1 s' Hc Hafter Hs. destruct (run_account_step_spent id s after t1 Hafter) as [_ Hspent];
      [by eapply consumed_step_spent|]. unfold ConsumeTOTPStep. cbn [fst]. rewrite affected_zero; [done|].
    intros u Hu. unfold step_ahead, user_by. destruct (Z.eqb_spec (UID u) id) as [E|]; [|done].
    destruct (Hspent u Hu E) as [_ Hle]. destruct (Z.ltb_spec (TOTPLastStep u) s'); [lia|]. by rewrite andb_false_r.
  - intros t1 Hc Hafter. assert (Hspent : code_spent id h t1).
    { replace t1 with (snd (ConsumeRecoveryCode id h now t)) by by rewrite Hc. apply consumed_code_spent. }
    apply (run_account_spent _ _ after) in Hspent; [|done]. unfold ConsumeRecoveryCode. cbn [fst].
    rewrite affected_zero; [done|]. intros c Hin. unfold unused_code.
    destruct (Z.eqb_spec (rr_user c) id); [|done]. case_bool_decide; [|done].
    rewrite bool_decide_eq_false_2; [done|]. by apply Hspent.
Qed.

Lemma absent_forever id ops t :
  id < ut_next t -> ~ has_user t id -> ~ has_user (run_account ops t) id.
Proof.
  revert t. induction ops as [|op ops IH]; intros t Hid Hno; [done|]. cbn.
  destruct (shape_ids _ _ (run_account_op_shape t op)) as [Hids Hnext]. apply IH; [lia|].
  intros Hin. destruct (Hids id Hin); [done|lia].
Qed.

Lemma UserByID_has t id u : UserByID id t = Ok u -> UID u = id /\ has_user t id.
Proof.
  unfold UserByID, find_row. destruct (find _ _) as [v|] eqn:E; [|done]. intros [= ->].
  apply find_some in E as [Hin Eid]. apply list_elem_of_In in Hin. unfold user_by in Eid. bools.
  split; [done|]. subst id. by apply elem_of_map_2.
Qed.

Lemma DeleteUser_gone id t t1 :
  users_wf t -> DeleteUser id t = (Ok (), t1) -> id < ut_next t1 /\ ~ has_user t1 id.
Proof.
  intros Hwf. unfold DeleteUser, may_delete. destruct (UserByID id t) as [u|] eqn:Eu; [|done].
  destruct (_ && _); [done|]. unfold erase_user. destruct (_ =? 0); [done|]. intros [= <-].
  apply UserByID_has in Eu as [_ Hu]. split; [by apply (uw_next t Hwf)|]. unfold has_user. cbn.
  intros (v & Ev & [Hv _]%elem_of_List_filter)%elem_of_map. unfold user_by in Hv. bools. congruence.
Qed.

(** A deleted account is out for good: once [DeleteUser] has succeeded no session
    token, however it was obtained and whatever accounts are created later, authenticates
    as that identifier, and no live session of it is left in the table. *)
Theorem deleted_user_locked_out before after id t1 token now :
  DeleteUser id (run_account before no_accounts) = (Ok (), t1) ->
  (forall u, UserBySessionToken token now (run_account after t1) = Ok u -> UID u <> id) /\
  (forall s, s ∈ ut_sessions (run_account after t1) -> sr_user s <> id).
Proof.
  intros Hdel. pose proof (run_account_wf before _ no_accounts_wf) as Hwf.
  destruct (DeleteUser_gone _ _ _ Hwf Hdel) as [Hid Hno].
  pose proof (absent_forever id after t1 Hid Hno) as Habs. split.
  - intros u. unfold UserBySessionToken. destruct (find _ _) as [s|]; [|done].
    intros [E Hu]%UserByID_has Eid. apply Habs. by rewrite <- Eid, E.
  - assert (Hwf1 : users_wf t1).
    { replace t1 with (run_account_op (run_account before no_accounts) (ADelete id)) by by cbn; rewrite Hdel.
      by apply run_account_op_wf. }
    intros s Hs Eid. apply Habs. rewrite <- Eid. by apply (uw_sessions _ (run_account_wf after t1 Hwf1)).
Qed.

(** *** Witnesses *)

Definition sample_history : list account_op :=
  [AFirst "a@example.com"%string "h"%string RoleAdmin 0; ACreate "b@example.com"%string "h"%string RoleViewer [] 1;
   ASession "tok"%string 2 0 hour "curl"%string; APending 1 "sealed"%string; AEnable 1 100 [T "c1"; T "c2"]].

Lemma last_admin_kept_witness :
  let after := [AScope 1 RoleViewer []; ADelete 1] in
  CountAdminUsers (run_account sample_history no_accounts) = 1 /\
  1 <= CountAdminUsers (run_account (sample_history ++ after) no_accounts).
Proof.
  split; [vm_compute; reflexivity|]. apply last_admin_kept. vm_compute. discriminate.
Defined.

Lemma second_factor_once_witness :
  let t := run_account sample_history no_accounts in
  let t1 := snd (ConsumeTOTPStep 1 101 t) in
  let t2 := snd (ConsumeRecoveryCode 1 "c1"%string 5 t) in
  fst (ConsumeTOTPStep 1 101 t) = Ok true /\ fst (ConsumeTOTPStep 1 101 t1) = Ok false /\
  fst (ConsumeRecoveryCode 1 "c1"%string 5 t) = Ok true /\ fst (ConsumeRecoveryCode 1 "c1"%string 6 t2) = Ok false.
Proof.
  destruct (second_factor_once sample_history [] 1 101 "c1"%string 5 6) as [H1 H2].
  split_and!; [vm_compute; reflexivity| |vm_compute; reflexivity|].
  - refine (H1 _ 101 _ _ _); [vm_compute; reflexivity|apply not_elem_of_nil|lia].
  - refine (H2 _ _ _); [vm_compute; reflexivity|constructor].
Defined.

Lemma deleted_user_locked_out_witness :
  let t1 := snd (DeleteUser 2 (run_account sample_history no_accounts)) in
  fst (DeleteUser 2 (run_account sample_history no_accounts)) = Ok () /\
  forall s, s ∈ ut_sessions (run_account [ACreate "b@example.com"%string "h"%string RoleViewer [] 2] t1) -> sr_user s <> 2.
Proof.
  split; [vm_compute; reflexivity|].
  apply (deleted_user_locked_out sample_history _ 2 _ "tok"%string 0). vm_compute. reflexivity.
Defined.
