(* ===== verification/RulesProps.v ===== *)
(** * Filter rules and routes: which rule decides *)

From S2P Require Import Prelude GoStrings Times Errors StoreTypes StoreQueue StoreDomains.
From S2P Require Import Filter Routes.
From Stdlib Require Import QArith.
Open Scope Z_scope.

(** ** Filters *)

Section filters.
Context `{RegexpLib}.

Lemma Load_compile_all rules cs : compile_all rules = Ok cs -> Load rules = cs.
Proof.
  revert cs. induction rules as [|r rules IH]; intros cs; cbn; [congruence|].
  destruct (FltEnabled r); cbn; [|apply IH]. destruct (Compile (FltPattern r)) as [re|e]; [|done].
  destruct (compile_all rules) as [cs'|e]; [|done]. intros [= <-]. by rewrite (IH cs').
Qed.

Lemma Evaluate_first_match cs m : Evaluate cs m = first_match cs m.
Proof.
  induction cs as [|c cs IH]; cbn; [done|]. destruct (match_rule c m); [|done].
  unfold verdict_of. case_bool_decide as Ha; [|done]. by rewrite Ha.
Qed.

(** The compiled set follows the rule list. *)
Lemma Load_elem rules c :
  c ∈ Load rules -> c_rule c ∈ rules /\ FltEnabled (c_rule c) = true /\ Compile (FltPattern (c_rule c)) = Ok (c_re c).
Proof.
  induction rules as [|r rules IH]; cbn; [set_solver|].
  assert (c ∈ Load rules -> c_rule c ∈ r :: rules /\ FltEnabled (c_rule c) = true /\
            Compile (FltPattern (c_rule c)) = Ok (c_re c)) as Hrest.
  { intros (? & ? & ?)%IH. split_and!; [by apply list_elem_of_further|done|done]. }
  destruct (FltEnabled r) eqn:Ee; cbn; [|done].
  destruct (Compile (FltPattern r)) as [re|e] eqn:Ec; [|done].
  intros [->|Hc]%elem_of_cons; [|auto]. cbn. split_and!; [apply list_elem_of_here|done|done].
Qed.

Lemma Evaluate_split cs m :
  (Evaluate cs m = no_verdict /\ Forall (fun c => match_rule c m = None) cs) \/
  exists before c after s, cs = before ++ c :: after /\ Forall (fun c => match_rule c m = None) before /\
    match_rule c m = Some s /\ Evaluate cs m = verdict_of c s.
Proof.
  rewrite Evaluate_first_match. induction cs as [|c cs IH]; cbn; [by left|].
  destruct (match_rule c m) as [s|] eqn:E.
  - right. by exists [], c, cs, s.
  - destruct IH as [[Hv Hall]|(b & c' & a & s & -> & Hb & Hm & Hv)]; [left; auto|].
    right. exists (c :: b), c', a, s. split_and!; auto.
Qed.

(** A message is judged by the first rule, by priority then identifier, that is
    enabled, compiles and matches it, and by no other; when there is none the verdict is
    neither a rejection nor a quarantine.  The tester of the administration API gives
    the same verdict as the intake on any rule list whose patterns all compile. *)
Theorem filters_first_rule_decides (t : filter_table) (m : envelope) :
  let rules := ListFilters t in
  let cs := Load rules in
  ((VReject (Evaluate cs m) || VQuarantine (Evaluate cs m) = false /\
      Forall (fun c => match_rule c m = None) cs) \/
   (exists before c after s, cs = before ++ c :: after /\
      Forall (fun c => match_rule c m = None) before /\ match_rule c m = Some s /\
      c_rule c ∈ flt_rows t /\ FltEnabled (c_rule c) = true /\
      Evaluate cs m = verdict_of c s)) /\
  Sorted filter_le rules /\
  (forall v, Test rules m = Ok v -> v = Evaluate cs m).
Proof.
  intros rules cs. split_and!.
  - destruct (Evaluate_split cs m) as [[-> ?]|(b & c & a & s & Ecs & ? & ? & ?)]; [by left|].
    right. exists b, c, a, s. split_and!; try done.
    all: destruct (Load_elem rules c) as (Hin & ? & _);
      [fold cs; rewrite Ecs; apply elem_of_app; right; apply list_elem_of_here|]; try done.
    unfold rules, ListFilters in Hin. by rewrite merge_sort_Permutation in Hin.
  - assert (base.Total filter_le) by (intros x y; unfold filter_le; lia).
    apply (Sorted_merge_sort filter_le).
  - unfold Test. destruct (compile_all rules) as [cs'|e] eqn:E; [|done]. intros v [= <-].
    by rewrite <- (Load_compile_all _ _ E), Evaluate_first_match.
Qed.
End filters.

(** ** Routes *)

Definition covers (dest : text) (r : Route) : bool := REnabled r && routeMatches (Destination r) dest.

Lemma best_route_spec dest best routes r :
  (forall b, best = Some b -> covers dest b = true) ->
  best_route dest best routes = Some r ->
  covers dest r = true /\ (r ∈ routes \/ best = Some r) /\
  (forall o, (o ∈ routes \/ best = Some o) -> covers dest o = true ->
     (length (Destination o) <= length (Destination r))%nat).
Proof.
  revert best. induction routes as [|x routes IH]; intros best Hb; cbn [best_route].
  - intros ->. split_and!; auto. intros o [Ho|[= ->]] ?; [set_solver|lia].
  - assert (Hstep : forall next, (forall b, next = Some b -> covers dest b = true) ->
      (next = best \/ next = Some x) ->
      (covers dest x = true -> exists n, next = Some n /\ (length (Destination x) <= length (Destination n))%nat) ->
      (forall b, best = Some b -> exists n, next = Some n /\ (length (Destination b) <= length (Destination n))%nat) ->
      best_route dest next routes = Some r ->
      covers dest r = true /\ (r ∈ x :: routes \/ best = Some r) /\
      (forall o, (o ∈ x :: routes \/ best = Some o) -> covers dest o = true ->
         (length (Destination o) <= length (Destination r))%nat)).
    { intros next Hc Hor Hx Hbest Hr. destruct (IH next Hc Hr) as (Hcr & Hin & Hmax).
      assert (Hn : forall n, next = Some n -> (length (Destination n) <= length (Destination r))%nat).
      { intros n Hn. apply Hmax; auto. }
      split_and!; [done| |].
      - destruct Hin as [?|Hin]; [left; set_solver|]. destruct Hor as [<-|Hor]; [by right|].
        left. rewrite Hor in Hin. injection Hin as ->. apply list_elem_of_here.
      - intros o [[->|Ho]%elem_of_cons|Ho] Hco; [|by apply Hmax; auto|].
        + destruct (Hx Hco) as (n & ? & ?). etransitivity; eauto.
        + destruct (Hbest o Ho) as (n & ? & ?). etransitivity; eauto. }
    unfold covers in Hstep at 3. unfold covers in Hb, Hstep.
    destruct (REnabled x) eqn:Ex, (routeMatches (Destination x) dest) eqn:Em; cbn [negb orb andb] in *;
      try (apply Hstep; [done|by left|done|by eauto]).
    destruct best as [b|].
    + destruct (Nat.ltb_spec (length (Destination b)) (length (Destination x))); apply Hstep;
        eauto with lia; try (intros ? [= <-]); eauto with lia; by rewrite Ex, Em.
    + apply Hstep; eauto; [|done]. intros ? [= <-]. by rewrite Ex, Em.
Qed.

Lemma best_route_none dest best routes :
  best_route dest best routes = None ->
  best = None /\ forall r, r ∈ routes -> REnabled r = true -> routeMatches (Destination r) dest = false.
Proof.
  revert best. induction routes as [|x routes IH]; intros best; cbn; [set_solver|].
  destruct (REnabled x) eqn:Ex; cbn; [destruct (routeMatches (Destination x) dest) eqn:Em; cbn|].
  - destruct best as [b|]; [case_match|]; intros Hn; by destruct (IH _ Hn).
  - intros [-> Hr]%IH. split; [done|]. intros r [->|?]%elem_of_cons ?; auto.
  - intros [-> Hr]%IH. split; [done|]. intros r [->|?]%elem_of_cons ?; [congruence|auto].
Qed.

(** Two patterns of one length that match the same destination are equal. *)
Lemma routeMatches_same_length p q dest :
  routeMatches p dest = true -> routeMatches q dest = true -> length p = length q -> p = q.
Proof.
  unfold routeMatches. intros Hp Hq Hl.
  assert (Hs : forall a, (if has_prefix "."%string a then has_suffix a dest else bool_decide (a = dest)) = true ->
            exists r, dest = r ++ a).
  { intros a. destruct (has_prefix "."%string a); intros Ha; [by apply has_suffix_spec in Ha|].
    bools. subst. by exists []. }
  destruct (Hs p Hp) as [rp ->], (Hs q Hq) as [rq E]. by apply app_inj_2 in E as [_ ->].
Qed.

(** The route of a destination is the enabled one with the longest pattern that covers
    it, a strictly longer pattern than any other that does, so that the choice does not
    depend on the order of the table; there is none exactly when no enabled pattern
    covers it. *)
Theorem RouteFor_longest destination t :
  NoDup (map Destination (rt_rows t)) ->
  let dest := normalizeDestination destination in
  match RouteFor destination t with
  | Ok r => r ∈ rt_rows t /\ REnabled r = true /\ routeMatches (Destination r) dest = true /\
      forall o, o ∈ rt_rows t -> REnabled o = true -> routeMatches (Destination o) dest = true ->
        o = r \/ (length (Destination o) < length (Destination r))%nat
  | Err e => e = not_found /\
      forall o, o ∈ rt_rows t -> REnabled o = true -> routeMatches (Destination o) dest = false
  end.
Proof.
  intros Hnd dest. unfold RouteFor. fold dest.
  assert (Hperm : forall r, r ∈ ListRoutes t <-> r ∈ rt_rows t).
  { intros r. unfold ListRoutes. by rewrite merge_sort_Permutation. }
  destruct (best_route dest None (ListRoutes t)) as [r|] eqn:E.
  - apply best_route_spec in E as (Hc & [Hin|[=]] & Hmax); [|done].
    unfold covers in Hc. bools. rename H0 into Hm.
    split_and!; [by apply Hperm|done|done|]. intros o Ho Hoe Hom.
    assert (length (Destination o) <= length (Destination r))%nat as Hle.
    { apply Hmax; [left; by apply Hperm|]. unfold covers. by rewrite Hoe, Hom. }
    destruct (Nat.eq_dec (length (Destination o)) (length (Destination r))) as [Heq|]; [left|right; lia].
    pose proof (routeMatches_same_length _ _ _ Hom Hm Heq) as Hd. apply Hperm in Hin.
    clear -Hnd Ho Hin Hd. induction (rt_rows t) as [|x l IH]; [set_solver|].
    cbn in Hnd. apply NoDup_cons in Hnd as [Hx Hl].
    apply elem_of_cons in Ho as [->|Ho], Hin as [->|Hin]; [done| | |auto].
    + destruct Hx. rewrite Hd. by apply elem_of_map_2.
    + destruct Hx. rewrite <- Hd. by apply elem_of_map_2.
  - apply best_route_none in E as [_ Hn]. split; [done|]. intros o Ho. apply Hn. by apply Hperm.
Qed.

Definition sample_routes : route_table :=
  let r id d := {| RID := id; Destination := d; Mode := "relay"%string; RelayHost := "smart.example.net"%string;
    RelayPort := 587; RelayTLS := "starttls"%string; RelayUsername := []; RelayPassword := [];
    REnabled := true; RCreatedAt := 0 |} in
  RouteTable [r 1 ".example.com"%string; r 2 "mail.example.com"%string; r 3 "example.com"%string] 4.

Lemma RouteFor_longest_witness :
  exists r, RouteFor "MAIL.Example.COM."%string sample_routes = Ok r /\ RID r = 2.
Proof.
  assert (NoDup (map Destination (rt_rows sample_routes))) as Hn.
  { refine (bool_decide_unpack _ _). vm_compute. exact I. }
  pose proof (RouteFor_longest "MAIL.Example.COM."%string sample_routes Hn) as H. cbv zeta in H.
  destruct (RouteFor "MAIL.Example.COM."%string sample_routes) as [r|e] eqn:E; [|vm_compute in E; discriminate].
  exists r. split; [done|]. vm_compute in E. by injection E as <-.
Defined.
