(* ===== verification/Spam.v ===== *)
(** * The spam verdict (internal/spam)

    What the intake asks rspamd, how its answer becomes a verdict, and the headers a
    delivered message carries.  The HTTP exchange is an argument: it fails, answers a
    status other than 200, or answers a body that decodes to [parsed] or does not. *)

From S2P Require Import Prelude GoStrings Times Net Errors.
From Stdlib Require Import QArith Qround.
Open Scope Z_scope.

Definition ActionNone : text := "no action"%string.
Definition ActionGreylist : text := "greylist"%string.
Definition ActionAddHeader : text := "add header"%string.
Definition ActionRewriteSubject : text := "rewrite subject"%string.
Definition ActionSoftReject : text := "soft reject"%string.
Definition ActionReject : text := "reject"%string.

Record spam_verdict := {
  sv_Action : text;
  sv_Score : Q;
  sv_Required : Q;
  sv_Symbols : list text;
  sv_Skipped : bool;
  sv_Reason : text
}.

Definition sv_Reject (v : spam_verdict) : bool := bool_decide (sv_Action v = ActionReject).
Definition sv_Defer (v : spam_verdict) : bool :=
  bool_decide (sv_Action v = ActionSoftReject) || bool_decide (sv_Action v = ActionGreylist).
Definition sv_Spammy (v : spam_verdict) : bool :=
  bool_decide (sv_Action v = ActionAddHeader) || bool_decide (sv_Action v = ActionRewriteSubject) || sv_Reject v.

(** [config.SpamConfig]. *)
Record SpamConfig := {
  sc_Enabled : bool;
  sc_URL : text;
  sc_Password : text;
  sc_MaxSizeBytes : Z;
  sc_RejectEnabled : bool;
  sc_DeferEnabled : bool
}.

Definition spam_Enabled (c : SpamConfig) : bool := sc_Enabled c && negb (bool_decide (sc_URL c = [])).

Record spam_envelope := {
  se_From : text;
  se_To : list text;
  se_HeloName : text;
  se_RemoteAddr : text;
  se_QueueID : text
}.

(** The request's endpoint and headers, in the order they are set. *)
Definition spam_endpoint (c : SpamConfig) : text := trim_suffix "/"%string (sc_URL c) ++ "/checkv2"%string.

Definition header_if (name value : text) : list (text * text) :=
  if bool_decide (value = []) then [] else [(name, value)].

Definition spam_request (c : SpamConfig) (e : spam_envelope) : list (text * text) :=
  [(T "Content-Type", T "application/octet-stream")]
  ++ header_if "From"%string (se_From e)
  ++ map (fun r => (T "Rcpt", r)) (se_To e)
  ++ match se_To e with r :: _ => [(T "Deliver-To", r)] | [] => [] end
  ++ header_if "Helo"%string (se_HeloName e)
  ++ header_if "IP"%string (hostOf (se_RemoteAddr e))
  ++ header_if "Queue-Id"%string (se_QueueID e)
  ++ header_if "Password"%string (sc_Password c).

Record parsed := {
  pa_Action : text;
  pa_Score : Q;
  pa_Required : Q;
  pa_IsSkipped : bool;
  pa_Symbols : list (text * Q)
}.

Inductive http_reply :=
| HttpError
| HttpStatus (code : Z)
| HttpBody (p : option parsed).

Definition skip (reason : text) : spam_verdict :=
  {| sv_Action := ActionNone; sv_Score := 0%Q; sv_Required := 0%Q; sv_Symbols := []; sv_Skipped := true;
     sv_Reason := reason |}.

Definition spam_Check (c : SpamConfig) (env : spam_envelope) (size : Z)
  (exchange : text -> list (text * text) -> http_reply) : spam_verdict :=
  if negb (spam_Enabled c) then skip "filtering disabled"%string
  else if (0 <? sc_MaxSizeBytes c) && (sc_MaxSizeBytes c <? size) then
    skip "message larger than the scan limit"%string
  else match exchange (spam_endpoint c) (spam_request c env) with
  | HttpError => skip "rspamd is unreachable"%string
  | HttpStatus code => skip ("rspamd answered "%string ++ dec code)
  | HttpBody None => skip "could not parse the rspamd response"%string
  | HttpBody (Some p) =>
      let action := to_lower (trim_space (pa_Action p)) in
      let action := if bool_decide (action = []) then ActionNone else action in
      if pa_IsSkipped p && bool_decide (action = ActionNone) then skip "rspamd skipped the message"%string
      else
        let symbols := map fst (List.filter (fun s => negb (Qeq_bool (snd s) 0%Q)) (pa_Symbols p)) in
        let action := if bool_decide (action = ActionReject) && negb (sc_RejectEnabled c)
                      then ActionAddHeader else action in
        {| sv_Action := action; sv_Score := pa_Score p; sv_Required := pa_Required p;
           sv_Symbols := symbols; sv_Skipped := false; sv_Reason := [] |}
  end.

(** ** [Headers] *)

(** [sanitizeHeader]. *)
Definition sanitizeHeader (s : text) : text :=
  let s := map (fun c => if (code c <? 32) || (code c =? 127) then SP else c) s in
  let s := trim_space s in
  if (200 <? length s)%nat then take 200 s else s.

(** [%.2f]: the nearest multiple of 1/100, ties to even. *)
Definition round_even (q : Q) : Z :=
  let n := Qfloor q in
  match Qcompare (q - inject_Z n) (1 # 2) with
  | Lt => n
  | Gt => n + 1
  | Eq => if Z.even n then n else n + 1
  end.

Definition fixed2 (q : Q) : text :=
  let neg := negb (Qle_bool 0 q) in
  let n := round_even ((if neg then - q else q) * 100)%Q in
  (if neg then "-"%string : text else []) ++ dec (n / 100) ++ "."%string ++ pad 2 (n mod 100).

Definition Headers (action : text) (score : option Q) : text :=
  if bool_decide (action = []) || bool_decide (action = ActionNone) then []
  else
    ("X-Spam-Checked-By: XeronMX"%string ++ CRLF)
    ++ ("X-Spam-Action: "%string ++ sanitizeHeader action ++ CRLF)
    ++ match score with Some q => "X-Spam-Score: "%string ++ fixed2 q ++ CRLF | None => [] end
    ++ (if bool_decide (action = ActionAddHeader) || bool_decide (action = ActionRewriteSubject)
           || bool_decide (action = ActionReject)
        then "X-Spam-Flag: YES"%string ++ CRLF else []).

Example fixed2_ex : map fixed2 [(15 # 2)%Q; (- (1 # 8))%Q; (3 # 8)%Q; (1001 # 1000)%Q] =
  map T ["7.50"; "-0.12"; "0.38"; "1.00"].
Proof. vm_compute. reflexivity. Qed.
