(* ===== verification/Authres.v ===== *)
(** * Sender authentication results (internal/authres)

    SPF, DKIM and ARC verdicts of a message, the header text they are stored as, and
    what counts as an authenticated sender.  The organisational domain comes from the
    public suffix list, a third-party package. *)

From S2P Require Import Prelude GoStrings Errors.

Record Signature := { SigDomain : text; SigResult : text }.

Record auth_result := {
  SPF : text;
  SPFDomain : text;
  SPFHelo : bool;
  DKIM : list Signature;
  ARC : text
}.

Definition no_auth : auth_result := {| SPF := []; SPFDomain := []; SPFHelo := false; DKIM := []; ARC := [] |}.

(** [token]: the runes kept are letters, digits and "._-"; dropping another rune is
    dropping each of its bytes. *)
Definition token_char (c : ascii) : bool :=
  ((97 <=? code c) && (code c <=? 122)) || ((65 <=? code c) && (code c <=? 90)) || is_digit c
  || bool_decide (c ∈ T ".-_").

Definition token (s : text) : text := List.filter token_char s.

Definition domainOf (addr : text) : text :=
  match last_index "@"%char addr with
  | None => []
  | Some at_ => to_lower (trim_suffix "."%string (drop (S at_) addr))
  end.

(** [Checker.SPF]: the domain a verdict is about. *)
Definition spf_result (verdict helo mailFrom : text) : auth_result :=
  let d := domainOf mailFrom in
  if bool_decide (d = []) then
    {| SPF := verdict; SPFDomain := to_lower (trim_suffix "."%string helo); SPFHelo := true; DKIM := []; ARC := [] |}
  else {| SPF := verdict; SPFDomain := d; SPFHelo := false; DKIM := []; ARC := [] |}.

(** [Result.Header]. *)
Definition with_domain (p prop d : text) : text :=
  if bool_decide (token d = []) then p else p ++ " "%string ++ prop ++ "="%string ++ token d.

Definition header_parts (r : auth_result) : list text :=
  (if bool_decide (SPF r = []) then []
   else [with_domain ("spf="%string ++ token (SPF r))
           (if SPFHelo r then "smtp.helo"%string else "smtp.mailfrom"%string) (SPFDomain r)])
  ++ match DKIM r with
     | [] => [T "dkim=none"]
     | sigs => map (fun s => with_domain ("dkim="%string ++ token (SigResult s)) "header.d"%string (SigDomain s)) sigs
     end
  ++ (if bool_decide (ARC r = []) then [] else ["arc="%string ++ token (ARC r)]).

Definition auth_header (r : auth_result) : text :=
  if bool_decide (SPF r = []) && bool_decide (DKIM r = []) && bool_decide (ARC r = []) then []
  else join "; "%string (header_parts r).

(** [strings.Cut(s, "=")]. *)
Definition cut (c : ascii) (s : text) : option (text * text) :=
  match index_byte c s with
  | None => None
  | Some i => Some (take i s, drop (S i) s)
  end.

(** [strings.Fields(s)[0]]; [None] is the index out of range. *)
Fixpoint until_space (s : text) : text :=
  match s with
  | [] => []
  | c :: r => if is_space c then [] else c :: until_space r
  end.

Definition first_field (s : text) : option text :=
  match trim_left is_space s with [] => None | s => Some (until_space s) end.

(** [ARCResult]; [None] is a panic. *)
Fixpoint arc_result (parts : list text) : option text :=
  match parts with
  | [] => Some []
  | part :: rest =>
      match cut "="%char (trim_space part) with
      | Some (method, value) =>
          if equal_fold method "arc"%string then to_lower <$> first_field (value ++ " "%string)
          else arc_result rest
      | None => arc_result rest
      end
  end.

Definition ARCResult (header : text) : option text := arc_result (split_byte ";"%char header).

(** [publicsuffix.EffectiveTLDPlusOne]. *)
Class PublicSuffix := { EffectiveTLDPlusOne : text -> result text }.

Section alignment.
Context `{PublicSuffix}.

Definition orgDomain (d : text) : text :=
  match EffectiveTLDPlusOne (to_lower (trim_suffix "."%string d)) with Ok org => org | Err _ => [] end.

Definition aligned (a b : text) : bool :=
  negb (bool_decide (orgDomain a = [])) && bool_decide (orgDomain a = orgDomain b).

Definition Authenticates (r : auth_result) (mailFrom : text) : bool :=
  let domain := domainOf mailFrom in
  if bool_decide (domain = []) then false
  else
    (bool_decide (SPF r = "pass"%string) && negb (SPFHelo r) && bool_decide (SPFDomain r = domain))
    || existsb (fun s => bool_decide (SigResult s = "pass"%string) && aligned (SigDomain s) domain) (DKIM r).
End alignment.
