(* ===== verification/World.v ===== *)
(** * The shared state of the process, its environment, and the monad of the handlers

    [state] holds what the handlers of the intake, the submission server, the delivery
    workers, the administration interface, the cluster and the webhook dispatcher share: the tables,
    the spool, the counters, the limiters, the loaded filter rules, the maintenance flag, what
    was notified and what was said to peers.  [env] is what the program does not decide: which database
    or spool calls fail, how time passes, the random identifiers, and how the machines
    it connects to answer.  A theorem about a handler quantifies over the environment.

    [M A] is a computation: it threads the world.  [wp] is its weakest precondition;
    the lemmas at the end give it for each primitive. *)

From S2P Require Import Prelude GoStrings Times Errors Backoff StoreTypes StoreQueue.
From S2P Require Import StoreDomains StoreWebhooks StoreCluster Filter Routes StoreUsers RateLimit.
From Stdlib Require Import QArith.
Open Scope Z_scope.

(** [metrics.Counters]. *)
Inductive counter :=
| MessagesReceived | MessagesRejected | MessagesDelivered | MessagesDeferred | MessagesFailed
| MessagesExpired | BytesReceived | SMTPConnections | ProbesTotal | ProbesFailed.

#[export] Instance counter_eq_dec : EqDecision counter.
Proof. solve_decision. Defined.

(** ** Readers: what reading to the end yields, errors included *)

Abbreviation reader := (list (text + error)).

Definition of_text (s : text) : reader := [inl s].

(** [io.ReadAll]: the data before the first error, the error, and what the reader still holds. *)
Fixpoint ReadAll (r : reader) : text * option error * reader :=
  match r with
  | [] => ([], None, [])
  | inl s :: r => let '(d, e, rest) := ReadAll r in (s ++ d, e, rest)
  | inr e :: r => ([], Some e, r)
  end.

(** ** Conversations with peers (the go-smtp client) *)

Inductive cmd :=
| CExtension (name : text)
| CAuth (username password : text)
| CMail (from : text)
| CRcpt (to : text)
| CData
| CWrite (bytes : text)
| CClose
| CReset
| CQuit.

#[export] Instance cmd_eq_dec : EqDecision cmd.
Proof. solve_decision. Defined.

(** A peer answers a command after a history of them; [None] is success. *)
Definition peer := list (cmd * option error) -> cmd -> option error.

Record session_log := SessionLog {
  sl_host : text;
  sl_port : Z;
  sl_tls : text;
  sl_hello : text;
  sl_public : bool;                       (* only public addresses may be dialled *)
  sl_log : list (cmd * option error)      (* oldest first *)
}.

(** ** Requests posted to HTTP endpoints *)

Record http_post := HttpPost {
  hp_url : text;
  hp_headers : list (text * text);
  hp_body : text
}.

(** A request to another node of the cluster. *)
Record peer_call := PeerCall {
  pc_method : text;
  pc_url : text;
  pc_headers : list (text * text);
  pc_body : text
}.

(** ** The spool's failures *)

Inductive blob_fault :=
| BlobFine
| BlobError (e : error)                   (* the call fails *)
| BlobBroken (r : reader).                (* the file opens, and reads like this *)

Record state := St {
  s_now : Z;
  s_domains : domain_tables;
  s_queue : queue;
  s_events : event_table;
  s_recipients : gmap Z (list text);
  s_usage : usage;
  s_filters : filter_table;
  s_routes : route_table;
  s_dkim : gmap Z DKIMKey;
  s_blobs : gmap text text;
  s_counts : counter -> Z;
  s_notes : list (text * jmap);
  s_sent : list session_log;
  s_smtp_users : smtp_user_table;
  s_limiter : Limiter;
  s_users : user_tables;
  s_logins : Limiter;
  s_hooks : hook_tables;
  s_posts : list http_post;
  s_rules : list Filter;
  s_drain : bool;
  s_nodes : list node;
  s_calls : list peer_call
}.

Record env := Env {
  e_faults : list (option error);
  e_blobs : list blob_fault;
  e_ticks : list nat;
  e_ids : list (option text);
  e_draws : list Z;
  e_dials : list (error + peer);
  e_peer : peer;
  e_ctx : list bool;
  e_posts : list (error + Z);
  e_calls : list (error + Z * text)
}.

Record world := World { st : state; wenv : env }.

(** ** Field updates *)

Definition set_s_now (v : Z) (r : state) : state :=
  St v (s_domains r) (s_queue r) (s_events r) (s_recipients r) (s_usage r) (s_filters r)
    (s_routes r) (s_dkim r) (s_blobs r) (s_counts r) (s_notes r) (s_sent r) (s_smtp_users r)
    (s_limiter r) (s_users r) (s_logins r) (s_hooks r) (s_posts r) (s_rules r) (s_drain r)
    (s_nodes r) (s_calls r).
Definition set_s_domains (v : domain_tables) (r : state) : state :=
  St (s_now r) v (s_queue r) (s_events r) (s_recipients r) (s_usage r) (s_filters r) (s_routes
    r) (s_dkim r) (s_blobs r) (s_counts r) (s_notes r) (s_sent r) (s_smtp_users r) (s_limiter r)
    (s_users r) (s_logins r) (s_hooks r) (s_posts r) (s_rules r) (s_drain r) (s_nodes r)
    (s_calls r).
Definition set_s_queue (v : queue) (r : state) : state :=
  St (s_now r) (s_domains r) v (s_events r) (s_recipients r) (s_usage r) (s_filters r) (s_routes
    r) (s_dkim r) (s_blobs r) (s_counts r) (s_notes r) (s_sent r) (s_smtp_users r) (s_limiter r)
    (s_users r) (s_logins r) (s_hooks r) (s_posts r) (s_rules r) (s_drain r) (s_nodes r)
    (s_calls r).
Definition set_s_events (v : event_table) (r : state) : state :=
  St (s_now r) (s_domains r) (s_queue r) v (s_recipients r) (s_usage r) (s_filters r) (s_routes
    r) (s_dkim r) (s_blobs r) (s_counts r) (s_notes r) (s_sent r) (s_smtp_users r) (s_limiter r)
    (s_users r) (s_logins r) (s_hooks r) (s_posts r) (s_rules r) (s_drain r) (s_nodes r)
    (s_calls r).
Definition set_s_recipients (v : gmap Z (list text)) (r : state) : state :=
  St (s_now r) (s_domains r) (s_queue r) (s_events r) v (s_usage r) (s_filters r) (s_routes r)
    (s_dkim r) (s_blobs r) (s_counts r) (s_notes r) (s_sent r) (s_smtp_users r) (s_limiter r)
    (s_users r) (s_logins r) (s_hooks r) (s_posts r) (s_rules r) (s_drain r) (s_nodes r)
    (s_calls r).
Definition set_s_usage (v : usage) (r : state) : state :=
  St (s_now r) (s_domains r) (s_queue r) (s_events r) (s_recipients r) v (s_filters r) (s_routes
    r) (s_dkim r) (s_blobs r) (s_counts r) (s_notes r) (s_sent r) (s_smtp_users r) (s_limiter r)
    (s_users r) (s_logins r) (s_hooks r) (s_posts r) (s_rules r) (s_drain r) (s_nodes r)
    (s_calls r).
Definition set_s_filters (v : filter_table) (r : state) : state :=
  St (s_now r) (s_domains r) (s_queue r) (s_events r) (s_recipients r) (s_usage r) v (s_routes
    r) (s_dkim r) (s_blobs r) (s_counts r) (s_notes r) (s_sent r) (s_smtp_users r) (s_limiter r)
    (s_users r) (s_logins r) (s_hooks r) (s_posts r) (s_rules r) (s_drain r) (s_nodes r)
    (s_calls r).
Definition set_s_routes (v : route_table) (r : state) : state :=
  St (s_now r) (s_domains r) (s_queue r) (s_events r) (s_recipients r) (s_usage r) (s_filters r)
    v (s_dkim r) (s_blobs r) (s_counts r) (s_notes r) (s_sent r) (s_smtp_users r) (s_limiter r)
    (s_users r) (s_logins r) (s_hooks r) (s_posts r) (s_rules r) (s_drain r) (s_nodes r)
    (s_calls r).
Definition set_s_dkim (v : gmap Z DKIMKey) (r : state) : state :=
  St (s_now r) (s_domains r) (s_queue r) (s_events r) (s_recipients r) (s_usage r) (s_filters r)
    (s_routes r) v (s_blobs r) (s_counts r) (s_notes r) (s_sent r) (s_smtp_users r) (s_limiter
    r) (s_users r) (s_logins r) (s_hooks r) (s_posts r) (s_rules r) (s_drain r) (s_nodes r)
    (s_calls r).
Definition set_s_blobs (v : gmap text text) (r : state) : state :=
  St (s_now r) (s_domains r) (s_queue r) (s_events r) (s_recipients r) (s_usage r) (s_filters r)
    (s_routes r) (s_dkim r) v (s_counts r) (s_notes r) (s_sent r) (s_smtp_users r) (s_limiter r)
    (s_users r) (s_logins r) (s_hooks r) (s_posts r) (s_rules r) (s_drain r) (s_nodes r)
    (s_calls r).
Definition set_s_counts (v : counter -> Z) (r : state) : state :=
  St (s_now r) (s_domains r) (s_queue r) (s_events r) (s_recipients r) (s_usage r) (s_filters r)
    (s_routes r) (s_dkim r) (s_blobs r) v (s_notes r) (s_sent r) (s_smtp_users r) (s_limiter r)
    (s_users r) (s_logins r) (s_hooks r) (s_posts r) (s_rules r) (s_drain r) (s_nodes r)
    (s_calls r).
Definition set_s_notes (v : list (text * jmap)) (r : state) : state :=
  St (s_now r) (s_domains r) (s_queue r) (s_events r) (s_recipients r) (s_usage r) (s_filters r)
    (s_routes r) (s_dkim r) (s_blobs r) (s_counts r) v (s_sent r) (s_smtp_users r) (s_limiter r)
    (s_users r) (s_logins r) (s_hooks r) (s_posts r) (s_rules r) (s_drain r) (s_nodes r)
    (s_calls r).
Definition set_s_sent (v : list session_log) (r : state) : state :=
  St (s_now r) (s_domains r) (s_queue r) (s_events r) (s_recipients r) (s_usage r) (s_filters r)
    (s_routes r) (s_dkim r) (s_blobs r) (s_counts r) (s_notes r) v (s_smtp_users r) (s_limiter
    r) (s_users r) (s_logins r) (s_hooks r) (s_posts r) (s_rules r) (s_drain r) (s_nodes r)
    (s_calls r).
Definition set_s_smtp_users (v : smtp_user_table) (r : state) : state :=
  St (s_now r) (s_domains r) (s_queue r) (s_events r) (s_recipients r) (s_usage r) (s_filters r)
    (s_routes r) (s_dkim r) (s_blobs r) (s_counts r) (s_notes r) (s_sent r) v (s_limiter r)
    (s_users r) (s_logins r) (s_hooks r) (s_posts r) (s_rules r) (s_drain r) (s_nodes r)
    (s_calls r).
Definition set_s_limiter (v : Limiter) (r : state) : state :=
  St (s_now r) (s_domains r) (s_queue r) (s_events r) (s_recipients r) (s_usage r) (s_filters r)
    (s_routes r) (s_dkim r) (s_blobs r) (s_counts r) (s_notes r) (s_sent r) (s_smtp_users r) v
    (s_users r) (s_logins r) (s_hooks r) (s_posts r) (s_rules r) (s_drain r) (s_nodes r)
    (s_calls r).
Definition set_s_users (v : user_tables) (r : state) : state :=
  St (s_now r) (s_domains r) (s_queue r) (s_events r) (s_recipients r) (s_usage r) (s_filters r)
    (s_routes r) (s_dkim r) (s_blobs r) (s_counts r) (s_notes r) (s_sent r) (s_smtp_users r)
    (s_limiter r) v (s_logins r) (s_hooks r) (s_posts r) (s_rules r) (s_drain r) (s_nodes r)
    (s_calls r).
Definition set_s_logins (v : Limiter) (r : state) : state :=
  St (s_now r) (s_domains r) (s_queue r) (s_events r) (s_recipients r) (s_usage r) (s_filters r)
    (s_routes r) (s_dkim r) (s_blobs r) (s_counts r) (s_notes r) (s_sent r) (s_smtp_users r)
    (s_limiter r) (s_users r) v (s_hooks r) (s_posts r) (s_rules r) (s_drain r) (s_nodes r)
    (s_calls r).
Definition set_s_hooks (v : hook_tables) (r : state) : state :=
  St (s_now r) (s_domains r) (s_queue r) (s_events r) (s_recipients r) (s_usage r) (s_filters r)
    (s_routes r) (s_dkim r) (s_blobs r) (s_counts r) (s_notes r) (s_sent r) (s_smtp_users r)
    (s_limiter r) (s_users r) (s_logins r) v (s_posts r) (s_rules r) (s_drain r) (s_nodes r)
    (s_calls r).
Definition set_s_posts (v : list http_post) (r : state) : state :=
  St (s_now r) (s_domains r) (s_queue r) (s_events r) (s_recipients r) (s_usage r) (s_filters r)
    (s_routes r) (s_dkim r) (s_blobs r) (s_counts r) (s_notes r) (s_sent r) (s_smtp_users r)
    (s_limiter r) (s_users r) (s_logins r) (s_hooks r) v (s_rules r) (s_drain r) (s_nodes r)
    (s_calls r).
Definition set_s_rules (v : list Filter) (r : state) : state :=
  St (s_now r) (s_domains r) (s_queue r) (s_events r) (s_recipients r) (s_usage r) (s_filters r)
    (s_routes r) (s_dkim r) (s_blobs r) (s_counts r) (s_notes r) (s_sent r) (s_smtp_users r)
    (s_limiter r) (s_users r) (s_logins r) (s_hooks r) (s_posts r) v (s_drain r) (s_nodes r)
    (s_calls r).
Definition set_s_drain (v : bool) (r : state) : state :=
  St (s_now r) (s_domains r) (s_queue r) (s_events r) (s_recipients r) (s_usage r) (s_filters r)
    (s_routes r) (s_dkim r) (s_blobs r) (s_counts r) (s_notes r) (s_sent r) (s_smtp_users r)
    (s_limiter r) (s_users r) (s_logins r) (s_hooks r) (s_posts r) (s_rules r) v (s_nodes r)
    (s_calls r).
Definition set_s_nodes (v : list node) (r : state) : state :=
  St (s_now r) (s_domains r) (s_queue r) (s_events r) (s_recipients r) (s_usage r) (s_filters r)
    (s_routes r) (s_dkim r) (s_blobs r) (s_counts r) (s_notes r) (s_sent r) (s_smtp_users r)
    (s_limiter r) (s_users r) (s_logins r) (s_hooks r) (s_posts r) (s_rules r) (s_drain r) v
    (s_calls r).
Definition set_s_calls (v : list peer_call) (r : state) : state :=
  St (s_now r) (s_domains r) (s_queue r) (s_events r) (s_recipients r) (s_usage r) (s_filters r)
    (s_routes r) (s_dkim r) (s_blobs r) (s_counts r) (s_notes r) (s_sent r) (s_smtp_users r)
    (s_limiter r) (s_users r) (s_logins r) (s_hooks r) (s_posts r) (s_rules r) (s_drain r)
    (s_nodes r) v.

Definition set_e_faults (v : list (option error)) (r : env) : env :=
  Env v (e_blobs r) (e_ticks r) (e_ids r) (e_draws r) (e_dials r) (e_peer r) (e_ctx r) (e_posts
    r) (e_calls r).
Definition set_e_blobs (v : list blob_fault) (r : env) : env :=
  Env (e_faults r) v (e_ticks r) (e_ids r) (e_draws r) (e_dials r) (e_peer r) (e_ctx r) (e_posts
    r) (e_calls r).
Definition set_e_ticks (v : list nat) (r : env) : env :=
  Env (e_faults r) (e_blobs r) v (e_ids r) (e_draws r) (e_dials r) (e_peer r) (e_ctx r) (e_posts
    r) (e_calls r).
Definition set_e_ids (v : list (option text)) (r : env) : env :=
  Env (e_faults r) (e_blobs r) (e_ticks r) v (e_draws r) (e_dials r) (e_peer r) (e_ctx r)
    (e_posts r) (e_calls r).
Definition set_e_draws (v : list Z) (r : env) : env :=
  Env (e_faults r) (e_blobs r) (e_ticks r) (e_ids r) v (e_dials r) (e_peer r) (e_ctx r) (e_posts
    r) (e_calls r).
Definition set_e_dials (v : list (error + peer)) (r : env) : env :=
  Env (e_faults r) (e_blobs r) (e_ticks r) (e_ids r) (e_draws r) v (e_peer r) (e_ctx r) (e_posts
    r) (e_calls r).
Definition set_e_peer (v : peer) (r : env) : env :=
  Env (e_faults r) (e_blobs r) (e_ticks r) (e_ids r) (e_draws r) (e_dials r) v (e_ctx r)
    (e_posts r) (e_calls r).
Definition set_e_ctx (v : list bool) (r : env) : env :=
  Env (e_faults r) (e_blobs r) (e_ticks r) (e_ids r) (e_draws r) (e_dials r) (e_peer r) v
    (e_posts r) (e_calls r).
Definition set_e_posts (v : list (error + Z)) (r : env) : env :=
  Env (e_faults r) (e_blobs r) (e_ticks r) (e_ids r) (e_draws r) (e_dials r) (e_peer r) (e_ctx
    r) v (e_calls r).
Definition set_e_calls (v : list (error + Z * text)) (r : env) : env :=
  Env (e_faults r) (e_blobs r) (e_ticks r) (e_ids r) (e_draws r) (e_dials r) (e_peer r) (e_ctx
    r) (e_posts r) v.

(** Empty tables, an empty spool, and limiters as their servers make them. *)
Definition blank : state :=
  St 0 (DomainTables [] ∅ 1) [] (EventTable [] 1) ∅ ∅ (FilterTable [] 1) (RouteTable [] 1) ∅ ∅ (fun _ => 0) [] []
    (SMTPUsers [] 1) (New 8 (15 * minute)) (Users [] 1 [] [] [] 1) (New 10 (15 * minute)) (Hooks [] 1 [] 1 ∅) [] [] false [] [].

(** Nothing fails, no time passes, nobody is there to connect to. *)
Definition quiet : env := Env [] [] [] [] [] [] (fun _ _ => None) [] [] [].

(** ** The monad *)

Definition M (A : Type) : Type := world -> A * world.

Definition ret {A} (a : A) : M A := fun w => (a, w).
Definition bind {A B} (m : M A) (k : A -> M B) : M B := fun w => let '(a, w') := m w in k a w'.

Declare Scope monad_scope.
Delimit Scope monad_scope with monad.
Notation "'let*' x := m 'in' k" := (bind m (fun x => k))
  (at level 10, x pattern at level 0, m at level 100, k at level 200,
   format "'[v' 'let*'  x  :=  m  'in' '/' k ']'") : monad_scope.
Notation "m1 ;;; m2" := (bind m1 (fun _ => m2)) (at level 199, right associativity) : monad_scope.
Open Scope monad_scope.

Definition get : M state := fun w => (st w, w).
Definition modify (f : state -> state) : M unit := fun w => (tt, World (f (st w)) (wenv w)).

Lemma bind_ext {A B} (m : M A) (k1 k2 : A -> M B) w :
  (forall a w', k1 a w' = k2 a w') -> bind m k1 w = bind m k2 w.
Proof. intros H. unfold bind. destruct (m w). apply H. Qed.

(** ** Primitives *)

(** The next failure of a database statement, if it fails. *)
Definition next_fault : M (option error) := fun w =>
  match e_faults (wenv w) with
  | [] => (None, w)
  | f :: fs => (f, World (st w) (set_e_faults fs (wenv w)))
  end.

(** A statement that can fail: a failed one changes nothing. *)
Definition statement {A} (f : state -> result A * state) : M (result A) :=
  let* fault := next_fault in
  match fault with
  | Some e => ret (Err e)
  | None => fun w => let '(r, s) := f (st w) in (r, World s (wenv w))
  end.

Definition on_queue {A} (f : queue -> result A * queue) : M (result A) :=
  statement (fun s => let '(r, q) := f (s_queue s) in (r, set_s_queue q s)).

(** A query. *)
Definition query {A} (f : state -> result A) : M (result A) := statement (fun s => (f s, s)).

(** [time.Now()]: time never runs backwards. *)
Definition now_ : M Z := fun w =>
  let '(d, ts) := match e_ticks (wenv w) with [] => (O, []) | d :: ts => (d, ts) end in
  let t := s_now (st w) + Z.of_nat d in
  (t, World (set_s_now t (st w)) (set_e_ticks ts (wenv w))).

(** [mailutil.NewID] (and the random tokens of a report). *)
Definition new_id : M (option text) := fun w =>
  match e_ids (wenv w) with
  | [] => (None, w)
  | i :: rest => (i, World (st w) (set_e_ids rest (wenv w)))
  end.

(** The 53 bits behind [rand.Float64]. *)
Definition draw : M Z := fun w =>
  match e_draws (wenv w) with
  | [] => (0, w)
  | d :: ds => (d mod random_bits, World (st w) (set_e_draws ds (wenv w)))
  end.

(** [rand.Int63n(n)]. *)
Definition draw_below (n : Z) : M Z := fun w =>
  match e_draws (wenv w) with
  | [] => (0, w)
  | d :: ds => (d mod n, World (st w) (set_e_draws ds (wenv w)))
  end.

(** [ctx.Err() != nil]. *)
Definition ctx_done : M bool := fun w =>
  match e_ctx (wenv w) with
  | [] => (false, w)
  | b :: bs => (b, World (st w) (set_e_ctx bs (wenv w)))
  end.

Definition count (c : counter) (n : Z) : M unit :=
  modify (fun s => set_s_counts (fun d => if bool_decide (c = d) then s_counts s d + n else s_counts s d) s).

(** [Notifier.Notify]. *)
Definition Notify (event : text) (payload : jmap) : M unit :=
  modify (fun s => set_s_notes (s_notes s ++ [(event, payload)]) s).

(** [DB.RecordEvent]; its callers only log a failure. *)
Definition record_event (e : event) : M unit :=
  let* t := now_ in
  let* _ := statement (fun s => (Ok tt, set_s_events (RecordEvent e t (s_events s)) s)) in
  ret tt.

(** *** The spool (internal/blob, [Put], [Get], [Delete]) *)

(** [pathFor]: which identifiers name a file of the spool. *)
Definition valid_blob_id (id : text) : bool := (2 <=? length id)%nat && negb (bool_decide ("/"%char ∈ id)).

Definition invalid_id : error := EText "blob: invalid id"%string.

Definition next_blob_fault : M blob_fault := fun w =>
  match e_blobs (wenv w) with
  | [] => (BlobFine, w)
  | f :: fs => (f, World (st w) (set_e_blobs fs (wenv w)))
  end.

Definition blob_Get (id : text) : M (result reader) :=
  if negb (valid_blob_id id) then ret (Err invalid_id)
  else
    let* fault := next_blob_fault in
    let* s := get in
    ret match s_blobs s !! id, fault with
        | None, _ => Err (EText "no such file or directory"%string)
        | _, BlobError e => Err e
        | _, BlobBroken r => Ok r
        | Some body, BlobFine => Ok (of_text body)
        end.

Definition exceeds (limit : Z) : error :=
  ESentinel ErrBlobExceeds ("blob: source exceeds "%string ++ dec limit ++ " bytes"%string).

(** [64<<10], the plaintext bytes of a chunk. *)
Definition chunkSize : Z := 65536.

(** [readErr == io.EOF || readErr == io.ErrUnexpectedEOF]: what [Put] takes for the end of
    the source, whether [io.ReadFull] or the source itself says so. *)
Definition ends_source (e : option error) : bool :=
  match e with
  | None => true
  | Some (ESentinel ErrUnexpectedEOF _) => true
  | Some _ => false
  end.

(** [Put]: a failed one leaves no file behind.  The result is [written].  The limit is
    checked chunk by chunk, so before an error only on the full chunks. *)
Definition blob_Put (id : text) (src : reader) (maxBytes : Z) : M (result Z) :=
  if negb (valid_blob_id id) then ret (Err invalid_id)
  else
    let* fault := next_blob_fault in
    let* s := get in
    match s_blobs s !! id, fault with
    | Some _, _ => ret (Err (EText "blob: id already exists"%string))
    | None, BlobError e => ret (Err e)
    | None, _ =>
        let '(data, e, _) := ReadAll src in
        let n := Z.of_nat (length data) in
        let checked := if ends_source e then n else n / chunkSize * chunkSize in
        if (0 <? maxBytes) && (maxBytes <? checked) then ret (Err (exceeds maxBytes))
        else if ends_source e then modify (fun s => set_s_blobs (<[id := data]> (s_blobs s)) s) ;;; ret (Ok n)
        else ret (Err (EWrap "blob: read source"%string (default (EText []) e)))
    end.

Definition blob_Delete (id : text) : M (result unit) :=
  if negb (valid_blob_id id) then ret (Err invalid_id)
  else
    let* fault := next_blob_fault in
    match fault with
    | BlobError e => ret (Err (EWrap "blob: delete"%string e))
    | _ => modify (fun s => set_s_blobs (delete id (s_blobs s)) s) ;;; ret (Ok tt)
    end.

(** *** Peers *)

(** A connection attempt: it fails, or opens a session at the head of [s_sent]. *)
Definition dial (host : text) (port : Z) (tls hello : text) (public : bool) : M (result unit) := fun w =>
  match e_dials (wenv w) with
  | [] => (Err (EText "connection refused"%string), w)
  | inl e :: ds => (Err e, World (st w) (set_e_dials ds (wenv w)))
  | inr p :: ds =>
      (Ok tt, World (set_s_sent (SessionLog host port tls hello public [] :: s_sent (st w)) (st w))
                (set_e_peer p (set_e_dials ds (wenv w))))
  end.

Definition log_reply (c : cmd) (r : option error) (s : session_log) : session_log :=
  SessionLog (sl_host s) (sl_port s) (sl_tls s) (sl_hello s) (sl_public s) (sl_log s ++ [(c, r)]).

(** One command of the open session. *)
Definition command (c : cmd) : M (option error) := fun w =>
  match s_sent (st w) with
  | [] => (Some (EText "not connected"%string), w)
  | s :: rest =>
      let r := e_peer (wenv w) (sl_log s) c in
      (r, World (set_s_sent (log_reply c r s :: rest) (st w))
            (wenv w))
  end.

(** A POST: the status of the answer, or why there is none.  The body of the answer is
    thrown away by the callers. *)
Definition post (p : http_post) : M (error + Z) := fun w =>
  let s := set_s_posts (s_posts (st w) ++ [p]) (st w) in
  match e_posts (wenv w) with
  | [] => (inl (EText "connection refused"%string), World s (wenv w))
  | r :: rs => (r, World s (set_e_posts rs (wenv w)))
  end.

(** A request to another node: the status of its answer and its body, or why there is none. *)
Definition call_peer (p : peer_call) : M (error + Z * text) := fun w =>
  let s := set_s_calls (s_calls (st w) ++ [p]) (st w) in
  match e_calls (wenv w) with
  | [] => (inl (EText "connection refused"%string), World s (wenv w))
  | r :: rs => (r, World s (set_e_calls rs (wenv w)))
  end.

Lemma ReadAll_of_text s data e rem : ReadAll (of_text s) = (data, e, rem) -> data = s /\ e = None.
Proof. cbn. rewrite app_nil_r. naive_solver. Qed.

(** What the spool may be left with by a refusal: nothing new, or one body that could not be removed. *)
Definition at_most_one_left (b b' : gmap text text) : Prop :=
  b' = b \/ exists id body, b !! id = None /\ b' = <[id := body]> b.

(** What [Put] takes for the end: the end, or what a connection that broke off is reported as. *)
Lemma ends_source_true e : ends_source e = true -> e = None \/ exists msg, e = Some (ESentinel ErrUnexpectedEOF msg).
Proof. destruct e as [[|b m|k m|m|p e|e1 e2]|]; cbn; try done; [destruct k; try done; eauto|auto]. Qed.

(** ** Weakest preconditions

    A [mode] restricts the environment: without faults no statement fails by itself, without
    spool faults no call of the spool does, without deadlines no context ends, every identifier
    drawn satisfies [id_ok], and what a damaged file reads as satisfies [broken_ok]. *)

Record mode := Assume {
  no_faults : bool;
  no_blob_faults : bool;
  no_deadline : bool;
  id_ok : text -> Prop;
  broken_ok : reader -> Prop
}.

(** Nothing is assumed. *)
Definition any : mode := Assume false false false (fun _ => True) (fun _ => True).

Definition allows (md : mode) (e : env) : Prop :=
  (no_faults md = true -> e_faults e = []) /\ (no_blob_faults md = true -> e_blobs e = []) /\
  (no_deadline md = true -> e_ctx e = []) /\
  Forall (fun i => match i with Some i => id_ok md i | None => True end) (e_ids e) /\
  Forall (fun f => match f with BlobBroken r => broken_ok md r | _ => True end) (e_blobs e).

(** What is left to assume when a mode asks nothing of the identifiers or of damaged files. *)
Lemma all_ids_ok (P : text -> Prop) l : (forall i, P i) -> Forall (fun i => match i with Some i => P i | None => True end) l.
Proof. intros HP. apply Forall_forall. intros [i|] _; [apply HP|done]. Qed.
Lemma all_broken_ok (P : reader -> Prop) l :
  (forall r, P r) -> Forall (fun f => match f with BlobBroken r => P r | _ => True end) l.
Proof. intros HP. apply Forall_forall. intros [|e|r] _; [done|done|apply HP]. Qed.

Lemma allows_any e : allows any e.
Proof. split_and!; [done..|by apply all_ids_ok|by apply all_broken_ok]. Qed.

Definition wp {A} (md : mode) (m : M A) (Q : A -> state -> Prop) (s : state) : Prop :=
  forall e, allows md e -> let '(a, w') := m (World s e) in allows md (wenv w') /\ Q a (st w').

Section wp.
Context (md : mode).

Lemma wp_ret {A} (a : A) Q s : Q a s -> wp md (ret a) Q s.
Proof. intros H e He. done. Qed.

Lemma wp_bind {A B} (m : M A) (k : A -> M B) Q s :
  wp md m (fun a s' => wp md (k a) Q s') s -> wp md (bind m k) Q s.
Proof.
  intros H e He. unfold bind. specialize (H e He). destruct (m (World s e)) as [a [s' e']].
  destruct H as [He' H]. by apply H.
Qed.

Lemma wp_mono {A} (m : M A) (P Q : A -> state -> Prop) s :
  wp md m P s -> (forall a s', P a s' -> Q a s') -> wp md m Q s.
Proof. intros H HPQ e He. specialize (H e He). destruct (m (World s e)). destruct H. auto. Qed.

Lemma wp_conj {A} (m : M A) (P Q : A -> state -> Prop) s :
  wp md m P s -> wp md m Q s -> wp md m (fun a s' => P a s' /\ Q a s') s.
Proof.
  intros H1 H2 e He. specialize (H1 e He). specialize (H2 e He). destruct (m (World s e)). tauto.
Qed.

Lemma wp_get Q s : Q s s -> wp md get Q s.
Proof. intros H e He. done. Qed.

Lemma wp_modify f Q s : Q tt (f s) -> wp md (modify f) Q s.
Proof. intros H e He. done. Qed.

Lemma wp_next_fault Q s : (forall f, (no_faults md = true -> f = None) -> Q f s) -> wp md next_fault Q s.
Proof.
  intros H e He. unfold next_fault. cbn. destruct (e_faults e) eqn:E; cbn.
  - split; [done|by apply H].
  - destruct He as (Hf & Hr). split; [split; [|done]|apply H]; intros Hn; specialize (Hf Hn); congruence.
Qed.

Lemma wp_statement {A} (f : state -> result A * state) Q s :
  (forall e, no_faults md = false -> Q (Err e) s) -> (let '(r, s') := f s in Q r s') ->
  wp md (statement f) Q s.
Proof.
  intros He Hf. apply wp_bind, wp_next_fault. intros [e|] Hn.
  - apply wp_ret, He. destruct (no_faults md); [|done]. by specialize (Hn eq_refl).
  - intros env Henv. cbn. destruct (f s) as [r s']. done.
Qed.

Lemma wp_on_queue {A} (f : queue -> result A * queue) Q s :
  (forall e, no_faults md = false -> Q (Err e) s) ->
  (let '(r, q) := f (s_queue s) in Q r (set_s_queue q s)) ->
  wp md (on_queue f) Q s.
Proof. intros He Hf. apply wp_statement; [done|]. destruct (f (s_queue s)). done. Qed.

Lemma wp_query {A} (f : state -> result A) Q s :
  (forall e, no_faults md = false -> Q (Err e) s) -> Q (f s) s -> wp md (query f) Q s.
Proof. intros He Hf. by apply wp_statement. Qed.

Lemma wp_now Q s : (forall t, s_now s <= t -> Q t (set_s_now t s)) -> wp md now_ Q s.
Proof.
  intros H e He. unfold now_. cbn. destruct (e_ticks e) as [|d ts]; cbn; (split; [done|]); apply H; lia.
Qed.

Lemma wp_new_id Q s :
  (forall i, (forall j, i = Some j -> id_ok md j) -> Q i s) -> wp md new_id Q s.
Proof.
  intros H e (Hf & Hb & Hd & Hi & Hr). unfold new_id. cbn. destruct (e_ids e) as [|i rest] eqn:E; cbn.
  - split; [unfold allows; by rewrite E|by apply H].
  - inversion Hi; subst. split; [done|]. apply H. by intros j ->.
Qed.

Lemma wp_draw Q s : (forall k, 0 <= k < random_bits -> Q k s) -> wp md draw Q s.
Proof.
  intros H e He. unfold draw. cbn. destruct (e_draws e) as [|d ds]; (split; [done|]); apply H; [done|].
  by apply Z.mod_pos_bound.
Qed.

Lemma wp_draw_below n Q s : 0 < n -> (forall k, 0 <= k < n -> Q k s) -> wp md (draw_below n) Q s.
Proof.
  intros Hn H e He. unfold draw_below. cbn. destruct (e_draws e) as [|d ds]; (split; [done|]); apply H; [lia|].
  by apply Z.mod_pos_bound.
Qed.

Lemma wp_post p Q s : (forall r, Q r (set_s_posts (s_posts s ++ [p]) s)) -> wp md (post p) Q s.
Proof. intros H e He. unfold post. cbn. destruct (e_posts e); (split; [done|]); apply H. Qed.

Lemma wp_call_peer p Q s :
  (forall r, Q r (set_s_calls (s_calls s ++ [p]) s)) -> wp md (call_peer p) Q s.
Proof. intros H e He. unfold call_peer. cbn. destruct (e_calls e); (split; [done|]); apply H. Qed.

Lemma wp_ctx_done Q s : (forall b, (no_deadline md = true -> b = false) -> Q b s) -> wp md ctx_done Q s.
Proof.
  intros H e (Hf & Hb & Hd & Hi & Hr). unfold ctx_done. cbn. destruct (e_ctx e) eqn:E; cbn.
  - split; [unfold allows; by rewrite E|by apply H].
  - split; [split_and!; [done|done| |done|done]|apply H]; intros Hn; specialize (Hd Hn); congruence.
Qed.

Lemma wp_next_blob_fault Q s :
  (forall f, (no_blob_faults md = true -> f = BlobFine) -> (forall r, f = BlobBroken r -> broken_ok md r) -> Q f s) ->
  wp md next_blob_fault Q s.
Proof.
  intros H e He. unfold next_blob_fault. cbn. destruct (e_blobs e) eqn:E; cbn.
  - split; [done|by apply H].
  - destruct He as (Hf & Hb & Hd & Hi & Hr). rewrite E in Hr. inversion Hr; subst.
    split; [split_and!; [done| |done|done|done]|apply H]; intros; [|by specialize (Hb ltac:(done)); congruence|by subst].
    by specialize (Hb ltac:(done)); congruence.
Qed.

(** A message of the spool opens, unless a fault says otherwise. *)
Lemma wp_blob_Get id Q s :
  (forall e, (no_blob_faults md = false \/ s_blobs s !! id = None \/ valid_blob_id id = false) -> Q (Err e) s) ->
  (forall body r, s_blobs s !! id = Some body ->
     r = of_text body \/ (no_blob_faults md = false /\ broken_ok md r) -> Q (Ok r) s) ->
  wp md (blob_Get id) Q s.
Proof.
  intros He Hr. unfold blob_Get. destruct (valid_blob_id id) eqn:Ev; cbn; [|by apply wp_ret, He; auto].
  apply wp_bind, wp_next_blob_fault. intros f Hf Hbr. apply wp_bind, wp_get, wp_ret.
  destruct (s_blobs s !! id) as [b|] eqn:E; [|auto].
  destruct f; [eapply Hr; auto|apply He|eapply Hr; [done|right; split; [|auto]]];
    destruct (no_blob_faults md); auto; by discriminate Hf.
Qed.

(** A message is spooled under a fresh identifier, within the limit, or not at all. *)
Lemma wp_blob_Put id src limit Q s :
  (forall e, Q (Err e) s) ->
  (forall data e rest, s_blobs s !! id = None -> ReadAll src = (data, e, rest) -> ends_source e = true ->
     valid_blob_id id = true -> (0 < limit -> Z.of_nat (length data) <= limit) ->
     Q (Ok (Z.of_nat (length data))) (set_s_blobs (<[id := data]> (s_blobs s)) s)) ->
  wp md (blob_Put id src limit) Q s.
Proof.
  intros He Hok. unfold blob_Put. destruct (valid_blob_id id) eqn:Ev; cbn [negb]; [|by apply wp_ret].
  apply wp_bind, wp_next_blob_fault. intros f _ _. apply wp_bind, wp_get.
  destruct (s_blobs s !! id) as [b|] eqn:Eb; [by apply wp_ret|].
  destruct (ReadAll src) as [[data e] rest] eqn:Er. cbv zeta.
  destruct f as [|e'|r]; [|by apply wp_ret|];
    (destruct (_ && _) eqn:El; [by apply wp_ret|]; destruct (ends_source e) eqn:Ee; [|by apply wp_ret];
     apply wp_bind, wp_modify, wp_ret; eapply Hok; try done;
     intros Hl; apply andb_false_iff in El as [El|El]; bools; lia).
Qed.

Lemma wp_blob_Delete id Q s :
  (forall e, (no_blob_faults md = false \/ valid_blob_id id = false) -> Q (Err e) s) ->
  (valid_blob_id id = true -> Q (Ok tt) (set_s_blobs (delete id (s_blobs s)) s)) ->
  wp md (blob_Delete id) Q s.
Proof.
  intros He Hd. unfold blob_Delete. destruct (valid_blob_id id) eqn:Ev; cbn; [|by apply wp_ret, He; auto].
  apply wp_bind, wp_next_blob_fault. intros [|e|r] Hf _.
  - apply wp_bind, wp_modify, wp_ret; auto.
  - apply wp_ret, He. destruct (no_blob_faults md); [by discriminate Hf|auto].
  - apply wp_bind, wp_modify, wp_ret; auto.
Qed.

Lemma wp_count c n Q s :
  (forall k, Q tt (set_s_counts k s)) -> wp md (count c n) Q s.
Proof. intros H. apply wp_modify, H. Qed.

Lemma wp_Notify t p Q s : Q tt (set_s_notes (s_notes s ++ [(t, p)]) s) -> wp md (Notify t p) Q s.
Proof. intros H. by apply wp_modify. Qed.

Lemma wp_record_event ev Q s :
  (forall t, s_now s <= t -> Q tt (set_s_now t s) /\
     Q tt (set_s_events (RecordEvent ev t (s_events s)) (set_s_now t s))) ->
  wp md (record_event ev) Q s.
Proof.
  intros H. apply wp_bind, wp_now. intros t Ht. destruct (H t Ht).
  apply wp_bind, wp_statement; [intros e _|]; by apply wp_ret.
Qed.

Lemma wp_dial host port tls hello public Q s :
  (forall e, Q (Err e) s) -> Q (Ok tt) (set_s_sent (SessionLog host port tls hello public [] :: s_sent s) s) ->
  wp md (dial host port tls hello public) Q s.
Proof. intros He Hok e Ha. unfold dial. cbn. destruct (e_dials e) as [|[x|p] ds]; cbn; auto. Qed.

Lemma wp_command c ses rest Q s :
  s_sent s = ses :: rest ->
  (forall r, Q r (set_s_sent (log_reply c r ses :: rest) s)) -> wp md (command c) Q s.
Proof. intros Es HQ e Ha. unfold command. cbn. rewrite Es. auto. Qed.
End wp.

(** From a weakest precondition to one run. *)
Lemma wp_run {A} md (m : M A) Q s e :
  allows md e -> wp md m Q s -> let '(a, w') := m (World s e) in Q a (st w').
Proof. intros He H. specialize (H e He). destruct (m (World s e)). apply H. Qed.

(** ** Frames: [keeps f m] when running [m] leaves the part [f] of the state alone *)

Definition keeps {X} (f : state -> X) {A} (m : M A) : Prop := forall md s, wp md m (fun _ s' => f s' = f s) s.

Section keeps.
Context {X : Type} (f : state -> X).

Lemma keeps_bind {A B} (m : M A) (k : A -> M B) :
  keeps f m -> (forall a, keeps f (k a)) -> keeps f (bind m k).
Proof.
  intros Hm Hk md s. apply wp_bind. eapply wp_mono; [apply Hm|]. cbn. intros a s' E.
  eapply wp_mono; [apply Hk|]. cbn. congruence.
Qed.

Lemma keeps_ret {A} (a : A) : keeps f (ret a).
Proof. intros md s. by apply wp_ret. Qed.

Lemma wp_keeps md {A} (m : M A) P Q s :
  keeps f m -> wp md m P s -> (forall a s', f s' = f s -> P a s' -> Q a s') -> wp md m Q s.
Proof.
  intros Hk Hm HQ. eapply wp_mono; [apply wp_conj; [apply Hk|exact Hm]|]. cbn. intros a s' []. auto.
Qed.

(** Run past a computation that keeps [f]. *)
Lemma wp_frame md {A B} (m : M A) (k : A -> M B) Q s :
  keeps f m -> (forall a s', f s' = f s -> wp md (k a) Q s') -> wp md (bind m k) Q s.
Proof. intros Hm Hk. apply wp_bind. eapply wp_mono; [apply Hm|]. cbn. intros a s' E. by apply Hk. Qed.

Lemma keeps_modify g : (forall s, f (g s) = f s) -> keeps f (modify g).
Proof. intros H md s. by apply wp_modify. Qed.

Lemma keeps_statement {A} (g : state -> result A * state) :
  (forall s, f (snd (g s)) = f s) -> keeps f (statement g).
Proof. intros H md s. apply wp_statement; [done|]. specialize (H s). by destruct (g s). Qed.

Lemma keeps_on_queue {A} (g : queue -> result A * queue) :
  (forall s q, f (set_s_queue q s) = f s) -> keeps f (on_queue g).
Proof. intros H. apply keeps_statement. intros s. destruct (g (s_queue s)). apply H. Qed.

Lemma keeps_query {A} (g : state -> result A) : keeps f (query g).
Proof. by apply keeps_statement. Qed.

Lemma keeps_now : (forall s t, f (set_s_now t s) = f s) -> keeps f now_.
Proof. intros H md s. by apply wp_now. Qed.

Lemma keeps_new_id : keeps f new_id.
Proof. intros md s. by apply wp_new_id. Qed.

Lemma keeps_draw : keeps f draw.
Proof. intros md s. by apply wp_draw. Qed.

Lemma keeps_post p : (forall s b, f (set_s_posts b s) = f s) -> keeps f (post p).
Proof. intros H md s. apply wp_post. intros r. apply H. Qed.

Lemma keeps_call_peer p : (forall s b, f (set_s_calls b s) = f s) -> keeps f (call_peer p).
Proof. intros H md s. apply wp_call_peer. intros r. apply H. Qed.

Lemma keeps_ctx_done : keeps f ctx_done.
Proof. intros md s. by apply wp_ctx_done. Qed.

Lemma keeps_count c n : (forall s k, f (set_s_counts k s) = f s) -> keeps f (count c n).
Proof. intros H md s. by apply wp_count. Qed.

Lemma keeps_Notify t p : (forall s k, f (set_s_notes k s) = f s) -> keeps f (Notify t p).
Proof. intros H md s. by apply wp_Notify. Qed.

Lemma keeps_record_event ev :
  (forall s t, f (set_s_now t s) = f s) -> (forall s t, f (set_s_events t s) = f s) -> keeps f (record_event ev).
Proof. intros Hn He md s. apply wp_record_event. intros t _. by rewrite He, Hn. Qed.

Lemma keeps_blob_Get id : keeps f (blob_Get id).
Proof. intros md s. by apply wp_blob_Get. Qed.

Lemma keeps_blob_Put id src limit : (forall s b, f (set_s_blobs b s) = f s) -> keeps f (blob_Put id src limit).
Proof. intros H md s. by apply wp_blob_Put. Qed.

Lemma keeps_blob_Delete id : (forall s b, f (set_s_blobs b s) = f s) -> keeps f (blob_Delete id).
Proof. intros H md s. by apply wp_blob_Delete. Qed.

Lemma keeps_dial h p t he pu : (forall s b, f (set_s_sent b s) = f s) -> keeps f (dial h p t he pu).
Proof. intros H md s. apply wp_dial; auto. Qed.

Lemma keeps_command c : (forall s b, f (set_s_sent b s) = f s) -> keeps f (command c).
Proof.
  intros H md s. destruct (s_sent s) as [|ses rest] eqn:E; [|by eapply wp_command].
  intros e He. unfold command. cbn. by rewrite E.
Qed.
End keeps.

(** Prove [keeps f m] by walking through the program. *)
Ltac keeps_step :=
  match goal with
  | |- keeps _ (bind _ _) => apply keeps_bind; [|intros ?]
  | |- keeps _ (ret _) => apply keeps_ret
  | |- keeps _ (query _) => apply keeps_query
  | |- keeps _ now_ => apply keeps_now; reflexivity
  | |- keeps _ new_id => apply keeps_new_id
  | |- keeps _ draw => apply keeps_draw
  | |- keeps _ ctx_done => apply keeps_ctx_done
  | |- keeps _ (call_peer _) => apply keeps_call_peer; reflexivity
  | |- keeps _ (post _) => apply keeps_post; reflexivity
  | |- keeps _ (count _ _) => apply keeps_count; reflexivity
  | |- keeps _ (Notify _ _) => apply keeps_Notify; reflexivity
  | |- keeps _ (record_event _) => apply keeps_record_event; reflexivity
  | |- keeps _ (blob_Get _) => apply keeps_blob_Get
  | |- keeps _ (blob_Put _ _ _) => apply keeps_blob_Put; reflexivity
  | |- keeps _ (blob_Delete _) => apply keeps_blob_Delete; reflexivity
  | |- keeps _ (dial _ _ _ _ _) => apply keeps_dial; reflexivity
  | |- keeps _ (command _) => apply keeps_command; reflexivity
  | |- keeps _ (on_queue _) => apply keeps_on_queue; reflexivity
  | |- keeps _ (statement _) =>
      apply keeps_statement; intros ?; repeat (cbn; split_match); reflexivity
  | |- keeps _ (modify _) => apply keeps_modify; reflexivity
  | |- keeps _ (match ?x with _ => _ end) => destruct x
  | _ => solve [eauto with keeps]
  end.

Create HintDb keeps.

Ltac keeps := intros; repeat keeps_step.
