(* ===== verification/Metrics.v ===== *)
(** * The page of the metrics (internal/metrics/metrics.go, internal/store/metrics.go)

    The queries the page makes, the builder that writes it, and the theorem that what a
    reader of the exposition format finds in it is what the tables hold.  The numbers are
    written by [%g], whose shortest decimal is computed on [SpecFloat]'s binary64. *)

From S2P Require Import Prelude GoStrings Times Errors StoreTypes StoreQueue StoreDomains World.
From Stdlib Require Import SpecFloat.
From Stdlib Require Import QArith.
Open Scope Z_scope.

(** ** The queries *)

Record QueueBreakdown := {
  qb_DomainID : Z;
  qb_DomainName : text;
  qb_Status : status;
  qb_Count : Z;
  qb_Bytes : Z
}.

(** [queue q JOIN domains d ON d.id = q.domain_id], and its groups. *)
Definition joined (ds : list domain) (q : queue) : list (domain * qrow) :=
  flat_map (fun r => map (fun d => (d, r)) (List.filter (fun d => DID d =? DomainID (q_msg r)) ds)) q.

Definition group_key (j : domain * qrow) : Z * status := (DomainID (q_msg j.2), row_status j.2).

Definition group_row (js : list (domain * qrow)) (k : Z * status) : QueueBreakdown :=
  let g := List.filter (fun j => bool_decide (group_key j = k)) js in
  {| qb_DomainID := k.1;
     qb_DomainName := match g with j :: _ => DName j.1 | [] => [] end;
     qb_Status := k.2;
     qb_Count := Z.of_nat (length g);
     qb_Bytes := sum_sizes (map snd g) |}.

Definition breakdown_le (a b : QueueBreakdown) : Prop :=
  match text_compare (qb_DomainName a) (qb_DomainName b) with
  | Lt => True
  | Eq => text_leb (status_text (qb_Status a)) (status_text (qb_Status b)) = true
  | Gt => False
  end.

#[export] Instance breakdown_le_dec a b : Decision (breakdown_le a b).
Proof. unfold breakdown_le. destruct (text_compare _ _); apply _. Defined.

Definition Breakdown (ds : list domain) (q : queue) : list QueueBreakdown :=
  let js := joined ds q in
  merge_sort breakdown_le (map (group_row js) (remove_dups (map group_key js))).

(** The first of the rows that wait, in the order of the text of their arrival. *)
Definition received_le (a b : qrow) : Prop := time_leb (ReceivedAt (q_msg a)) (ReceivedAt (q_msg b)) = true.

#[export] Instance received_le_dec a b : Decision (received_le a b).
Proof. unfold received_le. apply _. Defined.

Definition oldest_received (q : queue) : result Z :=
  match merge_sort received_le (List.filter is_pending q) with
  | r :: _ => Ok (ReceivedAt (q_msg r))
  | [] => Err (EText "sql: no rows in result set"%string)
  end.

(** An error, that of an empty table included, counts as nothing waiting. *)
Definition OldestQueued : M Z :=
  let* received := query (fun s => oldest_received (s_queue s)) in
  match received with
  | Err _ => ret 0
  | Ok t => let* now := now_ in ret (now - t)
  end.

Definition DomainHealth : Type := domain * option primary_status.

Fixpoint domain_health (ds : list domain) : M (list DomainHealth) :=
  match ds with
  | [] => ret []
  | d :: ds =>
      let* st := query (fun s => match dt_primary (s_domains s) !! DID d with Some st => Ok st | None => Err not_found end) in
      let* rest := domain_health ds in
      ret ((d, match st with Ok st => Some st | Err _ => None end) :: rest)
  end.

Definition AllDomainHealth : M (result (list DomainHealth)) :=
  let* ds := query (fun s => Ok (ListDomains (dt_domains (s_domains s)))) in
  match ds with
  | Err e => ret (Err e)
  | Ok ds => let* out := domain_health ds in ret (Ok out)
  end.

(** ** [%g] *)

(** The number of decimal digits of a positive integer. *)
Definition digits_of (n : Z) : Z := Z.of_nat (length (dec n)).

(** The [k] with [10^(k-1) <= num/den < 10^k]. *)
Definition decimal_point (num den : Z) : Z :=
  if den <=? num then digits_of (num / den) else 1 - digits_of ((den + num - 1) / num - 1).

Definition scale (n k : Z) : Z := if 0 <=? k then n * 10 ^ k else n.

(** [c * 10^(k-nd)] against [num/den]: the difference, over [den * 10^..], as a pair of integers. *)
Definition candidate_ok (m e nd k c : Z) : bool :=
  (* twice the value, its lower and its upper neighbour, over a common denominator *)
  let unit := 2 ^ Z.max 0 e in
  let den := 2 ^ Z.max 0 (- e) in
  let low := if (m =? 2 ^ 52) then 4 * m - 1 else 4 * m - 2 in
  let up := 4 * m + 2 in
  let x := 4 * scale c (k - nd) * den in
  let y := fun b => b * unit * scale 1 (nd - k) in
  if Z.even m then (y low <=? x) && (x <=? y up) else (y low <? x) && (x <? y up).

(** With [nd] digits: the closest decimal that reads back, [None] when there is none. *)
Definition shortest_with (m e k nd : Z) : option Z :=
  let num := m * 2 ^ Z.max 0 e * scale 1 (nd - k) in
  let den := 2 ^ Z.max 0 (- e) * scale 1 (k - nd) in
  let lo := num / den in
  let hi := lo + 1 in
  let r := 2 * (num mod den) in
  let lo_ok := candidate_ok m e nd k lo in
  let hi_ok := candidate_ok m e nd k hi in
  let lo_closer := (r <? den) || ((r =? den) && Z.even lo) in
  if lo_ok && (lo_closer || negb hi_ok) then Some lo else if hi_ok then Some hi else None.

Fixpoint shortest (m e k nd : Z) (fuel : nat) : Z * Z :=
  match fuel with
  | O => (m, nd)
  | S fuel => match shortest_with m e k nd with Some c => (c, nd) | None => shortest m e k (nd + 1) fuel end
  end.

(** The digits, without zeros at the end, and where the point stands. *)
Definition shortest_digits (m e : Z) : text * Z :=
  let k := decimal_point (m * 2 ^ Z.max 0 e) (2 ^ Z.max 0 (- e)) in
  let '(c, nd) := shortest m e k 1 17 in
  let ds := dec c in
  (trim_right (fun c => bool_decide (c = "0"%char)) ds, k + (Z.of_nat (length ds) - nd)).

Definition exponent_text (x : Z) : text :=
  (if x <? 0 then "-"%string else "+"%string) ++ (if Z.abs x <? 10 then "0"%string else [] : text) ++ dec (Z.abs x).

Definition zeros (n : Z) : text := repeat "0"%char (Z.to_nat n).

(** Digits [ds] with the point after [dp] of them: an exponent below -4 or from 6 on is written. *)
Definition format_digits (ds : text) (dp : Z) : text :=
  let nd := Z.of_nat (length ds) in
  let x := dp - 1 in
  if (x <? -4) || (6 <=? x) then
    take 1 ds ++ (if 1 <? nd then "."%string ++ drop 1 ds else []) ++ "e"%string ++ exponent_text x
  else if dp <=? 0 then T "0." ++ zeros (- dp) ++ ds
  else if nd <=? dp then ds ++ zeros (dp - nd)
  else take (Z.to_nat dp) ds ++ T "." ++ drop (Z.to_nat dp) ds.

Definition format_g (x : spec_float) : text :=
  match x with
  | S754_zero s => (if s then "-0"%string else "0"%string)
  | S754_infinity s => (if s then "-Inf"%string else "+Inf"%string)
  | S754_nan => "NaN"%string
  | S754_finite s m e =>
      let '(ds, dp) := shortest_digits (Zpos m) e in
      (if s then T "-" else []) ++ format_digits ds dp
  end.

(** [float64(n)], and [Duration.Seconds()]. *)
Definition Seconds (d : Z) : spec_float :=
  SFadd 53 1024 (of_Z (Z.quot d second)) (SFdiv 53 1024 (of_Z (Z.rem d second)) (of_Z second)).

(** ** The builder *)

(** A write takes some of the bytes and fails, or takes them all ([b_writes] is the fate of those to come). *)
Record builder := Builder {
  b_w : text;
  b_err : option error;
  b_seen : list text;
  b_writes : list (option (nat * error))
}.

Definition printf (s : text) (b : builder) : builder :=
  match b_err b with
  | Some _ => b
  | None =>
      match b_writes b with
      | Some (n, e) :: ws => Builder (b_w b ++ take n s) (Some e) (b_seen b) ws
      | None :: ws => Builder (b_w b ++ s) None (b_seen b) ws
      | [] => Builder (b_w b ++ s) None (b_seen b) []
      end
  end.

Definition label : Type := text * text.

Definition header (name typ help : text) (b : builder) : builder :=
  if bool_decide (name ∈ b_seen b) then b
  else printf (T "# HELP " ++ name ++ T " " ++ help ++ [LF] ++ T "# TYPE " ++ name ++ T " " ++ typ ++ [LF])
         (Builder (b_w b) (b_err b) (name :: b_seen b) (b_writes b)).

(** [strings.ReplaceAll] of one byte. *)
Definition replace_byte (c : ascii) (new s : text) : text := flat_map (fun x => if bool_decide (x = c) then new else [x]) s.

Definition BS : ascii := "092"%char.

Definition escapeLabel (s : text) : text :=
  replace_byte LF [BS; "n"%char] (replace_byte DQ [BS; DQ] (replace_byte BS [BS; BS] s)).

Definition label_le (a b : label) : Prop := text_leb a.1 b.1 = true.

#[export] Instance label_le_dec a b : Decision (label_le a b).
Proof. unfold label_le. apply _. Defined.

Definition label_text (l : label) : text := l.1 ++ T "=" ++ [DQ] ++ escapeLabel l.2 ++ [DQ].

Definition sample (name : text) (value : spec_float) (labels : list label) (b : builder) : builder :=
  match labels with
  | [] => printf (name ++ T " " ++ format_g value ++ [LF]) b
  | _ => printf (name ++ T "{" ++ join ","%string (map label_text (merge_sort label_le labels)) ++ T "} " ++ format_g value ++ [LF]) b
  end.

Definition gauge (name help : text) (value : spec_float) (labels : list label) (b : builder) : builder :=
  sample name value labels (header name "gauge"%string help b).

Definition counter_ (name help : text) (value : spec_float) (b : builder) : builder :=
  sample name value [] (header name "counter"%string help b).

(** ** The page *)

Definition counters : list (string * string * counter) := [
  ("xeronmx_messages_received_total", "Messages accepted onto the spool.", MessagesReceived);
  ("xeronmx_messages_rejected_total", "Messages refused at SMTP time.", MessagesRejected);
  ("xeronmx_messages_delivered_total", "Messages the primary accepted.", MessagesDelivered);
  ("xeronmx_messages_deferred_total", "Delivery attempts that failed temporarily.", MessagesDeferred);
  ("xeronmx_messages_failed_total", "Messages permanently rejected by the primary.", MessagesFailed);
  ("xeronmx_messages_expired_total", "Messages that outlived their retention undelivered.", MessagesExpired);
  ("xeronmx_bytes_received_total", "Bytes of message body accepted.", BytesReceived);
  ("xeronmx_smtp_connections_total", "Inbound SMTP connections.", SMTPConnections);
  ("xeronmx_probes_total", "Primary health probes attempted.", ProbesTotal);
  ("xeronmx_probes_failed_total", "Primary health probes that failed.", ProbesFailed)
]%string.

Definition write_counters (counts : counter -> Z) (b : builder) : builder :=
  fold_left (fun b (c : string * string * counter) => counter_ (T c.1.1) (T c.1.2) (of_Z (counts c.2)) b) counters b.

Definition write_breakdown (rows : list QueueBreakdown) (b : builder) : builder :=
  fold_left (fun b row => sample "xeronmx_queue_messages"%string (of_Z (qb_Count row))
      [(T "domain", qb_DomainName row); (T "status", status_text (qb_Status row))] b)
    rows (header "xeronmx_queue_messages"%string "gauge"%string "Messages by domain and status."%string b).

Definition of_bool (b : bool) : spec_float := of_Z (if b then 1 else 0).
Definition is_up (dh : DomainHealth) : bool := match dh.2 with Some st => IsUp st | None => false end.

Definition write_health (health : list DomainHealth) (b : builder) : builder :=
  let b := fold_left (fun b dh => sample "xeronmx_primary_up"%string (of_bool (is_up dh)) [(T "domain", DName dh.1)] b)
    health (header "xeronmx_primary_up"%string "gauge"%string "1 when the domain primary answered its last probes."%string b) in
  fold_left (fun b dh => sample "xeronmx_domain_enabled"%string (of_bool (DEnabled dh.1)) [(T "domain", DName dh.1)] b)
    health (header "xeronmx_domain_enabled"%string "gauge"%string "1 when XeronMX accepts mail for the domain."%string b).

(** What the process and the runtime say of themselves; [ci_start] is when the collector was made. *)
Record CollectorInfo := {
  ci_version : text;
  ci_commit : text;
  ci_start : Z;
  ci_goroutines : Z;
  ci_heap : Z
}.

Definition write_stats (stats : QueueStats) (b : builder) : builder :=
  gauge "xeronmx_queue_rows"%string "Rows in the queue table, delivered history included."%string (of_Z (Total stats)) []
    (gauge "xeronmx_queue_pending_bytes"%string "Bytes waiting on the spool."%string (of_Z (PendingBytes stats)) []
      (gauge "xeronmx_queue_pending"%string "Messages waiting for the primary."%string (of_Z (Pending stats)) [] b)).

Definition write_process (ci : CollectorInfo) (uptime : Z) (b : builder) : builder :=
  gauge "xeronmx_uptime_seconds"%string "Seconds since the process started."%string (Seconds uptime) []
    (gauge "xeronmx_build_info"%string "Build information, always 1."%string (of_Z 1)
       [(T "version", ci_version ci); (T "commit", ci_commit ci)] b).

Definition write_runtime (ci : CollectorInfo) (b : builder) : builder :=
  gauge "xeronmx_memory_heap_bytes"%string "Heap bytes in use."%string (of_Z (ci_heap ci)) []
    (gauge "xeronmx_goroutines"%string "Goroutines currently running."%string (of_Z (ci_goroutines ci)) [] b).

(** The part of [Write] that is about rows and domains. *)
Definition write_tables (ci : CollectorInfo) (b : builder) : M (option error * text) :=
  let* rows := query (fun s => Ok (Breakdown (dt_domains (s_domains s)) (s_queue s))) in
  match rows with
  | Err e => ret (Some e, b_w b)
  | Ok rows =>
      let b := write_breakdown rows b in
      let* health := AllDomainHealth in
      match health with
      | Err e => ret (Some e, b_w b)
      | Ok health =>
          let b := write_runtime ci (write_health health b) in
          ret (b_err b, b_w b)
      end
  end.

(** [Write]: the error, and what was written, however far it went. *)
Definition Write (ci : CollectorInfo) (writes : list (option (nat * error))) : M (option error * text) :=
  let* now := now_ in
  let b := write_process ci (now - ci_start ci) (Builder [] None [] writes) in
  let* s := get in
  let b := write_counters (s_counts s) b in
  let* stats := query (fun s => Ok (Stats (s_queue s))) in
  match stats with
  | Err e => ret (Some e, b_w b)
  | Ok stats =>
      let b := write_stats stats b in
      let* oldest := OldestQueued in
      let b := gauge "xeronmx_queue_oldest_seconds"%string
        "Age of the longest-waiting message. Zero when the queue is empty."%string (Seconds oldest) [] b in
      write_tables ci b
  end.

(** ** What a reader of the exposition format finds

    The format's own definition: a line is a comment ([HELP], [TYPE]) or a sample, whose
    label values are between quotes with the escapes of a backslash, a quote and a line feed. *)

Inductive line :=
| Help (name help : text)
| Type_ (name typ : text)
| Sample (name : text) (labels : list label) (value : text).

Definition is_name_char (c : ascii) : bool := (97 <=? code c) && (code c <=? 122) || (code c =? 95).

Fixpoint take_while (f : ascii -> bool) (s : text) : text * text :=
  match s with
  | c :: r => if f c then let '(a, b) := take_while f r in (c :: a, b) else ([], s)
  | [] => ([], [])
  end.

(** The value up to the closing quote, and what follows it. *)
Fixpoint read_value (s : text) : option (text * text) :=
  match s with
  | [] => None
  | c :: r =>
      if bool_decide (c = DQ) then Some ([], r)
      else if bool_decide (c = BS) then
        match r with
        | d :: r =>
            let d := if bool_decide (d = "n"%char) then LF else d in
            match read_value r with Some (v, rest) => Some (d :: v, rest) | None => None end
        | [] => None
        end
      else match read_value r with Some (v, rest) => Some (c :: v, rest) | None => None end
  end.

(** A label for each unit of fuel; [n] labels take [n]. *)
Fixpoint read_labels (fuel : nat) (s : text) : option (list label * text) :=
  match fuel with
  | O => None
  | S fuel =>
      let '(name, r) := take_while is_name_char s in
      match r with
      | "="%char :: q :: r =>
          if bool_decide (q = DQ) then
            match read_value r with
            | Some (v, ","%char :: r) =>
                match read_labels fuel r with Some (ls, rest) => Some ((name, v) :: ls, rest) | None => None end
            | Some (v, "}"%char :: " "%char :: r) => Some ([(name, v)], r)
            | _ => None
            end
          else None
      | _ => None
      end
  end.

Definition read_line (s : text) : option line :=
  if has_prefix "# HELP "%string s then
    let '(name, r) := take_while is_name_char (drop 7 s) in Some (Help name (drop 1 r))
  else if has_prefix "# TYPE "%string s then
    let '(name, r) := take_while is_name_char (drop 7 s) in Some (Type_ name (drop 1 r))
  else
    let '(name, r) := take_while is_name_char s in
    match r with
    | " "%char :: v => Some (Sample name [] v)
    | "{"%char :: r =>
        match read_labels (length r) r with Some (ls, v) => Some (Sample name ls v) | None => None end
    | _ => None
    end.

(** Every line ends in a line feed. *)
Definition read_page (s : text) : option (list line) :=
  match rev (split_byte LF s) with
  | [] :: lines => mapM read_line (rev lines)
  | _ => None
  end.

Definition samples_of (name : text) (ls : list line) : list (list label * text) :=
  omap (fun l => match l with Sample n labels v => if bool_decide (n = name) then Some (labels, v) else None | _ => None end) ls.

Definition render (l : line) : text :=
  match l with
  | Help n h => T "# HELP " ++ n ++ T " " ++ h
  | Type_ n t => T "# TYPE " ++ n ++ T " " ++ t
  | Sample n [] v => n ++ T " " ++ v
  | Sample n ls v => n ++ T "{" ++ join ","%string (map label_text ls) ++ T "} " ++ v
  end.

Definition render_page (ls : list line) : text := flat_map (fun l => render l ++ [LF]) ls.

(** ** Reading back what was written *)

Definition name_ok (n : text) : Prop := forallb is_name_char n = true.

Lemma take_while_app f n s : forallb f n = true -> match s with c :: _ => f c = false | [] => True end -> take_while f (n ++ s) = (n, s).
Proof.
  intros Hn Hs. induction n as [|c n IH]; cbn in *; [destruct s as [|c s]; cbn; [done|by rewrite Hs]|].
  apply andb_true_iff in Hn as [-> Hn]. by rewrite IH.
Qed.

(** The three replacements, in one pass. *)
Definition escape_char (c : ascii) : text :=
  if bool_decide (c = BS) then [BS; BS] else if bool_decide (c = DQ) then [BS; DQ]
  else if bool_decide (c = LF) then [BS; "n"%char] else [c].

Lemma replace_byte_app c new s t : replace_byte c new (s ++ t) = replace_byte c new s ++ replace_byte c new t.
Proof. apply flat_map_app. Qed.

Lemma escapeLabel_cons c s : escapeLabel (c :: s) = escape_char c ++ escapeLabel s.
Proof.
  unfold escapeLabel. change (c :: s) with ([c] ++ s). rewrite !replace_byte_app. f_equal. unfold escape_char.
  destruct (bool_decide_reflect (c = BS)) as [->|]; [done|]. destruct (bool_decide_reflect (c = DQ)) as [->|]; [done|].
  destruct (bool_decide_reflect (c = LF)) as [->|]; [done|].
  cbn. rewrite !bool_decide_eq_false_2 by done. cbn. rewrite bool_decide_eq_false_2 by done. cbn. by rewrite bool_decide_eq_false_2.
Qed.

Lemma read_value_escape v rest : read_value (escapeLabel v ++ DQ :: rest) = Some (v, rest).
Proof.
  induction v as [|c v IH]; [done|]. rewrite escapeLabel_cons. unfold escape_char.
  destruct (bool_decide_reflect (c = BS)) as [->|Hb]; [cbn; by rewrite IH|].
  destruct (bool_decide_reflect (c = DQ)) as [->|Hq]; [cbn; by rewrite IH|].
  destruct (bool_decide_reflect (c = LF)) as [->|Hl]; [cbn; by rewrite IH|].
  cbn. rewrite !bool_decide_eq_false_2 by done. by rewrite IH.
Qed.

Lemma escapeLabel_no_LF v : LF ∉ escapeLabel v.
Proof.
  induction v as [|c v IH]; [by apply not_elem_of_nil|]. rewrite escapeLabel_cons, not_elem_of_app. split; [|done].
  unfold escape_char. destruct (bool_decide_reflect (c = BS)) as [->|]; [by apply (bool_decide_unpack _)|].
  destruct (bool_decide_reflect (c = DQ)) as [->|]; [by apply (bool_decide_unpack _)|].
  destruct (bool_decide_reflect (c = LF)) as [->|]; [by apply (bool_decide_unpack _)|]. rewrite list_elem_of_singleton. congruence.
Qed.

Lemma read_labels_text ls v fuel :
  ls <> [] -> Forall (fun l => name_ok l.1) ls -> (length ls <= fuel)%nat ->
  read_labels fuel (join ","%string (map label_text ls) ++ T "} " ++ v) = Some (ls, v).
Proof.
  revert fuel. induction ls as [|[n x] ls IH]; intros [|fuel] Hne Hok Hf; try done; [cbn in Hf; lia|].
  apply Forall_cons in Hok as [Hn Hok]. cbn in Hn, Hf. cbn [map]. destruct ls as [|l ls].
  - cbn [map join]. unfold label_text. cbn [fst snd]. rewrite <- !app_assoc. cbn [read_labels]. rewrite take_while_app by done. cbn [T String.list_ascii_of_string app].
    rewrite bool_decide_eq_true_2 by done. by rewrite read_value_escape.
  - rewrite join_cons by done. unfold label_text at 1. cbn [fst snd]. rewrite <- !app_assoc. cbn [read_labels]. rewrite take_while_app by done.
    cbn [T String.list_ascii_of_string app]. rewrite bool_decide_eq_true_2 by done. rewrite read_value_escape.
    cbn [T String.list_ascii_of_string app] in IH. by rewrite IH by (done || lia).
Qed.

Lemma length_labels ls : (length ls <= length (join ","%string (map label_text ls)))%nat.
Proof.
  induction ls as [|l ls IH]; [done|]. cbn [map]. destruct ls as [|l' ls].
  - cbn. unfold label_text. rewrite length_app. cbn. lia.
  - rewrite join_cons by done. rewrite !length_app. cbn [length] in *. change (length (T ",")) with 1%nat. lia.
Qed.

(** Lines the reader takes: names of the format, and no line feed outside label values. *)
Definition good (l : line) : Prop :=
  match l with
  | Help n t | Type_ n t => name_ok n /\ LF ∉ t
  | Sample n ls v => name_ok n /\ Forall (fun l => name_ok l.1) ls /\ LF ∉ v
  end.

Lemma name_no_LF n : name_ok n -> LF ∉ n.
Proof. unfold name_ok. rewrite forallb_forall. intros Hn Hin. apply list_elem_of_In in Hin. by apply Hn in Hin. Qed.

Lemma label_text_no_LF l : name_ok l.1 -> LF ∉ label_text l.
Proof.
  intros Hn. unfold label_text. rewrite !not_elem_of_app. split_and!; [by apply name_no_LF| |..|apply escapeLabel_no_LF|];
    by apply (bool_decide_unpack _).
Qed.

Lemma join_no_LF ls : Forall (fun l => name_ok l.1) ls -> LF ∉ join ","%string (map label_text ls).
Proof.
  induction 1 as [|l ls Hl Hls IH]; [by apply not_elem_of_nil|]. cbn [map]. destruct ls as [|l' ls]; [by apply label_text_no_LF|].
  rewrite join_cons by done. rewrite !not_elem_of_app. split_and!; [by apply label_text_no_LF|by apply (bool_decide_unpack _)|done].
Qed.

Lemma render_no_LF l : good l -> LF ∉ render l.
Proof.
  destruct l as [n t|n t|n [|x ls] v]; cbn [good render]; intros H; destruct_and!; rewrite !not_elem_of_app; split_and!;
    first [done | by apply name_no_LF | by apply join_no_LF | by apply (bool_decide_unpack _)].
Qed.

Lemma not_comment n s : name_ok n -> has_prefix "# HELP "%string (n ++ " "%char :: s) = false /\ has_prefix "# TYPE "%string (n ++ " "%char :: s) = false
  /\ has_prefix "# HELP "%string (n ++ "{"%char :: s) = false /\ has_prefix "# TYPE "%string (n ++ "{"%char :: s) = false.
Proof.
  destruct n as [|c n]; [done|]. unfold name_ok. cbn. intros [Hc _]%andb_true_iff.
  rewrite !bool_decide_eq_false_2; [done|..]; intros <-; done.
Qed.

Lemma read_render l : good l -> read_line (render l) = Some l.
Proof.
  unfold read_line. destruct l as [n t|n t|n [|x ls] v]; cbn [good render]; intros H; destruct_and!.
  - cbn [has_prefix T String.list_ascii_of_string app drop]. rewrite !bool_decide_eq_true_2 by done. cbn [andb]. rewrite drop_0. by rewrite take_while_app.
  - cbn [has_prefix T String.list_ascii_of_string app drop]. rewrite drop_0. by rewrite take_while_app.
  - destruct (not_comment n v) as (E1 & E2 & _); [done|]. cbn [T String.list_ascii_of_string app] in *. rewrite E1, E2.
    by rewrite take_while_app.
  - destruct (not_comment n (join ","%string (map label_text (x :: ls)) ++ T "} " ++ v)) as (_ & _ & E1 & E2); [done|].
    cbn [T String.list_ascii_of_string app] in *. rewrite E1, E2. rewrite take_while_app by done.
    pose proof (read_labels_text (x :: ls) v) as Hr. cbn [T String.list_ascii_of_string app] in Hr. rewrite Hr; [done..|].
    pose proof (length_labels (x :: ls)) as H1. rewrite length_app. eapply Nat.le_trans; [exact H1|apply Nat.le_add_r].
Qed.

Lemma read_page_render ls : Forall good ls -> read_page (render_page ls) = Some ls.
Proof.
  intros Hg. assert (E : split_byte LF (render_page ls) = map render ls ++ [[]]).
  { induction Hg as [|l ls Hl Hg IH]; [done|]. cbn [render_page flat_map map app]. rewrite <- app_assoc. cbn [app].
    rewrite split_byte_app by (by apply render_no_LF). by rewrite <- IH. }
  unfold read_page. rewrite E, rev_app_distr. cbn. rewrite rev_involutive. clear E.
  induction Hg as [|l ls Hl Hg IH]; [done|]. cbn. by rewrite read_render, IH.
Qed.

Lemma render_page_app a b : render_page (a ++ b) = render_page a ++ render_page b.
Proof. apply flat_map_app. Qed.

(** What [%g] writes has no line feed. *)
Lemma dec_no_LF n : 0 <= n -> LF ∉ dec n.
Proof. intros Hn Hin. by apply dec_digits in Hin. Qed.

Lemma take_no_LF n s : LF ∉ s -> LF ∉ take n s.
Proof. intros Hs Hin. apply Hs. rewrite <- (take_drop n s). apply elem_of_app. by left. Qed.
Lemma drop_no_LF n s : LF ∉ s -> LF ∉ drop n s.
Proof. intros Hs Hin. apply Hs. rewrite <- (take_drop n s). apply elem_of_app. by right. Qed.

Lemma format_digits_no_LF ds dp : LF ∉ ds -> LF ∉ format_digits ds dp.
Proof.
  intros Hd. unfold format_digits, exponent_text, zeros. pose proof (take_no_LF 1 ds Hd). pose proof (drop_no_LF 1 ds Hd).
  pose proof (take_no_LF (Z.to_nat dp) ds Hd). pose proof (drop_no_LF (Z.to_nat dp) ds Hd).
  assert (Hz : forall n, LF ∉ repeat "0"%char n) by (intros n Hin; apply list_elem_of_In, repeat_spec in Hin; done).
  pose proof (dec_no_LF (Z.abs (dp - 1)) ltac:(lia)).
  repeat case_match; rewrite ?not_elem_of_app; split_and!; first [done | by apply (bool_decide_unpack _)].
Qed.

Lemma shortest_nonneg m e k nd fuel c nd' : 0 < m -> shortest m e k nd fuel = (c, nd') -> 0 <= c.
Proof.
  intros Hm. revert nd. induction fuel as [|fuel IH]; intros nd; cbn [shortest]; [intros [= <- _]; lia|].
  destruct (shortest_with m e k nd) as [x|] eqn:E; [|apply IH]. intros [= <- _]. unfold shortest_with in E.
  assert (Hs : forall j, 0 < scale 1 j).
  { intros j. unfold scale. destruct (0 <=? j) eqn:Ej; [|lia]. rewrite Z.mul_1_l. apply Z.pow_pos_nonneg; lia. }
  pose proof (Hs (nd - k)). pose proof (Hs (k - nd)).
  pose proof (Z.pow_pos_nonneg 2 (Z.max 0 e) ltac:(lia) ltac:(lia)). pose proof (Z.pow_pos_nonneg 2 (Z.max 0 (- e)) ltac:(lia) ltac:(lia)).
  assert (0 <= (m * 2 ^ Z.max 0 e * scale 1 (nd - k)) / (2 ^ Z.max 0 (- e) * scale 1 (k - nd))) by (apply Z.div_pos; nia).
  repeat case_match; simplify_eq; lia.
Qed.

Lemma format_g_no_LF x : LF ∉ format_g x.
Proof.
  destruct x as [[]|[]| |s m e]; try by apply (bool_decide_unpack _). unfold format_g, shortest_digits.
  destruct (shortest _ _ _ 1 17) as [c nd] eqn:E. apply shortest_nonneg in E; [|done]. apply not_elem_of_app.
  split; [destruct s; by apply (bool_decide_unpack _)|]. apply format_digits_no_LF. intros Hin. apply trim_right_elem in Hin.
  by apply dec_no_LF in Hin.
Qed.

(** ** What the builder has written *)

(** The lines [ls], or the beginning of them if a write failed. *)
Definition wrote (seen : list text) (ls : list line) (b : builder) : Prop :=
  b_seen b = seen /\ Forall good ls /\ (b_err b = None -> b_w b = render_page ls) /\ b_w b `prefix_of` render_page ls.

Lemma wrote_printf seen ls new b : wrote seen ls b -> Forall good new -> wrote seen (ls ++ new) (printf (render_page new) b).
Proof.
  intros (Hs & Hg & He & Hp) Hn. unfold printf, wrote. rewrite render_page_app, Forall_app.
  destruct (b_err b) as [e|] eqn:Eb; [split_and!; [done..|by rewrite Eb|by apply prefix_app_r]|].
  rewrite He by done. destruct (b_writes b) as [|[[n e]|] ws]; cbn; split_and!; try done; by apply prefix_app, prefix_take.
Qed.

Lemma wrote_header seen ls name typ help b :
  wrote seen ls b -> name ∉ seen -> name_ok name -> LF ∉ help -> LF ∉ typ ->
  wrote (name :: seen) (ls ++ [Help name help; Type_ name typ]) (header name typ help b).
Proof.
  intros Hw Hn Hname Hh Ht. unfold header. rewrite bool_decide_eq_false_2 by (destruct Hw as [-> _]; done).
  pose proof (wrote_printf (name :: seen) ls [Help name help; Type_ name typ]
    (Builder (b_w b) (b_err b) (name :: b_seen b) (b_writes b))) as H.
  cbn [render_page flat_map render] in H. rewrite !app_nil_r, <- !app_assoc in H. apply H.
  - destruct Hw as (Hs & Hg & He & Hp). split_and!; cbn; [congruence|done..].
  - repeat constructor; done.
Qed.

Lemma wrote_sample seen ls name value labels b :
  wrote seen ls b -> name_ok name -> Forall (fun l => name_ok l.1) labels ->
  wrote seen (ls ++ [Sample name (merge_sort label_le labels) (format_g value)]) (sample name value labels b).
Proof.
  intros Hw Hn Hl. assert (Hs : Forall (fun l => name_ok l.1) (merge_sort label_le labels)) by (by rewrite merge_sort_Permutation).
  pose proof (wrote_printf seen ls [Sample name (merge_sort label_le labels) (format_g value)] b Hw) as H.
  cbn [render_page flat_map] in H. rewrite app_nil_r in H. specialize (H ltac:(repeat constructor; auto using format_g_no_LF)).
  unfold sample. destruct labels as [|l labels]; [cbn in *; by rewrite <- !app_assoc in H|].
  destruct (merge_sort label_le (l :: labels)) as [|l' ls'] eqn:E.
  { pose proof (merge_sort_Permutation label_le (l :: labels)) as Hp. rewrite E in Hp. by apply Permutation_nil_cons in Hp. }
  cbn [render] in H. by rewrite <- !app_assoc in H.
Qed.

Lemma app_three {A} (l : list A) a b c : l ++ [a; b; c] = (l ++ [a; b]) ++ [c].
Proof. by rewrite <- app_assoc. Qed.

(** A header and the one sample of a gauge or of a counter. *)
Definition family (name typ help : text) (value : spec_float) (labels : list label) : list line :=
  [Help name help; Type_ name typ; Sample name labels (format_g value)].

Lemma wrote_gauge seen ls name help value labels b :
  wrote seen ls b -> name ∉ seen -> name_ok name -> LF ∉ help -> Forall (fun l => name_ok l.1) labels ->
  wrote (name :: seen) (ls ++ family name "gauge"%string help value (merge_sort label_le labels)) (gauge name help value labels b).
Proof.
  intros Hw Hn Hname Hh Hl. unfold gauge, family. rewrite app_three.
  apply wrote_sample; [|done..]. apply wrote_header; [done..|by apply (bool_decide_unpack _)].
Qed.

Lemma wrote_counters seen ls counts b cs :
  wrote seen ls b ->
  forallb (fun c : string * string * counter => forallb is_name_char (T c.1.1) && bool_decide (LF ∉ T c.1.2)) cs = true ->
  NoDup (map (fun c : string * string * counter => T c.1.1) cs ++ seen) ->
  exists seen', (forall n, n ∈ seen' <-> n ∈ map (fun c : string * string * counter => T c.1.1) cs ++ seen) /\
  wrote seen' (ls ++ flat_map (fun c => family (T c.1.1) "counter"%string (T c.1.2) (of_Z (counts c.2)) []) cs)
    (fold_left (fun b (c : string * string * counter) => counter_ (T c.1.1) (T c.1.2) (of_Z (counts c.2)) b) cs b).
Proof.
  revert seen ls b. induction cs as [|c cs IH]; intros seen ls b Hw Hok Hnd.
  { exists seen. cbn. by rewrite app_nil_r. }
  cbn [forallb map app] in *. apply andb_true_iff in Hok as [[Hn Hh]%andb_true_iff Hok]. apply bool_decide_eq_true in Hh.
  apply NoDup_cons in Hnd as [Hni Hnd]. rewrite not_elem_of_app in Hni. destruct Hni as [Hni Hns].
  destruct (IH (T c.1.1 :: seen) (ls ++ family (T c.1.1) "counter"%string (T c.1.2) (of_Z (counts c.2)) [])
    (counter_ (T c.1.1) (T c.1.2) (of_Z (counts c.2)) b)) as (seen' & Hs & Hw').
  - unfold counter_, family. rewrite app_three.
    apply (wrote_sample _ _ _ _ []); [|done..]. apply wrote_header; [done..|by apply (bool_decide_unpack _)].
  - done.
  - rewrite <- Permutation_middle. apply NoDup_cons. split; [|done]. by rewrite not_elem_of_app.
  - exists seen'. split; [|cbn [flat_map fold_left]; by rewrite app_assoc].
    intros n. rewrite Hs, !elem_of_app, !elem_of_cons, elem_of_app. tauto.
Qed.

(** The samples of one family, written one after the other. *)
Lemma wrote_samples {A} seen ls name (value : A -> spec_float) (labels : A -> list label) xs b :
  wrote seen ls b -> name_ok name -> (forall x, Forall (fun l => name_ok l.1) (labels x)) ->
  wrote seen (ls ++ map (fun x => Sample name (merge_sort label_le (labels x)) (format_g (value x))) xs)
    (fold_left (fun b x => sample name (value x) (labels x) b) xs b).
Proof.
  intros Hw Hn Hl. revert ls b Hw. induction xs as [|x xs IH]; intros ls b Hw; cbn [map fold_left]; [by rewrite app_nil_r|].
  rewrite cons_middle, app_assoc. apply IH. by apply wrote_sample.
Qed.

(** ** The groups of the breakdown *)

Definition held_by (d : domain) (st : status) (r : qrow) : bool := (DomainID (q_msg r) =? DID d) && bool_decide (row_status r = st).

Lemma elem_of_joined ds q d r : (d, r) ∈ joined ds q <-> d ∈ ds /\ r ∈ q /\ DID d = DomainID (q_msg r).
Proof.
  unfold joined. rewrite list_elem_of_In, in_flat_map. setoid_rewrite in_map_iff. setoid_rewrite filter_In.
  setoid_rewrite <- list_elem_of_In. setoid_rewrite Z.eqb_eq. naive_solver.
Qed.

Lemma group_of ds q d st :
  NoDup (map DID ds) -> d ∈ ds ->
  List.filter (fun j => bool_decide (group_key j = (DID d, st))) (joined ds q) = map (fun r => (d, r)) (List.filter (held_by d st) q).
Proof.
  intros Hnd Hd. induction q as [|r q IH]; [done|]. unfold joined in *. cbn [flat_map]. rewrite List.filter_app, IH. cbn [List.filter].
  unfold held_by at 2. destruct (Z.eqb_spec (DomainID (q_msg r)) (DID d)) as [E|E]; cbn [andb].
  - assert (Hone : List.filter (fun d' => DID d' =? DomainID (q_msg r)) ds = [d]).
    { rewrite E. clear -Hnd Hd. induction ds as [|x ds IHd]; [by apply not_elem_of_nil in Hd|]. cbn in *. apply NoDup_cons in Hnd as [Hx Hnd].
      apply elem_of_cons in Hd as [->|Hd].
      - rewrite Z.eqb_refl. f_equal. apply list_nil_iff_no_elem. intros y [Hy1 Hy2]%elem_of_List_filter. apply Z.eqb_eq in Hy1.
        apply Hx. rewrite <- Hy1. by apply elem_of_map_2.
      - destruct (Z.eqb_spec (DID x) (DID d)) as [Ex|_]; [|by apply IHd]. destruct Hx. rewrite Ex. by apply elem_of_map_2. }
    rewrite Hone. cbn. unfold group_key. cbn. rewrite E. case_bool_decide as H1; case_bool_decide as H2; naive_solver.
  - replace (List.filter _ (map _ _)) with (@nil (domain * qrow)); [done|]. symmetry. apply list_nil_iff_no_elem.
    intros [d' r'] [Hk Hin]%elem_of_List_filter. apply bool_decide_eq_true in Hk. apply elem_of_map in Hin as (x & [= -> ->] & _).
    unfold group_key in Hk. cbn in Hk. congruence.
Qed.

Definition counted (d : domain) (st : status) (q : queue) : QueueBreakdown :=
  {| qb_DomainID := DID d; qb_DomainName := DName d; qb_Status := st; qb_Count := rows_affected (held_by d st) q;
     qb_Bytes := sum_sizes (List.filter (held_by d st) q) |}.

Lemma group_row_counted ds q d st :
  NoDup (map DID ds) -> d ∈ ds -> 0 < rows_affected (held_by d st) q -> group_row (joined ds q) (DID d, st) = counted d st q.
Proof.
  intros Hnd Hd Hn. unfold group_row, counted. cbn [fst snd]. rewrite group_of by done. f_equal.
  - unfold rows_affected in Hn. by destruct (List.filter (held_by d st) q).
  - unfold rows_affected. by rewrite length_map.
  - rewrite map_map. by rewrite map_id.
Qed.

(** One group for each domain and status that has rows, with their number and their bytes. *)
Lemma elem_of_Breakdown ds q b :
  NoDup (map DID ds) ->
  b ∈ Breakdown ds q <-> exists d st, d ∈ ds /\ 0 < rows_affected (held_by d st) q /\ b = counted d st q.
Proof.
  intros Hnd. unfold Breakdown. rewrite merge_sort_Permutation, elem_of_map. setoid_rewrite elem_of_remove_dups.
  assert (Hkey : forall d st, d ∈ ds -> 0 < rows_affected (held_by d st) q <-> (DID d, st) ∈ map group_key (joined ds q)).
  { intros d st Hd. rewrite elem_of_map. split.
    - intros Hn. unfold rows_affected in Hn. destruct (List.filter (held_by d st) q) as [|r rs] eqn:E; [done|].
      assert (Hr : r ∈ List.filter (held_by d st) q) by (rewrite E; left). apply elem_of_List_filter in Hr as [Hr Hin].
      unfold held_by in Hr. bools. exists (d, r). split; [by unfold group_key; cbn; f_equal|]. by apply elem_of_joined.
    - intros ([d' r] & Hk & Hj). apply elem_of_joined in Hj as (Hd' & Hr & Hid). unfold group_key in Hk. cbn in Hk.
      unfold rows_affected. assert (Hin : r ∈ List.filter (held_by d st) q).
      { apply elem_of_List_filter. split; [|done]. unfold held_by. apply andb_true_iff. split; [apply Z.eqb_eq|apply bool_decide_eq_true]; congruence. }
      destruct (List.filter (held_by d st) q); [by apply not_elem_of_nil in Hin|cbn; lia]. }
  split.
  - intros ([id st] & -> & Hk). pose proof Hk as Hk'. apply elem_of_map in Hk' as ([d r] & [= -> ->] & Hj).
    apply elem_of_joined in Hj as (Hd & Hr & Hid). rewrite <- Hid in *. exists d, (row_status r).
    assert (Hn : 0 < rows_affected (held_by d (row_status r)) q) by (by apply Hkey). split_and!; [done..|by apply group_row_counted].
  - intros (d & st & Hd & Hn & ->). exists (DID d, st). split; [by rewrite group_row_counted|by apply Hkey].
Qed.

(** ** The whole page *)

Definition message_labels (b : QueueBreakdown) : list label :=
  [(T "domain", qb_DomainName b); (T "status", status_text (qb_Status b))].

Definition section (name help : text) : list line := [Help name help; Type_ name "gauge"%string].

Definition page_lines (ci : CollectorInfo) (uptime : Z) (counts : counter -> Z) (stats : QueueStats) (oldest : Z)
  (rows : list QueueBreakdown) (health : list DomainHealth) : list line :=
  family "xeronmx_build_info"%string "gauge"%string "Build information, always 1."%string (of_Z 1)
    [(T "commit", ci_commit ci); (T "version", ci_version ci)]
  ++ family "xeronmx_uptime_seconds"%string "gauge"%string "Seconds since the process started."%string (Seconds uptime) []
  ++ flat_map (fun c : string * string * counter => family (T c.1.1) "counter"%string (T c.1.2) (of_Z (counts c.2)) []) counters
  ++ family "xeronmx_queue_pending"%string "gauge"%string "Messages waiting for the primary."%string (of_Z (Pending stats)) []
  ++ family "xeronmx_queue_pending_bytes"%string "gauge"%string "Bytes waiting on the spool."%string (of_Z (PendingBytes stats)) []
  ++ family "xeronmx_queue_rows"%string "gauge"%string "Rows in the queue table, delivered history included."%string (of_Z (Total stats)) []
  ++ family "xeronmx_queue_oldest_seconds"%string "gauge"%string
       "Age of the longest-waiting message. Zero when the queue is empty."%string (Seconds oldest) []
  ++ section "xeronmx_queue_messages"%string "Messages by domain and status."%string
  ++ map (fun b => Sample "xeronmx_queue_messages"%string (message_labels b) (format_g (of_Z (qb_Count b)))) rows
  ++ section "xeronmx_primary_up"%string "1 when the domain primary answered its last probes."%string
  ++ map (fun dh : DomainHealth => Sample "xeronmx_primary_up"%string [(T "domain", DName dh.1)] (format_g (of_bool (is_up dh)))) health
  ++ section "xeronmx_domain_enabled"%string "1 when XeronMX accepts mail for the domain."%string
  ++ map (fun dh : DomainHealth => Sample "xeronmx_domain_enabled"%string [(T "domain", DName dh.1)] (format_g (of_bool (DEnabled dh.1)))) health
  ++ family "xeronmx_goroutines"%string "gauge"%string "Goroutines currently running."%string (of_Z (ci_goroutines ci)) []
  ++ family "xeronmx_memory_heap_bytes"%string "gauge"%string "Heap bytes in use."%string (of_Z (ci_heap ci)) [].

Ltac literal := apply (bool_decide_unpack _); vm_compute; exact I.

Lemma wrote_process ci uptime writes :
  let names := [T "xeronmx_uptime_seconds"; T "xeronmx_build_info"] in
  exists ls, ls = family "xeronmx_build_info"%string "gauge"%string "Build information, always 1."%string (of_Z 1)
      [(T "commit", ci_commit ci); (T "version", ci_version ci)]
    ++ family "xeronmx_uptime_seconds"%string "gauge"%string "Seconds since the process started."%string (Seconds uptime) [] /\
  wrote names ls (write_process ci uptime (Builder [] None [] writes)).
Proof.
  eexists. split; [reflexivity|]. unfold write_process.
  apply (wrote_gauge _ _ _ _ _ []); [|literal|done|literal|done].
  apply (wrote_gauge [] [] _ _ _ [(T "version", ci_version ci); (T "commit", ci_commit ci)]); [|literal|done|literal|by repeat constructor].
  split_and!; [done|constructor|done|apply prefix_nil].
Qed.

(** The names used after the counters, the last one first. *)
Definition after_counters : list text :=
  map T ["xeronmx_memory_heap_bytes"; "xeronmx_goroutines"; "xeronmx_domain_enabled"; "xeronmx_primary_up"; "xeronmx_queue_messages"; "xeronmx_queue_oldest_seconds"; "xeronmx_queue_rows"; "xeronmx_queue_pending_bytes"; "xeronmx_queue_pending"]%string.

Ltac unused Hf := rewrite ?not_elem_of_cons; split_and?; first [literal | apply Hf; literal].
Ltac one_gauge Hf := apply (wrote_gauge _ _ _ _ _ []); [|unused Hf|reflexivity|literal|constructor].
Ltac one_section Hf :=
  apply wrote_samples; [apply wrote_header; [|unused Hf|reflexivity|literal|literal]|reflexivity|by repeat constructor].

Lemma wrote_page ci uptime counts stats oldest rows health writes :
  exists seen, wrote seen (page_lines ci uptime counts stats oldest rows health)
    (write_runtime ci (write_health health (write_breakdown rows (gauge "xeronmx_queue_oldest_seconds"%string
        "Age of the longest-waiting message. Zero when the queue is empty."%string (Seconds oldest) []
      (write_stats stats (write_counters counts (write_process ci uptime (Builder [] None [] writes)))))))).
Proof.
  destruct (wrote_process ci uptime writes) as (ls & El & Hw). unfold page_lines. rewrite !(app_assoc (family "xeronmx_build_info"%string _ _ _ _)), <- El.
  apply (wrote_counters _ _ counts _ counters) in Hw as (seen & Hs & Hw); [|vm_compute; reflexivity|literal].
  assert (Hf : forall n, n ∈ after_counters -> n ∉ seen).
  { apply Forall_forall, (Forall_impl (fun n => n ∉ map (fun c : string * string * counter => T c.1.1) counters
      ++ [T "xeronmx_uptime_seconds"; T "xeronmx_build_info"])); [literal|]. intros n Hn. by rewrite Hs. }
  exists (after_counters ++ seen). cbn [after_counters map app]. rewrite !app_assoc. unfold write_runtime, write_health, write_breakdown, write_stats, write_counters.
  do 2 one_gauge Hf.
  do 2 one_section Hf.
  one_section Hf.
  do 4 one_gauge Hf. exact Hw.
Qed.

(** ** Finding a family in the page *)

Lemma samples_of_app name a b : samples_of name (a ++ b) = samples_of name a ++ samples_of name b.
Proof. apply omap_app. Qed.

Lemma samples_of_family name n typ help v labels :
  samples_of name (family n typ help v labels) = if bool_decide (n = name) then [(labels, format_g v)] else [].
Proof. unfold samples_of, family. cbn. by destruct (bool_decide _). Qed.

Lemma samples_of_section name n help : samples_of name (section n help) = [].
Proof. done. Qed.

Lemma samples_of_map {A} name n (labels : A -> list label) v xs :
  samples_of name (map (fun x => Sample n (labels x) (v x)) xs) = if bool_decide (n = name) then map (fun x => (labels x, v x)) xs else [].
Proof. unfold samples_of. induction xs as [|x xs IH]; cbn; [by case_bool_decide|]. rewrite IH. by case_bool_decide. Qed.

Lemma samples_of_counters name counts cs :
  samples_of name (flat_map (fun c : string * string * counter => family (T c.1.1) "counter"%string (T c.1.2) (of_Z (counts c.2)) []) cs) =
  map (fun c => ([], format_g (of_Z (counts c.2)))) (List.filter (fun c : string * string * counter => bool_decide (T c.1.1 = name)) cs).
Proof.
  induction cs as [|c cs IH]; [done|]. cbn [flat_map List.filter]. rewrite samples_of_app, samples_of_family, IH. by case_bool_decide.
Qed.

Ltac find_samples :=
  unfold page_lines; rewrite ?samples_of_app, ?samples_of_counters, ?samples_of_family, ?samples_of_section, ?samples_of_map;
  repeat match goal with |- context [bool_decide (T ?a = T ?b)] =>
    let v := eval vm_compute in (bool_decide (T a = T b)) in change (bool_decide (T a = T b)) with v end;
  cbn [app].

Definition no_counter (name : text) : bool := forallb (fun c : string * string * counter => negb (bool_decide (T c.1.1 = name))) counters.

Lemma no_counter_filter name : no_counter name = true -> List.filter (fun c : string * string * counter => bool_decide (T c.1.1 = name)) counters = [].
Proof.
  unfold no_counter. intros Hn. apply list_nil_iff_no_elem. intros c [Hc Hin]%elem_of_List_filter. rewrite forallb_forall in Hn.
  apply list_elem_of_In, Hn in Hin. by rewrite Hc in Hin.
Qed.

Lemma counter_alone c : c ∈ counters -> List.filter (fun c' : string * string * counter => bool_decide (T c'.1.1 = T c.1.1)) counters = [c].
Proof. revert c. apply Forall_forall. unfold counters at 1. repeat constructor. Qed.

Lemma other_names n c : n ∈ after_counters ++ [T "xeronmx_uptime_seconds"; T "xeronmx_build_info"] -> c ∈ counters -> n <> T c.1.1.
Proof.
  intros Hn Hc. revert n Hn. apply Forall_forall. revert c Hc. apply Forall_forall. literal.
Qed.

Section found.
Context (ci : CollectorInfo) (uptime : Z) (counts : counter -> Z) (stats : QueueStats) (oldest : Z).
Context (rows : list QueueBreakdown) (health : list DomainHealth).
Abbreviation page := (page_lines ci uptime counts stats oldest rows health).

Lemma found_pending : samples_of "xeronmx_queue_pending"%string page = [([], format_g (of_Z (Pending stats)))].
Proof. find_samples. by rewrite no_counter_filter. Qed.
Lemma found_bytes : samples_of "xeronmx_queue_pending_bytes"%string page = [([], format_g (of_Z (PendingBytes stats)))].
Proof. find_samples. by rewrite no_counter_filter. Qed.
Lemma found_rows : samples_of "xeronmx_queue_rows"%string page = [([], format_g (of_Z (Total stats)))].
Proof. find_samples. by rewrite no_counter_filter. Qed.
Lemma found_oldest : samples_of "xeronmx_queue_oldest_seconds"%string page = [([], format_g (Seconds oldest))].
Proof. find_samples. by rewrite no_counter_filter. Qed.
Lemma found_messages :
  samples_of "xeronmx_queue_messages"%string page = map (fun b => (message_labels b, format_g (of_Z (qb_Count b)))) rows.
Proof. find_samples. by rewrite no_counter_filter, !app_nil_r. Qed.
Lemma found_up :
  samples_of "xeronmx_primary_up"%string page =
  map (fun dh : DomainHealth => ([(T "domain", DName dh.1)], format_g (of_bool (is_up dh)))) health.
Proof. find_samples. by rewrite no_counter_filter, !app_nil_r. Qed.
Lemma found_enabled :
  samples_of "xeronmx_domain_enabled"%string page =
  map (fun dh : DomainHealth => ([(T "domain", DName dh.1)], format_g (of_bool (DEnabled dh.1)))) health.
Proof. find_samples. by rewrite no_counter_filter, !app_nil_r. Qed.

Lemma found_counter c : c ∈ counters -> samples_of (T c.1.1) page = [([], format_g (of_Z (counts c.2)))].
Proof.
  intros Hc. unfold page_lines. rewrite !samples_of_app, samples_of_counters, !samples_of_family, !samples_of_section, !samples_of_map.
  rewrite counter_alone by done. rewrite !(bool_decide_eq_false_2 (_ = T c.1.1)); [done|..]; eapply other_names; try exact Hc; literal.
Qed.
End found.

(** ** The page tells the state *)

Section tells.
Context (md : mode).

(** What the table of statuses says of a domain. *)
Definition known_up (s : state) (d : domain) : bool :=
  match dt_primary (s_domains s) !! DID d with Some st => IsUp st | None => false end.

(** The age of the message that waits longest, or none when none waits or, when the database
    may fail, it could not be read. *)
Definition oldest_age (s s' : state) (age : Z) : Prop :=
  (exists r, r ∈ s_queue s /\ is_pending r = true /\ age = s_now s' - ReceivedAt (q_msg r) /\
     forall r', r' ∈ s_queue s -> is_pending r' = true -> time_leb (ReceivedAt (q_msg r)) (ReceivedAt (q_msg r')) = true)
  \/ age = 0 /\ ((forall r, r ∈ s_queue s -> is_pending r = false) \/ no_faults md = false).

(** What the lines of a page say, when they tell the state: each family has its samples and no
    others.  A domain whose status could not be read is shown as down. *)
Record tells (s s' : state) (ls : list line) : Prop := Tells {
  tells_counters : forall c, c ∈ counters -> samples_of (T c.1.1) ls = [([], format_g (of_Z (s_counts s c.2)))];
  tells_pending : samples_of "xeronmx_queue_pending"%string ls = [([], format_g (of_Z (Pending (Stats (s_queue s)))))];
  tells_bytes : samples_of "xeronmx_queue_pending_bytes"%string ls = [([], format_g (of_Z (PendingBytes (Stats (s_queue s)))))];
  tells_rows : samples_of "xeronmx_queue_rows"%string ls = [([], format_g (of_Z (Z.of_nat (length (s_queue s)))))];
  tells_oldest : exists age, samples_of "xeronmx_queue_oldest_seconds"%string ls = [([], format_g (Seconds age))] /\
    oldest_age s s' age;
  tells_messages : forall labels v, (labels, v) ∈ samples_of "xeronmx_queue_messages"%string ls <->
    exists d st, d ∈ dt_domains (s_domains s) /\ 0 < rows_affected (held_by d st) (s_queue s) /\
      labels = [(T "domain", DName d); (T "status", status_text st)] /\
      v = format_g (of_Z (rows_affected (held_by d st) (s_queue s)));
  tells_enabled : samples_of "xeronmx_domain_enabled"%string ls =
    map (fun d => ([(T "domain", DName d)], format_g (of_bool (DEnabled d)))) (ListDomains (dt_domains (s_domains s)));
  tells_up : Forall2 (fun d found => exists up, found = ([(T "domain", DName d)], format_g (of_bool up)) /\
      (up = known_up s d \/ no_faults md = false /\ up = false))
    (ListDomains (dt_domains (s_domains s))) (samples_of "xeronmx_primary_up"%string ls)
}.

(** A domain and what was read of it. *)
Definition health_of (s : state) (d : domain) (dh : DomainHealth) : Prop :=
  fst dh = d /\ (is_up dh = known_up s d \/ no_faults md = false /\ is_up dh = false).

Lemma wp_domain_health ds s :
  wp md (domain_health ds) (fun hs s' => s' = s /\ Forall2 (health_of s) ds hs) s.
Proof.
  induction ds as [|d ds IH]; cbn [domain_health]; [by apply wp_ret|].
  apply wp_bind, wp_query; [intros e Hm|]; apply wp_bind; (eapply wp_mono; [exact IH|]);
    cbn; intros hs s' (-> & Hh); apply wp_ret; (split; [done|]); constructor; auto.
  - split; [done|by right].
  - split; [done|left]. unfold is_up, known_up. cbn. by destruct (dt_primary _ !! DID d).
Qed.

Lemma oldest_received_age s t : oldest_received (s_queue s) = Ok t -> forall s', oldest_age s s' (s_now s' - t).
Proof.
  unfold oldest_received. intros Ho s'. left.
  pose proof (merge_sort_Permutation received_le (List.filter is_pending (s_queue s))) as Hp.
  assert (Transitive received_le) by (intros ???; apply time_leb_trans).
  assert (base.Total received_le) by (intros a b; apply time_leb_total).
  pose proof (StronglySorted_merge_sort received_le (List.filter is_pending (s_queue s))) as Hs.
  destruct (merge_sort _ _) as [|r rs]; [done|]. injection Ho as <-.
  assert (Hel : forall x, x ∈ r :: rs <-> x ∈ s_queue s /\ is_pending x = true).
  { intros x. rewrite Hp, elem_of_List_filter. tauto. }
  exists r. destruct (proj1 (Hel r)) as [Hin Hpr]; [constructor|]. split_and!; [done..|]. intros r' Hr' Hpr'.
  assert (Hx : r' ∈ r :: rs) by by apply Hel. apply elem_of_cons in Hx as [->|Hx]; [apply time_leb_refl|].
  apply StronglySorted_inv in Hs as [_ Hall]. rewrite Forall_forall in Hall. by apply Hall.
Qed.

Lemma oldest_received_none s e : oldest_received (s_queue s) = Err e -> forall r, r ∈ s_queue s -> is_pending r = false.
Proof.
  unfold oldest_received. intros Ho r Hr. destruct (is_pending r) eqn:E; [|done].
  pose proof (merge_sort_Permutation received_le (List.filter is_pending (s_queue s))) as Hp.
  destruct (merge_sort _ _) as [|r0 rs]; [|done].
  assert (Hx : r ∈ List.filter is_pending (s_queue s)) by by apply elem_of_List_filter. rewrite <- Hp in Hx. inv Hx.
Qed.

Lemma wp_OldestQueued s (P : Z -> state -> Prop) :
  (forall age t, oldest_age s (set_s_now t s) age -> P age (set_s_now t s)) -> wp md OldestQueued P s.
Proof.
  intros HP. assert (E : set_s_now (s_now s) s = s) by by destruct s.
  assert (H0 : oldest_age s s 0 -> P 0 s) by (intros Ha; specialize (HP 0 (s_now s)); rewrite E in HP; auto).
  unfold OldestQueued. apply wp_bind, wp_query.
  - intros e Hm. apply wp_ret, H0. by right; auto.
  - destruct (oldest_received _) as [t|e] eqn:Eo.
    + apply wp_bind, wp_now. intros t' _. apply wp_ret, HP. by apply oldest_received_age.
    + apply wp_ret, H0. right. split; [done|]. left. by eapply oldest_received_none.
Qed.

Lemma page_tells ci uptime oldest health s s' :
  NoDup (map DID (dt_domains (s_domains s))) -> oldest_age s s' oldest ->
  Forall2 (health_of s) (ListDomains (dt_domains (s_domains s))) health ->
  tells s s' (page_lines ci uptime (s_counts s) (Stats (s_queue s)) oldest (Breakdown (dt_domains (s_domains s)) (s_queue s)) health).
Proof.
  intros Hnd Hage Hh. split.
  - intros c Hc. by apply found_counter.
  - apply found_pending.
  - apply found_bytes.
  - apply found_rows.
  - exists oldest. by rewrite found_oldest.
  - intros labels v. rewrite found_messages, elem_of_map. setoid_rewrite elem_of_Breakdown; [|done]. split.
    + intros (b & [= -> ->] & d & st & Hd & Hn & ->). by exists d, st.
    + intros (d & st & Hd & Hn & -> & ->). exists (counted d st (s_queue s)). split; [done|]. by exists d, st.
  - rewrite found_enabled. assert (E : ListDomains (dt_domains (s_domains s)) = map fst health).
    { clear Hnd. induction Hh as [|d dh ds hs [<- _] _ IH]; [done|]. cbn. by rewrite IH. }
    by rewrite E, map_map.
  - rewrite found_up. apply Forall2_fmap_r. eapply Forall2_impl; [exact Hh|]. intros d dh [<- Hup]. by exists (is_up dh).
Qed.
End tells.

(** C22: a page of metrics that was written without an error reads back, by the definition of the exposition format, as
    what the tables and the counters hold: a sample for each counter, the depth of the queue, the age of the message
    that waits longest, the number of rows of each domain and status that has some, and of each domain whether it is
    switched on and whether its primary is up, whatever bytes their names are made of.  Without faults of the
    database that is exactly so; a status that could not be read is shown as down, an age that could not be as zero. *)
Theorem metrics_tell_the_state md ci writes s e :
  NoDup (map DID (dt_domains (s_domains s))) -> allows md e ->
  let '((err, out), w') := Write ci writes (World s e) in
  s_queue (st w') = s_queue s /\ s_domains (st w') = s_domains s /\
  (err = None -> exists ls, read_page out = Some ls /\ tells md s (st w') ls).
Proof.
  intros Hnd He.
  set (Q := fun (r : option error * text) (s' : state) => s_queue s' = s_queue s /\ s_domains s' = s_domains s /\
    (r.1 = None -> exists ls, read_page r.2 = Some ls /\ tells md s s' ls)).
  assert (Hwp : wp md (Write ci writes) Q s).
  { unfold Write. apply wp_bind, wp_now. intros t _. apply wp_bind, wp_get.
    apply wp_bind, wp_query; [intros ? _; by apply wp_ret|]. apply wp_bind, wp_OldestQueued. intros age u Hage.
    unfold write_tables. apply wp_bind, wp_query; [intros ? _; by apply wp_ret|]. apply wp_bind. unfold AllDomainHealth.
    apply wp_bind, wp_query; [intros ? _; apply wp_ret; by apply wp_ret|]. apply wp_bind.
    eapply wp_mono; [apply wp_domain_health|]. intros health s' (-> & Hh). apply wp_ret, wp_ret. split_and!; [done..|].
    cbn [fst snd]. intros Herr.
    change (s_domains (set_s_now u (set_s_now t s))) with (s_domains s) in *.
    change (s_queue (set_s_now u (set_s_now t s))) with (s_queue s) in *.
    change (s_queue (set_s_now t s)) with (s_queue s) in *. change (s_counts (set_s_now t s)) with (s_counts s) in *.
    destruct (wrote_page ci (t - ci_start ci) (s_counts s) (Stats (s_queue s)) age
      (Breakdown (dt_domains (s_domains s)) (s_queue s)) health writes) as (seen & _ & Hg & Hw & _).
    eexists. split; [rewrite Hw by exact Herr; by apply read_page_render|]. by apply page_tells. }
  pose proof (wp_run md _ _ _ _ He Hwp) as Hrun.
  destruct (Write ci writes (World s e)) as [[err out] w']. exact Hrun.
Qed.

(** A domain whose name has a quote, a backslash and a line feed in it, with one message waiting. *)
Definition sample_metrics : state :=
  set_s_queue [QRow (Msg "m1"%string 7 "a@x"%string [T "b@y"] [] 12 5 100 StatusQueued 0 5 [] None [] DirectionInbound None [] None [] [] false []) None []]
    (set_s_domains (DomainTables [Domain 7 ([DQ; BS; LF] ++ T "up 1") "h"%string 25 "tls"%string None None 24 true 0 0] (<[7 := fresh_primary]> ∅) 8) blank).

Definition sample_info : CollectorInfo := {| ci_version := "1"%string; ci_commit := "abc"%string; ci_start := 0; ci_goroutines := 9; ci_heap := 4096 |}.

Definition faultless : mode := Assume true true true (fun _ => True) (fun _ => False).

Lemma metrics_tell_the_state_witness :
  let '((err, out), w') := Write sample_info [] (World sample_metrics quiet) in
  err = None /\ exists ls, read_page out = Some ls /\ tells faultless sample_metrics (st w') ls.
Proof.
  assert (Ha : allows faultless quiet) by by repeat constructor.
  pose proof (metrics_tell_the_state faultless sample_info [] sample_metrics quiet ltac:(apply NoDup_singleton) Ha) as H.
  assert (E : fst (fst (Write sample_info [] (World sample_metrics quiet))) = None) by (vm_compute; reflexivity).
  destruct (Write sample_info [] (World sample_metrics quiet)) as [[err out] w']. destruct H as (_ & _ & H). split; [exact E|exact (H E)].
Defined.
