(* ===== verification/Backup.v ===== *)
(** * The database file: its schema (internal/store/store.go) and its backups (internal/backup/backup.go)

    Opening a database brings its schema to the version of the program, in one transaction.
    The backups are files of one directory, named by the second they were made in; every
    operation on the directory may fail. *)

From S2P Require Import Prelude GoStrings Times Errors.
Open Scope Z_scope.

(** ** Opening the database *)

Definition schemaVersion : Z := 10.

Definition dsn (path : text) : text :=
  path ++ T "?_txlock=immediate" ++ T "&_pragma=journal_mode(WAL)" ++ T "&_pragma=busy_timeout(10000)"
  ++ T "&_pragma=foreign_keys(ON)" ++ T "&_pragma=synchronous(NORMAL)".

Section migrate.
(** What the schema scripts do to the tables; [scripts] are [schemaSQL] to [schemaV10SQL], in this order. *)
Context {Tables : Type} (scripts : list (Tables -> result Tables)).

Record database := Database { user_version : Z; tables : Tables }.

(** [if current < n { tx.ExecContext(schemaVn) }], from [n] on. *)
Fixpoint apply_scripts (current n : Z) (ss : list (Tables -> result Tables)) (t : Tables) : result Tables :=
  match ss with
  | [] => Ok t
  | s :: ss =>
      if current <? n then
        match s t with
        | Err e => Err (EWrap (T "store: apply schema v" ++ dec n) e)
        | Ok t => apply_scripts current (n + 1) ss t
        end
      else apply_scripts current (n + 1) ss t
  end.

(** How the statements around the scripts go: reading the version, the begin, setting the version, the commit. *)
Record migration_faults := {
  mf_read : option error;
  mf_begin : option error;
  mf_version : option error;
  mf_commit : option error
}.

(** [migrate]: what is not committed is rolled back. *)
Definition migrate (f : migration_faults) (d : database) : result unit * database :=
  match mf_read f with
  | Some e => (Err (EWrap "store: read user_version"%string e), d)
  | None =>
      let current := user_version d in
      if current =? schemaVersion then (Ok tt, d)
      else if schemaVersion <? current then
        (Err (EText (T "store: database is schema v" ++ dec current ++ T ", this binary understands v" ++ dec schemaVersion
                     ++ T ": downgrading is not supported")), d)
      else
        match mf_begin f with
        | Some e => (Err (EWrap "store: begin migration"%string e), d)
        | None =>
            match apply_scripts current 1 scripts (tables d) with
            | Err e => (Err e, d)
            | Ok t =>
                match mf_version f, mf_commit f with
                | Some e, _ => (Err (EWrap "store: set user_version"%string e), d)
                | None, Some e => (Err e, d)
                | None, None => (Ok tt, Database schemaVersion t)
                end
            end
        end
  end.

(** [Open]: the directory, the driver and the first contact may fail; a database that cannot be migrated is closed. *)
Definition Open (mkdir driver ping : option error) (f : migration_faults) (d : database) : result database * database :=
  match mkdir, driver, ping with
  | Some e, _, _ => (Err (EWrap "store: create data dir"%string e), d)
  | None, Some e, _ => (Err (EWrap "store: open"%string e), d)
  | None, None, Some e => (Err (EWrap "store: ping"%string e), d)
  | None, None, None =>
      match migrate f d with
      | (Err e, d) => (Err e, d)
      | (Ok _, d) => (Ok d, d)
      end
  end.

(** The scripts a database of version [current] has not seen, one after the other. *)
Definition pending (current : Z) : list (Tables -> result Tables) := drop (Z.to_nat current) scripts.

Fixpoint run_all (ss : list (Tables -> result Tables)) (t : Tables) : result Tables :=
  match ss with
  | [] => Ok t
  | s :: ss => match s t with Err e => Err e | Ok t => run_all ss t end
  end.
End migrate.

(** ** The directory of the backups *)

Record entry := Entry { en_dir : bool; en_mod : Z; en_body : text }.

(** The directory, the clock, what the operations to come meet (an error, and what a snapshot that fails leaves
    behind), and what the runner remembers. *)
Record disk := Disk {
  k_made : bool;
  k_files : gmap text entry;
  k_now : Z;
  k_ticks : list nat;
  k_faults : list (option (error * option text));
  k_last : option Z;
  k_lastOK : bool
}.

Definition with_files (f : gmap text entry) (k : disk) : disk := Disk (k_made k) f (k_now k) (k_ticks k) (k_faults k) (k_last k) (k_lastOK k).
Definition with_faults (f : list (option (error * option text))) (k : disk) : disk :=
  Disk (k_made k) (k_files k) (k_now k) (k_ticks k) f (k_last k) (k_lastOK k).

Definition F (A : Type) : Type := disk -> A * disk.
Definition done_ {A} (a : A) : F A := fun k => (a, k).
Definition andThen {A B} (m : F A) (f : A -> F B) : F B := fun k => let '(a, k) := m k in f a k.
Notation "'do*' x <- m 'in' r" := (andThen m (fun x => r)) (at level 10, x binder, m at level 100, r at level 200).

(** An operation meets the next fault, or does [f]. *)
Definition io {A} (f : disk -> result A * disk) : F (result A) := fun k =>
  match k_faults k with
  | Some (e, _) :: fs => (Err e, with_faults fs k)
  | None :: fs => f (with_faults fs k)
  | [] => f k
  end.

Definition clock : F Z := fun k =>
  let '(d, ts) := match k_ticks k with [] => (O, []) | d :: ts => (d, ts) end in
  let t := k_now k + Z.of_nat d in
  (t, Disk (k_made k) (k_files k) t ts (k_faults k) (k_last k) (k_lastOK k)).

Definition MkdirAll : F (result unit) := io (fun k => (Ok tt, Disk true (k_files k) (k_now k) (k_ticks k) (k_faults k) (k_last k) (k_lastOK k))).

Definition no_such_file : error := EText "no such file or directory"%string.

Definition Stat (name : text) : F (result entry) :=
  io (fun k => (match k_files k !! name with Some e => Ok e | None => Err no_such_file end, k)).

Definition Remove (name : text) : F (result unit) :=
  io (fun k => match k_files k !! name with Some _ => (Ok tt, with_files (delete name (k_files k)) k) | None => (Err no_such_file, k) end).

(** [os.ReadDir]: by name. *)
Definition name_le (a b : text * entry) : Prop := text_leb a.1 b.1 = true.

#[export] Instance backup_name_le_dec a b : Decision (name_le a b).
Proof. unfold name_le. apply _. Defined.

Definition ReadDir : F (result (list (text * entry))) :=
  io (fun k => (if k_made k then Ok (merge_sort name_le (map_to_list (k_files k))) else Err no_such_file, k)).

(** [VACUUM INTO]: the database as it is then; never over a file that is there.  One that fails may leave a file. *)
Definition Snapshot (db : Z -> text) (name : text) : F (result unit) := fun k =>
  let wrap := fun e => EWrap (T "store: snapshot to " ++ name) e in
  match k_faults k with
  | Some (e, left_) :: fs =>
      (Err (wrap e), match left_ with
                     | Some body => with_files (match k_files k !! name with Some _ => k_files k | None => <[name := Entry false (k_now k) body]> (k_files k) end)
                                      (with_faults fs k)
                     | None => with_faults fs k
                     end)
  | fs =>
      let k := with_faults (tail fs) k in
      match k_files k !! name with
      | Some _ => (Err (wrap (EText "output file already exists"%string)), k)
      | None => (Ok tt, with_files (<[name := Entry false (k_now k) (db (k_now k))]> (k_files k)) k)
      end
  end.

(** ** The runner *)

Record BackupConfig := {
  bc_Enabled : bool;
  bc_Interval : Z;
  bc_Keep : Z
}.

Definition filePrefix : text := "xeronmx-"%string.
Definition fileSuffix : text := ".db"%string.

(** Layout "20060102-150405". *)
Definition stamp (t : Z) : text :=
  let '(y, m, d) := civil (unix_seconds t / 86400) in
  let s := unix_seconds t mod 86400 in
  pad 4 y ++ pad 2 m ++ pad 2 d ++ "-"%string ++ pad 2 (s / 3600) ++ pad 2 (s / 60 mod 60) ++ pad 2 (s mod 60).

Definition backup_name (t : Z) : text := filePrefix ++ stamp t ++ fileSuffix.

Definition is_backup (name : text) : bool := has_prefix filePrefix name && has_suffix fileSuffix name.

(** The latest time of modification of the backups; those whose information cannot be read are passed over. *)
Fixpoint latest (es : list (text * entry)) (acc : Z) : F Z :=
  match es with
  | [] => done_ acc
  | (n, e) :: es =>
      if en_dir e || negb (is_backup n) then latest es acc
      else
        do* info <- Stat n in
        latest es (match info with Ok i => if acc <? en_mod i then en_mod i else acc | Err _ => acc end)
  end.

(** [None] is Go's zero time, before every other. *)
Definition newest (zero : Z) : F (option Z) :=
  do* es <- ReadDir in
  match es with
  | Err _ => done_ None
  | Ok es => do* t <- latest es zero in done_ (if t =? zero then None else Some t)
  end.

Definition note (ok : bool) : F unit :=
  do* t <- clock in
  fun k => (tt, Disk (k_made k) (k_files k) (k_now k) (k_ticks k) (k_faults k) (Some t) ok).

(** Remove one after the other; the first failure ends it. *)
Fixpoint remove_all (names : list text) : F (result unit) :=
  match names with
  | [] => done_ (Ok tt)
  | n :: names =>
      do* r <- Remove n in
      match r with Err e => done_ (Err e) | Ok _ => remove_all names end
  end.

Definition text_le_ (a b : text) : Prop := text_leb a b = true.

#[export] Instance text_le_dec_ a b : Decision (text_le_ a b).
Proof. unfold text_le_. apply _. Defined.

Definition backups (es : list (text * entry)) : list text :=
  map fst (List.filter (fun e => negb (en_dir e.2) && is_backup e.1) es).

Definition prune (cfg : BackupConfig) : F (result unit) :=
  if bc_Keep cfg <=? 0 then done_ (Ok tt)
  else
    do* es <- ReadDir in
    match es with
    | Err e => done_ (Err e)
    | Ok es =>
        let names := backups es in
        if Z.of_nat (length names) <=? bc_Keep cfg then done_ (Ok tt)
        else remove_all (take (length names - Z.to_nat (bc_Keep cfg)) (merge_sort text_le_ names))
    end.

(** What is there under the name goes first. *)
Definition clear (name : text) : F (result unit) :=
  do* there <- Stat name in
  match there with
  | Err _ => done_ (Ok tt)
  | Ok _ =>
      do* r <- Remove name in
      done_ match r with
            | Err e => Err (EWrap (T "backup: clear the previous file at " ++ name) e)
            | Ok _ => Ok tt
            end
  end.

Definition Once (db : Z -> text) (cfg : BackupConfig) : F (result text) :=
  do* made <- MkdirAll in
  match made with
  | Err e => done_ (Err (EWrap "backup: create directory"%string e))
  | Ok _ =>
      do* t <- clock in
      let name := backup_name t in
      do* cleared <- clear name in
      match cleared with
      | Err e => done_ (Err e)
      | Ok _ =>
          do* r <- Snapshot db name in
          match r with
          | Err e => do* _ <- note false in done_ (Err e)
          | Ok _ =>
              do* _ <- Stat name in                  (* the size, for the log *)
              do* _ <- note true in
              do* _ <- prune cfg in
              done_ (Ok name)
          end
      end
  end.

Fixpoint rounds (db : Z -> text) (cfg : BackupConfig) (n : nat) : F unit :=
  match n with
  | O => done_ tt
  | S n => do* _ <- Once db cfg in rounds db cfg n
  end.

Definition interval (cfg : BackupConfig) : Z := if bc_Interval cfg <=? 0 then 24 * hour else bc_Interval cfg.

(** [Run], stopped after [ticks] ticks. *)
Definition Run (db : Z -> text) (zero : Z) (cfg : BackupConfig) (ticks : nat) : F unit :=
  if negb (bc_Enabled cfg) then done_ tt
  else
    do* last <- newest zero in
    do* now <- clock in
    do* _ <- (match last with
              | Some t => if interval cfg <=? now - t then do* _ <- Once db cfg in done_ tt else done_ tt
              | None => do* _ <- Once db cfg in done_ tt
              end) in
    rounds db cfg ticks.

(** * Guarantees *)

(** ** The schema *)

Section migration.
Context {Tables : Type} (scripts : list (Tables -> result Tables)).

Lemma apply_scripts_pending current n ss (t t' : Tables) :
  apply_scripts current n ss t = Ok t' -> 1 <= n -> run_all (drop (Z.to_nat (current - (n - 1))) ss) t = Ok t'.
Proof.
  revert n t. induction ss as [|s ss IH]; intros n t; cbn [apply_scripts]; [intros [= ->] _; by rewrite drop_nil|].
  intros H Hn. destruct (Z.ltb_spec current n).
  - destruct (s t) as [t1|] eqn:Es; [|done]. apply IH in H; [|lia]. replace (Z.to_nat (current - (n - 1))) with O by lia.
    replace (Z.to_nat (current - (n + 1 - 1))) with O in H by lia. cbn. by rewrite Es.
  - apply IH in H; [|lia]. replace (Z.to_nat (current - (n - 1))) with (S (Z.to_nat (current - (n + 1 - 1)))) by lia. done.
Qed.

(** A migration that succeeds has run, in order, exactly the scripts the database had not seen; one that fails, for whatever
    reason, changes nothing; a database of a later version is refused, and one of this version left alone. *)
Theorem migrate_all_or_nothing f d :
  let '(r, d') := migrate scripts f d in
  match r with
  | Err _ => d' = d
  | Ok _ => user_version d' = schemaVersion /\ user_version d <= schemaVersion /\
            (d' = d \/ run_all (pending scripts (user_version d)) (tables d) = Ok (tables d'))
  end.
Proof.
  unfold migrate. destruct (mf_read f); [done|]. destruct (Z.eqb_spec (user_version d) schemaVersion) as [E|E]; [split_and!; [done|lia|by left]|].
  destruct (Z.ltb_spec schemaVersion (user_version d)); [done|]. destruct (mf_begin f); [done|].
  destruct (apply_scripts _ 1 _ _) as [t|e] eqn:Ea; [|done]. destruct (mf_version f), (mf_commit f); try done. split_and!; [done|lia|]. right.
  apply apply_scripts_pending in Ea; [|lia]. unfold pending. cbn [tables]. by replace (user_version d - (1 - 1)) with (user_version d) in Ea by lia.
Qed.

(** What is open has the version of the program. *)
Theorem Open_version mkdir driver ping f d d0 d' :
  Open scripts mkdir driver ping f d = (Ok d0, d') -> user_version d0 = schemaVersion /\ d' = d0.
Proof.
  unfold Open. destruct mkdir, driver, ping; try done. pose proof (migrate_all_or_nothing f d) as H.
  destruct (migrate scripts f d) as [[u|e] d1]; [|done]. intros [= <- <-]. by destruct H.
Qed.
End migration.

(** ** Names in the order of time *)

Lemma stamp_before a b : year_four a -> year_four b -> unix_seconds a < unix_seconds b -> text_compare (backup_name a) (backup_name b) = Lt.
Proof.
  intros Ha Hb Hlt. pose proof (year_four_days a Ha) as Hda. pose proof (year_four_days b Hb) as Hdb.
  unfold backup_name, stamp. change (unix_seconds a mod 86400) with (day_second a). change (unix_seconds b mod 86400) with (day_second b).
  destruct (civil (unix_seconds a / 86400)) as [[y m] d] eqn:E. destruct (civil (unix_seconds b / 86400)) as [[y' m'] d'] eqn:E'.
  pose proof (civil_year_bounds _ _ _ _ Hda E) as (?&?&?). pose proof (civil_year_bounds _ _ _ _ Hdb E') as (?&?&?).
  pose proof (day_second_bounds a). pose proof (day_second_bounds b). destruct_and!. rewrite <- !app_assoc.
  repeat first [rewrite text_compare_fields by (cbn; lia) | rewrite text_compare_same]. by apply fields_before.
Qed.

Lemma backup_name_mono a b : year_four a -> year_four b -> a <= b -> text_leb (backup_name a) (backup_name b) = true.
Proof.
  intros Ha Hb Hab. unfold text_leb. assert (unix_seconds a <= unix_seconds b) by (apply Z.div_le_mono; [done|done]).
  destruct (Z.eq_dec (unix_seconds a) (unix_seconds b)) as [E|E]; [|rewrite stamp_before by (done || lia); done].
  unfold backup_name, stamp. rewrite E. by rewrite text_compare_refl.
Qed.

Lemma backup_name_is t : is_backup (backup_name t) = true.
Proof.
  unfold is_backup, backup_name. apply andb_true_iff. split; [apply has_prefix_spec; by eexists|].
  apply has_suffix_spec. exists (filePrefix ++ stamp t). by rewrite app_assoc.
Qed.

(** ** Computations on the directory *)

Definition spec {A} (m : F A) (Q : A -> disk -> Prop) (k : disk) : Prop := Q (fst (m k)) (snd (m k)).

Lemma spec_done {A} (a : A) Q k : Q a k -> spec (done_ a) Q k.
Proof. done. Qed.

Lemma spec_andThen {A B} (m : F A) (f : A -> F B) Q k : spec m (fun a => spec (f a) Q) k -> spec (andThen m f) Q k.
Proof. unfold spec, andThen. by destruct (m k). Qed.

Lemma spec_mono {A} (m : F A) (P Q : A -> disk -> Prop) k : spec m P k -> (forall a k', P a k' -> Q a k') -> spec m Q k.
Proof. unfold spec. auto. Qed.

Lemma with_faults_id k : with_faults (k_faults k) k = k.
Proof. by destruct k. Qed.

Lemma spec_io {A} (f : disk -> result A * disk) Q k :
  (forall e fs, Q (Err e) (with_faults fs k)) -> (forall fs, Q (fst (f (with_faults fs k))) (snd (f (with_faults fs k)))) -> spec (io f) Q k.
Proof.
  intros He Hf. unfold spec, io. destruct (k_faults k) as [|[[e l]|] fs] eqn:E; [|apply He|apply Hf].
  specialize (Hf (k_faults k)). rewrite with_faults_id in Hf. done.
Qed.

Lemma spec_clock Q k : (forall t ts, k_now k <= t -> Q t (Disk (k_made k) (k_files k) t ts (k_faults k) (k_last k) (k_lastOK k))) -> spec clock Q k.
Proof. intros H. unfold spec, clock. destruct (k_ticks k); apply H; cbn; lia. Qed.

(** ** Pruning *)

#[export] Instance text_le_trans_ : Transitive text_le_.
Proof. intros a b c. apply text_leb_trans. Qed.
#[export] Instance text_le_total_ : Total text_le_.
Proof. intros a b. apply text_leb_total. Qed.

(** The backups of the directory with a later name. *)
Definition later (n : text) (files : gmap text entry) : list text :=
  List.filter (fun m => bool_decide (text_compare n m = Lt)) (backups (merge_sort name_le (map_to_list files))).

Lemma elem_of_backups n files : n ∈ backups (merge_sort name_le (map_to_list files)) <-> exists e, files !! n = Some e /\ en_dir e = false /\ is_backup n = true.
Proof.
  unfold backups. rewrite elem_of_map. setoid_rewrite elem_of_List_filter. setoid_rewrite merge_sort_Permutation. split.
  - intros ([n' e] & -> & Hb & Hin). apply elem_of_map_to_list in Hin. cbn in *. apply andb_true_iff in Hb as [Hd Hb].
    exists e. by apply negb_true_iff in Hd.
  - intros (e & He & Hd & Hb). exists (n, e). cbn. rewrite Hd, Hb. by rewrite elem_of_map_to_list.
Qed.

Lemma NoDup_backups files : NoDup (backups (merge_sort name_le (map_to_list files))).
Proof.
  unfold backups. apply (sublist_NoDup _ (map fst (merge_sort name_le (map_to_list files)))).
  - assert (Hp : Permutation (map fst (merge_sort name_le (map_to_list files))) (map fst (map_to_list files))) by (by rewrite merge_sort_Permutation).
    rewrite Hp. apply NoDup_fst_map_to_list.
  - apply fmap_sublist, sublist_List_filter.
Qed.

(** In a sorted list without repetition, each of the last comes after each of those before. *)
Lemma sorted_take_before (l : list text) i x :
  NoDup l -> StronglySorted text_le_ l -> x ∈ take i l ->
  (length l - i <= length (List.filter (fun m => bool_decide (text_compare x m = Lt)) l))%nat.
Proof.
  intros Hnd Hs Hx. rewrite <- (take_drop i l) in Hnd, Hs. rewrite <- length_drop. rewrite <- (take_drop i l) at 2.
  rewrite List.filter_app, length_app, (List_filter_all _ (drop i l)); [lia|].
  apply NoDup_app in Hnd as (_ & Hnd & _). intros y Hy. apply bool_decide_eq_true.
  pose proof (StronglySorted_app_1_elem_of _ _ _ _ _ Hs Hx Hy) as Hle. unfold text_le_, text_leb in Hle.
  destruct (text_compare x y) eqn:E; [|done|done]. apply text_compare_eq in E as ->. by destruct (Hnd y).
Qed.

(** Only files change, and only by disappearing. *)
Definition only_files (gone : text -> Prop) (k k' : disk) : Prop :=
  k_now k' = k_now k /\ k_lastOK k' = k_lastOK k /\
  forall n, k_files k' !! n = k_files k !! n \/ k_files k' !! n = None /\ gone n.

Lemma only_files_refl gone k fs : only_files gone k (with_faults fs k).
Proof. split_and!; [done|done|]. by left. Qed.
Lemma only_files_same gone k : only_files gone k k.
Proof. split_and!; [done|done|]. by left. Qed.

Lemma only_files_trans gone k k1 k2 : only_files gone k k1 -> only_files gone k1 k2 -> only_files gone k k2.
Proof.
  intros (E1 & E2 & H1) (E3 & E4 & H2). split_and!; [congruence|congruence|]. intros n.
  destruct (H1 n) as [F1|[F1 ?]], (H2 n) as [F2|[F2 ?]]; rewrite ?F2, ?F1; auto.
Qed.

Lemma spec_Remove n k :
  spec (Remove n) (fun r k' => only_files (fun m => m = n) k k' /\ (r = Ok tt -> k_files k' !! n = None)) k.
Proof.
  apply spec_io; [intros e fs; split; [apply only_files_refl|done]|]. intros fs. cbn.
  destruct (k_files k !! n) eqn:E; cbn; [|split; [apply only_files_refl|done]]. split; [|intros _; by rewrite lookup_delete_eq].
  split_and!; [done|done|]. intros m. cbn. destruct (decide (n = m)) as [->|Hne]; [right; by rewrite lookup_delete_eq|left; by rewrite lookup_delete_ne].
Qed.

Lemma spec_remove_all names k :
  spec (remove_all names) (fun r k' => only_files (fun m => m ∈ names) k k' /\ (r = Ok tt -> forall n, n ∈ names -> k_files k' !! n = None)) k.
Proof.
  revert k. induction names as [|n names IH]; intros k; cbn [remove_all].
  { split; [apply only_files_same|]. by intros _ n Hn%not_elem_of_nil. }
  apply spec_andThen. eapply spec_mono; [apply spec_Remove|]. cbn. intros r k1 [H1 Hn].
  assert (H1' : only_files (fun m => m ∈ n :: names) k k1).
  { destruct H1 as (? & ? & H1). split_and!; [done..|]. intros m. destruct (H1 m) as [?|[? ->]]; [by left|right; split; [done|left]]. }
  destruct r as [[]|e]; [|split; [done|done]].
  eapply spec_mono; [apply IH|]. cbn. intros r k2 [H2 Hr]. assert (H2' : only_files (fun m => m ∈ n :: names) k1 k2).
  { destruct H2 as (? & ? & H2). split_and!; [done..|]. intros m. destruct (H2 m) as [?|[? ?]]; [by left|right; split; [done|by right]]. }
  split; [by eapply only_files_trans|]. intros -> m [->|Hm]%elem_of_cons; [|by apply Hr].
  destruct H2' as (_ & _ & H2'). destruct (H2' n) as [->|[? _]]; [by apply Hn|done].
Qed.

(** What pruning takes away is a backup with at least [Keep] later ones; when it succeeds, [Keep] are left at most. *)
Lemma spec_prune cfg k :
  spec (prune cfg) (fun r k' =>
    only_files (fun n => is_backup n = true /\ 0 < bc_Keep cfg <= Z.of_nat (length (later n (k_files k)))) k k' /\
    (r = Ok tt -> 0 < bc_Keep cfg -> Z.of_nat (length (backups (merge_sort name_le (map_to_list (k_files k'))))) <= bc_Keep cfg)) k.
Proof.
  unfold prune. destruct (Z.leb_spec (bc_Keep cfg) 0); [apply spec_done; split; [apply only_files_same|lia]|].
  apply spec_andThen, spec_io; [intros e fs; apply spec_done; split; [apply only_files_refl|done]|]. intros fs. cbn.
  destruct (k_made k); [|apply spec_done; split; [apply only_files_refl|done]].
  set (names := backups _). destruct (Z.leb_spec (Z.of_nat (length names)) (bc_Keep cfg)) as [Hl|Hl].
  { apply spec_done. split; [apply only_files_refl|done]. }
  set (i := (length names - Z.to_nat (bc_Keep cfg))%nat). set (l := merge_sort text_le_ names).
  assert (Hp : Permutation l names) by apply merge_sort_Permutation.
  eapply spec_mono; [apply spec_remove_all|]. cbn. intros r k' [Ho Hr]. split.
  - destruct Ho as (? & ? & Ho). split_and!; [done..|]. intros n. destruct (Ho n) as [?|[? Hn]]; [by left|]. right. split; [done|].
    assert (Hin : n ∈ names) by (rewrite <- Hp, <- (take_drop i l); apply elem_of_app; by left).
    pose proof Hin as Hb. apply elem_of_backups in Hb as (e & _ & _ & Hb). split; [done|].
    assert (Hnd : NoDup l) by (rewrite Hp; apply NoDup_backups).
    pose proof (sorted_take_before l i n Hnd ltac:(apply StronglySorted_merge_sort; apply _) Hn) as Hc.
    assert (El : length (List.filter (fun m => bool_decide (text_compare n m = Lt)) l) = length (later n (k_files k))).
    { apply Permutation_length. unfold later. fold names. clear -Hp. induction Hp; cbn; [done|case_match; by auto|repeat case_match; auto using perm_swap|by etrans]. }
    rewrite El, (Permutation_length Hp) in Hc. unfold i in Hc. lia.
  - intros -> _. specialize (Hr eq_refl).
    assert (Hsub : backups (merge_sort name_le (map_to_list (k_files k'))) ⊆+ drop i l).
    { apply NoDup_submseteq; [apply NoDup_backups|]. intros n Hn. apply elem_of_backups in Hn as (e & He & Hd & Hb).
      assert (Hin : n ∈ l). { rewrite Hp. apply elem_of_backups. destruct Ho as (_ & _ & Ho). destruct (Ho n) as [E|[E _]]; [|congruence].
        exists e. cbn in E. by rewrite <- E. }
      rewrite <- (take_drop i l) in Hin. apply elem_of_app in Hin as [Hin|Hin]; [|done]. apply Hr in Hin. congruence. }
    apply submseteq_length in Hsub. rewrite length_drop, (Permutation_length Hp) in Hsub. unfold i in Hsub. lia.
Qed.

(** ** The last good backup stays *)

Section runs.
Context (db : Z -> text) (cfg : BackupConfig).

(** The backups there are were named by the program, up to now. *)
Definition named (k : disk) : Prop :=
  forall n e, k_files k !! n = Some e -> is_backup n = true -> exists t, 0 <= t <= k_now k /\ n = backup_name t.

(** The last backup, if it went well, is there, holds the database of its time, and no name comes after its. *)
Definition kept (k : disk) : Prop :=
  k_lastOK k = true -> exists t u, 0 <= t <= u /\ u <= k_now k /\ k_files k !! backup_name t = Some (Entry false u (db u)) /\
    forall n e, k_files k !! n = Some e -> is_backup n = true -> text_leb n (backup_name t) = true.

Definition others (k k' : disk) : Prop := forall n, is_backup n = false -> k_files k' !! n = k_files k !! n.

Definition goes (k k' : disk) : Prop :=
  k_now k <= k_now k' /\ others k k' /\ (0 <= k_now k -> year_four (k_now k') -> named k -> kept k -> named k' /\ kept k').

Lemma backup_goes_same k k' : k_now k <= k_now k' -> k_files k' = k_files k -> k_lastOK k' = k_lastOK k -> goes k k'.
Proof.
  intros Hn Hf Hl. split_and!; [done|by intros n _; rewrite Hf|]. intros H0 _ Hnm Hk. split.
  - intros n e. rewrite Hf. intros He Hb. destruct (Hnm n e He Hb) as (t & Ht & ->). exists t. split; [lia|done].
  - unfold kept. rewrite Hf, Hl. intros Ho. destruct (Hk Ho) as (t & u & Htu & Hu & Hrest). exists t, u. split; [done|]. split; [lia|done].
Qed.

Lemma backup_goes_trans k k1 k2 : goes k k1 -> goes k1 k2 -> goes k k2.
Proof.
  intros (H1 & O1 & G1) (H2 & O2 & G2). split_and!; [lia|intros n Hn; by rewrite O2, O1|]. intros H0 Hy Hn Hk.
  assert (Hy1 : year_four (k_now k1)) by (unfold year_four in *; lia). destruct (G1 H0 Hy1 Hn Hk). apply G2; [lia|done..].
Qed.

Lemma spec_goes {A B} (m : F A) (f : A -> F B) k :
  spec m (fun _ => goes k) k -> (forall a k', goes k k' -> spec (f a) (fun _ => goes k') k') -> spec (andThen m f) (fun _ => goes k) k.
Proof.
  intros Hm Hf. apply spec_andThen. eapply spec_mono; [exact Hm|]. cbn. intros a k1 H1. eapply spec_mono; [by apply Hf|].
  cbn. intros _ k2. by apply backup_goes_trans.
Qed.

Lemma spec_clear n k :
  spec (clear n) (fun r k' => k_now k' = k_now k /\ k_lastOK k' = k_lastOK k /\
    (forall m, m <> n -> k_files k' !! m = k_files k !! m) /\ match r with Err _ => k_files k' = k_files k | Ok _ => True end) k.
Proof.
  unfold clear. apply spec_andThen, spec_io; [done|]. intros fs. cbn. destruct (k_files k !! n) eqn:E; [|done].
  apply spec_andThen, spec_io; [done|]. intros fs'. cbn. rewrite E. cbn. split_and!; [done..| |done].
  intros m Hm. cbn. by rewrite lookup_delete_ne.
Qed.

Lemma spec_Snapshot n k :
  spec (Snapshot db n) (fun r k' => k_now k' = k_now k /\ k_lastOK k' = k_lastOK k /\
    (forall m, m <> n -> k_files k' !! m = k_files k !! m) /\ (r = Ok tt -> k_files k' !! n = Some (Entry false (k_now k) (db (k_now k))))) k.
Proof.
  unfold spec, Snapshot. assert (Hi : forall e m, m <> n -> (<[n := e]> (k_files k) : gmap text entry) !! m = k_files k !! m)
    by (intros; by rewrite lookup_insert_ne).
  destruct (k_faults k) as [|[[e [body|]]|] fs]; cbn; destruct (k_files k !! n) eqn:E; cbn; split_and!; auto; try done; intros _; by rewrite lookup_insert_eq.
Qed.

Lemma spec_note b k : spec (note b) (fun _ k' => k_now k <= k_now k' /\ k_files k' = k_files k /\ k_lastOK k' = b) k.
Proof. unfold note. apply spec_andThen, spec_clock. intros t ts Ht. done. Qed.

(** A name of the present comes last. *)
Lemma name_last k n e t : named k -> k_now k <= t -> year_four t -> k_files k !! n = Some e -> is_backup n = true -> text_leb n (backup_name t) = true.
Proof.
  intros Hn Ht Hy He Hb. destruct (Hn n e He Hb) as (u & Hu & ->). apply backup_name_mono; unfold year_four in *; lia.
Qed.

Lemma goes_pruned k k' :
  only_files (fun n => is_backup n = true /\ 0 < bc_Keep cfg <= Z.of_nat (length (later n (k_files k)))) k k' -> goes k k'.
Proof.
  intros (En & El & Ho). split_and!; [lia| |].
  - intros n Hn. destruct (Ho n) as [?|(_ & Hb & _)]; [done|congruence].
  - intros _ _ Hnm Hk. split.
    + intros n e He Hb. rewrite En. apply (Hnm n e); [|done]. destruct (Ho n) as [<-|[? _]]; [done|congruence].
    + unfold kept. rewrite El, En. intros HO. destruct (Hk HO) as (t & u & Htu & Hu & Hf & Hmax). exists t, u. split_and!; [lia..| |].
      * destruct (Ho (backup_name t)) as [->|(_ & _ & Hc)]; [done|]. exfalso.
        replace (later (backup_name t) (k_files k)) with (@nil text) in Hc; [cbn in Hc; lia|]. symmetry. apply list_nil_iff_no_elem.
        intros n [Hlt Hin]%elem_of_List_filter. apply bool_decide_eq_true in Hlt. apply elem_of_backups in Hin as (e & He & _ & Hb).
        pose proof (Hmax n e He Hb) as Hle. unfold text_leb in Hle. rewrite text_compare_antisym, Hlt in Hle. done.
      * intros n e He Hb. apply (Hmax n e); [|done]. destruct (Ho n) as [<-|[? _]]; [done|congruence].
Qed.

(** What follows a snapshot that went well. *)
Lemma goes_made k k1 t :
  k_now k <= t -> k_now k1 = t -> (forall m, m <> backup_name t -> k_files k1 !! m = k_files k !! m) ->
  k_files k1 !! backup_name t = Some (Entry false t (db t)) -> k_lastOK k1 = true -> goes k k1.
Proof.
  intros Ht Et Ho Hf Hl. split_and!; [lia| |].
  - intros n Hn. apply Ho. intros ->. by rewrite backup_name_is in Hn.
  - intros H0 Hy Hnm _. assert (Hn1 : forall n e, k_files k1 !! n = Some e -> is_backup n = true -> n = backup_name t \/ k_files k !! n = Some e).
    { intros n e He Hb. destruct (decide (n = backup_name t)); [by left|right]. by rewrite <- Ho. }
    split.
    + intros n e He Hb. destruct (Hn1 n e He Hb) as [->|Hk]; [exists t; split; [lia|done]|]. destruct (Hnm n e Hk Hb) as (u & Hu & ->). exists u. split; [lia|done].
    + intros _. exists t, t. split_and!; [lia..|done|]. intros n e He Hb. destruct (Hn1 n e He Hb) as [->|Hk]; [apply text_leb_refl|].
      apply (name_last k n e); [done|lia|by rewrite <- Et|done|done].
Qed.

(** And one that did not: there is no last good backup to speak of. *)
Lemma goes_failed k k1 t :
  k_now k <= t -> t <= k_now k1 -> (forall m, m <> backup_name t -> k_files k1 !! m = k_files k !! m) -> k_lastOK k1 = false -> goes k k1.
Proof.
  intros Ht Et Ho Hl. split_and!; [lia| |].
  - intros n Hn. apply Ho. intros ->. by rewrite backup_name_is in Hn.
  - intros H0 Hy Hnm _. split; [|unfold kept; congruence]. intros n e He Hb.
    destruct (decide (n = backup_name t)) as [->|Hne]; [exists t; split; [lia|done]|]. rewrite Ho in He by done.
    destruct (Hnm n e He Hb) as (u & Hu & ->). exists u. split; [lia|done].
Qed.

Lemma spec_Once k : spec (Once db cfg) (fun _ => goes k) k.
Proof.
  unfold Once. apply spec_goes; [apply spec_io; intros; by apply backup_goes_same|]. intros made k1 _.
  destruct made as [[]|e]; [|by apply spec_done, backup_goes_same]. apply spec_andThen, spec_clock. intros t ts Ht.
  set (k2 := Disk _ _ t ts _ _ _). apply spec_andThen. eapply spec_mono; [apply spec_clear|]. cbn.
  intros r k3 (En & El & Ho & Hr). destruct r as [[]|e]; [|apply spec_done; apply backup_goes_same; [lia|done|done]].
  apply spec_andThen. eapply spec_mono; [apply spec_Snapshot|]. cbn. intros r k4 (En4 & El4 & Ho4 & Hr4).
  assert (Hoth : forall m, m <> backup_name t -> k_files k4 !! m = k_files k1 !! m) by (intros m Hm; by rewrite Ho4, Ho).
  destruct r as [[]|e].
  - specialize (Hr4 eq_refl). rewrite En in Hr4, En4. apply spec_andThen, spec_io; cbn; intros.
    all: apply spec_andThen; eapply spec_mono; [apply spec_note|]; cbn; intros _ k5 (En5 & Ef5 & El5).
    all: assert (G : goes k1 k5) by (eapply (backup_goes_trans _ (Disk true (k_files k4) t [] [] None true)); [by eapply goes_made|
      apply backup_goes_same; cbn; congruence || lia]).
    all: apply spec_andThen; eapply spec_mono; [apply spec_prune|]; cbn; intros p k6 [Hp _]; apply spec_done.
    all: eapply backup_goes_trans; [exact G|by apply goes_pruned].
  - apply spec_andThen. eapply spec_mono; [apply spec_note|]. cbn. intros _ k5 (En5 & Ef5 & El5). apply spec_done.
    apply (goes_failed _ _ t); [done|lia| |done]. intros m Hm. by rewrite Ef5, Hoth.
Qed.

Lemma spec_rounds n k : spec (rounds db cfg n) (fun _ => goes k) k.
Proof.
  revert k. induction n as [|n IH]; intros k; cbn [rounds]; [by apply spec_done, backup_goes_same|].
  apply spec_goes; [apply spec_Once|]. intros _ k1 _. apply IH.
Qed.

Lemma spec_latest es acc k : spec (latest es acc) (fun _ => goes k) k.
Proof.
  revert acc k. induction es as [|[n e] es IH]; intros acc k; cbn [latest]; [by apply spec_done, backup_goes_same|].
  destruct (_ || _); [apply IH|]. apply spec_goes; [apply spec_io; intros; by apply backup_goes_same|]. intros. apply IH.
Qed.

Lemma spec_newest zero k : spec (newest zero) (fun _ => goes k) k.
Proof.
  unfold newest. apply spec_goes; [apply spec_io; intros; by apply backup_goes_same|]. intros [es|e] k1 _; [|by apply spec_done, backup_goes_same].
  apply spec_goes; [apply spec_latest|]. intros t k2 _. by apply spec_done, backup_goes_same.
Qed.

Lemma spec_Run zero ticks k : spec (Run db zero cfg ticks) (fun _ => goes k) k.
Proof.
  unfold Run. destruct (negb _); [by apply spec_done, backup_goes_same|]. apply spec_goes; [apply spec_newest|]. intros last k1 _.
  apply spec_goes; [apply spec_clock; intros; by apply backup_goes_same|]. intros now k2 _. apply spec_goes; [|intros; apply spec_rounds].
  assert (Hone : spec (andThen (Once db cfg) (fun _ => done_ tt)) (fun _ => goes k2) k2)
    by (apply spec_goes; [apply spec_Once|intros; by apply spec_done, backup_goes_same]).
  destruct last as [t|]; [|exact Hone]. destruct (_ <=? _); [exact Hone|by apply spec_done, backup_goes_same].
Qed.
End runs.

(** ** Properties *)

(** C23: as long as the backups that are there carry names of times that are past, and the years have four digits (see
    [backup_behind_the_names_is_lost]): whatever operations on the directory fail and for however many ticks the runner
    runs, when the last backup went well its file is there, holds the database as it was then, and is the last of the backups
    in the order of their names, so that no pruning takes it away; and files that are not backups are left alone. *)
Theorem last_backup_kept db zero cfg ticks k :
  0 <= k_now k -> k_lastOK k = false -> named k -> year_four (k_now (snd (Run db zero cfg ticks k))) ->
  let k' := snd (Run db zero cfg ticks k) in
  (forall n, is_backup n = false -> k_files k' !! n = k_files k !! n) /\
  (k_lastOK k' = true -> exists t u, 0 <= t <= u /\ u <= k_now k' /\ k_files k' !! backup_name t = Some (Entry false u (db u)) /\
     forall n e, k_files k' !! n = Some e -> is_backup n = true -> text_leb n (backup_name t) = true).
Proof.
  intros H0 Hl Hn Hy k'. destruct (spec_Run db cfg zero ticks k) as (_ & Ho & G). split; [exact Ho|].
  apply G; [done|done|done|]. unfold kept. congruence.
Qed.

(** A file of the operator beside one backup, made at the epoch; it is an hour later. *)
Definition sample_disk : disk :=
  Disk true (<[T "notes.txt" := Entry false 0 []]> (<[backup_name 0 := Entry false 0 []]> ∅)) hour [] [] None false.
Definition sample_backups : BackupConfig := {| bc_Enabled := true; bc_Interval := hour; bc_Keep := 1 |}.

Lemma sample_named : named sample_disk.
Proof.
  intros n e He Hb. unfold sample_disk in He. cbn [k_files] in He. destruct (decide (n = T "notes.txt")) as [->|Hn]; [done|].
  rewrite lookup_insert_ne in He by done. destruct (decide (n = backup_name 0)) as [->|Hn0].
  - exists 0. split; [split; vm_compute; discriminate|done].
  - rewrite lookup_insert_ne, lookup_empty in He by done. done.
Qed.

Lemma last_backup_kept_witness :
  let k' := snd (Run (fun _ => T "tables") (-1) sample_backups 1 sample_disk) in
  k_lastOK k' = true /\ exists t u, k_files k' !! backup_name t = Some (Entry false u (T "tables")).
Proof.
  assert (Hl : k_lastOK (snd (Run (fun _ => T "tables") (-1) sample_backups 1 sample_disk)) = true) by (vm_compute; reflexivity).
  split; [exact Hl|].
  assert (Hy : year_four (k_now (snd (Run (fun _ => T "tables") (-1) sample_backups 1 sample_disk))))
    by (split; [vm_compute; discriminate|vm_compute; reflexivity]).
  destruct (last_backup_kept (fun _ => T "tables") (-1) sample_backups 1 sample_disk ltac:(vm_compute; discriminate) eq_refl sample_named Hy) as [_ H].
  destruct (H Hl) as (t & u & _ & _ & Hf & _). exists t, u. exact Hf.
Defined.

(** Pruning takes a backup only when at least [Keep] later ones stay, whatever fails; and when nothing fails at most [Keep] stay. *)
Theorem prune_takes_oldest cfg k :
  let '(r, k') := prune cfg k in
  (forall n, k_files k' !! n = k_files k !! n \/
     k_files k' !! n = None /\ is_backup n = true /\ 0 < bc_Keep cfg <= Z.of_nat (length (later n (k_files k)))) /\
  (r = Ok tt -> 0 < bc_Keep cfg -> Z.of_nat (length (backups (merge_sort name_le (map_to_list (k_files k'))))) <= bc_Keep cfg).
Proof.
  pose proof (spec_prune cfg k) as H. unfold spec in H. destruct (prune cfg k) as [r k']. destruct H as [(_ & _ & H) Hr]. done.
Qed.

(** Where the names of the directory are ahead of the clock, a backup that is reported as made is taken away at once. *)
Lemma backup_behind_the_names_is_lost :
  let k := Disk true (<[backup_name (10 * hour) := Entry false 0 []]> ∅) hour [] [] None false in
  let '(r, k') := Once (fun _ => T "tables") sample_backups k in
  r = Ok (backup_name hour) /\ k_lastOK k' = true /\ k_files k' !! backup_name hour = None.
Proof. vm_compute. done. Qed.
