(* ===== verification/Clamav.v ===== *)
(** * The malware scanner's client (internal/clamav)

    [Scan] speaks clamd's INSTREAM: a command, the body in chunks each behind its length, a
    zero length, and a reply.  What the connection does is in [clamd]: whether it opens,
    which writes fail, what comes back, and whether the context has ended. *)

From S2P Require Import Prelude GoStrings Base64 Sha Errors World.
Open Scope Z_scope.

(** [clamav.Result], less its duration. *)
Record clamav_result := { cl_Infected : bool; cl_VirusName : text }.

(** [config.ClamAVConfig] as [New] keeps it. *)
Record ClamAVConfig := { ca_Enabled : bool; ca_Addr : text; ca_Action : text; ca_MaxSizeBytes : Z }.

Record ScannerAddr := { sn_network : text; sn_target : text; sn_action : text }.

Definition New (cfg : ClamAVConfig) : ScannerAddr :=
  let '(network, target) :=
    if has_prefix "unix://"%string (ca_Addr cfg) then (T "unix", trim_prefix "unix://"%string (ca_Addr cfg))
    else (T "tcp", trim_prefix "tcp://"%string (ca_Addr cfg)) in
  {| sn_network := network; sn_target := target;
     sn_action := if bool_decide (ca_Action cfg = []) then "quarantine"%string else ca_Action cfg |}.

Definition Addr (s : ScannerAddr) : text :=
  if bool_decide (sn_network s = T "unix") then "unix://"%string ++ sn_target s else sn_target s.

Record clamd := {
  cn_dial : option error;
  cn_write : nat -> option error;           (* the error of the n-th write *)
  cn_reply : text * option error;           (* all that comes back, and an error other than EOF after it *)
  cn_done : nat -> option error             (* [ctx.Err()] after so many writes *)
}.

(** ** Sending *)

(** [make([]byte, 32*1024)]. *)
Definition bufSize : nat := Z.to_nat 32768.

(** What successive reads into the buffer yield of one piece of the source. *)
Fixpoint pieces (fuel : nat) (s : text) : list text :=
  match fuel, s with
  | O, _ | _, [] => []
  | S fuel, _ => take bufSize s :: pieces fuel (drop bufSize s)
  end.

Fixpoint reads (r : reader) : list (text + error) :=
  match r with
  | [] => []
  | inl s :: r => map inl (pieces (length s) s) ++ reads r
  | inr e :: r => inr e :: reads r
  end.

Section scan.
Context (c : clamd).

(** Writes so far, oldest first. *)
Definition write (b : text) (w : list text) : option error * list text := (cn_write c (length w), w ++ [b]).

(** The pieces the source gives, its end in a read of its own, as the reader of the spool gives it. *)
Fixpoint stream (rs : list (text + error)) (w : list text) : option error * list text :=
  match cn_done c (length w), rs with
  | Some e, _ => (Some e, w)
  | None, [] => (None, w)
  | None, inr e :: _ => (Some (EWrap "read stream"%string e), w)
  | None, inl piece :: rest =>
      match write (put_be32 (Z.of_nat (length piece))) w with
      | (Some e, w) => (Some (EWrap "clamav write chunk size"%string e), w)
      | (None, w) =>
          match write piece w with
          | (Some e, w) => (Some (EWrap "clamav write chunk data"%string e), w)
          | (None, w) => stream rest w
          end
      end
  end.

(** [bufio.Reader.ReadString] up to the first NUL, or everything with the error. *)
Fixpoint read_string (s : text) : option text :=
  match s with
  | [] => None
  | b :: r => if bool_decide (b = "000"%char) then Some [b]
              else match read_string r with Some l => Some (b :: l) | None => None end
  end.

(** The reply's text; a connection that breaks before a byte is an error unless it is EOF. *)
Definition reply_text : result text :=
  let '(bytes, err) := cn_reply c in
  match read_string bytes with
  | Some resp => Ok resp
  | None =>
      match bytes, err with
      | [], Some e => Err (EWrap "clamav read response"%string e)
      | _, _ => Ok bytes
      end
  end.

Definition in_cutset (b : ascii) : bool := bool_decide (b ∈ ["000"%char; CR; LF; SP]).
Definition trim_reply (s : text) : text := trim_right in_cutset (trim_left in_cutset s).

(** [strings.Fields], on ASCII. *)
Fixpoint fields (word : text) (s : text) : list text :=
  match s with
  | [] => match word with [] => [] | _ => [word] end
  | b :: r => if is_space b then match word with [] => fields [] r | _ => word :: fields [] r end
              else fields (word ++ [b]) r
  end.

Definition virus_name (resp : text) : text :=
  match fields [] resp with
  | _ :: name :: _ :: _ => name
  | _ => trim_suffix " FOUND"%string (trim_prefix "stream: "%string resp)
  end.

Definition verdict (resp : text) : result clamav_result :=
  if has_suffix "OK"%string resp then Ok {| cl_Infected := false; cl_VirusName := [] |}
  else if has_suffix "FOUND"%string resp then Ok {| cl_Infected := true; cl_VirusName := virus_name resp |}
  else if contains "ERROR"%string resp then Err (EText ("clamav returned error: "%string ++ resp))
  else Err (EText ("clamav unknown response: "%string ++ quote resp)).

Definition instream : text := T "zINSTREAM" ++ ["000"%char].

(** [Scan] of an enabled scanner: the result and what was written. *)
Definition Scan (target : text) (r : reader) : result clamav_result * list text :=
  match cn_dial c with
  | Some e => (Err (EWrap ("clamav dial "%string ++ target) e), [])
  | None =>
      match write instream [] with
      | (Some e, w) => (Err (EWrap "clamav write command"%string e), w)
      | (None, w) =>
          match stream (reads r) w with
          | (Some e, w) => (Err e, w)
          | (None, w) =>
              match write (put_be32 0) w with
              | (Some e, w) => (Err (EWrap "clamav write terminator"%string e), w)
              | (None, w) =>
                  match reply_text with
                  | Err e => (Err e, w)
                  | Ok resp => (verdict (trim_reply resp), w)
                  end
              end
          end
      end
  end.

Definition Scan_ (enabled : bool) (target : text) (r : reader) : result clamav_result :=
  if enabled then fst (Scan target r) else Ok {| cl_Infected := false; cl_VirusName := [] |}.

(** [Ping]: the reply is read up to a NUL, or to the end of the stream. *)
Definition Ping (enabled : bool) : option error :=
  if negb enabled then Some (EText "clamav disabled"%string)
  else match cn_dial c with
  | Some e => Some e
  | None =>
      match cn_write c 0 with
      | Some e => Some e
      | None =>
          let '(bytes, err) := cn_reply c in
          let check line := if contains "PONG"%string line then None
                            else Some (EText ("unexpected ping response: "%string ++ quote line)) in
          match read_string bytes, err with
          | Some line, _ => check (trim_right (fun b => bool_decide (b ∈ ["000"%char; CR; LF])) line)
          | None, Some e => Some e
          | None, None => match bytes with [] => Some (EText "EOF"%string) | _ => check (trim_space bytes) end
          end
      end
  end.
End scan.

(** ** What clamd makes of the bytes *)

Fixpoint unframe (fuel : nat) (s : text) : option (text * text) :=
  match fuel with
  | O => None
  | S fuel =>
      let n := get_be32 s in
      if n =? 0 then Some ([], drop 4 s)
      else match unframe fuel (drop (4 + Z.to_nat n) s) with
           | Some (body, rest) => Some (take (Z.to_nat n) (drop 4 s) ++ body, rest)
           | None => None
           end
  end.

Lemma code_byte_of n : 0 <= n < 256 -> code (byte_of n) = n.
Proof. intros Hn. unfold code, byte_of. rewrite nat_ascii_embedding; lia. Qed.

Lemma get_put_be32 n s : 0 <= n < 2 ^ 32 -> get_be32 (put_be32 n ++ s) = n.
Proof.
  intros Hn. unfold get_be32. rewrite take_app_ge by (rewrite length_put_be32; lia). rewrite length_put_be32, Nat.sub_diag.
  cbn [take]. rewrite app_nil_r. unfold put_be32. cbn [map fold_left].
  change 255 with (Z.ones 8). rewrite !Z.land_ones, !Z.shiftr_div_pow2, !Z.shiftl_mul_pow2 by lia.
  rewrite !code_byte_of by (apply Z.mod_pos_bound; lia).
  change (2 ^ 8) with 256. change (2 ^ 24) with (256 * 256 * 256). change (2 ^ 16) with (256 * 256). change (2 ^ 0) with 1.
  rewrite Z.div_1_r.
  pose proof (Z.div_mod n 256 ltac:(lia)). pose proof (Z.div_mod (n / 256) 256 ltac:(lia)).
  pose proof (Z.div_mod (n / 256 / 256) 256 ltac:(lia)).
  rewrite <- !Z.div_div by lia.
  assert (n / 256 / 256 / 256 < 256) by (rewrite !Z.div_div by lia; apply Z.div_lt_upper_bound; lia).
  assert (0 <= n / 256 / 256 / 256) by (rewrite !Z.div_div by lia; apply Z.div_pos; lia).
  rewrite (Z.mod_small (n / 256 / 256 / 256)) by lia. lia.
Qed.

(** A chunk as it is framed. *)
Definition frame (piece : text) : text := put_be32 (Z.of_nat (length piece)) ++ piece.

Definition proper (piece : text) : Prop := 0 < Z.of_nat (length piece) < 2 ^ 32.

Lemma unframe_frames ps s fuel :
  Forall proper ps -> (length ps < fuel)%nat ->
  unframe fuel (concat (map frame ps) ++ put_be32 0 ++ s) = Some (concat ps, s).
Proof.
  intros Hps. revert fuel. induction Hps as [|p ps Hp _ IH]; intros [|fuel] Hf; cbn [length] in Hf; try lia; cbn [map concat unframe].
  - cbn [app]. rewrite get_put_be32 by lia. cbn. by rewrite skipn_O || done.
  - unfold frame. rewrite <- !app_assoc. unfold proper in Hp. rewrite get_put_be32 by lia.
    destruct (Z.eqb_spec (Z.of_nat (length p)) 0) as [|_]; [lia|]. rewrite Nat2Z.id.
    rewrite (drop_app_ge _ _ (4 + length p)) by (rewrite length_put_be32; lia). rewrite length_put_be32.
    replace (4 + length p - 4)%nat with (length p) by lia. rewrite drop_app_length. rewrite IH by lia.
    rewrite drop_app_length' by (by rewrite length_put_be32). by rewrite take_app_length.
Qed.

Lemma pieces_spec fuel s : (length s <= fuel)%nat -> concat (pieces fuel s) = s /\ Forall proper (pieces fuel s).
Proof.
  revert s. induction fuel as [|fuel IH]; intros [|b s] Hl; cbn [length] in Hl; try lia; cbn [pieces concat]; [by split..|].
  assert (Hb : bufSize = Z.to_nat 32768) by done. remember bufSize as n eqn:En. clear En.
  assert (Hd : (length (drop n (b :: s)) <= fuel)%nat) by (rewrite length_drop; cbn; lia).
  destruct (IH _ Hd) as [E Hp]. split; [by rewrite E, take_drop|]. constructor; [|done].
  unfold proper. rewrite length_take. cbn [length]. lia.
Qed.

(** A source that reads to its end, as its reads. *)
Lemma reads_whole r data rest :
  ReadAll r = (data, None, rest) -> exists ps, reads r = map inl ps /\ concat ps = data /\ Forall proper ps.
Proof.
  revert data. induction r as [|[s|e] r IH]; intros data; cbn [ReadAll reads].
  - intros [= <- <-]. by exists [].
  - destruct (ReadAll r) as [[d e] rst] eqn:Er. intros [= <- -> ->]. destruct (IH d eq_refl) as (ps & Eps & <- & Hps).
    destruct (pieces_spec (length s) s (le_n _)) as [E Hp]. exists (pieces (length s) s ++ ps).
    rewrite Eps, map_app, concat_app, E. split_and!; [done|done|by apply Forall_app].
  - done.
Qed.

Section whole.
Context (c : clamd).

Lemma stream_sends rs w w' :
  stream c rs w = (None, w') -> exists ps, rs = map inl ps /\ concat w' = concat w ++ concat (map frame ps).
Proof.
  revert w. induction rs as [|[p|e] rs IH]; intros w; cbn [stream]; destruct (cn_done c (length w)); try done.
  - intros [= <-]. exists []. cbn. by rewrite app_nil_r.
  - unfold write. destruct (cn_write c (length w)); [done|]. destruct (cn_write c _); [done|].
    intros (ps & -> & E)%IH. exists (p :: ps). split; [done|]. rewrite E, !concat_app. cbn. unfold frame.
    by rewrite !app_nil_r, <- !app_assoc.
Qed.

Lemma reads_ReadAll r ps : reads r = map inl ps -> exists rest, ReadAll r = (concat ps, None, rest).
Proof.
  revert ps. induction r as [|[s|e] r IH]; intros ps; cbn [reads ReadAll].
  - destruct ps; [by exists []|done].
  - intros E. symmetry in E. apply map_eq_app in E as (ps1 & ps2 & -> & E1 & E2). symmetry in E2.
    destruct (IH ps2 E2) as [rest ->]. exists rest. rewrite concat_app. do 2 f_equal.
    assert (ps1 = pieces (length s) s) as ->.
    { clear - E1. remember (pieces (length s) s) as qs. clear Heqqs. revert qs E1.
      induction ps1 as [|p ps1 IH]; intros [|q qs] E; try done. cbn in E. injection E as -> E. by rewrite (IH qs). }
    by destruct (pieces_spec (length s) s (le_n _)) as [-> _].
  - by destruct ps.
Qed.
End whole.

(** C14: a verdict is only ever about the whole message.  Whatever the connection and the context
    do, when [Scan] returns one, the source was read to its end without an error, what was
    written is the INSTREAM command followed by frames from which clamd reads exactly the
    message and nothing after it, and the verdict is the reply's, infected just when it ends
    in FOUND. *)
Theorem Scan_whole c target r res w :
  Scan c target r = (Ok res, w) ->
  exists data rest resp, ReadAll r = (data, None, rest) /\ reply_text c = Ok resp /\ verdict (trim_reply resp) = Ok res /\
    (cl_Infected res = true <-> has_suffix "OK"%string (trim_reply resp) = false /\ has_suffix "FOUND"%string (trim_reply resp) = true) /\
    take (length instream) (concat w) = instream /\
    unframe (S (length (concat w))) (drop (length instream) (concat w)) = Some (data, []).
Proof.
  unfold Scan. destruct (cn_dial c); [done|]. unfold write at 1. destruct (cn_write c _); [done|]. cbn [app].
  destruct (stream c (reads r) [instream]) as [[e|] w1] eqn:Es; [done|]. unfold write. destruct (cn_write c (length w1)); [done|].
  destruct (reply_text c) as [resp|e] eqn:Er; [|done]. intros [= Ev <-].
  apply stream_sends in Es as (ps & Eps & Ew). destruct (reads_ReadAll r ps Eps) as [rest Hra].
  assert (Hps : Forall proper ps).
  { destruct (reads_whole r _ _ Hra) as (qs & Eqs & _ & Hqs). rewrite Eps in Eqs. assert (ps = qs) as ->; [|done].
    clear - Eqs. revert qs Eqs. induction ps as [|p ps IH]; intros [|q qs] E; try done. injection E as -> E. by rewrite (IH qs). }
  assert (Ecat : concat (w1 ++ [put_be32 0]) = instream ++ concat (map frame ps) ++ put_be32 0 ++ []).
  { rewrite concat_app, Ew. cbn [concat]. by rewrite !app_nil_r, <- app_assoc. }
  exists (concat ps), rest, resp. split_and!; [done|done|done| | |].
  - unfold verdict in Ev. destruct (has_suffix "OK"%string _); [injection Ev as <-; cbn; split; [done|by intros []]|].
    destruct (has_suffix "FOUND"%string _); [injection Ev as <-; cbn; by split|]. by destruct (contains _ _).
  - rewrite Ecat. by rewrite take_app_length.
  - rewrite Ecat, drop_app_length. apply unframe_frames; [done|]. rewrite !length_app.
    assert (Hl : (length ps <= length (concat (map frame ps)))%nat).
    { clear. induction ps as [|p ps IH]; [done|]. cbn [map concat length]. rewrite length_app. unfold frame at 1.
      rewrite length_app, length_put_be32. lia. }
    rewrite length_put_be32. lia.
Qed.

Definition sample_clamd : clamd :=
  {| cn_dial := None; cn_write := fun _ => None; cn_reply := (T "stream: Eicar-Test FOUND" ++ ["000"%char], None); cn_done := fun _ => None |}.

Lemma Scan_whole_witness :
  Scan sample_clamd "clamd:3310"%string [inl (T "X5O!P%@AP"); inl (T "[4\PZX54")] =
    (Ok {| cl_Infected := true; cl_VirusName := "Eicar-Test"%string |},
     [instream; put_be32 9; T "X5O!P%@AP"; put_be32 8; T "[4\PZX54"; put_be32 0]) /\
  exists data rest, ReadAll [inl (T "X5O!P%@AP"); inl (T "[4\PZX54")] = (data, None, rest).
Proof.
  assert (E : Scan sample_clamd "clamd:3310"%string [inl (T "X5O!P%@AP"); inl (T "[4\PZX54")] =
    (Ok {| cl_Infected := true; cl_VirusName := "Eicar-Test"%string |},
     [instream; put_be32 9; T "X5O!P%@AP"; put_be32 8; T "[4\PZX54"; put_be32 0])) by (vm_compute; reflexivity).
  split; [exact E|]. destruct (Scan_whole _ _ _ _ _ E) as (data & rest & resp & Hr & _). by exists data, rest.
Defined.
