(* ===== verification/Cluster.v ===== *)
(** * The cluster: signed calls between nodes, heartbeats, pulling the configuration (internal/cluster)

    A node tells its peers about itself at every round, writes down what they answer, and,
    as a follower, pulls the configuration of the primary.  What it exports, applies and
    fingerprints is an interface.  The goroutines of a round that greet the peers are taken
    one after the other, in an order that is an argument. *)

From S2P Require Import Prelude GoStrings Sha Times Errors StoreTypes StoreQueue StoreDomains.
From S2P Require Import Auth StoreUsers.
From S2P Require Import StoreCluster World.
From Stdlib Require Import QArith.
Open Scope Z_scope.

Definition HeartbeatPath : text := "/api/v1/cluster/heartbeat"%string.
Definition ConfigPath : text := "/api/v1/cluster/config"%string.
Definition healthyIntervals : Z := 3.
Definition forgetAfter : Z := 7 * 24 * hour.
Definition maxBodyBytes : nat := 2 ^ 20.

Record Heartbeat := {
  hb_NodeID : text;
  hb_AdvertiseURL : text;
  hb_Version : text;
  hb_Role : text;
  hb_ConfigHash : text;
  hb_QueuePending : Z;
  hb_QueueBytes : Z;
  hb_Domains : Z;
  hb_At : Z
}.

(** encoding/json on a heartbeat and on the reply with a configuration, and the path of a URL. *)
Class WireLib := {
  json_Heartbeat : Heartbeat -> result text;
  read_Heartbeat : text -> option Heartbeat;
  read_yaml : text -> option text;
  request_path : text -> result text
}.

(** ** Signatures (auth.go) *)

Definition NodeHeader : text := "X-XeronMX-Cluster-Node"%string.
Definition TimestampHeader : text := "X-XeronMX-Cluster-Timestamp"%string.
Definition SignatureHeader : text := "X-XeronMX-Cluster-Signature"%string.

Definition MaxSkew : Z := 5 * minute.

Inductive auth_error := ErrUnsigned | ErrBadSig | ErrStale | ErrNoSecret | ErrSelfCall | ErrBadHeader.

Definition signingString (timestamp : Z) (method path body : text) : text :=
  dec timestamp ++ "."%string ++ to_upper method ++ "."%string ++ path ++ "."%string ++ hex_encode (Sum256 body).

Definition sign (secret : text) (timestamp : Z) (method path body : text) : text :=
  "sha256="%string ++ hex_encode (hmac_sha256 secret (signingString timestamp method path body)).

Definition SignRequest (secret nodeID method path body : text) (now : Z) : list (text * text) :=
  let ts := unix_seconds now in
  [(NodeHeader, nodeID); (TimestampHeader, dec ts); (SignatureHeader, sign secret ts method path body)].

(** What a node reads of the request of a peer: an absent header is empty. *)
Record peer_request := {
  pr_method : text;
  pr_path : text;
  pr_node : text;
  pr_timestamp : text;
  pr_signature : text
}.

(** [inl] is the reason of the refusal; [inr] the name the peer gives itself. *)
Definition Verify (r : peer_request) (secret selfID body : text) (now : Z) : auth_error + text :=
  if bool_decide (secret = []) then inl ErrNoSecret
  else if bool_decide (pr_node r = []) || bool_decide (pr_timestamp r = []) || bool_decide (pr_signature r = []) then inl ErrUnsigned
  else match ParseInt64 (pr_timestamp r) with
       | None => inl ErrBadHeader
       | Some ts =>
           let skew := now - ts * second in
           if (MaxSkew <? skew) || (skew <? - MaxSkew) then inl ErrStale
           else if negb (bool_decide (sign secret ts (pr_method r) (pr_path r) body = pr_signature r)) then inl ErrBadSig
           else if bool_decide (pr_node r = selfID) then inl ErrSelfCall
           else inr (pr_node r)
       end.

(** ** The node *)

Record ClusterConfig := {
  cl_Enabled : bool;
  cl_AdvertiseURL : text;
  cl_Peers : list text;
  cl_Secret : text;
  cl_Interval : Z;
  cl_SyncConfig : bool
}.

(** What the cluster needs of the configuration; the report of an import is the map it returns. *)
Class ConfigSource := {
  ExportConfigYAML : M (result text);
  ApplyConfigYAML : text -> bool -> M (error + jmap);
  ConfigHash : M (result text)
}.

(** [Node] as [New] makes it: the role is one of two. *)
Record Member := { n_cfg : ClusterConfig; n_id : text; n_role : text; n_version : text }.

Definition New (cfg : ClusterConfig) (nodeID role version : text) : Member :=
  {| n_cfg := cfg; n_id := nodeID; n_role := node_role role; n_version := version |}.

Definition HealthyWithin (n : Member) : Z :=
  (if cl_Interval (n_cfg n) <=? 0 then 30 * second else cl_Interval (n_cfg n)) * healthyIntervals.

Definition is_slash (c : ascii) : bool := bool_decide (c = "/"%char).
Definition trim_slashes (s : text) : text := trim_right is_slash s.

(** The peers less this node's own address. *)
Definition peers (n : Member) : list text :=
  let mine := trim_slashes (cl_AdvertiseURL (n_cfg n)) in
  List.filter (fun peer => negb (negb (bool_decide (mine = [])) && equal_fold (trim_slashes peer) mine)) (cl_Peers (n_cfg n)).

Definition heartbeatToNode (hb : Heartbeat) : node :=
  Node (hb_NodeID hb) (hb_AdvertiseURL hb) (hb_Version hb) (hb_Role hb) (hb_ConfigHash hb) (hb_QueuePending hb)
    (hb_QueueBytes hb) (hb_Domains hb) 0 0.

(** ** Statements on the table of nodes *)

Definition on_nodes {A} (f : list node -> result A * list node) : M (result A) :=
  statement (fun s => let '(r, t) := f (s_nodes s) in (r, set_s_nodes t s)).

Definition Observe (hb : Heartbeat) : M (result unit) :=
  let* now := now_ in on_nodes (fun t => (Ok tt, UpsertNode (heartbeatToNode hb) now t)).

Definition ellipsis : text := ["226"; "128"; "166"]%char.

Definition truncate (s : text) (max : nat) : text := if (length s <=? max)%nat then s else take max s ++ ellipsis.

Section cluster.
Context `{WireLib} `{ConfigSource}.
Context (n : Member).

Definition Snapshot : M (result Heartbeat) :=
  let* stats := query (fun s => Ok (Stats (s_queue s))) in
  match stats with
  | Err e => ret (Err (EWrap "read queue stats"%string e))
  | Ok stats =>
      let* domains := query (fun s => Ok (ListDomains (dt_domains (s_domains s)))) in
      match domains with
      | Err e => ret (Err (EWrap "read domains"%string e))
      | Ok domains =>
          let* hash := ConfigHash in
          let* now := now_ in
          ret (Ok {| hb_NodeID := n_id n; hb_AdvertiseURL := cl_AdvertiseURL (n_cfg n); hb_Version := n_version n;
                     hb_Role := n_role n; hb_ConfigHash := match hash with Ok h => h | Err _ => [] end;
                     hb_QueuePending := Pending stats; hb_QueueBytes := PendingBytes stats;
                     hb_Domains := Z.of_nat (length domains); hb_At := now |})
      end
  end.

(** A signed call: the body of a 2xx answer.  [None] is no body. *)
Definition call (method base path : text) (body : option text) : M (result text) :=
  let url := trim_slashes base ++ path in
  match request_path url with
  | Err e => ret (Err e)
  | Ok url_path =>
      let* now := now_ in
      let headers := match body with Some _ => [(T "Content-Type", T "application/json")] | None => [] end
                     ++ [(T "User-Agent", T "XeronMX")]
                     ++ SignRequest (cl_Secret (n_cfg n)) (n_id n) method url_path (default [] body) now in
      let* answer := call_peer (PeerCall method url headers (default [] body)) in
      ret match answer with
          | inl e => Err e
          | inr (code, raw) =>
              let raw := take maxBodyBytes raw in
              if (code <? 200) || (300 <=? code) then
                Err (EText (url ++ " answered "%string ++ dec code ++ ": "%string ++ trim_space (truncate raw 200)))
              else Ok raw
          end
  end.

Definition greet (peer : text) (self : Heartbeat) : M unit :=
  match json_Heartbeat self with
  | Err _ => ret tt
  | Ok body =>
      let* answer := call "POST"%string peer HeartbeatPath (Some body) in
      match answer with
      | Err _ => ret tt
      | Ok raw =>
          match read_Heartbeat raw with
          | None => ret tt
          | Some theirs =>
              if bool_decide (hb_NodeID theirs = []) || bool_decide (hb_NodeID theirs = n_id n) then ret tt
              else Observe theirs ;;; ret tt
          end
      end
  end.

Fixpoint greet_all (ps : list text) (self : Heartbeat) : M unit :=
  match ps with [] => ret tt | p :: ps => greet p self ;;; greet_all ps self end.

(** ** Pulling the configuration *)

Definition may_lead (now : Z) (o : node) : bool :=
  negb (bool_decide (NodeID o = n_id n)) && bool_decide (NRole o = NodePrimary)
  && negb (bool_decide (AdvertiseURL o = [])) && Healthy o now (HealthyWithin n).

(** The loop over the nodes, each with the clock as it reads then: [None] when two lead. *)
Fixpoint choose_primary (found : option node) (nodes : list node) : M (option (option node)) :=
  match nodes with
  | [] => ret (Some found)
  | o :: nodes =>
      if bool_decide (NodeID o = n_id n) || negb (bool_decide (NRole o = NodePrimary)) || bool_decide (AdvertiseURL o = [])
      then choose_primary found nodes
      else
        let* now := now_ in
        if negb (may_lead now o) then choose_primary found nodes
        else match found with
             | Some _ => ret None
             | None => choose_primary (Some o) nodes
             end
  end.

Definition field_text (k : text) (m : jmap) : text :=
  match find (fun kv => bool_decide (fst kv = k)) m with Some (_, JStr s) => s | _ => [] end.
Definition field_num (k : text) (m : jmap) : Z :=
  match find (fun kv => bool_decide (fst kv = k)) m with Some (_, JNum n) => n | _ => 0 end.

(** Pulling from one node: [true] when something changed. *)
Definition pull (primary : node) : M unit :=
  let* answer := call "GET"%string (AdvertiseURL primary) ConfigPath None in
  match answer with
  | Err _ => ret tt
  | Ok raw =>
      match read_yaml raw with
      | None => ret tt
      | Some yaml =>
          let* report := ApplyConfigYAML yaml false in
          match report with
          | inl _ => ret tt
          | inr report =>
              if field_num "changed"%string report =? 0 then ret tt
              else record_event (Event "cluster_config_synced"%string None None None
                     [(T "primary", JStr (NodeID primary)); (T "summary", JStr (field_text "description"%string report))])
          end
      end
  end.

Definition syncConfig (self : Heartbeat) : M unit :=
  if negb (cl_SyncConfig (n_cfg n)) || negb (bool_decide (n_role n = NodeFollower)) || bool_decide (hb_ConfigHash self = [])
  then ret tt
  else
    let* nodes := query (fun s => Ok (ListNodes (s_nodes s))) in
    match nodes with
    | Err _ => ret tt
    | Ok nodes =>
        let* chosen := choose_primary None nodes in
        match chosen with
        | Some (Some primary) =>
            if bool_decide (NConfigHash primary = []) || bool_decide (NConfigHash primary = hb_ConfigHash self) then ret tt
            else pull primary
        | _ => ret tt
        end
    end.

(** One round, the peers greeted in the order [order] gives. *)
Definition round (order : list text -> list text) : M unit :=
  let* self := Snapshot in
  match self with
  | Err _ => ret tt
  | Ok self =>
      Observe self ;;;
      greet_all (order (peers n)) self ;;;
      syncConfig self ;;;
      let* now := now_ in
      on_nodes (fun t => let '(cut, t) := ForgetStaleNodes (now - forgetAfter) t in (Ok cut, t)) ;;;
      ret tt
  end.

(** [Run] up to the [k]-th tick. *)
Fixpoint Run (orders : list (list text -> list text)) : M unit :=
  match orders with [] => ret tt | order :: orders => round order ;;; Run orders end.
End cluster.

(** * Guarantees *)

(** ** Signatures *)

(** No two requests have the same text to sign. *)
Lemma signingString_inj t t' m m' p p' b b' :
  "."%char ∉ m -> "."%char ∉ m' -> signingString t m p b = signingString t' m' p' b' ->
  t = t' /\ to_upper m = to_upper m' /\ p = p' /\ Sum256 b = Sum256 b'.
Proof.
  intros Hm Hm' E. unfold signingString in E. cbn [app] in E.
  assert (Hcut : forall l l' r r' : text, "."%char ∉ l -> "."%char ∉ l' -> l ++ "."%char :: r = l' ++ "."%char :: r' -> l = l' /\ r = r').
  { intros l. induction l as [|c l IH]; intros [|d l'] r r' Hl Hl' H; cbn in H.
    - by injection H as ->.
    - injection H as <- _. by apply not_elem_of_cons in Hl' as [].
    - injection H as -> _. by apply not_elem_of_cons in Hl as [].
    - injection H as -> H. apply not_elem_of_cons in Hl as [_ Hl], Hl' as [_ Hl']. by destruct (IH l' r r') as [-> ->]. }
  assert (Hup : forall s, "."%char ∉ s -> "."%char ∉ to_upper s).
  { intros s Hs (c & Ec & Hc)%elem_of_map. apply Hs. destruct (decide (c = "."%char)) as [->|Hn]; [done|]. exfalso.
    clear -Ec Hn. destruct c as [[] [] [] [] [] [] [] []]; vm_compute in Ec; congruence. }
  apply Hcut in E as [Et E]; [|apply dec_no_dot..]. apply dec_inj in Et.
  apply Hcut in E as [Em E]; [|by apply Hup..].
  assert (Hlen : length (hex_encode (Sum256 b)) = length (hex_encode (Sum256 b'))).
  { by rewrite !length_hex_encode, !length_Sum256. }
  apply app_inj_2 in E as [Ep Es]; [|cbn; by rewrite Hlen]. injection Es as Es%hex_encode_inj. auto.
Qed.

Definition header (k : text) (hs : list (text * text)) : text :=
  match find (fun kv => bool_decide (fst kv = k)) hs with Some (_, v) => v | None => [] end.

(** What arrives of a call at a node that sees it under [path]. *)
Definition received (c : peer_call) (path : text) : peer_request :=
  {| pr_method := pc_method c; pr_path := path; pr_node := header NodeHeader (pc_headers c);
     pr_timestamp := header TimestampHeader (pc_headers c); pr_signature := header SignatureHeader (pc_headers c) |}.

(** The signed call of a node at a time. *)
Definition signed_call (n : Member) (method url path : text) (body : option text) (now : Z) : peer_call :=
  PeerCall method url
    (match body with Some _ => [(T "Content-Type", T "application/json")] | None => [] end ++ [(T "User-Agent", T "XeronMX")]
     ++ SignRequest (cl_Secret (n_cfg n)) (n_id n) method path (default [] body) now) (default [] body).

Lemma received_signed n method url path body now :
  received (signed_call n method url path body now) path =
  {| pr_method := method; pr_path := path; pr_node := n_id n; pr_timestamp := dec (unix_seconds now);
     pr_signature := sign (cl_Secret (n_cfg n)) (unix_seconds now) method path (default [] body) |}.
Proof. by destruct body. Qed.

Lemma wp_call `{WireLib} `{ConfigSource} n md method base path body Q s :
  (forall e, Q (Err e) s) ->
  (forall url_path r, request_path (trim_slashes base ++ path) = Ok url_path -> forall now, s_now s <= now ->
     let s1 := set_s_now now s in
     Q r (set_s_calls (s_calls s ++ [signed_call n method (trim_slashes base ++ path) url_path body now]) s1)) ->
  wp md (call n method base path body) Q s.
Proof.
  intros He Hok. unfold call. destruct (request_path _) as [p|e]; [|by apply wp_ret].
  apply wp_bind, wp_now. intros now Hnow. apply wp_bind, wp_call_peer. intros r.
  specialize (Hok p). unfold signed_call in Hok. destruct r as [e|[c raw]]; apply wp_ret; [by apply Hok|].
  destruct (_ || _); by apply Hok.
Qed.

(** What a node with the same secret makes of a call, and of whatever carries its signature:
    it is that call again, or the text it was signed as is another one than the call's with
    the same HMAC. *)
Definition authentic (m : Member) (id method path body : text) (now : Z) (c : peer_call) : Prop :=
  let secret := cl_Secret (n_cfg m) in
  (forall now', - MaxSkew <= now' - now <= MaxSkew - second -> Verify (received c path) secret (n_id m) (pc_body c) now' = inr id) /\
  (forall r body' node' now', Verify r secret (n_id m) body' now' = inr node' -> pr_signature r = pr_signature (received c path) ->
     "."%char ∉ pr_method r ->
     exists ts, ParseInt64 (pr_timestamp r) = Some ts /\ - MaxSkew <= now' - ts * second <= MaxSkew /\
     (ts = unix_seconds now /\ to_upper (pr_method r) = to_upper method /\ pr_path r = path /\ Sum256 body' = Sum256 body \/
      let theirs := signingString ts (pr_method r) (pr_path r) body' in
      let ours := signingString (unix_seconds now) method path body in
      theirs <> ours /\ hmac_sha256 secret theirs = hmac_sha256 secret ours)).

Lemma signed_call_authentic (n m : Member) method url path body now :
  cl_Secret (n_cfg m) = cl_Secret (n_cfg n) -> cl_Secret (n_cfg n) <> [] -> n_id n <> [] -> n_id m <> n_id n -> "."%char ∉ method ->
  year_four now -> authentic m (n_id n) method path (default [] body) now (signed_call n method url path body now).
Proof.
  intros Hsec Hne Hid Hother Hdot Hyear. unfold authentic. rewrite Hsec. set (secret := cl_Secret (n_cfg n)) in *.
  rewrite received_signed. change (pc_body _) with (default [] body). fold secret.
  set (ts := unix_seconds now). assert (Hts : 0 <= ts < 253402300800).
  { unfold ts, unix_seconds, year_four, second in *. Z.div_mod_to_equations. lia. }
  assert (Hfloor : ts * second <= now < ts * second + second).
  { unfold ts, unix_seconds, second in *. Z.div_mod_to_equations. lia. }
  split.
  - intros now' Hskew. unfold Verify. cbn [pr_node pr_timestamp pr_signature pr_method pr_path].
    rewrite (bool_decide_eq_false_2 (secret = [])), (bool_decide_eq_false_2 (n_id n = [])) by done.
    rewrite (bool_decide_eq_false_2 (dec ts = [])), (bool_decide_eq_false_2 (sign _ _ _ _ _ = [])); [|done|].
    2: { intros E. pose proof (ParseInt64_dec ts) as Hp. rewrite E in Hp. assert (None = Some ts) by (apply Hp; lia). done. }
    cbn [orb]. rewrite ParseInt64_dec by lia.
    destruct (Z.ltb_spec MaxSkew (now' - ts * second)); [lia|]. destruct (Z.ltb_spec (now' - ts * second) (- MaxSkew)); [lia|].
    rewrite bool_decide_eq_true_2, (bool_decide_eq_false_2 (n_id n = n_id m)) by done. done.
  - intros r body' node' now' Hv Hsig Hdot'. unfold Verify in Hv. destruct (bool_decide (secret = [])); [done|].
    destruct (_ || _ || _); [done|]. destruct (ParseInt64 (pr_timestamp r)) as [ts'|] eqn:Ets; [|done].
    destruct (_ || _) eqn:Eskew; [done|]. apply orb_false_iff in Eskew as [E1%Z.ltb_ge E2%Z.ltb_ge].
    destruct (bool_decide_reflect (sign secret ts' (pr_method r) (pr_path r) body' = pr_signature r)) as [Es|]; [|done].
    rewrite Hsig in Es. cbn [pr_signature] in Es. unfold sign in Es. apply app_inv_head, hex_encode_inj in Es.
    exists ts'. split; [done|]. split; [lia|].
    destruct (decide (signingString ts' (pr_method r) (pr_path r) body' = signingString ts method path (default [] body))) as [Ess|Hdiff].
    + apply signingString_inj in Ess as (-> & Em & Ep & Eb); [|done..]. left. by split_and!.
    + by right.
Qed.

(** C32: a call one node of a cluster makes is accepted by any other with the same secret, under
    the caller's name, as long as their clocks and the way between them cost less than five
    minutes.  And a request with the signature of that call that a node accepts, within five
    minutes of the time it gives, is that call again: the same second, method, path and digest
    of the body, unless the text of this very request has the HMAC of the call's though it
    differs.  The name of the caller is not signed: it is the one the request gives. *)
Theorem peer_calls_authentic `{WireLib} `{ConfigSource} (n m : Member) md method base path body s :
  cl_Secret (n_cfg m) = cl_Secret (n_cfg n) -> cl_Secret (n_cfg n) <> [] -> n_id n <> [] -> n_id m <> n_id n -> "."%char ∉ method ->
  wp md (call n method base path body) (fun _ s' =>
    s_calls s' = s_calls s \/
    exists url_path now c, request_path (trim_slashes base ++ path) = Ok url_path /\ s_now s <= now /\
      s_calls s' = s_calls s ++ [c] /\ pc_url c = trim_slashes base ++ path /\
      (year_four now -> authentic m (n_id n) method url_path (default [] body) now c)) s.
Proof.
  intros Hsec Hne Hid Hother Hdot. apply wp_call; [by left|]. intros url_path r Hp now Hnow. right.
  eexists url_path, now, _. split_and!; [done|done|reflexivity|done|]. intros Hy. by apply signed_call_authentic.
Qed.

(** Two nodes, and a path that is read as it is written. *)
Definition sample_member (id role : text) : Member :=
  Cluster.New {| cl_Enabled := true; cl_AdvertiseURL := "https://"%string ++ id; cl_Peers := [T "https://a/"; T "https://b"];
                 cl_Secret := "0123456789abcdef"%string; cl_Interval := 30 * second; cl_SyncConfig := true |} id role "1"%string.

#[local] Instance sample_wire : WireLib := {|
  json_Heartbeat := fun hb => Ok (hb_NodeID hb);
  read_Heartbeat := fun _ => None;
  read_yaml := fun raw => Some raw;
  request_path := fun _ => Ok ConfigPath |}.

#[local] Instance sample_source : ConfigSource := {|
  ExportConfigYAML := ret (Ok []);
  ApplyConfigYAML := fun _ _ => ret (inr []);
  ConfigHash := ret (Ok []) |}.

Lemma peer_calls_authentic_witness :
  let '(_, w) := call (sample_member (T "b") NodeFollower) (T "GET") (T "https://a/") ConfigPath None (World blank quiet) in
  exists c now, s_calls (st w) = [c] /\
    (year_four now -> Verify (received c ConfigPath) (T "0123456789abcdef") (T "a") (pc_body c) (now + minute) = inr (T "b")).
Proof.
  pose proof (wp_run any _ _ blank quiet (allows_any _)
    (peer_calls_authentic (sample_member (T "b") NodeFollower) (sample_member (T "a") NodePrimary) any
       (T "GET") (T "https://a/") ConfigPath None blank eq_refl
       ltac:(discriminate) ltac:(discriminate) ltac:(discriminate) ltac:(apply (bool_decide_unpack _); vm_compute; exact I))) as H.
  destruct (call _ _ _ _ _ _) as [r w] eqn:E. destruct H as [H|(p & now & c & Hp & _ & Hc & _ & Hauth)].
  - exfalso. apply (f_equal (fun x => length (s_calls (st (snd x))))) in E. cbn [snd] in E. rewrite H in E. discriminate E.
  - exists c, now. split; [exact Hc|]. intros Hy. injection Hp as <-. apply (Hauth Hy). unfold MaxSkew, minute, second. lia.
Defined.

(** The name of the caller is not signed: a node takes its own call back under another name. *)
Example reflected_call_accepted :
  let c := signed_call (sample_member (T "b") NodeFollower) (T "GET") [] ConfigPath None 0 in
  let r := received c ConfigPath in
  Verify r (T "0123456789abcdef") (T "b") [] 0 = inl ErrSelfCall /\
  Verify {| pr_method := pr_method r; pr_path := pr_path r; pr_node := T "other"; pr_timestamp := pr_timestamp r;
            pr_signature := pr_signature r |} (T "0123456789abcdef") (T "b") [] 0 = inr (T "other").
Proof. vm_compute. split; reflexivity. Qed.
