(* ===== verification/Blob.v ===== *)
(** * The encrypted spool (internal/blob)

    A body is a file: the magic, a version byte, a salt, and the body cut in chunks of
    64 KiB, each sealed under a nonce made of its position and of a flag set on the last
    one.  AES-GCM and HKDF are the class [AEAD]; [AEADLaws] is what is relied on of them.
    The directory is a map from identifiers to file contents: the path of an identifier
    is its own.  A failing system call is the argument [os]: it fails [Put] before the
    rename, so that nothing is left under the identifier.  The master key is a file of its own, which
    the processes that open the spool read or make, a system call at a time ([open_step]).

    [World] keeps of a spool the bodies alone; [put_loop_spec] and the round trip are
    what lets it. *)

From S2P Require Import Prelude GoStrings Base64 Errors Times Backoff StoreTypes StoreQueue.
From S2P Require Import StoreDomains Filter Routes World.
From Stdlib Require Import QArith.
Open Scope Z_scope.

Class AEAD := {
  hkdf_sha256 : text -> text -> text -> text;              (* secret, salt, info: 32 bytes *)
  gcm_Seal : text -> text -> text -> text;                 (* key, nonce, plaintext *)
  gcm_Open : text -> text -> text -> option text
}.

(** Decryption inverts encryption and accepts nothing else; a tag is sixteen bytes; what is
    sealed under one nonce of twelve bytes does not open under another. *)
Class AEADLaws `{AEAD} : Prop := {
  open_seal k n p : gcm_Open k n (gcm_Seal k n p) = Some p;
  open_authentic k n c p : gcm_Open k n c = Some p -> c = gcm_Seal k n p;
  seal_length k n p : length (gcm_Seal k n p) = (length p + 16)%nat;
  open_other k n n' p :
    length n = 12%nat -> length n' = 12%nat -> n <> n' -> gcm_Open k n' (gcm_Seal k n p) = None
}.

Definition magic : text := "XMXB"%string.
Definition formatVer : ascii := byte_of 1.
Definition saltSize : nat := 16.
Definition nonceSize : nat := 12.
Definition tagSize : nat := 16.
Definition headerSize : nat := length magic + 1 + saltSize.
Definition hkdfInfoStr : text := "xeronmx blob v1"%string.

Definition chunk : nat := Z.to_nat chunkSize.

Lemma chunk_pos : (0 < chunk)%nat.
Proof. unfold chunk, chunkSize. lia. Qed.

Lemma chunk_Z : Z.of_nat chunk = chunkSize.
Proof. unfold chunk, chunkSize. lia. Qed.

#[global] Opaque chunk.

Definition corrupt : error := ESentinel ErrCorrupt "blob: corrupt or tampered file"%string.

(** [binary.BigEndian.PutUint64]. *)
Definition be64 (n : Z) : text := map (fun i => byte_of (n / 256 ^ i mod 256)) [7; 6; 5; 4; 3; 2; 1; 0].

Definition nonceFor (counter : Z) (last : bool) : text :=
  replicate 3 (byte_of 0) ++ be64 counter ++ [byte_of (if last then 1 else 0)].

Section blob.
Context `{AEAD}.

(** [aeadFor]; the master key is [master]. *)
Definition aeadFor (master salt : text) : text := hkdf_sha256 master salt hkdfInfoStr.

(** ** [Put] *)

(** The loop over the source, which gives [data] and then [err]; [None] is out of fuel. *)
Fixpoint put_loop (fuel : nat) (key : text) (maxBytes counter written : Z) (out data : text) (err : option error)
  : option (result (Z * text)) :=
  match fuel with
  | O => None
  | S fuel =>
      let plain := take chunk data in
      let last := (length data <? chunk)%nat in
      if last && negb (ends_source err) then
        Some (Err (EWrap "blob: read source"%string (default (EText []) err)))
      else
        let written := written + Z.of_nat (length plain) in
        if (0 <? maxBytes) && (maxBytes <? written) then Some (Err (exceeds maxBytes))
        else
          let out := out ++ gcm_Seal key (nonceFor counter last) plain in
          if last then Some (Ok (written, out))
          else put_loop fuel key maxBytes (counter + 1) written out (drop chunk data) err
  end.

Definition header (salt : text) : text := magic ++ [formatVer] ++ salt.

Definition Put (master id : text) (salt : result text) (os : option error) (src : World.reader) (maxBytes : Z)
  (files : gmap text text) : option (result Z * gmap text text) :=
  if negb (valid_blob_id id) then Some (Err invalid_id, files)
  else
    match files !! id, salt with
    | Some _, _ => Some (Err (EText "blob: id already exists"%string), files)
    | None, Err e => Some (Err (EWrap "blob: generate salt"%string e), files)
    | None, Ok salt =>
        let '(data, err, _) := ReadAll src in
        r ← put_loop (S (length data)) (aeadFor master salt) maxBytes 0 0 (header salt) data err;
        Some match r, os with
             | Err e, _ => (Err e, files)
             | Ok _, Some e => (Err e, files)
             | Ok (written, file), None => (Ok written, <[id := file]> files)
             end
    end.

(** ** Reading *)

Record blob_reader := BlobReader {
  br_file : text;            (* what is left of the file *)
  br_key : text;
  br_plain : text;
  br_counter : Z;
  br_done : bool
}.

Definition Get (master id : text) (files : gmap text text) : result blob_reader :=
  if negb (valid_blob_id id) then Err invalid_id
  else
    match files !! id with
    | None => Err (EText "no such file or directory"%string)
    | Some file =>
        let h := take headerSize file in
        if (length h <? headerSize)%nat then Err corrupt
        else if negb (bool_decide (take (length magic) h = magic)
                      && bool_decide (h !! length magic = Some formatVer)) then Err corrupt
        else Ok (BlobReader (drop headerSize file) (aeadFor master (drop (length magic + 1) h)) [] 0 false)
    end.

(** The next chunk: first taken for one in the middle, then for the last one, after which
    no byte may follow. *)
Definition next (r : blob_reader) : option error * blob_reader :=
  let buf := take (chunk + tagSize) (br_file r) in
  let rest := drop (chunk + tagSize) (br_file r) in
  if (length buf <? tagSize)%nat then (Some corrupt, BlobReader rest (br_key r) (br_plain r) (br_counter r) (br_done r))
  else
    match gcm_Open (br_key r) (nonceFor (br_counter r) false) buf with
    | Some out => (None, BlobReader rest (br_key r) out (br_counter r + 1) (br_done r))
    | None =>
        match gcm_Open (br_key r) (nonceFor (br_counter r) true) buf with
        | Some out =>
            (match rest with [] => None | _ :: _ => Some corrupt end,
             BlobReader (drop 1 rest) (br_key r) out (br_counter r + 1) true)
        | None => (Some corrupt, BlobReader rest (br_key r) (br_plain r) (br_counter r) (br_done r))
        end
    end.

Inductive read_result := RBytes (p : text) | REOF | RErr (e : error).

(** [Read] into a buffer of [n] bytes; [None] is out of fuel. *)
Fixpoint Read (fuel n : nat) (r : blob_reader) : option (read_result * blob_reader) :=
  match br_plain r with
  | _ :: _ =>
      Some (RBytes (take n (br_plain r)),
            BlobReader (br_file r) (br_key r) (drop n (br_plain r)) (br_counter r) (br_done r))
  | [] =>
      if br_done r then Some (REOF, r)
      else
        match fuel with
        | O => None
        | S fuel =>
            match next r with
            | (Some e, r') => Some (RErr e, r')
            | (None, r') => Read fuel n r'
            end
        end
  end.

(** Reading to the end, with buffers of whatever sizes: the bytes, and the error that
    stopped it if one did.  Reads are given the fuel they need; [None] is out of fuel. *)
Fixpoint drain (fuel : nat) (sizes : nat -> nat) (i : nat) (r : blob_reader) : option (text * option error) :=
  match fuel with
  | O => None
  | S fuel =>
      match Read (S (length (br_file r))) (sizes i) r with
      | None => None
      | Some (REOF, _) => Some ([], None)
      | Some (RErr e, _) => Some ([], Some e)
      | Some (RBytes p, r') => '(d, e) ← drain fuel sizes (S i) r'; Some (p ++ d, e)
      end
  end.

Definition Delete (id : text) (os : option error) (files : gmap text text) : result unit * gmap text text :=
  if negb (valid_blob_id id) then (Err invalid_id, files)
  else match os with
       | Some e => (Err (EWrap "blob: delete"%string e), files)
       | None => (Ok (), delete id files)
       end.

Definition Size (id : text) (files : gmap text text) : result Z :=
  if negb (valid_blob_id id) then Err invalid_id
  else match files !! id with
       | None => Err (EText "no such file or directory"%string)
       | Some f => Ok (Z.of_nat (length f))
       end.

(** ** Small secrets: [Seal] and [Unseal] *)

(** [salt] and [nonce] are what [rand.Read] gives. *)
Definition Seal (master : text) (salt nonce : result text) (plaintext : text) : result text :=
  match salt, nonce with
  | Err e, _ => Err (EWrap "blob: generate salt"%string e)
  | Ok _, Err e => Err (EWrap "blob: generate nonce"%string e)
  | Ok salt, Ok nonce => Ok (salt ++ nonce ++ gcm_Seal (aeadFor master salt) nonce plaintext)
  end.

Definition Unseal (master sealed : text) : result text :=
  if (length sealed <? saltSize + nonceSize + tagSize)%nat then Err corrupt
  else
    let salt := take saltSize sealed in
    let nonce := take nonceSize (drop saltSize sealed) in
    match gcm_Open (aeadFor master salt) nonce (drop (saltSize + nonceSize) sealed) with
    | Some out => Ok out
    | None => Err corrupt
    end.
End blob.

(** ** The master key

    Any number of processes may open the spool at once; each is at one of the system calls of [Open] and
    [loadOrCreateKey], and a process that stops for good there was killed.  A write may take several calls; a
    read sees what has been written so far. *)

Definition keySize : nat := 32.

Inductive opener :=
| SpoolDir                              (* MkdirAll of the spool *)
| ReadingKey
| KeyDir                                (* MkdirAll of the directory of the key *)
| Drawing                               (* rand.Read *)
| Creating (key : text)                 (* OpenFile with O_EXCL *)
| Writing (key : text) (written : nat)
| Syncing (key : text)
| Opened (key : text)
| Refused (e : error).

(** What a system call does: it works, a write for [n] bytes and a drawing with these random ones, or it fails. *)
Inductive syscall := Works (n : nat) (random : nat -> ascii) | Fails (e : error).

Definition drawn (random : nat -> ascii) : text := map random (seq 0 keySize).

Definition wrong_size (path raw : text) : error :=
  EText (T "blob: master key at " ++ path ++ T " is " ++ dec (Z.of_nat (length raw)) ++ T " bytes, want " ++ dec (Z.of_nat keySize)).

(** [file] is the file of the key, if there is one. *)
Definition open_step (path : text) (s : syscall) (file : option text) (p : opener) : option text * opener :=
  match p, s with
  | SpoolDir, Fails e => (file, Refused (EWrap "blob: create spool dir"%string e))
  | SpoolDir, Works _ _ => (file, ReadingKey)
  | ReadingKey, Fails e => (file, Refused (EWrap "blob: read master key"%string e))
  | ReadingKey, Works _ _ =>
      match file with
      | Some raw => (file, if (length raw =? keySize)%nat then Opened raw else Refused (wrong_size path raw))
      | None => (file, KeyDir)
      end
  | KeyDir, Fails e => (file, Refused (EWrap "blob: create key dir"%string e))
  | KeyDir, Works _ _ => (file, Drawing)
  | Drawing, Fails e => (file, Refused (EWrap "blob: generate master key"%string e))
  | Drawing, Works _ random => (file, Creating (drawn random))
  | Creating key, Fails e => (file, Refused (EWrap "blob: create master key"%string e))
  | Creating key, Works _ _ =>
      match file with
      | Some _ => (file, ReadingKey)                            (* os.IsExist *)
      | None => (Some [], Writing key 0)
      end
  | Writing key w, Fails e => (file, Refused (EWrap "blob: write master key"%string e))
  | Writing key w, Works n _ =>
      (Some (take (w + n) key), if (keySize <=? w + n)%nat then Syncing key else Writing key (w + n))
  | Syncing key, Fails e => (file, Refused (EWrap "blob: sync master key"%string e))
  | Syncing key, Works _ _ => (file, Opened key)
  | Opened _, _ | Refused _, _ => (file, p)
  end.

Record keyring := { kr_file : option text; kr_openers : list opener }.

Definition opened_by (path : text) (kr : keyring) (step : nat * syscall) : keyring :=
  match kr_openers kr !! step.1 with
  | Some p =>
      let '(file, p) := open_step path step.2 (kr_file kr) p in
      {| kr_file := file; kr_openers := <[step.1 := p]> (kr_openers kr) |}
  | None => kr
  end.

Definition openings (path : text) (kr : keyring) (steps : list (nat * syscall)) : keyring := fold_left (opened_by path) steps kr.

Definition all_starting (file : option text) (n : nat) : keyring := {| kr_file := file; kr_openers := replicate n SpoolDir |}.
