(* ===== verification/BlobProps.v ===== *)
(** * The spool: round trip and authenticity *)

From S2P Require Import Prelude RateLimit GoStrings Base64 Errors Times Backoff StoreTypes.
From S2P Require Import StoreQueue StoreDomains Filter Routes StoreUsers World Blob.
From Stdlib Require Import QArith.
Open Scope Z_scope.

Section blob.
Context `{AEADLaws}.

Lemma nonceFor_last c : nonceFor c true <> nonceFor c false.
Proof. intros E. apply (f_equal (@rev ascii)) in E. unfold nonceFor in E. rewrite !rev_app_distr in E. done. Qed.

(** ** What [Put] writes *)

(** The sealed chunks of a body; [fuel] is at least its length. *)
Fixpoint seal_chunks (fuel : nat) (key : text) (counter : Z) (data : text) : text :=
  if (length data <? chunk)%nat then gcm_Seal key (nonceFor counter true) data
  else match fuel with
       | O => []
       | S fuel => gcm_Seal key (nonceFor counter false) (take chunk data)
                   ++ seal_chunks fuel key (counter + 1) (drop chunk data)
       end.

Definition put_result (key : text) (maxBytes counter written : Z) (out data : text) (err : option error)
  : result (Z * text) :=
  let n := Z.of_nat (length data) in
  let checked := if ends_source err then n else n / chunkSize * chunkSize in
  if (0 <? maxBytes) && (maxBytes <? written + checked) then Err (exceeds maxBytes)
  else if ends_source err then Ok (written + n, out ++ seal_chunks (length data) key counter data)
  else Err (EWrap "blob: read source"%string (default (EText []) err)).

Lemma seal_chunks_fuel fuel key c data :
  (length data <= fuel)%nat -> seal_chunks fuel key c data = seal_chunks (length data) key c data.
Proof.
  pose proof chunk_pos as Hc. remember (length data) as n eqn:En.
  assert (Hgen : forall n fuel c data, (length data <= n)%nat -> (length data <= fuel)%nat ->
    seal_chunks n key c data = seal_chunks fuel key c data).
  { clear. pose proof chunk_pos as Hc. intros n. induction n as [|n IH]; intros [|fuel] c data Hn Hf;
      cbn [seal_chunks]; destruct (Nat.ltb_spec (length data) chunk) as [|Hge]; try done; try lia.
    f_equal. apply IH; rewrite length_drop; lia. }
  intros Hf. apply Hgen; lia.
Qed.

Lemma seal_chunks_step key c data :
  (chunk <= length data)%nat ->
  seal_chunks (length data) key c data =
    gcm_Seal key (nonceFor c false) (take chunk data)
    ++ seal_chunks (length (drop chunk data)) key (c + 1) (drop chunk data).
Proof.
  pose proof chunk_pos as Hc. intros Hs. destruct data as [|a data]; [cbn in Hs; lia|].
  rewrite <- (seal_chunks_fuel (length data) key (c + 1)) by (rewrite length_drop; cbn [length] in *; lia).
  cbn [length seal_chunks]. destruct (Nat.ltb_spec (S (length data)) chunk) as [|_]; [cbn in Hs; lia|done].
Qed.

(** The loop ends, and is the specification in one step. *)
Lemma put_loop_spec fuel key maxBytes c written out data err :
  (length data < fuel)%nat -> (0 < maxBytes -> written <= maxBytes) ->
  put_loop fuel key maxBytes c written out data err = Some (put_result key maxBytes c written out data err).
Proof.
  pose proof chunk_pos as Hc. pose proof chunk_Z as HcZ.
  revert c written out data. induction fuel as [|fuel IH]; intros c written out data Hf Hw; [lia|].
  cbn [put_loop]. unfold put_result. destruct (Nat.ltb_spec (length data) chunk) as [Hs|Hs]; cbn [andb].
  - assert (Hz : Z.of_nat (length data) / chunkSize * chunkSize = 0) by (rewrite Z.div_small by lia; lia).
    rewrite (take_ge data chunk) by lia. destruct (ends_source err) eqn:Ee; cbn [negb].
    + destruct (_ && _); [done|]. do 3 f_equal. destruct data as [|a data]; cbn [seal_chunks length];
        by rewrite (proj2 (Nat.ltb_lt _ _)) by done.
    + rewrite Hz. destruct ((0 <? maxBytes) && (maxBytes <? written + 0)) eqn:El; [bools; lia|done].
  - rewrite length_take, Nat.min_l by lia. cbn [negb].
    assert (Hlen : length data = (chunk + length (drop chunk data))%nat) by (rewrite length_drop; lia).
    assert (Hdiv : Z.of_nat (length data) / chunkSize * chunkSize
                   = Z.of_nat chunk + Z.of_nat (length (drop chunk data)) / chunkSize * chunkSize).
    { rewrite Hlen, Nat2Z.inj_add, HcZ.
      replace (chunkSize + Z.of_nat (length (drop chunk data))) with (Z.of_nat (length (drop chunk data)) + 1 * chunkSize) by lia.
      rewrite Z.div_add by (unfold chunkSize; lia). lia. }
    destruct ((0 <? maxBytes) && (maxBytes <? written + Z.of_nat chunk)) eqn:El.
    + bools. rewrite (proj2 (Z.ltb_lt 0 maxBytes)) by done. cbn [andb].
      replace (maxBytes <? _) with true; [done|]. symmetry. apply Z.ltb_lt.
      destruct (ends_source err); [lia|]. rewrite Hdiv.
      assert (0 <= Z.of_nat (length (drop chunk data)) / chunkSize * chunkSize)
        by (apply Z.mul_nonneg_nonneg; [apply Z.div_pos; unfold chunkSize; lia|unfold chunkSize; lia]). lia.
    + rewrite IH; [|rewrite length_drop; lia|intros; apply andb_false_iff in El as [El|El]; bools; lia].
      unfold put_result. f_equal.
      assert (Hchk : written + (if ends_source err then Z.of_nat (length data) else Z.of_nat (length data) / chunkSize * chunkSize)
        = written + Z.of_nat chunk + (if ends_source err then Z.of_nat (length (drop chunk data))
             else Z.of_nat (length (drop chunk data)) / chunkSize * chunkSize)) by (destruct (ends_source err); lia).
      assert (Hn : written + Z.of_nat (length data) = written + Z.of_nat chunk + Z.of_nat (length (drop chunk data))) by lia.
      rewrite Hchk, Hn. rewrite (seal_chunks_step key c data Hs), <- app_assoc. done.
Qed.

(** ** What a reader yields, whatever the buffers *)

Inductive yields : blob_reader -> text -> option error -> Prop :=
| yields_done r : br_done r = true -> yields r (br_plain r) None
| yields_fail r e r' : br_done r = false -> next r = (Some e, r') -> yields r (br_plain r) (Some e)
| yields_next r r' d e :
    br_done r = false -> next r = (None, r') -> yields r' d e -> yields r (br_plain r ++ d) e.

Definition with_plain (p : text) (r : blob_reader) : blob_reader :=
  BlobReader (br_file r) (br_key r) p (br_counter r) (br_done r).

(** [next] reads no buffered byte. *)
Lemma next_with_plain p r e r' :
  next (with_plain p r) = (e, r') -> e = None -> next r = (None, r').
Proof. unfold next. cbn. repeat case_match; intros [= <- <-]; intros; done. Qed.

Lemma next_with_plain_fail p r e r' :
  next (with_plain p r) = (Some e, r') -> exists r'', next r = (Some e, r'').
Proof. unfold next. cbn. repeat case_match; intros [= <- <-]; eauto. Qed.

Lemma yields_plain r d e p : yields r d e -> exists d', d = br_plain r ++ d' /\ yields (with_plain p r) (p ++ d') e.
Proof.
  intros Hy. inversion Hy as [? Hd|? ? r' Hd Hn|? r' d' ? Hd Hn Hy']; subst.
  - exists []. rewrite !app_nil_r. split; [done|]. by apply (yields_done (with_plain p r)).
  - exists []. rewrite !app_nil_r. split; [done|].
    destruct (next (with_plain p r)) as [[e'|] r''] eqn:E.
    + destruct (next_with_plain_fail p r e' r'' E) as [r3 E']. rewrite Hn in E'. injection E' as -> _.
      by apply (yields_fail (with_plain p r) e' r'').
    + apply next_with_plain in E; [|done]. congruence.
  - exists d'. split; [done|]. destruct (next (with_plain p r)) as [[e'|] r''] eqn:E.
    + destruct (next_with_plain_fail p r e' r'' E) as [r3 E']. congruence.
    + apply (yields_next (with_plain p r) r''); [done|done|]. apply next_with_plain in E; [|done]. congruence.
Qed.

Lemma next_shrinks r r' : next r = (None, r') -> br_done r' = true \/ (length (br_file r') < length (br_file r))%nat.
Proof.
  unfold next. destruct (Nat.ltb_spec (length (take (chunk + tagSize) (br_file r))) tagSize) as [|Hl]; [done|].
  destruct (gcm_Open _ _ _) as [out|]; [|destruct (gcm_Open _ _ _) as [out|]; [|done]].
  - intros [= <-]. right. cbn. rewrite length_drop. rewrite length_take in Hl. unfold tagSize in *. lia.
  - intros [= _ <-]. by left.
Qed.

(** [Read] terminates, and gives the first of what the reader yields. *)
Lemma Read_spec fuel n r d e :
  (length (br_file r) < fuel)%nat -> (0 < n)%nat -> yields r d e ->
  exists res r', Read fuel n r = Some (res, r') /\
    match res with
    | RBytes p => p <> [] /\ exists d', d = p ++ d' /\ yields r' d' e
    | REOF => d = [] /\ e = None
    | RErr x => d = [] /\ e = Some x
    end.
Proof.
  revert r d. induction fuel as [|fuel IH]; intros r d Hf Hn Hy; [lia|].
  cbn [Read]. destruct (br_plain r) as [|a plain] eqn:Ep.
  - inversion Hy as [? Hd|? ? r' Hd Hnx|? r' d' ? Hd Hnx Hy']; subst; rewrite Hd.
    + repeat eexists. by rewrite Ep.
    + rewrite Hnx. repeat eexists. by rewrite Ep.
    + rewrite Hnx, Ep. destruct (next_shrinks r r' Hnx) as [Hdone|Hlt].
      * inversion Hy' as [? _|? ? ? Hd'|? ? ? ? Hd']; [|congruence..]. subst.
        assert (E : Read fuel n r' = match br_plain r' with
                       | [] => Some (REOF, r')
                       | _ => Some (RBytes (take n (br_plain r')), with_plain (drop n (br_plain r')) r') end).
        { unfold with_plain. destruct fuel; cbn [Read]; rewrite Hdone; destruct (br_plain r'); reflexivity. }
        rewrite E. destruct (br_plain r') as [|b p] eqn:Ep'; [repeat eexists|].
        repeat eexists; [by destruct n; [lia|]|symmetry; apply take_drop|].
        by apply (yields_done (with_plain (drop n (b :: p)) r')).
      * apply IH; [lia|done|done].
  - exists (RBytes (take n (a :: plain))), (with_plain (drop n (a :: plain)) r). split; [done|].
    split; [by destruct n; [lia|]|]. destruct (yields_plain r d e (drop n (a :: plain)) Hy) as (d' & -> & Hy').
    eexists. split; [|exact Hy']. by rewrite Ep, app_assoc, take_drop.
Qed.

(** Reading to the end gives what the reader yields, for every choice of buffers. *)
Lemma drain_spec fuel sizes i r d e :
  (forall i, (0 < sizes i)%nat) -> (length d < fuel)%nat -> yields r d e -> drain fuel sizes i r = Some (d, e).
Proof.
  intros Hsz. revert i r d. induction fuel as [|fuel IH]; intros i r d Hf Hy; [lia|]. cbn [drain].
  destruct (Read_spec (S (length (br_file r))) (sizes i) r d e) as (res & r' & -> & Hres); [lia|done|done|].
  destruct res as [p| |x].
  - destruct Hres as (Hp & d' & -> & Hy'). rewrite (IH _ _ d'); [done| |done].
    rewrite length_app in Hf. destruct p; [done|]. cbn in Hf. lia.
  - by destruct Hres as [-> ->].
  - by destruct Hres as [-> ->].
Qed.

(** ** Reading back *)

Lemma next_last key plain c p :
  (length p <= chunk)%nat ->
  next (BlobReader (gcm_Seal key (nonceFor c true) p) key plain c false) = (None, BlobReader [] key p (c + 1) true).
Proof.
  intros Hp. unfold next. cbn [br_file br_key br_plain br_counter br_done]. cbv zeta.
  rewrite take_ge, drop_ge by (rewrite seal_length; unfold tagSize; lia).
  rewrite (proj2 (Nat.ltb_ge _ _)) by (rewrite seal_length; unfold tagSize; lia).
  by rewrite open_other, open_seal by (done || apply nonceFor_last).
Qed.

Lemma next_middle key plain c p rest :
  length p = chunk ->
  next (BlobReader (gcm_Seal key (nonceFor c false) p ++ rest) key plain c false) = (None, BlobReader rest key p (c + 1) false).
Proof.
  intros Hp. unfold next. cbn [br_file br_key br_plain br_counter br_done]. cbv zeta.
  assert (Hl : length (gcm_Seal key (nonceFor c false) p) = (chunk + tagSize)%nat) by (by rewrite seal_length, Hp).
  rewrite take_app_length', drop_app_length' by done.
  rewrite (proj2 (Nat.ltb_ge _ _)) by (rewrite Hl; lia). by rewrite open_seal.
Qed.

Lemma seal_chunks_yield fuel key c data plain :
  (length data <= fuel)%nat -> yields (BlobReader (seal_chunks fuel key c data) key plain c false) (plain ++ data) None.
Proof.
  pose proof chunk_pos as Hc.
  assert (Hlast : forall c data plain, (length data < chunk)%nat ->
    yields (BlobReader (gcm_Seal key (nonceFor c true) data) key plain c false) (plain ++ data) None).
  { clear c data plain. intros c data plain Hs.
    eapply (yields_next (BlobReader (gcm_Seal key (nonceFor c true) data) key plain c false));
      [done|apply next_last; lia|]. by apply (yields_done (BlobReader [] key data (c + 1) true)). }
  revert c data plain. induction fuel as [|fuel IH]; intros c data plain Hf; cbn [seal_chunks];
    (destruct (Nat.ltb_spec (length data) chunk) as [Hs|Hs]; [by apply Hlast|]); [lia|].
  assert (Hp : length (take chunk data) = chunk) by (rewrite length_take; lia).
  rewrite <- (take_drop chunk data) at 3.
  eapply (yields_next (BlobReader (_ ++ _) key plain c false)); [done|by apply next_middle|].
  apply (IH _ (drop chunk data) (take chunk data)). rewrite length_drop. lia.
Qed.

(** ** Only what was sealed reads back *)

Fixpoint sealed_stream (key : text) (counter : Z) (chunks : list text) (last : text) : text :=
  match chunks with
  | [] => gcm_Seal key (nonceFor counter true) last
  | p :: chunks => gcm_Seal key (nonceFor counter false) p ++ sealed_stream key (counter + 1) chunks last
  end.

Lemma next_authentic r r' :
  br_done r = false -> next r = (None, r') ->
  br_key r' = br_key r /\ br_counter r' = br_counter r + 1 /\
  br_file r = gcm_Seal (br_key r) (nonceFor (br_counter r) (br_done r')) (br_plain r') ++ br_file r' /\
  (br_done r' = true -> br_file r' = []).
Proof.
  intros Hd. unfold next. destruct (_ <? _)%nat; [done|].
  destruct (gcm_Open _ (nonceFor _ false) _) as [out|] eqn:Eo; [|destruct (gcm_Open _ (nonceFor _ true) _) as [out|] eqn:Eo'; [|done]].
  - intros [= <-]. cbn [br_file br_key br_plain br_counter br_done]. apply open_authentic in Eo. rewrite Hd, <- Eo, take_drop. done.
  - destruct (drop _ (br_file r)) as [|a rest] eqn:Er; [|done]. intros [= <-]. cbn [br_file br_key br_plain br_counter br_done].
    apply open_authentic in Eo'. rewrite <- Eo', app_nil_r. split_and!; try done.
    rewrite <- (take_drop (chunk + tagSize) (br_file r)) at 1. by rewrite Er, app_nil_r.
Qed.

Lemma yields_authentic r d :
  yields r d None -> br_done r = false ->
  exists chunks last, d = br_plain r ++ concat chunks ++ last /\
    br_file r = sealed_stream (br_key r) (br_counter r) chunks last.
Proof.
  intros Hy. remember (@None error) as e eqn:Ee. induction Hy as [r Hd|r e r' Hd Hn|r r' d e Hd Hn Hy IH]; intros Hnd.
  - congruence.
  - done.
  - destruct (next_authentic r r' Hd Hn) as (Ek & Ec & Ef & Elast). destruct (br_done r') eqn:Ed.
    + exists [], (br_plain r'). rewrite (Elast eq_refl), app_nil_r in Ef. split; [|done]. cbn.
      inversion Hy; congruence.
    + destruct (IH Ee eq_refl) as (chunks & last & -> & Ef'). exists (br_plain r' :: chunks), last.
      cbn. rewrite Ef, Ef', Ek, Ec, <- app_assoc. done.
Qed.
Lemma yields_total r : exists d e, yields r d e.
Proof.
  remember (length (br_file r)) as n eqn:En. revert r En.
  induction n as [n IH] using lt_wf_ind. intros r ->.
  destruct (br_done r) eqn:Ed; [eexists _, _; by apply yields_done|].
  destruct (next r) as [[e|] r'] eqn:En; [eexists _, _; by eapply yields_fail|].
  destruct (next_shrinks r r' En) as [Hd|Hlt].
  - eexists _, _. eapply yields_next; [done..|by apply yields_done].
  - destruct (IH _ Hlt r' eq_refl) as (d & e & Hy). eexists _, _. by eapply yields_next.
Qed.

Lemma yields_det r d1 e1 d2 e2 : yields r d1 e1 -> yields r d2 e2 -> d1 = d2 /\ e1 = e2.
Proof.
  intros H1. revert d2 e2. induction H1 as [r Hd|r e r' Hd Hn|r r' d e Hd Hn Hy IH]; intros d2 e2 H2;
    inversion H2 as [? Hd2|? ? ? Hd2 Hn2|? ? ? ? Hd2 Hn2 Hy2]; subst; try congruence.
  - done.
  - rewrite Hn in Hn2. by injection Hn2 as <-.
  - rewrite Hn in Hn2. injection Hn2 as <-. destruct (IH _ _ Hy2) as [-> ->]. done.
Qed.

Lemma drain_yields fuel sizes i r d e :
  (forall i, (0 < sizes i)%nat) -> drain fuel sizes i r = Some (d, e) -> yields r d e.
Proof.
  intros Hsz. revert i r d. induction fuel as [|fuel IH]; intros i r d; [done|]. cbn [drain].
  destruct (yields_total r) as (d0 & e0 & Hy0).
  destruct (Read_spec (S (length (br_file r))) (sizes i) r d0 e0) as (res & r' & -> & Hres); [lia|done|done|].
  destruct res as [p| |x].
  - destruct Hres as (Hp & d' & -> & Hy'). destruct (drain fuel sizes (S i) r') as [[dd ee]|] eqn:Ed; [|done].
    cbn. intros [= <- <-]. destruct (yields_det _ _ _ _ _ Hy' (IH _ _ _ Ed)) as [-> ->]. done.
  - destruct Hres as [-> ->]. by intros [= <- <-].
  - destruct Hres as [-> ->]. by intros [= <- <-].
Qed.

(** ** Files and bodies *)

Lemma Get_encoded master id files salt rest :
  valid_blob_id id = true -> length salt = saltSize -> files !! id = Some (header salt ++ rest) ->
  Get master id files = Ok (BlobReader rest (aeadFor master salt) [] 0 false).
Proof.
  intros Hid Hs Hf. unfold Get. rewrite Hid, Hf. cbn [negb].
  assert (Hl : length (header salt) = headerSize) by (unfold header, headerSize; rewrite !length_app, Hs; done).
  rewrite take_app_length', drop_app_length' by done. rewrite (proj2 (Nat.ltb_ge _ _)) by lia.
  unfold header. cbn [app]. reflexivity.
Qed.

Lemma Get_header master id files r :
  Get master id files = Ok r ->
  exists salt, length salt = saltSize /\ files !! id = Some (header salt ++ br_file r) /\
    br_key r = aeadFor master salt /\ br_plain r = [] /\ br_counter r = 0 /\ br_done r = false.
Proof.
  unfold Get. destruct (valid_blob_id id); cbn [negb]; [|done]. destruct (files !! id) as [f|]; [|done].
  destruct (Nat.ltb_spec (length (take headerSize f)) headerSize) as [|Hl]; [done|].
  destruct (bool_decide (take _ _ = magic) && _) eqn:Em; cbn [negb]; [|done]. bools. intros [= <-].
  exists (drop (length magic + 1) (take headerSize f)). cbn [br_file br_key br_plain br_counter br_done].
  split_and!; try done.
  - rewrite length_drop. rewrite length_take in Hl |- *. unfold headerSize, saltSize in *.
    change (length magic) with 4%nat in *. lia.
  - f_equal. rewrite <- (take_drop headerSize f) at 1. f_equal. unfold header.
    set (h := take headerSize f) in *. rewrite <- (take_drop_middle h (length magic) formatVer) at 1 by done.
    by rewrite H1, Nat.add_1_r.
Qed.

(** The spool [files] holds the bodies [bodies]: each file opens and yields its body. *)
Definition holds (master : text) (files bodies : gmap text text) : Prop :=
  forall id, valid_blob_id id = true ->
    match files !! id, bodies !! id with
    | None, None => True
    | Some _, Some body => exists r, Get master id files = Ok r /\ yields r body None
    | _, _ => False
    end.

Lemma Get_other master id id' f files :
  id <> id' -> Get master id' (<[id := f]> files) = Get master id' files.
Proof. intros Hne. unfold Get. by rewrite lookup_insert_ne. Qed.

Lemma holds_insert master id salt files bodies data :
  length salt = saltSize -> holds master files bodies ->
  holds master (<[id := header salt ++ seal_chunks (length data) (aeadFor master salt) 0 data]> files)
    (<[id := data]> bodies).
Proof.
  intros Hs Hh id' Hid'. destruct (decide (id = id')) as [<-|Hne].
  - rewrite !lookup_insert_eq. eexists. split.
    + eapply Get_encoded; [done|exact Hs|by rewrite lookup_insert_eq].
    + by apply (seal_chunks_yield _ _ _ _ []).
  - rewrite !lookup_insert_ne by done. specialize (Hh id' Hid').
    destruct (files !! id'), (bodies !! id'); try done. by rewrite Get_other.
Qed.

Lemma holds_delete master id files bodies :
  holds master files bodies -> holds master (delete id files) (delete id bodies).
Proof.
  intros Hh id' Hid'. destruct (decide (id = id')) as [<-|Hne]; [by rewrite !lookup_delete_eq|].
  specialize (Hh id' Hid'). rewrite !lookup_delete_ne by done.
  destruct (files !! id') eqn:E, (bodies !! id'); try done. destruct Hh as (r & Hr & Hy). exists r. split; [|done].
  unfold Get in *. by rewrite lookup_delete_ne.
Qed.
End blob.

(** ** Properties *)

(** C19: a body reads back as it was stored.  [Put] always ends; refused, it leaves the spool
    as it was; accepted, it took the source to its end, within the limit, and whatever the
    sizes of the buffers it is read with, [Get] and [Read] give exactly its bytes and then
    the end of the file. *)
Theorem spool_round_trip `{AEADLaws} master id salt os src limit files :
  length salt = saltSize ->
  exists res files', Put master id (Ok salt) os src limit files = Some (res, files') /\
    match res with
    | Err _ => files' = files
    | Ok n => exists data err rem r,
        ReadAll src = (data, err, rem) /\ ends_source err = true /\ n = Z.of_nat (length data) /\
        (0 < limit -> n <= limit) /\ (forall id', id' <> id -> files' !! id' = files !! id') /\
        Get master id files' = Ok r /\
        forall sizes fuel, (forall i, (0 < sizes i)%nat) -> (length data < fuel)%nat ->
          drain fuel sizes 0 r = Some (data, None)
    end.
Proof.
  intros Hs. unfold Put. destruct (valid_blob_id id) eqn:Hid; cbn [negb]; [|by eexists _, _].
  destruct (files !! id) eqn:Ef; [by eexists _, _|]. destruct (ReadAll src) as [[data err] rem] eqn:Er.
  rewrite put_loop_spec by lia. cbn [mbind option_bind]. unfold put_result. cbv zeta.
  destruct ((0 <? limit) && _) eqn:El; [by eexists _, _|].
  destruct (ends_source err) eqn:Ee; [|by eexists _, _]. destruct os as [e|]; [by eexists _, _|].
  eexists _, _. split; [done|]. exists data, err, rem. eexists. split_and!; try done.
  - intros Hl. apply andb_false_iff in El as [El|El]; bools; lia.
  - intros id' Hne. by rewrite lookup_insert_ne.
  - eapply Get_encoded; [done|exact Hs|by rewrite lookup_insert_eq].
  - intros sizes fuel Hsz Hfuel. apply drain_spec; [done|done|]. by apply (seal_chunks_yield _ _ _ _ []).
Qed.

(** C20: a file that reads to its end without an error was sealed with the master key, chunk
    by chunk in this order: each chunk is the sealing, under the file's own salt and the
    nonce of its position, of the bytes it gave, the last chunk and only the last is marked
    so, and nothing follows it.  A file cut short, extended, or with chunks exchanged is
    that only if the cipher was forged. *)
Theorem spool_authentic `{AEADLaws} master id files r fuel sizes d :
  (forall i, (0 < sizes i)%nat) ->
  Get master id files = Ok r -> drain fuel sizes 0 r = Some (d, None) ->
  exists salt chunks last, length salt = saltSize /\ d = concat chunks ++ last /\
    files !! id = Some (header salt ++ sealed_stream (aeadFor master salt) 0 chunks last).
Proof.
  intros Hsz Hget Hdrain. destruct (Get_header _ _ _ _ Hget) as (salt & Hs & Hf & Hk & Hp & Hc & Hd).
  apply drain_yields in Hdrain; [|done].
  destruct (yields_authentic r d Hdrain Hd) as (chunks & last & -> & Hfile).
  exists salt, chunks, last. rewrite Hp. split_and!; [done..|]. by rewrite Hf, Hfile, Hk, Hc.
Qed.

(** C18: the spool of files implements the spool of bodies the handlers are modelled with:
    while no system call fails, [Put] and [Delete] return what the model's operations
    return and leave files that hold the bodies they leave, and [Get] opens a reader of
    the body the model gives, or fails where it fails. *)
Theorem spool_refines `{AEADLaws} master id salt src limit files w :
  length salt = saltSize -> e_blobs (wenv w) = [] -> valid_blob_id id = true -> holds master files (s_blobs (st w)) ->
  (exists files', Put master id (Ok salt) None src limit files = Some (fst (blob_Put id src limit w), files') /\
     holds master files' (s_blobs (st (snd (blob_Put id src limit w))))) /\
  (fst (Delete id None files) = fst (blob_Delete id w) /\
     holds master (snd (Delete id None files)) (s_blobs (st (snd (blob_Delete id w))))) /\
  match fst (blob_Get id w) with
  | Ok body => exists r d, Get master id files = Ok r /\ body = of_text d /\ yields r d None
  | Err e => Get master id files = Err e
  end.
Proof.
  intros Hs He Hid Hh. destruct w as [s e]. cbn in He, Hh. split_and!.
  - unfold Put, blob_Put. rewrite Hid. cbn [negb]. unfold next_blob_fault, bind, get. cbn [wenv st]. rewrite He.
    cbn [wenv st fst snd]. pose proof (Hh id Hid) as Hi.
    destruct (files !! id) as [f|] eqn:Ef, (s_blobs s !! id) as [b|] eqn:Eb; try done; [by eexists|].
    destruct (ReadAll src) as [[data err] rem]. rewrite put_loop_spec by lia. unfold put_result. cbn [mbind option_bind].
    rewrite Z.add_0_l. cbv zeta. destruct ((0 <? limit) && _); [by eexists|].
    destruct (ends_source err); [|by eexists]. eexists. split; [done|]. cbn [snd st modify].
    by apply holds_insert.
  - unfold Delete, blob_Delete. by rewrite Hid; cbn [negb]; unfold next_blob_fault, bind; cbn [wenv]; rewrite He.
  - unfold Delete, blob_Delete. rewrite Hid. cbn [negb]. unfold next_blob_fault, bind. cbn [wenv]. rewrite He.
    cbn. by apply holds_delete.
  - unfold blob_Get. rewrite Hid. cbn [negb]. unfold next_blob_fault, bind, get. cbn [wenv st]. rewrite He.
    cbn [fst ret st]. pose proof (Hh id Hid) as Hi.
    destruct (s_blobs s !! id) as [b|] eqn:Eb, (files !! id) as [f|] eqn:Ef; try done.
    + destruct Hi as (r & Hr & Hy). by exists r, b.
    + unfold Get. by rewrite Hid, Ef.
Qed.

(** A secret sealed in the database opens to itself, and nothing opens that was not
    sealed with the master key. *)
Theorem Seal_Unseal `{AEADLaws} master salt nonce plaintext sealed out :
  length salt = saltSize -> length nonce = nonceSize ->
  (Seal master (Ok salt) (Ok nonce) plaintext = Ok sealed -> Unseal master sealed = Ok plaintext) /\
  (Unseal master sealed = Ok out -> exists salt nonce, Seal master (Ok salt) (Ok nonce) out = Ok sealed).
Proof.
  intros Hs Hn. split.
  - cbn [Seal]. intros [= <-]. unfold Unseal.
    rewrite (proj2 (Nat.ltb_ge _ _)) by (rewrite !length_app, seal_length, Hs, Hn; unfold tagSize; lia).
    rewrite take_app_length', drop_app_length' by done. rewrite take_app_length' by done.
    rewrite app_assoc, drop_app_length' by (rewrite length_app; lia). by rewrite open_seal.
  - unfold Unseal. destruct (Nat.ltb_spec (length sealed) (saltSize + nonceSize + tagSize)) as [|Hl]; [done|].
    destruct (gcm_Open _ _ _) as [p|] eqn:Eo; [|done]. intros [= ->]. apply open_authentic in Eo.
    exists (take saltSize sealed), (take nonceSize (drop saltSize sealed)). cbn [Seal]. f_equal.
    rewrite <- Eo. rewrite <- (drop_drop sealed nonceSize saltSize), take_drop. apply take_drop.
Qed.

(** *** Witnesses *)

(** A cipher with the properties: a tag that is the nonce. *)
Definition sample_tag (n : text) : text := take 16 (n ++ replicate 16 "0"%char).

#[local] Instance sample_aead : AEAD := {|
  hkdf_sha256 := fun secret salt info => take 32 (secret ++ salt ++ info ++ replicate 32 "0"%char);
  gcm_Seal := fun k n p => p ++ sample_tag n;
  gcm_Open := fun k n c =>
    if bool_decide (drop (length c - 16) c = sample_tag n) && (16 <=? length c)%nat then Some (take (length c - 16) c) else None
|}.

Lemma length_sample_tag n : length (sample_tag n) = 16%nat.
Proof. unfold sample_tag. rewrite length_take, length_app, length_replicate. lia. Qed.

#[local] Instance sample_aead_laws : AEADLaws.
Proof.
  split.
  - intros k n p. cbn [gcm_Open gcm_Seal sample_aead]. rewrite length_app, length_sample_tag, Nat.add_sub.
    rewrite drop_app_length, take_app_length, bool_decide_eq_true_2 by done. cbn [andb].
    by rewrite (proj2 (Nat.leb_le _ _)) by lia.
  - intros k n c p. cbn [gcm_Open gcm_Seal sample_aead]. destruct (bool_decide _ && _) eqn:E; [|done]. bools.
    intros [= <-]. by rewrite <- H, take_drop.
  - intros k n p. cbn [gcm_Seal sample_aead]. by rewrite length_app, length_sample_tag.
  - intros k n n' p Hn Hn' Hne. cbn [gcm_Open gcm_Seal sample_aead].
    rewrite length_app, length_sample_tag, Nat.add_sub, drop_app_length, bool_decide_eq_false_2; [done|].
    unfold sample_tag. rewrite !take_app_ge by lia. rewrite Hn, Hn'. intros E. apply app_inj_2 in E as [E _]; done.
Qed.

Definition sample_salt : text := "0123456789abcdef"%string.

Lemma spool_round_trip_witness :
  exists r files', Put "master"%string "0a1b"%string (Ok sample_salt) None (of_text "hello"%string) 100 ∅ = Some (Ok 5, files') /\
    Get "master"%string "0a1b"%string files' = Ok r /\ drain 6 (fun _ => 2%nat) 0 r = Some (T "hello", None).
Proof.
  destruct (spool_round_trip "master"%string "0a1b"%string sample_salt None (of_text "hello"%string) 100 ∅ eq_refl)
    as (res & files' & Hput & Hres).
  assert (Hok : exists f, Put "master"%string "0a1b"%string (Ok sample_salt) None (of_text "hello"%string) 100 ∅ = Some (Ok 5, f)).
  { eexists. vm_compute. reflexivity. }
  destruct Hok as [f Hok]. rewrite Hok in Hput. injection Hput as <- <-.
  destruct Hres as (data & err & rem & r & Hread & _ & _ & _ & _ & Hget & Hdrain). exists r, f. split_and!; [done..|].
  apply ReadAll_of_text in Hread as [-> _]. apply Hdrain; [intros; lia|cbn; lia].
Defined.

Definition sample_files : gmap text text :=
  {[ T "0a1b" := header sample_salt ++ sealed_stream (aeadFor "master"%string sample_salt) 0 [] "hello"%string ]}.

Lemma spool_authentic_witness :
  exists r, Get "master"%string "0a1b"%string sample_files = Ok r /\ drain 6 (fun _ => 3%nat) 0 r = Some (T "hello", None) /\
  exists salt chunks last, length salt = saltSize /\ T "hello" = concat chunks ++ last /\
    sample_files !! T "0a1b" = Some (header salt ++ sealed_stream (aeadFor "master"%string salt) 0 chunks last).
Proof.
  eexists. split; [vm_compute; reflexivity|]. split; [vm_compute; reflexivity|].
  eapply (spool_authentic "master"%string "0a1b"%string sample_files _ 6 (fun _ => 3%nat)); [lia|vm_compute; reflexivity..].
Defined.

Lemma spool_refines_witness :
  let s := blank in
  let w := World s quiet in
  exists files', Put "master"%string "0a1b"%string (Ok sample_salt) None (of_text "hello"%string) 100 ∅
      = Some (fst (blob_Put "0a1b"%string (of_text "hello"%string) 100 w), files') /\
    holds "master"%string files' (s_blobs (st (snd (blob_Put "0a1b"%string (of_text "hello"%string) 100 w)))).
Proof.
  intros s w. apply (spool_refines "master"%string "0a1b"%string sample_salt (of_text "hello"%string) 100 ∅ w);
    [reflexivity..|]. intros id _. by rewrite !lookup_empty.
Defined.

Lemma Seal_Unseal_witness :
  exists sealed, Seal "master"%string (Ok sample_salt) (Ok (T "nonce-12byte")) "secret"%string = Ok sealed /\
    Unseal "master"%string sealed = Ok (T "secret").
Proof.
  eexists. split; [reflexivity|].
  by apply (Seal_Unseal "master"%string sample_salt "nonce-12byte"%string "secret"%string _ []).
Defined.

(** ** The master key *)

(** What an opener knows of the file. *)
Definition knows (file : option text) (p : opener) : Prop :=
  match p with
  | Creating key => length key = keySize
  | Writing key w => length key = keySize /\ (w < keySize)%nat /\ file = Some (take w key)
  | Syncing key | Opened key => length key = keySize /\ file = Some key
  | _ => True
  end.

Definition is_writing (p : opener) : bool := match p with Writing _ _ => true | _ => false end.

Definition keyring_ok (kr : keyring) : Prop :=
  (forall i p, kr_openers kr !! i = Some p -> knows (kr_file kr) p) /\
  (forall i j p q, kr_openers kr !! i = Some p -> kr_openers kr !! j = Some q -> is_writing p = true -> is_writing q = true -> i = j).

Lemma drawn_length random : length (drawn random) = keySize.
Proof. unfold drawn. by rewrite length_map, length_seq. Qed.

(** A step keeps what its opener knows; it leaves the file, makes it where there was none, or writes on in it. *)
Lemma open_step_knows path s file p file' p' :
  knows file p -> open_step path s file p = (file', p') ->
  knows file' p' /\ ((file' = file /\ (is_writing p' = true -> is_writing p = true)) \/ (file = None /\ file' = Some []) \/ is_writing p = true).
Proof.
  pose proof drawn_length as Hd.
  destruct p as [| | | |key|key w|key|key|e], s as [n random|e']; cbn [open_step]; intros Hk; [..|intros [= <- <-]; auto|intros [= <- <-]; auto];
    try (intros [= <- <-]; cbn in *; naive_solver).
  - destruct file as [raw|]; [destruct (Nat.eqb_spec (length raw) keySize)|]; intros [= <- <-]; cbn; auto.
  - destruct file as [raw|]; intros [= <- <-]; cbn; [by auto|]. split; [|by auto]. unfold keySize. split_and!; [done|lia|done].
  - destruct Hk as (Hl & Hw & _). destruct (Nat.leb_spec keySize (w + n)); intros [= <- <-]; (split; [|by auto]); cbn.
    + by rewrite take_ge by lia.
    + by split_and!.
Qed.

(** The others keep what they know. *)
Lemma knows_other file file' p q :
  knows file p -> knows file q -> (is_writing p = true -> is_writing q = false) ->
  file' = file \/ (file = None /\ file' = Some []) \/ is_writing p = true -> knows file' q.
Proof.
  intros Hp Hq Hw [->|[[-> ->]|Hwp]]; [done|by destruct q; cbn in *; naive_solver|].
  specialize (Hw Hwp). destruct p as [| | | | |key w| | |]; try discriminate Hwp. destruct Hp as (Hl & Hlt & ->).
  assert (Hn : length (take w key) = w) by (rewrite length_take; lia).
  destruct q as [| | | |k|k wk|k|k|]; cbn in *; try done; destruct Hq as [Hk [= Hk']]; exfalso; rewrite Hk' in Hn; lia.
Qed.

Lemma opened_by_ok path kr step : keyring_ok kr -> keyring_ok (opened_by path kr step).
Proof.
  intros [Hk Hu]. destruct step as [i s]. unfold opened_by. cbn [fst snd]. destruct (kr_openers kr !! i) as [p|] eqn:Ei; [|done].
  destruct (open_step path s (kr_file kr) p) as [file' p'] eqn:Es. destruct (open_step_knows _ _ _ _ _ _ (Hk _ _ Ei) Es) as [Hp' Hf].
  split; cbn [kr_file kr_openers].
  - intros j q [[-> [<- _]]|[Hij Hq]]%list_lookup_insert_Some; [done|].
    eapply (knows_other (kr_file kr) file' p); [by eapply Hk..| |by naive_solver].
    intros Hw. destruct (is_writing q) eqn:Eq; [|done]. by destruct Hij; eapply Hu.
  - assert (Hnew : forall j q, j <> i -> kr_openers kr !! j = Some q -> is_writing q = true -> is_writing p' = true -> False).
    { intros j q Hij Hq Hwq Hwp'. destruct Hf as [[-> Hw]|[[Hnone _]|Hw]]; [by destruct Hij; eapply Hu; eauto| |by destruct Hij; eapply Hu].
      specialize (Hk _ _ Hq). destruct q; try discriminate Hwq. cbn in Hk. naive_solver. }
    intros j1 j2 q1 q2 H1 H2 Hw1 Hw2. apply list_lookup_insert_Some in H1 as [[-> [<- _]]|[H1 H1']], H2 as [[-> [<- _]]|[H2 H2']].
    + done.
    + exfalso. by eapply (Hnew j2 q2).
    + exfalso. by eapply (Hnew j1 q1).
    + by eapply Hu.
Qed.

Lemma openings_ok path kr steps : keyring_ok kr -> keyring_ok (openings path kr steps).
Proof. revert kr. induction steps as [|s steps IH]; intros kr Hk; [done|]. apply IH. by apply opened_by_ok. Qed.

Lemma all_starting_ok file n : keyring_ok (all_starting file n).
Proof.
  split; cbn.
  - intros i p [-> _]%lookup_replicate. done.
  - intros i j p q [-> _]%lookup_replicate. done.
Qed.

(** A file that is there is not written, unless by who made it. *)
Lemma opened_by_file path kr step raw :
  kr_file kr = Some raw -> Forall (fun p => is_writing p = false) (kr_openers kr) ->
  kr_file (opened_by path kr step) = Some raw /\ Forall (fun p => is_writing p = false) (kr_openers (opened_by path kr step)).
Proof.
  intros Hf Hw. destruct step as [i s]. unfold opened_by. cbn [fst snd]. destruct (kr_openers kr !! i) as [p|] eqn:Ei; [|done].
  pose proof (Forall_lookup_1 _ _ _ _ Hw Ei) as Hp. destruct (open_step path s (kr_file kr) p) as [file' p'] eqn:Es. cbn [kr_file kr_openers].
  assert (E : file' = Some raw /\ is_writing p' = false).
  { rewrite Hf in Es. destruct p, s; try discriminate Hp; cbn [open_step] in Es; try (by injection Es as <- <-).
    destruct (length raw =? keySize)%nat; by injection Es as <- <-. }
  destruct E as [-> Hp']. split; [done|]. by apply Forall_insert.
Qed.

Lemma openings_file path kr steps raw :
  kr_file kr = Some raw -> Forall (fun p => is_writing p = false) (kr_openers kr) -> kr_file (openings path kr steps) = Some raw.
Proof.
  revert kr. induction steps as [|s steps IH]; intros kr Hf Hw; [done|]. cbn. by apply IH; eapply opened_by_file.
Qed.

(** Who has opened the spool stays so. *)
Lemma openings_opened path kr steps i key :
  kr_openers kr !! i = Some (Opened key) -> kr_openers (openings path kr steps) !! i = Some (Opened key).
Proof.
  revert kr. induction steps as [|[j s] steps IH]; intros kr Hi; [done|]. cbn. apply IH. unfold opened_by. cbn [fst snd].
  destruct (kr_openers kr !! j) as [p|] eqn:Ej; [|done]. destruct (open_step path s (kr_file kr) p) as [file' p'] eqn:Es. cbn [kr_openers].
  destruct (decide (i = j)) as [<-|Hij]; [|by rewrite list_lookup_insert_ne].
  rewrite Hi in Ej. injection Ej as <-. injection Es as _ <-. apply list_lookup_insert_eq. by eapply lookup_lt_Some.
Qed.

(** A key of which only a part was written, when a write failed or the process was killed, stays: nobody opens the spool again. *)
Lemma half_written_key_is_final path raw n steps key :
  length raw <> keySize -> Opened key ∉ kr_openers (openings path (all_starting (Some raw) n) steps).
Proof.
  intros Hl Hin. apply list_elem_of_lookup in Hin as [i Hi].
  destruct (openings_ok path _ steps (all_starting_ok (Some raw) n)) as [Hk _]. apply Hk in Hi. cbn in Hi. destruct Hi as [Hkey Hf].
  rewrite (openings_file _ _ _ raw) in Hf; [|done|by apply Forall_replicate]. injection Hf as ->. done.
Qed.

(** One opener, undisturbed, makes a key and has it. *)
Lemma first_opening path random :
  openings path (all_starting None 1) (replicate 8 (0%nat, Works keySize random)) =
    {| kr_file := Some (drawn random); kr_openers := [Opened (drawn random)] |}.
Proof. reflexivity. Qed.

(** Two at once: the second finds the file while it is written and gives up, or once it is whole and has the same key. *)
Example two_openings random :
  let one n := (0%nat, Works n random) in let two := (1%nat, Works keySize (fun _ => "x"%char)) in
  kr_openers (openings []%list (all_starting None 2) [one 0; two; one 0; two; one 0; two; one 0; two; one 0; two; one 20; two; one 12; one 0]%nat) =
    [Opened (drawn random); Refused (wrong_size [] (take 20 (drawn random)))] /\
  kr_openers (openings []%list (all_starting None 2) [one 0; two; one 0; two; one 0; two; one 0; two; one 0; one 32; two; two; one 0]%nat) =
    [Opened (drawn random); Opened (drawn random)].
Proof. split; reflexivity. Qed.

(** C21: however many processes open the spool at once or later, whatever system calls fail and whoever is killed in between,
    there is one master key: whoever has opened the spool has the 32 bytes that are in the file then and ever after, and a
    file of a key that was there is never written to. *)
Theorem master_key_kept path file n steps :
  let kr := openings path (all_starting file n) steps in
  (forall key later, Opened key ∈ kr_openers kr -> length key = keySize /\ kr_file (openings path kr later) = Some key) /\
  (forall raw, file = Some raw -> kr_file kr = Some raw).
Proof.
  cbv zeta. split.
  - intros key later Hin. apply list_elem_of_lookup in Hin as [i Hi]. apply (openings_opened path _ later) in Hi.
    assert (Hok : keyring_ok (openings path (openings path (all_starting file n) steps) later)) by apply openings_ok, openings_ok, all_starting_ok.
    exact (proj1 Hok _ _ Hi).
  - intros raw ->. apply openings_file; [done|by apply Forall_replicate].
Qed.
