(* ===== verification/Api.v ===== *)
(** * The administration interface: requests, replies, and who may ask (internal/api/api.go, audit.go, tokens.go)

    A handler is a computation of [World.M] that answers a [response].  What the HTTP
    library reads from the wire is in [request]; a decoded body is an argument of its
    handler, [None] when it does not decode.  Logging and the headers of the response
    are left out. *)

From S2P Require Import Prelude GoStrings Base64 Sha Times Net Errors StoreTypes StoreQueue.
From S2P Require Import StoreDomains StoreUsers Auth RateLimit World.
From Stdlib Require Import QArith.
Open Scope Z_scope.

Record request := Req {
  rq_method : text;
  rq_host : text;
  rq_origin : text;                     (* the Origin header, empty when there is none *)
  rq_authorization : text;
  rq_cookie : option text;              (* the session cookie's value *)
  rq_remote : text;
  rq_agent : text
}.

Inductive cookie_change := KeepCookie | SetCookie (token : text) (maxAge : Z) | ClearCookie.

(** What the lists and objects of a body are made of. *)
Inductive item :=
| IDomain (d : domain)
| IMessage (m : message)
| IRaw (m : message) (body : reader)
| IEvent (e : event_row) (user domain : text)
| IRecipients (domainID : Z) (addrs : list text)
| IAccount (id : Z) (username : text) (allowed : list text) (enabled : bool).

(** The body of a reply that succeeds is the part of it the model keeps. *)
Record response := Response {
  rs_status : Z;
  rs_error : text;
  rs_body : jmap;
  rs_items : list item;
  rs_cookie : cookie_change
}.

Definition fail (status : Z) (code : text) : response := Response status code [] [] KeepCookie.
Definition ok (status : Z) (body : jmap) : response := Response status [] body [] KeepCookie.
Definition ok_items (status : Z) (body : jmap) (items : list item) : response := Response status [] body items KeepCookie.

(** The user and the token [authed] puts in the request's context. *)
Record principal := Principal { p_user : User; p_token : option APIToken }.

Definition clientIP (r : request) : text := hostOf (rq_remote r).

(** ** Statements on the account tables *)

Definition on_accounts {A} (f : user_tables -> result A * user_tables) : M (result A) :=
  statement (fun s => let '(r, t) := f (s_users s) in (r, set_s_users t s)).

(** One that reports no error of its own. *)
Definition exec_accounts (f : user_tables -> user_tables) : M (result unit) := on_accounts (fun t => (Ok (), f t)).

(** [rand.Read] fills a buffer of [n] bytes, or fails. *)
Definition random_bytes (n : nat) : M (result text) :=
  let* b := new_id in
  ret match b with
      | Some b => Ok (take n (b ++ replicate n "000"%char))
      | None => Err (EText "no random bytes"%string)
      end.

(** The limiter of sign-ins, under its lock. *)
Definition login_Allow (key : text) : M bool :=
  let* now := now_ in
  fun w => let '(ok, l) := Allow key now (s_logins (st w)) in (ok, World (set_s_logins l (st w)) (wenv w)).

Definition login_Reset (key : text) : M unit := modify (fun s => set_s_logins (RateLimit.Reset key (s_logins s)) s).

(** ** The audit trail *)

Definition has_key (k : text) (m : jmap) : bool := existsb (fun kv => bool_decide (fst kv = k)) m.
Definition add_missing (k : text) (v : jval) (m : jmap) : jmap := if has_key k m then m else m ++ [(k, v)].

Definition audited (p : option principal) (r : request) (e : event) : event :=
  let user := match EUserID e, p with None, Some p => Some (UID (p_user p)) | u, _ => u end in
  let data := match p with Some p => add_missing "by"%string (JStr (Email (p_user p))) (EData e) | None => EData e end in
  let data := match p with
              | Some (Principal _ (Some tok)) =>
                  List.filter (fun kv => negb (bool_decide (fst kv = T "via_token"))) data
                  ++ [(T "via_token", JStr (TokName tok))]
              | _ => data end in
  Event (EType e) (EDomainID e) (EQueueID e) user (add_missing "ip"%string (JStr (clientIP r)) data).

Definition audit (p : option principal) (r : request) (e : event) : M (result unit) :=
  let* t := now_ in
  statement (fun s => (Ok (), set_s_events (RecordEvent (audited p r e) t (s_events s)) s)).

(** ** Who asks *)

Definition bearerToken (r : request) : text :=
  let h := rq_authorization r in
  if (length h <? 7)%nat || negb (equal_fold (take 7 h) "bearer "%string) then [] else trim_space (drop 7 h).

(** A token acts with its creator's account, for an administrator's token of an
    administrator as such, otherwise as a viewer. *)
Definition narrowerRole (a b : text) : text :=
  if bool_decide (a = RoleAdmin) && bool_decide (b = RoleAdmin) then RoleAdmin else RoleViewer.

Definition with_role (role : text) (u : User) : User := with_scope role (AllowedDomains u) u.

Definition principalForToken (presented : text) : M (result principal) :=
  let* now := now_ in
  let* tok := query (fun s => APITokenByHash (HashToken presented) now (s_users s)) in
  match tok with
  | Err e => ret (Err e)
  | Ok tok =>
      match CreatedBy tok with
      | None => ret (Err not_found)
      | Some id =>
          let* owner := query (fun s => UserByID id (s_users s)) in
          ret match owner with
              | Err e => Err e
              | Ok owner => Ok (Principal (with_role (narrowerRole (Role owner) (TokRole tok)) owner) (Some tok))
              end
      end
  end.

Definition authedByToken (presented : text) (next : principal -> M response) : M response :=
  let* p := principalForToken presented in
  match p with
  | Err _ => ret (fail 401 "invalid_token"%string)
  | Ok p =>
      let* now := now_ in
      exec_accounts (TouchAPIToken (match p_token p with Some tok => TokID tok | None => 0 end) now) ;;;
      next p
  end.

Definition authed (next : principal -> request -> M response) (r : request) : M response :=
  let presented := bearerToken r in
  if negb (bool_decide (presented = [])) then authedByToken presented (fun p => next p r)
  else
    match rq_cookie r with
    | None | Some [] => ret (fail 401 "auth_required"%string)
    | Some value =>
        let* now := now_ in
        let* user := query (fun s => UserBySessionToken (HashToken value) now (s_users s)) in
        match user with
        | Err _ => ret (Response 401 "auth_required"%string [] [] ClearCookie)
        | Ok user => next (Principal user None) r
        end
    end.

Definition admin (next : principal -> request -> M response) : request -> M response :=
  authed (fun p r => if negb (bool_decide (Role (p_user p) = RoleAdmin)) then ret (fail 403 "admin_required"%string)
                     else next p r).

Definition operator (next : principal -> request -> M response) : request -> M response :=
  authed (fun p r =>
    if negb (bool_decide (Role (p_user p) = RoleAdmin)) && negb (bool_decide (Role (p_user p) = RoleOperator))
    then ret (fail 403 "admin_required"%string) else next p r).

Definition fleetWide (next : principal -> request -> M response) : request -> M response :=
  authed (fun p r => if Scoped (p_user p) then ret (fail 403 "domain_scoped"%string) else next p r).

(** ** The domains an account sees *)

Definition domainsForUser (u : option User) (ds : list domain) : list domain :=
  let all := ListDomains ds in
  match u with
  | None => all
  | Some u =>
      if negb (Scoped u) then all
      else List.filter (fun d => bool_decide (to_lower (DName d) ∈ map to_lower (AllowedDomains u))) all
  end.

(** [None] is the nil slice: every domain. *)
Definition allowedDomainIDsForUser (u : option User) (ds : list domain) : option (list Z) :=
  match u with
  | None => None
  | Some u => if negb (Scoped u) then None else Some (map DID (domainsForUser (Some u) ds))
  end.

(** ** Cross-origin requests *)

(** The host of [url.Parse], which is the library's. *)
Class UrlLib := { url_host : text -> option text }.

Definition sameOrigin `{UrlLib} (origin host : text) : bool :=
  match url_host origin with
  | None | Some [] => false
  | Some h => equal_fold h host
  end.

(** [page] makes a reply of a response. *)
Definition withSameOrigin `{UrlLib} {A} (page : response -> A) (next : request -> M A) (r : request) : M A :=
  if bool_decide (rq_method r ∈ [T "GET"; T "HEAD"; T "OPTIONS"]) then next r
  else if negb (bool_decide (rq_origin r = [])) && negb (sameOrigin (rq_origin r) (rq_host r)) then
    ret (page (fail 403 "cross_origin_refused"%string))
  else next r.

Definition isEmail (s : text) : bool :=
  match last_index "@"%char s with
  | None => false
  | Some at_ =>
      (0 <? at_)%nat && (S at_ <? length s)%nat
      && forallb (fun c => negb (bool_decide (c ∈ [SP; TAB; CR; LF]))) s
  end.
