(* ===== verification/Account.v ===== *)
(** * Signing in and the account pages (internal/api/handlers.go, account.go)

    First set-up, login with password and second factor, logout, change of password,
    enrolment and removal of the second factor.  The picture of the enrolment address
    comes from rsc.io/qr and is a function. *)

From S2P Require Import Prelude GoStrings Base64 Sha Times Net Errors Totp StoreTypes StoreQueue.
From S2P Require Import StoreDomains StoreUsers Auth RateLimit World Blob Api.
From Stdlib Require Import QArith.
Open Scope Z_scope.

(** The picture of an address, or an error. *)
Class QRLib := { qr_png : text -> result text }.

(** What the server is made with. *)
Record AccountConfig := {
  ac_passwordLogin : bool;              (* no identity provider, or it leaves passwords allowed *)
  ac_sessionTTL : Z;
  ac_hostname : text;
  ac_master : text                      (* the spool's key *)
}.

Definition EventLogin : text := "login"%string.
Definition EventLoginFailed : text := "login_failed"%string.
Definition EventPasswordChanged : text := "password_changed"%string.
Definition EventTOTPEnabled : text := "totp_enabled"%string.
Definition EventTOTPDisabled : text := "totp_disabled"%string.
Definition EventTOTPReset : text := "totp_reset"%string.
Definition EventRecoveryCodeUsed : text := "totp_recovery_code_used"%string.
Definition EventRecoveryRenewed : text := "totp_recovery_codes_renewed"%string.

Definition user_event (typ : text) (user : option Z) (data : jmap) : event := Event typ None None user data.

Section account.
Context `{PasswordCrypto} `{AEAD} `{QRLib}.
Context (cfg : AccountConfig).

(** ** Sessions *)

Definition session_ttl : Z := if ac_sessionTTL cfg <=? 0 then 7 * 24 * hour else ac_sessionTTL cfg.

(** The new token, or the error. *)
Definition startSession (r : request) (userID : Z) : M (result text) :=
  let* random := random_bytes 32 in
  match NewSessionToken random with
  | Err e => ret (Err e)
  | Ok (token, hash) =>
      let* now := now_ in
      let* created := on_accounts (CreateSession hash userID now session_ttl (rq_agent r)) in
      ret match created with Err e => Err e | Ok _ => Ok token end
  end.

Definition with_session (token : text) (rs : response) : response :=
  Response (rs_status rs) (rs_error rs) (rs_body rs) (rs_items rs) (SetCookie token (Z.quot session_ttl second)).

(** ** First set-up *)

Record setupRequest := { su_email : text; su_password : text }.

Definition handleSetup (r : request) (body : option setupRequest) : M response :=
  let* n := query (fun s => Ok (CountUsers (s_users s))) in
  match n with
  | Err _ => ret (fail 500 "internal_error"%string)
  | Ok n =>
    if 0 <? n then ret (fail 409 "already_setup"%string)
    else match body with
    | None => ret (fail 400 "invalid_body"%string)
    | Some req =>
      if negb (isEmail (su_email req)) then ret (fail 400 "invalid_email"%string)
      else if bool_decide (is_Some (ValidatePassword (su_password req))) then ret (fail 400 "invalid_password"%string)
      else
        let* salt := random_bytes saltLen in
        match HashPassword salt (su_password req) with
        | Err _ => ret (fail 500 "user_creation_failed"%string)
        | Ok hash =>
          let* now := now_ in
          let* created := on_accounts (CreateFirstUser (su_email req) hash RoleAdmin now) in
          match created with
          | Err _ => ret (fail 409 "already_setup"%string)
          | Ok userID =>
            audit None r (user_event EventLogin (Some userID)
              [(T "initial_setup", JBool true); (T "by", JStr (su_email req))]) ;;;
            let* session := startSession r userID in
            match session with
            | Err _ => ret (fail 500 "session_creation_failed"%string)
            | Ok token =>
                ret (with_session token (ok 201 [(T "id", JNum userID); (T "email", JStr (su_email req)); (T "role", JStr RoleAdmin)]))
            end
          end
        end
    end
  end.

(** ** The second factor *)

Definition totpSecret (u : User) : result text :=
  match std_DecodeString (TOTPSecret u) with
  | None | Some [] => Err (EText "no totp secret"%string)
  | Some sealed => Unseal (ac_master cfg) sealed
  end.

(** [s.record]. *)
Definition record (r : request) (p : option principal) (typ : text) (u : User) (data : jmap) : M unit :=
  audit p r (user_event typ (Some (UID u)) (List.filter (fun kv => negb (bool_decide (fst kv = T "email"))) data
                                            ++ [(T "email", JStr (Email u))])) ;;; ret tt.

(** A code of six digits is a time step's; anything else is a recovery code. *)
Definition secondFactorValid (r : request) (p : option principal) (u : User) (code : text) : M bool :=
  if LooksLikeCode code then
    match totpSecret u with
    | Err _ => ret false
    | Ok secret =>
        let* now := now_ in
        let '(step, valid) := Verify secret code now (TOTPLastStep u) in
        if negb valid then ret false
        else
          let* consumed := on_accounts (ConsumeTOTPStep (UID u) step) in
          ret match consumed with Ok b => b | Err _ => false end
    end
  else if bool_decide (NormalizeRecoveryCode code = []) then ret false
  else
    let* now := now_ in
    let* used := on_accounts (ConsumeRecoveryCode (UID u) (HashRecoveryCode code) now) in
    match used with
    | Err _ => ret false
    | Ok false => ret false
    | Ok true =>
        let* remaining := query (fun s => Ok (RecoveryCodesLeft (UID u) (s_users s))) in
        record r p EventRecoveryCodeUsed u [(T "left", JNum (match remaining with Ok n => n | Err _ => 0 end))] ;;;
        ret true
    end.

(** ** Login *)

Record loginRequest := { lg_email : text; lg_password : text; lg_code : text }.

Definition loginFailed (r : request) (email ip reason : text) : M response :=
  audit None r (user_event EventLoginFailed None
    [(T "email", JStr email); (T "ip", JStr ip); (T "reason", JStr reason)]) ;;;
  ret (fail 401 "invalid_credentials"%string).

(** What follows the checks: the session, the limiter, the trace in the log. *)
Definition signIn (r : request) (ip : text) (user : User) (code : text) : M response :=
  let* session := startSession r (UID user) in
  match session with
  | Err _ => ret (fail 500 "session_creation_failed"%string)
  | Ok token =>
      login_Reset ip ;;;
      let* now := now_ in
      on_accounts (TouchLogin (UID user) now) ;;;
      audit None r (user_event EventLogin (Some (UID user))
        ([(T "ip", JStr ip); (T "by", JStr (Email user))]
         ++ if TOTPEnabled user
            then [(T "second_factor", JStr (if LooksLikeCode code then "totp"%string else "recovery_code"%string))]
            else [])) ;;;
      ret (with_session token (ok 200 [(T "id", JNum (UID user)); (T "email", JStr (Email user));
             (T "role", JStr (Role user)); (T "allowed_domains", JStrs (AllowedDomains user))]))
  end.

Definition handleLogin (r : request) (body : option loginRequest) : M response :=
  if negb (ac_passwordLogin cfg) then ret (fail 403 "password_login_disabled"%string)
  else
    let ip := clientIP r in
    let* allowed := login_Allow ip in
    if negb allowed then ret (fail 429 "rate_limited"%string)
    else match body with
    | None => ret (fail 400 "invalid_body"%string)
    | Some req =>
      if MaxPasswordBytes <? Z.of_nat (length (lg_password req)) then
        loginFailed r (lg_email req) ip "password_too_long"%string
      else
        let* user := query (fun s => UserByEmail (lg_email req) (s_users s)) in
        match user with
        | Err _ =>
            (* the time of a hash, its result unused *)
            let* _ := random_bytes saltLen in
            loginFailed r (lg_email req) ip "unknown_account"%string
        | Ok user =>
          if negb (HasPassword user) then loginFailed r (lg_email req) ip "sso_account"%string
          else match VerifyPassword (lg_password req) (PasswordHash user) with
          | Ok true =>
            if TOTPEnabled user then
              if bool_decide (trim_space (lg_code req) = []) then ret (fail 401 "totp_required"%string)
              else
                let* valid := secondFactorValid r None user (lg_code req) in
                if valid then signIn r ip user (lg_code req)
                else loginFailed r (lg_email req) ip "wrong_code"%string
            else signIn r ip user (lg_code req)
          | _ => loginFailed r (lg_email req) ip "wrong_password"%string
          end
        end
    end.

Definition handleLogout (p : principal) (r : request) : M response :=
  match rq_cookie r with
  | Some value => exec_accounts (DeleteSession (HashToken value)) ;;; ret tt
  | None => ret tt
  end ;;;
  ret (Response 200 [] [(T "status", JStr "signed out"%string)] [] ClearCookie).

(** ** The account's own pages *)

(** The user, or the reply that refuses. *)
Definition accountGuard (p : principal) (r : request) : M (response + User) :=
  if bool_decide (is_Some (p_token p)) then ret (inl (fail 403 "session_required"%string))
  else
    let* allowed := login_Allow (clientIP r) in
    if negb allowed then ret (inl (fail 429 "rate_limited"%string))
    else if negb (HasPassword (p_user p)) then ret (inl (fail 400 "sso_account"%string))
    else ret (inr (p_user p)).

Definition passwordMatches (u : User) (password : text) : bool :=
  if MaxPasswordBytes <? Z.of_nat (length password) then false
  else match VerifyPassword password (PasswordHash u) with Ok b => b | Err _ => false end.

Definition wrongPassword (p : principal) (r : request) (u : User) : M response :=
  audit (Some p) r (user_event EventLoginFailed None
    [(T "email", JStr (Email u)); (T "reason", JStr "wrong_password"%string); (T "during", JStr "account_change"%string)]) ;;;
  ret (fail 401 "invalid_credentials"%string).

Record changePasswordReq := { cp_current : text; cp_new : text }.

Definition handleChangePassword (p : principal) (r : request) (body : option changePasswordReq) : M response :=
  let* g := accountGuard p r in
  match g, body with
  | inl refused, _ => ret refused
  | inr u, None => ret (fail 400 "invalid_body"%string)
  | inr u, Some req =>
      if negb (passwordMatches u (cp_current req)) then wrongPassword p r u
      else if bool_decide (is_Some (ValidatePassword (cp_new req))) then ret (fail 400 "invalid_password"%string)
      else if bool_decide (cp_new req = cp_current req) then ret (fail 400 "password_unchanged"%string)
      else
        let* salt := random_bytes saltLen in
        match HashPassword salt (cp_new req) with
        | Err _ => ret (fail 500 "internal_error"%string)
        | Ok hash =>
            let* updated := on_accounts (UpdatePassword (UID u) hash) in
            match updated with
            | Err _ => ret (fail 500 "internal_error"%string)
            | Ok _ =>
                match rq_cookie r with
                | Some value => exec_accounts (DeleteOtherSessions (UID u) (HashToken value)) ;;; ret tt
                | None => ret tt
                end ;;;
                login_Reset (clientIP r) ;;;
                record r (Some p) EventPasswordChanged u [] ;;;
                ret (ok 200 [(T "changed", JBool true)])
            end
        end
  end.

Definition totpIssuer : text :=
  if bool_decide (ac_hostname cfg = []) then "XeronMX"%string else "XeronMX ("%string ++ ac_hostname cfg ++ ")"%string.

Definition handleTOTPSetup (p : principal) (r : request) (body : option text) : M response :=
  let* g := accountGuard p r in
  match g, body with
  | inl refused, _ => ret refused
  | inr u, None => ret (fail 400 "invalid_body"%string)
  | inr u, Some password =>
      if TOTPEnabled u then ret (fail 409 "totp_already_enabled"%string)
      else if negb (passwordMatches u password) then wrongPassword p r u
      else
        let* random := random_bytes secretBytes in
        match NewSecret random with
        | Err _ => ret (fail 500 "internal_error"%string)
        | Ok secret =>
            let* salt := random_bytes saltSize in
            let* nonce := random_bytes nonceSize in
            match Seal (ac_master cfg) salt nonce secret with
            | Err _ => ret (fail 500 "internal_error"%string)
            | Ok sealed =>
                let* stored := on_accounts (SetPendingTOTP (UID u) (std_EncodeToString sealed)) in
                match stored with
                | Err _ => ret (fail 500 "internal_error"%string)
                | Ok _ =>
                    let uri := URI totpIssuer (Email u) secret in
                    match qr_png uri with
                    | Err _ => ret (fail 500 "internal_error"%string)
                    | Ok png =>
                        login_Reset (clientIP r) ;;;
                        ret (ok 200 [(T "secret", JStr secret); (T "uri", JStr uri);
                               (T "qr_code", JStr ("data:image/png;base64,"%string ++ std_EncodeToString png))])
                    end
                end
            end
        end
  end.

(** The codes and their hashes; the draws stop at the first that fails. *)
Fixpoint draw_codes (n : nat) : M (list (result text)) :=
  match n with
  | O => ret []
  | S n =>
      let* b := random_bytes recoveryCodeBytes in
      match b with
      | Err e => ret [Err e]
      | Ok b => let* rest := draw_codes n in ret (Ok b :: rest)
      end
  end.

Definition newRecoveryCodes : M (result (list text * list text)) :=
  let* draws := draw_codes RecoveryCodeCount in
  ret match NewRecoveryCodes draws with
      | Err e => Err e
      | Ok codes => Ok (codes, map HashRecoveryCode codes)
      end.

Definition handleTOTPEnable (p : principal) (r : request) (body : option text) : M response :=
  let* g := accountGuard p r in
  match g, body with
  | inl refused, _ => ret refused
  | inr u, None => ret (fail 400 "invalid_body"%string)
  | inr u, Some code =>
      if TOTPEnabled u then ret (fail 409 "totp_already_enabled"%string)
      else match totpSecret u with
      | Err _ => ret (fail 400 "totp_setup_required"%string)
      | Ok secret =>
          let* now := now_ in
          let '(step, valid) := Verify secret code now 0 in
          if negb valid then ret (fail 401 "invalid_totp_code"%string)
          else
            let* codes := newRecoveryCodes in
            match codes with
            | Err _ => ret (fail 500 "internal_error"%string)
            | Ok (codes, hashes) =>
                let* enabled := on_accounts (EnableTOTP (UID u) step hashes) in
                match enabled with
                | Err _ => ret (fail 500 "internal_error"%string)
                | Ok _ =>
                    login_Reset (clientIP r) ;;;
                    record r (Some p) EventTOTPEnabled u [] ;;;
                    ret (ok 200 [(T "enabled", JBool true); (T "recovery_codes", JStrs codes)])
                end
            end
      end
  end.

Record confirmReq := { cf_password : text; cf_code : text }.

Definition confirmIdentity (p : principal) (r : request) (body : option confirmReq) : M (response + User) :=
  let* g := accountGuard p r in
  match g, body with
  | inl refused, _ => ret (inl refused)
  | inr u, None => ret (inl (fail 400 "invalid_body"%string))
  | inr u, Some req =>
      if negb (TOTPEnabled u) then ret (inl (fail 400 "totp_not_enabled"%string))
      else if negb (passwordMatches u (cf_password req)) then let* rs := wrongPassword p r u in ret (inl rs)
      else
        let* valid := secondFactorValid r (Some p) u (cf_code req) in
        if negb valid then ret (inl (fail 401 "invalid_totp_code"%string))
        else login_Reset (clientIP r) ;;; ret (inr u)
  end.

Definition handleTOTPDisable (p : principal) (r : request) (body : option confirmReq) : M response :=
  let* g := confirmIdentity p r body in
  match g with
  | inl refused => ret refused
  | inr u =>
      let* off := exec_accounts (DisableTOTP (UID u)) in
      match off with
      | Err _ => ret (fail 500 "internal_error"%string)
      | Ok _ => record r (Some p) EventTOTPDisabled u [] ;;; ret (ok 200 [(T "enabled", JBool false)])
      end
  end.

Definition handleTOTPRecoveryCodes (p : principal) (r : request) (body : option confirmReq) : M response :=
  let* g := confirmIdentity p r body in
  match g with
  | inl refused => ret refused
  | inr u =>
      let* codes := newRecoveryCodes in
      match codes with
      | Err _ => ret (fail 500 "internal_error"%string)
      | Ok (codes, hashes) =>
          let* stored := on_accounts (ReplaceRecoveryCodes (UID u) hashes) in
          match stored with
          | Err _ => ret (fail 500 "internal_error"%string)
          | Ok _ => record r (Some p) EventRecoveryRenewed u [] ;;; ret (ok 200 [(T "recovery_codes", JStrs codes)])
          end
      end
  end.
End account.
