(* ===== verification/AccountProps.v ===== *)
(** * Signing in: guarantees *)

From S2P Require Import Prelude GoStrings Base64 Sha Times Net Errors Totp StoreTypes StoreQueue.
From S2P Require Import StoreDomains StoreUsers UserProps Auth RateLimit World Blob BlobProps Api Account.
From Stdlib Require Import QArith.
Open Scope Z_scope.

(** ** Preconditions of the pieces *)

Section pieces.
Context (md : mode).

Lemma wp_on_accounts {A} (f : user_tables -> result A * user_tables) Q s :
  (forall e, Q (Err e) s) -> (let '(r, t) := f (s_users s) in Q r (set_s_users t s)) ->
  wp md (on_accounts f) Q s.
Proof. intros He Hf. apply wp_statement; [auto|]. destruct (f (s_users s)). done. Qed.

Lemma wp_login_Allow key Q s :
  (forall now, s_now s <= now ->
     let '(b, l) := Allow key now (s_logins s) in Q b (set_s_logins l (set_s_now now s))) ->
  wp md (login_Allow key) Q s.
Proof.
  intros H. apply wp_bind, wp_now. intros now Hn e He. specialize (H now Hn). cbn.
  destruct (Allow key now (s_logins s)). done.
Qed.

Lemma wp_random_bytes n Q s :
  (forall e, Q (Err e) s) -> (forall b, length b = n -> Q (Ok b) s) -> wp md (random_bytes n) Q s.
Proof.
  intros He Hok. apply wp_bind, wp_new_id. intros [b|] _; apply wp_ret; [|auto]. apply Hok.
  rewrite length_take, length_app, length_replicate. lia.
Qed.
End pieces.

Lemma keeps_random_bytes {X} (f : state -> X) n : keeps f (random_bytes n).
Proof. unfold random_bytes. keeps. Qed.

Lemma keeps_audit {X} (f : state -> X) p r ev :
  (forall s t, f (set_s_now t s) = f s) -> (forall s t, f (set_s_events t s) = f s) -> keeps f (audit p r ev).
Proof.
  intros Hn He. unfold audit. apply keeps_bind; [by apply keeps_now|]. intros t. apply keeps_statement. intros s. apply He.
Qed.

Lemma keeps_login_Reset k : keeps s_users (login_Reset k).
Proof. unfold login_Reset. keeps. Qed.

Lemma keeps_login_Allow k : keeps s_users (login_Allow k).
Proof. intros md s. apply wp_login_Allow. intros now _. by destruct (Allow k now (s_logins s)). Qed.

#[export] Hint Resolve keeps_random_bytes keeps_login_Reset keeps_login_Allow : keeps.
#[export] Hint Extern 1 (keeps _ (audit _ _ _)) => apply keeps_audit; reflexivity : keeps.

Lemma keeps_account_record r p typ u data : keeps s_users (record r p typ u data).
Proof. unfold record. keeps. Qed.

Lemma keeps_loginFailed r email ip reason : keeps s_users (loginFailed r email ip reason).
Proof. unfold loginFailed. keeps. Qed.

Lemma keeps_wrongPassword p r u : keeps s_users (wrongPassword p r u).
Proof. unfold wrongPassword. keeps. Qed.

#[export] Hint Resolve keeps_account_record keeps_loginFailed keeps_wrongPassword : keeps.

(** What a handler does to the accounts is a history of account operations, none of which
    replaces the recovery codes of [id] or takes its second factor away. *)
Definition traced (id : Z) (s s' : state) : Prop :=
  exists ops, Forall (fun op => codes_replaced id op = false) ops /\ s_users s' = run_account ops (s_users s).

Lemma traced_run id s s' ops :
  Forall (fun op => codes_replaced id op = false) ops -> s_users s' = run_account ops (s_users s) -> traced id s s'.
Proof. by exists ops. Qed.

Lemma traced_trans id s1 s2 s3 : traced id s1 s2 -> traced id s2 s3 -> traced id s1 s3.
Proof.
  intros (ops1 & Hf1 & Ho1) (ops2 & Hf2 & Ho2). exists (ops1 ++ ops2). split; [by apply Forall_app|].
  unfold run_account in *. by rewrite fold_left_app, <- Ho1.
Qed.

Lemma traced_same id s s' : s_users s' = s_users s -> traced id s s'.
Proof. by exists []. Qed.

Lemma not_disabled id ops : Forall (fun op => codes_replaced id op = false) ops -> ADisable id ∉ ops.
Proof. rewrite Forall_forall. intros Hf Hin. specialize (Hf _ Hin). cbn in Hf. by rewrite Z.eqb_refl in Hf. Qed.

(** [m] only does such things to the accounts. *)
Definition traces (id : Z) {A} (m : M A) : Prop := forall md s, wp md m (fun _ s' => traced id s s') s.

Section traces.
Context (id : Z).

Lemma traces_bind {A B} (m : M A) (k : A -> M B) : traces id m -> (forall a, traces id (k a)) -> traces id (bind m k).
Proof.
  intros Hm Hk md s. apply wp_bind. eapply wp_mono; [apply Hm|]. cbn. intros a s1 H1.
  eapply wp_mono; [apply Hk|]. cbn. intros b s2. by apply traced_trans.
Qed.

(** A bind whose first part promises something of its value. *)
Lemma traces_bind_when {A B} (P : A -> Prop) (m : M A) (k : A -> M B) :
  traces id m -> (forall md s, wp md m (fun a _ => P a) s) -> (forall a, P a -> traces id (k a)) -> traces id (bind m k).
Proof.
  intros Hm HP Hk md s. apply wp_bind. eapply wp_mono; [apply wp_conj; [apply Hm|apply HP]|]. cbn. intros a s1 [H1 Ha].
  eapply wp_mono; [by apply Hk|]. cbn. intros b s2. by apply traced_trans.
Qed.

Lemma traces_keeps {A} (m : M A) : keeps s_users m -> traces id m.
Proof. intros Hk md s. eapply wp_mono; [apply Hk|]. cbn. intros _ s'. apply traced_same. Qed.

Lemma traces_on_accounts {A} op (f : user_tables -> result A * user_tables) :
  codes_replaced id op = false -> (forall t, snd (f t) = run_account_op t op) -> traces id (on_accounts f).
Proof.
  intros Hop Hf md s. apply wp_on_accounts; [intros e; by apply traced_same|].
  specialize (Hf (s_users s)). destruct (f (s_users s)) as [b t]. apply (traced_run _ _ _ [op]); [by repeat constructor|].
  exact Hf.
Qed.
End traces.

(** Walk through a handler: what keeps the accounts, and statements named by their operation. *)
Ltac traces_op op := apply (traces_on_accounts _ op); [try reflexivity|reflexivity].
Ltac traces_step :=
  match goal with
  | |- traces _ (match ?x with _ => _ end) => destruct x
  | |- traces _ (on_accounts (CreateSession ?h ?u ?n ?t ?a)) => traces_op (ASession h u n t a)
  | |- traces _ (on_accounts (CreateFirstUser ?e ?h ?r ?n)) => traces_op (AFirst e h r n)
  | |- traces _ (on_accounts (TouchLogin ?i ?n)) => traces_op (ALogin i n)
  | |- traces _ (on_accounts (ConsumeTOTPStep ?i ?st)) => traces_op (AStep i st)
  | |- traces _ (on_accounts (ConsumeRecoveryCode ?i ?h ?n)) => traces_op (ACode i h n)
  | |- traces _ (on_accounts (UpdatePassword ?i ?h)) => traces_op (APassword i h)
  | |- traces _ (on_accounts (SetPendingTOTP ?i ?h)) => traces_op (APending i h)
  | |- traces _ (on_accounts (EnableTOTP ?i ?st ?h)) => traces_op (AEnable i st h)
  | |- traces _ (on_accounts (ReplaceRecoveryCodes ?i ?h)) => traces_op (ACodes i h)
  | |- traces _ (exec_accounts (DeleteSession ?h)) => traces_op (ALogout h)
  | |- traces _ (exec_accounts (DeleteOtherSessions ?i ?h)) => traces_op (AOthers i h)
  | |- traces _ (exec_accounts (DisableTOTP ?i)) => traces_op (ADisable i)
  | |- traces _ (exec_accounts (TouchAPIToken ?i ?n)) => traces_op (ATokenTouch i n)
  | |- traces _ _ => solve [apply traces_keeps; keeps | eauto with keeps]
  | |- traces _ (bind _ _) => apply traces_bind; [|intros ?]
  end.
Ltac traces := repeat traces_step.

Section handlers.
Context `{PasswordCrypto} `{AEAD} `{QRLib}.
Context (cfg : AccountConfig).

(** ** Sessions and the second factor *)

Lemma wp_startSession md r id Q s :
  (forall e s', s_users s' = s_users s -> Q (Err e) s') ->
  (forall token now s', CreateSession (HashToken token) id now (session_ttl cfg) (rq_agent r) (s_users s)
       = (Ok (), s_users s') -> Q (Ok token) s') ->
  wp md (startSession cfg r id) Q s.
Proof.
  intros He Hok. unfold startSession. apply wp_frame with (f := s_users); [auto with keeps|]. intros b s1 E1.
  destruct (NewSessionToken b) as [[token hash]|e] eqn:Et; [|by apply wp_ret, He].
  assert (hash = HashToken token) as ->.
  { unfold NewSessionToken in Et. destruct b; [|done]. by injection Et as <- <-. }
  apply wp_bind, wp_now. intros now _. apply wp_bind, wp_on_accounts; [intros e; by apply wp_ret, He|].
  cbn [s_users set_s_now]. rewrite E1.
  destruct (CreateSession (HashToken token) id now (session_ttl cfg) (rq_agent r) (s_users s)) as [[[]|e] t] eqn:Ec;
    apply wp_ret.
  - eapply Hok. exact Ec.
  - apply He. cbn. revert Ec. unfold CreateSession. repeat split_match; congruence.
Qed.

(** Between [s] and [s'] a factor was given, and is spent in [s']. *)
Definition factor_given (u : User) (code : text) (s s' : state) : Prop :=
  (exists secret now step, totpSecret cfg u = Ok secret /\ s_now s <= now <= s_now s' /\
     Verify secret code now (TOTPLastStep u) = (step, true) /\ step_spent (UID u) step (s_users s')) \/
  (LooksLikeCode code = false /\
     (exists c, c ∈ ut_codes (s_users s) /\ unused_code (UID u) (HashRecoveryCode code) c = true) /\
     code_spent (UID u) (HashRecoveryCode code) (s_users s')).

Lemma wp_secondFactorValid md r p u code Q s :
  users_wf (s_users s) ->
  (forall s', (forall id, traced id s s') -> ut_sessions (s_users s') = ut_sessions (s_users s) -> Q false s') ->
  (forall s', (forall id, traced id s s') -> ut_sessions (s_users s') = ut_sessions (s_users s) ->
     factor_given u code s s' -> Q true s') ->
  wp md (secondFactorValid cfg r p u code) Q s.
Proof.
  intros Hwf Hno Hyes. assert (Hrefl : forall s', s_users s' = s_users s -> forall id, traced id s s') by (intros; by apply traced_same).
  unfold secondFactorValid. destruct (LooksLikeCode code) eqn:Elook.
  - destruct (totpSecret cfg u) as [secret|] eqn:Es; [|apply wp_ret; auto].
    apply wp_bind, wp_now. intros now Hnow. destruct (Verify secret code now (TOTPLastStep u)) as [step valid] eqn:Ev.
    destruct valid; [|apply wp_ret; auto]. apply wp_bind, wp_on_accounts; [intros e; apply wp_ret; auto|].
    cbn [s_users set_s_now]. destruct (ConsumeTOTPStep (UID u) step (s_users s)) as [b t] eqn:Ec.
    assert (Hops : forall id, traced id s (set_s_users t (set_s_now now s))).
    { intros id. eapply (traced_run _ _ _ [AStep (UID u) step]); [by repeat constructor|]. change (t = snd (ConsumeTOTPStep (UID u) step (s_users s))). by rewrite Ec. }
    assert (Hsess : ut_sessions t = ut_sessions (s_users s)) by (injection Ec as _ <-; done).
    destruct b as [[]|e]; apply wp_ret; [apply Hyes|apply Hno..]; try done.
    left. exists secret, now, step. split_and!; [done..|cbn; lia|done|]. by eapply consumed_step_spent.
  - case_bool_decide; [apply wp_ret; auto|]. apply wp_bind, wp_now. intros now _.
    apply wp_bind, wp_on_accounts; [intros e; apply wp_ret; auto|]. cbn [s_users set_s_now].
    destruct (ConsumeRecoveryCode (UID u) (HashRecoveryCode code) now (s_users s)) as [b t] eqn:Ec.
    assert (Hops : forall id, traced id s (set_s_users t (set_s_now now s))).
    { intros id. eapply (traced_run _ _ _ [ACode (UID u) (HashRecoveryCode code) now]); [by repeat constructor|].
      change (t = snd (ConsumeRecoveryCode (UID u) (HashRecoveryCode code) now (s_users s))). by rewrite Ec. }
    assert (Hsess : ut_sessions t = ut_sessions (s_users s)) by (injection Ec as _ <-; done).
    pose proof (consumed_code_spent (UID u) (HashRecoveryCode code) now (s_users s)) as Hspent. rewrite Ec in Hspent.
    destruct b as [[]|e]; [|apply wp_ret, Hno; done..].
    apply wp_frame with (f := s_users); [apply keeps_query|]. intros left_ s2 E2. cbn in E2.
    apply wp_frame with (f := s_users); [auto with keeps|]. intros [] s3 E3. rewrite E2 in E3.
    apply wp_ret, Hyes; [|by rewrite E3|].
    + intros id. eapply traced_trans; [apply Hops|by apply traced_same].
    + right. rewrite E3. split_and!; [done| |done]. injection Ec as Hone _. bools.
      destruct (affected_some _ (ut_codes (s_users s)) ltac:(by rewrite Hone)) as (c & Hc & Hp). eauto.
Qed.

(** ** Login *)

Lemma factor_given_later u code s0 s s1 s' ops :
  s_users s = s_users s0 -> s_now s0 <= s_now s -> s_users s' = run_account ops (s_users s1) -> s_now s1 <= s_now s' ->
  Forall (fun op => codes_replaced (UID u) op = false) ops -> factor_given u code s s1 -> factor_given u code s0 s'.
Proof.
  intros E0 Hn0 E1 Hn1 Hc [(secret & now & step & Hs & Hnow & Hv & Hsp)|(Hl & Hu & Hsp)].
  - left. exists secret, now, step. split_and!; [done|lia|lia|done|]. rewrite E1.
    by apply run_account_step_spent; [apply not_disabled|].
  - right. rewrite E1, <- E0. split_and!; [done..|]. by apply run_account_spent.
Qed.

(** What a reply to a login means. *)
Definition login_outcome (r : request) (body : option loginRequest) (s : state) (rs : response) (s' : state) : Prop :=
  (forall id, traced id s s') /\
  match rs_cookie rs with
  | SetCookie token _ => rs_status rs = 200 /\ exists req u row,
      body = Some req /\ u ∈ ut_users (s_users s) /\ Email u = normalizeEmail (lg_email req) /\
      PasswordHash u <> [] /\ VerifyPassword (lg_password req) (PasswordHash u) = Ok true /\
      (exists now, fst (Allow (clientIP r) now (s_logins s)) = true) /\
      (TOTPEnabled u = true -> factor_given u (lg_code req) s s') /\
      ut_sessions (s_users s') = ut_sessions (s_users s) ++ [row] /\
      sr_user row = UID u /\ sr_token row = HashToken token
  | KeepCookie => rs_status rs <> 200 /\ ut_sessions (s_users s') = ut_sessions (s_users s)
  | ClearCookie => False
  end.

Lemma CreateSession_Ok token id now ttl agent t t' :
  CreateSession token id now ttl agent t = (Ok (), t') ->
  ut_users t' = ut_users t /\ ut_codes t' = ut_codes t /\
  exists row, ut_sessions t' = ut_sessions t ++ [row] /\ sr_user row = id /\ sr_token row = token.
Proof. unfold CreateSession. repeat split_match; intros [= <-]. eauto 10. Qed.

Lemma wp_signIn md r ip u code Q s :
  (forall rs s', rs_cookie rs = KeepCookie -> rs_status rs <> 200 -> s_users s' = s_users s -> Q rs s') ->
  (forall rs s' ops token row ttl, rs_cookie rs = SetCookie token ttl -> rs_status rs = 200 ->
     s_users s' = run_account ops (s_users s) -> (forall id, Forall (fun op => codes_replaced id op = false) ops) ->
     ut_sessions (s_users s') = ut_sessions (s_users s) ++ [row] -> sr_user row = UID u ->
     sr_token row = HashToken token -> Q rs s') ->
  wp md (signIn cfg r ip u code) Q s.
Proof.
  intros Hno Hyes. unfold signIn. apply wp_bind, wp_startSession; [intros e s1 E1; by apply wp_ret, Hno|].
  intros token now s1 E1. pose proof (CreateSession_Ok _ _ _ _ _ _ _ E1) as (_ & _ & row & Hrow & Hu & Ht).
  set (op1 := ASession (HashToken token) (UID u) now (session_ttl cfg) (rq_agent r)).
  assert (E1' : s_users s1 = run_account [op1] (s_users s)) by (cbn; by rewrite E1).
  apply wp_frame with (f := s_users); [auto with keeps|]. intros [] s2 E2.
  apply wp_bind, wp_now. intros now2 _.
  assert (Hend : forall s3 ops, s_users s3 = run_account (op1 :: ops) (s_users s) ->
    ut_sessions (s_users s3) = ut_sessions (s_users s) ++ [row] ->
    (forall id, Forall (fun op => codes_replaced id op = false) ops) ->
    forall ev body, wp md (audit None r ev ;;; ret (with_session cfg token (ok 200 body))) Q s3).
  { intros s3 ops E3 Hs3 Hc ev body. apply wp_frame with (f := s_users); [auto with keeps|]. intros [] s4 E4.
    all: apply wp_ret; eapply (Hyes _ _ (op1 :: ops) token row); rewrite ?E4; try done.
    all: intros id; by constructor. }
  apply wp_bind, wp_on_accounts.
  - intros e. eapply (Hend _ []); cbn [s_users set_s_now]; rewrite ?E2; done.
  - cbn [s_users set_s_now]. destruct (TouchLogin (UID u) now2 (s_users s2)) as [b t] eqn:Et.
    eapply (Hend _ [ALogin (UID u) now2]); cbn [s_users set_s_users].
    + rewrite E2, E1' in Et. change (t = snd (TouchLogin (UID u) now2 (run_account [op1] (s_users s)))). by rewrite Et.
    + rewrite <- Hrow, <- E2. revert Et. unfold TouchLogin, on_users, exec_rows. repeat split_match; intros; simplify_eq; done.
    + by repeat constructor.
Qed.

Lemma wp_loginFailed md r email ip reason Q s :
  (forall s', s_users s' = s_users s -> Q (fail 401 "invalid_credentials"%string) s') ->
  wp md (loginFailed r email ip reason) Q s.
Proof.
  intros HQ. unfold loginFailed. apply wp_frame with (f := s_users); [auto with keeps|].
  intros [] s1 E1; apply wp_ret; auto.
Qed.

Lemma login_refused r body s rs s' :
  rs_cookie rs = KeepCookie -> rs_status rs <> 200 -> (forall id, traced id s s') ->
  ut_sessions (s_users s') = ut_sessions (s_users s) -> login_outcome r body s rs s'.
Proof. intros Hc Hs Ht Hsess. split; [done|]. by rewrite Hc. Qed.

(** The clock does not go back. *)
Definition waits {A} (m : M A) : Prop := forall md s, wp md m (fun _ s' => s_now s <= s_now s') s.

Lemma waits_bind {A B} (m : M A) (k : A -> M B) : waits m -> (forall a, waits (k a)) -> waits (bind m k).
Proof.
  intros Hm Hk md s. apply wp_bind. eapply wp_mono; [apply Hm|]. cbn. intros a s1 Hle.
  eapply wp_mono; [apply Hk|]. cbn. intros _ s2. lia.
Qed.

Lemma waits_now : waits now_.
Proof. intros md s. apply wp_now. done. Qed.

Lemma waits_keeps {A} (m : M A) : keeps s_now m -> waits m.
Proof. intros Hk md s. eapply wp_mono; [apply Hk|]. cbn. intros _ s' ->. lia. Qed.

Lemma wp_waits {A} md (m : M A) Q s : waits m -> wp md m (fun a s' => s_now s <= s_now s' -> Q a s') s -> wp md m Q s.
Proof. intros Hw Hm. eapply wp_mono; [apply wp_conj; [exact Hm|apply Hw]|]. cbn. intros a s' [HQ Hle]. by apply HQ. Qed.

Lemma waits_signIn r ip u code : waits (signIn cfg r ip u code).
Proof.
  unfold signIn, startSession, login_Reset, audit, record, with_session.
  repeat match goal with
  | |- waits now_ => apply waits_now
  | |- waits (on_accounts ?f) => apply waits_keeps, keeps_statement; intros s; by destruct (f (s_users s))
  | |- waits (match ?x with _ => _ end) => destruct x
  | |- waits _ => solve [apply waits_keeps; keeps]
  | |- waits (bind _ _) => apply waits_bind; [|intros ?]
  end.
Qed.

Lemma UserByEmail_Ok email t u : UserByEmail email t = Ok u -> u ∈ ut_users t /\ Email u = normalizeEmail email.
Proof.
  unfold UserByEmail, find_row. destruct (find _ _) as [v|] eqn:E; [|done]. intros [= ->].
  apply find_some in E as [Hin Hp]. bools. by apply list_elem_of_In in Hin.
Qed.

Lemma wp_handleLogin md r body s :
  users_wf (s_users s) -> wp md (handleLogin cfg r body) (login_outcome r body s) s.
Proof.
  intros Hwf. unfold handleLogin. destruct (negb _); [apply wp_ret, login_refused; [done|done|intros; by apply traced_same|done]|].
  apply wp_bind, wp_login_Allow. intros now0 Hnow0.
  destruct (Allow (clientIP r) now0 (s_logins s)) as [b l] eqn:Ea. set (s0 := set_s_logins l (set_s_now now0 s)).
  assert (Hrefuse : forall rs s', rs_cookie rs = KeepCookie -> rs_status rs <> 200 -> s_users s' = s_users s ->
    login_outcome r body s rs s').
  { intros rs s' Hc Hst E. apply login_refused; [done..|intros; by apply traced_same|by rewrite E]. }
  destruct b; cbn [negb]; [|by apply wp_ret, Hrefuse].
  destruct body as [req|]; [|by apply wp_ret, Hrefuse].
  destruct (MaxPasswordBytes <? _); [by apply wp_loginFailed; intros s' E; apply Hrefuse|].
  apply wp_bind, wp_query; [intros e _|].
  { apply wp_frame with (f := s_users); [auto with keeps|]. intros rb s1 E1.
    apply wp_loginFailed. intros s' E. apply Hrefuse; [done..|by rewrite E, E1]. }
  destruct (UserByEmail (lg_email req) (s_users s0)) as [u|e] eqn:Eu.
  2: { apply wp_frame with (f := s_users); [auto with keeps|]. intros rb s1 E1.
       apply wp_loginFailed. intros s' E. apply Hrefuse; [done..|by rewrite E, E1]. }
  apply UserByEmail_Ok in Eu as [Hu Hemail]. change (s_users s0) with (s_users s) in *.
  destruct (HasPassword u) eqn:Epw; cbn [negb]; [|by apply wp_loginFailed; intros s' E; apply Hrefuse].
  destruct (VerifyPassword (lg_password req) (PasswordHash u)) as [[]|e] eqn:Ev;
    [|by apply wp_loginFailed; intros s' E; apply Hrefuse..].
  assert (Hdone : forall s1, (forall id, traced id s s1) -> ut_sessions (s_users s1) = ut_sessions (s_users s) ->
    (TOTPEnabled u = true -> factor_given u (lg_code req) s0 s1) ->
    wp md (signIn cfg r (clientIP r) u (lg_code req)) (login_outcome r (Some req) s) s1).
  { intros s1 Htr Hsess Hfac. apply wp_waits; [apply waits_signIn|]. apply wp_signIn.
    - intros rs s' Hc Hst E _. apply login_refused; [done..| |by rewrite E].
      intros id. eapply traced_trans; [apply Htr|by apply traced_same].
    - intros rs s' ops token row ttl Hc Hst E Hcodes Hrow Hru Hrt Hlater. split.
      { intros id. eapply traced_trans; [apply Htr|by eapply traced_run]. }
      rewrite Hc. split; [done|]. exists req, u, row. split_and!; try done.
      + unfold HasPassword in Epw. by bools.
      + exists now0. by rewrite Ea.
      + intros Hen. by eapply (factor_given_later u _ s s0 s1 s' ops); [|cbn; lia|..|apply Hfac].
      + by rewrite Hrow, Hsess. }
  destruct (TOTPEnabled u) eqn:Een; [|apply Hdone; [intros; by apply traced_same|done|done]].
  case_bool_decide; [by apply wp_ret, Hrefuse|].
  apply wp_bind, wp_secondFactorValid; [done|intros s1 Htr Hsess..].
  - apply wp_loginFailed. intros s' E. apply login_refused; [done..| |by rewrite E].
    intros id. eapply traced_trans; [apply Htr|by apply traced_same].
  - intros Hfac. by apply Hdone.
Qed.

(** ** Every other handler *)

Lemma traces_startSession id r u : traces id (startSession cfg r u).
Proof. unfold startSession. traces. Qed.

Lemma traces_secondFactorValid id r p u code : traces id (secondFactorValid cfg r p u code).
Proof. unfold secondFactorValid. traces. Qed.

Lemma traces_accountGuard id p r : traces id (accountGuard p r).
Proof. unfold accountGuard. traces. Qed.

Lemma keeps_newRecoveryCodes {X} (f : state -> X) : keeps f newRecoveryCodes.
Proof.
  unfold newRecoveryCodes. apply keeps_bind; [|intros; apply keeps_ret]. generalize RecoveryCodeCount as n.
  induction n as [|n IH]; cbn [draw_codes]; keeps.
Qed.
Hint Resolve traces_startSession traces_secondFactorValid traces_accountGuard keeps_newRecoveryCodes : keeps.

Lemma traces_handleSetup id r body : traces id (handleSetup cfg r body).
Proof. unfold handleSetup. traces. Qed.

Lemma traces_handleLogin id r body : traces id (handleLogin cfg r body).
Proof. unfold handleLogin, signIn. traces. Qed.

Lemma traces_handleLogout id p r : traces id (handleLogout p r).
Proof. unfold handleLogout. traces. Qed.

Lemma traces_handleChangePassword id p r body : traces id (handleChangePassword p r body).
Proof. unfold handleChangePassword. traces. Qed.

Lemma traces_handleTOTPSetup id p r body : traces id (handleTOTPSetup cfg p r body).
Proof. unfold handleTOTPSetup. traces. Qed.

Lemma traces_confirmIdentity id p r body : traces id (confirmIdentity cfg p r body).
Proof. unfold confirmIdentity. traces. Qed.
Hint Resolve traces_confirmIdentity : keeps.

Definition is_self (p : principal) (g : response + User) : Prop := forall u, g = inr u -> u = p_user p.

Lemma accountGuard_self md p r s : wp md (accountGuard p r) (fun g _ => is_self p g) s.
Proof.
  unfold accountGuard. case_bool_decide; [by apply wp_ret|]. apply wp_bind, wp_login_Allow. intros now _.
  destruct (Allow _ _ _) as [[] l]; cbn [negb]; [|by apply wp_ret].
  destruct (negb _); apply wp_ret; by intros u [= <-].
Qed.

Lemma returns_after {A B} (P : B -> Prop) (m : M A) (k : A -> M B) :
  traces 0 m -> (forall a md s, wp md (k a) (fun b _ => P b) s) -> forall md s, wp md (bind m k) (fun b _ => P b) s.
Proof. intros Hm Hk md s. apply wp_bind. eapply wp_mono; [apply Hm|]. cbn. intros a s1 _. apply Hk. Qed.

Lemma confirmIdentity_self p r body md s : wp md (confirmIdentity cfg p r body) (fun g _ => is_self p g) s.
Proof.
  unfold confirmIdentity. apply wp_bind. eapply wp_mono; [apply accountGuard_self|]. cbn. intros [rs|u] s1 Hg.
  { by apply wp_ret. }
  rewrite (Hg u eq_refl). destruct body as [req|]; [|by apply wp_ret].
  destruct (negb _); [by apply wp_ret|]. destruct (negb _).
  { apply returns_after; [traces|]. intros rs md' s'. by apply wp_ret. }
  apply returns_after; [traces|]. intros valid md' s'. destruct (negb valid); [by apply wp_ret|].
  apply returns_after; [traces|]. intros [] md'' s''. apply wp_ret. by intros v [= <-].
Qed.

Lemma traces_handleTOTPEnable id p r body :
  UID (p_user p) <> id -> traces id (handleTOTPEnable cfg p r body).
Proof.
  intros Hne. unfold handleTOTPEnable. apply (traces_bind_when _ (is_self p)); [traces|intros; apply accountGuard_self|].
  intros [rs|u] Hg; [|rewrite (Hg u eq_refl)]; traces. cbn. by apply Z.eqb_neq.
Qed.

Lemma traces_handleTOTPDisable id p r body :
  UID (p_user p) <> id -> traces id (handleTOTPDisable cfg p r body).
Proof.
  intros Hne. unfold handleTOTPDisable. apply (traces_bind_when _ (is_self p)); [traces|intros; apply confirmIdentity_self|].
  intros [rs|u] Hg; [|rewrite (Hg u eq_refl)]; traces. cbn. by apply Z.eqb_neq.
Qed.

Lemma traces_handleTOTPRecoveryCodes id p r body :
  UID (p_user p) <> id -> traces id (handleTOTPRecoveryCodes cfg p r body).
Proof.
  intros Hne. unfold handleTOTPRecoveryCodes. apply (traces_bind_when _ (is_self p)); [traces|intros; apply confirmIdentity_self|].
  intros [rs|u] Hg; [|rewrite (Hg u eq_refl)]; traces. cbn. by apply Z.eqb_neq.
Qed.

(** ** Any sequence of requests *)

Inductive account_call :=
| CallSetup (r : request) (body : option setupRequest)
| CallLogin (r : request) (body : option loginRequest)
| CallLogout (p : principal) (r : request)
| CallChangePassword (p : principal) (r : request) (body : option changePasswordReq)
| CallTOTPSetup (p : principal) (r : request) (body : option text)
| CallTOTPEnable (p : principal) (r : request) (body : option text)
| CallTOTPDisable (p : principal) (r : request) (body : option confirmReq)
| CallRecoveryCodes (p : principal) (r : request) (body : option confirmReq).

Definition run_call (c : account_call) : M response :=
  match c with
  | CallSetup r body => handleSetup cfg r body
  | CallLogin r body => handleLogin cfg r body
  | CallLogout p r => handleLogout p r
  | CallChangePassword p r body => handleChangePassword p r body
  | CallTOTPSetup p r body => handleTOTPSetup cfg p r body
  | CallTOTPEnable p r body => handleTOTPEnable cfg p r body
  | CallTOTPDisable p r body => handleTOTPDisable cfg p r body
  | CallRecoveryCodes p r body => handleTOTPRecoveryCodes cfg p r body
  end.

Fixpoint run_calls (cs : list account_call) : M unit :=
  match cs with
  | [] => ret tt
  | c :: cs => run_call c ;;; run_calls cs
  end.

(** Calls by which account [id] gets new recovery codes or gives its second factor up. *)
Definition renews (id : Z) (c : account_call) : bool :=
  match c with
  | CallTOTPEnable p _ _ | CallTOTPDisable p _ _ | CallRecoveryCodes p _ _ => UID (p_user p) =? id
  | _ => false
  end.

Lemma traces_run_calls id cs : Forall (fun c => renews id c = false) cs -> traces id (run_calls cs).
Proof.
  induction 1 as [|c cs Hc _ IH]; cbn [run_calls]; [traces|]. apply traces_bind; [|done].
  destruct c; cbn in Hc |- *; try apply Z.eqb_neq in Hc.
  - apply traces_handleSetup.
  - apply traces_handleLogin.
  - apply traces_handleLogout.
  - apply traces_handleChangePassword.
  - apply traces_handleTOTPSetup.
  - by apply traces_handleTOTPEnable.
  - by apply traces_handleTOTPDisable.
  - by apply traces_handleTOTPRecoveryCodes.
Qed.
End handlers.

(** ** Properties *)

(** C7: a login opens at most one session, and only for an account of the address given
    that has a password, when the address's sign-ins are within the limit, the password
    verifies against that account's hash and, if the account has a second factor, a code
    of its secret later than any used before, or one of its unused recovery codes, was
    given and is spent from then on.  The session is stored under the hash of the token
    handed out.  Any other reply leaves the sessions as they are. *)
Theorem login_requires_factors `{PasswordCrypto} `{AEAD} cfg r body s e :
  users_wf (s_users s) ->
  let '(rs, w') := handleLogin cfg r body (World s e) in
  match rs_cookie rs with
  | SetCookie token _ => rs_status rs = 200 /\ exists req u row,
      body = Some req /\ u ∈ ut_users (s_users s) /\ Email u = normalizeEmail (lg_email req) /\
      PasswordHash u <> [] /\ VerifyPassword (lg_password req) (PasswordHash u) = Ok true /\
      (exists now, fst (Allow (clientIP r) now (s_logins s)) = true) /\
      (TOTPEnabled u = true -> factor_given cfg u (lg_code req) s (st w')) /\
      ut_sessions (s_users (st w')) = ut_sessions (s_users s) ++ [row] /\
      sr_user row = UID u /\ sr_token row = HashToken token
  | _ => rs_status rs <> 200 /\ ut_sessions (s_users (st w')) = ut_sessions (s_users s)
  end.
Proof.
  intros Hwf.
  pose proof (wp_run any _ _ _ _ (allows_any e) (wp_handleLogin cfg any r body s Hwf)) as Hrun.
  destruct (handleLogin cfg r body (World s e)) as [rs w']. destruct Hrun as [_ Hrun].
  destruct (rs_cookie rs); [exact Hrun|exact Hrun|done].
Qed.

(** One session was opened, for the account. *)
Definition signed_in (id : Z) (s s' : state) : Prop :=
  exists row, ut_sessions (s_users s') = ut_sessions (s_users s) ++ [row] /\ sr_user row = id.

Section replay.
Context `{PasswordCrypto} `{AEAD} `{QRLib}.
Context (cfg : AccountConfig).

(** A login that opened a session for an account with a second factor was given one. *)
Lemma signed_in_factor r req u s rs s' :
  users_wf (s_users s) -> u ∈ ut_users (s_users s) -> TOTPEnabled u = true ->
  login_outcome cfg r (Some req) s rs s' -> signed_in (UID u) s s' ->
  factor_given cfg u (lg_code req) s s'.
Proof.
  intros Hwf Hu Hen [_ Hout] (row & Hrow & Hid). destruct (rs_cookie rs); [| |done].
  - destruct Hout as [_ Hsame]. rewrite Hsame in Hrow. apply (f_equal length) in Hrow.
    rewrite length_app in Hrow. cbn in Hrow. lia.
  - destruct Hout as (_ & req' & v & row' & [= <-] & Hv & _ & _ & _ & _ & Hfac & Hrow' & Hid' & _).
    rewrite Hrow' in Hrow. apply app_inv_head in Hrow as [= ->].
    assert (u = v) as <- by (apply (user_unique (s_users s)); [done..|congruence]). auto.
Qed.

Lemma enabled_spent t u : users_wf t -> u ∈ ut_users t -> TOTPEnabled u = true -> step_spent (UID u) (TOTPLastStep u) t.
Proof.
  intros Hwf Hu Hen. split; [by apply (uw_next t Hwf), elem_of_map_2|].
  intros v Hv Eid. by rewrite (user_unique t v u Hwf Hv Hu Eid).
Qed.

Lemma enabled_secret t u : users_wf t -> u ∈ ut_users t -> TOTPEnabled u = true -> secret_is (UID u) (TOTPSecret u) t.
Proof.
  intros Hwf Hu Hen. split; [by apply (uw_next t Hwf), elem_of_map_2|].
  intros v Hv Eid. by rewrite (user_unique t v u Hwf Hv Hu Eid).
Qed.

Lemma traced_wf id s s' : users_wf (s_users s) -> traced id s s' -> users_wf (s_users s').
Proof. intros Hwf (ops & _ & ->). by apply run_account_wf. Qed.

(** C26: between two logins of one account with a second factor, run any requests of the
    account pages but those by which this account itself gets new recovery codes or gives
    the factor up: if both logins succeed, two recovery codes given are different ones,
    and two six-digit codes are those of different steps of the account's secret, each within
    the skew of the time of its login: the first after the last step the account had used, the
    second after the last step it had used by then, which is the first's or a later one. *)
Theorem no_factor_twice r1 b1 calls r2 b2 u s e :
  users_wf (s_users s) -> u ∈ ut_users (s_users s) -> TOTPEnabled u = true ->
  Forall (fun c => renews (UID u) c = false) calls ->
  let '(_, w1) := handleLogin cfg r1 (Some b1) (World s e) in
  let '(_, w2) := run_calls cfg calls w1 in
  let '(_, w3) := handleLogin cfg r2 (Some b2) w2 in
  signed_in (UID u) s (st w1) -> signed_in (UID u) (st w2) (st w3) ->
  (LooksLikeCode (lg_code b1) = false -> LooksLikeCode (lg_code b2) = false ->
     HashRecoveryCode (lg_code b1) <> HashRecoveryCode (lg_code b2)) /\
  (LooksLikeCode (lg_code b1) = true -> LooksLikeCode (lg_code b2) = true ->
     exists secret v now1 now2 step1 step2,
       v ∈ ut_users (s_users (st w2)) /\ UID v = UID u /\
       totpSecret cfg u = Ok secret /\ totpSecret cfg v = Ok secret /\
       s_now s <= now1 <= s_now (st w1) /\ s_now (st w2) <= now2 <= s_now (st w3) /\
       Verify secret (lg_code b1) now1 (TOTPLastStep u) = (step1, true) /\
       Verify secret (lg_code b2) now2 (TOTPLastStep v) = (step2, true) /\
       TOTPLastStep u < step1 <= TOTPLastStep v /\ TOTPLastStep v < step2).
Proof.
  intros Hwf Hu Hen Hcalls.
  pose proof (wp_run any _ _ _ _ (allows_any e) (wp_handleLogin cfg any r1 (Some b1) s Hwf)) as Hr1.
  destruct (handleLogin cfg r1 (Some b1) (World s e)) as [rs1 [s1 e1]]. cbn [st] in Hr1.
  pose proof (wp_run any _ _ _ _ (allows_any e1) (traces_run_calls cfg (UID u) calls Hcalls any s1)) as Hr2.
  destruct (run_calls cfg calls (World s1 e1)) as [[] [s2 e2]]. cbn [st] in Hr2.
  pose proof (proj1 Hr1 (UID u)) as Ht1. pose proof (traced_wf _ _ _ Hwf Ht1) as Hwf1.
  pose proof (traced_wf _ _ _ Hwf1 Hr2) as Hwf2.
  pose proof (wp_run any _ _ _ _ (allows_any e2) (wp_handleLogin cfg any r2 (Some b2) s2 Hwf2)) as Hr3.
  destruct (handleLogin cfg r2 (Some b2) (World s2 e2)) as [rs3 [s3 e3]]. cbn [st] in *.
  intros Hin1 Hin2. pose proof (signed_in_factor _ _ _ _ _ _ Hwf Hu Hen Hr1 Hin1) as Hf1.
  destruct (traced_trans _ _ _ _ Ht1 Hr2) as (ops & Hops & Erun). destruct Hr2 as (ops2 & Hops2 & Erun2).
  pose proof (run_account_step_spent _ _ ops _ (not_disabled _ _ Hops) (enabled_spent _ _ Hwf Hu Hen)) as Hlast.
  pose proof (run_account_secret_is _ _ ops _ (not_disabled _ _ Hops) (enabled_secret _ _ Hwf Hu Hen)) as Hsecret.
  rewrite <- Erun in Hlast, Hsecret.
  assert (exists v, v ∈ ut_users (s_users s2) /\ UID v = UID u) as (v & Hv & Hid).
  { destruct Hin2 as (row & Hrow & Hru). destruct Hr3 as [_ Hout]. destruct (rs_cookie rs3); [| |done].
    - destruct Hout as [_ Hsame]. rewrite Hsame in Hrow. apply (f_equal length) in Hrow.
      rewrite length_app in Hrow. cbn in Hrow. lia.
    - destruct Hout as (_ & req' & v & row' & _ & Hv & _ & _ & _ & _ & _ & Hrow' & Hid' & _).
      rewrite Hrow' in Hrow. apply app_inv_head in Hrow as [= ->]. exists v. split; [done|congruence]. }
  destruct (proj2 Hlast v Hv Hid) as [Hven _]. rewrite <- Hid in Hin2.
  pose proof (signed_in_factor _ _ _ _ _ _ Hwf2 Hv Hven Hr3 Hin2) as Hf2. split.
  - intros Hl1 Hl2 Heq. destruct Hf1 as [(? & ? & ? & _ & _ & Hv1 & _)|(_ & _ & Hsp1)].
    { unfold Verify in Hv1. by rewrite LooksLikeCode_strip, Hl1 in Hv1. }
    destruct Hf2 as [(? & ? & ? & _ & _ & Hv2 & _)|(_ & (c & Hc & Hunused) & _)].
    { unfold Verify in Hv2. by rewrite LooksLikeCode_strip, Hl2 in Hv2. }
    pose proof (run_account_spent _ _ ops2 _ Hops2 Hsp1) as Hsp2. rewrite <- Erun2 in Hsp2.
    unfold unused_code in Hunused. bools. by apply (Hsp2 c Hc); congruence.
  - intros Hl1 Hl2. destruct Hf1 as [(sec1 & now1 & step1 & Hs1 & Hn1 & Hv1 & Hsp1)|(Hl & _)]; [|congruence].
    destruct Hf2 as [(sec2 & now2 & step2 & Hs2 & Hn2 & Hv2 & _)|(Hl & _)]; [|congruence].
    destruct (proj2 Hsecret v Hv Hid) as [_ Esec].
    assert (Etotp : totpSecret cfg v = totpSecret cfg u) by (unfold totpSecret; by rewrite Esec).
    assert (sec2 = sec1) as -> by congruence.
    apply (run_account_step_spent _ _ ops2) in Hsp1; [|by apply not_disabled]. rewrite <- Erun2 in Hsp1.
    destruct (proj2 Hsp1 v Hv Hid) as [_ Hle]. exists sec1, v, now1, now2, step1, step2.
    pose proof (Verify_later _ _ _ _ _ Hv1). pose proof (Verify_later _ _ _ _ _ Hv2). split_and!; done || lia.
Qed.
End replay.

(** ** Enrolment *)

Lemma wp_accountGuard md p r Q s :
  (forall rs s', rs_status rs <> 200 -> s_users s' = s_users s -> Q (inl rs) s') ->
  (forall s', s_users s' = s_users s -> Q (inr (p_user p)) s') -> wp md (accountGuard p r) Q s.
Proof.
  intros Hno Hyes. unfold accountGuard. case_bool_decide; [by apply wp_ret, Hno|].
  apply wp_bind, wp_login_Allow. intros now _. destruct (Allow _ _ _) as [[] l]; cbn [negb]; [|by apply wp_ret, Hno].
  destruct (negb _); apply wp_ret; [by apply Hno|by apply Hyes].
Qed.

(** When the enrolment page answers with a secret, that secret is the base32 text of
    twenty random bytes, the account's row holds it sealed with the second factor still
    off, unsealing the row gives the secret back, and the codes an authenticator computes
    from the random bytes are accepted for the steps around the current one. *)
Theorem enrolment_round_trip `{PasswordCrypto} `{AEADLaws} `{QRLib} cfg p r password s e :
  p_user p ∈ ut_users (s_users s) ->
  let '(rs, w') := handleTOTPSetup cfg p r (Some password) (World s e) in
  rs_status rs = 200 ->
  exists random u, length random = secretBytes /\ (T "secret", JStr (b32_encode random)) ∈ rs_body rs /\
    u ∈ ut_users (s_users (st w')) /\ UID u = UID (p_user p) /\ TOTPEnabled u = false /\
    totpSecret cfg u = Ok (b32_encode random) /\
    forall now step lastStep, - Skew <= step - Step now <= Skew -> lastStep < step ->
      exists accepted, Verify (b32_encode random) (hotp random step) now lastStep = (accepted, true) /\
        lastStep < accepted <= step.
Proof.
  intros Hin. set (Q := fun rs s' => rs_status rs = 200 -> exists random u, length random = secretBytes /\
    (T "secret", JStr (b32_encode random)) ∈ rs_body rs /\
    u ∈ ut_users (s_users s') /\ UID u = UID (p_user p) /\ TOTPEnabled u = false /\
    totpSecret cfg u = Ok (b32_encode random)).
  assert (Hwp : wp any (handleTOTPSetup cfg p r (Some password)) Q s).
  { unfold handleTOTPSetup. apply wp_bind, wp_accountGuard; [intros rs s1 Hst _; apply wp_ret; intros ?; congruence|].
    intros s1 E1. destruct (TOTPEnabled (p_user p)) eqn:Een; [by apply wp_ret|].
    destruct (negb _).
    { unfold wrongPassword. apply wp_frame with (f := s_users); [auto with keeps|]. intros a s2 _.
      by apply wp_ret. }
    apply wp_bind, wp_random_bytes; [intros; by apply wp_ret|]. intros random Hr. cbn [NewSecret].
    apply wp_bind, wp_random_bytes; [intros; apply wp_bind, wp_random_bytes; intros; by apply wp_ret|]. intros salt Hsalt.
    apply wp_bind, wp_random_bytes; [intros; by apply wp_ret|]. intros nonce Hnonce.
    destruct (Seal (ac_master cfg) (Ok salt) (Ok nonce) (b32_encode random)) as [sealed|] eqn:Es; [|by apply wp_ret].
    apply wp_bind, wp_on_accounts; [intros; by apply wp_ret|].
    destruct (SetPendingTOTP (UID (p_user p)) (std_EncodeToString sealed) (s_users s1)) as [[[]|e'] t] eqn:Ep; [|by apply wp_ret].
    destruct (qr_png _) as [png|]; [|by apply wp_ret].
    apply wp_frame with (f := s_users); [auto with keeps|]. intros [] s2 E2. apply wp_ret. intros _.
    exists random, (with_totp (std_EncodeToString sealed) false 0 (p_user p)).
    split; [done|]. split; [apply list_elem_of_here|]. split_and!; try done.
    - rewrite E2. cbn [s_users set_s_users]. revert Ep. unfold SetPendingTOTP, on_users, exec_rows.
      intros [= _ <-]. cbn. rewrite E1. apply elem_of_map. exists (p_user p). split; [|done].
      unfold pending_totp, user_by. by rewrite Z.eqb_refl, Een.
    - unfold totpSecret. cbn [TOTPSecret with_totp]. rewrite std_decode_encode.
      pose proof Es as Es'. cbn [Seal] in Es'. injection Es' as <-.
      destruct (salt ++ _) as [|c l] eqn:El.
      + apply (f_equal length) in El. rewrite length_app, Hsalt in El. cbn in El. lia.
      + rewrite <- El in *. by apply (Seal_Unseal (ac_master cfg) salt nonce (b32_encode random) _ []). }
  pose proof (wp_run any _ _ _ _ (allows_any e) Hwp) as Hrun.
  destruct (handleTOTPSetup cfg p r (Some password) (World s e)) as [rs w']. intros Hst.
  destruct (Hrun Hst) as (random & u & Hl & Hbody & Hu & Hid & Hen & Hsec).
  exists random, u. split_and!; try done. intros now step lastStep Hw Hlt.
  apply (new_secret_accepted random (b32_encode random) step now lastStep); [done| |done|done].
  by intros ->.
Qed.

(** ** Witnesses *)

#[local] Existing Instance Auth.sample_crypto.
#[local] Existing Instance BlobProps.sample_aead.
#[local] Existing Instance BlobProps.sample_aead_laws.
#[local] Instance sample_qr : QRLib := {| qr_png := Ok |}.

Definition sample_account_cfg : AccountConfig :=
  {| ac_passwordLogin := true; ac_sessionTTL := 0; ac_hostname := "mx.example"%string; ac_master := "master"%string |}.

Definition sample_password : text := "correct horse battery"%string.
Definition sample_random : text := "an authenticator key"%string.
Definition ok_or_empty (r : result text) : text := match r with Ok s => s | Err _ => [] end.

Definition sample_user (enabled : bool) : User :=
  {| UID := 1; Email := "op@example.org"%string;
     PasswordHash := ok_or_empty (HashPassword (Ok (T "0123456789abcdef")) sample_password); Role := RoleAdmin;
     AllowedDomains := []; UCreatedAt := 0; LastLoginAt := None; OIDC := None;
     TOTPSecret := std_EncodeToString (ok_or_empty (Seal "master"%string (Ok sample_salt) (Ok (T "nonce nonce!")) (b32_encode sample_random)));
     TOTPEnabled := enabled; TOTPLastStep := 0 |}.

Definition sample_accounts (enabled : bool) : state :=
  set_s_now minute (set_s_users (Users [sample_user enabled] 2 [] [] [] 1) blank).

Definition sample_request : request :=
  {| rq_method := "POST"%string; rq_host := "mx.example"%string; rq_origin := []; rq_authorization := []; rq_cookie := None;
     rq_remote := "192.0.2.7:5000"%string; rq_agent := "curl"%string |}.

Definition sample_sign_in (code : text) : loginRequest := {| lg_email := "OP@example.org"%string; lg_password := sample_password; lg_code := code |}.

Lemma sample_accounts_wf enabled : users_wf (s_users (sample_accounts enabled)).
Proof.
  split; cbn; [apply NoDup_singleton|apply NoDup_singleton|..]; unfold has_user; cbn.
  - by intros id ->%list_elem_of_singleton.
  - intros x Hx. inv Hx.
  - intros x Hx. inv Hx.
Qed.

Definition sample_login_env : env := set_e_ids [Some (T "token one"); Some (T "token two")] quiet.

Lemma login_requires_factors_witness :
  users_wf (s_users (sample_accounts true)) /\
  rs_status (fst (handleLogin sample_account_cfg sample_request (Some (sample_sign_in (hotp sample_random 2)))
    (World (sample_accounts true) sample_login_env))) = 200 /\
  let '(rs, w') := handleLogin sample_account_cfg sample_request (Some (sample_sign_in (hotp sample_random 2)))
    (World (sample_accounts true) sample_login_env) in
  match rs_cookie rs with
  | SetCookie token _ => rs_status rs = 200 /\ exists req u row,
      Some (sample_sign_in (hotp sample_random 2)) = Some req /\ u ∈ ut_users (s_users (sample_accounts true)) /\
      Email u = normalizeEmail (lg_email req) /\
      PasswordHash u <> [] /\ VerifyPassword (lg_password req) (PasswordHash u) = Ok true /\
      (exists now, fst (Allow (clientIP sample_request) now (s_logins (sample_accounts true))) = true) /\
      (TOTPEnabled u = true ->
         factor_given sample_account_cfg u (lg_code req) (sample_accounts true) (st w')) /\
      ut_sessions (s_users (st w')) = ut_sessions (s_users (sample_accounts true)) ++ [row] /\
      sr_user row = UID u /\ sr_token row = HashToken token
  | _ => rs_status rs <> 200 /\ ut_sessions (s_users (st w')) = ut_sessions (s_users (sample_accounts true))
  end.
Proof.
  split; [exact (sample_accounts_wf true)|]. split; [vm_compute; reflexivity|].
  pose proof (login_requires_factors sample_account_cfg sample_request (Some (sample_sign_in (hotp sample_random 2)))
    (sample_accounts true) sample_login_env (sample_accounts_wf true)) as Hr.
  destruct (handleLogin sample_account_cfg sample_request (Some (sample_sign_in (hotp sample_random 2)))
    (World (sample_accounts true) sample_login_env)) as [rs w']. exact Hr.
Defined.

(** The same account signs in twice, with the codes of two steps. *)
Definition sample_first : world :=
  snd (handleLogin sample_account_cfg sample_request (Some (sample_sign_in (hotp sample_random 2)))
         (World (sample_accounts true) sample_login_env)).
Definition sample_second : world :=
  snd (handleLogin sample_account_cfg sample_request (Some (sample_sign_in (hotp sample_random 3))) sample_first).

Lemma no_factor_twice_witness :
  signed_in 1 (sample_accounts true) (st sample_first) /\ signed_in 1 (st sample_first) (st sample_second) /\
  exists secret v now1 now2 step1 step2, totpSecret sample_account_cfg (sample_user true) = Ok secret /\
    Verify secret (hotp sample_random 2) now1 (TOTPLastStep (sample_user true)) = (step1, true) /\
    Verify secret (hotp sample_random 3) now2 (TOTPLastStep v) = (step2, true) /\ step1 <= TOTPLastStep v < step2.
Proof.
  assert (Hin1 : signed_in 1 (sample_accounts true) (st sample_first)).
  { eexists (SessionRow _ _ _ _ _). split; [vm_compute; reflexivity|reflexivity]. }
  assert (Hin2 : signed_in 1 (st sample_first) (st sample_second)).
  { eexists (SessionRow _ _ _ _ _). split; [vm_compute; reflexivity|reflexivity]. }
  split; [exact Hin1|]. split; [exact Hin2|].
  pose proof (no_factor_twice sample_account_cfg sample_request (sample_sign_in (hotp sample_random 2)) [] sample_request
    (sample_sign_in (hotp sample_random 3)) (sample_user true) (sample_accounts true) sample_login_env
    (sample_accounts_wf true) (list_elem_of_here _ _) eq_refl (Forall_nil_2 _)) as Hno.
  unfold sample_second, sample_first in Hin1, Hin2.
  destruct (handleLogin sample_account_cfg sample_request (Some (sample_sign_in (hotp sample_random 2)))
    (World (sample_accounts true) sample_login_env)) as [rs1 w1]. cbn [snd run_calls ret] in *.
  destruct (handleLogin sample_account_cfg sample_request (Some (sample_sign_in (hotp sample_random 3))) w1) as [rs2 w2].
  cbn [snd] in *. destruct (Hno Hin1 Hin2) as [_ Hcodes].
  destruct Hcodes as (secret & v & now1 & now2 & step1 & step2 & _ & _ & Hs & _ & _ & _ & Hv1 & Hv2 & [_ Hle] & Hlt); [vm_compute; reflexivity..|].
  exists secret, v, now1, now2, step1, step2. exact (conj Hs (conj Hv1 (conj Hv2 (conj Hle Hlt)))).
Defined.

Lemma enrolment_round_trip_witness :
  let '(rs, w') := handleTOTPSetup sample_account_cfg (Principal (sample_user false) None) sample_request (Some sample_password)
    (World (sample_accounts false) (set_e_ids [Some sample_random; Some sample_salt; Some (T "nonce nonce!")] quiet)) in
  rs_status rs = 200 /\ exists random u, length random = secretBytes /\ (T "secret", JStr (b32_encode random)) ∈ rs_body rs /\
    u ∈ ut_users (s_users (st w')) /\ UID u = 1 /\ TOTPEnabled u = false /\
    totpSecret sample_account_cfg u = Ok (b32_encode random).
Proof.
  pose proof (enrolment_round_trip sample_account_cfg (Principal (sample_user false) None) sample_request sample_password
    (sample_accounts false) (set_e_ids [Some sample_random; Some sample_salt; Some (T "nonce nonce!")] quiet)
    (list_elem_of_here _ _)) as Hr.
  assert (H200 : rs_status (fst (handleTOTPSetup sample_account_cfg (Principal (sample_user false) None) sample_request (Some sample_password)
    (World (sample_accounts false) (set_e_ids [Some sample_random; Some sample_salt; Some (T "nonce nonce!")] quiet)))) = 200)
    by (vm_compute; reflexivity).
  destruct (handleTOTPSetup _ _ _ _ _) as [rs w']. cbn [fst] in H200. split; [exact H200|].
  destruct (Hr H200) as (random & u & H1 & H2 & H3 & H4 & H5 & H6 & _). exists random, u. by split_and!.
Defined.
