(* ===== verification/ApiProps.v ===== *)
(** * Who may ask: guarantees *)

From S2P Require Import Prelude GoStrings Base64 Sha Times Net Errors StoreTypes StoreQueue.
From S2P Require Import StoreDomains StoreUsers UserProps Auth RateLimit World Api.
From Stdlib Require Import QArith.
Open Scope Z_scope.

(** What a token of [presented] stands for in the tables. *)
Definition token_principal (presented : text) (t : user_tables) (p : principal) : Prop :=
  exists tok owner now, p_token p = Some tok /\ tok ∈ ut_tokens t /\ TokHash tok = HashToken presented /\
    Expired now tok = false /\ owner ∈ ut_users t /\ CreatedBy tok = Some (UID owner) /\
    p_user p = with_role (narrowerRole (Role owner) (TokRole tok)) owner.

(** What a session cookie stands for. *)
Definition session_principal (value : text) (t : user_tables) (p : principal) : Prop :=
  p_token p = None /\ p_user p ∈ ut_users t /\
  exists row now, row ∈ ut_sessions t /\ sr_token row = HashToken value /\ alive now row = true /\
    sr_user row = UID (p_user p).

Definition known (r : request) (t : user_tables) (p : principal) : Prop :=
  (bearerToken r <> [] /\ token_principal (bearerToken r) t p) \/
  (bearerToken r = [] /\ exists value, rq_cookie r = Some value /\ value <> [] /\ session_principal value t p).

Lemma find_row_Ok {A} (f : A -> bool) l x : find_row f l = Ok x -> x ∈ l /\ f x = true.
Proof.
  unfold find_row. destruct (find f l) eqn:E; [|done]. intros [= ->].
  apply find_some in E as [Hin Hf]. by apply list_elem_of_In in Hin.
Qed.

Lemma UserByID_row id t u : UserByID id t = Ok u -> u ∈ ut_users t /\ UID u = id.
Proof. intros [Hu Hp]%find_row_Ok. unfold user_by in Hp. by bools. Qed.

Lemma map_update_rows {A B} (g : A -> B) p f (l : list A) : (forall x, g (f x) = g x) -> map g (update_rows p f l) = map g l.
Proof. intros Hg. unfold update_rows. rewrite map_map. apply map_ext. intros x. by destruct (p x). Qed.

(** What the tokens stand for: all of them but when they were last used. *)
Definition token_rights (t : user_tables) :=
  map (fun k => (TokID k, TokHash k, TokRole k, CreatedBy k, TokExpiresAt k)) (ut_tokens t).

Lemma TouchAPIToken_rights id now t : token_rights (TouchAPIToken id now t) = token_rights t.
Proof. by apply map_update_rows. Qed.

(** What a guard does before the handler it guards: the clock moves, and a token's use is noted. *)
Definition asked (s s1 : state) : Prop :=
  exists now users, s1 = set_s_users users (set_s_now now s) /\
    ut_users users = ut_users (s_users s) /\ ut_sessions users = ut_sessions (s_users s) /\
    token_rights users = token_rights (s_users s).

Lemma asked_now now s : asked s (set_s_now now s).
Proof. exists now, (s_users s). by destruct s. Qed.

Lemma wp_principalForToken md presented s :
  wp md (principalForToken presented)
    (fun res s' => asked s s' /\ s_users s' = s_users s /\
       forall p, res = Ok p -> token_principal presented (s_users s) p) s.
Proof.
  unfold principalForToken. apply wp_bind, wp_now. intros now _. pose proof (asked_now now s) as Ha.
  apply wp_bind, wp_query; [intros; by apply wp_ret|]. cbn [s_users set_s_now].
  destruct (APITokenByHash (HashToken presented) now (s_users s)) as [tok|] eqn:Et; [|by apply wp_ret].
  destruct (CreatedBy tok) as [id|] eqn:Ec; [|by apply wp_ret].
  apply wp_bind, wp_query; [intros; by apply wp_ret|]. cbn [s_users set_s_now].
  destruct (UserByID id (s_users s)) as [owner|] eqn:Eu; apply wp_ret; [|done]. split_and!; [done..|]. intros p [= <-].
  unfold APITokenByHash in Et. destruct (find_row _ _) as [k|] eqn:Ek; [|done]. destruct (Expired now k) eqn:Ex; [done|].
  injection Et as ->. apply find_row_Ok in Ek as [Htok Hh]. bools. apply UserByID_row in Eu as [Hu <-].
  exists tok, owner, now. done.
Qed.

(** Nor is a session's account invented. *)
Lemma UserBySessionToken_Ok value now t u :
  UserBySessionToken (HashToken value) now t = Ok u -> session_principal value t (Principal u None).
Proof.
  unfold UserBySessionToken. destruct (find _ _) as [row|] eqn:Ef; [|done]. intros [Hu Hid]%UserByID_row.
  apply find_some in Ef as [Hrow Hp]. bools. split_and!; [done..|]. exists row, now. by rewrite list_elem_of_In.
Qed.

(** A handler behind [authed]: it is refused with 401, or runs as a principal the tables
    know, on the accounts as they are but for the trace of the token's use. *)
Lemma authed_runs next r s e :
  exists w1,
    (exists rs, authed next r (World s e) = (rs, w1) /\ rs_status rs = 401 /\ s_users (st w1) = s_users s) \/
    (exists p, authed next r (World s e) = next p r w1 /\ known r (s_users s) p /\
       ut_users (s_users (st w1)) = ut_users (s_users s) /\ ut_sessions (s_users (st w1)) = ut_sessions (s_users s)).
Proof.
  unfold authed. case_bool_decide as Hb; cbn [negb].
  - destruct (rq_cookie r) as [[|c v]|] eqn:Ec; [eexists; left; by eexists| |eexists; left; by eexists].
    set (value := c :: v) in *.
    assert (Hwp : wp any (let* now := now_ in query (fun s => UserBySessionToken (HashToken value) now (s_users s)))
      (fun res s' => s_users s' = s_users s /\ forall u, res = Ok u -> session_principal value (s_users s) (Principal u None)) s).
    { apply wp_bind, wp_now. intros now _. apply wp_query; [by split|]. split; [done|]. cbn [s_users set_s_now].
      intros u. apply UserBySessionToken_Ok. }
    pose proof (wp_run any _ _ _ _ (allows_any e) Hwp) as Hrun. unfold bind in *.
    destruct (now_ (World s e)) as [now w0]. destruct (query _ w0) as [[u|err] w1]; exists w1.
    + right. exists (Principal u None). destruct Hrun as [Hs Hp]. split_and!; [done| |by rewrite Hs..].
      right. split; [done|]. exists value. eauto.
    + left. eexists. split_and!; [done..|apply Hrun].
  - unfold authedByToken.
    pose proof (wp_run any _ _ _ _ (allows_any e) (wp_principalForToken any (bearerToken r) s)) as Hrun. unfold bind.
    destruct (principalForToken (bearerToken r) (World s e)) as [[p|err] w0]; destruct Hrun as [_ [Hs Hp]].
    + destruct (now_ w0) as [now w1] eqn:En. set (touch := exec_accounts _).
      destruct (touch w1) as [res w2] eqn:Et. exists w2. right. exists p.
      assert (Hs1 : s_users (st w1) = s_users s).
      { unfold now_ in En. destruct (e_ticks (wenv w0)); injection En as _ <-; exact Hs. }
      assert (Hkeep : ut_users (s_users (st w2)) = ut_users (s_users s) /\
                      ut_sessions (s_users (st w2)) = ut_sessions (s_users s)).
      { rewrite <- Hs1. destruct w1 as [s1 e1].
        assert (Hwp : wp any touch (fun _ s' => ut_users (s_users s') = ut_users (s_users s1) /\
                                               ut_sessions (s_users s') = ut_sessions (s_users s1)) s1).
        { by apply wp_statement. }
        pose proof (wp_run any _ _ _ _ (allows_any e1) Hwp) as Hr2. by rewrite Et in Hr2. }
      split_and!; [done| |apply Hkeep..]. left. auto.
    + exists w0. left. eexists. by split_and!.
Qed.

(** The guard alone: the reply that refuses, or the principal. *)
Definition admitted (r : request) : M (response + principal) :=
  let presented := bearerToken r in
  if negb (bool_decide (presented = [])) then
    let* p := principalForToken presented in
    match p with
    | Err _ => ret (inl (fail 401 "invalid_token"%string))
    | Ok p =>
        let* now := now_ in
        exec_accounts (TouchAPIToken (match p_token p with Some tok => TokID tok | None => 0 end) now) ;;;
        ret (inr p)
    end
  else
    match rq_cookie r with
    | None | Some [] => ret (inl (fail 401 "auth_required"%string))
    | Some value =>
        let* now := now_ in
        let* user := query (fun s => UserBySessionToken (HashToken value) now (s_users s)) in
        ret match user with
            | Err _ => inl (Response 401 "auth_required"%string [] [] ClearCookie)
            | Ok user => inr (Principal user None)
            end
    end.

Lemma authed_admitted next r w :
  authed next r w = bind (admitted r) (fun a => match a with inl rs => ret rs | inr p => next p r end) w.
Proof.
  unfold authed, admitted, authedByToken, bind. destruct (negb _).
  - destruct (principalForToken _ w) as [[p|e] w1]; [|done]. destruct (now_ w1) as [now w2]. by destruct (exec_accounts _ w2).
  - destruct (rq_cookie r) as [[|c v]|]; [done| |done]. destruct (now_ w) as [now w1]. by destruct (query _ w1) as [[user|e] w2].
Qed.

Lemma wp_admitted md r s :
  wp md (admitted r) (fun a s1 => asked s s1 /\ match a with
                                                | inl rs => rs_status rs = 401 /\ rs_items rs = [] /\ rs_body rs = []
                                                | inr p => known r (s_users s) p end) s.
Proof.
  unfold admitted. assert (H0 : asked s s) by (exists (s_now s), (s_users s); by destruct s).
  case_bool_decide as Hb; cbn [negb].
  - destruct (rq_cookie r) as [[|c v]|] eqn:Ec; [by apply wp_ret| |by apply wp_ret].
    apply wp_bind, wp_now. intros now _. pose proof (asked_now now s) as Hn.
    apply wp_bind, wp_query; [intros; by apply wp_ret|]. cbn [s_users set_s_now]. apply wp_ret. split; [done|].
    destruct (UserBySessionToken _ now (s_users s)) as [u|] eqn:Eu; [|done].
    right. split; [done|]. exists (c :: v). eauto using UserBySessionToken_Ok.
  - apply wp_bind. eapply wp_mono; [apply (wp_principalForToken md)|].
    intros res s1 (Ha & _ & Hp). destruct res as [p|]; [|by apply wp_ret].
    apply wp_bind, wp_now. intros now _. destruct Ha as (t & us & -> & Hus & Hse & Hri).
    assert (Hk : known r (s_users s) p) by (left; auto).
    apply wp_bind, wp_statement.
    + intros e _. apply wp_ret. split; [|done]. exists now, us. by destruct s.
    + apply wp_ret. split; [|done]. exists now. eexists. split; [by destruct s|]. split; [done|]. split; [done|].
      rewrite <- Hri. apply TouchAPIToken_rights.
Qed.

(** The handler runs with the principal the tables vouch for, or the reply is a bare 401. *)
Lemma wp_authed md next r Q s :
  (forall rs s1, rs_status rs = 401 -> rs_items rs = [] -> asked s s1 -> Q rs s1) ->
  (forall p s1, known r (s_users s) p -> asked s s1 -> wp md (next p r) Q s1) ->
  wp md (authed next r) Q s.
Proof.
  intros Hno Hgo e He. rewrite authed_admitted. revert e He. apply wp_bind. eapply wp_mono; [apply wp_admitted|].
  intros [rs|p] s1 [Ha Hr]; [apply wp_ret, Hno; tauto|by apply Hgo].
Qed.

(** *** What a guard makes of a request depends on the accounts and the clock alone *)

Definition accounts_only {A} (m : M A) : Prop :=
  forall s t e, s_users s = s_users t -> s_now s = s_now t ->
    exists a now users e', m (World s e) = (a, World (set_s_users users (set_s_now now s)) e') /\
      m (World t e) = (a, World (set_s_users users (set_s_now now t)) e') /\ (e_faults e = [] -> e_faults e' = []).

Lemma set_same s : set_s_users (s_users s) (set_s_now (s_now s) s) = s.
Proof. by destruct s. Qed.

Lemma accounts_ret {A} (a : A) : accounts_only (ret a).
Proof. intros s t e Eu En. exists a, (s_now s), (s_users s), e. split_and!; [by rewrite set_same|by rewrite Eu, En, set_same|done]. Qed.

Lemma accounts_bind {A B} (m : M A) (k : A -> M B) : accounts_only m -> (forall a, accounts_only (k a)) -> accounts_only (bind m k).
Proof.
  intros Hm Hk s t e Eu En. destruct (Hm s t e Eu En) as (a & now & us & e1 & E1 & E2 & He1).
  destruct (Hk a (set_s_users us (set_s_now now s)) (set_s_users us (set_s_now now t)) e1 eq_refl eq_refl)
    as (b & now2 & us2 & e2 & F1 & F2 & He2).
  exists b, now2, us2, e2. unfold bind. rewrite E1, E2. split_and!; [exact F1|exact F2|auto].
Qed.

Lemma accounts_now : accounts_only now_.
Proof.
  intros s t e Eu En. set (d := match e_ticks e with [] => O | d :: _ => d end). set (ts := match e_ticks e with [] => [] | _ :: ts => ts end).
  exists (s_now s + Z.of_nat d), (s_now s + Z.of_nat d), (s_users s), (set_e_ticks ts e). unfold now_, d, ts. cbn.
  destruct (e_ticks e); (split_and!; [by destruct s|rewrite En, Eu; by destruct t|done]).
Qed.

Lemma accounts_query {A} (f : user_tables -> result A) : accounts_only (query (fun s => f (s_users s))).
Proof.
  intros s t e Eu En. unfold query, statement, next_fault, bind, ret. cbn.
  assert (Et : World t = World (set_s_users (s_users s) (set_s_now (s_now s) t))) by (rewrite Eu, En; rewrite set_same; done).
  assert (Es : World s = World (set_s_users (s_users s) (set_s_now (s_now s) s))) by by rewrite (set_same s).
  destruct (e_faults e) as [|[x|] fs] eqn:Ef; cbn.
  - exists (f (s_users s)), (s_now s), (s_users s), e. rewrite <- Es, <- Et, Eu. done.
  - exists (Err x), (s_now s), (s_users s), (set_e_faults fs e). rewrite <- Es, <- Et, ?Eu. done.
  - exists (f (s_users s)), (s_now s), (s_users s), (set_e_faults fs e). rewrite <- Es, <- Et, ?Eu. done.
Qed.

Lemma accounts_exec f : accounts_only (exec_accounts f).
Proof.
  intros s t e Eu En. unfold exec_accounts, on_accounts, statement, next_fault, bind, ret. cbn.
  destruct (e_faults e) as [|[x|] fs] eqn:Ef; cbn.
  - exists (Ok tt), (s_now s), (f (s_users s)), e. split_and!; [by destruct s|rewrite Eu, En; by destruct t|done].
  - exists (Err x), (s_now s), (s_users s), (set_e_faults fs e). split_and!; [by rewrite set_same|by rewrite Eu, En, set_same|done].
  - exists (Ok tt), (s_now s), (f (s_users s)), (set_e_faults fs e). split_and!; [by destruct s|rewrite Eu, En; by destruct t|done].
Qed.

Lemma admitted_alike r : accounts_only (admitted r).
Proof.
  unfold admitted, principalForToken. destruct (negb _).
  - apply accounts_bind.
    + apply accounts_bind; [apply accounts_now|]. intros now. apply accounts_bind; [apply (accounts_query (APITokenByHash _ _))|].
      intros [tok|e]; [|apply accounts_ret]. destruct (CreatedBy tok) as [id|]; [|apply accounts_ret].
      apply accounts_bind; [apply (accounts_query (UserByID id))|]. intros owner. apply accounts_ret.
    + intros [p|e]; [|apply accounts_ret]. apply accounts_bind; [apply accounts_now|]. intros now.
      apply accounts_bind; [apply accounts_exec|]. intros _. apply accounts_ret.
  - destruct (rq_cookie r) as [[|c v]|]; [apply accounts_ret| |apply accounts_ret]. apply accounts_bind; [apply accounts_now|]. intros now.
    apply accounts_bind; [apply (accounts_query (UserBySessionToken _ _))|]. intros user. apply accounts_ret.
Qed.

(** ** Properties *)

(** What a guard asks of the principal. *)
Definition may_operate (u : User) : Prop := Role u = RoleAdmin \/ Role u = RoleOperator.

Definition runs_as (next : principal -> request -> M response) (guarded : request -> M response)
  (right_ : User -> Prop) (refusal : text) : Prop :=
  forall r s e, exists w1,
    ut_users (s_users (st w1)) = ut_users (s_users s) /\ ut_sessions (s_users (st w1)) = ut_sessions (s_users s) /\
    ((exists rs, guarded r (World s e) = (rs, w1) /\
        (rs_status rs = 401 \/
         rs = fail 403 refusal /\ exists p, known r (s_users s) p /\ ~ right_ (p_user p))) \/
     (exists p, guarded r (World s e) = next p r w1 /\ known r (s_users s) p /\ right_ (p_user p))).

Lemma guarded_runs next guard (right_ : User -> Prop) refusal :
  (forall u, {guard u = true /\ ~ right_ u} + {guard u = false /\ right_ u}) ->
  runs_as next (authed (fun p r => if guard (p_user p) then ret (fail 403 refusal) else next p r)) right_ refusal.
Proof.
  intros Hg r s e.
  destruct (authed_runs (fun p r => if guard (p_user p) then ret (fail 403 refusal) else next p r) r s e)
    as [w1 [(rs & E & Hst & Hs)|(p & E & Hk & Hu & Hsess)]]; exists w1.
  - rewrite Hs. split_and!; [done..|]. left. eauto.
  - split_and!; [done..|]. destruct (Hg (p_user p)) as [[Hgp Hn]|[Hgp Hr]]; rewrite Hgp in E.
    + left. eexists. split; [exact E|]. right. eauto.
    + right. exists p. auto.
Qed.

(** No handler of the interface runs for a stranger.  Behind [admin], [operator] or
    [fleetWide] it is refused, or it runs as a principal with the right asked for that the
    tables vouch for at that moment: the owner of a live session whose token's hash the
    cookie's value has, or, when a token is presented, the creator of the unexpired token
    with its hash, as an administrator only if both are, otherwise as a viewer.  A token
    that is refused is not saved by a cookie. *)
Theorem guards_sound next :
  runs_as next (admin next) (fun u => Role u = RoleAdmin) "admin_required"%string /\
  runs_as next (operator next) may_operate "admin_required"%string /\
  runs_as next (fleetWide next) (fun u => Scoped u = false) "domain_scoped"%string.
Proof.
  split_and!.
  - set (guard := fun u : User => negb (bool_decide (Role u = RoleAdmin))).
    apply (guarded_runs next guard). intros u. unfold guard. case_bool_decide; [right|left]; done.
  - set (guard := fun u : User => negb (bool_decide (Role u = RoleAdmin)) && negb (bool_decide (Role u = RoleOperator))).
    apply (guarded_runs next guard). intros u. unfold guard, may_operate.
    repeat case_bool_decide; cbn; [right|right|right|left]; tauto.
  - apply (guarded_runs next Scoped). intros u. destruct (Scoped u); [left|right]; done.
Qed.

Lemma with_role_scope role u : AllowedDomains (with_role role u) = AllowedDomains u /\ UID (with_role role u) = UID u.
Proof. done. Qed.

(** A token never widens what its creator may do: behind every guard that lets the
    token's principal through, the creator's own session would pass too; and where the
    creator sees only some domains, the token sees no others. *)
Theorem token_never_widens presented t p :
  token_principal presented t p ->
  exists tok owner, p_token p = Some tok /\ owner ∈ ut_users t /\ CreatedBy tok = Some (UID owner) /\
    UID (p_user p) = UID owner /\
    (Role (p_user p) = RoleAdmin -> Role owner = RoleAdmin /\ TokRole tok = RoleAdmin) /\
    (may_operate (p_user p) -> may_operate owner) /\
    forall name, CanAccessDomain (p_user p) name = true -> CanAccessDomain owner name = true.
Proof.
  intros (tok & owner & now & Ht & _ & _ & _ & Hu & Hc & ->). exists tok, owner. split_and!; try done.
  - cbn. unfold narrowerRole. repeat case_bool_decide; done.
  - unfold may_operate. cbn. unfold narrowerRole. repeat case_bool_decide; cbn; intros [|]; try done. by left.
  - intros name. unfold CanAccessDomain, Scoped, narrowerRole. cbn. repeat case_bool_decide; cbn; try done.
Qed.

(** The two ways the interface asks what a scoped account may see agree: the list of
    domain identifiers its queries are narrowed to holds exactly the configured domains
    [CanAccessDomain] grants, and it is no list at all only for an account that may see
    every domain. *)
Theorem domain_scope_exact u ds id :
  match allowedDomainIDsForUser (Some u) ds with
  | None => Scoped u = false /\ forall name, CanAccessDomain u name = true
  | Some ids => Scoped u = true /\
      (id ∈ ids <-> exists d, d ∈ ds /\ DID d = id /\ CanAccessDomain u (DName d) = true)
  end.
Proof.
  unfold allowedDomainIDsForUser. destruct (Scoped u) eqn:Es; cbn [negb].
  2: { split; [done|]. intros name. unfold CanAccessDomain. by rewrite Es. }
  split; [done|]. unfold domainsForUser, ListDomains, CanAccessDomain. rewrite Es. cbn [negb].
  rewrite elem_of_map. setoid_rewrite elem_of_List_filter. setoid_rewrite existsb_elem.
  setoid_rewrite (merge_sort_Permutation name_le ds). unfold equal_fold.
  split.
  - intros (d & -> & Hd & Hin). bools. apply elem_of_map in Hd as (a & Ha & Hina). exists d. split_and!; [done..|].
    exists a. by rewrite bool_decide_eq_true_2.
  - intros (d & Hin & <- & a & Ha & Heq). bools. exists d. split_and!; [done|..]; [|done].
    apply bool_decide_eq_true, elem_of_map. eauto.
Qed.

(** A token of an operator: its principal is a viewer of the same domains. *)
Definition sample_owner : User :=
  {| UID := 7; Email := "ops@example.org"%string; PasswordHash := []; Role := RoleOperator;
     AllowedDomains := [T "a.example"]; UCreatedAt := 0; LastLoginAt := None; OIDC := None; TOTPSecret := [];
     TOTPEnabled := false; TOTPLastStep := 0 |}.

Definition sample_token : APIToken :=
  {| TokID := 1; TokName := "ci"%string; TokPrefix := []; TokHash := HashToken "xmx_token"%string; TokRole := RoleAdmin;
     CreatedBy := Some 7; TokCreatedAt := 0; TokExpiresAt := None; TokLastUsedAt := None |}.

Lemma token_never_widens_witness :
  token_principal "xmx_token"%string (Users [sample_owner] 8 [] [] [sample_token] 2)
    (Principal (with_role RoleViewer sample_owner) (Some sample_token)) /\
  exists owner, CreatedBy sample_token = Some (UID owner) /\
    forall name, CanAccessDomain (with_role RoleViewer sample_owner) name = true -> CanAccessDomain owner name = true.
Proof.
  assert (Hp : token_principal "xmx_token"%string (Users [sample_owner] 8 [] [] [sample_token] 2)
    (Principal (with_role RoleViewer sample_owner) (Some sample_token))).
  { exists sample_token, sample_owner, 0. split_and!; try reflexivity; apply list_elem_of_here. }
  split; [exact Hp|].
  destruct (token_never_widens _ _ _ Hp) as (tok & owner & [= <-] & _ & Hc & _ & _ & _ & Hn). exists owner. by split.
Defined.
