(* ===== verification/Webhook.v ===== *)
(** * The webhook dispatcher (internal/webhook)

    [drain] turns new events into deliveries, [deliverDue] attempts those that are due,
    [purgeRound] drops old ones.  The encoding of a payload and the parsing of an address
    are the library's.  The workers of a round attempt different deliveries and wait for
    each other before the next, so a round is modelled one attempt after the other. *)

From S2P Require Import Prelude GoStrings Base64 Sha Times Errors StoreTypes StoreQueue.
From S2P Require Import StoreDomains StoreWebhooks World Blob.
From Stdlib Require Import QArith.
Open Scope Z_scope.

(** [webhook.Payload]. *)
Record EventPayload := {
  PID : Z;
  PEvent : text;
  PAt : Z;
  PNode : text;
  PDomainID : option Z;
  PQueueID : option text;
  PData : jmap
}.

(** encoding/json on a payload, and the addresses net/http takes. *)
Class HttpLib := {
  json_payload : EventPayload -> result text;
  NewRequest : text -> option error
}.

(** [config.WebhooksConfig]. *)
Record WebhooksConfig := {
  wh_Enabled : bool;
  wh_Workers : Z;
  wh_MaxAttempts : Z;
  wh_RetryBase : Z;
  wh_RetryMax : Z;
  wh_Retention : Z
}.

Definition CursorKey : text := "webhook.cursor"%string.
Definition tailBatch : Z := 200.
Definition deliverBatch : Z := 50.

Definition on_hooks {A} (f : hook_tables -> result A * hook_tables) : M (result A) :=
  statement (fun s => let '(r, t) := f (s_hooks s) in (r, set_s_hooks t s)).
Definition exec_on_hooks (f : hook_tables -> hook_tables) : M (result unit) := on_hooks (fun t => (Ok (), f t)).

(** ** Retries *)

Definition retryable (code : Z) : bool :=
  if code =? 0 then true
  else if (code =? 408) || (code =? 429) then true
  else if (400 <=? code) && (code <? 500) then false
  else true.

(** 64-bit arithmetic. *)
Definition wrap64 (x : Z) : Z := (x + 2 ^ 63) mod 2 ^ 64 - 2 ^ 63.

(** The doublings of [backoff]; the loop runs at most [attempts - 1] times. *)
Fixpoint doubled (n : nat) (max delay : Z) : Z :=
  match n with
  | O => delay
  | S n => if delay <? max then doubled n max (wrap64 (delay * 2)) else delay
  end.

Section dispatcher.
Context `{SmtpLib} `{HttpLib} `{AEAD}.
Context (cfg : WebhooksConfig) (master node : text).

Definition backoff_base : Z := if wh_RetryBase cfg <=? 0 then 30 * second else wh_RetryBase cfg.
Definition backoff_max : Z := if wh_RetryMax cfg <? backoff_base then backoff_base else wh_RetryMax cfg.

Definition backoff_delay (attempts : Z) : Z :=
  let delay := doubled (Z.to_nat (attempts - 1)) backoff_max backoff_base in
  if backoff_max <? delay then backoff_max else delay.

Definition backoff (attempts : Z) : M Z :=
  let delay := backoff_delay attempts in
  let* jitter := draw_below (Z.quot delay 10 + 1) in ret (delay + jitter).

(** ** Sending *)

Definition Sign (secret : text) (timestamp : Z) (body : text) : text :=
  "sha256="%string ++ hex_encode (hmac_sha256 secret (dec timestamp ++ "."%string ++ body)).

Definition SignRequest (secret body : text) (now : Z) : list (text * text) :=
  let ts := unix_seconds now in
  (T "X-XeronMX-Timestamp", dec ts)
  :: if bool_decide (secret = []) then [] else [(T "X-XeronMX-Signature", Sign secret ts body)].

Definition send_headers (eventType : text) (deliveryID attempt : Z) : list (text * text) :=
  [(T "Content-Type", T "application/json"); (T "User-Agent", T "XeronMX"); (T "X-XeronMX-Event", eventType);
   (T "X-XeronMX-Node", node)]
  ++ (if 0 <? deliveryID then [(T "X-XeronMX-Delivery", dec deliveryID)] else [])
  ++ [(T "X-XeronMX-Attempt", dec attempt)].

Definition send (hook : Webhook) (eventType body : text) (deliveryID attempt : Z) : M (Z * option error) :=
  match NewRequest (WURL hook) with
  | Some e => ret (400, Some (EWrap "build request"%string e))
  | None =>
      match (match WSecret hook with [] => Ok [] | sealed => Unseal master sealed end) with
      | Err e => ret (400, Some (EWrap "the signing secret could not be read"%string e))
      | Ok secret =>
          let* now := now_ in
          let* answer := post (HttpPost (WURL hook) (send_headers eventType deliveryID attempt ++ SignRequest secret body now) body) in
          ret match answer with
              | inl e => (0, Some e)
              | inr code =>
                  if (code <? 200) || (300 <=? code) then
                    (code, Some (EText ("the endpoint answered "%string ++ dec code)))
                  else (code, None)
              end
      end
  end.

Definition post_delivery (hook : Webhook) (del : Delivery) : M (Z * option error) :=
  send hook (EventType del) (Payload del) (DelID del) (DelAttempts del + 1).

(** ** One attempt *)

Definition fail (del : Delivery) (code : Z) (reason : text) : M unit :=
  exec_on_hooks (MarkDeliveryFailed (DelID del) code reason) ;;; ret tt.

Definition attempt (del : Delivery) : M unit :=
  let* hook := query (fun s => Webhook_ (DelWebhookID del) (s_hooks s)) in
  match hook with
  | Err _ => fail del 0 "the subscription no longer exists"%string
  | Ok hook =>
      if negb (WEnabled hook) then fail del 0 "the subscription is disabled"%string
      else
        let* r := post_delivery hook del in
        match r with
        | (code, None) =>
            let* now := now_ in
            exec_on_hooks (MarkDeliverySucceeded (DelID del) code now) ;;; ret tt
        | (code, Some err) =>
            let attempts := DelAttempts del + 1 in
            if negb (retryable code) then
              fail del code (error_text err ++ " (a "%string ++ dec code ++ " is not retried)"%string)
            else if wh_MaxAttempts cfg <=? attempts then
              fail del code (error_text err ++ " (gave up after "%string ++ dec attempts ++ " attempts)"%string)
            else
              let* now := now_ in
              let* wait := backoff attempts in
              exec_on_hooks (RescheduleDelivery (DelID del) code (error_text err) (now + wait)) ;;; ret tt
        end
  end.

Fixpoint attempt_all (due : list Delivery) : M unit :=
  match due with
  | [] => ret tt
  | del :: rest =>
      let* stopped := ctx_done in
      if stopped then ret tt else attempt del ;;; attempt_all rest
  end.

Definition deliverDue : M unit :=
  let* now := now_ in
  let* due := query (fun s => Ok (DueDeliveries now deliverBatch (s_hooks s))) in
  match due with
  | Err _ => ret tt
  | Ok due => attempt_all due
  end.

(** ** From events to deliveries *)

Definition render (e : event_row) : result text :=
  json_payload {| PID := ev_id e; PEvent := EType (ev_event e); PAt := ev_created e; PNode := node;
                  PDomainID := EDomainID (ev_event e); PQueueID := EQueueID (ev_event e); PData := EData (ev_event e) |}.

(** The subscriptions of one event: [Some] is the error that stops the batch. *)
Fixpoint enqueue_for (e : event_row) (hooks : list Webhook) : M (option error) :=
  match hooks with
  | [] => ret None
  | h :: rest =>
      if negb (Wants h (EType (ev_event e))) then enqueue_for e rest
      else match render e with
      | Err _ => enqueue_for e rest
      | Ok payload =>
          let* at_ := now_ in
          let* now := now_ in
          let* r := on_hooks (EnqueueDelivery (WID h) (EType (ev_event e)) payload at_ now) in
          match r with
          | Err err => ret (Some (EWrap ("enqueue for webhook "%string ++ dec (WID h)) err))
          | Ok _ => enqueue_for e rest
          end
      end
  end.

Fixpoint enqueue_events (cursor : Z) (events : list event_row) (hooks : list Webhook) : M (Z * option error) :=
  match events with
  | [] => ret (cursor, None)
  | e :: rest =>
      let* err := enqueue_for e hooks in
      match err with
      | Some err => ret (cursor, Some err)
      | None => enqueue_events (ev_id e) rest hooks
      end
  end.

Definition drain (cursor : Z) : M (Z * option error) :=
  let* events := query (fun s => Ok (EventsSince cursor tailBatch (s_events s))) in
  match events with
  | Err e => ret (cursor, Some e)
  | Ok [] => ret (cursor, None)
  | Ok events =>
      let* hooks := query (fun s => Ok (ListWebhooks (s_hooks s))) in
      match hooks with
      | Err e => ret (cursor, Some e)
      | Ok hooks =>
          let* r := enqueue_events cursor events hooks in
          match r with
          | (cursor, Some e) => ret (cursor, Some e)
          | (cursor, None) =>
              let* saved := exec_on_hooks (SetMetaInt CursorKey cursor) in
              ret (cursor, match saved with Err e => Some e | Ok _ => None end)
          end
      end
  end.

(** One tick of [tail]: after an error the cursor stays where it was. *)
Definition tail_round (cursor : Z) : M Z :=
  let* r := drain cursor in
  ret match r with (_, Some _) => cursor | (next, None) => next end.

Definition startCursor : M (result Z) :=
  let* cursor := query (fun s => MetaInt CursorKey (s_hooks s)) in
  match cursor with
  | Ok c => ret (Ok c)
  | Err e =>
      if negb (is_sentinel ErrNotFound e) then ret (Err e)
      else
        let* head := query (fun s => Ok (MaxEventID (s_events s))) in
        match head with
        | Err e => ret (Err e)
        | Ok head =>
            let* saved := exec_on_hooks (SetMetaInt CursorKey head) in
            ret match saved with Err e => Err e | Ok _ => Ok head end
        end
  end.

(** One tick of [purgeLoop], which does not run without a retention. *)
Definition purgeRound : M unit :=
  if wh_Retention cfg <=? 0 then ret tt
  else
    let* now := now_ in
    on_hooks (fun t => let '(n, t) := PurgeDeliveries (now - wh_Retention cfg) t in (Ok n, t)) ;;; ret tt.

(** The button that sends a test. *)
Definition Test (hook : Webhook) : M (Z * option error) :=
  let* now := now_ in
  match json_payload {| PID := 0; PEvent := "test"%string; PAt := now; PNode := node; PDomainID := None; PQueueID := None;
          PData := [(T "message", JStr "This is a test delivery from XeronMX. Nothing happened; somebody pressed a button."%string);
                    (T "webhook", JStr (WName hook))] |} with
  | Err e => ret (0, Some e)
  | Ok body => send hook "test"%string body 0 1
  end.
End dispatcher.
