(* ===== verification/WebhookProps.v ===== *)
(** * The webhook dispatcher: guarantees *)

From S2P Require Import Prelude GoStrings Base64 Sha Times Errors StoreTypes StoreQueue.
From S2P Require Import StoreDomains DomainProps StoreWebhooks World Blob Webhook.
From Stdlib Require Import QArith.
Open Scope Z_scope.

(** What the dispatcher reads and writes. *)
Definition outbox (s : state) : hook_tables * event_table := (s_hooks s, s_events s).

Lemma wp_on_hooks md {A} (f : hook_tables -> result A * hook_tables) Q s :
  (forall e, no_faults md = false -> Q (Err e) s) -> (let '(r, t) := f (s_hooks s) in Q r (set_s_hooks t s)) ->
  wp md (on_hooks f) Q s.
Proof. intros He Hf. apply wp_statement; [done|]. destruct (f (s_hooks s)). done. Qed.

(** What one delivery is about. *)
Definition key (d : Delivery) : Z * text * text := (DelWebhookID d, EventType d, Payload d).

Definition keys (t : hook_tables) : list (Z * text * text) := map key (ht_deliveries t).

(** [t'] is [t] with fresh deliveries for [ks] behind the others. *)
Definition added (ks : list (Z * text * text)) (t t' : hook_tables) : Prop :=
  ht_hooks t' = ht_hooks t /\ ht_next t' = ht_next t /\ ht_meta t' = ht_meta t /\
  exists rows, ht_deliveries t' = ht_deliveries t ++ rows /\ map key rows = ks /\
    Forall (fun d => DelStatus d = DeliveryPending /\ DelAttempts d = 0) rows.

Lemma added_refl t : added [] t t.
Proof. split_and!; [done..|]. exists []. by rewrite app_nil_r. Qed.

Lemma added_trans ks1 ks2 t1 t2 t3 : added ks1 t1 t2 -> added ks2 t2 t3 -> added (ks1 ++ ks2) t1 t3.
Proof.
  intros (Hh & Hn & Hm & rows & Hd & Hk & Hp) (Hh' & Hn' & Hm' & rows' & Hd' & Hk' & Hp').
  split_and!; [congruence..|]. exists (rows ++ rows'). split_and!; [by rewrite Hd', Hd, app_assoc| |by apply Forall_app].
  by rewrite map_app, Hk, Hk'.
Qed.

Lemma added_keys ks t t' : added ks t t' -> keys t' = keys t ++ ks.
Proof. intros (_ & _ & _ & rows & Hd & <- & _). unfold keys. by rewrite Hd, map_app. Qed.

Lemma omap_step {A B} (f : A -> option B) x l :
  omap f (x :: l) = match f x with Some y => y :: omap f l | None => omap f l end.
Proof. done. Qed.

Lemma last_default {A} (l : list A) x d d' : List.last (x :: l) d = List.last (x :: l) d'.
Proof. revert x. induction l as [|y l IH]; intros x; [done|]. apply IH. Qed.

Section drain.
Context `{SmtpLib} `{HttpLib} (node : text).

(** What a subscription is owed for an event. *)
Definition wanted (e : event_row) (h : Webhook) : option (Z * text * text) :=
  if Wants h (EType (ev_event e)) then
    match render node e with Ok p => Some (WID h, EType (ev_event e), p) | Err _ => None end
  else None.

Definition owed (events : list event_row) (hooks : list Webhook) : list (Z * text * text) :=
  concat (map (fun e => omap (wanted e) hooks) events).

Lemma EnqueueDelivery_added id typ p at_ now t r t' :
  EnqueueDelivery id typ p at_ now t = (r, t') ->
  match r with Ok _ => added [(id, typ, p)] t t' | Err _ => t' = t end.
Proof.
  unfold EnqueueDelivery. destruct (existsb _ _); intros [= <- <-]; [|done]. split_and!; [done..|].
  eexists. split_and!; [done|done|]. by repeat constructor.
Qed.

Lemma wp_enqueue_for e hooks s :
  wp any (enqueue_for node e hooks)
    (fun err s' => s_events s' = s_events s /\ exists ks, added ks (s_hooks s) (s_hooks s') /\
       match err with None => ks = omap (wanted e) hooks | Some _ => ks `prefix_of` omap (wanted e) hooks end) s.
Proof.
  revert s. induction hooks as [|h rest IH]; intros s; cbn [enqueue_for].
  { apply wp_ret. split; [done|]. exists []. split; [apply added_refl|done]. }
  assert (Hskip : wanted e h = None -> wp any (enqueue_for node e rest)
    (fun err s' => s_events s' = s_events s /\ exists ks, added ks (s_hooks s) (s_hooks s') /\
       match err with None => ks = omap (wanted e) (h :: rest) | Some _ => ks `prefix_of` omap (wanted e) (h :: rest) end) s).
  { intros Hw. eapply wp_mono; [apply IH|]. cbn beta. intros err s' (Hev & ks & Hks & Hres). split; [done|]. exists ks.
    by rewrite (omap_step _ h), Hw. }
  destruct (Wants h _) eqn:Ew; cbn [negb]; [|apply Hskip; unfold wanted; by rewrite Ew].
  destruct (render node e) as [p|] eqn:Er; [|apply Hskip; unfold wanted; by rewrite Ew, Er].
  assert (Hw : wanted e h = Some (WID h, EType (ev_event e), p)) by (unfold wanted; by rewrite Ew, Er).
  apply wp_bind, wp_now. intros at_ _. apply wp_bind, wp_now. intros now _.
  apply wp_bind, wp_on_hooks.
  { intros err _. apply wp_ret. split; [done|]. exists []. split; [apply added_refl|apply prefix_nil]. }
  cbn [s_hooks set_s_now]. destruct (EnqueueDelivery _ _ _ _ _ _) as [r t] eqn:Ee. apply EnqueueDelivery_added in Ee.
  destruct r as [id|err].
  - eapply wp_mono; [apply IH|]. cbn beta. intros res s' (Hev & ks & Hks & Hres). split; [done|].
    eexists. split; [eapply added_trans; [exact Ee|exact Hks]|]. rewrite (omap_step _ h), Hw.
    destruct res; [by apply prefix_cons|by f_equal].
  - apply wp_ret. subst t. split; [done|]. exists []. split; [apply added_refl|apply prefix_nil].
Qed.

Definition last_id (cursor : Z) (events : list event_row) : Z := List.last (map ev_id events) cursor.

Lemma last_id_cons cursor e rest : last_id (ev_id e) rest = last_id cursor (e :: rest).
Proof. unfold last_id. destruct rest as [|e2 rest]; [done|]. cbn [map]. apply (last_default (map ev_id rest)). Qed.

Lemma owed_cons e rest hooks : owed (e :: rest) hooks = omap (wanted e) hooks ++ owed rest hooks.
Proof. done. Qed.

Lemma wp_enqueue_events events hooks cursor s :
  wp any (enqueue_events node cursor events hooks)
    (fun r s' => s_events s' = s_events s /\ exists ks, added ks (s_hooks s) (s_hooks s') /\
       match snd r with
       | None => ks = owed events hooks /\ fst r = last_id cursor events
       | Some _ => ks `prefix_of` owed events hooks
       end) s.
Proof.
  revert cursor s. induction events as [|e rest IH]; intros cursor s; cbn [enqueue_events].
  { apply wp_ret. split; [done|]. exists []. split; [apply added_refl|done]. }
  apply wp_bind. eapply wp_mono; [apply wp_enqueue_for|]. cbn beta. intros err s1 (Hev & ks & Hks & Herr).
  destruct err as [err|].
  - apply wp_ret. split; [done|]. exists ks. split; [done|]. cbn. by apply prefix_app_r.
  - subst ks. eapply wp_mono; [apply IH|]. cbn beta. intros r s' (Hev' & ks & Hks' & Hr). split; [congruence|].
    eexists. split; [eapply added_trans; [exact Hks|exact Hks']|]. rewrite owed_cons.
    destruct (snd r); [by apply prefix_app|]. destruct Hr as [-> ->]. split; [done|]. apply last_id_cons.
Qed.
(** *** One batch *)

Definition drained (cursor : Z) (s : state) (r : Z * option error) (s' : state) : Prop :=
  let events := EventsSince cursor tailBatch (s_events s) in
  let t := s_hooks s in let t' := s_hooks s' in
  s_events s' = s_events s /\ ht_hooks t' = ht_hooks t /\ exists rows,
    ht_deliveries t' = ht_deliveries t ++ rows /\
    Forall (fun d => DelStatus d = DeliveryPending /\ DelAttempts d = 0) rows /\
    match snd r with
    | None => map key rows = owed events (ht_hooks t) /\ fst r = last_id cursor events /\
        ht_meta t' = (if bool_decide (events = []) then ht_meta t else <[CursorKey := dec (fst r)]> (ht_meta t))
    | Some _ => map key rows `prefix_of` owed events (ht_hooks t) /\ ht_meta t' = ht_meta t
    end.

Lemma drained_nothing cursor s err s' : outbox s' = outbox s -> drained cursor s (cursor, Some err) s'.
Proof.
  intros [= Hh He]. unfold drained. rewrite Hh, He. split_and!; [done..|]. exists []. split_and!; [by rewrite app_nil_r|done|].
  split; [apply prefix_nil|done].
Qed.

Lemma wp_drain cursor s : wp any (drain node cursor) (drained cursor s) s.
Proof.
  unfold drain. apply wp_bind, wp_query; [intros; by apply wp_ret, drained_nothing|].
  destruct (EventsSince cursor tailBatch (s_events s)) as [|ev0 rest] eqn:Eev.
  { apply wp_ret. unfold drained. rewrite Eev. split_and!; [done..|]. exists []. by rewrite app_nil_r. }
  apply wp_bind, wp_query; [intros; by apply wp_ret, drained_nothing|].
  unfold ListWebhooks. rewrite <- Eev. apply wp_bind.
  eapply wp_mono; [apply wp_enqueue_events|]. cbn beta. intros [c err] s1 (Hev & ks & Hks & Hr). cbn [snd fst] in Hr.
  destruct Hks as (Hh & _ & Hm & rows & Hd & Hk & Hp). destruct err as [err|].
  - apply wp_ret. split_and!; [done..|]. exists rows. rewrite Hk. by split_and!.
  - destruct Hr as [Howed ->]. apply wp_bind, wp_on_hooks.
    + intros err _. apply wp_ret. split_and!; [done..|]. exists rows. split_and!; [done..|]. cbn [snd].
      rewrite Hk, Howed. done.
    + apply wp_ret. split_and!; [done..|]. exists rows. split_and!; [done..|]. cbn [snd fst]. rewrite Hk, Howed.
      split_and!; [done..|]. rewrite bool_decide_eq_false_2 by by rewrite Eev. cbn. by rewrite Hm.
Qed.

(** The batch holds every event up to the last of it. *)
Lemma EventsSince_upto cursor limit t e :
  events_ordered t -> e ∈ et_rows t -> cursor < ev_id e ->
  ev_id e <= last_id cursor (EventsSince cursor limit t) -> e ∈ EventsSince cursor limit t.
Proof.
  intros [Hs _] He Hc Hl. unfold EventsSince in *.
  set (l := List.filter (fun r => cursor <? ev_id r) (et_rows t)) in *.
  assert (Hl' : e ∈ l) by (apply elem_of_List_filter; split; [by apply Z.ltb_lt|done]).
  assert (Hsl : StronglySorted (fun a b => ev_id a < ev_id b) l).
  { subst l. clear - Hs. induction Hs as [|a l Hl IH Ha]; cbn; [constructor|]. destruct (cursor <? ev_id a); [|done].
    constructor; [done|]. rewrite Forall_forall in *. intros x [_ Hx]%elem_of_List_filter. auto. }
  unfold sql_limit in *. destruct (_ <? 0); [done|]. set (n := Z.to_nat _) in *.
  rewrite <- (take_drop n l) in Hl', Hsl. apply elem_of_app in Hl' as [|Hd]; [done|]. exfalso.
  revert Hl. unfold last_id. destruct (take n l) as [|a k] eqn:Et; [cbn; lia|].
  assert (Hlast : exists b, b ∈ a :: k /\ List.last (map ev_id (a :: k)) cursor = ev_id b).
  { clear. revert a. induction k as [|b k IH]; intros a; [exists a; split; [apply list_elem_of_here|done]|].
    destruct (IH b) as (c & Hc & Ec). exists c. split; [by apply list_elem_of_further|]. exact Ec. }
  destruct Hlast as (b & Hb & Eb). rewrite Eb.
  eapply StronglySorted_app_1_elem_of in Hsl; [|exact Hb|exact Hd]. cbn in Hsl. lia.
Qed.

Lemma EventsSince_elem cursor limit t e : e ∈ EventsSince cursor limit t -> e ∈ et_rows t /\ cursor < ev_id e.
Proof.
  unfold EventsSince, sql_limit. intros He. assert (He' : e ∈ List.filter (fun r => cursor <? ev_id r) (et_rows t)).
  { destruct (_ <? 0); [done|]. eapply elem_of_sublist; [exact He|apply sublist_take]. }
  apply elem_of_List_filter in He' as [? ?]. by bools.
Qed.

Lemma last_id_cases cursor events :
  last_id cursor events = cursor \/ exists e, e ∈ events /\ last_id cursor events = ev_id e.
Proof.
  revert cursor. induction events as [|a events IH]; intros cursor; [by left|]. right.
  rewrite <- (last_id_cons cursor).
  destruct (IH (ev_id a)) as [-> |(e & He & ->)]; eexists; split; try done;
    [apply list_elem_of_here|by apply list_elem_of_further].
Qed.
End drain.

(** ** Backoff *)

Lemma wrap64_id x : - 2 ^ 63 <= x < 2 ^ 63 -> wrap64 x = x.
Proof. intros Hx. unfold wrap64. rewrite Z.mod_small; lia. Qed.

Lemma doubled_spec n max delay :
  0 < delay <= max -> max <= 2 ^ 62 ->
  delay <= doubled n max delay /\ doubled n max delay < 2 ^ 63 /\
  Z.min max (doubled n max delay) = Z.min max (delay * 2 ^ Z.of_nat n).
Proof.
  revert delay. induction n as [|n IH]; intros delay Hd Hm; cbn [doubled].
  { rewrite Z.mul_1_r. lia. }
  rewrite Nat2Z.inj_succ, Z.pow_succ_r by lia. assert (Hp : 0 < 2 ^ Z.of_nat n) by (apply Z.pow_pos_nonneg; lia).
  destruct (Z.ltb_spec delay max).
  - rewrite wrap64_id by lia. destruct (Z.le_gt_cases (delay * 2) max) as [Hle|Hgt].
    + destruct (IH (delay * 2)) as (H1 & H2 & H3); [lia..|]. split_and!; [lia..|]. rewrite H3. f_equal. lia.
    + assert (doubled n max (delay * 2) = delay * 2) as ->.
      { destruct n; cbn; [done|]. by rewrite (proj2 (Z.ltb_ge _ _)) by lia. }
      split_and!; [lia..|]. assert (delay * 2 <= delay * (2 * 2 ^ Z.of_nat n)) by nia. lia.
  - split_and!; [lia..|]. assert (delay <= delay * (2 * 2 ^ Z.of_nat n)) by nia. lia.
Qed.

(** The wait before a retry: the base doubled for each attempt already made, capped. *)
Lemma backoff_delay_spec cfg attempts :
  wh_RetryMax cfg <= 2 ^ 62 -> backoff_base cfg <= 2 ^ 62 -> 1 <= attempts ->
  backoff_delay cfg attempts = Z.min (backoff_max cfg) (backoff_base cfg * 2 ^ (attempts - 1)) /\
  0 < backoff_base cfg <= backoff_delay cfg attempts /\ backoff_delay cfg attempts <= backoff_max cfg.
Proof.
  intros Hm Hb Ha. assert (Hb0 : 0 < backoff_base cfg).
  { unfold backoff_base. destruct (Z.leb_spec (wh_RetryBase cfg) 0); [done|lia]. }
  assert (Hbm : backoff_base cfg <= backoff_max cfg <= 2 ^ 62).
  { unfold backoff_max. destruct (Z.ltb_spec (wh_RetryMax cfg) (backoff_base cfg)); lia. }
  destruct (doubled_spec (Z.to_nat (attempts - 1)) (backoff_max cfg) (backoff_base cfg)) as (H1 & H2 & H3); [lia..|].
  rewrite Z2Nat.id in H3 by lia. unfold backoff_delay. cbv zeta.
  destruct (Z.ltb_spec (backoff_max cfg) (doubled (Z.to_nat (attempts - 1)) (backoff_max cfg) (backoff_base cfg))); lia.
Qed.

(** ** Attempts *)

(** What the event stream asks of a subscription. *)
Definition hook_view (w : Webhook) : Z * bool * list text := (WID w, WEnabled w, WEvents w).
Definition views (t : hook_tables) := map hook_view (ht_hooks t).

Section attempts.
Context `{SmtpLib} `{HttpLib} `{AEAD}.
Context (cfg : WebhooksConfig) (master node : text).

(** What an attempt at [del], started at [from_], may write in its row. *)
Inductive recorded (del : Delivery) (from_ : Z) : (Delivery -> Delivery) -> Prop :=
| rec_delivered code now :
    200 <= code < 300 -> recorded del from_ (attempted DeliveryDelivered code [] None (Some now))
| rec_abandoned code reason :
    code = 0 \/ retryable code = false \/ wh_MaxAttempts cfg <= DelAttempts del + 1 ->
    recorded del from_ (attempted DeliveryFailed code (truncate reason 500) None None)
| rec_retry code reason next :
    retryable code = true -> DelAttempts del + 1 < wh_MaxAttempts cfg ->
    from_ + backoff_delay cfg (DelAttempts del + 1) <= next ->
    recorded del from_ (fun d => attempted (DelStatus d) code (truncate reason 500) (Some next) None d).

(** The row [id] changed by [f], every other delivery and what subscriptions want as before. *)
Definition changed (id : Z) (f : Delivery -> Delivery) (s s' : state) : Prop :=
  s_events s' = s_events s /\ views (s_hooks s') = views (s_hooks s) /\ ht_meta (s_hooks s') = ht_meta (s_hooks s) /\
  ht_deliveries (s_hooks s') = map (fun d => if delivery_by id d then f d else d) (ht_deliveries (s_hooks s)).

Lemma changed_nothing id s s' : outbox s' = outbox s -> changed id (fun d => d) s s'.
Proof.
  intros [= Hh He]. unfold changed. rewrite Hh, He. split_and!; [done..|].
  rewrite <- (map_id (ht_deliveries _)) at 1. apply map_ext. intros d. by destruct (delivery_by id d).
Qed.

Lemma views_outcome p reason ok t : views (update_hooks p (with_outcome reason ok) t) = views t.
Proof. unfold views, update_hooks. cbn. rewrite map_map. apply map_ext. intros w. by destruct (p w). Qed.

Lemma wp_mark md id f (op : hook_tables -> hook_tables) (Q : result unit -> state -> Prop) s :
  (forall t, exists p reason ok, op t = update_hooks p (with_outcome reason ok) (update_deliveries (delivery_by id) f t)) ->
  (forall e, no_faults md = false -> Q (Err e) s) ->
  (forall s', s_now s' = s_now s -> changed id f s s' -> Q (Ok ()) s') ->
  wp md (exec_on_hooks op) Q s.
Proof.
  intros Hop He HQ. apply wp_on_hooks; [done|]. destruct (Hop (s_hooks s)) as (p & reason & ok & E).
  cbn beta iota. rewrite E. apply HQ; [done|]. unfold changed. cbn [s_events s_hooks set_s_hooks].
  rewrite views_outcome. done.
Qed.

Lemma changed_from id f s0 s1 s2 : outbox s1 = outbox s0 -> changed id f s1 s2 -> changed id f s0 s2.
Proof. intros [= Hh He]. unfold changed. by rewrite Hh, He. Qed.

(** What [attempt] promises: one row written as recorded, or, when the database fails, nothing. *)
Definition tried (md : mode) (del : Delivery) (s s' : state) : Prop :=
  s_now s <= s_now s' /\ exists f, changed (DelID del) f s s' /\ (recorded del (s_now s) f \/ no_faults md = false /\ f = fun d => d).

Lemma tried_now md del s0 s1 s2 :
  outbox s1 = outbox s0 -> s_now s0 <= s_now s1 -> tried md del s1 s2 -> tried md del s0 s2.
Proof.
  intros Ho Hn (Ht & f & Hc & Hf). split; [lia|]. exists f. split; [by eapply changed_from|]. destruct Hf as [Hf|]; [left|by right].
  destruct Hf; econstructor; try done. lia.
Qed.

Lemma tried_nothing md del s s' :
  no_faults md = false -> outbox s' = outbox s -> s_now s <= s_now s' -> tried md del s s'.
Proof. intros Hm Ho Ht. split; [done|]. exists (fun d => d). split; [by apply changed_nothing|by right]. Qed.

Lemma wp_hook_record md del f op s s0 :
  (forall t, exists p reason ok, op t = update_hooks p (with_outcome reason ok) (update_deliveries (delivery_by (DelID del)) f t)) ->
  outbox s = outbox s0 -> s_now s0 <= s_now s -> recorded del (s_now s0) f ->
  wp md (exec_on_hooks op ;;; ret tt) (fun _ => tried md del s0) s.
Proof.
  intros Hop Ho Ht Hf. apply wp_bind. eapply wp_mark; [exact Hop|..].
  - intros e Hm. apply wp_ret. by apply tried_nothing.
  - intros s' Hn Hc. apply wp_ret. split; [by rewrite Hn|]. exists f. split; [by eapply changed_from|by left].
Qed.

Lemma keeps_send hook typ body id n : keeps outbox (send master node hook typ body id n).
Proof. unfold send. keeps. Qed.

Lemma wp_send md hook typ body id n s :
  wp md (send master node hook typ body id n)
    (fun r s' => outbox s' = outbox s /\ s_now s <= s_now s' /\ (snd r = None -> 200 <= fst r < 300)) s.
Proof.
  eapply wp_keeps; [apply keeps_send| |intros a s' E Ha; exact (conj E Ha)].
  unfold send. destruct (NewRequest (WURL hook)); [apply wp_ret; cbn; split; [lia|done]|].
  destruct (match WSecret hook with [] => _ | _ => _ end); [|apply wp_ret; cbn; split; [lia|done]].
  apply wp_bind, wp_now. intros t Ht. apply wp_bind, wp_post. intros r. apply wp_ret. split; [done|].
  destruct r as [e|code]; [done|]. destruct (_ || _) eqn:E; cbn; [done|]. intros _. apply orb_false_iff in E as [].
  bools. lia.
Qed.

Hypothesis Hcap : wh_RetryMax cfg <= 2 ^ 62 /\ backoff_base cfg <= 2 ^ 62.

Lemma wp_hook_attempt md del s :
  0 <= DelAttempts del -> wp md (attempt cfg master node del) (fun _ => tried md del s) s.
Proof.
  intros Hn. unfold attempt, fail, post_delivery. apply wp_bind, wp_query.
  { intros e _. eapply wp_hook_record; [intros ?; by eexists _, _, _|done|cbn; lia|]. constructor. by left. }
  destruct (Webhook_ _ _) as [hook|e].
  2: { eapply wp_hook_record; [intros ?; by eexists _, _, _|done|cbn; lia|]. constructor. by left. }
  destruct (negb (WEnabled hook)).
  { eapply wp_hook_record; [intros ?; by eexists _, _, _|done|cbn; lia|]. constructor. by left. }
  apply wp_bind. eapply wp_mono; [apply wp_send|]. cbn beta. intros [code err] s1 (Ho & Ht & Hcode). cbn [fst snd] in Hcode.
  eapply wp_mono; [|intros ? ? Hd; eapply tried_now; [exact Ho|exact Ht|exact Hd]]. clear Ho Ht s.
  destruct err as [err|].
  2: { apply wp_bind, wp_now. intros t Ht'. eapply wp_hook_record; [intros ?; by eexists _, _, _|done|cbn; lia|]. constructor. auto. }
  cbv zeta. destruct (retryable code) eqn:Er; cbn [negb].
  2: { eapply wp_hook_record; [intros ?; by eexists _, _, _|done|cbn; lia|]. constructor. auto. }
  destruct (Z.leb_spec (wh_MaxAttempts cfg) (DelAttempts del + 1)) as [Hm|Hm].
  { eapply wp_hook_record; [intros ?; by eexists _, _, _|done|cbn; lia|]. constructor. auto. }
  apply wp_bind, wp_now. intros t Ht. destruct Hcap as [Hc1 Hc2].
  destruct (backoff_delay_spec cfg (DelAttempts del + 1)) as (_ & Hb & _); [done|done|lia|].
  unfold backoff. cbv zeta. apply wp_bind, wp_bind, wp_draw_below.
  { assert (0 <= Z.quot (backoff_delay cfg (DelAttempts del + 1)) 10) by (apply Z.quot_pos; lia). lia. }
  intros k Hk. apply wp_ret. eapply wp_hook_record; [intros ?; by eexists _, _, _|done|cbn; lia|]. constructor; [done|done|lia].
Qed.
Lemma keeps_draw_below {X} (f : state -> X) n : keeps f (draw_below n).
Proof. intros md s e He. unfold draw_below. cbn. by destruct (e_draws e). Qed.

(** *** A round *)

Lemma recorded_earlier del t0 t1 f : t0 <= t1 -> recorded del t1 f -> recorded del t0 f.
Proof. intros Ht []; constructor; try done. lia. Qed.

Lemma recorded_id del t f d : recorded del t f -> DelID (f d) = DelID d.
Proof. by intros []. Qed.

Definition calm (md : mode) : bool := no_faults md && no_deadline md.

(** Each row of a round is rewritten by its own function. *)
Definition round_by (md : mode) (from_ : Z) (due : list Delivery) (F : Z -> Delivery -> Delivery) : Prop :=
  (forall i, i ∉ map DelID due -> forall d, F i d = d) /\
  (forall del, del ∈ due ->
     (exists f, recorded del from_ f /\ forall d, F (DelID del) d = f d) \/ calm md = false /\ forall d, F (DelID del) d = d).

Lemma round_by_nothing md t due : (calm md = true -> due = []) -> round_by md t due (fun _ d => d).
Proof.
  intros Hc. split; [done|]. intros del Hd. right. split; [|done]. destruct (calm md); [|done].
  rewrite Hc in Hd by done. inv Hd.
Qed.

Lemma round_by_cons md t0 t1 del due f F :
  DelID del ∉ map DelID due -> t0 <= t1 ->
  recorded del t0 f \/ no_faults md = false /\ f = (fun d => d) -> round_by md t1 due F ->
  round_by md t0 (del :: due) (fun i d => if bool_decide (i = DelID del) then f d else F i d).
Proof.
  intros Hni Ht Hf [HF1 HF2]. split.
  - intros i Hi d. cbn in Hi. apply not_elem_of_cons in Hi as [Hi1 Hi2].
    rewrite bool_decide_eq_false_2 by done. by apply HF1.
  - intros d [-> |Hd]%elem_of_cons.
    + destruct Hf as [Hf|[Hm ->]].
      * left. exists f. split; [done|]. intros d'. by rewrite bool_decide_eq_true_2.
      * right. unfold calm. rewrite Hm. split; [done|]. intros d'. by case_bool_decide.
    + assert (DelID d <> DelID del) as Hne.
      { intros E. apply Hni. rewrite <- E. by apply list_elem_of_fmap_2. }
      rewrite bool_decide_eq_false_2 by done. destruct (HF2 d Hd) as [(g & Hg & Eg)|]; [left|by right].
      exists g. split; [by eapply recorded_earlier|done].
Qed.

Definition rewritten (F : Z -> Delivery -> Delivery) (s s' : state) : Prop :=
  ht_deliveries (s_hooks s') = map (fun d => F (DelID d) d) (ht_deliveries (s_hooks s)).

Lemma wp_attempt_all md due s :
  NoDup (map DelID due) -> (forall d, d ∈ due -> 0 <= DelAttempts d) ->
  wp md (attempt_all cfg master node due)
    (fun _ s' => s_now s <= s_now s' /\ exists F, round_by md (s_now s) due F /\ rewritten F s s') s.
Proof.
  revert s. induction due as [|del due IH]; intros s Hnd Hn; cbn [attempt_all].
  { apply wp_ret. split; [lia|]. exists (fun _ d => d). split; [by apply round_by_nothing|].
    unfold rewritten. by rewrite map_id. }
  cbn in Hnd. apply NoDup_cons in Hnd as [Hni Hnd].
  apply wp_bind, wp_ctx_done. intros stopped Hst. destruct stopped.
  { apply wp_ret. split; [lia|]. exists (fun _ d => d). split; [|unfold rewritten; by rewrite map_id].
    apply round_by_nothing. unfold calm. destruct (no_deadline md); [by specialize (Hst eq_refl)|].
    by rewrite andb_false_r. }
  apply wp_bind. eapply wp_mono.
  { apply (wp_hook_attempt md del). apply Hn, list_elem_of_here. }
  cbn beta. intros _ s1 (Ht & f & (_ & _ & _ & Hrows) & Hf).
  eapply wp_mono; [apply IH; [done|]; intros; apply Hn; by apply list_elem_of_further|]. cbn beta.
  intros _ s2 (Ht2 & F & HF & Hrows2). split; [lia|]. eexists. split; [by eapply round_by_cons|].
  unfold rewritten in *. rewrite Hrows2, Hrows, map_map. apply map_ext. intros d. unfold delivery_by.
  destruct (Z.eqb_spec (DelID d) (DelID del)) as [E|E].
  - rewrite bool_decide_eq_true_2 by done.
    assert (DelID (f d) = DelID d) as ->.
    { destruct Hf as [Hf|[_ ->]]; [by eapply recorded_id|done]. }
    rewrite E. by apply HF.
  - by rewrite bool_decide_eq_false_2.
Qed.

Definition rows_wf (t : hook_tables) : Prop :=
  NoDup (map DelID (ht_deliveries t)) /\ Forall (fun d => 0 <= DelAttempts d) (ht_deliveries t).

(** Which rows a round takes. *)
Lemma DueDeliveries_spec now limit t d :
  d ∈ DueDeliveries now limit t -> d ∈ ht_deliveries t /\ is_due now d = true.
Proof.
  unfold DueDeliveries, sql_limit. intros Hd.
  assert (Hd' : d ∈ merge_sort attempt_le (List.filter (is_due now) (ht_deliveries t))).
  { destruct (_ <? 0); [done|]. eapply elem_of_sublist; [exact Hd|apply sublist_take]. }
  rewrite merge_sort_Permutation in Hd'. apply elem_of_List_filter in Hd' as [? ?]. by bools.
Qed.

Lemma DueDeliveries_NoDup now limit t :
  NoDup (map DelID (ht_deliveries t)) -> NoDup (map DelID (DueDeliveries now limit t)).
Proof.
  intros Hnd. unfold DueDeliveries, sql_limit.
  assert (Hnd' : NoDup (map DelID (merge_sort attempt_le (List.filter (is_due now) (ht_deliveries t))))).
  { rewrite merge_sort_Permutation. eapply sublist_NoDup; [exact Hnd|]. apply fmap_sublist, sublist_List_filter. }
  destruct (_ <? 0); [done|]. eapply sublist_NoDup; [exact Hnd'|]. apply fmap_sublist, sublist_take.
Qed.

Lemma DueDeliveries_some now limit t d : d ∈ ht_deliveries t -> is_due now d = true -> DueDeliveries now limit t <> [].
Proof.
  intros Hd Hi. unfold DueDeliveries, sql_limit.
  assert (Hd' : d ∈ merge_sort attempt_le (List.filter (is_due now) (ht_deliveries t))).
  { rewrite merge_sort_Permutation. apply elem_of_List_filter. auto. }
  destruct (merge_sort _ _) as [|x l]; [inv Hd'|]. destruct (Z.leb_spec limit 0); [done|].
  destruct (Z.ltb_spec limit 0); [done|]. destruct (Z.to_nat limit) eqn:E; [lia|done].
Qed.

Lemma wp_deliverDue md s :
  rows_wf (s_hooks s) ->
  wp md (deliverDue cfg master node)
    (fun _ s' => exists now F, s_now s <= now <= s_now s' /\
       round_by md now (DueDeliveries now deliverBatch (s_hooks s)) F /\ rewritten F s s') s.
Proof.
  intros [Hnd Hn]. rewrite Forall_forall in Hn. unfold deliverDue. apply wp_bind, wp_now. intros now Hnow.
  apply wp_bind, wp_query.
  { intros e Hm. apply wp_ret. exists now, (fun _ d => d). split; [cbn; lia|]. split.
    - apply round_by_nothing. unfold calm. by rewrite Hm.
    - unfold rewritten. by rewrite map_id. }
  eapply wp_mono.
  { apply wp_attempt_all; [by apply DueDeliveries_NoDup|]. intros d [Hd _]%DueDeliveries_spec. by apply Hn. }
  cbn beta. intros _ s' (Ht & F & HF & Hr). cbn in Ht, HF. exists now, F. split; [lia|]. by split.
Qed.

(** The row [d] after a round at [now] that found [due]. *)
Definition round_row (md : mode) (now : Z) (due : list Delivery) (d d' : Delivery) : Prop :=
  d' = d /\ (d ∉ due \/ calm md = false) \/ d ∈ due /\ exists f, recorded d now f /\ d' = f d.

Lemma round_by_row md now due F rows d :
  NoDup (map DelID rows) -> (forall x, x ∈ due -> x ∈ rows) -> d ∈ rows -> round_by md now due F ->
  round_row md now due d (F (DelID d) d).
Proof.
  intros Hnd Hsub Hd [HF1 HF2]. destruct (decide (DelID d ∈ map DelID due)) as [Hin|Hni].
  - apply list_elem_of_fmap in Hin as (x & Ex & Hx).
    assert (x = d) as -> by (eapply NoDup_map_unique; eauto).
    destruct (HF2 d Hx) as [(f & Hf & Ef)|[Hm Ef]]; [right; split; [done|]; exists f; by rewrite Ef|left; auto].
  - left. rewrite HF1 by done. split; [done|]. left. intros Hx. apply Hni. by apply list_elem_of_fmap_2.
Qed.

Lemma rewritten_rows md now due F s s' :
  NoDup (map DelID (ht_deliveries (s_hooks s))) -> (forall x, x ∈ due -> x ∈ ht_deliveries (s_hooks s)) ->
  round_by md now due F -> rewritten F s s' ->
  Forall2 (round_row md now due) (ht_deliveries (s_hooks s)) (ht_deliveries (s_hooks s')).
Proof.
  intros Hnd Hsub HF ->. apply Forall2_fmap_r, Forall_Forall2_diag, Forall_forall. intros d Hd.
  by eapply round_by_row.
Qed.

(** *** How much is left to do *)

(** The attempts a delivery can still take. *)
Definition remaining (d : Delivery) : nat :=
  if bool_decide (DelStatus d = DeliveryPending) then Z.to_nat (Z.max 1 (wh_MaxAttempts cfg - DelAttempts d)) else 0.

Definition outstanding (t : hook_tables) : nat := sum_list_with remaining (ht_deliveries t).

Lemma recorded_remaining d now f :
  recorded d now f -> DelStatus d = DeliveryPending -> (remaining (f d) < remaining d)%nat.
Proof.
  intros Hf Hp. unfold remaining. rewrite (bool_decide_eq_true_2 (DelStatus d = DeliveryPending)) by done.
  destruct Hf; cbn [DelStatus DelAttempts attempted];
    [rewrite bool_decide_eq_false_2 by done; lia..|]. rewrite bool_decide_eq_true_2 by done. lia.
Qed.

Lemma is_due_pending now d : is_due now d = true -> DelStatus d = DeliveryPending.
Proof. unfold is_due. intros Hd. apply andb_true_iff in Hd as [Hd _]. by apply bool_decide_eq_true in Hd. Qed.

Lemma round_row_remaining md now due d d' :
  (forall x, x ∈ due -> DelStatus x = DeliveryPending) -> round_row md now due d d' ->
  d' = d \/ (remaining d' < remaining d)%nat.
Proof. intros Hp [[-> _]|(Hd & f & Hf & ->)]; [by left|right]. eapply recorded_remaining; eauto. Qed.

Lemma outstanding_decreases rows rows' :
  Forall2 (fun d d' => d' = d \/ (remaining d' < remaining d)%nat) rows rows' ->
  rows' = rows \/ (sum_list_with remaining rows' < sum_list_with remaining rows)%nat.
Proof.
  induction 1 as [|d d' rows rows' Hd _ IH]; [by left|]. cbn.
  destruct Hd as [-> |Hd], IH as [-> |IH]; [by left|right; lia..].
Qed.

Lemma round_rows_wf md now due s s' :
  Forall2 (round_row md now due) (ht_deliveries (s_hooks s)) (ht_deliveries (s_hooks s')) ->
  rows_wf (s_hooks s) -> rows_wf (s_hooks s').
Proof.
  intros HF [Hnd Hn]. unfold rows_wf.
  assert (map DelID (ht_deliveries (s_hooks s')) = map DelID (ht_deliveries (s_hooks s))) as ->.
  { clear - HF. induction HF as [|d d' l l' Hd _ IH]; cbn; [done|]. f_equal; [|done].
    destruct Hd as [[-> _]|(_ & f & Hf & ->)]; [done|]. by eapply recorded_id. }
  split; [done|]. clear Hnd. induction HF as [|d d' l l' Hd _ IH]; [done|]. inv Hn. constructor; [|by apply IH].
  destruct Hd as [[-> _]|(_ & f & [] & ->)]; cbn; lia.
Qed.

(** *** Rounds *)

(** The database answers and the process is not being stopped. *)
Definition calm_mode : mode := Assume true true true (fun _ => True) (fun _ => True).

(** [busy] rounds of [deliverDue], and any number of idle ones, lead from one state to another. *)
Inductive rounds : nat -> state -> state -> Prop :=
| rounds_none s : rounds 0 s s
| rounds_idle busy s0 s1 e :
    rounds busy s0 s1 -> allows calm_mode e ->
    let s2 := st (snd (deliverDue cfg master node (World s1 e))) in
    ht_deliveries (s_hooks s2) = ht_deliveries (s_hooks s1) -> rounds busy s0 s2
| rounds_busy busy s0 s1 e :
    rounds busy s0 s1 -> allows calm_mode e ->
    let s2 := st (snd (deliverDue cfg master node (World s1 e))) in
    ht_deliveries (s_hooks s2) <> ht_deliveries (s_hooks s1) -> rounds (S busy) s0 s2.

Lemma deliverDue_run md e s :
  rows_wf (s_hooks s) -> allows md e ->
  let s' := st (snd (deliverDue cfg master node (World s e))) in
  exists now, s_now s <= now <= s_now s' /\ rows_wf (s_hooks s') /\
    Forall2 (round_row md now (DueDeliveries now deliverBatch (s_hooks s)))
      (ht_deliveries (s_hooks s)) (ht_deliveries (s_hooks s')).
Proof.
  intros Hwf He s'. pose proof (wp_run md _ _ _ _ He (wp_deliverDue md s Hwf)) as Hr.
  subst s'. destruct (deliverDue _ _ _ _) as [[] w]. destruct Hr as (now & F & Ht & HF & Hr). exists now.
  assert (Hrows : Forall2 (round_row md now (DueDeliveries now deliverBatch (s_hooks s)))
      (ht_deliveries (s_hooks s)) (ht_deliveries (s_hooks (st w)))).
  { eapply rewritten_rows; try done; [apply Hwf|]. by intros x [? _]%DueDeliveries_spec. }
  split; [done|]. split; [by eapply round_rows_wf|done].
Qed.

Lemma round_row_changed now due d d' :
  round_row calm_mode now due d d' -> d ∉ due \/ exists f, recorded d now f /\ d' = f d.
Proof. intros [[_ [Hd|Hc]]|[_ Hf]]; [by left|discriminate|by right]. Qed.

Lemma round_progress e s :
  rows_wf (s_hooks s) -> allows calm_mode e ->
  let s' := st (snd (deliverDue cfg master node (World s e))) in
  rows_wf (s_hooks s') /\
  (ht_deliveries (s_hooks s') = ht_deliveries (s_hooks s) \/ (outstanding (s_hooks s') < outstanding (s_hooks s))%nat) /\
  (forall d, d ∈ ht_deliveries (s_hooks s) -> (forall now, s_now s <= now -> is_due now d = true) ->
     ht_deliveries (s_hooks s') <> ht_deliveries (s_hooks s)).
Proof.
  intros Hwf He s'. destruct (deliverDue_run calm_mode e s Hwf He) as (now & Ht & Hwf' & Hrows). split_and!; [done| |].
  - apply outstanding_decreases. eapply Forall2_impl; [exact Hrows|]. intros d d' Hd.
    eapply round_row_remaining; [|exact Hd]. intros x [_ Hx]%DueDeliveries_spec. by eapply is_due_pending.
  - intros d Hd Hdue E. specialize (Hdue now ltac:(lia)).
    pose proof (DueDeliveries_some now deliverBatch (s_hooks s) d Hd Hdue) as Hne.
    destruct (DueDeliveries now deliverBatch (s_hooks s)) as [|x l] eqn:El; [done|].
    assert (Hx : x ∈ DueDeliveries now deliverBatch (s_hooks s)) by (rewrite El; apply list_elem_of_here).
    destruct (DueDeliveries_spec _ _ _ _ Hx) as [Hin Hxd]. fold s' in Hrows. rewrite E in Hrows.
    apply list_elem_of_lookup in Hin as [i Hi]. pose proof (Forall2_lookup_lr _ _ _ _ _ _ Hrows Hi Hi) as Hr.
    destruct (round_row_changed now (x :: l) x x Hr) as [Hni|Hlt]; [by apply Hni, list_elem_of_here|].
    destruct Hlt as (f & Hf & Ef). apply recorded_remaining in Hf; [rewrite <- Ef in Hf; lia|].
    by eapply is_due_pending.
Qed.
End attempts.

(** ** The event stream *)

Section stream.
Context `{SmtpLib} `{HttpLib} `{AEAD}.
Context (cfg : WebhooksConfig) (master node : text).

Lemma wanted_view e h h' : hook_view h = hook_view h' -> wanted node e h = wanted node e h'.
Proof. unfold hook_view, wanted, Wants. by intros [= -> -> ->]. Qed.

(** What the deliveries do not touch of the stream. *)
Definition stream (s : state) := (s_events s, views (s_hooks s), ht_meta (s_hooks s), keys (s_hooks s)).

Lemma keeps_exec_mark (op : hook_tables -> hook_tables) :
  (forall t, views (op t) = views t /\ ht_meta (op t) = ht_meta t /\ keys (op t) = keys t) -> keeps stream (exec_on_hooks op).
Proof.
  intros Hop. apply keeps_statement. intros s. unfold stream. cbn. by destruct (Hop (s_hooks s)) as (-> & -> & ->).
Qed.

Lemma keys_update p f t : (forall d, key (f d) = key d) -> keys (update_deliveries p f t) = keys t.
Proof. intros Hf. unfold keys. cbn. rewrite map_map. apply map_ext. intros d. destruct (p d); [apply Hf|done]. Qed.

Lemma keys_outcome p f t : keys (update_hooks p f t) = keys t.
Proof. done. Qed.

Ltac mark :=
  apply keeps_exec_mark; intros t; unfold MarkDeliverySucceeded, RescheduleDelivery, MarkDeliveryFailed; cbv zeta;
  rewrite views_outcome, keys_outcome; split_and!; [done|done|by apply keys_update].

Lemma keeps_attempt del : keeps stream (attempt cfg master node del).
Proof.
  assert (Hfail : forall code reason, keeps stream (fail del code reason)).
  { intros. apply keeps_bind; [mark|keeps]. }
  unfold attempt, post_delivery, send, backoff. keeps; try mark; try apply Hfail. apply keeps_draw_below.
Qed.

Lemma keeps_deliverDue : keeps stream (deliverDue cfg master node).
Proof.
  unfold deliverDue. keeps. match goal with |- keeps _ (attempt_all _ _ _ ?l) => induction l as [|d l IH] end; cbn [attempt_all]; [keeps|].
  apply keeps_bind; [keeps|]. intros []; [keeps|]. apply keeps_bind; [apply keeps_attempt|]. intros _. exact IH.
Qed.

(** A statement that fails is not a row that is missing. *)
Definition honest (f : option error) : Prop :=
  match f with Some err => is_sentinel ErrNotFound err = false | None => True end.

(** One thing that happens to the stream: something is logged, the tailer runs, deliveries are attempted, or
    the process starts again.  The tailer's cursor is [None] when it could not be established. *)
Inductive feed (e : env) : state * option Z -> state * option Z -> Prop :=
| feed_event ev s c : feed e (s, c) (st (snd (record_event ev (World s e))), c)
| feed_tail s c c' w : tail_round node c (World s e) = (c', w) -> feed e (s, Some c) (st w, Some c')
| feed_deliver s c : feed e (s, c) (st (snd (deliverDue cfg master node (World s e))), c)
| feed_start s c r w :
    Forall honest (e_faults e) -> startCursor (World s e) = (r, w) -> feed e (s, c) (st w, match r with Ok c' => Some c' | Err _ => None end).

Inductive fed : state * option Z -> state * option Z -> Prop :=
| fed_none x : fed x x
| fed_more x y z e : fed x y -> feed e y z -> fed x z.

(** Every event after [c0] and up to the stored cursor has its deliveries. *)
Definition covered (c0 m : Z) (hooks : list Webhook) (s : state) : Prop :=
  forall ev h k, ev ∈ et_rows (s_events s) -> c0 < ev_id ev <= m -> h ∈ hooks -> wanted node ev h = Some k ->
    k ∈ keys (s_hooks s).

Definition stream_ok (c0 : Z) (hooks : list Webhook) (x : state * option Z) : Prop :=
  let s := fst x in
  events_ordered (s_events s) /\ 0 < et_next (s_events s) /\ views (s_hooks s) = map hook_view hooks /\
  exists m, ht_meta (s_hooks s) !! CursorKey = Some (dec m) /\ 0 <= c0 <= m /\ m < et_next (s_events s) /\
    (snd x = None \/ snd x = Some m) /\ covered c0 m hooks s.

Lemma stream_ok_ext c0 hooks s s' c : stream s' = stream s -> stream_ok c0 hooks (s, c) -> stream_ok c0 hooks (s', c).
Proof.
  unfold stream, stream_ok. cbn [fst snd]. intros [= He Hv Hm Hk] (Ho & Hn & Hvs & m & Hmm & Hc0 & Hlt & Hc & Hcov).
  rewrite He, Hv, Hm. split_and!; [done..|]. exists m. split_and!; try done; try lia.
  intros ev h k. rewrite He, Hk. apply Hcov.
Qed.

Lemma feed_event_ok c0 hooks ev s c e :
  stream_ok c0 hooks (s, c) -> stream_ok c0 hooks (st (snd (record_event ev (World s e))), c).
Proof.
  intros Hok. pose proof (wp_run any (record_event ev) (fun _ s' => stream_ok c0 hooks (s', c)) s e (allows_any e)) as Hr.
  destruct (record_event _ _) as [? w]. apply Hr, wp_record_event. clear Hr w. intros t _.
  split; [by eapply stream_ok_ext|]. destruct Hok as (Ho & Hn & Hvs & m & Hmm & Hc0 & Hlt & Hc & Hcov).
  cbn [fst] in *. destruct (RecordEvent_ordered ev t _ Hn Ho) as [Ho' Hn']. split_and!; [done..|]. exists m.
  split_and!; [done|lia|lia|cbn; lia|done|]. intros r h k Hr Hid Hh Hw.
  cbn in Hr. apply elem_of_app in Hr as [Hr|Hr%list_elem_of_singleton]; [by apply (Hcov r h k)|]. subst r. cbn in Hid. lia.
Qed.

Lemma owed_wanted ev events hooks h k :
  ev ∈ events -> h ∈ hooks -> wanted node ev h = Some k -> k ∈ owed node events hooks.
Proof.
  intros He Hh Hw. unfold owed. apply list_elem_of_In, in_concat. exists (omap (wanted node ev) hooks).
  split; apply list_elem_of_In; [by eapply list_elem_of_fmap_2'|]. apply list_elem_of_omap. by exists h.
Qed.

Lemma same_views_wanted hooks hooks' ev h k :
  map hook_view hooks' = map hook_view hooks -> h ∈ hooks -> wanted node ev h = Some k ->
  exists h', h' ∈ hooks' /\ wanted node ev h' = Some k.
Proof.
  intros Hv Hh Hw. assert (Hin : hook_view h ∈ map hook_view hooks') by (rewrite Hv; by apply list_elem_of_fmap_2).
  apply list_elem_of_fmap in Hin as (h' & E & Hh'). exists h'. split; [done|]. by rewrite <- (wanted_view ev h h').
Qed.

Lemma drained_covered c0 m hooks s r s' :
  events_ordered (s_events s) -> views (s_hooks s) = map hook_view hooks -> covered c0 m hooks s ->
  drained node m s r s' ->
  covered c0 (match snd r with None => fst r | Some _ => m end) hooks s'.
Proof.
  intros Ho Hv Hcov (He & Hh & rows & Hd & _ & Hr) ev h k Hev Hid Hhk Hw. rewrite He in Hev.
  assert (Hk : keys (s_hooks s') = keys (s_hooks s) ++ map key rows) by (unfold keys; by rewrite Hd, map_app).
  rewrite Hk. apply elem_of_app. destruct (Z.le_gt_cases (ev_id ev) m) as [Hle|Hgt].
  { left. apply (Hcov ev h k); [done|lia|done|done]. }
  right. destruct (snd r); [lia|]. destruct Hr as (-> & Hl & _). rewrite Hl in Hid.
  destruct (same_views_wanted hooks (ht_hooks (s_hooks s)) ev h k Hv Hhk Hw) as (h' & Hh' & Hw').
  eapply owed_wanted; [|exact Hh'|exact Hw']. apply EventsSince_upto; [done|done|lia|lia].
Qed.

Lemma feed_tail_ok c0 hooks s c e c' w :
  stream_ok c0 hooks (s, Some c) -> tail_round node c (World s e) = (c', w) -> stream_ok c0 hooks (st w, Some c').
Proof.
  intros (Ho & Hn & Hvs & m & Hmm & Hc0 & Hlt & Hc & Hcov). cbn [fst snd] in *.
  assert (c = m) as -> by naive_solver. clear Hc.
  unfold tail_round, bind. pose proof (wp_run any _ _ s e (allows_any e) (wp_drain node m s)) as Hd.
  destruct (drain node m (World s e)) as [r w1]. intros [= <- <-].
  pose proof (drained_covered c0 m hooks s r _ Ho Hvs Hcov Hd) as Hcov'.
  destruct Hd as (He & Hh & rows & Hdl & _ & Hr). unfold stream_ok. cbn [fst snd].
  assert (views (s_hooks (st w1)) = map hook_view hooks) as Hv' by (unfold views; by rewrite Hh).
  rewrite He. split_and!; [done..|]. destruct r as [c1 [err|]]; cbn [fst snd] in *.
  - exists m. destruct Hr as [_ ->]. split_and!; try done; [lia..|by right].
  - destruct Hr as (_ & -> & Hmeta). exists (last_id m (EventsSince m tailBatch (s_events s))).
    assert (Hb : m <= last_id m (EventsSince m tailBatch (s_events s)) < et_next (s_events s)).
    { destruct (last_id_cases m (EventsSince m tailBatch (s_events s))) as [-> |(ev & Hev & ->)]; [lia|].
      apply EventsSince_elem in Hev as [Hev ?]. destruct Ho as [_ Hbd]. rewrite Forall_forall in Hbd.
      specialize (Hbd ev Hev). lia. }
    split_and!; [|lia|lia|lia|by right|done]. rewrite Hmeta. case_bool_decide as En; [by rewrite En|].
    apply lookup_insert_eq.
Qed.

Lemma startCursor_events s e r w : startCursor (World s e) = (r, w) -> s_events (st w) = s_events s.
Proof.
  intros E. assert (Hk : keeps s_events startCursor) by (unfold startCursor, exec_on_hooks, on_hooks; keeps).
  pose proof (wp_run any _ _ s e (allows_any e) (Hk any s)) as Hr. by rewrite E in Hr.
Qed.

Lemma feed_start_ok c0 hooks s c e r w :
  et_next (s_events s) <= 2 ^ 63 -> Forall honest (e_faults e) -> stream_ok c0 hooks (s, c) ->
  startCursor (World s e) = (r, w) ->
  stream_ok c0 hooks (st w, match r with Ok c' => Some c' | Err _ => None end).
Proof.
  intros Hmax Hf Hok E.
  destruct Hok as (Ho & Hn & Hvs & m & Hmm & Hc0 & Hlt & Hc & Hcov). cbn [fst] in *.
  assert (HM : MetaInt CursorKey (s_hooks s) = Ok m).
  { unfold MetaInt, Meta. rewrite Hmm, ParseInt64_dec by lia. done. }
  assert (Hother : forall c', c' = None \/ c' = Some m -> stream_ok c0 hooks (s, c')).
  { intros c' Hc'. split_and!; [done..|]. exists m. cbn. split_and!; try done; lia. }
  unfold startCursor, query, statement, next_fault, bind in E. cbn -[MetaInt CursorKey] in E.
  destruct (e_faults e) as [|[f|] fs]; cbn -[MetaInt CursorKey] in E;
    [rewrite HM in E| |rewrite HM in E]; [injection E as <- <-; apply Hother; by right| |injection E as <- <-; apply Hother; by right].
  apply Forall_inv in Hf. cbn in Hf. rewrite Hf in E. injection E as <- <-. apply Hother. by left.
Qed.

Lemma feed_ok c0 hooks e x y :
  feed e x y -> et_next (s_events (fst y)) <= 2 ^ 63 -> stream_ok c0 hooks x -> stream_ok c0 hooks y.
Proof.
  intros Hf Hmax Hok. destruct Hf as [ev s c|s c c' w E|s c|s c r w Hh E].
  - by apply feed_event_ok.
  - by eapply feed_tail_ok.
  - eapply stream_ok_ext; [|exact Hok]. pose proof (wp_run any _ _ s e (allows_any e) (keeps_deliverDue any s)) as Hr.
    by destruct (deliverDue _ _ _ _).
  - eapply feed_start_ok; [|done..]. rewrite <- (startCursor_events _ _ _ _ E). exact Hmax.
Qed.

Lemma feed_next e x y : feed e x y -> et_next (s_events (fst x)) <= et_next (s_events (fst y)).
Proof.
  assert (Hk : forall {A} (m : M A) s, wp any m (fun _ s' => et_next (s_events s) <= et_next (s_events s')) s ->
    et_next (s_events s) <= et_next (s_events (st (snd (m (World s e)))))).
  { intros A m s Hw. pose proof (wp_run any _ _ s e (allows_any e) Hw) as Hr. by destruct (m _). }
  intros [ev s c|s c c' w E|s c|s c r w Hh E]; cbn [fst].
  - apply Hk, wp_record_event. intros t _. cbn. lia.
  - change w with (snd (c', w)). rewrite <- E. apply Hk. apply wp_bind. eapply wp_mono; [apply wp_drain|].
    intros r s' (He & _). apply wp_ret. rewrite He. lia.
  - apply Hk. eapply wp_mono; [apply keeps_deliverDue|]. intros _ s' [= He _ _ _]. rewrite He. lia.
  - rewrite (startCursor_events _ _ _ _ E). lia.
Qed.
End stream.

(** ** The guarantees *)

(** A round of the webhook dispatcher treats the deliveries that are due, and no other row: each of
    them ends delivered on a 2xx answer, abandoned when the answer is not worth a retry or the attempts are used
    up, or put back with its number of attempts one higher and the wait the backoff asks for; and when the
    database answers and the process is not stopping, none of them is skipped. *)
Theorem deliverDue_rounds `{SmtpLib} `{HttpLib} `{AEAD} cfg master node md e s :
  wh_RetryMax cfg <= 2 ^ 62 -> backoff_base cfg <= 2 ^ 62 -> rows_wf (s_hooks s) -> allows md e ->
  let s' := st (snd (deliverDue cfg master node (World s e))) in
  exists now, s_now s <= now <= s_now s' /\ rows_wf (s_hooks s') /\
    Forall2 (round_row cfg md now (DueDeliveries now deliverBatch (s_hooks s)))
      (ht_deliveries (s_hooks s)) (ht_deliveries (s_hooks s')).
Proof. intros Hm Hb. by apply deliverDue_run. Qed.

(** C11: Deliveries settle.  However the endpoints answer and however time passes, the rounds that do
    something are at most as many as the attempts the queued deliveries may still take; and while a delivery is
    due, a round does something: nothing due is left aside for ever, nothing is attempted for ever. *)
Theorem deliveries_settle `{SmtpLib} `{HttpLib} `{AEAD} cfg master node busy s s' :
  wh_RetryMax cfg <= 2 ^ 62 -> backoff_base cfg <= 2 ^ 62 -> rows_wf (s_hooks s) ->
  rounds cfg master node busy s s' ->
  (busy + outstanding cfg (s_hooks s') <= outstanding cfg (s_hooks s))%nat /\
  forall d e, d ∈ ht_deliveries (s_hooks s') -> (forall now, s_now s' <= now -> is_due now d = true) ->
    allows calm_mode e -> rounds cfg master node (S busy) s (st (snd (deliverDue cfg master node (World s' e)))).
Proof.
  intros Hm Hb Hwf Hr.
  assert (Hinv : rows_wf (s_hooks s') /\ (busy + outstanding cfg (s_hooks s') <= outstanding cfg (s_hooks s))%nat).
  { clear - Hm Hb Hwf Hr. induction Hr as [s|busy s0 s1 e Hr IH He s2 E|busy s0 s1 e Hr IH He s2 E]; [by auto with lia|..];
      destruct (IH Hwf) as [Hwf1 Hle]; destruct (round_progress cfg master node (conj Hm Hb) e s1 Hwf1 He) as (Hwf' & Hd & _);
      (split; [done|]); [unfold outstanding in *; rewrite E; lia|]. destruct Hd as [|Hd]; [done|]. fold s2 in Hd. lia. }
  destruct Hinv as [Hwf' Hle]. split; [done|]. intros d e Hd Hdue He.
  destruct (round_progress cfg master node (conj Hm Hb) e s' Hwf' He) as (_ & _ & Hbusy).
  eapply rounds_busy; [done|done|]. by apply (Hbusy d).
Qed.

(** C10: No event is lost on its way to the subscriptions.  Whatever fails, however often the process
    restarts and however the tailer, the attempts and new events interleave, every logged event between the place
    the tailer first started from and the cursor it has stored has a delivery, with its payload, for every
    subscription that wants it; the cursor never goes back, nor past the last event. *)
Theorem no_event_lost `{SmtpLib} `{HttpLib} `{AEAD} cfg master node s c0 s' cursor :
  events_ordered (s_events s) -> ht_meta (s_hooks s) !! CursorKey = Some (dec c0) ->
  0 <= c0 < et_next (s_events s) -> et_next (s_events s') <= 2 ^ 63 ->
  fed cfg master node (s, Some c0) (s', cursor) ->
  exists m, MetaInt CursorKey (s_hooks s') = Ok m /\ c0 <= m < et_next (s_events s') /\
    (cursor = None \/ cursor = Some m) /\
    forall ev h k, ev ∈ et_rows (s_events s') -> c0 < ev_id ev <= m -> h ∈ ht_hooks (s_hooks s) ->
      wanted node ev h = Some k -> k ∈ keys (s_hooks s').
Proof.
  intros Ho Hm Hc0 Hmax Hfed.
  assert (Hok : stream_ok node c0 (ht_hooks (s_hooks s)) (s', cursor)).
  { change s' with (fst (s', cursor)) in Hmax. remember (s, Some c0) as x eqn:Ex. remember (s', cursor) as y eqn:Ey.
    clear Ey s' cursor. induction Hfed as [x|x y z e Hxy IH Hyz]; subst.
    - split_and!; [done|cbn; lia|done|]. exists c0. cbn. split_and!; [done|lia..|by right|]. intros ev h k _ ? _. lia.
    - eapply feed_ok; [exact Hyz|done|]. apply IH; [|done]. pose proof (feed_next _ _ _ _ _ _ Hyz). lia. }
  destruct Hok as (_ & _ & _ & m & Hmm & Hcm & Hlt & Hcur & Hcov). cbn [fst snd] in *. exists m.
  split_and!; [|lia|lia|done|done]. unfold MetaInt, Meta. by rewrite Hmm, ParseInt64_dec by lia.
Qed.

(** ** Witnesses *)

Definition sample_hooks_smtp : SmtpLib :=
  {| smtp_error_text := fun e => Message e;
     ErrAuthRequired := SMTPError 502 (Enh 5 7 0) []; ErrAuthFailed := SMTPError 535 (Enh 5 7 8) [];
     ErrAuthUnsupported := SMTPError 504 (Enh 5 7 4) [] |}.
Definition sample_http : HttpLib := {| json_payload := fun p => Ok (dec (PID p)); NewRequest := fun _ => None |}.
Definition sample_hooks_aead : AEAD :=
  {| hkdf_sha256 := fun secret salt info => secret; gcm_Seal := fun k n p => p; gcm_Open := fun k n c => Some c |}.

#[local] Existing Instance sample_hooks_smtp.
#[local] Existing Instance sample_http.
#[local] Existing Instance sample_hooks_aead.

Definition sample_hook_cfg : WebhooksConfig :=
  {| wh_Enabled := true; wh_Workers := 4; wh_MaxAttempts := 3; wh_RetryBase := 30 * second; wh_RetryMax := hour;
     wh_Retention := 24 * hour |}.

(** One subscription to everything, one delivery waiting, and the tailer at event 0. *)
Definition sample_outbox : state :=
  set_s_hooks (Hooks [{| WID := 1; WName := "ops"%string; WURL := "https://hook.example/"%string; WSecret := []; WEvents := [];
                         WEnabled := true; WCreatedAt := 0; WLastError := []; WLastSuccessAt := None |}] 2
                 [new_delivery 1 1 "domain.created"%string "{}"%string 0 0] 2 {[CursorKey := T "0"]}) blank.

Definition sample_answers : env := set_e_posts [inr 503] quiet.

Lemma sample_outbox_wf : rows_wf (s_hooks sample_outbox).
Proof. split; [repeat constructor; set_solver|by repeat constructor]. Qed.

Lemma sample_answers_calm : allows calm_mode sample_answers.
Proof. by split_and!. Qed.

Lemma deliverDue_rounds_witness :
  rows_wf (s_hooks sample_outbox) /\ allows calm_mode sample_answers /\
  let s' := st (snd (deliverDue sample_hook_cfg "master"%string "mx1"%string (World sample_outbox sample_answers))) in
  exists now, s_now sample_outbox <= now <= s_now s' /\ rows_wf (s_hooks s') /\
    Forall2 (round_row sample_hook_cfg calm_mode now (DueDeliveries now deliverBatch (s_hooks sample_outbox)))
      (ht_deliveries (s_hooks sample_outbox)) (ht_deliveries (s_hooks s')).
Proof.
  split; [exact sample_outbox_wf|]. split; [exact sample_answers_calm|].
  apply (deliverDue_rounds sample_hook_cfg "master"%string "mx1"%string calm_mode sample_answers sample_outbox);
    [vm_compute; discriminate|vm_compute; discriminate|exact sample_outbox_wf|exact sample_answers_calm].
Defined.

(** The endpoint answers 503: the round puts the delivery back, and it may take two attempts more. *)
Definition sample_retried : state :=
  st (snd (deliverDue sample_hook_cfg "master"%string "mx1"%string (World sample_outbox sample_answers))).

Lemma deliveries_settle_witness :
  map (fun d => (DelStatus d, DelAttempts d, StatusCode d)) (ht_deliveries (s_hooks sample_retried)) = [(DeliveryPending, 1, 503)] /\
  rounds sample_hook_cfg "master"%string "mx1"%string 1 sample_outbox sample_retried /\
  (1 + outstanding sample_hook_cfg (s_hooks sample_retried) <= outstanding sample_hook_cfg (s_hooks sample_outbox))%nat.
Proof.
  assert (Hr : rounds sample_hook_cfg "master"%string "mx1"%string 1 sample_outbox sample_retried).
  { assert (Hne : ht_deliveries (s_hooks sample_retried) <> ht_deliveries (s_hooks sample_outbox)).
    { intros E. apply (f_equal (map DelAttempts)) in E. vm_compute in E. discriminate E. }
    unfold sample_retried in *.
    exact (rounds_busy sample_hook_cfg "master"%string "mx1"%string 0 sample_outbox sample_outbox sample_answers
             (rounds_none _ _ _ sample_outbox) sample_answers_calm Hne). }
  split; [vm_compute; reflexivity|]. split; [exact Hr|].
  apply (deliveries_settle sample_hook_cfg "master"%string "mx1"%string 1 sample_outbox sample_retried);
    [vm_compute; discriminate|vm_compute; discriminate|exact sample_outbox_wf|exact Hr].
Defined.

Definition sample_event : event := Event "domain.created"%string None None None [].

(** An event is logged, then the tailer runs. *)
Definition sample_logged : state := st (snd (record_event sample_event (World sample_outbox quiet))).
Definition sample_tailed : state := st (snd (tail_round "mx1"%string 0 (World sample_logged quiet))).

Lemma no_event_lost_witness :
  exists m, MetaInt CursorKey (s_hooks sample_tailed) = Ok m /\ 0 <= m < 2 /\
    (1, T "domain.created", T "1") ∈ keys (s_hooks sample_tailed).
Proof.
  destruct (no_event_lost sample_hook_cfg "master"%string "mx1"%string sample_outbox 0 sample_tailed (Some 1))
    as (m & Hm & Hb & Hcur & Hall); [split; [constructor|done]|reflexivity|vm_compute; split; [discriminate|done]|vm_compute; discriminate|..].
  { eapply fed_more; [eapply fed_more; [apply fed_none|apply (feed_event _ _ _ quiet sample_event)]|].
    by apply (feed_tail _ _ _ quiet sample_logged 0 1 _). }
  exists m. split; [exact Hm|]. split; [exact Hb|].
  assert (m = 1) as -> by (destruct Hcur as [|[= <-]]; done).
  eapply (Hall (EventRow 1 sample_event 0)); [apply list_elem_of_here|done|apply list_elem_of_here|reflexivity].
Defined.
