(* ===== verification/Alert.v ===== *)
(** * Alerts (internal/alert)

    An [alerter] is told of events, waits before it announces that a primary is down, spaces
    what it announces, and hands alerts to its two sinks.  The functions here are the
    sections its mutex protects and the steps between them: a timer that expires only makes
    its function runnable ([firing]), which then takes the lock, and then emits
    ([emitting]).  [step] interleaves them; the emission that ends a notification is one step with
    it, and the clock is read once in a step.  [Enabled] holds. *)

From S2P Require Import Prelude GoStrings Base64 Sha Times Errors StoreTypes StoreQueue.
From S2P Require Import StoreDomains World Blob Webhook.
From Stdlib Require Import QArith.
Open Scope Z_scope.

Definition SeverityInfo : text := "info"%string.
Definition SeverityWarning : text := "warning"%string.
Definition SeverityCritical : text := "critical"%string.

Definition queueDepth : nat := 64.

Record alert := Alert {
  al_Key : text;
  al_Severity : text;
  al_Title : text;
  al_Detail : text;
  al_Host : text;
  al_At : Z;
  al_Data : jmap
}.

(** [config.AlertConfig]. *)
Record AlertConfig := {
  al_PrimaryDownAfter : Z;
  al_MinInterval : Z;
  al_WebhookURL : text;
  al_WebhookSecret : text;
  al_EmailHost : text;
  al_EmailPort : Z;
  al_EmailTLS : text;
  al_EmailUsername : text;
  al_EmailPassword : text;
  al_EmailFrom : text;
  al_EmailTo : list text
}.

(** A timer of [grace]: what it fires with, and when; the map's value is its identity. *)
Record timer := Timer { ti_domain : text; ti_payload : jmap; ti_due : Z }.

Record alerter := Alerter {
  ar_grace : gmap text nat;
  ar_fired : gset text;
  ar_lastSent : gmap text Z;
  ar_queue : list alert;
  ar_armed : gmap nat timer;
  ar_next : nat;
  ar_firing : list timer;               (* functions running, before their lock *)
  ar_emitting : list timer              (* after it *)
}.

Definition New : alerter := Alerter ∅ ∅ ∅ [] ∅ 0 [] [].

Definition jstr (k : text) (m : jmap) : text :=
  match find (fun kv => bool_decide (fst kv = k)) m with Some (_, JStr s) => s | _ => [] end.

Section alerter.
Context (cfg : AlertConfig) (host : text).

(** [shouldSend]. *)
Definition shouldSend (key : text) (now : Z) (a : alerter) : bool * alerter :=
  if al_MinInterval cfg <=? 0 then (true, a)
  else if match ar_lastSent a !! key with Some last => now - last <? al_MinInterval cfg | None => false end then (false, a)
  else (true, Alerter (ar_grace a) (ar_fired a) (<[key := now]> (ar_lastSent a)) (ar_queue a) (ar_armed a)
                (ar_next a) (ar_firing a) (ar_emitting a)).

Definition enqueue (al : alert) (a : alerter) : alerter :=
  if (length (ar_queue a) <? queueDepth)%nat then
    Alerter (ar_grace a) (ar_fired a) (ar_lastSent a) (ar_queue a ++ [al]) (ar_armed a) (ar_next a) (ar_firing a) (ar_emitting a)
  else a.

(** [emit]: the alert it let through, whether or not the channel had room for it. *)
Definition emit (al : alert) (now : Z) (a : alerter) : list alert * alerter :=
  let al := Alert (al_Key al) (al_Severity al) (al_Title al) (al_Detail al) host now (al_Data al) in
  let '(send, a) := shouldSend (al_Key al) now a in
  if send then ([al], enqueue al a) else ([], a).

Definition down_key (domain : text) : text := "primary_down:"%string ++ domain.

Definition down_alert (domain : text) (payload : jmap) : alert :=
  Alert (down_key domain) SeverityWarning ("The primary for "%string ++ domain ++ " is not answering"%string)
    ("XeronMX is accepting and holding mail for "%string ++ domain ++ ". Nothing is lost while this lasts, but the queue will keep growing until the primary comes back."%string)
    [] 0 payload.

(** [primaryDownSince], under the lock. *)
Definition primaryDownSince (since : Z) (payload : jmap) (now : Z) (a : alerter) : alerter :=
  let domain := jstr "domain"%string payload in
  if bool_decide (domain = []) then a
  else match ar_grace a !! domain with
  | Some _ => a
  | None =>
      let remaining := al_PrimaryDownAfter cfg - (now - since) in
      if remaining <=? 0 then
        Alerter (ar_grace a) (ar_fired a) (ar_lastSent a) (ar_queue a) (ar_armed a) (ar_next a)
          (ar_firing a ++ [Timer domain payload now]) (ar_emitting a)
      else
        Alerter (<[domain := ar_next a]> (ar_grace a)) (ar_fired a) (ar_lastSent a) (ar_queue a)
          (<[ar_next a := Timer domain payload (now + remaining)]> (ar_armed a)) (S (ar_next a)) (ar_firing a) (ar_emitting a)
  end.

(** The timer's runtime: a due timer runs its function. *)
Definition expire (id : nat) (now : Z) (a : alerter) : alerter :=
  match ar_armed a !! id with
  | Some t =>
      if ti_due t <=? now then
        Alerter (ar_grace a) (ar_fired a) (ar_lastSent a) (ar_queue a) (delete id (ar_armed a)) (ar_next a)
          (ar_firing a ++ [t]) (ar_emitting a)
      else a
  | None => a
  end.

(** The first half of [fire], under the lock. *)
Definition fire (i : nat) (a : alerter) : alerter :=
  match ar_firing a !! i with
  | Some t =>
      Alerter (delete (ti_domain t) (ar_grace a)) ({[ti_domain t]} ∪ ar_fired a) (ar_lastSent a) (ar_queue a)
        (ar_armed a) (ar_next a) (delete i (ar_firing a)) (ar_emitting a ++ [t])
  | None => a
  end.

(** And its second. *)
Definition fire_emit (i : nat) (now : Z) (a : alerter) : list alert * alerter :=
  match ar_emitting a !! i with
  | Some t =>
      emit (down_alert (ti_domain t) (ti_payload t)) now
        (Alerter (ar_grace a) (ar_fired a) (ar_lastSent a) (ar_queue a) (ar_armed a) (ar_next a) (ar_firing a)
           (delete i (ar_emitting a)))
  | None => ([], a)
  end.

Definition up_alert (domain : text) (payload : jmap) : alert :=
  Alert ("primary_up:"%string ++ domain) SeverityInfo ("The primary for "%string ++ domain ++ " is answering again"%string)
    ("XeronMX is delivering what it held for "%string ++ domain ++ ", oldest first."%string) [] 0 payload.

(** [primaryUp]: a timer that already expired is not stopped by [Stop]. *)
Definition primaryUp (payload : jmap) (now : Z) (a : alerter) : list alert * alerter :=
  let domain := jstr "domain"%string payload in
  if bool_decide (domain = []) then ([], a)
  else
    let armed := match ar_grace a !! domain with Some id => delete id (ar_armed a) | None => ar_armed a end in
    let announced := bool_decide (domain ∈ ar_fired a) in
    let a := Alerter (delete domain (ar_grace a)) (ar_fired a ∖ {[domain]}) (delete (down_key domain) (ar_lastSent a))
               (ar_queue a) armed (ar_next a) (ar_firing a) (ar_emitting a) in
    if announced then emit (up_alert domain payload) now a else ([], a).

Definition queue_full_alert (payload : jmap) : alert :=
  if bool_decide (jstr "reason"%string payload = "domain_cap"%string) then
    let domain := jstr "domain"%string payload in
    Alert ("queue_full:"%string ++ domain) SeverityWarning
      ("The queue for "%string ++ domain ++ " is full and its mail is being refused"%string)
      (domain ++ " has reached its max_queue_messages ceiling, so XeronMX answers 452 to new mail for it. Senders will retry, and other domains are unaffected. Bring the primary back or raise the domain's ceiling."%string)
      [] 0 payload
  else
    Alert "queue_full"%string SeverityCritical "The spool is full and mail is being refused"%string
      "XeronMX has reached a configured queue ceiling and is answering 452. Senders will hold their mail and retry, but the safety net is no longer catching anything. Drain the queue or raise queue.max_messages / queue.max_bytes."%string
      [] 0 payload.

Definition expired_alert (payload : jmap) : alert :=
  Alert "mail_expired"%string SeverityCritical "A message was given up on before the primary accepted it"%string
    "A queued message reached the end of its retention without being delivered. This is the one outcome XeronMX exists to prevent, so it is worth understanding why."%string
    [] 0 payload.

Definition failed_alert (payload : jmap) : alert :=
  if bool_decide (jstr "reason"%string payload = "body unreadable"%string) then
    Alert "mail_lost"%string SeverityCritical "A queued message could not be read back from the spool"%string
      "The message body is missing or does not decrypt, so it cannot be delivered. This is data lost on this machine: check the disk and the master key."%string
      [] 0 payload
  else
    Alert "mail_failed"%string SeverityWarning "The primary permanently refused a message or a recipient"%string
      "The primary answered 5xx, so XeronMX will not retry. The sender is told with a delivery status notification when its address could be authenticated; otherwise nobody but this alert knows the message was not delivered."%string
      [] 0 payload.

Definition Notify_ (event : text) (payload : jmap) (now : Z) (a : alerter) : list alert * alerter :=
  if bool_decide (event = EventPrimaryDown) then ([], primaryDownSince now payload now a)
  else if bool_decide (event = EventPrimaryUp) then primaryUp payload now a
  else if bool_decide (event = EventQueueFull) then emit (queue_full_alert payload) now a
  else if bool_decide (event = EventMailExpired) then emit (expired_alert payload) now a
  else if bool_decide (event = EventMailFailed) then emit (failed_alert payload) now a
  else ([], a).

(** [Resume]: one domain that was down when the process stopped; [since] renders as text. *)
Definition resume_domain (since_text : Z -> text) (now : Z) (d : domain) (st : option primary_status) (a : alerter) : alerter :=
  if negb (DEnabled d) then a
  else match st with
  | None => a
  | Some st =>
      match IsUp st, LastCheck st with
      | true, _ | _, None => a
      | false, Some last =>
          let since := default last (LastDown st) in
          primaryDownSince since [(T "domain", JStr (DName d)); (T "up", JBool false); (T "error", JStr (PLastError st));
                                  (T "since", JStr (since_text since))] now a
      end
  end.

Definition Resume (since_text : Z -> text) (now : Z) (ds : list domain) (ps : gmap Z primary_status) (a : alerter) : alerter :=
  fold_left (fun a d => resume_domain since_text now d (ps !! DID d) a) (ListDomains ds) a.

Definition stopTimers (a : alerter) : alerter :=
  Alerter ∅ (ar_fired a) (ar_lastSent a) (ar_queue a)
    (map_fold (fun _ id armed => delete id armed) (ar_armed a) (ar_grace a)) (ar_next a) (ar_firing a) (ar_emitting a).

(** ** Interleavings *)

Inductive alert_event :=
| ANotify (event : text) (payload : jmap)
| AExpire (id : nat)
| AFire (i : nat)
| AEmit (i : nat)
| ATake                                  (* [Run] takes an alert off the channel *)
| AStop.

Definition step (e : alert_event) (now : Z) (a : alerter) : list alert * alerter :=
  match e with
  | ANotify event payload => Notify_ event payload now a
  | AExpire id => ([], expire id now a)
  | AFire i => ([], fire i a)
  | AEmit i => fire_emit i now a
  | ATake => ([], Alerter (ar_grace a) (ar_fired a) (ar_lastSent a) (List.tl (ar_queue a)) (ar_armed a) (ar_next a)
                    (ar_firing a) (ar_emitting a))
  | AStop => ([], stopTimers a)
  end.

Definition run (h : list (alert_event * Z)) (a : alerter) : alerter := fold_left (fun a e => snd (step (fst e) (snd e) a)) h a.

(** ** The sinks (sink.go) *)

(** [alert_json] is encoding/json on an alert. *)
Definition postWebhook (alert_json : alert -> result text) (new_request : text -> option error) (al : alert) : M (option error) :=
  match alert_json al with
  | Err e => ret (Some (EWrap "marshal alert"%string e))
  | Ok body =>
      match new_request (al_WebhookURL cfg) with
      | Some e => ret (Some e)
      | None =>
          let* now := now_ in
          let* answer := post (HttpPost (al_WebhookURL cfg)
            ([(T "Content-Type", T "application/json"); (T "User-Agent", T "XeronMX")] ++ SignRequest (al_WebhookSecret cfg) body now) body) in
          ret match answer with
              | inl e => Some e
              | inr code => if (code <? 200) || (300 <=? code) then Some (EText ("webhook answered "%string ++ dec code)) else None
              end
      end
  end.

(** [header], on valid UTF-8. *)
Definition header (s : text) : text :=
  let s := trim_space (map (fun c => if (code c <? 32) || (code c =? 127) then SP else c) s) in
  take 400 s.

(** [describe]: [fmt_v] is fmt's %v of a value. *)
Definition key_le (a b : text * jval) : Prop := text_leb (fst a) (fst b) = true.
#[export] Instance key_le_dec : RelDecision key_le.
Proof. intros a b. unfold key_le. apply _. Defined.

Definition describe (fmt_v : jval -> text) (data : jmap) : text :=
  concat (map (fun kv => "  "%string ++ fst kv ++ ": "%string ++ fmt_v (snd kv) ++ CRLF) (merge_sort key_le data)).

Definition message_head (id : text) (al : alert) : list text :=
  ["From: "%string ++ header (al_EmailFrom cfg); "To: "%string ++ header (join ", "%string (al_EmailTo cfg));
   "Subject: [XeronMX "%string ++ header (to_upper (al_Severity al)) ++ "] "%string ++ header (al_Title al);
   "Date: "%string ++ rfc1123z 0 (al_At al); "Message-ID: <"%string ++ id ++ "@"%string ++ header host ++ ">"%string;
   T "Auto-Submitted: auto-generated"; "X-XeronMX-Alert: "%string ++ header (al_Key al); T "MIME-Version: 1.0";
   T "Content-Type: text/plain; charset=utf-8"].

Definition message (fmt_v : jval -> text) (id : text) (al : alert) : text :=
  concat (map (fun l => l ++ CRLF) (message_head id al)) ++ CRLF
  ++ al_Title al ++ CRLF ++ CRLF ++ al_Detail al ++ CRLF ++ CRLF
  ++ "Host:  "%string ++ host ++ CRLF ++ "When:  "%string ++ formatTime (al_At al / second * second) ++ CRLF
  ++ (match describe fmt_v (al_Data al) with [] => [] | detail => CRLF ++ "Detail:"%string ++ CRLF ++ detail end)
  ++ CRLF ++ "-- "%string ++ CRLF ++ "Sent by XeronMX. This mailbox is not monitored."%string ++ CRLF.

(** An identifier, or the time when there is no randomness left. *)
Definition message_id (al : alert) : M text :=
  let* id := new_id in ret match id with Some id => id | None => dec (al_At al) end.

Fixpoint rcpt_all (to : list text) : M (option error) :=
  match to with
  | [] => ret None
  | rcpt :: rest =>
      let* e := command (CRcpt rcpt) in
      match e with Some e => ret (Some (EWrap ("RCPT TO "%string ++ rcpt) e)) | None => rcpt_all rest end
  end.

Definition email_auth : M (option error) :=
  if bool_decide (al_EmailUsername cfg = []) then ret None
  else
    let* e := command (CExtension "AUTH"%string) in
    match e with
    | Some _ => ret (Some (EText ("relay "%string ++ al_EmailHost cfg ++ " does not offer AUTH but credentials are configured"%string)))
    | None =>
        let* e := command (CAuth (al_EmailUsername cfg) (al_EmailPassword cfg)) in
        ret match e with Some e => Some (EWrap "relay rejected the credentials"%string e) | None => None end
    end.

Definition email_data (fmt_v : jval -> text) (al : alert) : M (option error) :=
  let* e := command CData in
  match e with
  | Some e => ret (Some (EWrap "DATA"%string e))
  | None =>
      let* id := message_id al in
      let* e := command (CWrite (message fmt_v id al)) in
      match e with
      | Some e => command CClose ;;; ret (Some (EWrap "write message"%string e))
      | None =>
          let* e := command CClose in
          match e with
          | Some e => ret (Some (EWrap "finish DATA"%string e))
          | None => command CQuit ;;; ret None
          end
      end
  end.

Definition sendEmail (fmt_v : jval -> text) (al : alert) : M (option error) :=
  let port := if al_EmailPort cfg =? 0 then 587 else al_EmailPort cfg in
  let mode := if bool_decide (al_EmailTLS cfg = []) then T "starttls" else al_EmailTLS cfg in
  let* c := dial (al_EmailHost cfg) port mode host false in
  match c with
  | Err e => ret (Some e)
  | Ok _ =>
      let* e := email_auth in
      match e with
      | Some e => ret (Some e)
      | None =>
          let* e := command (CMail (al_EmailFrom cfg)) in
          match e with
          | Some e => ret (Some (EWrap "MAIL FROM"%string e))
          | None =>
              let* e := rcpt_all (al_EmailTo cfg) in
              match e with Some e => ret (Some e) | None => email_data fmt_v al end
          end
      end
  end.

(** [deliver]: a sink that fails is only logged. *)
Definition deliver (alert_json : alert -> result text) (new_request : text -> option error) (fmt_v : jval -> text) (al : alert) : M unit :=
  (if bool_decide (al_WebhookURL cfg = []) then ret None else postWebhook alert_json new_request al) ;;;
  (if bool_decide (al_EmailTo cfg = []) then ret None else sendEmail fmt_v al) ;;;
  ret tt.
End alerter.

(** ** Spacing *)

(** The alerts let through along a history, with their times. *)
Fixpoint passed (cfg : AlertConfig) (host : text) (h : list (alert_event * Z)) (a : alerter) : list (Z * alert) :=
  match h with
  | [] => []
  | (e, now) :: h => let '(out, a) := step cfg host e now a in map (pair now) out ++ passed cfg host h a
  end.

Section spacing.
Context (cfg : AlertConfig) (host : text).
Hypothesis Hint : 0 < al_MinInterval cfg.

Lemma enqueue_lastSent al a : ar_lastSent (enqueue al a) = ar_lastSent a.
Proof. unfold enqueue. by destruct (_ <? _)%nat. Qed.

Lemma emit_key al now a out a' :
  emit cfg host al now a = (out, a') ->
  (out = [] /\ a' = a) \/
  (exists al', out = [al'] /\ al_Key al' = al_Key al /\ ar_lastSent a' = <[al_Key al := now]> (ar_lastSent a) /\
     (forall last, ar_lastSent a !! al_Key al = Some last -> al_MinInterval cfg <= now - last)).
Proof.
  unfold emit, shouldSend. cbn [al_Key]. destruct (Z.leb_spec (al_MinInterval cfg) 0) as [|_]; [lia|].
  destruct (ar_lastSent a !! al_Key al) as [last|] eqn:El.
  - destruct (Z.ltb_spec (now - last) (al_MinInterval cfg)) as [|Hge]; [intros [= <- <-]; by left|].
    intros [= <- <-]. right. eexists. split_and!; [done|done| |intros ? E; inv E; lia].
    apply enqueue_lastSent.
  - intros [= <- <-]. right. eexists. split_and!; [done|done| |done].
    apply enqueue_lastSent.
Qed.

(** The only step that makes the alerter forget when it last announced a primary's failure. *)
Definition forgets (k : text) (e : alert_event) : Prop :=
  exists payload, e = ANotify EventPrimaryUp payload /\ k = down_key (jstr "domain"%string payload).

(** Every step: what it lets through was due, and what it remembers of [k]. *)
Definition stepped (k : text) (now : Z) (e : alert_event) (a : alerter) (out : list alert) (a' : alerter) : Prop :=
  ((forall al, al ∈ out -> al_Key al <> k) /\ (forgets k e \/ ar_lastSent a' !! k = ar_lastSent a !! k)) \/
  ((exists al, out = [al] /\ al_Key al = k) /\ ar_lastSent a' !! k = Some now /\
     forall last, ar_lastSent a !! k = Some last -> al_MinInterval cfg <= now - last).

Lemma emit_stepped k al now e a out a' :
  emit cfg host al now a = (out, a') -> stepped k now e a out a'.
Proof.
  intros He. destruct (emit_key al now a out a' He) as [[-> ->]|(al' & -> & Ek & El & Hd)].
  - left. split; [intros al' Hin; inv Hin|by right].
  - destruct (decide (al_Key al = k)) as [<-|Hne].
    + right. split; [by exists al'|]. rewrite El, lookup_insert_eq. by split.
    + left. split; [intros x ->%list_elem_of_singleton; congruence|]. right. by rewrite El, lookup_insert_ne.
Qed.

Lemma stepped_same k now e a a' : ar_lastSent a' = ar_lastSent a -> stepped k now e a [] a'.
Proof. intros E. left. split; [intros al Hin; inv Hin|]. right. by rewrite E. Qed.

Lemma up_key_other domain k : "primary_up:"%string ++ domain <> down_key k.
Proof. done. Qed.

Lemma step_stepped k now e a out a' : step cfg host e now a = (out, a') -> stepped k now e a out a'.
Proof.
  destruct e as [event payload|id|i|i| |]; cbn [step].
  - unfold Notify_. case_bool_decide as Ed; [|case_bool_decide as Eu; [|repeat case_bool_decide]];
      try (by apply emit_stepped); [..|by intros [= <- <-]; apply stepped_same].
    + intros [= <- <-]. apply stepped_same. unfold primaryDownSince. case_bool_decide; [done|].
      destruct (ar_grace a !! _); [done|]. by destruct (_ <=? _).
    + unfold primaryUp. case_bool_decide as En; [by intros [= <- <-]; apply stepped_same|].
      set (d := jstr "domain"%string payload) in *. destruct (decide (k = down_key d)) as [Ek|Hne].
      * assert (Hf : forgets k (ANotify event payload)) by (exists payload; by rewrite Eu).
        case_bool_decide; [|intros [= <- <-]; left; split; [intros al Hin; inv Hin|by left]].
        intros Hm. apply emit_key in Hm as [[-> ->]|(al & -> & Eal & _)].
        -- left. split; [intros al Hin; inv Hin|by left].
        -- left. split; [|by left]. intros x ->%list_elem_of_singleton. rewrite Eal, Ek. cbn. done.
      * assert (Hk : delete (down_key d) (ar_lastSent a) !! k = ar_lastSent a !! k) by by rewrite lookup_delete_ne.
        case_bool_decide.
        -- intros Hm. apply (emit_stepped k) with (e := ANotify event payload) in Hm.
           unfold stepped in *. cbn [ar_lastSent] in Hm. by rewrite Hk in Hm.
        -- intros [= <- <-]. left. split; [intros al Hin; inv Hin|]. by right.
  - intros [= <- <-]. apply stepped_same. unfold expire. destruct (ar_armed a !! id); [|done]. by destruct (_ <=? _).
  - intros [= <- <-]. apply stepped_same. unfold fire. by destruct (ar_firing a !! i).
  - unfold fire_emit. destruct (ar_emitting a !! i) as [t|]; [|by intros [= <- <-]; apply stepped_same].
    intros Hm. apply (emit_stepped k) with (e := AEmit i) in Hm. done.
  - intros [= <- <-]. by apply stepped_same.
  - intros [= <- <-]. by apply stepped_same.
Qed.

(** Once [k] was let through at [t0], it stays remembered. *)
Lemma passed_spaced k h a t0 :
  Forall (fun e => ~ forgets k (fst e)) h -> Forall (fun e => t0 <= snd e) h -> StronglySorted (fun x y => snd x <= snd y) h ->
  (exists t, ar_lastSent a !! k = Some t /\ t0 <= t) ->
  forall t al, (t, al) ∈ passed cfg host h a -> al_Key al = k -> t0 + al_MinInterval cfg <= t.
Proof.
  revert a. induction h as [|[e now] h IH]; intros a Hf Ht Hs (t1 & Hl & Ht1) t al Hin Ek; [inv Hin|].
  cbn [passed] in Hin. destruct (step cfg host e now a) as [out a'] eqn:Est.
  apply Forall_cons in Hf as [Hf1 Hf], Ht as [Hn Ht]. apply StronglySorted_inv in Hs as [Hs _]. cbn [fst snd] in *.
  apply (step_stepped k) in Est. apply elem_of_app in Hin as [Hin|Hin].
  - apply list_elem_of_fmap in Hin as (al' & [= -> ->] & Hal). destruct Est as [[Hno _]|(_ & _ & Hd)]; [by destruct (Hno al' Hal)|].
    specialize (Hd t1 Hl). lia.
  - apply (IH a' Hf Ht Hs) with al; try done. destruct Est as [[_ [Hfg|E]]|(_ & E & _)]; [done|exists t1; by rewrite E|by exists now].
Qed.
(** The channel's bound. *)
Definition bounded (a : alerter) : Prop := (length (ar_queue a) <= queueDepth)%nat.

Lemma emit_bounded al now a : bounded a -> bounded (snd (emit cfg host al now a)).
Proof.
  assert (He : forall x b, bounded b -> bounded (enqueue x b)).
  { unfold bounded, enqueue. intros x b Hb. destruct (Nat.ltb_spec (length (ar_queue b)) queueDepth); [|done].
    cbn [ar_queue]. rewrite length_app. cbn. lia. }
  intros Ha. unfold emit, shouldSend. destruct (_ <=? 0); [by apply He|].
  destruct (match _ !! _ with Some _ => _ | None => _ end); [done|]. by apply He.
Qed.

Lemma step_bounded e now a : bounded a -> bounded (snd (step cfg host e now a)).
Proof.
  intros Ha. destruct e as [event payload|id|i|i| |]; cbn [step snd].
  - unfold Notify_. repeat case_bool_decide; try (by apply emit_bounded); [..|done].
    + cbn [snd]. unfold primaryDownSince. case_bool_decide; [done|]. destruct (ar_grace a !! _); [done|]. by destruct (_ <=? _).
    + unfold primaryUp. case_bool_decide; [done|]. case_bool_decide; [|done]. by apply emit_bounded.
  - unfold expire. destruct (ar_armed a !! id); [|done]. by destruct (_ <=? _).
  - unfold fire. by destruct (ar_firing a !! i).
  - unfold fire_emit. destruct (ar_emitting a !! i); [|done]. by apply emit_bounded.
  - unfold bounded in *. cbn. destruct (ar_queue a); cbn in *; lia.
  - done.
Qed.

Lemma run_bounded h a : bounded a -> bounded (run cfg host h a).
Proof. revert a. unfold run. induction h as [|x h IH]; intros a Ha; [done|]. cbn. by apply IH, step_bounded. Qed.
End spacing.

(** C40: alerts are spaced.  However events, timers and the sinks interleave, once an alert of a key
    is let through, the next of the same key is let through only after the configured
    interval, except that a primary which came back in between may be announced down again at
    once; and the channel never holds more than its 64. *)
Theorem alerts_spaced cfg host a e t0 h out a' k :
  0 < al_MinInterval cfg -> (length (ar_queue a) <= queueDepth)%nat ->
  step cfg host e t0 a = (out, a') -> k ∈ map al_Key out ->
  StronglySorted (fun x y => snd x <= snd y) ((e, t0) :: h) -> Forall (fun e => ~ forgets k (fst e)) h ->
  (forall t al, (t, al) ∈ passed cfg host h a' -> al_Key al = k -> t0 + al_MinInterval cfg <= t) /\
  (length (ar_queue (run cfg host h a')) <= queueDepth)%nat.
Proof.
  intros Hint Hq Hst Hk Hs Hf. apply StronglySorted_inv in Hs as [Hs Ht]. cbn [snd] in Ht. split.
  - apply passed_spaced with (a := a'); try done. exists t0. split; [|lia].
    apply (step_stepped cfg host Hint k) in Hst. apply list_elem_of_fmap in Hk as (al & -> & Hal).
    destruct Hst as [[Hno _]|(_ & E & _)]; [by destruct (Hno al Hal)|done].
  - apply run_bounded. change a' with (snd (out, a')). rewrite <- Hst. by apply step_bounded.
Qed.

Definition example_alerts : AlertConfig :=
  Build_AlertConfig (2 * minute) (30 * minute) [] [] "relay.example"%string 0 [] [] [] "x@example.com"%string [T "ops@example.com"].

Definition example_down : alert_event := ANotify EventMailFailed [].

Lemma alerts_spaced_witness :
  let '(out, a) := step example_alerts [] example_down second New in
  map al_Key out = [T "mail_failed"] /\
  (forall t al, (t, al) ∈ passed example_alerts [] [(example_down, minute); (example_down, hour)] a ->
     al_Key al = T "mail_failed" -> second + al_MinInterval example_alerts <= t) /\
  map fst (passed example_alerts [] [(example_down, minute); (example_down, hour)] a) = [hour].
Proof.
  assert (Hi : 0 < al_MinInterval example_alerts) by done.
  assert (Hq : (length (ar_queue New) <= queueDepth)%nat) by (cbn; lia).
  destruct (step example_alerts [] example_down second New) as [out a] eqn:Est.
  assert (Eo : map al_Key out = [T "mail_failed"]) by (change out with (fst (out, a)); rewrite <- Est; by vm_compute).
  split; [exact Eo|]. split.
  - apply (alerts_spaced example_alerts [] New example_down second [(example_down, minute); (example_down, hour)] out a
      (T "mail_failed") Hi Hq Est); [rewrite Eo; left| |].
    + repeat (apply SSorted_nil || apply SSorted_cons || apply List.Forall_nil || apply List.Forall_cons); cbn; done.
    + repeat apply List.Forall_cons; try apply List.Forall_nil; intros (payload & Hp & _); discriminate Hp.
  - change a with (snd (out, a)). rewrite <- Est. by vm_compute.
Defined.

(** A timer that expired before the primary came back and takes the lock after: the failure is
    announced although the primary answers, and the alerter believes it announced it. *)
Definition stale_history (payload : jmap) : list (alert_event * Z) :=
  [(ANotify EventPrimaryDown payload, 0); (AExpire 0, 2 * minute); (ANotify EventPrimaryUp payload, 2 * minute);
   (AFire 0, 2 * minute); (AEmit 0, 2 * minute)].

Example stale_alert :
  let h := stale_history [(T "domain", JStr "example.com"%string)] in
  map (fun x => al_Key (snd x)) (passed example_alerts [] h New) = [T "primary_down:example.com"] /\
  bool_decide (T "example.com" ∈ ar_fired (run example_alerts [] h New)) = true.
Proof. split; [vm_compute; reflexivity|vm_compute; reflexivity]. Qed.
