(* ===== verification/Health.v ===== *)
(** * The health checker (internal/health)

    A round of [checkAll] probes each distinct primary once and applies the outcome to the
    domains that share it, a goroutine per primary.  A goroutine is a [task]: a sequence of
    atomic computations, one per statement, so that [sched] can interleave the goroutines of
    a round with each other and with the rest of the process.  The wake channel is left out:
    it only shortens the workers' wait. *)

From S2P Require Import Prelude GoStrings Times Errors StoreTypes StoreQueue StoreDomains World.
From Stdlib Require Import QArith.
Open Scope Z_scope.

(** [config.HealthConfig] and [allowPrivate]. *)
Record HealthConfig := {
  hc_FailureThreshold : Z;
  hc_SuccessThreshold : Z;
  hc_allowPrivate : bool
}.

Inductive task := Halt | Act (m : M task).

Definition primaryKey (d : domain) : text :=
  to_lower (trim_suffix "."%string (PrimaryHost d)) ++ "|"%string ++ dec (PrimaryPort d) ++ "|"%string ++ PrimaryTLS d.

(** The keys in the order they are met, and the domains of each. *)
Definition group_domain (acc : list text * gmap text (list domain)) (d : domain) : list text * gmap text (list domain) :=
  let '(order, groups) := acc in
  if negb (DEnabled d) then acc
  else
    let key := primaryKey d in
    (match groups !! key with Some _ => order | None => order ++ [key] end,
     <[key := default [] (groups !! key) ++ [d]]> groups).

Definition group_domains (ds : list domain) : list text * gmap text (list domain) := fold_left group_domain ds ([], ∅).

Section health.
Context `{SmtpLib}.
Context (cfg : HealthConfig).

Definition Probe (d : domain) : M (option error) :=
  let* c := dial (PrimaryHost d) (PrimaryPort d) (PrimaryTLS d) ("xeronmx."%string ++ DName d) (negb (hc_allowPrivate cfg)) in
  match c with
  | Err e => ret (Some e)
  | Ok _ =>
      let* e := command CQuit in
      ret match e with Some e => Some (EWrap "QUIT"%string e) | None => None end
  end.

Definition probe (d : domain) : M (option error) :=
  let* e := Probe d in
  count ProbesTotal 1 ;;;
  match e with
  | Some _ => count ProbesFailed 1 ;;; ret e
  | None => ret e
  end.

Definition probe_message (probeErr : option error) : text :=
  match probeErr with Some e => error_text e | None => [] end.

Definition on_primary {A} (f : gmap Z primary_status -> result A * gmap Z primary_status) : M (result A) :=
  statement (fun s =>
    let t := s_domains s in
    let '(r, ps) := f (dt_primary t) in (r, set_s_domains (DomainTables (dt_domains t) ps (dt_next t)) s)).

(** What follows a change of state. *)
Definition announce (d : domain) (isUp : bool) (msg : text) (k : task) : task :=
  let event := if isUp then EventPrimaryUp else EventPrimaryDown in
  Act (record_event (Event event (Some (DID d)) None None
         [(T "host", JStr (PrimaryHost d)); (T "port", JNum (PrimaryPort d)); (T "error", JStr msg)]) ;;;
       ret (Act (Notify event [(T "domain", JStr (DName d)); (T "up", JBool isUp); (T "error", JStr msg)] ;;;
                 ret (if isUp then
                        Act (let* now := now_ in
                             on_queue (fun q => let '(n, q) := RetryDomainNow (DID d) now q in (Ok n, q)) ;;;
                             ret k)
                      else k)))).

Definition apply (d : domain) (probeErr : option error) (k : task) : task :=
  let msg := probe_message probeErr in
  Act (let* now := now_ in
       let* r := on_primary (RecordProbe (DID d) (bool_decide (probeErr = None)) msg
                               (hc_FailureThreshold cfg) (hc_SuccessThreshold cfg) now) in
       ret match r with
           | Err _ => k
           | Ok (flipped, isUp) => if negb flipped then k else announce d isUp msg k
           end).

Definition apply_all (probeErr : option error) (sharing : list domain) : task :=
  foldr (fun d k => apply d probeErr k) Halt sharing.

Definition goroutine (sharing : list domain) : task :=
  match sharing with
  | [] => Halt
  | first :: _ => Act (let* probeErr := probe first in ret (apply_all probeErr sharing))
  end.

(** The goroutines a round starts. *)
Definition checkAll : M (list task) :=
  let* domains := query (fun s => Ok (ListDomains (dt_domains (s_domains s)))) in
  ret match domains with
      | Err _ => []
      | Ok domains =>
          let '(order, groups) := group_domains domains in
          map (fun key => goroutine (default [] (groups !! key))) order
      end.
End health.

(** A history of atomic steps: of goroutines, each with the number of the goroutine and the
    worlds before and after it, the latest first; in between, anything else may happen in the
    process that leaves the tables of the domains alone. *)
Inductive history (md : mode) (x : list task * world) : list (nat * world * world) -> list task * world -> Prop :=
| history_start : history md x [] x
| history_task h ts i m w t w' :
    history md x h (ts, w) -> allows md (wenv w) -> ts !! i = Some (Act m) -> m w = (t, w') ->
    history md x ((i, w, w') :: h) (<[i := t]> ts, w')
| history_other h ts w w' :
    history md x h (ts, w) -> s_domains (st w') = s_domains (st w) -> history md x h (ts, w').

(** * Guarantees *)

(** ** Grouping *)

Definition sharing_of (key : text) (ds : list domain) : list domain :=
  List.filter (fun d => DEnabled d && bool_decide (primaryKey d = key)) ds.

Lemma group_domains_spec ds :
  let '(order, groups) := group_domains ds in
  NoDup order /\ forall key, (key ∈ order <-> sharing_of key ds <> []) /\
    groups !! key = (if bool_decide (sharing_of key ds = []) then None else Some (sharing_of key ds)).
Proof.
  unfold group_domains. induction ds as [|d ds IH] using rev_ind.
  { split; [constructor|]. intros key. split; [split; [intros Hk; inv Hk|done]|done]. }
  rewrite fold_left_app. cbn [fold_left]. destruct (fold_left _ ds _) as [order groups]. destruct IH as [Hnd IH].
  assert (Hs : forall key, sharing_of key (ds ++ [d]) =
    sharing_of key ds ++ (if DEnabled d && bool_decide (primaryKey d = key) then [d] else [])).
  { intros key. unfold sharing_of. rewrite List.filter_app. cbn. by destruct (_ && _). }
  unfold group_domain. destruct (DEnabled d) eqn:Ed; cbn [negb].
  2: { split; [done|]. intros key. rewrite Hs. cbn [andb]. rewrite app_nil_r. apply IH. }
  destruct (IH (primaryKey d)) as [Hin Hg]. split.
  - rewrite Hg. case_bool_decide as E; [|done]. apply NoDup_app. split_and!; [done| |apply NoDup_singleton].
    intros x Hx ->%list_elem_of_singleton. by apply Hin in Hx.
  - intros key. rewrite Hs. cbn [andb]. destruct (decide (primaryKey d = key)) as [<-|Hne].
    + rewrite bool_decide_eq_true_2, lookup_insert_eq by done.
      rewrite (bool_decide_eq_false_2 (_ ++ [d] = [])) by by destruct (sharing_of (primaryKey d) ds).
      rewrite Hg. case_bool_decide as E; cbn [default].
      * rewrite E. split; [|done]. rewrite elem_of_app, list_elem_of_singleton. split; [intros _; discriminate|by right].
      * split; [|done]. rewrite Hin. split; [|done]. intros _. by destruct (sharing_of (primaryKey d) ds).
    + rewrite (bool_decide_eq_false_2 (primaryKey d = key)), lookup_insert_ne, app_nil_r by done.
      destruct (IH key) as [Hin' Hg']. split; [|done]. rewrite <- Hin'. rewrite Hg.
      destruct (bool_decide (sharing_of (primaryKey d) ds = [])); [|reflexivity].
      rewrite elem_of_app, list_elem_of_singleton. naive_solver.
Qed.

Lemma sharing_of_elem key ds d : d ∈ sharing_of key ds <-> d ∈ ds /\ DEnabled d = true /\ primaryKey d = key.
Proof.
  unfold sharing_of. rewrite elem_of_List_filter, andb_true_iff, bool_decide_eq_true. tauto.
Qed.

(** ** Goroutines *)

Section goroutines.
Context `{SmtpLib} (cfg : HealthConfig) (md : mode).

Definition primaries (w : world) : gmap Z primary_status := dt_primary (s_domains (st w)).

(** [p] is what a probe of [d]'s primary that led from [w0] to [w1] found: the connection failed
    and why, or a session to that host and port, with that TLS mode, was opened and answered the
    farewell, the only command it was given, with or without an error. *)
Definition probed (d : domain) (p : option error) (w0 w1 : world) : Prop :=
  match e_dials (wenv w0) with
  | inr answers :: _ =>
      let farewell := answers [] CQuit in
      s_sent (st w1) = SessionLog (PrimaryHost d) (PrimaryPort d) (PrimaryTLS d) ("xeronmx."%string ++ DName d)
                         (negb (hc_allowPrivate cfg)) [(CQuit, farewell)] :: s_sent (st w0) /\
      p = EWrap "QUIT"%string <$> farewell
  | inl e :: _ => s_sent (st w1) = s_sent (st w0) /\ p = Some e
  | [] => s_sent (st w1) = s_sent (st w0) /\ p <> None
  end.

(** A step of the history probed [d]'s primary and found [p]. *)
Definition found (h : list (nat * world * world)) (d : domain) (p : option error) : Prop :=
  exists i w0 w1, (i, w0, w1) ∈ h /\ probed d p w0 w1.

(** [d]'s status took the outcome [p], at the time of a step of the history, or, when the
    database may fail, stayed. *)
Definition recorded (h : list (nat * world * world)) (p : option error) (d : domain)
  (ps ps' : gmap Z primary_status) : Prop :=
  forall s0, ps !! DID d = Some s0 -> exists s1, ps' !! DID d = Some s1 /\
    ((exists i w0 w1, (i, w0, w1) ∈ h /\
        s1 = po_status (apply_probe (bool_decide (p = None)) (probe_message p) (hc_FailureThreshold cfg)
                          (hc_SuccessThreshold cfg) (s_now (st w1)) s0))
     \/ no_faults md = false /\ s1 = s0).

Lemma found_mono h h' d p : h ⊆ h' -> found h d p -> found h' d p.
Proof. intros Hs (i & w0 & w1 & Hin & Hp). exists i, w0, w1. eauto. Qed.

Lemma recorded_mono h h' p d ps ps' : h ⊆ h' -> recorded h p d ps ps' -> recorded h' p d ps ps'.
Proof.
  intros Hs Hr s0 Hs0. destruct (Hr s0 Hs0) as (s1 & Hs1 & [(i & w0 & w1 & Hin & E)|Hn]); exists s1; eauto 10.
Qed.

Lemma probe_probed d w0 p w1 : probe cfg d w0 = (p, w1) -> probed d p w0 w1.
Proof.
  destruct w0 as [s e]. unfold probe, Probe, probed, bind, dial, command, count, modify, ret. cbn.
  destruct (e_dials e) as [|[x|answers] ds]; cbn; [by intros [= <- <-]..|].
  destruct (answers [] CQuit) as [x|]; cbn; by intros [= <- <-].
Qed.

(** What a goroutine still has to do: apply [p] to each of the domains. *)
Inductive doing (p : option error) : list domain -> task -> Prop :=
| doing_done : doing p [] Halt
| doing_apply d rm : doing p (d :: rm) (apply_all cfg p (d :: rm))
| doing_frame rm m :
    keeps s_domains m -> (forall w, doing p rm (fst (m w))) -> doing p rm (Act m).

Lemma doing_apply_all p ds : doing p ds (apply_all cfg p ds).
Proof. destruct ds; constructor. Qed.

Lemma doing_announce p d isUp msg rm k : doing p rm k -> doing p rm (announce d isUp msg k).
Proof.
  intros Hk. unfold announce. apply doing_frame; [keeps|]. intros w. unfold bind at 1. destruct (record_event _ w) as [? w1].
  unfold ret at 1. cbn [fst]. apply doing_frame; [keeps|]. intros w2. cbn. destruct isUp; [|done]. apply doing_frame.
  - keeps.
  - intros w3. unfold bind. destruct (now_ w3) as [? w4]. by destruct (on_queue _ w4).
Qed.

Lemma RecordProbe_recorded h i w0 w1 p d ps r ps' :
  RecordProbe (DID d) (bool_decide (p = None)) (probe_message p) (hc_FailureThreshold cfg) (hc_SuccessThreshold cfg)
    (s_now (st w1)) ps = (r, ps') ->
  recorded ((i, w0, w1) :: h) p d ps ps' /\ forall id, id <> DID d -> ps' !! id = ps !! id.
Proof.
  unfold RecordProbe, recorded. destruct (ps !! DID d) as [s0|] eqn:E; intros [= <- <-]; [|split; [|done]; congruence].
  split; [|by intros id Hne; rewrite lookup_insert_ne]. intros s1 [= <-]. rewrite lookup_insert_eq.
  eexists. split; [done|]. left. exists i, w0, w1. split; [constructor|done].
Qed.

Lemma doing_step h i p todo m w t w' :
  doing p todo (Act m) -> allows md (wenv w) -> m w = (t, w') ->
  (primaries w' = primaries w /\ doing p todo t) \/
  exists d rm, todo = d :: rm /\ doing p rm t /\ recorded ((i, w, w') :: h) p d (primaries w) (primaries w') /\
    forall id, id <> DID d -> primaries w' !! id = primaries w !! id.
Proof.
  intros Hd He Em. remember (Act m) as ta eqn:E2. destruct Hd as [|d rm|rm m0 Hk Hm]; [done|..].
  - right. exists d, rm. split; [done|]. set (k := apply_all cfg p rm).
    assert (Hk : doing p rm k) by apply doing_apply_all.
    set (Q := fun t s' => doing p rm t /\ forall w1, st w1 = s' ->
                recorded ((i, w, w1) :: h) p d (primaries w) (primaries w1) /\
                forall id, id <> DID d -> primaries w1 !! id = primaries w !! id).
    assert (Hwp : wp md m Q (st w)).
    { injection E2 as <-. apply wp_bind, wp_now. intros now _. apply wp_bind. apply wp_statement.
      - intros e Hm. apply wp_ret. split; [done|]. intros w1 E1. unfold primaries. rewrite E1. split; [|done].
        intros s0 Hs0. exists s0. auto.
      - cbn [s_domains set_s_now]. destruct (RecordProbe _ _ _ _ _ _ _) as [r ps] eqn:Er.
        apply wp_ret. split.
        + destruct r as [[flipped isUp]|e]; [|done]. destruct flipped; cbn [negb]; [by apply doing_announce|done].
        + intros w1 E1. unfold primaries. rewrite E1. cbn [s_domains set_s_domains dt_primary].
          apply (RecordProbe_recorded h i w w1 p d _ r). rewrite E1. exact Er. }
    pose proof (wp_run md m Q (st w) (wenv w) He Hwp) as Hr. destruct w as [s e]. cbn [st wenv] in Hr. rewrite Em in Hr.
    destruct Hr as [Hdo Hrec]. split; [done|]. by apply Hrec.
  - injection E2 as ->. left. specialize (Hm w). rewrite Em in Hm. split; [|done].
    pose proof (wp_run md m _ (st w) (wenv w) He (Hk md (st w))) as Hr. destruct w as [s e]. cbn [st wenv] in Hr.
    rewrite Em in Hr. unfold primaries. cbn [st]. by rewrite Hr.
Qed.

(** *** A pool of goroutines *)

Context (ps0 : gmap Z primary_status).

Inductive gstate (h : list (nat * world * world)) (g : list domain) (w : world) : task -> Prop :=
| g_waiting : (forall d, d ∈ g -> primaries w !! DID d = ps0 !! DID d) -> gstate h g w (goroutine cfg g)
| g_running first p dn rm t :
    g = dn ++ rm -> first ∈ g -> found h first p -> doing p rm t ->
    (forall d, d ∈ dn -> recorded h p d ps0 (primaries w)) ->
    (forall d, d ∈ rm -> primaries w !! DID d = ps0 !! DID d) -> gstate h g w t.

Lemma recorded_ext h p d ps1 ps2 ps1' ps2' :
  ps1' !! DID d = ps1 !! DID d -> ps2' !! DID d = ps2 !! DID d -> recorded h p d ps1 ps2 -> recorded h p d ps1' ps2'.
Proof. unfold recorded. by intros -> ->. Qed.

Lemma gstate_other h h' g w w' t :
  h ⊆ h' -> (forall d, d ∈ g -> primaries w' !! DID d = primaries w !! DID d) -> gstate h g w t -> gstate h' g w' t.
Proof.
  intros Hh Hs [Hg|first p dn rm t0 -> Hf Hfd Hd Hdn Hrm].
  - apply g_waiting. intros d Hin. rewrite Hs by done. by apply Hg.
  - eapply g_running; [done|exact Hf|by eapply found_mono|done|..].
    + intros d Hin. eapply recorded_ext; [reflexivity| |by eapply recorded_mono, Hdn]. apply Hs, elem_of_app. by left.
    + intros d Hin. rewrite Hs by (apply elem_of_app; by right). by apply Hrm.
Qed.

Lemma keeps_probe d : keeps s_domains (probe cfg d).
Proof. unfold probe, Probe. keeps. Qed.

Lemma goroutine_step g m w t w' :
  goroutine cfg g = Act m -> allows md (wenv w) -> m w = (t, w') ->
  primaries w' = primaries w /\ exists first p, first ∈ g /\ probed first p w w' /\ t = apply_all cfg p g.
Proof.
  destruct g as [|d g]; [done|]. intros [= <-] He. unfold bind.
  pose proof (wp_run md _ _ (st w) (wenv w) He (keeps_probe d md (st w))) as Hr. destruct w as [s e]. cbn [st wenv] in Hr.
  destruct (probe cfg d (World s e)) as [p w1] eqn:Ep. intros [= <- <-]. unfold primaries. rewrite Hr. split; [done|].
  exists d, p. split_and!; [constructor|by apply probe_probed|done].
Qed.

Lemma gstate_step h i g m w t w' :
  NoDup (map DID g) -> gstate h g w (Act m) -> allows md (wenv w) -> m w = (t, w') ->
  gstate ((i, w, w') :: h) g w' t /\ forall id, id ∉ map DID g -> primaries w' !! id = primaries w !! id.
Proof.
  intros Hnd Hg He Em. assert (Hh : h ⊆ (i, w, w') :: h) by (intros x Hx; by right).
  remember (Act m) as ta eqn:E2. destruct Hg as [Hg|first p dn rm ta -> Hf Hfd Hd Hdn Hrm].
  - destruct (goroutine_step g m w t w' E2 He Em) as [Ep (first & p & Hf & Hpr & ->)]. split; [|by rewrite Ep].
    apply (g_running _ g w' first p [] g); [done|done| |apply doing_apply_all|intros d Hin; inv Hin|].
    + exists i, w, w'. split; [constructor|done].
    + rewrite Ep. exact Hg.
  - subst ta. apply (found_mono _ _ _ _ Hh) in Hfd.
    destruct (doing_step h i p rm m w t w' Hd He Em) as [[Ep Hd']|(d & rm' & -> & Hd' & Hr & Hoth)].
    + split; [|by rewrite Ep]. eapply g_running; [done|exact Hf|exact Hfd|exact Hd'|rewrite Ep..]; [|done].
      intros d Hin. by eapply recorded_mono, Hdn.
    + assert (Hne : forall d', d' ∈ dn \/ d' ∈ rm' -> DID d' <> DID d).
      { rewrite map_app in Hnd. cbn in Hnd. apply NoDup_app in Hnd as (_ & Hx & [Hn _]%NoDup_cons).
        intros d' [Hin|Hin] E.
        - apply (Hx (DID d')); [by apply list_elem_of_fmap_2|]. rewrite E. apply list_elem_of_here.
        - apply Hn. rewrite <- E. by apply list_elem_of_fmap_2. }
      split.
      * apply (g_running _ _ w' first p (dn ++ [d]) rm'); [by rewrite <- app_assoc|done..| |].
        -- intros d' [Hin| ->%list_elem_of_singleton]%elem_of_app.
           ++ eapply recorded_ext; [reflexivity| |by eapply recorded_mono, Hdn]. apply Hoth, Hne. by left.
           ++ eapply recorded_ext; [|reflexivity|exact Hr]. symmetry. apply Hrm, list_elem_of_here.
        -- intros d' Hin. rewrite Hoth by (apply Hne; by right). apply Hrm. by apply list_elem_of_further.
      * intros id Hid. apply Hoth. intros ->. apply Hid, list_elem_of_fmap_2, elem_of_app. right. apply list_elem_of_here.
Qed.

Definition pool_ok (gs : list (list domain)) (h : list (nat * world * world)) (x : list task * world) : Prop :=
  Forall2 (fun g t => gstate h g (snd x) t) gs (fst x) /\
  forall id, id ∉ map DID (concat gs) -> primaries (snd x) !! id = ps0 !! id.

Lemma concat_lookup_disjoint (gs : list (list domain)) i j g g' x y :
  NoDup (map DID (concat gs)) -> gs !! i = Some g -> gs !! j = Some g' -> i <> j -> x ∈ g -> y ∈ g' -> DID x <> DID y.
Proof.
  assert (Hin : forall (gs : list (list domain)) i g x, gs !! i = Some g -> x ∈ g -> DID x ∈ map DID (concat gs)).
  { clear. intros gs i g x Hg Hx. apply list_elem_of_fmap_2, list_elem_of_In, in_concat. exists g.
    split; apply list_elem_of_In; [by eapply list_elem_of_lookup_2|done]. }
  revert i j. induction gs as [|g0 gs IH]; intros i j Hnd Hi Hj Hij Hx Hy E; [done|].
  cbn [concat] in Hnd. rewrite map_app in Hnd. apply NoDup_app in Hnd as (_ & Hd & Hnd).
  destruct i as [|i], j as [|j]; cbn in Hi, Hj; simplify_eq.
  - apply (Hd (DID x)); [by apply list_elem_of_fmap_2|]. rewrite E. by eapply Hin.
  - apply (Hd (DID y)); [by apply list_elem_of_fmap_2|]. rewrite <- E. by eapply Hin.
  - eapply (IH i j); eauto.
Qed.

Lemma concat_lookup_NoDup (gs : list (list domain)) i g : NoDup (map DID (concat gs)) -> gs !! i = Some g -> NoDup (map DID g).
Proof.
  revert i. induction gs as [|g0 gs IH]; intros i Hnd Hi; [done|]. cbn [concat] in Hnd. rewrite map_app in Hnd.
  apply NoDup_app in Hnd as (H0 & _ & Hnd). destruct i; cbn in Hi; [by simplify_eq|by eapply IH].
Qed.

Lemma pool_task gs h ts i m w t w' :
  NoDup (map DID (concat gs)) -> pool_ok gs h (ts, w) -> allows md (wenv w) -> ts !! i = Some (Act m) ->
  m w = (t, w') -> pool_ok gs ((i, w, w') :: h) (<[i := t]> ts, w').
Proof.
  intros Hnd [Hg Ho] He Hi Em. cbn [fst snd] in *.
  destruct (Forall2_lookup_r _ _ _ _ _ Hg Hi) as (g & Hgi & Hgs).
  destruct (gstate_step h i g m w t w' (concat_lookup_NoDup _ _ _ Hnd Hgi) Hgs He Em) as [Hg' Hoth]. split; cbn [fst snd].
  - apply Forall2_same_length_lookup. split; [rewrite length_insert; by eapply Forall2_length|].
    intros j gj tj Hgj Htj. destruct (decide (i = j)) as [<-|Hij].
    + rewrite list_lookup_insert_eq in Htj by (by eapply lookup_lt_Some). by simplify_eq.
    + rewrite list_lookup_insert_ne in Htj by done.
      eapply (gstate_other h); [intros x Hx; by right| |exact (Forall2_lookup_lr _ _ _ _ _ _ Hg Hgj Htj)].
      intros d Hd. apply Hoth. intros (d' & E & Hd')%list_elem_of_fmap.
      by apply (concat_lookup_disjoint gs j i gj g d d' Hnd).
  - intros id Hid. rewrite Hoth; [by apply Ho|]. intros (d & -> & Hd)%list_elem_of_fmap. apply Hid.
    apply list_elem_of_fmap_2, list_elem_of_In, in_concat. exists g.
    split; apply list_elem_of_In; [by eapply list_elem_of_lookup_2|done].
Qed.

Lemma pool_history gs x h y : NoDup (map DID (concat gs)) -> history md x h y -> pool_ok gs [] x -> pool_ok gs h y.
Proof.
  intros Hnd Hh Hx. induction Hh as [|h ts i m w t w' _ IH He Hi Em|h ts w w' _ [Hg Ho] Hsame]; [done|by eapply pool_task|].
  split; cbn [fst snd] in *.
  - eapply Forall2_impl; [exact Hg|]. intros g t. apply gstate_other; [done|]. intros d _. unfold primaries. by rewrite Hsame.
  - intros id Hid. unfold primaries. rewrite Hsame. by apply Ho.
Qed.

Lemma gstate_halted h g w :
  g <> [] -> gstate h g w Halt ->
  exists first p, first ∈ g /\ found h first p /\ forall d, d ∈ g -> recorded h p d ps0 (primaries w).
Proof.
  intros Hne Hg. remember Halt as t eqn:Et. destruct Hg as [Hg|first p dn rm t0 -> Hf Hfd Hd Hdn Hrm]; [by destruct g|].
  subst t0. exists first, p. inversion Hd; subst. rewrite app_nil_r in *. done.
Qed.
End goroutines.

(** ** The guarantee *)

Lemma NoDup_sharing order ds : NoDup order -> NoDup (map DID ds) -> NoDup (map DID (concat (map (fun k => sharing_of k ds) order))).
Proof.
  intros Ho Hds. induction Ho as [|k order Hk _ IH]; cbn [map concat]; [constructor|].
  rewrite map_app. apply NoDup_app. split_and!; [|..|exact IH].
  - eapply sublist_NoDup; [exact Hds|]. apply fmap_sublist, sublist_List_filter.
  - intros id Hin Hin2. apply list_elem_of_fmap in Hin as (x & -> & [Hx [_ Ex]]%sharing_of_elem).
    apply list_elem_of_fmap in Hin2 as (y & E & Hy). apply list_elem_of_In, in_concat in Hy as (g & Hg & Hy).
    apply list_elem_of_In in Hg, Hy. apply list_elem_of_fmap in Hg as (k' & -> & Hk').
    apply sharing_of_elem in Hy as (Hy & _ & Ey).
    pose proof (NoDup_map_unique DID _ _ _ Hds Hx Hy E) as ->. congruence.
Qed.

Section round.
Context `{SmtpLib} (cfg : HealthConfig) (md : mode) (s : state).

Definition the_domains : list domain := ListDomains (dt_domains (s_domains s)).

Lemma the_domains_elem d : d ∈ the_domains <-> d ∈ dt_domains (s_domains s).
Proof. unfold the_domains, ListDomains. by rewrite merge_sort_Permutation. Qed.

(** The goroutines of a round: one for each primary in use. *)
Definition started (order : list text) : Prop :=
  NoDup order /\ (forall key, key ∈ order -> sharing_of key the_domains <> []) /\
  (forall key, key ∉ order -> sharing_of key the_domains = [] \/ no_faults md = false).

Lemma wp_checkAll :
  wp md (checkAll cfg) (fun tasks s' => s_domains s' = s_domains s /\ exists order, started order /\
    tasks = map (fun k => goroutine cfg (sharing_of k the_domains)) order) s.
Proof.
  unfold checkAll. apply wp_bind, wp_query.
  - intros err Hm. apply wp_ret. split; [done|]. exists []. split; [|done].
    split_and!; [constructor|intros key Hk; inv Hk|by right].
  - fold the_domains. apply wp_ret. pose proof (group_domains_spec the_domains) as Hg.
    destruct (group_domains the_domains) as [order groups]. destruct Hg as [Ho Hg].
    split; [done|]. exists order. split; [split_and!; [done|..]|].
    + intros key. destruct (Hg key) as [Hk _]. tauto.
    + intros key Hk. left. destruct (decide (sharing_of key the_domains = [])) as [|Hne]; [done|].
      by apply (Hg key) in Hne.
    + apply map_ext_in. intros key Hk. apply list_elem_of_In in Hk. destruct (Hg key) as [Hk' ->].
      rewrite bool_decide_eq_false_2; [done|by apply Hk'].
Qed.

Context (order : list text) (w' : world).

Definition order_groups : list (list domain) := map (fun k => sharing_of k the_domains) order.

Lemma in_groups id :
  id ∈ map DID (concat order_groups) <->
  exists d, id = DID d /\ d ∈ dt_domains (s_domains s) /\ DEnabled d = true /\ primaryKey d ∈ order.
Proof.
  rewrite elem_of_map. split.
  - intros (d & -> & Hd). exists d. apply list_elem_of_In, in_concat in Hd as (g & Hg & Hd).
    apply list_elem_of_In in Hg, Hd. apply list_elem_of_fmap in Hg as (k & -> & Hk).
    apply sharing_of_elem in Hd as (Hd & Hen & <-). by rewrite <- the_domains_elem.
  - intros (d & -> & Hd & Hen & Hk). exists d. split; [done|]. apply list_elem_of_In, in_concat.
    exists (sharing_of (primaryKey d) the_domains). split; apply list_elem_of_In.
    + by apply (list_elem_of_fmap_2 (fun k => sharing_of k the_domains)).
    + apply sharing_of_elem. by rewrite the_domains_elem.
Qed.

(** An enabled domain whose primary is named by [key]. *)
Definition served_by (key : text) (d : domain) : Prop :=
  d ∈ dt_domains (s_domains s) /\ DEnabled d = true /\ primaryKey d = key.

(** What a round leaves for the domains of a primary: one probe of the primary was made, for
    one of them, and each of them took what it found; or the domains could not be listed. *)
Definition round_of (h : list (nat * world * world)) (key : text) : Prop :=
  (exists first p, served_by key first /\ found cfg h first p /\
     forall d, served_by key d -> recorded cfg md h p d (dt_primary (s_domains s)) (primaries w'))
  \/ no_faults md = false /\
     forall d, served_by key d -> primaries w' !! DID d = dt_primary (s_domains s) !! DID d.

Lemma halted_records h ts :
  NoDup (map DID (dt_domains (s_domains s))) -> started order ->
  pool_ok cfg md (dt_primary (s_domains s)) order_groups h (ts, w') -> Forall (eq Halt) ts ->
  (forall key, (exists d, served_by key d) -> round_of h key) /\
  forall id, (forall d, d ∈ dt_domains (s_domains s) -> DEnabled d = true -> DID d <> id) ->
    primaries w' !! id = dt_primary (s_domains s) !! id.
Proof.
  intros Hnd (Ho & Hne & Hout) [Hg Hother] Hhalt. cbn [fst snd] in *. split.
  2: { intros id Hid. apply Hother. rewrite in_groups. intros (d & -> & Hd & Hen & _). by apply (Hid d). }
  intros key (d0 & Hd0). assert (Hel : forall d, d ∈ sharing_of key the_domains <-> served_by key d).
  { intros d. by rewrite sharing_of_elem, the_domains_elem. }
  destruct (decide (key ∈ order)) as [Hk|Hk]; [left|right].
  - specialize (Hne key Hk). apply list_elem_of_lookup in Hk as [i Hi].
    assert (Hgi : order_groups !! i = Some (sharing_of key the_domains)) by (unfold order_groups; by rewrite list_lookup_fmap, Hi).
    destruct (Forall2_lookup_l _ _ _ _ _ Hg Hgi) as (t & Ht & Hst).
    rewrite Forall_forall in Hhalt. specialize (Hhalt t (list_elem_of_lookup_2 _ _ _ Ht)). subst t.
    destruct (gstate_halted cfg md _ _ _ _ Hne Hst) as (first & p & Hf & Hfd & Hp). exists first, p.
    split_and!; [by apply Hel|done|]. intros d Hd. by apply Hp, Hel.
  - destruct (Hout key Hk) as [Hnil|Hm].
    + exfalso. apply Hel in Hd0. rewrite Hnil in Hd0. inv Hd0.
    + split; [done|]. intros d (Hd & Hen & Hkey). apply Hother.
      rewrite in_groups. intros (d' & E & Hd' & Hen' & Hk'). apply Hk.
      by rewrite <- Hkey, (NoDup_map_unique DID _ _ _ Hnd Hd Hd' E).
Qed.
End round.

(** C13: a round of the health checker, run to its end however its goroutines interleave with
    each other and with whatever else the process does that leaves the tables of the domains
    alone, probes the primary of every enabled domain, on a session to its host, port and TLS
    mode, and each of the domains that share the primary takes what this one probe found, at the
    time of the step that recorded it; no other domain's status moves.  When the database may
    fail, a status whose statement failed stays, as they all do when the domains could not be
    listed. *)
Theorem checkAll_records `{SmtpLib} cfg md e s h ts w' :
  NoDup (map DID (dt_domains (s_domains s))) -> allows md e ->
  history md (checkAll cfg (World s e)) h (ts, w') -> Forall (eq Halt) ts ->
  (forall key, (exists d, served_by s key d) -> round_of cfg md s w' h key) /\
  forall id, (forall d, d ∈ dt_domains (s_domains s) -> DEnabled d = true -> DID d <> id) ->
    primaries w' !! id = dt_primary (s_domains s) !! id.
Proof.
  intros Hnd He. pose proof (wp_run md _ _ s e He (wp_checkAll cfg md s)) as Hrun.
  destruct (checkAll cfg (World s e)) as [tasks w]. destruct Hrun as [Edom (order & Ho & ->)]. intros Hsteps Hhalt.
  assert (Hgs : NoDup (map DID (concat (order_groups s order)))).
  { apply NoDup_sharing; [apply Ho|]. unfold the_domains, ListDomains. by rewrite merge_sort_Permutation. }
  apply (halted_records cfg md s order w' h ts Hnd Ho); [|done]. eapply pool_history; [exact Hgs|exact Hsteps|].
  split; cbn [fst snd]; [|intros id _; unfold primaries; by rewrite Edom].
  unfold order_groups. apply Forall2_fmap_l, Forall2_fmap_r, Forall_Forall2_diag, Forall_forall. intros key _.
  apply g_waiting. intros d _. unfold primaries. by rewrite Edom.
Qed.

(** Two domains share a primary that answers; a third one is switched off. *)
#[local] Instance sample_health_smtp : SmtpLib :=
  {| smtp_error_text := fun e => Message e; ErrAuthRequired := SMTPError 502 (Enh 5 7 0) [];
     ErrAuthFailed := SMTPError 535 (Enh 5 7 8) []; ErrAuthUnsupported := SMTPError 504 (Enh 5 7 4) [] |}.

Definition sample_health : HealthConfig := {| hc_FailureThreshold := 3; hc_SuccessThreshold := 1; hc_allowPrivate := true |}.

Definition sample_domain (id : Z) (name host : text) (enabled : bool) : domain :=
  Domain id name host 25 "opportunistic"%string None None 0 enabled 0 0.

Definition sample_fleet : state :=
  set_s_domains (DomainTables [sample_domain 1 "a.example"%string "mail.example."%string true;
                               sample_domain 2 "b.example"%string "MAIL.example"%string true;
                               sample_domain 3 "c.example"%string "mail.example"%string false]
                   (<[1 := fresh_primary]> (<[2 := fresh_primary]> {[3 := fresh_primary]})) 4) blank.

Definition sample_probe_env : env := set_e_dials [inr (fun _ _ => None)] quiet.

(** The one goroutine of the round, run to its end. *)
Fixpoint run_task (n : nat) (t : task) (w : world) : task * world :=
  match n, t with
  | S n, Act m => let '(t, w) := m w in run_task n t w
  | _, _ => (t, w)
  end.

Definition sample_tasks := fst (checkAll sample_health (World sample_fleet sample_probe_env)).
Definition sample_round := run_task 12 (List.hd Halt sample_tasks) (World sample_fleet sample_probe_env).

Fixpoint run_steps (n : nat) (t : task) (w : world) (h : list (nat * world * world)) : list (nat * world * world) :=
  match n, t with
  | S n, Act m => let '(t, w1) := m w in run_steps n t w1 ((0%nat, w, w1) :: h)
  | _, _ => h
  end.

Lemma run_task_history x n t w h :
  history any x h ([t], w) -> history any x (run_steps n t w h) ([fst (run_task n t w)], snd (run_task n t w)).
Proof.
  revert t w h. induction n as [|n IH]; intros t w h Hx; [done|]. destruct t as [|m]; [done|].
  cbn. destruct (m w) as [t' w'] eqn:Em. apply IH.
  apply (history_task any x h [Act m] 0 m w t' w'); [done|apply allows_any|done|done].
Qed.

Lemma checkAll_records_witness :
  exists h, NoDup (map DID (dt_domains (s_domains sample_fleet))) /\
  (map (fun id => IsUp <$> primaries (snd sample_round) !! id) [1; 2; 3] = [Some true; Some true; Some false]) /\
  forall key, (exists d, served_by sample_fleet key d) -> round_of sample_health any sample_fleet (snd sample_round) h key.
Proof.
  assert (Hnd : NoDup (map DID (dt_domains (s_domains sample_fleet)))) by (repeat constructor; set_solver).
  eexists. split; [exact Hnd|]. split; [vm_compute; reflexivity|].
  refine (proj1 (checkAll_records sample_health any sample_probe_env sample_fleet _ [fst sample_round] (snd sample_round)
    Hnd (allows_any _) _ _)); [|constructor; [vm_compute; reflexivity|constructor]].
  apply (run_task_history _ 12 (List.hd Halt sample_tasks)). apply history_start.
Defined.
