(* ===== verification/Pages.v ===== *)
(** * The pages of the administration interface: domains, recipients, queue, events, submission accounts
    (internal/api/handlers.go, recipients.go)

    The handlers behind the guards of [Api], and the routes that put them there.  A path
    segment and the query parameters are texts; [rs_items] holds the objects of a body. *)

From S2P Require Import Prelude GoStrings Base64 Times Net Errors StoreTypes StoreQueue StoreDomains.
From S2P Require Import Filter Routes StoreUsers Auth SmtpClient RateLimit World Health Api Account.
From Stdlib Require Import QArith.
Open Scope Z_scope.

Definition pathID (segment : text) : option Z := ParseInt64 segment.

Definition queryInt (value : text) (def : Z) : Z :=
  if bool_decide (value = []) then def else default def (ParseInt64 value).

Definition contains_any (cs s : text) : bool := existsb (fun c => bool_decide (c ∈ cs)) s.

(** What the pages read of the configuration. *)
Record PagesConfig := {
  pg_hostname : text;                   (* smtp.hostname *)
  pg_retention : Z;                     (* queue.retention *)
  pg_allowPrivate : bool
}.

Record domainRequest := {
  dq_Name : text;
  dq_PrimaryHost : text;
  dq_PrimaryPort : Z;
  dq_PrimaryTLS : text;
  dq_MaxQueueMessages : option Z;
  dq_MonthlySendLimit : option Z;
  dq_RetentionHours : Z;
  dq_Enabled : option bool
}.

(** ** Statements on the tables of domains and accounts *)

Definition on_domains {A} (f : domain_tables -> result A * domain_tables) : M (result A) :=
  statement (fun s => let '(r, t) := f (s_domains s) in (r, set_s_domains t s)).

Definition on_domain_rows {A} (f : list domain -> result A * list domain) : M (result A) :=
  on_domains (fun t => let '(r, ds) := f (dt_domains t) in (r, DomainTables ds (dt_primary t) (dt_next t))).

Definition on_recipients (f : list domain -> gmap Z (list text) -> result unit * gmap Z (list text)) : M (result unit) :=
  statement (fun s => let '(r, rs) := f (dt_domains (s_domains s)) (s_recipients s) in (r, set_s_recipients rs s)).

Definition on_smtp_users {A} (f : smtp_user_table -> result A * smtp_user_table) : M (result A) :=
  statement (fun s => let '(r, t) := f (s_smtp_users s) in (r, set_s_smtp_users t s)).

(** [ON DELETE SET NULL]. *)
Definition forget_domain (id : Z) (r : event_row) : event_row :=
  let e := ev_event r in
  EventRow (ev_id r)
    (Event (EType e) (if bool_decide (EDomainID e = Some id) then None else EDomainID e) (EQueueID e) (EUserID e) (EData e))
    (ev_created r).

(** [DeleteDomain] with everything the foreign keys take along. *)
Definition delete_domain (id : Z) : M (result unit) :=
  statement (fun s =>
    let '(r, (t, q)) := DeleteDomain id (s_domains s) (s_queue s) in
    match r with
    | Err e => (Err e, s)
    | Ok _ =>
        (Ok tt,
         set_s_domains t (set_s_queue q (set_s_recipients (delete id (s_recipients s)) (set_s_dkim (delete id (s_dkim s))
           (set_s_usage (filter (fun kv => fst (fst kv) <> id) (s_usage s))
             (set_s_events (EventTable (map (forget_domain id) (et_rows (s_events s))) (et_next (s_events s))) s))))))
    end).

Section pages.
Context `{SmtpLib} `{PasswordCrypto}.
Context (cfg : PagesConfig).

(** ** Domains *)

Definition lookupDomain (p : principal) (segment : text) : M (response + domain) :=
  match pathID segment with
  | None => ret (inl (fail 400 "invalid_domain_id"%string))
  | Some id =>
      let* d := query (fun s => DomainByID id (dt_domains (s_domains s))) in
      ret match d with
          | Err e => if is_sentinel ErrNotFound e then inl (fail 404 "domain_not_found"%string)
                     else inl (fail 500 "domain_read_failed"%string)
          | Ok d => if negb (CanAccessDomain (p_user p) (DName d)) then inl (fail 404 "domain_not_found"%string) else inr d
          end
  end.

Definition new_domain : domain :=
  Domain 0 [] [] 25 TLSOpportunistic None None (Z.quot (pg_retention cfg) hour) true 0 0.

Definition valid_name (name : text) : bool :=
  negb (bool_decide (name = [])) && contains "."%string name && negb (contains_any " @/\"%string name).

(** [inl] is the code of the refusal. *)
Definition domainFromRequest (req : domainRequest) (existing : option domain) : text + domain :=
  let d := match existing with
           | Some e => Domain (DID e) (DName e) (PrimaryHost e) (PrimaryPort e) (PrimaryTLS e) (MaxQueueMessages e)
                         (MonthlySendLimit e) (RetentionHours e) (DEnabled e) 0 0
           | None => new_domain
           end in
  let renamed := match existing with
                 | Some e => negb (bool_decide (dq_Name req = [])) && negb (equal_fold (dq_Name req) (DName e))
                 | None => false
                 end in
  if renamed then inl (T "domain_cannot_rename")
  else
    let name := if bool_decide (dq_Name req = []) then DName d
                else to_lower (trim_suffix "."%string (trim_space (dq_Name req))) in
    if negb (valid_name name) then inl (T "invalid_domain")
    else
      let host := if bool_decide (dq_PrimaryHost req = []) then PrimaryHost d else trim_space (dq_PrimaryHost req) in
      if bool_decide (host = []) then inl (T "invalid_domain")
      else
        let port := if dq_PrimaryPort req =? 0 then PrimaryPort d else dq_PrimaryPort req in
        if (port <? 1) || (65535 <? port) then inl (T "invalid_domain")
        else
          let tls := if bool_decide (dq_PrimaryTLS req = []) then PrimaryTLS d else dq_PrimaryTLS req in
          if negb (ValidTLSMode tls) then inl (T "invalid_domain")
          else
            let hours := if dq_RetentionHours req =? 0 then RetentionHours d else dq_RetentionHours req in
            if (hours <? 1) || (24 * 30 <? hours) then inl (T "invalid_domain")
            else
              let cap := match dq_MaxQueueMessages req with Some n => Some n | None => MaxQueueMessages d end in
              let monthly := match dq_MonthlySendLimit req with
                             | Some n => if n <=? 0 then None else Some n
                             | None => MonthlySendLimit d
                             end in
              let enabled := match dq_Enabled req with Some b => b | None => DEnabled d end in
              if equal_fold host (pg_hostname cfg) && negb (bool_decide (pg_hostname cfg = [])) then inl (T "domain_loop")
              else inr (Domain (DID d) name host port tls cap monthly hours enabled (DCreatedAt d) (DUpdatedAt d)).

(** [domainJSON]: the fields a query could not fill are left out. *)
Definition domainJSON (d : domain) : M jmap :=
  let* now := now_ in
  let* sent := query (fun s => Ok (SentThisMonth (DID d) now (s_usage s))) in
  let* status := query (fun s => match dt_primary (s_domains s) !! DID d with Some st => Ok st | None => Err not_found end) in
  let* pending := query (fun s => Ok (CountPendingForDomain (DID d) (s_queue s))) in
  let* addrs := query (fun s => Ok (DomainRecipients (DID d) (s_recipients s))) in
  ret ((match sent with Ok n => [(T "sent_this_month", JNum n)] | Err _ => [] end)
       ++ (match status with Ok st => [(T "is_up", JBool (IsUp st)); (T "last_error", JStr (PLastError st))] | Err _ => [] end)
       ++ (match pending with Ok n => [(T "pending", JNum n)] | Err _ => [] end)
       ++ (match addrs with Ok l => [(T "recipients_count", JNum (Z.of_nat (length l)))] | Err _ => [] end)).

Fixpoint domain_items (ds : list domain) : M (list item) :=
  match ds with
  | [] => ret []
  | d :: ds => domainJSON d ;;; let* items := domain_items ds in ret (IDomain d :: items)
  end.

Definition domain_reply (status : Z) (d : domain) : M response :=
  let* body := domainJSON d in ret (ok_items status body [IDomain d]).

Definition handleListDomains (p : principal) (r : request) : M response :=
  let* ds := query (fun s => Ok (domainsForUser (Some (p_user p)) (dt_domains (s_domains s)))) in
  match ds with
  | Err _ => ret (fail 500 "domain_list_failed"%string)
  | Ok ds => let* items := domain_items ds in ret (ok_items 200 [] items)
  end.

Definition handleGetDomain (segment : text) (p : principal) (r : request) : M response :=
  let* d := lookupDomain p segment in
  match d with inl rs => ret rs | inr d => domain_reply 200 d end.

Definition reloadDomain (d : domain) : M domain :=
  let* fresh := query (fun s => DomainByID (DID d) (dt_domains (s_domains s))) in
  ret match fresh with Ok fresh => fresh | Err _ => d end.

Definition unique_error (e : error) : bool := contains "UNIQUE"%string (error_text e).

Definition with_id (id : Z) (d : domain) : domain :=
  Domain id (DName d) (PrimaryHost d) (PrimaryPort d) (PrimaryTLS d) (MaxQueueMessages d) (MonthlySendLimit d)
    (RetentionHours d) (DEnabled d) (DCreatedAt d) (DUpdatedAt d).

Definition handleCreateDomain (body : option domainRequest) (p : principal) (r : request) : M response :=
  match body with
  | None => ret (fail 400 "invalid_body"%string)
  | Some req =>
      match domainFromRequest req None with
      | inl code => ret (fail 400 code)
      | inr d =>
          let* now := now_ in
          let* created := on_domains (CreateDomain d now) in
          match created with
          | Err e => ret (if unique_error e then fail 409 "domain_already_exists"%string else fail 500 "domain_create_failed"%string)
          | Ok id =>
              let* d := reloadDomain (with_id id d) in
              audit (Some p) r (Event "domain_added"%string (Some id) None (Some (UID (p_user p)))
                [(T "name", JStr (DName d)); (T "primary_host", JStr (PrimaryHost d))]) ;;;
              let* d := reloadDomain d in
              domain_reply 201 d
          end
      end
  end.

Definition handleUpdateDomain (segment : text) (body : option domainRequest) (p : principal) (r : request) : M response :=
  let* existing := lookupDomain p segment in
  match existing with
  | inl rs => ret rs
  | inr existing =>
      match body with
      | None => ret (fail 400 "invalid_body"%string)
      | Some req =>
          match domainFromRequest req (Some existing) with
          | inl code => ret (fail 400 code)
          | inr d =>
              let* now := now_ in
              let* updated := on_domain_rows (UpdateDomain d now) in
              match updated with
              | Err _ => ret (fail 500 "domain_update_failed"%string)
              | Ok _ => let* d := reloadDomain d in domain_reply 200 d
              end
          end
      end
  end.

Fixpoint delete_bodies (msgs : list message) : M unit :=
  match msgs with
  | [] => ret tt
  | m :: msgs => blob_Delete (ID m) ;;; delete_bodies msgs
  end.

Definition of_domain (id limit : Z) : ListFilter := Build_ListFilter None id None None limit 0 0.

Definition handleDeleteDomain (segment force : text) (p : principal) (r : request) : M response :=
  let* d := lookupDomain p segment in
  match d with
  | inl rs => ret rs
  | inr d =>
      let* pending := query (fun s => Ok (CountPendingForDomain (DID d) (s_queue s))) in
      match pending with
      | Err _ => ret (fail 500 "internal_error"%string)
      | Ok pending =>
          if (0 <? pending) && negb (bool_decide (force = "true"%string)) then ret (fail 409 "domain_has_queued_mail"%string)
          else
            let* msgs := query (fun s => Ok (ListMessages (of_domain (DID d) 500) (s_queue s))) in
            (match msgs with Ok msgs => delete_bodies msgs | Err _ => ret tt end) ;;;
            let* deleted := delete_domain (DID d) in
            match deleted with
            | Err _ => ret (fail 500 "domain_delete_failed"%string)
            | Ok _ =>
                audit (Some p) r (Event "domain_deleted"%string None None (Some (UID (p_user p)))
                  [(T "name", JStr (DName d)); (T "discarded", JNum pending)]) ;;;
                ret (ok 200 [(T "deleted", JStr (DName d)); (T "discarded_messages", JNum pending)])
            end
      end
  end.

Definition probeHint (e : error) : text :=
  if is_sentinel ErrNonPublic e then
    "The primary is a private or local address, which this server refuses. Use the public address of the mail server, or set queue.allow_private_destinations if it sits on your own network."%string
  else
    let msg := to_lower (error_text e) in
    if contains "no such host"%string msg then
      "The hostname does not resolve. Check the primary host spelling and its DNS record."%string
    else if contains "connection refused"%string msg || contains "actively refused"%string msg || contains "econnrefused"%string msg then
      "The host answered but nothing is listening on that port. Check the port, and that the mail server is running."%string
    else if contains "timeout"%string msg || contains "deadline exceeded"%string msg || contains "i/o timeout"%string msg then
      "No answer at all. A firewall is the usual cause: port 25 is blocked outbound by many hosting providers."%string
    else if contains "starttls"%string msg then
      "The connection worked but TLS did not. Try the 'opportunistic' TLS mode, or check the certificate on the primary."%string
    else if contains "certificate"%string msg then
      "TLS failed on the certificate. Check that it is valid and matches the primary hostname."%string
    else "Check that the primary host and port are correct and reachable from this machine."%string.
Definition handleTestDomain (segment : text) (p : principal) (r : request) : M response :=
  let* d := lookupDomain p segment in
  match d with
  | inl rs => ret rs
  | inr d =>
      let* e := Probe {| hc_FailureThreshold := 0; hc_SuccessThreshold := 0; hc_allowPrivate := pg_allowPrivate cfg |} d in
      ret match e with
          | Some e => ok 200 [(T "reachable", JBool false); (T "error", JStr (error_text e)); (T "hint", JStr (probeHint e))]
          | None => ok 200 [(T "reachable", JBool true)]
          end
  end.

(** ** Recipients *)

Definition maxRecipients : nat := Z.to_nat 100000.

(** An address of the domain, written plainly. *)
Definition recipient_of (domain addr : text) : bool :=
  match last_index "@"%char addr with
  | Some (S at_) => bool_decide (drop (S (S at_)) addr = domain) && negb (contains_any ([SP; TAB; CR; LF] ++ "<>,;"%string) addr)
  | _ => false
  end.

Definition validRecipients (domain : text) (addrs : list text) : option (list text) :=
  if (maxRecipients <? length addrs)%nat then None
  else
    let out := List.filter (fun a => negb (bool_decide (a = []))) (map NormalizeRecipient addrs) in
    if forallb (recipient_of domain) out then Some (compact (merge_sort text_le out)) else None.

Definition handleGetRecipients (segment : text) (p : principal) (r : request) : M response :=
  let* d := lookupDomain p segment in
  match d with
  | inl rs => ret rs
  | inr d =>
      let* addrs := query (fun s => Ok (DomainRecipients (DID d) (s_recipients s))) in
      ret match addrs with
          | Err _ => fail 500 "recipients_read_failed"%string
          | Ok addrs => ok_items 200 [] [IRecipients (DID d) addrs]
          end
  end.

Definition handleSetRecipients (segment : text) (body : option (list text)) (p : principal) (r : request) : M response :=
  let* d := lookupDomain p segment in
  match d with
  | inl rs => ret rs
  | inr d =>
      match body with
      | None => ret (fail 400 "invalid_body"%string)
      | Some addrs =>
          match validRecipients (DName d) addrs with
          | None => ret (fail 400 "invalid_recipient"%string)
          | Some addrs =>
              let* done_ := on_recipients (fun ds => SetDomainRecipients ds (DID d) addrs) in
              match done_ with
              | Err _ => ret (fail 500 "recipients_update_failed"%string)
              | Ok _ =>
                  audit (Some p) r (Event "recipients_updated"%string (Some (DID d)) None (Some (UID (p_user p)))
                    [(T "domain", JStr (DName d)); (T "count", JNum (Z.of_nat (length addrs)))]) ;;;
                  ret (ok_items 200 [] [IRecipients (DID d) addrs])
              end
          end
      end
  end.

(** ** The queue *)

Definition status_named (s : text) : option status :=
  find (fun st => bool_decide (status_text st = s)) [StatusQueued; StatusDelivering; StatusDelivered; StatusFailed; StatusExpired].

Definition direction_named (s : text) : option direction :=
  find (fun d => bool_decide (direction_text d = s)) [DirectionInbound; DirectionOutbound].

Record queueQuery := {
  qq_status : text;
  qq_direction : text;
  qq_limit : text;
  qq_offset : text;
  qq_domain : text;
  qq_quarantined : text
}.

(** The scope of the listing: [None] is the empty reply. *)
Definition listing_scope (allowed : option (list Z)) (domain_id : Z) : option (Z * option (list Z)) :=
  let wanted := if 0 <? domain_id then domain_id else 0 in
  match allowed with
  | None => Some (wanted, None)
  | Some ids =>
      if 0 <? wanted then if bool_decide (wanted ∈ ids) then Some (wanted, None) else None
      else Some (wanted, Some ids)
  end.

(** A status or direction that no row has lists nothing. *)
Definition known_or_empty {A} (named : text -> option A) (s : text) : bool := bool_decide (s = []) || bool_decide (is_Some (named s)).

Definition handleListQueue (q : queueQuery) (p : principal) (r : request) : M response :=
  let* allowed := query (fun s => Ok (allowedDomainIDsForUser (Some (p_user p)) (dt_domains (s_domains s)))) in
  match allowed with
  | Err _ => ret (fail 500 "internal_error"%string)
  | Ok allowed =>
      match listing_scope allowed (queryInt (qq_domain q) 0) with
      | None => ret (ok 200 [(T "count", JNum 0)])
      | Some (id, ids) =>
          let f := Build_ListFilter (status_named (qq_status q)) id ids (direction_named (qq_direction q))
                     (queryInt (qq_limit q) 100) (queryInt (qq_offset q) 0)
                     (if bool_decide (qq_quarantined q = "true"%string) then 1
                      else if bool_decide (qq_quarantined q = "false"%string) then -1 else 0) in
          let* msgs := query (fun s =>
            Ok (if known_or_empty status_named (qq_status q) && known_or_empty direction_named (qq_direction q)
                then ListMessages f (s_queue s) else [])) in
          ret match msgs with
              | Err _ => fail 500 "queue_list_failed"%string
              | Ok msgs => ok_items 200 [(T "count", JNum (Z.of_nat (length msgs)))] (map IMessage msgs)
              end
      end
  end.

Definition lookupMessage (p : principal) (id : text) : M (response + message) :=
  let* m := query (fun s => GetMessage id (s_queue s)) in
  match m with
  | Err e => ret (inl (if is_sentinel ErrNotFound e then fail 404 "message_not_found"%string else fail 500 "message_read_failed"%string))
  | Ok m =>
      if negb (Scoped (p_user p)) then ret (inr m)
      else
        let* can := query (fun s => CanAccessDomainID (p_user p) (dt_domains (s_domains s)) (DomainID m)) in
        ret match can with
            | Err _ => inl (fail 500 "internal_error"%string)
            | Ok false => inl (fail 404 "message_not_found"%string)
            | Ok true => inr m
            end
  end.

Definition handleGetMessage (id : text) (p : principal) (r : request) : M response :=
  let* m := lookupMessage p id in
  ret match m with inl rs => rs | inr m => ok_items 200 [] [IMessage m] end.

(** The reply's body is copied from the spool: what was read when reading fails. *)
Definition handleRawMessage (id : text) (p : principal) (r : request) : M response :=
  let* m := lookupMessage p id in
  match m with
  | inl rs => ret rs
  | inr m =>
      let* logged := audit (Some p) r (Event "admin_read_message"%string (Some (DomainID m)) (Some (ID m)) (Some (UID (p_user p)))
        [(T "ip", JStr (clientIP r)); (T "from", JStr (EnvelopeFrom m)); (T "to", JStrs (EnvelopeTo m))]) in
      match logged with
      | Err _ => ret (fail 503 "audit_failed"%string)
      | Ok _ =>
          let* body := blob_Get (ID m) in
          ret match body with
              | Err _ => fail 404 "spool_read_failed"%string
              | Ok body => ok_items 200 [] [IRaw m body]
              end
      end
  end.

Definition handleRetryMessage (id : text) (p : principal) (r : request) : M response :=
  let* m := lookupMessage p id in
  match m with
  | inl rs => ret rs
  | inr m =>
      let* now := now_ in
      let* done_ := on_queue (RetryNow (ID m) now) in
      match done_ with
      | Err e => ret (if is_sentinel ErrNotFound e then fail 409 "message_delivering"%string else fail 500 "retry_failed"%string)
      | Ok _ =>
          audit (Some p) r (Event "admin_retry_message"%string (Some (DomainID m)) (Some (ID m)) (Some (UID (p_user p))) []) ;;;
          ret (ok 200 [(T "status", JStr "queued for immediate delivery"%string)])
      end
  end.

Definition handleDeleteMessage (id : text) (p : principal) (r : request) : M response :=
  let* m := lookupMessage p id in
  match m with
  | inl rs => ret rs
  | inr m =>
      if bool_decide (MStatus m = StatusDelivering) then ret (fail 409 "message_delivering"%string)
      else
        audit (Some p) r (Event "admin_delete_message"%string (Some (DomainID m)) (Some (ID m)) (Some (UID (p_user p)))
          [(T "from", JStr (EnvelopeFrom m)); (T "to", JStrs (EnvelopeTo m)); (T "subject", JStr (Subject m))]) ;;;
        let* done_ := on_queue (DeleteMessage (ID m)) in
        match done_ with
        | Err _ => ret (fail 500 "message_delete_failed"%string)
        | Ok _ => blob_Delete (ID m) ;;; ret (ok 200 [(T "deleted", JStr (ID m))])
        end
  end.

(** ** Events *)

Definition named (names : list (Z * text)) (id : option Z) : text :=
  match id with
  | None => []
  | Some id => match find (fun kv => fst kv =? id) names with Some (_, n) => n | None => [] end
  end.

(** [nameEvents]. *)
Definition nameEvents (events : list event_row) : M (list item) :=
  let* users := query (fun s => Ok (ListUsers (s_users s))) in
  let* domains := query (fun s => Ok (ListDomains (dt_domains (s_domains s)))) in
  let users := match users with Ok l => map (fun u => (UID u, Email u)) l | Err _ => [] end in
  let domains := match domains with Ok l => map (fun d => (DID d, DName d)) l | Err _ => [] end in
  ret (map (fun e => IEvent e (named users (EUserID (ev_event e))) (named domains (EDomainID (ev_event e)))) events).

Definition handleListEvents (limit : text) (p : principal) (r : request) : M response :=
  let* allowed := query (fun s => Ok (allowedDomainIDsForUser (Some (p_user p)) (dt_domains (s_domains s)))) in
  match allowed with
  | Err _ => ret (fail 500 "internal_error"%string)
  | Ok allowed =>
      let limit := queryInt limit 100 in
      let* events := query (fun s => Ok (match allowed with
        | Some ids => ListEventsForDomains ids limit (s_events s)
        | None => ListEvents limit (s_events s) end)) in
      match events with
      | Err _ => ret (fail 500 "internal_error"%string)
      | Ok events => let* items := nameEvents events in ret (ok_items 200 [] items)
      end
  end.

(** ** Live events *)

Definition nodeWideLiveEvents : list text := [T "maintenance"; EventQueueFull].

Definition payload_text (k : text) (payload : jmap) : text :=
  match find (fun kv => bool_decide (fst kv = k)) payload with Some (_, JStr s) => s | _ => [] end.

Definition liveVisible (u : option User) (ev : text * jmap) : M bool :=
  match u with
  | None => ret true
  | Some u =>
      if negb (Scoped u) then ret true
      else
        let name := payload_text "domain"%string (snd ev) in
        let id := payload_text "id"%string (snd ev) in
        if negb (bool_decide (name = [])) then ret (CanAccessDomain u name)
        else if negb (bool_decide (id = [])) then
          let* m := query (fun s => GetMessage id (s_queue s)) in
          match m with
          | Err _ => ret false
          | Ok m =>
              let* can := query (fun s => CanAccessDomainID u (dt_domains (s_domains s)) (DomainID m)) in
              ret match can with Ok b => b | Err _ => false end
          end
        else ret (bool_decide (fst ev ∈ nodeWideLiveEvents))
  end.

(** ** Submission accounts *)

Record smtpUserRequest := {
  sq_Username : text;
  sq_Password : text;
  sq_AllowedDomains : list text;
  sq_Enabled : option bool
}.

Definition account_item (u : SMTPUser) : item := IAccount (SID u) (Username u) (SAllowedDomains u) (SEnabled u).

Definition handleListSMTPUsers (p : principal) (r : request) : M response :=
  let* users := query (fun s => Ok (ListSMTPUsers (s_smtp_users s))) in
  ret match users with
      | Err _ => fail 500 "smtp_user_list_failed"%string
      | Ok users => ok_items 200 [] (map account_item users)
      end.

(** The domains an account may send as must be configured. *)
Fixpoint all_configured (names : list text) : M bool :=
  match names with
  | [] => ret true
  | n :: names =>
      let* d := query (fun s => DomainByName n (dt_domains (s_domains s))) in
      match d with Ok _ => all_configured names | Err _ => ret false end
  end.

Definition valid_username (username : text) : bool :=
  negb (bool_decide (username = [])) && negb (contains_any [SP; TAB; CR; LF] username).

Definition handleCreateSMTPUser (body : option smtpUserRequest) (p : principal) (r : request) : M response :=
  match body with
  | None => ret (fail 400 "invalid_body"%string)
  | Some req =>
      let username := trim_space (sq_Username req) in
      if negb (valid_username username) then ret (fail 400 "invalid_username"%string)
      else if bool_decide (is_Some (ValidatePassword (sq_Password req))) then ret (fail 400 "invalid_password"%string)
      else
        let* known := all_configured (sq_AllowedDomains req) in
        if negb known then ret (fail 400 "domain_not_found"%string)
        else
          let* salt := random_bytes saltLen in
          match HashPassword salt (sq_Password req) with
          | Err _ => ret (fail 500 "smtp_user_create_failed"%string)
          | Ok hash =>
              let* now := now_ in
              let* created := on_smtp_users (CreateSMTPUser username hash (sq_AllowedDomains req) now) in
              match created with
              | Err e => ret (if unique_error e then fail 409 "smtp_user_already_exists"%string else fail 500 "smtp_user_create_failed"%string)
              | Ok id =>
                  audit (Some p) r (Event "smtp_user_created"%string None None (Some (UID (p_user p)))
                    [(T "username", JStr username); (T "allowed_domains", JStrs (sq_AllowedDomains req))]) ;;;
                  ret (ok_items 201 [] [IAccount id username (sq_AllowedDomains req) true])
              end
          end
  end.

Definition handleUpdateSMTPUser (segment : text) (body : option smtpUserRequest) (p : principal) (r : request) : M response :=
  match pathID segment with
  | None => ret (fail 400 "invalid_account_id"%string)
  | Some id =>
      match body with
      | None => ret (fail 400 "invalid_body"%string)
      | Some req =>
          match sq_Enabled req with
          | None => ret (fail 400 "smtp_user_immutable_password"%string)
          | Some enabled =>
              let* done_ := on_smtp_users (SetSMTPUserEnabled id enabled) in
              ret match done_ with
                  | Err e => if is_sentinel ErrNotFound e then fail 404 "account_not_found"%string
                             else fail 500 "smtp_user_update_failed"%string
                  | Ok _ => ok 200 [(T "id", JNum id); (T "enabled", JBool enabled)]
                  end
          end
      end
  end.

Definition handleDeleteSMTPUser (segment : text) (p : principal) (r : request) : M response :=
  match pathID segment with
  | None => ret (fail 400 "invalid_account_id"%string)
  | Some id =>
      let* done_ := on_smtp_users (DeleteSMTPUser id) in
      match done_ with
      | Err e => ret (if is_sentinel ErrNotFound e then fail 404 "account_not_found"%string
                      else fail 500 "smtp_user_delete_failed"%string)
      | Ok _ =>
          audit (Some p) r (Event "smtp_user_deleted"%string None None (Some (UID (p_user p))) [(T "id", JNum id)]) ;;;
          ret (ok 200 [(T "deleted", JNum id)])
      end
  end.

(** ** The routes *)

(** A request to one of the pages: the path segments, queries and decoded bodies. *)
Inductive page :=
| PageDomains
| PageDomain (segment : text)
| PageNewDomain (body : option domainRequest)
| PageChangeDomain (segment : text) (body : option domainRequest)
| PageDropDomain (segment force : text)
| PageTestDomain (segment : text)
| PageRecipients (segment : text)
| PageSetRecipients (segment : text) (body : option (list text))
| PageQueue (q : queueQuery)
| PageMessage (id : text)
| PageRaw (id : text)
| PageRetry (id : text)
| PageDropMessage (id : text)
| PageEvents (limit : text)
| PageAccounts
| PageNewAccount (body : option smtpUserRequest)
| PageChangeAccount (segment : text) (body : option smtpUserRequest)
| PageDropAccount (segment : text).

(** The pages of this file behind their guards; the whole table of routes is in [Server]. *)
Definition serve (pg : page) : request -> M response :=
  match pg with
  | PageDomains => authed handleListDomains
  | PageDomain seg => authed (handleGetDomain seg)
  | PageNewDomain body => admin (handleCreateDomain body)
  | PageChangeDomain seg body => admin (handleUpdateDomain seg body)
  | PageDropDomain seg force => admin (handleDeleteDomain seg force)
  | PageTestDomain seg => operator (handleTestDomain seg)
  | PageRecipients seg => authed (handleGetRecipients seg)
  | PageSetRecipients seg body => admin (handleSetRecipients seg body)
  | PageQueue q => authed (handleListQueue q)
  | PageMessage id => authed (handleGetMessage id)
  | PageRaw id => operator (handleRawMessage id)
  | PageRetry id => operator (handleRetryMessage id)
  | PageDropMessage id => operator (handleDeleteMessage id)
  | PageEvents limit => authed (handleListEvents limit)
  | PageAccounts => fleetWide handleListSMTPUsers
  | PageNewAccount body => admin (handleCreateSMTPUser body)
  | PageChangeAccount seg body => admin (handleUpdateSMTPUser seg body)
  | PageDropAccount seg => admin (handleDeleteSMTPUser seg)
  end.
End pages.
