(* ===== verification/PagesProps.v ===== *)
(** * The pages: what a handler shows a limited account, and what the domain pages store *)

From S2P Require Import Prelude GoStrings Base64 Times Net Errors StoreTypes StoreQueue QueueFacts QueueProps.
From S2P Require Import StoreDomains DomainProps StoreUsers Auth SmtpClient RateLimit World Health Api ApiProps Account AccountProps Pages.
From Stdlib Require Import QArith.
Open Scope Z_scope.

(** ** What an account may see *)

(** The domain [id] exists and the account may see it. *)
Definition within (u : User) (ds : list domain) (id : Z) : Prop :=
  exists d, d ∈ ds /\ DID d = id /\ CanAccessDomain u (DName d) = true.

Definition visible (u : User) (ds : list domain) (i : item) : Prop :=
  match i with
  | IDomain d => d ∈ ds /\ CanAccessDomain u (DName d) = true
  | IMessage m | IRaw m _ => within u ds (DomainID m)
  | IEvent e _ _ => exists id, EDomainID (ev_event e) = Some id /\ within u ds id
  | IRecipients id _ => within u ds id
  | IAccount _ _ _ _ => Scoped u = false
  end.

Abbreviation domains_of s := (dt_domains (s_domains s)).

(** A row of the queue the account may not see is as it was, and so is the text of its message. *)
Definition hidden_stays (u : User) (s s' : state) : Prop :=
  forall r, ~ within u (domains_of s) (DomainID (q_msg r)) ->
    (r ∈ s_queue s' <-> r ∈ s_queue s) /\ (r ∈ s_queue s -> s_blobs s' !! row_id r = s_blobs s !! row_id r).

(** The configuration the pages write. *)
Definition settings (s : state) := (s_domains s, s_recipients s, s_smtp_users s).

Record confined (u : User) (s : state) (rs : response) (s' : state) : Prop := {
  cf_shown : Forall (visible u (domains_of s)) (rs_items rs);
  cf_hidden : hidden_stays u s s';
  cf_settings : settings s' = settings s
}.

Definition touched (s : state) := (settings s, s_queue s, s_blobs s).

Lemma touched_confined u s rs s' :
  touched s' = touched s -> Forall (visible u (domains_of s)) (rs_items rs) -> confined u s rs s'.
Proof.
  intros E Hv. injection E as Hd Hr Ha Hq Hb. split; [done| |by unfold settings; congruence].
  intros r _. by rewrite Hq, Hb.
Qed.

Lemma refused_confined u s rs : rs_items rs = [] -> confined u s rs s.
Proof. intros E. apply touched_confined; [done|]. rewrite E. constructor. Qed.

Lemma asked_touched s s1 : asked s s1 -> touched s1 = touched s.
Proof. intros (now & us & -> & _). by destruct s. Qed.

Lemma confined_asked u s s1 rs s' : asked s s1 -> confined u s1 rs s' -> confined u s rs s'.
Proof.
  intros Ha%asked_touched. injection Ha as Hd Hr Hac Hq Hb. intros [Hv Hh Hs].
  unfold hidden_stays in *. rewrite Hd, Hq, Hb in *. split; [done|exact Hh|]. rewrite Hs. unfold settings. congruence.
Qed.

(** ** The pieces of the pages *)

Lemma DomainByID_Ok id ds d : DomainByID id ds = Ok d -> d ∈ ds /\ DID d = id.
Proof.
  unfold DomainByID. destruct (find _ _) as [e|] eqn:E; [|done]. intros [= ->].
  apply find_some in E as [Hin%list_elem_of_In Hid]. bools. auto.
Qed.

Lemma CanAccessDomainID_within u ds id :
  Scoped u = true -> CanAccessDomainID u ds id = Ok true -> within u ds id.
Proof.
  unfold CanAccessDomainID. intros -> H. cbn in H. destruct (DomainByID id ds) as [d|] eqn:E; [|done].
  apply DomainByID_Ok in E as [Hin Hid]. injection H as H. exists d. auto.
Qed.

Lemma domainsForUser_in u ds d :
  d ∈ domainsForUser (Some u) ds -> d ∈ ds /\ CanAccessDomain u (DName d) = true.
Proof.
  unfold domainsForUser, ListDomains, CanAccessDomain. destruct (Scoped u); cbn [negb].
  2: { rewrite (merge_sort_Permutation name_le ds). auto. }
  rewrite elem_of_List_filter, (merge_sort_Permutation name_le ds). intros [H Hd]. bools. split; [done|].
  apply elem_of_map in H as (a & Ha & Hin). apply existsb_elem. exists a. unfold equal_fold.
  by rewrite bool_decide_eq_true_2.
Qed.

Lemma allowed_within u ds ids id :
  allowedDomainIDsForUser (Some u) ds = Some ids -> id ∈ ids -> within u ds id.
Proof.
  unfold allowedDomainIDsForUser. destruct (Scoped u) eqn:Es; cbn [negb]; [|done]. intros [= <-] (d & -> & Hd)%elem_of_map.
  apply domainsForUser_in in Hd as [Hin Ha]. exists d. auto.
Qed.

Section pages.
Context `{SmtpLib} `{PasswordCrypto} (cfg : PagesConfig).

Lemma wp_lookupDomain md p seg Q s :
  (forall rs, rs_items rs = [] -> Q (inl rs) s) ->
  (forall d, d ∈ domains_of s -> CanAccessDomain (p_user p) (DName d) = true -> Q (inr d) s) ->
  wp md (lookupDomain p seg) Q s.
Proof.
  intros Hno Hd. unfold lookupDomain. destruct (pathID seg) as [id|]; [|by apply wp_ret, Hno].
  assert (Herr : forall e, Q (if is_sentinel ErrNotFound e then inl (fail 404 "domain_not_found"%string)
                              else inl (fail 500 "domain_read_failed"%string)) s)
    by (intros e; destruct (is_sentinel _ _); by apply Hno).
  apply wp_bind, wp_query; [intros; by apply wp_ret|].
  destruct (DomainByID id _) as [d|] eqn:E; [|by apply wp_ret]. apply wp_ret.
  apply DomainByID_Ok in E as [Hin _]. destruct (CanAccessDomain _ _) eqn:Ea; [by apply Hd|by apply Hno].
Qed.

Lemma wp_lookupMessage md p id Q s :
  Scoped (p_user p) = true ->
  (forall rs, rs_items rs = [] -> Q (inl rs) s) ->
  (forall row, lookup_row id (s_queue s) = Some row -> within (p_user p) (domains_of s) (DomainID (q_msg row)) ->
     Q (inr (q_msg row)) s) ->
  wp md (lookupMessage p id) Q s.
Proof.
  intros Hs Hno Hm. unfold lookupMessage.
  apply wp_bind, wp_query; [intros; apply wp_ret; destruct (is_sentinel _ _); by apply Hno|].
  unfold GetMessage. destruct (lookup_row id (s_queue s)) as [row|] eqn:E.
  2: { apply wp_ret. by apply Hno. }
  rewrite Hs. cbn [negb]. apply wp_bind, wp_query; [intros; by apply wp_ret, Hno|].
  destruct (CanAccessDomainID _ _ _) as [[|]|] eqn:Ea; apply wp_ret; [|by apply Hno..].
  eauto using CanAccessDomainID_within.
Qed.

Lemma keeps_domainJSON d : keeps touched (domainJSON d).
Proof. unfold domainJSON. keeps. Qed.

Lemma wp_domain_items md ds Q s :
  (forall s', touched s' = touched s -> Q (map IDomain ds) s') -> wp md (domain_items ds) Q s.
Proof.
  revert Q s. induction ds as [|d ds IH]; intros Q s HQ; cbn; [by apply wp_ret, HQ|].
  apply (wp_frame touched); [apply keeps_domainJSON|]. intros body s1 E1.
  apply wp_bind, IH. intros s2 E2. apply wp_ret, HQ. congruence.
Qed.

(** ** Reading pages *)

Lemma wp_handleListDomains md p r s : wp md (handleListDomains p r) (confined (p_user p) s) s.
Proof.
  unfold handleListDomains. apply wp_bind, wp_query; [intros; by apply wp_ret, refused_confined|].
  apply wp_bind, wp_domain_items. intros s' E. apply wp_ret, touched_confined; [done|].
  apply Forall_map, Forall_forall. intros d. apply domainsForUser_in.
Qed.

Lemma wp_handleGetDomain md seg p r s : wp md (handleGetDomain seg p r) (confined (p_user p) s) s.
Proof.
  unfold handleGetDomain, domain_reply. apply wp_bind, wp_lookupDomain.
  - intros rs E. by apply wp_ret, refused_confined.
  - intros d Hd Ha. apply (wp_frame touched); [apply keeps_domainJSON|]. intros body s1 E1.
    apply wp_ret, touched_confined; [done|]. constructor; [done|constructor].
Qed.

Lemma wp_handleTestDomain md seg p r s : wp md (handleTestDomain cfg seg p r) (confined (p_user p) s) s.
Proof.
  unfold handleTestDomain. apply wp_bind, wp_lookupDomain; [intros rs E; by apply wp_ret, refused_confined|].
  intros d _ _. apply (wp_frame touched); [unfold Probe; keeps|]. intros e s1 E1.
  apply wp_ret, touched_confined; [done|]. destruct e; constructor.
Qed.

Lemma wp_handleGetRecipients md seg p r s : wp md (handleGetRecipients seg p r) (confined (p_user p) s) s.
Proof.
  unfold handleGetRecipients. apply wp_bind, wp_lookupDomain; [intros rs E; by apply wp_ret, refused_confined|].
  intros d Hd Ha. apply wp_bind, wp_query; [intros; by apply wp_ret, refused_confined|].
  apply wp_ret, touched_confined; [done|]. constructor; [|constructor]. by exists d.
Qed.

(** A listing narrowed to an account's domains has only their messages. *)
Lemma listing_rows allowed domain_id id ids f r :
  listing_scope (Some allowed) domain_id = Some (id, ids) -> lf_DomainID f = id -> lf_DomainIDs f = ids ->
  list_where f r = true -> DomainID (q_msg r) ∈ allowed.
Proof.
  intros Hscope Hid Hids Hw. unfold listing_scope in Hscope. cbn zeta in Hscope. destruct (0 <? _) eqn:E0.
  - case_bool_decide as Hin; [|done]. injection Hscope as <- <-. rewrite (list_where_domain _ _ _ Hid); [done| |done].
    destruct (0 <? domain_id); bools; lia.
  - injection Hscope as <- <-. eapply list_where_domains; [|done|done].
    destruct (0 <? domain_id) eqn:E1; [|done]. bools. lia.
Qed.

Lemma listing_within u ds domain_id id ids f q m :
  Scoped u = true -> listing_scope (allowedDomainIDsForUser (Some u) ds) domain_id = Some (id, ids) ->
  lf_DomainID f = id -> lf_DomainIDs f = ids -> m ∈ ListMessages f q -> within u ds (DomainID m).
Proof.
  intros Hs Hscope Hid Hids (r & _ & <- & Hw)%ListMessages_in.
  destruct (allowedDomainIDsForUser (Some u) ds) as [allowed|] eqn:Ea.
  - apply (allowed_within _ _ _ _ Ea). by eapply listing_rows.
  - unfold allowedDomainIDsForUser in Ea. by rewrite Hs in Ea.
Qed.

Lemma wp_handleListQueue md q p r s :
  Scoped (p_user p) = true -> wp md (handleListQueue q p r) (confined (p_user p) s) s.
Proof.
  intros Hs. unfold handleListQueue. apply wp_bind, wp_query; [intros; by apply wp_ret, refused_confined|].
  destruct (listing_scope _ _) as [[id ids]|] eqn:El; [|by apply wp_ret, refused_confined].
  apply wp_bind, wp_query; [intros; by apply wp_ret, refused_confined|].
  apply wp_ret, touched_confined; [done|]. apply Forall_map, Forall_forall. intros m.
  destruct (_ && _); [|set_solver]. by eapply listing_within.
Qed.

Lemma wp_handleGetMessage md id p r s :
  Scoped (p_user p) = true -> wp md (handleGetMessage id p r) (confined (p_user p) s) s.
Proof.
  intros Hs. unfold handleGetMessage. apply wp_bind, wp_lookupMessage; [done|..].
  - intros rs E. by apply wp_ret, refused_confined.
  - intros row _ Hw. apply wp_ret, touched_confined; [done|]. by constructor.
Qed.

Lemma wp_handleRawMessage md id p r s :
  Scoped (p_user p) = true -> wp md (handleRawMessage id p r) (confined (p_user p) s) s.
Proof.
  intros Hs. unfold handleRawMessage. apply wp_bind, wp_lookupMessage; [done|..].
  - intros rs E. by apply wp_ret, refused_confined.
  - intros row _ Hw. apply (wp_frame touched); [by apply keeps_audit|]. intros logged s1 E1.
    destruct logged; [|by apply wp_ret, touched_confined].
    apply (wp_frame touched); [apply keeps_blob_Get|]. intros body s2 E2. apply wp_ret, touched_confined; [congruence|].
    destruct body; [by constructor|constructor].
Qed.

Lemma wp_handleListEvents md limit p r s :
  Scoped (p_user p) = true -> wp md (handleListEvents limit p r) (confined (p_user p) s) s.
Proof.
  intros Hs. unfold handleListEvents. apply wp_bind, wp_query; [intros; by apply wp_ret, refused_confined|].
  apply wp_bind, wp_query; [intros; by apply wp_ret, refused_confined|].
  destruct (allowedDomainIDsForUser _ _) as [ids|] eqn:Ea.
  2: { unfold allowedDomainIDsForUser in Ea. by rewrite Hs in Ea. }
  set (events := ListEventsForDomains _ _ _).
  assert (Hv : forall us dns, Forall (visible (p_user p) (domains_of s)) (map (fun e => IEvent e (us e) (dns e)) events)).
  { intros us dns. apply Forall_map, Forall_forall. intros e He. unfold events, ListEventsForDomains in He.
    destruct ids as [|i ids]; [set_solver|]. apply subseteq_take, elem_of_rev, elem_of_List_filter in He as [Hd _].
    destruct (EDomainID (ev_event e)) as [d|] eqn:Ed; [|done]. bools. exists d. split; [done|]. by eapply allowed_within. }
  unfold nameEvents. apply wp_bind, wp_bind, wp_query; intros; apply wp_bind, wp_query; intros;
    apply wp_ret, wp_ret, touched_confined; try done; apply Hv.
Qed.

(** ** Writing pages a scoped account has: retry and delete a message *)

(** Changing only the rows with the identifier of a message the account sees. *)
Lemma hidden_update u s p f row rs s' :
  unique_ids (s_queue s) -> row ∈ s_queue s -> within u (domains_of s) (DomainID (q_msg row)) ->
  (forall x, p x = true -> row_id x = row_id row) ->
  (forall x, DomainID (q_msg (f x)) = DomainID (q_msg x)) ->
  s_queue s' = s_queue s \/ s_queue s' = update_where p f (s_queue s) \/ s_queue s' = delete_where p (s_queue s) ->
  settings s' = settings s -> (forall id, id <> row_id row -> s_blobs s' !! id = s_blobs s !! id) ->
  rs_items rs = [] -> confined u s rs s'.
Proof.
  intros Hu Hrow Hw Hp Hf Hq Hset Hblobs Hrs. split; [rewrite Hrs; constructor| |done]. intros r Hr.
  assert (Hsame : forall x, x ∈ s_queue s -> row_id x = row_id row -> x <> r).
  { intros x Hx Hid ->. by rewrite (unique_ids_eq _ r row Hu Hx Hrow Hid) in Hr. }
  assert (Hpr : r ∈ s_queue s -> p r = false).
  { intros Hin. destruct (p r) eqn:E; [|done]. by destruct (Hsame r Hin (Hp r E)). }
  split; [|intros Hin; apply Hblobs; intros Hid; by apply (Hsame r)].
  destruct Hq as [-> |[-> | ->]]; [done|..].
  - rewrite elem_of_update_where. split.
    + intros (x & Hx & ->). destruct (p x) eqn:E; [|done]. destruct Hr. rewrite Hf.
      by rewrite (unique_ids_eq _ x row Hu Hx Hrow (Hp x E)).
    + intros Hin. exists r. by rewrite (Hpr Hin).
  - rewrite elem_of_delete_where. naive_solver.
Qed.

Lemma wp_handleRetryMessage md id p r s :
  Scoped (p_user p) = true -> unique_ids (s_queue s) -> wp md (handleRetryMessage id p r) (confined (p_user p) s) s.
Proof.
  intros Hs Hu. unfold handleRetryMessage. apply wp_bind, wp_lookupMessage; [done|..].
  - intros rs E. by apply wp_ret, refused_confined.
  - intros row [Hin <-]%lookup_row_Some Hw. apply wp_bind, wp_now. intros now _. apply wp_bind, wp_on_queue.
    + intros e _. apply wp_ret, touched_confined; [by destruct s|]. destruct (is_sentinel _ _); constructor.
    + unfold RetryNow, exec_update. set (p0 := retryable _). set (f := on_msg _). cbn [s_queue set_s_now].
      assert (Hc : forall rs s', touched s' = (settings s, update_where p0 f (s_queue s), s_blobs s) -> rs_items rs = [] ->
                     confined (p_user p) s rs s').
      { intros rs s' E Hrs. injection E as E1 E2 E3 E4 E5.
        eapply (hidden_update _ _ p0 f row); eauto; [|unfold settings; congruence|by rewrite E5].
        unfold p0, retryable, by_id. intros x Hx. by bools. }
      destruct (_ =? 0).
      * apply wp_ret. apply Hc; [done|]. by destruct (is_sentinel _ _).
      * apply (wp_frame touched); [by apply keeps_audit|]. intros a s1 E1. apply wp_ret, Hc; [by rewrite E1|done].
Qed.

Lemma wp_handleDeleteMessage md id p r s :
  Scoped (p_user p) = true -> unique_ids (s_queue s) -> wp md (handleDeleteMessage id p r) (confined (p_user p) s) s.
Proof.
  intros Hs Hu. unfold handleDeleteMessage. apply wp_bind, wp_lookupMessage; [done|..].
  - intros rs E. by apply wp_ret, refused_confined.
  - intros row [Hin <-]%lookup_row_Some Hw. case_bool_decide; [by apply wp_ret, refused_confined|].
    apply (wp_frame touched); [by apply keeps_audit|]. intros a s1 E1. injection E1 as E1 E2 E3 E4 E5.
    assert (Hc : forall rs s', settings s' = settings s -> s_queue s' = s_queue s \/ s_queue s' = delete_where (by_id (row_id row)) (s_queue s) ->
       s_blobs s' = s_blobs s \/ s_blobs s' = delete (row_id row) (s_blobs s) -> rs_items rs = [] -> confined (p_user p) s rs s').
    { intros rs s' Hset Hq Hb Hrs.
      eapply (hidden_update _ _ (by_id (row_id row)) id row); [done..|intros x Hx|done|tauto|done| |done].
      - unfold by_id in Hx. by bools.
      - intros i Hi. destruct Hb as [-> | ->]; [done|]. by rewrite lookup_delete_ne. }
    assert (Hset1 : settings s1 = settings s) by (unfold settings; congruence).
    apply wp_bind, wp_on_queue.
    + intros e _. apply wp_ret, Hc; auto.
    + unfold DeleteMessage. rewrite E4.
      destruct (_ =? 0); [apply wp_ret, Hc; auto|]. apply wp_bind, wp_blob_Delete.
      * intros e _. apply wp_ret, Hc; auto.
      * intros _. apply wp_ret, Hc; auto. right. cbn. by rewrite E5.
Qed.

(** ** What the pages store *)

Record domain_valid (d : domain) : Prop := {
  dv_name : contains_any " @/\"%string (DName d) = false;
  dv_host : PrimaryHost d <> [] /\ trimmed (PrimaryHost d);
  dv_loop : pg_hostname cfg <> [] -> equal_fold (PrimaryHost d) (pg_hostname cfg) = false;
  dv_port : 1 <= PrimaryPort d <= 65535;
  dv_tls : ValidTLSMode (PrimaryTLS d) = true;
  dv_retention : 1 <= RetentionHours d <= 24 * 30;
  dv_limit : match MonthlySendLimit d with Some n => 0 < n | None => True end
}.

Definition tables_valid (t : domain_tables) : Prop := domains_wf t /\ Forall domain_valid (dt_domains t).

(** No domain that is in both has another name. *)
Definition same_names (t t' : domain_tables) : Prop :=
  forall d d', d ∈ dt_domains t -> d' ∈ dt_domains t' -> DID d' = DID d -> DName d' = DName d.

Lemma same_names_refl t : domains_wf t -> same_names t t.
Proof. intros Hwf d d' Hd Hd' E. by rewrite (NoDup_map_unique DID _ d' d (dw_ids _ Hwf)). Qed.

(** The name a request gives, as it is checked. *)
Definition asked_name (req : domainRequest) : text := to_lower (trim_suffix "."%string (trim_space (dq_Name req))).

Definition named_well (n : text) : Prop := n <> [] /\ "."%char ∈ n /\ forall c, c ∈ n -> c ∉ T " @/\".

(** A domain that was not there before has the name the request asked for, which passed the
    checks, as the store normalises it: without one more dot at its end. *)
Definition new_as_asked (asked_for : option domainRequest) (t t' : domain_tables) : Prop :=
  forall d, d ∈ dt_domains t' -> DID d ∈ map DID (dt_domains t) \/
    exists req, asked_for = Some req /\ named_well (asked_name req) /\
      DName d = to_lower (trim_space (trim_suffix "."%string (asked_name req))).

Lemma new_as_asked_ids asked_for t t' :
  map DID (dt_domains t') ⊆ map DID (dt_domains t) -> new_as_asked asked_for t t'.
Proof. intros Hs d Hd. left. apply Hs. by apply elem_of_map_2. Qed.

Definition stored_well (asked_for : option domainRequest) (s : state) (_ : response) (s' : state) : Prop :=
  tables_valid (s_domains s') /\ same_names (s_domains s) (s_domains s') /\
  new_as_asked asked_for (s_domains s) (s_domains s').

Lemma stored_same asked_for s rs s' :
  tables_valid (s_domains s) -> s_domains s' = s_domains s -> stored_well asked_for s rs s'.
Proof.
  intros Ht E. unfold stored_well. rewrite E. split_and!; [done|apply same_names_refl, Ht|by apply new_as_asked_ids].
Qed.

Lemma contains_any_spec cs s : contains_any cs s = false <-> forall c, c ∈ s -> c ∉ cs.
Proof.
  unfold contains_any. split.
  - intros H1 c Hc Hin. rewrite (proj2 (existsb_elem _ _)) in H1; [done|]. exists c. by rewrite bool_decide_eq_true_2.
  - intros H1. destruct (existsb _ _) eqn:E; [|done]. apply existsb_elem in E as (c & Hc & Hin). bools. by destruct (H1 c).
Qed.

Lemma contains_dot s : contains "."%string s = true -> "."%char ∈ s.
Proof. intros (l & rest & ->)%contains_spec. set_solver. Qed.

Lemma lower_char_plain c : lower_char c ∈ T " @/\" -> c ∈ T " @/\".
Proof.
  intros H1%(bool_decide_eq_true_2 _). apply (bool_decide_eq_true_1 _). revert H1.
  destruct c as [[] [] [] [] [] [] [] []]; vm_compute; done.
Qed.

Lemma plain_lower s : contains_any " @/\"%string s = false -> contains_any " @/\"%string (to_lower s) = false.
Proof.
  rewrite !contains_any_spec. intros H1 c (x & -> & Hx)%elem_of_map Hin. by destruct (H1 x Hx); apply lower_char_plain.
Qed.

Lemma plain_normalized s : contains_any " @/\"%string s = false -> contains_any " @/\"%string (normalizeDomain s) = false.
Proof.
  intros H1. apply plain_lower. rewrite contains_any_spec in *. intros c Hc%trim_space_elem. apply H1.
  unfold trim_suffix in Hc. destruct (has_suffix _ _); [by apply subseteq_take in Hc|done].
Qed.

(** A check that did not refuse. *)
Ltac passed E := match goal with |- (if ?b then _ else _) = _ -> _ => destruct b eqn:E; [done|] end.

(** The checks of a request, on a new domain or one that is stored. *)
Lemma domainFromRequest_valid req existing d :
  match existing with Some e => domain_valid e | None => True end -> domainFromRequest cfg req existing = inr d ->
  domain_valid d /\ match existing with
                    | Some e => DID d = DID e
                    | None => DName d = asked_name req /\ named_well (asked_name req)
                    end.
Proof.
  intros He. unfold domainFromRequest. set (base := match existing with Some e => Domain _ _ _ _ _ _ _ _ _ _ _ | None => _ end). cbv zeta.
  assert (Hl : match MonthlySendLimit base with Some n => 0 < n | None => True end)
    by (destruct existing; [apply He|done]).
  assert (Htrim : trimmed (PrimaryHost base)) by (destruct existing; [apply He|done]).
  assert (Hid : match existing with Some e => DID base = DID e | None => DName base = [] end) by by destruct existing.
  passed E0. passed E1. passed E2. passed E3. passed E4. passed E5. passed E6.
  intros [= <-]. unfold valid_name in E1. bools. split.
  2: { destruct existing; [done|]. cbn [DName]. destruct (bool_decide_reflect (dq_Name req = [])); [congruence|].
       split; [done|]. split_and!; [done| |].
       - by apply contains_dot.
       - by apply contains_any_spec. }
  split; cbn; try done; try lia.
  - split; [done|]. case_bool_decide; [done|apply trim_space_trimmed].
  - intros Hh. apply andb_false_iff in E6 as [E6|E6]; bools; done.
  - destruct (dq_MonthlySendLimit req) as [n|]; [|done]. destruct (n <=? 0) eqn:En; bools; [done|lia].
Qed.

Lemma CreateDomain_valid req d now t :
  tables_valid t -> domain_valid d -> DName d = asked_name req -> named_well (asked_name req) ->
  let t' := snd (CreateDomain d now t) in
  tables_valid t' /\ same_names t t' /\ new_as_asked (Some req) t t'.
Proof.
  intros [Hwf Hv] Hd Hname Hwell. split; [split; [by apply CreateDomain_wf|]|split].
  - unfold CreateDomain. destruct (existsb _ _); [done|]. destruct (negb _); [done|]. cbn.
    apply Forall_app. split; [done|]. constructor; [|constructor]. destruct Hd. split; cbn; try done. by apply plain_normalized.
  - unfold CreateDomain. destruct (existsb _ _); [by apply same_names_refl|]. destruct (negb _); [by apply same_names_refl|].
    cbn. intros a b Ha [Hb|Hb%list_elem_of_singleton]%elem_of_app E; [by apply (same_names_refl t)|].
    subst b. cbn in E. pose proof (dw_next _ Hwf a Ha). lia.
  - unfold CreateDomain. destruct (existsb _ _); [by apply new_as_asked_ids|]. destruct (negb _); [by apply new_as_asked_ids|].
    cbn. intros x [Hx|Hx%list_elem_of_singleton]%elem_of_app; [left; by apply elem_of_map_2|right].
    exists req. split_and!; [done..|]. subst x. cbn. by rewrite Hname.
Qed.

Lemma UpdateDomain_valid asked_for d now t :
  tables_valid t -> domain_valid d ->
  let t' := DomainTables (snd (UpdateDomain d now (dt_domains t))) (dt_primary t) (dt_next t) in
  tables_valid t' /\ same_names t t' /\ new_as_asked asked_for t t'.
Proof.
  intros [Hwf Hv] Hd t'. split; [split; [by apply UpdateDomain_wf|]|split]; unfold t', UpdateDomain;
    (destruct (existsb _ _); [|by first [apply (same_names_refl t)|apply new_as_asked_ids|idtac]]);
    (destruct (negb _); [by first [apply (same_names_refl t)|apply new_as_asked_ids|idtac]|]); cbn.
  - apply Forall_map. eapply Forall_impl; [exact Hv|]. intros e He. cbn. destruct (DID e =? DID d); [|done].
    destruct Hd, He. by split.
  - intros a b Ha (e & -> & He)%elem_of_map E.
    assert (Hn : DName (if DID e =? DID d then Domain (DID e) (DName e) (PrimaryHost d) (PrimaryPort d) (PrimaryTLS d)
      (MaxQueueMessages d) (MonthlySendLimit d) (RetentionHours d) (DEnabled d) (DCreatedAt e) now else e) = DName e)
      by by destruct (DID e =? DID d).
    rewrite Hn. apply (same_names_refl t); [done..|]. rewrite <- E. by destruct (DID e =? DID d).
  - intros x (e & -> & He)%elem_of_map. left. apply elem_of_map. exists e. split; [by destruct (DID e =? DID d)|done].
Qed.

Lemma DeleteDomain_valid asked_for id t q :
  tables_valid t -> let t' := fst (snd (DeleteDomain id t q)) in
  tables_valid t' /\ same_names t t' /\ new_as_asked asked_for t t'.
Proof.
  intros [Hwf Hv] t'. split; [split; [by apply DeleteDomain_wf|]|split]; unfold t', DeleteDomain;
    (destruct (existsb _ _); [|by first [apply (same_names_refl t)|apply new_as_asked_ids|idtac]]); cbn.
  - apply Forall_forall. intros x [_ Hx]%elem_of_List_filter. by eapply Forall_forall in Hx.
  - intros a b Ha [_ Hb]%elem_of_List_filter E. by apply (same_names_refl t).
  - intros x [_ Hx]%elem_of_List_filter. left. by apply elem_of_map_2.
Qed.

Lemma keeps_lookupDomain {X} (f : state -> X) p seg : keeps f (lookupDomain p seg).
Proof. unfold lookupDomain. keeps. Qed.

Lemma keeps_lookupMessage {X} (f : state -> X) p id : keeps f (lookupMessage p id).
Proof. unfold lookupMessage. keeps. Qed.

Lemma keeps_reloadDomain {X} (f : state -> X) d : keeps f (reloadDomain d).
Proof. unfold reloadDomain. keeps. Qed.

Lemma keeps_domain_reply {X} (f : state -> X) status d : (forall s t, f (set_s_now t s) = f s) -> keeps f (domain_reply status d).
Proof. intros Hn. unfold domain_reply, domainJSON. keeps; by apply keeps_now. Qed.

Lemma keeps_delete_bodies msgs : keeps s_domains (delete_bodies msgs).
Proof. induction msgs; cbn; keeps. Qed.

Lemma keeps_all_configured names : keeps s_domains (all_configured names).
Proof. induction names; cbn; keeps. Qed.

Lemma keeps_domain_items ds : keeps s_domains (domain_items ds).
Proof. induction ds; cbn; unfold domainJSON; keeps. Qed.
End pages.

#[export] Hint Resolve keeps_lookupDomain keeps_lookupMessage keeps_reloadDomain keeps_delete_bodies keeps_all_configured
  keeps_domain_items : keeps.
#[export] Hint Extern 1 (keeps _ (domain_reply _ _)) => apply keeps_domain_reply; reflexivity : keeps.

Section stored.
Context `{SmtpLib} `{PasswordCrypto} (cfg : PagesConfig).

Lemma keeps_stored asked_for (m : M response) md s :
  keeps s_domains m -> tables_valid cfg (s_domains s) -> wp md m (stored_well cfg asked_for s) s.
Proof. intros Hk Ht. eapply wp_mono; [apply Hk|]. intros rs s' E. by apply stored_same. Qed.

(** What follows the write leaves the domains alone. *)
Lemma after_write asked_for md (m : M response) s t s1 :
  keeps s_domains m -> s_domains s1 = t ->
  tables_valid cfg t /\ same_names (s_domains s) t /\ new_as_asked asked_for (s_domains s) t ->
  wp md m (stored_well cfg asked_for s) s1.
Proof. intros Hk <- Hn. eapply wp_mono; [apply Hk|]. intros rs s' E. unfold stored_well. by rewrite E. Qed.

Lemma wp_handleCreateDomain md body p r s :
  tables_valid cfg (s_domains s) -> wp md (handleCreateDomain cfg body p r) (stored_well cfg body s) s.
Proof.
  intros Ht. unfold handleCreateDomain. destruct body as [req|]; [|by apply wp_ret, stored_same].
  destruct (domainFromRequest cfg req None) as [code|d] eqn:Ed; [by apply wp_ret, stored_same|].
  apply domainFromRequest_valid in Ed as (Hd & Hname & Hwell); [|done]. apply wp_bind, wp_now. intros now _.
  pose proof (CreateDomain_valid cfg req d now _ Ht Hd Hname Hwell) as Hv. cbv zeta in Hv.
  apply wp_bind, wp_statement; [intros e _; by apply wp_ret, stored_same|]. cbn [s_domains set_s_now].
  destruct (CreateDomain d now (s_domains s)) as [[id|e] t]; [|eapply after_write; [keeps|done..]].
  eapply after_write; [keeps|done..].
Qed.

Lemma wp_handleUpdateDomain md seg body p r s :
  tables_valid cfg (s_domains s) -> wp md (handleUpdateDomain cfg seg body p r) (stored_well cfg None s) s.
Proof.
  intros Ht. unfold handleUpdateDomain.
  apply wp_bind, wp_lookupDomain; [intros; by apply wp_ret, stored_same|]. intros e He _.
  destruct body as [req|]; [|by apply wp_ret, stored_same].
  destruct (domainFromRequest cfg req (Some e)) as [code|d] eqn:Ed; [by apply wp_ret, stored_same|].
  apply domainFromRequest_valid in Ed as [Hd _]; [|by eapply Forall_forall in He; [|apply Ht]].
  apply wp_bind, wp_now. intros now _. pose proof (UpdateDomain_valid cfg None d now _ Ht Hd) as Hv. cbv zeta in Hv.
  apply wp_bind, wp_statement; [intros; by apply wp_ret, stored_same|]. cbn [s_domains set_s_now].
  destruct (UpdateDomain d now _) as [[u|err] ds]; eapply after_write; try done; keeps.
Qed.

Lemma wp_handleDeleteDomain md seg force p r s :
  tables_valid cfg (s_domains s) -> wp md (handleDeleteDomain seg force p r) (stored_well cfg None s) s.
Proof.
  intros Ht. unfold handleDeleteDomain.
  apply wp_bind, wp_lookupDomain; [intros; by apply wp_ret, stored_same|]. intros d _ _.
  apply wp_bind, wp_query; [intros; by apply wp_ret, stored_same|].
  destruct (_ && _); [by apply wp_ret, stored_same|].
  apply (wp_frame s_domains); [keeps|]. intros msgs s1 E1. apply (wp_frame s_domains); [destruct msgs; keeps|].
  intros _ s2 E2. assert (Es : s_domains s = s_domains s2) by congruence. rewrite Es in Ht.
  pose proof (DeleteDomain_valid cfg None (DID d) _ (s_queue s2) Ht) as Hv. cbv zeta in Hv.
  apply wp_bind, wp_statement; [intros; apply wp_ret, stored_same; [by rewrite Es|done]|].
  destruct (DeleteDomain _ _ _) as [[u|err] [t q]] eqn:E.
  - eapply after_write; [keeps|reflexivity|]. rewrite Es. exact Hv.
  - eapply after_write; [keeps|reflexivity|]. rewrite Es. split_and!; [done|apply same_names_refl, Ht|by apply new_as_asked_ids].
Qed.

(** ** Every page behind its guard *)

Definition page_guard (pg : page) : (User -> bool) * text :=
  match pg with
  | PageNewDomain _ | PageChangeDomain _ _ | PageDropDomain _ _ | PageSetRecipients _ _ | PageNewAccount _
  | PageChangeAccount _ _ | PageDropAccount _ =>
      (fun u => negb (bool_decide (Role u = RoleAdmin)), T "admin_required")
  | PageTestDomain _ | PageRaw _ | PageRetry _ | PageDropMessage _ =>
      (fun u => negb (bool_decide (Role u = RoleAdmin)) && negb (bool_decide (Role u = RoleOperator)), T "admin_required")
  | PageAccounts => (Scoped, T "domain_scoped")
  | _ => (fun _ => false, [])
  end.

Definition page_handler (pg : page) : principal -> request -> M response :=
  match pg with
  | PageDomains => handleListDomains
  | PageDomain seg => handleGetDomain seg
  | PageNewDomain body => handleCreateDomain cfg body
  | PageChangeDomain seg body => handleUpdateDomain cfg seg body
  | PageDropDomain seg force => handleDeleteDomain seg force
  | PageTestDomain seg => handleTestDomain cfg seg
  | PageRecipients seg => handleGetRecipients seg
  | PageSetRecipients seg body => handleSetRecipients seg body
  | PageQueue q => handleListQueue q
  | PageMessage id => handleGetMessage id
  | PageRaw id => handleRawMessage id
  | PageRetry id => handleRetryMessage id
  | PageDropMessage id => handleDeleteMessage id
  | PageEvents limit => handleListEvents limit
  | PageAccounts => handleListSMTPUsers
  | PageNewAccount body => handleCreateSMTPUser body
  | PageChangeAccount seg body => handleUpdateSMTPUser seg body
  | PageDropAccount seg => handleDeleteSMTPUser seg
  end.

Lemma wp_serve md pg r Q s :
  (forall rs s1, rs_status rs = 401 -> rs_items rs = [] -> asked s s1 -> Q rs s1) ->
  (forall p s1, known r (s_users s) p -> asked s s1 -> fst (page_guard pg) (p_user p) = true ->
     Q (fail 403 (snd (page_guard pg))) s1) ->
  (forall p s1, known r (s_users s) p -> asked s s1 -> fst (page_guard pg) (p_user p) = false ->
     wp md (page_handler pg p r) Q s1) ->
  wp md (serve cfg pg r) Q s.
Proof.
  intros Hno Href Hgo.
  assert (E : serve cfg pg r = authed (fun p r =>
    if fst (page_guard pg) (p_user p) then ret (fail 403 (snd (page_guard pg))) else page_handler pg p r) r)
    by by destruct pg.
  rewrite E. apply wp_authed; [done|]. intros p s1 Hk Ha. destruct (fst _ _) eqn:Eg; [apply wp_ret; by apply (Href p)|by apply Hgo].
Qed.

(** What a page is asked to make. *)
Definition page_new (pg : page) : option domainRequest := match pg with PageNewDomain body => body | _ => None end.

Lemma wp_page_stored md pg p r s :
  tables_valid cfg (s_domains s) -> wp md (page_handler pg p r) (stored_well cfg (page_new pg) s) s.
Proof.
  intros Ht. destruct pg; cbn [page_handler];
    try (first [by apply wp_handleCreateDomain|by apply wp_handleUpdateDomain|by apply wp_handleDeleteDomain]);
    apply keeps_stored; try done.
  - unfold handleListDomains. keeps.
  - unfold handleGetDomain. keeps.
  - unfold handleTestDomain, Probe. keeps.
  - unfold handleGetRecipients. keeps.
  - unfold handleSetRecipients, on_recipients. keeps.
  - unfold handleListQueue. keeps.
  - unfold handleGetMessage. keeps.
  - unfold handleRawMessage. keeps.
  - unfold handleRetryMessage. keeps.
  - unfold handleDeleteMessage. keeps.
  - unfold handleListEvents, nameEvents. keeps.
  - unfold handleListSMTPUsers. keeps.
  - unfold handleCreateSMTPUser, on_smtp_users. keeps.
  - unfold handleUpdateSMTPUser, on_smtp_users. keeps.
  - unfold handleDeleteSMTPUser, on_smtp_users. keeps.
Qed.

End stored.

(** C37: what the domain pages store is well formed and stays so.  Starting from tables whose
    identifiers and names are unique, with a status row for every domain, and whose domains
    all have a name without blank, at sign or slash, a trimmed primary host that is not this server,
    a port, a TLS mode, between one hour and thirty days of retention and a positive sending
    limit if any, every page of domains, queue, events and submission accounts leaves such tables, and
    no domain it leaves has changed its name.  A domain that was not there before is one that
    was asked for, under a name that is not empty, has a dot and nothing forbidden, stored
    without one more dot at its end (so that a name of dots alone, or one that ends in two,
    is stored without any). *)
Theorem domains_valid `{SmtpLib} `{PasswordCrypto} cfg pg r s e :
  tables_valid cfg (s_domains s) ->
  let '(_, w') := serve cfg pg r (World s e) in
  tables_valid cfg (s_domains (st w')) /\ same_names (s_domains s) (s_domains (st w')) /\
  new_as_asked (page_new pg) (s_domains s) (s_domains (st w')).
Proof.
  intros Ht. apply (wp_run any _ (stored_well cfg (page_new pg) s)); [apply allows_any|].
  assert (Hsame : forall s1, asked s s1 -> s_domains s1 = s_domains s) by (intros s1 (now & us & -> & _); done).
  apply wp_serve.
  - intros rs s1 _ _ Ha. apply stored_same; auto.
  - intros p s1 _ Ha _. apply stored_same; auto.
  - intros p s1 _ Ha _. eapply wp_mono; [apply wp_page_stored; by rewrite Hsame|].
    unfold stored_well. by rewrite (Hsame s1).
Qed.

(** An operator of one of two domains, signed in with the cookie [s3cret]. *)
#[local] Existing Instance Auth.sample_crypto.
#[local] Instance sample_pages_smtp : SmtpLib :=
  {| smtp_error_text := fun e => Message e; ErrAuthRequired := SMTPError 502 (Enh 5 7 0) [];
     ErrAuthFailed := SMTPError 535 (Enh 5 7 8) []; ErrAuthUnsupported := SMTPError 504 (Enh 5 7 4) [] |}.

Definition sample_pages_cfg : PagesConfig :=
  {| pg_hostname := "mx.example"%string; pg_retention := 168 * hour; pg_allowPrivate := false |}.

Definition sample_scoped : User :=
  with_scope RoleOperator [T "You.Example"] (sample_user false).

Definition sample_office : domain_tables :=
  DomainTables [Domain 1 "you.example"%string "mail.you.example"%string 25 TLSOpportunistic None None 168 true 0 0;
                Domain 2 "other.example"%string "mail.other.example"%string 25 TLSOpportunistic None (Some 9) 168 true 0 0]
    (<[1 := fresh_primary]> {[2 := fresh_primary]}) 3.

Definition sample_pages : state :=
  set_s_queue sample_queue (set_s_domains sample_office
    (set_s_users (Users [sample_scoped] 2 [SessionRow (HashToken "s3cret"%string) 1 0 (24 * hour) []] [] [] 1) (sample_accounts false))).

Definition sample_page_request : request :=
  {| rq_method := "GET"%string; rq_host := "mx.example"%string; rq_origin := []; rq_authorization := [];
     rq_cookie := Some (T "s3cret"); rq_remote := "192.0.2.7:5000"%string; rq_agent := [] |}.

Lemma sample_office_valid : tables_valid sample_pages_cfg sample_office.
Proof.
  split.
  - split; cbn; [refine (bool_decide_unpack (NoDup [1; 2]) _); vm_compute; exact I
                  |refine (bool_decide_unpack (NoDup [T "you.example"; T "other.example"]) _); vm_compute; exact I|..];
        intros d Hd; repeat (apply elem_of_cons in Hd as [->|Hd]); try by apply not_elem_of_nil in Hd.
      all: vm_compute; eauto.
    - repeat constructor; cbn; try done.
Qed.

Definition sample_new : domainRequest := Build_domainRequest "New.Example."%string "mx.new.example"%string 0 [] None None 0 None.

Lemma domains_valid_witness :
  let s := set_s_users (Users [sample_user false] 2 [SessionRow (HashToken "s3cret"%string) 1 0 (24 * hour) []] [] [] 1) sample_pages in
  let '(rs, w') := serve sample_pages_cfg (PageNewDomain (Some sample_new)) sample_page_request (World s quiet) in
  rs_status rs = 201 /\ map DName (domains_of (st w')) = [T "you.example"; T "other.example"; T "new.example"] /\
  tables_valid sample_pages_cfg (s_domains (st w')) /\ same_names sample_office (s_domains (st w')) /\
  new_as_asked (Some sample_new) sample_office (s_domains (st w')).
Proof.
  intros s.
  pose proof sample_office_valid as Ht.
  pose proof (domains_valid sample_pages_cfg (PageNewDomain (Some sample_new)) sample_page_request s quiet Ht) as H.
  assert (Hrs : let '(rs, w') := serve sample_pages_cfg (PageNewDomain (Some sample_new)) sample_page_request (World s quiet) in
                rs_status rs = 201 /\ map DName (domains_of (st w')) = [T "you.example"; T "other.example"; T "new.example"])
    by (vm_compute; auto).
  destruct (serve _ _ _ _) as [rs w']. destruct Hrs, H as (? & ? & ?). auto.
Defined.

(** The name is checked before the store normalises it: two dots pass the check and are
    stored as the empty name, and [you..] as a name without a dot. *)
Example dots_stored :
  forall name stored, (name, stored) ∈ [(T "..", T ""); (T "you..", T "you")] ->
    match domainFromRequest sample_pages_cfg (Build_domainRequest name "mail.example"%string 0 [] None None 0 None) None with
    | inl _ => False
    | inr d => map DName (dt_domains (snd (CreateDomain d 0 (DomainTables [] ∅ 1)))) = [stored]
    end.
Proof.
  intros name stored [[= -> ->]|[[= -> ->]|[]%not_elem_of_nil]%elem_of_cons]%elem_of_cons; vm_compute; reflexivity.
Qed.
