(* ===== verification/UserPages.v ===== *)
(** * The pages of accounts and tokens (internal/api/users.go, tokens.go, handlers.go)

    A reply's body is the JSON object of the sources; a field with [omitempty] is left out
    when it is empty. *)

From S2P Require Import Prelude GoStrings Times Errors StoreTypes StoreQueue StoreDomains StoreUsers Auth World.
From S2P Require Import Api Account Pages Base64 Sha UserProps RateLimit ApiProps AccountProps.
From Stdlib Require Import QArith.
Open Scope Z_scope.

(** ** JSON *)

Definition jtime (t : option Z) : jval := match t with Some t => JTime t | None => JNull end.
Definition omit_time (k : text) (t : option Z) : jmap := match t with Some t => [(k, JTime t)] | None => [] end.
Definition omit_text (k : text) (s : text) : jmap := if bool_decide (s = []) then [] else [(k, JStr s)].

Definition renderUser (u : User) : jval :=
  JObj ([(T "id", JNum (UID u)); (T "email", JStr (Email u)); (T "role", JStr (Role u));
         (T "allowed_domains", JStrs (AllowedDomains u)); (T "has_password", JBool (HasPassword u));
         (T "totp_enabled", JBool (TOTPEnabled u)); (T "is_sso", JBool (FromDirectory u));
         (T "created_at", JTime (UCreatedAt u))]
        ++ omit_time (T "last_login_at") (LastLoginAt u)).

Definition viewToken (t : APIToken) (now : Z) : jval :=
  JObj ([(T "id", JNum (TokID t)); (T "name", JStr (TokName t)); (T "prefix", JStr (TokPrefix t)); (T "role", JStr (TokRole t));
         (T "created_at", JTime (TokCreatedAt t))]
        ++ omit_time (T "expires_at") (TokExpiresAt t) ++ omit_time (T "last_used_at") (TokLastUsedAt t)
        ++ [(T "expired", JBool (Expired now t))]).

(** A reply whose body is one value. *)
Definition ok_value (status : Z) (v : jval) : response :=
  ok status (match v with JObj m => m | _ => [(T "body", v)] end).

(** ** Statements of several steps *)

(** [UpdateUserScope]: reads, then writes. *)
Definition update_scope (id : Z) (role : text) (allowed : list text) : M (result unit) :=
  let* may := query (fun s => may_change_role id role (s_users s)) in
  match may with
  | Err e => ret (Err e)
  | Ok _ => on_accounts (write_scope id role allowed)
  end.

(** [ON DELETE SET NULL] on the events. *)
Definition forget_user (id : Z) (r : event_row) : event_row :=
  let e := ev_event r in
  EventRow (ev_id r)
    (Event (EType e) (EDomainID e) (EQueueID e) (if bool_decide (EUserID e = Some id) then None else EUserID e) (EData e))
    (ev_created r).

Definition delete_user_row (id : Z) : M (result unit) :=
  statement (fun s =>
    let '(r, t) := erase_user id (s_users s) in
    match r with
    | Err e => (Err e, s)
    | Ok _ => (Ok tt, set_s_users t (set_s_events (EventTable (map (forget_user id) (et_rows (s_events s))) (et_next (s_events s))) s))
    end).

(** [DeleteUser]: the sessions go first. *)
Definition delete_user (id : Z) : M (result unit) :=
  let* may := query (fun s => may_delete id (s_users s)) in
  match may with
  | Err e => ret (Err e)
  | Ok _ =>
      let* sessions := exec_accounts (DeleteUserSessions id) in
      match sessions with
      | Err e => ret (Err e)
      | Ok _ => delete_user_row id
      end
  end.

Section users.
Context `{PasswordCrypto}.

(** ** Accounts *)

Definition handleListUsers (p : principal) (r : request) : M response :=
  let* users := query (fun s => Ok (ListUsers (s_users s))) in
  ret match users with
      | Err _ => fail 500 "user_list_failed"%string
      | Ok users => ok 200 [(T "users", JList (map renderUser users))]
      end.

Record createUserReq := { nu_Email : text; nu_Role : text; nu_Password : text; nu_AllowedDomains : list text }.

(** The hash to store: none without a password. *)
Definition new_password (password : text) : M (response + text) :=
  if bool_decide (password = []) then ret (inr [])
  else if (length password <? 8)%nat then ret (inl (fail 400 "invalid_password"%string))
  else
    let* salt := random_bytes saltLen in
    ret match HashPassword salt password with
        | Err _ => inl (fail 500 "user_creation_failed"%string)
        | Ok hash => inr hash
        end.

Definition user_data (id : Z) (u : User) : jmap :=
  [(T "user_id", JNum id); (T "email", JStr (Email u)); (T "role", JStr (Role u)); (T "allowed_domains", JStrs (AllowedDomains u))].

Definition handleCreateUser (body : option createUserReq) (p : principal) (r : request) : M response :=
  match body with
  | None => ret (fail 400 "invalid_body"%string)
  | Some req =>
      let email := to_lower (trim_space (nu_Email req)) in
      if bool_decide (email = []) || negb (contains "@"%string email) then ret (fail 400 "invalid_email"%string)
      else
        let role := if bool_decide (nu_Role req = []) then RoleViewer else nu_Role req in
        if negb (role_check role) then ret (fail 400 "invalid_role"%string)
        else
          let* existing := query (fun s => UserByEmail email (s_users s)) in
          match existing with
          | Ok _ => ret (fail 409 "user_already_exists"%string)
          | Err e =>
              if negb (is_sentinel ErrNotFound e) then ret (fail 500 "internal_error"%string)
              else
                let* hash := new_password (nu_Password req) in
                match hash with
                | inl rs => ret rs
                | inr hash =>
                    let* now := now_ in
                    let* id := on_accounts (CreateUser email hash role (nu_AllowedDomains req) now) in
                    match id with
                    | Err _ => ret (fail 500 "user_creation_failed"%string)
                    | Ok id =>
                        let* created := query (fun s => UserByID id (s_users s)) in
                        match created with
                        | Err _ => ret (fail 500 "internal_error"%string)
                        | Ok created =>
                            audit (Some p) r (user_event "user_created"%string (Some (UID (p_user p))) (user_data id created)) ;;;
                            ret (ok_value 201 (renderUser created))
                        end
                    end
                end
          end
  end.

Record updateUserReq := { uu_Role : text; uu_AllowedDomains : option (list text); uu_ResetTOTP : bool }.

Definition scope_refused (e : error) : response :=
  if is_sentinel ErrNotFound e then fail 404 "user_not_found"%string
  else if bool_decide (e = ErrLastAdmin) then fail 400 "cannot_remove_last_admin"%string
  else fail 500 "user_update_failed"%string.

(** Turning the second factor of another account off. *)
Definition reset_totp (id : Z) (target : User) (p : principal) (r : request) : M (result unit) :=
  let* off := exec_accounts (DisableTOTP id) in
  match off with
  | Err e => ret (Err e)
  | Ok _ =>
      audit (Some p) r (user_event EventTOTPReset (Some (UID (p_user p)))
        [(T "user_id", JNum id); (T "email", JStr (Email target))]) ;;;
      ret (Ok tt)
  end.

Definition change_scope (id : Z) (role : text) (allowed : list text) (p : principal) (r : request) : M response :=
  let* done_ := update_scope id role allowed in
  match done_ with
  | Err e => ret (scope_refused e)
  | Ok _ =>
      let* updated := query (fun s => UserByID id (s_users s)) in
      match updated with
      | Err _ => ret (fail 500 "internal_error"%string)
      | Ok updated =>
          audit (Some p) r (user_event "user_updated"%string (Some (UID (p_user p))) (user_data id updated)) ;;;
          ret (ok_value 200 (renderUser updated))
      end
  end.

Definition handleUpdateUser (segment : text) (body : option updateUserReq) (p : principal) (r : request) : M response :=
  match pathID segment, body with
  | None, _ => ret (fail 400 "invalid_user_id"%string)
  | _, None => ret (fail 400 "invalid_body"%string)
  | Some id, Some req =>
      let* target := query (fun s => UserByID id (s_users s)) in
      match target with
      | Err e => ret (if is_sentinel ErrNotFound e then fail 404 "user_not_found"%string else fail 500 "internal_error"%string)
      | Ok target =>
          if negb (bool_decide (uu_Role req = [])) && negb (role_check (uu_Role req)) then ret (fail 400 "invalid_role"%string)
          else
            let newRole := if bool_decide (uu_Role req = []) then Role target else uu_Role req in
            let allowed := default (AllowedDomains target) (uu_AllowedDomains req) in
            let self := UID (p_user p) =? id in
            if self && negb (bool_decide (newRole = RoleAdmin)) then ret (fail 400 "cannot_delete_self"%string)
            else if uu_ResetTOTP req && self then ret (fail 400 "own_totp_reset"%string)
            else
              let* reset := (if uu_ResetTOTP req && TOTPEnabled target then reset_totp id target p r else ret (Ok tt)) in
              match reset with
              | Err _ => ret (fail 500 "user_update_failed"%string)
              | Ok _ => change_scope id newRole allowed p r
              end
      end
  end.

Definition handleDeleteUser (segment : text) (p : principal) (r : request) : M response :=
  match pathID segment with
  | None => ret (fail 400 "invalid_user_id"%string)
  | Some id =>
      if UID (p_user p) =? id then ret (fail 400 "cannot_delete_self"%string)
      else
        let* target := query (fun s => UserByID id (s_users s)) in
        match target with
        | Err e => ret (if is_sentinel ErrNotFound e then fail 404 "user_not_found"%string else fail 500 "internal_error"%string)
        | Ok target =>
            let* done_ := delete_user id in
            match done_ with
            | Err e => ret (if is_sentinel ErrNotFound e then fail 404 "user_not_found"%string
                            else if bool_decide (e = ErrLastAdmin) then fail 400 "cannot_remove_last_admin"%string
                            else fail 500 "user_delete_failed"%string)
            | Ok _ =>
                audit (Some p) r (user_event "user_deleted"%string (Some (UID (p_user p)))
                  [(T "user_id", JNum id); (T "email", JStr (Email target))]) ;;;
                ret (ok 200 [(T "ok", JBool true)])
            end
        end
  end.
End users.

(** ** Tokens *)

Definition maxTokenTTL : Z := 365 * 24 * hour.

Record tokenRequest := { tq_Name : text; tq_Role : text; tq_ExpiresIn : text }.

Definition handleListTokens (p : principal) (r : request) : M response :=
  let* tokens := query (fun s => Ok (ListAPITokens (s_users s))) in
  match tokens with
  | Err _ => ret (fail 500 "token_list_failed"%string)
  | Ok tokens => let* now := now_ in ret (ok 200 [(T "tokens", JList (map (fun t => viewToken t now) tokens))])
  end.

(** How long the token asked for lives. *)
Definition token_ttl (expires_in : text) : option Z :=
  if bool_decide (expires_in = []) then Some maxTokenTTL
  else match ParseDuration expires_in with
       | Some d => if (d <=? 0) || (maxTokenTTL <? d) then None else Some d
       | None => None
       end.

Definition with_row (id created : Z) (k : APIToken) : APIToken :=
  {| TokID := id; TokName := TokName k; TokPrefix := TokPrefix k; TokHash := TokHash k; TokRole := TokRole k;
     CreatedBy := CreatedBy k; TokCreatedAt := created; TokExpiresAt := TokExpiresAt k; TokLastUsedAt := TokLastUsedAt k |}.

(** Storing the token of a request that passed the checks. *)
Definition mint (name role : text) (ttl : Z) (p : principal) (r : request) : M response :=
  let* now := now_ in
  let* random := random_bytes 32 in
  match NewAPIToken random with
  | Err _ => ret (fail 500 "token_create_failed"%string)
  | Ok (token, hash, prefix) =>
      let rec := {| TokID := 0; TokName := name; TokPrefix := prefix; TokHash := []; TokRole := role;
                    CreatedBy := Some (UID (p_user p)); TokCreatedAt := 0; TokExpiresAt := Some (now + ttl); TokLastUsedAt := None |} in
      let* at_ := now_ in
      let* id := on_accounts (CreateAPIToken rec hash at_) in
      match id with
      | Err _ => ret (fail 500 "token_create_failed"%string)
      | Ok id =>
          let* created := now_ in
          audit (Some p) r (user_event "api_token_created"%string (Some (UID (p_user p)))
            [(T "name", JStr name); (T "role", JStr role); (T "prefix", JStr prefix)]) ;;;
          let* shown := now_ in
          ret (ok 201 [(T "token", viewToken (with_row id created rec) shown); (T "secret", JStr token);
                       (T "notice", JStr "Copy this now. It is stored only as a hash and cannot be shown again."%string)])
      end
  end.

Definition handleCreateToken (body : option tokenRequest) (p : principal) (r : request) : M response :=
  match body with
  | None => ret (fail 400 "invalid_body"%string)
  | Some req =>
      let name := trim_space (tq_Name req) in
      if bool_decide (name = []) || (100 <? length name)%nat then ret (fail 400 "invalid_name"%string)
      else
        let role := if bool_decide (tq_Role req = []) then RoleViewer else tq_Role req in
        if negb (token_role_check role) then ret (fail 400 "invalid_role"%string)
        else if bool_decide (role = RoleAdmin) && negb (bool_decide (Role (p_user p) = RoleAdmin)) then
          ret (fail 403 "token_role_too_broad"%string)
        else match token_ttl (tq_ExpiresIn req) with
             | None => ret (fail 400 "invalid_expiration"%string)
             | Some ttl => mint name role ttl p r
             end
  end.

Definition handleDeleteToken (segment : text) (p : principal) (r : request) : M response :=
  match pathID segment with
  | None => ret (fail 400 "invalid_token_id"%string)
  | Some id =>
      let* done_ := on_accounts (DeleteAPIToken id) in
      match done_ with
      | Err e => ret (if is_sentinel ErrNotFound e then fail 404 "token_not_found"%string else fail 500 "token_delete_failed"%string)
      | Ok _ =>
          audit (Some p) r (user_event "api_token_deleted"%string (Some (UID (p_user p))) [(T "id", JNum id)]) ;;;
          ret (ok 200 [(T "deleted", JNum id)])
      end
  end.

(** ** The account that asks *)

Definition handleMe (p : principal) (r : request) : M response :=
  let u := p_user p in
  let* codes := (if TOTPEnabled u then query (fun s => Ok (Some (RecoveryCodesLeft (UID u) (s_users s)))) else ret (Ok None)) in
  ret (ok 200 ([(T "id", JNum (UID u)); (T "email", JStr (Email u)); (T "role", JStr (Role u));
                (T "allowed_domains", JStrs (AllowedDomains u)); (T "created_at", JTime (UCreatedAt u));
                (T "last_login_at", jtime (LastLoginAt u)); (T "from_directory", JBool (FromDirectory u));
                (T "has_password", JBool (HasPassword u)); (T "totp_enabled", JBool (TOTPEnabled u))]
               ++ match codes with Ok (Some n) => [(T "recovery_codes_left", JNum n)] | _ => [] end
               ++ match p_token p with
                  | Some tok => [(T "via_token", JObj [(T "id", JNum (TokID tok)); (T "name", JStr (TokName tok));
                                                       (T "role", JStr (TokRole tok)); (T "expires_at", jtime (TokExpiresAt tok))])]
                  | None => []
                  end)).

(** * Guarantees *)

(** ** The token shown once is the token that opens the door *)

Lemma token_no_space b c : c ∈ TokenPrefix ++ EncodeToString url_alphabet b -> is_space c = false.
Proof.
  intros [Hc|Hc]%elem_of_app.
  - assert (Hall : forallb (fun c => negb (is_space c)) TokenPrefix = true) by done.
    rewrite forallb_forall in Hall. by apply negb_true_iff, Hall, list_elem_of_In.
  - apply encode_chars in Hc as (n & Hn & ->). unfold sextet_char.
    destruct (nth_in_or_default (Z.to_nat n) url_alphabet "A"%char) as [Hin| ->]; [|done].
    assert (Hall : forallb (fun c => negb (is_space c)) url_alphabet = true) by done.
    rewrite forallb_forall in Hall. by apply negb_true_iff, Hall.
Qed.

Lemma bearer_read r token :
  rq_authorization r = "Bearer "%string ++ token -> (forall c, c ∈ token -> is_space c = false) -> bearerToken r = token.
Proof.
  intros Er Hc. unfold bearerToken. rewrite Er. rewrite length_app. cbn [length T String.list_ascii_of_string].
  destruct (Nat.ltb_spec (7 + length token) 7) as [|_]; [lia|]. cbn [take drop app]. by apply trim_space_none.
Qed.

Definition with_bearer (token : text) (r : request) : request :=
  Req (rq_method r) (rq_host r) (rq_origin r) ("Bearer "%string ++ token) (rq_cookie r) (rq_remote r) (rq_agent r).

(** The row of a new token answers to its hash, and to nothing else, until it expires. *)
Lemma CreateAPIToken_found k hash now t id t' :
  CreateAPIToken k hash now t = (Ok id, t') ->
  exists row, TokID row = id /\ TokHash row = hash /\ TokRole row = TokRole k /\ CreatedBy row = CreatedBy k /\
    TokExpiresAt row = TokExpiresAt k /\ ut_users t' = ut_users t /\
    forall at_, APITokenByHash hash at_ t' = if Expired at_ row then Err not_found else Ok row.
Proof.
  unfold CreateAPIToken. destruct (existsb _ _) eqn:E; [done|]. destruct (negb _); [done|].
  destruct (match CreatedBy k with Some u => _ | None => false end); [done|]. intros [= <- <-].
  exists {| TokID := ut_next_token t; TokName := trim_space (TokName k); TokPrefix := TokPrefix k; TokHash := hash;
            TokRole := TokRole k; CreatedBy := CreatedBy k; TokCreatedAt := now; TokExpiresAt := TokExpiresAt k;
            TokLastUsedAt := None |}.
  do 6 (split; [reflexivity|]).
  intros at_. unfold APITokenByHash, find_row. cbn [ut_tokens TokHash]. rewrite find_snoc by done. by rewrite bool_decide_eq_true_2.
Qed.

(** What a token of a role does for its creator at a time: nothing once it has expired, nothing
    without the creator, and otherwise the creator's account with the narrower role. *)
Definition grants (owner : Z) (role : text) (expires : Z) (t : user_tables) (token : text) : Prop :=
  exists k, TokHash k = HashToken token /\ TokRole k = role /\ CreatedBy k = Some owner /\ TokExpiresAt k = Some expires /\
    forall at_, APITokenByHash (HashToken token) at_ t = if expires <=? at_ then Err not_found else Ok k.

Lemma wp_mint md name role ttl p r Q s :
  (forall s', Q (fail 500 "token_create_failed"%string) s') ->
  (forall token expires body s',
     s_now s + ttl <= expires -> expires <= s_now s' + ttl -> (forall c, c ∈ token -> is_space c = false) ->
     ut_users (s_users s') = ut_users (s_users s) -> grants (UID (p_user p)) role expires (s_users s') token ->
     Q (ok 201 ([(T "token", body); (T "secret", JStr token);
          (T "notice", JStr "Copy this now. It is stored only as a hash and cannot be shown again."%string)])) s') ->
  wp md (mint name role ttl p r) Q s.
Proof.
  intros Hf Hok. unfold mint. apply wp_bind, wp_now. intros now Hnow. set (s1 := set_s_now now s).
  apply wp_bind, wp_random_bytes; [intros; by apply wp_ret, Hf|]. intros b _. cbn [NewAPIToken].
  set (token := TokenPrefix ++ EncodeToString url_alphabet b). apply wp_bind, wp_now. intros t Ht. change (now <= t) in Ht.
  apply wp_bind, wp_on_accounts; [intros; by apply wp_ret, Hf|].
  set (rec := {| TokID := 0; TokName := name; TokPrefix := _; TokHash := []; TokRole := role; CreatedBy := _; TokCreatedAt := 0;
                 TokExpiresAt := _; TokLastUsedAt := None |}).
  change (s_users (set_s_now t s1)) with (s_users s). destruct (CreateAPIToken rec (HashToken token) t (s_users s)) as [[id|e] t'] eqn:E.
  2: by apply wp_ret, Hf.
  apply CreateAPIToken_found in E as (row & _ & Eh & Er & Ec & Ee & Eu & Hfind).
  set (s2 := set_s_users t' _). apply wp_bind, wp_now. intros c Hc. change (t <= c) in Hc.
  apply wp_bind. set (s3 := set_s_now c s2). unfold audit. apply wp_bind, wp_now. intros d Hd. change (c <= d) in Hd.
  assert (Hfin : forall s4 shown, s_users s4 = t' -> d <= shown -> s_now s4 = shown ->
    Q (ok 201 [(T "token", viewToken (with_row id c rec) shown); (T "secret", JStr token);
          (T "notice", JStr "Copy this now. It is stored only as a hash and cannot be shown again."%string)]) s4).
  { intros s4 shown E4 Hs4 Hn4. apply (Hok token (now + ttl)); [lia|lia|apply token_no_space|by rewrite E4|].
    rewrite E4. exists row. split_and!; [done|by rewrite Er|by rewrite Ec|by rewrite Ee|]. intros at_. rewrite Hfind.
    unfold Expired. by rewrite Ee. }
  apply wp_statement; [intros e _|]; apply wp_bind, wp_now; intros shown Hshown; apply wp_ret; by apply Hfin.
Qed.

(** The seconds a token asked for may live. *)
Lemma token_ttl_range expires_in ttl : token_ttl expires_in = Some ttl -> 0 < ttl <= maxTokenTTL.
Proof.
  unfold token_ttl. case_bool_decide; [intros [= <-]; done|]. destruct (ParseDuration _) as [d|]; [|done].
  destruct (_ || _) eqn:E; [done|]. intros [= <-]. apply orb_false_iff in E as [?%Z.leb_gt ?%Z.ltb_ge]. lia.
Qed.

(** A token that is created is shown once; presented as it was shown, it acts for its
    creator with the role that was asked for, from then on and until it expires, within a year and
    not after; only its digest is stored. *)
Theorem token_round_trip md body p r s :
  wp md (handleCreateToken body p r) (fun rs s' =>
    rs_error rs <> [] \/
    exists req token expires,
      body = Some req /\ (T "secret", JStr token) ∈ rs_body rs /\
      s_now s < expires /\ expires <= s_now s' + maxTokenTTL /\
      ut_users (s_users s') = ut_users (s_users s) /\
      (forall r2, bearerToken (with_bearer token r2) = token) /\
      grants (UID (p_user p)) (if bool_decide (tq_Role req = []) then RoleViewer else tq_Role req) expires (s_users s') token) s.
Proof.
  unfold handleCreateToken. destruct body as [req|]; [|by apply wp_ret; left]. cbv zeta.
  destruct (_ || _); [by apply wp_ret; left|]. destruct (negb (token_role_check _)); [by apply wp_ret; left|].
  destruct (_ && _); [by apply wp_ret; left|]. destruct (token_ttl (tq_ExpiresIn req)) as [ttl|] eqn:Ettl; [|by apply wp_ret; left].
  apply token_ttl_range in Ettl. apply wp_mint.
  - intros s'. by left.
  - intros token expires view s' He1 He2 Hsp Hu Hg. right. exists req, token, expires. cbn [rs_body ok].
    split_and!; [done| |lia|lia|done| |done].
    + apply list_elem_of_further, list_elem_of_here.
    + intros r2. by apply (bearer_read _ token).
Qed.

(** An administrator asks for a token for an hour, and uses it within it and after it. *)
Definition sample_office_admin : User :=
  {| UID := 1; Email := "root@you.example"%string; PasswordHash := T "x"; Role := RoleAdmin; AllowedDomains := []; UCreatedAt := 0;
     LastLoginAt := None; OIDC := None; TOTPSecret := []; TOTPEnabled := false; TOTPLastStep := 0 |}.

Definition sample_accounts : state := set_s_users (Users [sample_office_admin] 2 [] [] [] 1) blank.

Definition sample_request : request := Req (T "GET") [] [] [] None (T "192.0.2.9:1") [].

Example token_used :
  let body := Some {| tq_Name := T "ci"; tq_Role := []; tq_ExpiresIn := T "1h" |} in
  let p := Principal sample_office_admin None in
  let '(rs, w) := handleCreateToken body p sample_request (World sample_accounts (set_e_ids [Some (T "random")] quiet)) in
  let token := match find (fun kv => bool_decide (fst kv = T "secret")) (rs_body rs) with Some (_, JStr t) => t | _ => [] end in
  let seen at_ := fst (authed (fun p r => ret (ok 200 [(T "role", JStr (Role (p_user p)))])) (with_bearer token sample_request)
                        (World (set_s_now at_ (st w)) (wenv w))) in
  rs_status rs = 201 /\ take 4 token = T "xmx_" /\
  rs_body (seen minute) = [(T "role", JStr RoleViewer)] /\ rs_status (seen hour) = 401.
Proof. vm_compute. split_and!; reflexivity. Qed.
