(* ===== verification/RulePages.v ===== *)
(** * The pages of the filter rules and the quarantine (internal/api/filters.go)

    [s_rules] holds the rules the intake evaluates: what [Set.Load] last read. *)

From S2P Require Import Prelude GoStrings Times Errors StoreTypes StoreQueue StoreDomains.
From S2P Require Import Filter StoreUsers SmtpClient World Api Account Pages UserPages.
From Stdlib Require Import QArith.
Open Scope Z_scope.

Definition on_filters {A} (f : filter_table -> result A * filter_table) : M (result A) :=
  statement (fun s => let '(r, t) := f (s_filters s) in (r, set_s_filters t s)).

(** [Set.Load]: a failure leaves the rules that were loaded. *)
Definition Load_rules : M (result unit) :=
  statement (fun s => (Ok tt, set_s_rules (ListFilters (s_filters s)) s)).

Definition reloadFilters : M unit := Load_rules ;;; ret tt.

Definition filterJSON (f : Filter) : jval :=
  JObj [(T "id", JNum (FltID f)); (T "name", JStr (FltName f)); (T "field", JStr (FltField f)); (T "pattern", JStr (FltPattern f));
        (T "action", JStr (FltAction f)); (T "enabled", JBool (FltEnabled f)); (T "priority", JNum (FltPriority f));
        (T "match_count", JNum (FltMatchCount f)); (T "last_match_at", jtime (FltLastMatchAt f));
        (T "created_at", JTime (FltCreatedAt f))].

Definition handleListFilters (p : principal) (r : request) : M response :=
  let* rules := query (fun s => Ok (ListFilters (s_filters s))) in
  ret match rules with
      | Err _ => fail 500 "filter_read_failed"%string
      | Ok rules => ok 200 [(T "filters", JList (map filterJSON rules))]
      end.

Record filterRequest := {
  fq_Name : text;
  fq_Field : text;
  fq_Pattern : text;
  fq_Action : text;
  fq_Enabled : option bool;
  fq_Priority : option Z
}.

Definition new_filter : Filter :=
  {| FltID := 0; FltName := []; FltField := []; FltPattern := []; FltAction := []; FltEnabled := true; FltPriority := 100;
     FltMatchCount := 0; FltLastMatchAt := None; FltCreatedAt := 0 |}.

Section rules.
Context `{RegexpLib} `{SmtpLib}.

(** [inl] is the code of the refusal. *)
Definition filterFromRequest (req : filterRequest) (existing : option Filter) : text + Filter :=
  let f := default new_filter existing in
  let name := if bool_decide (fq_Name req = []) then FltName f else trim_space (fq_Name req) in
  if bool_decide (name = []) then inl (T "invalid_filter")
  else
    let field := if bool_decide (fq_Field req = []) then FltField f else fq_Field req in
    if negb (ValidFilterField field) then inl (T "invalid_filter_field")
    else
      let pattern := if bool_decide (fq_Pattern req = []) then FltPattern f else fq_Pattern req in
      if negb (is_ok (Compile pattern)) then inl (T "invalid_filter")
      else
        let act := if bool_decide (fq_Action req = []) then FltAction f else fq_Action req in
        if negb (ValidFilterAction act) then inl (T "invalid_filter")
        else
          let priority := default (FltPriority f) (fq_Priority req) in
          if (priority <? 0) || (10000 <? priority) then inl (T "invalid_filter")
          else inr {| FltID := FltID f; FltName := name; FltField := field; FltPattern := pattern; FltAction := act;
                      FltEnabled := default (FltEnabled f) (fq_Enabled req); FltPriority := priority;
                      FltMatchCount := 0; FltLastMatchAt := None; FltCreatedAt := 0 |}.

(** The row as it was stored, or as it was sent when it cannot be read back. *)
Definition stored_filter (f : Filter) (id : Z) : M Filter :=
  let* row := query (fun s => FilterByID id (s_filters s)) in
  ret match row with
      | Ok row => row
      | Err _ => {| FltID := id; FltName := FltName f; FltField := FltField f; FltPattern := FltPattern f; FltAction := FltAction f;
                    FltEnabled := FltEnabled f; FltPriority := FltPriority f; FltMatchCount := FltMatchCount f;
                    FltLastMatchAt := FltLastMatchAt f; FltCreatedAt := FltCreatedAt f |}
      end.

Definition handleCreateFilter (body : option filterRequest) (p : principal) (r : request) : M response :=
  match body with
  | None => ret (fail 400 "invalid_body"%string)
  | Some req =>
      match filterFromRequest req None with
      | inl code => ret (fail 400 code)
      | inr f =>
          let* now := now_ in
          let* id := on_filters (CreateFilter f now) in
          match id with
          | Err _ => ret (fail 500 "filter_create_failed"%string)
          | Ok id =>
              let* f := stored_filter f id in
              reloadFilters ;;;
              audit (Some p) r (user_event "filter_created"%string (Some (UID (p_user p)))
                [(T "name", JStr (FltName f)); (T "field", JStr (FltField f)); (T "action", JStr (FltAction f))]) ;;;
              ret (ok_value 201 (filterJSON f))
          end
      end
  end.

Definition handleUpdateFilter (segment : text) (body : option filterRequest) (p : principal) (r : request) : M response :=
  match pathID segment with
  | None => ret (fail 400 "invalid_filter_id"%string)
  | Some id =>
      let* existing := query (fun s => FilterByID id (s_filters s)) in
      match existing, body with
      | Err e, _ => ret (if is_sentinel ErrNotFound e then fail 404 "filter_not_found"%string else fail 500 "filter_read_failed"%string)
      | Ok _, None => ret (fail 400 "invalid_body"%string)
      | Ok existing, Some req =>
          match filterFromRequest req (Some existing) with
          | inl code => ret (fail 400 code)
          | inr f =>
              let* done_ := on_filters (UpdateFilter f) in
              match done_ with
              | Err _ => ret (fail 500 "filter_update_failed"%string)
              | Ok _ => reloadFilters ;;; ret (ok_value 200 (filterJSON f))
              end
          end
      end
  end.

Definition handleDeleteFilter (segment : text) (p : principal) (r : request) : M response :=
  match pathID segment with
  | None => ret (fail 400 "invalid_filter_id"%string)
  | Some id =>
      let* done_ := on_filters (DeleteFilter id) in
      match done_ with
      | Err e => ret (if is_sentinel ErrNotFound e then fail 404 "filter_not_found"%string else fail 500 "filter_delete_failed"%string)
      | Ok _ =>
          reloadFilters ;;;
          audit (Some p) r (user_event "filter_deleted"%string (Some (UID (p_user p))) [(T "id", JNum id)]) ;;;
          ret (ok 200 [(T "deleted", JNum id)])
      end
  end.

(** ** Trying rules out *)

Record filterTestRequest := {
  ft_From : text;
  ft_To : list text;
  ft_Subject : text;
  ft_Pattern : text;
  ft_Field : text
}.

Definition draft (req : filterTestRequest) : Filter :=
  {| FltID := 0; FltName := "(draft)"%string; FltField := ft_Field req; FltPattern := ft_Pattern req; FltAction := FilterQuarantine;
     FltEnabled := true; FltPriority := 0; FltMatchCount := 0; FltLastMatchAt := None; FltCreatedAt := 0 |}.

Definition verdict_body (v : Verdict) : jmap :=
  if bool_decide (VAction v = []) then [(T "matched", JBool false)]
  else [(T "matched", JBool true); (T "filter", JStr (VName v)); (T "id", JNum (VFilterID v)); (T "field", JStr (VField v));
        (T "action", JStr (VAction v)); (T "value", JStr (VMatched v)); (T "reason", JStr (Reason v))].

Definition handleTestFilters (body : option filterTestRequest) (p : principal) (r : request) : M response :=
  match body with
  | None => ret (fail 400 "invalid_body"%string)
  | Some req =>
      let msg := {| env_From := ft_From req; env_To := ft_To req; env_Subject := ft_Subject req |} in
      if negb (bool_decide (ft_Pattern req = [])) then
        ret (if negb (ValidFilterField (ft_Field req)) then fail 400 "invalid_filter_field"%string
             else match Filter.Test [draft req] msg with
                  | Err _ => fail 400 "invalid_filter"%string
                  | Ok v => ok 200 [(T "matched", JBool (negb (bool_decide (VAction v = [])))); (T "value", JStr (VMatched v))]
                  end)
      else
        let* rules := query (fun s => Ok (ListFilters (s_filters s))) in
        ret match rules with
            | Err _ => fail 500 "filter_read_failed"%string
            | Ok rules => match Filter.Test rules msg with
                          | Err _ => fail 400 "invalid_filter"%string
                          | Ok v => ok 200 (verdict_body v)
                          end
            end
  end.

(** ** The quarantine *)

Definition handleReleaseMessage (id : text) (p : principal) (r : request) : M response :=
  let* m := lookupMessage p id in
  match m with
  | inl rs => ret rs
  | inr m =>
      let* now := now_ in
      let* done_ := on_queue (Release (ID m) now) in
      match done_ with
      | Err e => ret (if is_sentinel ErrNotFound e then fail 409 "not_in_quarantine"%string
                      else fail 500 "quarantine_release_failed"%string)
      | Ok _ =>
          audit (Some p) r (Event "mail_released"%string (Some (DomainID m)) (Some (ID m)) (Some (UID (p_user p)))
            [(T "from", JStr (EnvelopeFrom m)); (T "to", JStrs (EnvelopeTo m)); (T "was", JStr (QuarantineReason m))]) ;;;
          ret (ok 200 [(T "released", JStr (ID m));
                       (T "status", JStr ("queued for delivery to domain "%string ++ dec (DomainID m)))])
      end
  end.
End rules.
