(* ===== verification/OutboundPages.v ===== *)
(** * The pages of outbound mail: DKIM keys, DMARC, DNS records, routes (internal/api/outbound.go, dmarc.go, handlers.go)

    Private keys and relay passwords are stored sealed with the master key of the spool. *)

From S2P Require Import Prelude GoStrings Base64 Times Errors StoreTypes StoreQueue StoreDomains.
From S2P Require Import Filter Routes Dkim Dmarc StoreUsers SmtpClient World Blob Api Account Pages UserPages.
From Stdlib Require Import QArith.
Open Scope Z_scope.

Definition on_routes {A} (f : route_table -> result A * route_table) : M (result A) :=
  statement (fun s => let '(r, t) := f (s_routes s) in (r, set_s_routes t s)).

Definition on_dkim {A} (f : list domain -> gmap Z DKIMKey -> result A * gmap Z DKIMKey) : M (result A) :=
  statement (fun s => let '(r, t) := f (dt_domains (s_domains s)) (s_dkim s) in (r, set_s_dkim t s)).

(** [blob.Store.Seal]. *)
Definition seal `{AEAD} (master plaintext : text) : M (result text) :=
  let* salt := random_bytes saltSize in
  let* nonce := random_bytes nonceSize in
  ret (Seal master salt nonce plaintext).

(** A DNS record to publish. *)
Definition dns_record (typ name value note : text) : jval :=
  JObj [(T "type", JStr typ); (T "name", JStr name); (T "value", JStr value); (T "note", JStr note)].

Section dns.
Context `{SmtpLib} `{DohLib} `{DmarcLib} `{KeyGenLib} `{AEAD}.
Context (cfg : PagesConfig) (master : text).

(** ** DKIM keys *)

Record dkimRequest := { kq_Selector : text; kq_Algorithm : text; kq_Enabled : option bool; kq_Force : bool }.

Definition dkimJSON (d : domain) (k : DKIMKey) : jmap :=
  [(T "domain", JStr (DName d)); (T "selector", JStr (Selector k)); (T "algorithm", JStr (Algorithm k));
   (T "enabled", JBool (KEnabled k)); (T "created_at", JTime (KCreatedAt k));
   (T "record", dns_record "TXT"%string (Dkim.RecordName (Selector k) (DName d)) (RecordValue (Algorithm k) (PublicKey k))
      ("Publish this before enabling the key, or mail signed with it fails "%string
       ++ "verification and looks worse than unsigned mail would."%string));
   (T "configured", JBool true)].

Definition DNSCheckJSON (c : DNSCheckResult) : jmap :=
  [(T "valid", JBool (dc_Valid c)); (T "found", JBool (dc_Found c)); (T "matched", JBool (dc_Matched c));
   (T "record_name", JStr (dc_RecordName c))]
  ++ (if bool_decide (dc_Records c = []) then [] else [(T "records", JStrs (dc_Records c))])
  ++ omit_text (T "status") (dc_Status c) ++ omit_text (T "error") (dc_Error c).

Definition key_of (d : domain) : M (result DKIMKey) := query (fun s => DKIMKeyFor (DID d) (s_dkim s)).

Definition no_key (e : error) : response :=
  if is_sentinel ErrNotFound e then fail 404 "dkim_not_found"%string else fail 500 "dkim_read_failed"%string.

Definition handleGetDKIM (segment : text) (p : principal) (r : request) : M response :=
  let* d := lookupDomain p segment in
  match d with
  | inl rs => ret rs
  | inr d =>
      let* k := key_of d in
      ret match k with
          | Err e => if is_sentinel ErrNotFound e then ok 200 [(T "domain", JStr (DName d)); (T "configured", JBool false)]
                     else fail 500 "dkim_read_failed"%string
          | Ok k => ok 200 (dkimJSON d k)
          end
  end.

(** An empty body decodes to the empty request. *)
Definition handleCreateDKIM (segment : text) (body : option dkimRequest) (p : principal) (r : request) : M response :=
  let* d := lookupDomain p segment in
  match d, body with
  | inl rs, _ => ret rs
  | inr _, None => ret (fail 400 "invalid_body"%string)
  | inr d, Some req =>
      if negb (bool_decide (kq_Algorithm req = [])) && negb (ValidDKIMAlgorithm (kq_Algorithm req)) then
        ret (fail 400 "invalid_algorithm"%string)
      else
        let* random := random_bytes 32 in
        match Generate random (kq_Selector req) (kq_Algorithm req) with
        | Err _ => ret (fail 400 "invalid_algorithm"%string)
        | Ok key =>
            let* sealed := seal master (k_PrivatePEM key) in
            match sealed with
            | Err _ => ret (fail 500 "dkim_seal_failed"%string)
            | Ok sealed =>
                let stored := {| KDomainID := DID d; Selector := k_Selector key; Algorithm := k_Algorithm key;
                                 PrivateKey := sealed; PublicKey := k_PublicB64 key; KEnabled := false; KCreatedAt := 0 |} in
                let* now := now_ in
                let* saved := on_dkim (fun ds => SaveDKIMKey ds stored now) in
                match saved with
                | Err _ => ret (fail 500 "dkim_save_failed"%string)
                | Ok _ =>
                    audit (Some p) r (Event "dkim_key_created"%string (Some (DID d)) None (Some (UID (p_user p)))
                      [(T "domain", JStr (DName d)); (T "selector", JStr (k_Selector key)); (T "algorithm", JStr (k_Algorithm key))]) ;;;
                    let* fresh := key_of d in
                    ret (ok 201 (dkimJSON d (match fresh with Ok k => k | Err _ => stored end)))
                end
            end
        end
  end.

Definition handleCheckDKIM (segment : text) (p : principal) (r : request) : M response :=
  let* d := lookupDomain p segment in
  match d with
  | inl rs => ret rs
  | inr d =>
      let* k := key_of d in
      ret match k with
          | Err e => no_key e
          | Ok k => ok 200 (DNSCheckJSON (Dkim.CheckDNS (DName d) (Selector k) (PublicKey k)))
          end
  end.

(** Enabling a key asks the DNS first, unless forced: the refusal, if there is one. *)
Definition unpublished (d : domain) (enabled force : bool) : M (option response) :=
  if enabled && negb force then
    let* k := key_of d in
    ret match k with
        | Err e => Some (no_key e)
        | Ok k => if dc_Valid (Dkim.CheckDNS (DName d) (Selector k) (PublicKey k)) then None
                  else Some (fail 422 "dkim_dns_missing"%string)
        end
  else ret None.

Definition handleUpdateDKIM (segment : text) (body : option dkimRequest) (p : principal) (r : request) : M response :=
  let* d := lookupDomain p segment in
  match d, body with
  | inl rs, _ => ret rs
  | inr _, None => ret (fail 400 "invalid_body"%string)
  | inr d, Some req =>
      match kq_Enabled req with
      | None => ret (fail 400 "dkim_update_failed"%string)
      | Some enabled =>
          let* refusal := unpublished d enabled (kq_Force req) in
          match refusal with
          | Some rs => ret rs
          | None =>
              let* done_ := on_dkim (fun _ => SetDKIMEnabled (DID d) enabled) in
              match done_ with
              | Err e => ret (if is_sentinel ErrNotFound e then fail 404 "dkim_not_found"%string else fail 500 "dkim_update_failed"%string)
              | Ok _ =>
                  let* k := key_of d in
                  ret match k with
                      | Err _ => fail 500 "dkim_read_failed"%string
                      | Ok k => ok 200 (dkimJSON d k)
                      end
              end
          end
      end
  end.

Definition handleDeleteDKIM (segment : text) (p : principal) (r : request) : M response :=
  let* d := lookupDomain p segment in
  match d with
  | inl rs => ret rs
  | inr d =>
      let* done_ := on_dkim (fun _ => DeleteDKIMKey (DID d)) in
      match done_ with
      | Err e => ret (if is_sentinel ErrNotFound e then fail 404 "dkim_not_found"%string else fail 500 "dkim_delete_failed"%string)
      | Ok _ =>
          audit (Some p) r (Event "dkim_key_deleted"%string (Some (DID d)) None (Some (UID (p_user p))) [(T "domain", JStr (DName d))]) ;;;
          ret (ok 200 [(T "deleted", JStr (DName d))])
      end
  end.

(** ** DMARC, and the records to publish *)

Definition CheckJSON (c : CheckResult) : jmap :=
  [(T "valid", JBool (dm_Valid c)); (T "found", JBool (dm_Found c)); (T "record_name", JStr (dm_RecordName c))]
  ++ (if bool_decide (dm_Records c = []) then [] else [(T "records", JStrs (dm_Records c))])
  ++ omit_text (T "policy") (dm_Policy c) ++ omit_text (T "subdomain_policy") (dm_SubdomainPolicy c)
  ++ (if bool_decide (dm_RUA c = []) then [] else [(T "rua", JStrs (dm_RUA c))])
  ++ omit_text (T "adkim") (dm_DKIMAlignment c) ++ omit_text (T "aspf") (dm_SPFAlignment c)
  ++ omit_text (T "status") (dm_Status c) ++ omit_text (T "error") (dm_Error c).

Definition handleGetDMARC (segment : text) (p : principal) (r : request) : M response :=
  let* d := lookupDomain p segment in
  match d with
  | inl rs => ret rs
  | inr d =>
      let* k := key_of d in
      ret (ok 200 [(T "domain", JStr (DName d));
             (T "record", dns_record "TXT"%string (Dmarc.RecordName (DName d)) (DefaultValue (DName d) "quarantine"%string)
                "DMARC policy record for domain email authentication and anti-spoofing."%string);
             (T "dns", JObj (CheckJSON (Dmarc.CheckDNS (DName d))));
             (T "arc_enabled", JBool (match k with Ok k => KEnabled k | Err _ => false end))])
  end.

Definition handleCheckDMARC (segment : text) (p : principal) (r : request) : M response :=
  let* d := lookupDomain p segment in
  ret match d with
      | inl rs => rs
      | inr d => ok 200 (CheckJSON (Dmarc.CheckDNS (DName d)))
      end.

Definition handleDomainDNS (segment : text) (p : principal) (r : request) : M response :=
  let* d := lookupDomain p segment in
  match d with
  | inl rs => ret rs
  | inr d =>
      let name := DName d in
      let mxHost := if bool_decide (pg_hostname cfg = []) then "mx2."%string ++ name else pg_hostname cfg in
      let* k := key_of d in
      let records :=
        [JObj [(T "type", JStr "MX"%string); (T "name", JStr (name ++ "."%string)); (T "value", JStr (mxHost ++ "."%string));
               (T "priority", JStr "20"%string);
               (T "note", JStr ("Higher number than your primary MX, so senders only fall back here when "%string
                                ++ "the primary does not answer."%string))];
         dns_record "A"%string (mxHost ++ "."%string) "<this server's public IPv4>"%string
           "Must point at the machine running XeronMX."%string]
        ++ match k with
           | Ok k => [dns_record "TXT"%string (Dkim.RecordName (Selector k) name) (RecordValue (Algorithm k) (PublicKey k))
                        "DKIM public key for outbound email authentication."%string]
           | Err _ => []
           end
        ++ [dns_record "TXT"%string (Dmarc.RecordName name) (DefaultValue name "quarantine"%string)
              "DMARC policy for domain authentication and anti-spoofing."%string] in
      ret (ok 200 [(T "records", JList records);
             (T "checklist", JStrs
               ["The primary MX record for "%string ++ name ++ " keeps a lower priority number than 20."%string;
                "Port 25 is reachable from the internet on this machine (many providers block it by default and "%string
                  ++ "will unblock on request)."%string;
                "The reverse DNS (PTR) of this server's IP resolves to "%string ++ mxHost
                  ++ ", or strict senders will refuse to talk to it."%string;
                "smtp.hostname in the configuration is set to "%string ++ mxHost ++ "."%string;
                "A DMARC TXT record is published at _dmarc."%string ++ name
                  ++ " to guarantee deliverability on Gmail and Outlook."%string])])
  end.

(** ** Routes *)

Record routeRequest := {
  rr_Destination : text;
  rr_Mode : text;
  rr_RelayHost : text;
  rr_RelayPort : Z;
  rr_RelayTLS : text;
  rr_RelayUsername : text;
  rr_RelayPassword : text;
  rr_Enabled : option bool
}.

Definition routeJSON (r : Route) : jval :=
  JObj [(T "id", JNum (RID r)); (T "destination", JStr (Destination r)); (T "mode", JStr (Mode r));
        (T "relay_host", JStr (RelayHost r)); (T "relay_port", JNum (RelayPort r)); (T "relay_tls", JStr (RelayTLS r));
        (T "relay_username", JStr (RelayUsername r)); (T "has_password", JBool (negb (bool_decide (RelayPassword r = []))));
        (T "enabled", JBool (REnabled r)); (T "created_at", JTime (RCreatedAt r))].

Definition handleListRoutes (p : principal) (r : request) : M response :=
  let* routes := query (fun s => Ok (ListRoutes (s_routes s))) in
  ret match routes with
      | Err _ => fail 500 "route_list_failed"%string
      | Ok routes => ok 200 [(T "routes", JList (map routeJSON routes))]
      end.

Definition new_route : Route :=
  {| RID := 0; Destination := []; Mode := "relay"%string; RelayHost := []; RelayPort := 587; RelayTLS := TLSRequired;
     RelayUsername := []; RelayPassword := []; REnabled := true; RCreatedAt := 0 |}.

Definition valid_destination (d : text) : bool :=
  contains "."%string (trim_prefix "."%string d) && negb (contains_any " @/\"%string d).

(** [inl] is the code of the refusal, the same for all. *)
Definition routeFromRequest (req : routeRequest) (existing : option Route) : text + Route :=
  let r := default new_route existing in
  let dest := if bool_decide (rr_Destination req = []) then Destination r else to_lower (trim_space (rr_Destination req)) in
  let mode := if bool_decide (rr_Mode req = []) then Mode r else rr_Mode req in
  let host := if bool_decide (rr_RelayHost req = []) then RelayHost r else trim_space (rr_RelayHost req) in
  let port := if rr_RelayPort req =? 0 then RelayPort r else rr_RelayPort req in
  let tls := if bool_decide (rr_RelayTLS req = []) then RelayTLS r else rr_RelayTLS req in
  if bool_decide (dest = []) || negb (valid_destination dest) then inl (T "invalid_route")
  else if negb (bool_decide (mode = "relay"%string)) && negb (bool_decide (mode = "direct"%string)) then inl (T "invalid_route")
  else if bool_decide (mode = "relay"%string) && bool_decide (host = []) then inl (T "invalid_route")
  else if (port <? 1) || (65535 <? port) then inl (T "invalid_route")
  else if negb (ValidTLSMode tls) then inl (T "invalid_route")
  else inr {| RID := RID r; Destination := dest; Mode := mode; RelayHost := host; RelayPort := port; RelayTLS := tls;
              RelayUsername := if bool_decide (rr_RelayUsername req = []) then RelayUsername r else trim_space (rr_RelayUsername req);
              RelayPassword := RelayPassword r; REnabled := default (REnabled r) (rr_Enabled req); RCreatedAt := 0 |}.

Definition with_relay_password (sealed : text) (r : Route) : Route :=
  {| RID := RID r; Destination := Destination r; Mode := Mode r; RelayHost := RelayHost r; RelayPort := RelayPort r;
     RelayTLS := RelayTLS r; RelayUsername := RelayUsername r; RelayPassword := sealed; REnabled := REnabled r;
     RCreatedAt := RCreatedAt r |}.

(** The route with the password of the request, sealed. *)
Definition seal_password (password : text) (rt : Route) : M (result Route) :=
  if bool_decide (password = []) then ret (Ok rt)
  else
    let* sealed := seal master password in
    ret match sealed with Err e => Err e | Ok sealed => Ok (with_relay_password sealed rt) end.

Definition with_route_id (id : Z) (r : Route) : Route :=
  {| RID := id; Destination := Destination r; Mode := Mode r; RelayHost := RelayHost r; RelayPort := RelayPort r;
     RelayTLS := RelayTLS r; RelayUsername := RelayUsername r; RelayPassword := RelayPassword r; REnabled := REnabled r;
     RCreatedAt := RCreatedAt r |}.

Definition handleCreateRoute (body : option routeRequest) (p : principal) (r : request) : M response :=
  match body with
  | None => ret (fail 400 "invalid_body"%string)
  | Some req =>
      match routeFromRequest req None with
      | inl code => ret (fail 400 code)
      | inr rt =>
          let* rt := seal_password (rr_RelayPassword req) rt in
          match rt with
          | Err _ => ret (fail 500 "route_create_failed"%string)
          | Ok rt =>
              let* now := now_ in
              let* id := on_routes (CreateRoute rt now) in
              match id with
              | Err e => ret (if unique_error e then fail 409 "route_already_exists"%string else fail 500 "route_create_failed"%string)
              | Ok id =>
                  let* stored := query (fun s => RouteByID id (s_routes s)) in
                  let rt := match stored with Ok rt => rt | Err _ => with_route_id id rt end in
                  audit (Some p) r (user_event "route_created"%string (Some (UID (p_user p)))
                    [(T "destination", JStr (Destination rt)); (T "mode", JStr (Mode rt))]) ;;;
                  ret (ok_value 201 (routeJSON rt))
              end
          end
      end
  end.

Definition handleUpdateRoute (segment : text) (body : option routeRequest) (p : principal) (r : request) : M response :=
  match pathID segment with
  | None => ret (fail 400 "invalid_route_id"%string)
  | Some id =>
      let* existing := query (fun s => RouteByID id (s_routes s)) in
      match existing, body with
      | Err e, _ => ret (if is_sentinel ErrNotFound e then fail 404 "route_not_found"%string else fail 500 "route_list_failed"%string)
      | Ok _, None => ret (fail 400 "invalid_body"%string)
      | Ok existing, Some req =>
          match routeFromRequest req (Some existing) with
          | inl code => ret (fail 400 code)
          | inr rt =>
              let* rt := seal_password (rr_RelayPassword req) rt in
              match rt with
              | Err _ => ret (fail 500 "route_update_failed"%string)
              | Ok rt =>
                  let* done_ := on_routes (UpdateRoute rt) in
                  ret match done_ with
                      | Err _ => fail 500 "route_update_failed"%string
                      | Ok _ => ok_value 200 (routeJSON rt)
                      end
              end
          end
      end
  end.

Definition handleDeleteRoute (segment : text) (p : principal) (r : request) : M response :=
  match pathID segment with
  | None => ret (fail 400 "invalid_route_id"%string)
  | Some id =>
      let* done_ := on_routes (DeleteRoute id) in
      match done_ with
      | Err e => ret (if is_sentinel ErrNotFound e then fail 404 "route_not_found"%string else fail 500 "route_delete_failed"%string)
      | Ok _ =>
          audit (Some p) r (user_event "route_deleted"%string (Some (UID (p_user p))) [(T "id", JNum id)]) ;;;
          ret (ok 200 [(T "deleted", JNum id)])
      end
  end.

(** [global] is the mode and the relay of the outbound settings. *)
Definition handleTestRoute (global : text * text) (destination : text) (p : principal) (r : request) : M response :=
  let dest := to_lower (trim_space destination) in
  if bool_decide (dest = []) then ret (fail 400 "missing_destination"%string)
  else
    let* rt := query (fun s => RouteFor dest (s_routes s)) in
    ret match rt with
        | Err e =>
            if is_sentinel ErrNotFound e then
              ok 200 [(T "destination", JStr dest); (T "matched", JBool false); (T "mode", JStr (fst global));
                      (T "relay_host", JStr (snd global)); (T "source", JStr "the global outbound settings"%string)]
            else fail 500 "route_list_failed"%string
        | Ok rt =>
            ok 200 [(T "destination", JStr dest); (T "matched", JBool true); (T "route", JStr (Destination rt));
                    (T "mode", JStr (Mode rt)); (T "relay_host", JStr (RelayHost rt));
                    (T "source", JStr "a configured route"%string)]
        end.
End dns.
