(* ===== verification/HookPages.v ===== *)
(** * The pages of event subscriptions (internal/api/webhooks.go)

    The scheme and the host of an address are what [url.Parse] finds. *)

From S2P Require Import Prelude GoStrings Base64 Times Errors StoreTypes StoreQueue StoreDomains.
From S2P Require Import StoreWebhooks Filter Routes Dkim Dmarc StoreUsers SmtpClient World Blob Webhook.
From S2P Require Import Api Account Pages UserPages OutboundPages.
From Stdlib Require Import QArith.
Open Scope Z_scope.

(** [url.Parse]: scheme and host. *)
Class AddressLib := { url_Parse : text -> option (text * text) }.

Definition maxWebhookURLLength : nat := 2000.
Definition maxWebhookEvents : nat := 64.

Record webhookRequest := {
  wq_Name : text;
  wq_URL : text;
  wq_Events : option (list text);      (* nil when it is not given *)
  wq_Secret : option text;
  wq_Enabled : option bool
}.

Definition viewWebhook (w : Webhook) : jval :=
  JObj ([(T "id", JNum (WID w)); (T "name", JStr (WName w)); (T "url", JStr (WURL w)); (T "events", JStrs (WEvents w));
         (T "enabled", JBool (WEnabled w)); (T "signed", JBool (negb (bool_decide (WSecret w = []))));
         (T "created_at", JTime (WCreatedAt w))]
        ++ omit_text (T "last_error") (WLastError w) ++ omit_time (T "last_success_at") (WLastSuccessAt w)).

Definition handleWebhookEventTypes (p : principal) (r : request) : M response :=
  ret (ok 200 [(T "categories", JObj (map (fun kv => (fst kv, JStrs (snd kv))) EventCatalogue))]).

(** [hooks] says whether there is a dispatcher and it is enabled. *)
Definition handleListWebhooks (hooks : bool) (p : principal) (r : request) : M response :=
  let* rows := query (fun s => Ok (ListWebhooks (s_hooks s))) in
  ret match rows with
      | Err _ => fail 500 "webhook_list_failed"%string
      | Ok rows => ok 200 [(T "webhooks", JList (map viewWebhook rows)); (T "enabled", JBool hooks)]
      end.

(** The known types asked for, once each and without blanks; [None] when one is not known. *)
Fixpoint clean_events (seen events : list text) : option (list text) :=
  match events with
  | [] => Some []
  | e :: events =>
      let e := trim_space e in
      if bool_decide (e = []) || bool_decide (e ∈ seen) then clean_events seen events
      else if negb (KnownEventType e) then None
      else rest ← clean_events (e :: seen) events; Some (e :: rest)
  end.

Section hooks.
Context `{SmtpLib} `{HttpLib} `{AddressLib} `{AEAD}.
Context (master : text).

(** The name and the events of a request that is accepted. *)
Definition validateWebhook (name url : text) (events : list text) : option (text * list text) :=
  let name := trim_space name in
  if bool_decide (name = []) || (100 <? length name)%nat then None
  else
    let raw := trim_space url in
    if bool_decide (raw = []) || (maxWebhookURLLength <? length raw)%nat then None
    else match url_Parse raw with
         | None => None
         | Some (scheme, host) =>
             if bool_decide (host = []) then None
             else if negb (bool_decide (scheme = "http"%string)) && negb (bool_decide (scheme = "https"%string)) then None
             else if (maxWebhookEvents <? length events)%nat then None
             else events ← clean_events [] events; Some (name, events)
         end.

(** What is stored, and what is shown once: only a secret made here is. *)
Definition sealWebhookSecret (requested : option text) : M (result (text * text)) :=
  match requested with
  | Some [] => ret (Ok ([], []))
  | Some plaintext =>
      let* sealed := seal master plaintext in
      ret match sealed with Err e => Err e | Ok sealed => Ok (sealed, []) end
  | None =>
      let* b := random_bytes 32 in
      match b with
      | Err e => ret (Err e)
      | Ok b =>
          let plaintext := EncodeToString url_alphabet b in
          let* sealed := seal master plaintext in
          ret match sealed with Err e => Err e | Ok sealed => Ok (sealed, plaintext) end
      end
  end.

Definition secret_fields (plaintext : text) : jmap :=
  if bool_decide (plaintext = []) then []
  else [(T "secret", JStr plaintext);
        (T "notice", JStr "Copy this signing secret now. It is stored sealed and cannot be shown again."%string)].

Definition hook_row (id : Z) (name url : text) (events : list text) (enabled : bool) (secret : text) (created : Z) : Webhook :=
  {| WID := id; WName := name; WURL := trim_space url; WSecret := secret; WEvents := events; WEnabled := enabled;
     WCreatedAt := created; WLastError := []; WLastSuccessAt := None |}.

Definition handleCreateWebhook (body : option webhookRequest) (p : principal) (r : request) : M response :=
  match body with
  | None => ret (fail 400 "invalid_body"%string)
  | Some req =>
      match validateWebhook (wq_Name req) (wq_URL req) (default [] (wq_Events req)) with
      | None => ret (fail 400 "invalid_webhook"%string)
      | Some (name, events) =>
          let enabled := default true (wq_Enabled req) in
          let* sealed := sealWebhookSecret (wq_Secret req) in
          match sealed with
          | Err _ => ret (fail 500 "webhook_create_failed"%string)
          | Ok (secret, plaintext) =>
              let* now := now_ in
              let* id := on_hooks (CreateWebhook (hook_row 0 name (wq_URL req) events enabled secret 0) now) in
              match id with
              | Err _ => ret (fail 500 "webhook_create_failed"%string)
              | Ok id =>
                  let* created := now_ in
                  let hook := hook_row id name (wq_URL req) events enabled secret created in
                  audit (Some p) r (user_event "webhook_created"%string (Some (UID (p_user p)))
                    [(T "name", JStr name); (T "url", JStr (WURL hook)); (T "events", JStrs events)]) ;;;
                  ret (ok 201 ([(T "webhook", viewWebhook hook)] ++ secret_fields plaintext))
              end
          end
      end
  end.

(** The secret the subscription is left with, and what is shown; [None] when it could not be changed. *)
Definition rotate (id : Z) (requested : option text) (current : text) : M (option (text * text)) :=
  match requested with
  | None => ret (Some (current, []))
  | Some _ =>
      let* sealed := sealWebhookSecret requested in
      match sealed with
      | Err _ => ret None
      | Ok (secret, plaintext) =>
          let* done_ := on_hooks (SetWebhookSecret id secret) in
          ret match done_ with Err _ => None | Ok _ => Some (secret, plaintext) end
      end
  end.

Definition webhook_refused (e : error) : response :=
  if is_sentinel ErrNotFound e then fail 404 "webhook_not_found"%string else fail 500 "webhook_list_failed"%string.

Definition handleUpdateWebhook (segment : text) (body : option webhookRequest) (p : principal) (r : request) : M response :=
  match pathID segment with
  | None => ret (fail 400 "invalid_webhook_id"%string)
  | Some id =>
      let* existing := query (fun s => Webhook_ id (s_hooks s)) in
      match existing, body with
      | Err e, _ => ret (webhook_refused e)
      | Ok _, None => ret (fail 400 "invalid_body"%string)
      | Ok existing, Some req =>
          let name := if bool_decide (wq_Name req = []) then WName existing else wq_Name req in
          let url := if bool_decide (wq_URL req = []) then WURL existing else wq_URL req in
          match validateWebhook name url (default (WEvents existing) (wq_Events req)) with
          | None => ret (fail 400 "invalid_webhook"%string)
          | Some (name, events) =>
              let enabled := default (WEnabled existing) (wq_Enabled req) in
              let* done_ := on_hooks (UpdateWebhook (hook_row id name url events enabled [] 0)) in
              match done_ with
              | Err _ => ret (fail 500 "webhook_update_failed"%string)
              | Ok _ =>
                  let* secret := rotate id (wq_Secret req) (WSecret existing) in
                  match secret with
                  | None => ret (fail 500 "webhook_update_failed"%string)
                  | Some (secret, rotated) =>
                      audit (Some p) r (user_event "webhook_updated"%string (Some (UID (p_user p)))
                        [(T "id", JNum id); (T "name", JStr name); (T "enabled", JBool enabled)]) ;;;
                      ret (ok 200 ([(T "webhook", viewWebhook (hook_row id name url events enabled secret (WCreatedAt existing)))]
                                   ++ secret_fields rotated))
                  end
              end
          end
      end
  end.

Definition handleDeleteWebhook (segment : text) (p : principal) (r : request) : M response :=
  match pathID segment with
  | None => ret (fail 400 "invalid_webhook_id"%string)
  | Some id =>
      let* done_ := on_hooks (DeleteWebhook id) in
      match done_ with
      | Err e => ret (if is_sentinel ErrNotFound e then fail 404 "webhook_not_found"%string
                      else fail 500 "webhook_delete_failed"%string)
      | Ok _ =>
          audit (Some p) r (user_event "webhook_deleted"%string (Some (UID (p_user p))) [(T "id", JNum id)]) ;;;
          ret (ok 200 [(T "deleted", JNum id)])
      end
  end.

Definition handleTestWebhook (hooks : bool) (node : text) (segment : text) (p : principal) (r : request) : M response :=
  if negb hooks then ret (fail 409 "webhook_test_failed"%string)
  else match pathID segment with
       | None => ret (fail 400 "invalid_webhook_id"%string)
       | Some id =>
           let* hook := query (fun s => Webhook_ id (s_hooks s)) in
           match hook with
           | Err e => ret (webhook_refused e)
           | Ok hook =>
               let* sent := Webhook.Test master node hook in
               ret match sent with
                   | (code, Some e) => ok 200 [(T "ok", JBool false); (T "status", JNum code); (T "error", JStr (error_text e))]
                   | (code, None) => ok 200 [(T "ok", JBool true); (T "status", JNum code)]
                   end
           end
       end.

(** ** The log of deliveries *)

Definition delivery_status_text (s : delivery_status) : text :=
  match s with
  | DeliveryPending => "pending"%string
  | DeliveryDelivered => "delivered"%string
  | DeliveryFailed => "failed"%string
  end.

(** [COALESCE(w.name, '')] of the subscription the row refers to. *)
Definition webhook_name (hooks : list Webhook) (id : Z) : text :=
  match find (hook_by id) hooks with Some w => WName w | None => [] end.

Definition viewDelivery (hooks : list Webhook) (d : Delivery) : jval :=
  JObj ([(T "id", JNum (DelID d)); (T "webhook_id", JNum (DelWebhookID d));
         (T "webhook_name", JStr (webhook_name hooks (DelWebhookID d))); (T "event", JStr (EventType d));
         (T "status", JStr (delivery_status_text (DelStatus d))); (T "attempts", JNum (DelAttempts d))]
        ++ (if StatusCode d =? 0 then [] else [(T "status_code", JNum (StatusCode d))])
        ++ omit_text (T "last_error") (DelLastError d) ++ [(T "created_at", JTime (DelCreatedAt d))]
        ++ (if bool_decide (DelStatus d = DeliveryPending) then [(T "next_attempt_at", JTime (NextAttemptAt d))] else [])
        ++ omit_time (T "delivered_at") (DelDeliveredAt d)).

Definition handleListDeliveries (webhook_id limit : text) (p : principal) (r : request) : M response :=
  let* rows := query (fun s => Ok (map (viewDelivery (ht_hooks (s_hooks s)))
                                       (ListDeliveries (queryInt webhook_id 0) (queryInt limit 50) (s_hooks s)))) in
  ret match rows with
      | Err _ => fail 500 "delivery_log_failed"%string
      | Ok rows => ok 200 [(T "deliveries", JList rows)]
      end.
End hooks.
