(* ===== verification/StatusPages.v ===== *)
(** * The status pages: queue and domains, drain, security (internal/api/handlers.go, security.go, internal/maintenance)

    What belongs to other parts of the process is an argument: the version, the number of
    dashboards connected, the free space the disk check found, the state of the certificate. *)

From S2P Require Import Prelude GoStrings Times Net Errors StoreTypes StoreQueue StoreDomains.
From S2P Require Import StoreUsers Dnsbl Clamav Spam World Auth Api Account Pages UserPages.
From Stdlib Require Import QArith.
Open Scope Z_scope.

(** ** Addresses as text ([net.IP.String]) *)

Definition hextets (a : Z) : list Z := map (fun i => a / 2 ^ (16 * i) mod 65536) [7; 6; 5; 4; 3; 2; 1; 0].

(** No leading zeros. *)
Definition hex_short (n : Z) : text :=
  match trim_left is_zero_digit (map (fun i => hex_lower (n / 16 ^ i mod 16)) [3; 2; 1; 0]) with [] => "0"%string | d => d end.

Fixpoint zero_run (l : list Z) : nat := match l with 0 :: l => S (zero_run l) | _ => O end.

(** The longest run of at least two zeros, the first of them: where it starts, and its length. *)
Fixpoint longest_run (i : nat) (best : nat * nat) (l : list Z) : nat * nat :=
  match l with
  | [] => best
  | _ :: rest =>
      let n := zero_run l in
      longest_run (S i) (if (2 <=? n)%nat && (snd best <? n)%nat then (i, n) else best) rest
  end.

Definition ip_text (a : ip) : text :=
  match a with
  | V4 a => join "."%string (map (fun i => dec (a / 256 ^ i mod 256)) [3; 2; 1; 0])
  | V6 a =>
      let hs := map hex_short (hextets a) in
      let '(start, n) := longest_run 0 (0%nat, 0%nat) (hextets a) in
      if (n =? 0)%nat then join ":"%string hs
      else join ":"%string (take start hs) ++ "::"%string ++ join ":"%string (drop (start + n) hs)
  end.

Example ip_text_ex :
  map (fun s => ip_text <$> ParseIP (T s)) ["192.0.2.99"; "2001:db8::1"; "::"; "1:0:0:2:0:0:0:3"; "1:0:2:3:4:5:6:7"; "fe80::"]%string
  = map (fun s => Some (T s)) ["192.0.2.99"; "2001:db8::1"; "::"; "1:0:0:2::3"; "1:0:2:3:4:5:6:7"; "fe80::"]%string.
Proof. vm_compute. reflexivity. Qed.

(** ** The maintenance flag (internal/maintenance, [Manager]) *)

Definition IsDraining : M bool := let* s := get in ret (s_drain s).
Definition SetDraining (v : bool) : M unit := modify (set_s_drain v).

(** ** Status *)

Record CertificateState := { cs_Source : text; cs_Domain : text; cs_Since : Z; cs_LastError : text }.

Record StatusConfig := {
  st_version : text;
  st_commit : text;
  st_maxMessages : Z;
  st_maxBytes : Z;
  st_retention : Z;
  st_minDisk : Z;
  st_passwordLogin : bool;
  st_oidc : option bool                  (* whether it is ready, when it is enabled *)
}.

Section status.
Context `{SmtpLib}.
Context (cfg : StatusConfig).

Definition oidcAdvertisement : jval :=
  match st_oidc cfg with
  | None => JObj [(T "enabled", JBool false)]
  | Some ready => JObj [(T "enabled", JBool true); (T "ready", JBool ready)]
  end.

Definition handleSetupStatus (r : request) : M response :=
  let* n := query (fun s => Ok (CountUsers (s_users s))) in
  ret match n with
      | Err _ => fail 500 "internal_error"%string
      | Ok n => ok 200 [(T "needs_setup", JBool (n =? 0)); (T "version", JStr (st_version cfg));
                        (T "password_login", JBool (st_passwordLogin cfg)); (T "oidc", oidcAdvertisement)]
      end.

Definition handleHealthz (r : request) : M response :=
  ret (ok 200 [(T "status", JStr "ok"%string); (T "version", JStr (st_version cfg))]).

(** [domainStatus] of a domain, and whether it keeps "all up" true. *)
Definition domain_status (d : domain) : M (jval * bool) :=
  let* st := query (fun s => match dt_primary (s_domains s) !! DID d with Some st => Ok st | None => Err not_found end) in
  let* n := query (fun s => Ok (CountPendingForDomain (DID d) (s_queue s))) in
  let up := match st with Ok st => IsUp st | Err _ => false end in
  ret (JObj ([(T "id", JNum (DID d)); (T "name", JStr (DName d)); (T "enabled", JBool (DEnabled d)); (T "is_up", JBool up)]
             ++ match st with
                | Ok st => omit_time (T "since") (if IsUp st then LastUp st else LastDown st)
                | Err _ => []
                end
             ++ [(T "pending", JNum (match n with Ok n => n | Err _ => 0 end))]
             ++ match st with
                | Ok st => omit_text (T "last_error") (PLastError st) ++ omit_time (T "last_check") (LastCheck st)
                | Err _ => []
                end),
       negb (DEnabled d) || up).

Fixpoint domain_statuses (ds : list domain) : M (list jval * bool) :=
  match ds with
  | [] => ret ([], true)
  | d :: ds =>
      let* one := domain_status d in
      let* rest := domain_statuses ds in
      ret (fst one :: fst rest, snd one && snd rest)
  end.

(** The counts of the domains an account may see, or of all. *)
Definition visible_stats (allowed : option (list Z)) : M (result (QueueStats * Z)) :=
  let* stats := query (fun s => Ok (match allowed with
    | Some ids => StatsForDomains ids (s_queue s)
    | None => Stats (s_queue s) end)) in
  match stats with
  | Err e => ret (Err e)
  | Ok stats =>
      let* quarantined := query (fun s => Ok (match allowed with
        | Some ids => CountQuarantinedForDomains ids (s_queue s)
        | None => CountQuarantined (s_queue s) end)) in
      ret match quarantined with Err e => Err e | Ok n => Ok (stats, n) end
  end.

(** [disk] is absent when there is no check. *)
Definition disk_info (disk : option (result Z)) : jmap :=
  match disk with
  | Some avail =>
      if 0 <? st_minDisk cfg then
        [(T "disk", JObj ([(T "min_free_bytes", JNum (st_minDisk cfg)); (T "guard_enabled", JBool true)]
            ++ match avail with
               | Ok avail => [(T "available_bytes", JNum avail); (T "is_low", JBool (avail <? st_minDisk cfg))]
               | Err _ => []
               end))]
      else []
  | None => []
  end.

Definition tls_info (certs : option CertificateState) : jmap :=
  match certs with
  | Some st => [(T "tls", JObj ([(T "source", JStr (cs_Source st)); (T "domain", JStr (cs_Domain st));
                                 (T "since", JTime (cs_Since st))] ++ omit_text (T "last_error") (cs_LastError st)))]
  | None => []
  end.

Definition handleStatus (watching : Z) (disk : option (result Z)) (certs : option CertificateState)
  (p : principal) (r : request) : M response :=
  let u := Some (p_user p) in
  let* domains := query (fun s => Ok (domainsForUser u (dt_domains (s_domains s)))) in
  match domains with
  | Err _ => ret (fail 500 "domain_list_failed"%string)
  | Ok domains =>
      let* allowed := query (fun s => Ok (allowedDomainIDsForUser u (dt_domains (s_domains s)))) in
      match allowed with
      | Err _ => ret (fail 500 "internal_error"%string)
      | Ok allowed =>
          let* counts := visible_stats allowed in
          match counts with
          | Err _ => ret (fail 500 "internal_error"%string)
          | Ok (stats, quarantined) =>
              let* ds := domain_statuses domains in
              let* draining := IsDraining in
              ret (ok 200 ([(T "version", JStr (st_version cfg)); (T "commit", JStr (st_commit cfg)); (T "draining", JBool draining);
                     (T "queue", JObj [(T "pending", JNum (Pending stats)); (T "pending_bytes", JNum (PendingBytes stats));
                        (T "total", JNum (Total stats)); (T "max_messages", JNum (st_maxMessages cfg));
                        (T "max_bytes", JNum (st_maxBytes cfg)); (T "retention", JStr (DurationString (st_retention cfg)))]);
                     (T "domains", JList (fst ds)); (T "all_primaries_up", JBool (snd ds)); (T "quarantined", JNum quarantined);
                     (T "dashboards_watching", JNum watching)]
                    ++ disk_info disk ++ tls_info certs))
          end
      end
  end.

(** ** Drain *)

Definition handleGetDrain (p : principal) (r : request) : M response :=
  let* stats := query (fun s => Ok (Stats (s_queue s))) in
  match stats with
  | Err _ => ret (fail 500 "internal_error"%string)
  | Ok stats =>
      let* draining := IsDraining in
      ret (ok 200 [(T "draining", JBool draining); (T "pending", JNum (Pending stats)); (T "pending_bytes", JNum (PendingBytes stats))])
  end.

(** A body of known length that decodes ([Some]) with the field given; anything else means true. *)
Definition handleSetDrain (contentLength : Z) (body : option (option bool)) (p : principal) (r : request) : M response :=
  let enabled := if 0 <? contentLength then match body with Some (Some b) => b | _ => true end else true in
  SetDraining enabled ;;;
  audit (Some p) r (user_event "maintenance_drain"%string None
    [(T "enabled", JBool enabled); (T "user", JStr (Email (p_user p)))]) ;;;
  Notify "maintenance"%string [(T "draining", JBool enabled)] ;;;
  handleGetDrain p r.

(** ** Security *)

(** The filters of the process, when there are any; [ping] is what clamd says. *)
Definition handleSecurityStatus (dnsbl : option Checker) (clamav : option ClamAVConfig) (ping : option error)
  (spam : option SpamConfig) (p : principal) (r : request) : M response :=
  ret (ok 200
    [(T "dnsbl", match dnsbl with
        | Some c => JObj [(T "enabled", JBool (ck_enabled c)); (T "zones", JStrs (ck_zones c))]
        | None => JObj [(T "enabled", JBool false); (T "zones", JStrs [])]
        end);
     (T "clamav", match clamav with
        | Some c =>
            let a := Clamav.New c in
            JObj [(T "enabled", JBool (ca_Enabled c)); (T "addr", JStr (Addr a));
                  (T "status", JStr (if ca_Enabled c then match ping with None => "online"%string | Some _ => "offline"%string end
                                     else "disabled"%string));
                  (T "action", JStr (sn_action a))]
        | None => JObj [(T "enabled", JBool false); (T "addr", JStr []); (T "status", JStr "disabled"%string); (T "action", JStr [])]
        end);
     (T "rspamd", JObj [(T "enabled", JBool (match spam with Some c => spam_Enabled c | None => false end))])]).

Definition detail_json (d : CheckDetail) : jval :=
  JObj ([(T "zone", JStr (cd_Zone d)); (T "listed", JBool (cd_Listed d))]
        ++ omit_text (T "record") (cd_Record d) ++ omit_text (T "error") (cd_Error d)).

(** The time it took is left out. *)
Definition detailed_json (res : DetailedResult) : jmap :=
  [(T "ip", JStr (ip_text (dr_IP res))); (T "listed", JBool (dr_Listed res))]
  ++ omit_text (T "zone") (dr_Zone res) ++ omit_text (T "record") (dr_Record res)
  ++ [(T "details", JList (map detail_json (dr_Details res)))].

Definition handleTestDNSBL (lookup : text -> result (list text)) (dnsbl : option Checker) (arrivals : list text)
  (body : option text) (p : principal) (r : request) : M response :=
  ret match body with
      | None => fail 400 "invalid_body"%string
      | Some [] => fail 400 "invalid_ip"%string
      | Some addr =>
          match dnsbl with
          | None => fail 503 "dnsbl_not_configured"%string
          | Some c =>
              match CheckDetailed lookup error_text c addr arrivals with
              | Err _ => fail 400 "invalid_ip"%string
              | Ok res => ok 200 (detailed_json res)
              end
          end
      end.
End status.
