(* ===== verification/ConfigIO.v ===== *)
(** * Exporting and importing the configuration (internal/api/configio.go)

    A document is the decoded YAML; decoding and printing YAML belong to a library.  A Go
    map is a list of its entries, and the order in which [range] visits it is an argument. *)

From S2P Require Import Prelude GoStrings Base64 Sha Times Net Errors StoreTypes StoreQueue StoreDomains.
From S2P Require Import Filter Routes StoreUsers Auth SmtpClient RateLimit World Api Account Pages.
From Stdlib Require Import QArith.
Open Scope Z_scope.

Definition configDocVersion : Z := 1.

Record configDomain := ConfigDomain {
  cd_Name : text;
  cd_PrimaryHost : text;
  cd_PrimaryPort : Z;
  cd_PrimaryTLS : text;
  cd_MaxQueueMessages : option Z;
  cd_MonthlySendLimit : option Z;
  cd_RetentionHours : Z;
  cd_Enabled : option bool;
  cd_Recipients : option (list text)
}.

Record configSMTPUser := ConfigSMTPUser {
  cu_Username : text;
  cu_Password : text;
  cu_AllowedDomains : list text;
  cu_Enabled : option bool
}.

Record configDocument := ConfigDocument {
  doc_Version : Z;
  doc_Domains : list configDomain;
  doc_SMTPUsers : list configSMTPUser
}.

(** gopkg.in/yaml.v3.  Decoding fills the document as far as it gets; an empty text is no error here. *)
Class YamlLib := {
  yaml_Decode : text -> option error * configDocument;
  yaml_Marshal : configDocument -> result text
}.

Inductive action := Created | Updated | Unchanged | Skipped.
#[export] Instance action_eq_dec : EqDecision action.
Proof. solve_decision. Defined.

Record changed := Change { ch_Name : text; ch_Action : action }.

Record importPlan := Plan {
  ip_domains : list changed;
  ip_users : list changed;
  ip_createDomains : list domain;
  ip_updateDomains : list domain;
  ip_createUsers : list configSMTPUser;
  ip_enableUsers : list (text * bool);
  ip_setRecipients : list (text * list text)
}.

Definition empty_plan : importPlan := Plan [] [] [] [] [] [] [].

(** What one entry of the document adds. *)
Definition join_plans (a b : importPlan) : importPlan :=
  Plan (ip_domains a ++ ip_domains b) (ip_users a ++ ip_users b) (ip_createDomains a ++ ip_createDomains b)
    (ip_updateDomains a ++ ip_updateDomains b) (ip_createUsers a ++ ip_createUsers b)
    (ip_enableUsers a ++ ip_enableUsers b) (ip_setRecipients a ++ ip_setRecipients b).

Definition changes (p : importPlan) : list changed := ip_domains p ++ ip_users p.
Definition count_action (a : action) (l : list changed) : Z :=
  Z.of_nat (length (List.filter (fun c => bool_decide (ch_Action c = a)) l)).

Definition summary (p : importPlan) : text :=
  let created := count_action Created (changes p) in
  let updated := count_action Updated (changes p) in
  dec created ++ " created, "%string ++ dec updated ++ " updated, "%string
  ++ dec (Z.of_nat (length (ip_domains p)) + Z.of_nat (length (ip_users p)) - created - updated) ++ " unchanged"%string.

Definition changedCount (p : importPlan) : Z := count_action Created (changes p) + count_action Updated (changes p).

Definition sameLimit (a b : option Z) : bool := bool_decide (a = b).

Definition sameDomain (a b : domain) : bool :=
  bool_decide (PrimaryHost a = PrimaryHost b) && (PrimaryPort a =? PrimaryPort b)
  && bool_decide (PrimaryTLS a = PrimaryTLS b) && (RetentionHours a =? RetentionHours b)
  && eqb (DEnabled a) (DEnabled b)
  && sameLimit (MaxQueueMessages a) (MaxQueueMessages b) && sameLimit (MonthlySendLimit a) (MonthlySendLimit b).

(** ** Exporting *)

Definition exported_domain (d : domain) (list : list text) : configDomain :=
  ConfigDomain (DName d) (PrimaryHost d) (PrimaryPort d) (PrimaryTLS d) (MaxQueueMessages d) (MonthlySendLimit d)
    (RetentionHours d) (Some (DEnabled d)) (if bool_decide (list = []) then None else Some list).

Definition exported_user (u : SMTPUser) : configSMTPUser :=
  ConfigSMTPUser (Username u) [] (SAllowedDomains u) (Some (SEnabled u)).

Fixpoint export_domains (ds : list domain) : M (result (list configDomain)) :=
  match ds with
  | [] => ret (Ok [])
  | d :: ds =>
      let* list := query (fun s => Ok (DomainRecipients (DID d) (s_recipients s))) in
      match list with
      | Err e => ret (Err (EWrap ("read recipients of "%string ++ DName d) e))
      | Ok list =>
          let* rest := export_domains ds in
          ret match rest with Err e => Err e | Ok rest => Ok (exported_domain d list :: rest) end
      end
  end.

Definition export_document : M (result configDocument) :=
  let* domains := query (fun s => Ok (ListDomains (dt_domains (s_domains s)))) in
  match domains with
  | Err e => ret (Err (EWrap "read domains"%string e))
  | Ok domains =>
      let* users := query (fun s => Ok (ListSMTPUsers (s_smtp_users s))) in
      match users with
      | Err e => ret (Err (EWrap "read submission accounts"%string e))
      | Ok users =>
          let* ds := export_domains domains in
          ret match ds with
              | Err e => Err e
              | Ok ds => Ok (ConfigDocument configDocVersion ds (map exported_user users))
              end
      end
  end.

Definition preamble : text :=
  concat (map (fun l => T l ++ [LF]) [
    "# XeronMX configuration export."; "#";
    "# Submission passwords are not here and cannot be: only their Argon2id hash is";
    "# stored. Add a `password:` to an account in this file to create it elsewhere."; "#";
    "# Importing this creates what is missing and updates what differs. It never";
    "# deletes: removing a domain destroys the mail queued for it, which stays a";
    "# deliberate single action."; ""]%string).

Section configio.
Context `{YamlLib} `{SmtpLib} `{PasswordCrypto}.
Context (cfg : PagesConfig).
Context (range_ : forall A, list (text * A) -> list (text * A)).   (* the order of a map's entries *)

Definition ExportConfigYAML : M (result text) :=
  let* doc := export_document in
  ret match doc with
      | Err e => Err e
      | Ok doc => match yaml_Marshal doc with
                  | Err e => Err (EWrap "render configuration"%string e)
                  | Ok body => Ok (preamble ++ body)
                  end
      end.

Definition ConfigHash : M (result text) :=
  let* body := ExportConfigYAML in
  ret match body with
      | Err e => Err e
      | Ok body => Ok (hex_encode (take 12 (Sum256 body)))
      end.

(** ** Planning an import *)

Definition request_of (cd : configDomain) : domainRequest :=
  Build_domainRequest (cd_Name cd) (cd_PrimaryHost cd) (cd_PrimaryPort cd) (cd_PrimaryTLS cd) (cd_MaxQueueMessages cd)
    (cd_MonthlySendLimit cd) (cd_RetentionHours cd) (cd_Enabled cd).

(** The name an entry goes by in the document. *)
Definition import_name (s : text) : text := to_lower (trim_space s).

(** The new list of an entry that has one, if it differs from the current one. *)
Definition plan_recipients (name : text) (existing : option domain) (recipients : option (list text))
  : M (text + option (list text)) :=
  match recipients with
  | None => ret (inr None)
  | Some addrs =>
      match validRecipients name addrs with
      | None => ret (inl (name ++ ": every known recipient must be an address in "%string ++ name))
      | Some list =>
          let* current := match existing with
                          | Some d => query (fun s => Ok (DomainRecipients (DID d) (s_recipients s)))
                          | None => ret (Ok [])
                          end in
          ret match current with
              | Err _ => inl (T "could not read the existing recipient lists")
              | Ok current => inr (if bool_decide (current = list) then None else Some list)
              end
      end
  end.

Definition plan_entry (name : text) (existing : option domain) (d : domain) (change : option (list text)) : importPlan :=
  let set := match change with Some list => [(name, list)] | None => [] end in
  match existing with
  | None => Plan [Change name Created] [] [d] [] [] [] set
  | Some e =>
      if sameDomain e d && bool_decide (change = None) then Plan [Change name Unchanged] [] [] [] [] [] set
      else Plan [Change name Updated] [] [] [d] [] [] set
  end.

Definition plan_domain (name : text) (cd : configDomain) : M (text + importPlan) :=
  let* found := query (fun s => DomainByName name (dt_domains (s_domains s))) in
  let existing := match found with Ok d => Some d | Err _ => None end in
  if match found with Err e => negb (is_sentinel ErrNotFound e) | Ok _ => false end
  then ret (inl (T "could not read the existing domains"))
  else
    match domainFromRequest cfg (request_of cd) existing with
    | inl code => ret (inl (name ++ ": "%string ++ code))
    | inr d =>
        let* change := plan_recipients name existing (cd_Recipients cd) in
        ret match change with
            | inl msg => inl msg
            | inr change => inr (plan_entry name existing d change)
            end
    end.

Fixpoint plan_domains (incoming : list text) (cds : list configDomain) : M (text + list text * importPlan) :=
  match cds with
  | [] => ret (inr (incoming, empty_plan))
  | cd :: cds =>
      let name := import_name (cd_Name cd) in
      if bool_decide (name = []) then ret (inl (T "every domain needs a name"))
      else if bool_decide (name ∈ incoming) then ret (inl (quote name ++ " is listed twice"%string))
      else
        let* p := plan_domain name cd in
        match p with
        | inl msg => ret (inl msg)
        | inr p =>
            let* rest := plan_domains (incoming ++ [name]) cds in
            ret match rest with
                | inl msg => inl msg
                | inr (incoming, q) => inr (incoming, join_plans p q)
                end
        end
  end.

(** Every domain an account may send as is configured or about to be: the first that is not. *)
Fixpoint unknown_domain (incoming allowed : list text) : M (option text) :=
  match allowed with
  | [] => ret None
  | ad :: allowed =>
      let name := import_name ad in
      if bool_decide (name ∈ incoming) then unknown_domain incoming allowed
      else
        let* d := query (fun s => DomainByName name (dt_domains (s_domains s))) in
        match d with
        | Err _ => ret (Some ad)
        | Ok _ => unknown_domain incoming allowed
        end
  end.

(** The plan and the warnings. *)
Definition plan_user (username : text) (cu : configSMTPUser) : M (text + importPlan * list text) :=
  let* found := query (fun s => SMTPUserByName username (s_smtp_users s)) in
  ret match found with
      | Err e =>
          if negb (is_sentinel ErrNotFound e) then inl (T "could not read the existing submission accounts")
          else if bool_decide (cu_Password cu = []) then
            inr (Plan [] [Change username Skipped] [] [] [] [] [],
                 [username ++ " was skipped: it does not exist yet and the document carries no password for it"%string])
          else match ValidatePassword (cu_Password cu) with
               | Some e => inl (username ++ ": "%string ++ error_text e)
               | None => inr (Plan [] [Change username Created] [] [] [cu] [] [], [])
               end
      | Ok existing =>
          let warnings :=
            if bool_decide (cu_Password cu = []) then []
            else [username ++ " already exists, so its password was left alone; delete and recreate it to change one"%string] in
          match cu_Enabled cu with
          | Some b =>
              if eqb b (SEnabled existing) then inr (Plan [] [Change username Unchanged] [] [] [] [] [], warnings)
              else inr (Plan [] [Change username Updated] [] [] [] [(username, b)] [], warnings)
          | None => inr (Plan [] [Change username Unchanged] [] [] [] [] [], warnings)
          end
      end.

Fixpoint plan_users (incoming seen : list text) (cus : list configSMTPUser) : M (text + importPlan * list text) :=
  match cus with
  | [] => ret (inr (empty_plan, []))
  | cu :: cus =>
      let username := trim_space (cu_Username cu) in
      if bool_decide (username = []) then ret (inl (T "every submission account needs a username"))
      else if contains_any [SP; TAB; CR; LF] username then ret (inl (quote username ++ " is not a valid username"%string))
      else if bool_decide (username ∈ seen) then ret (inl (quote username ++ " is listed twice"%string))
      else
        let* unknown := unknown_domain incoming (cu_AllowedDomains cu) in
        match unknown with
        | Some ad => ret (inl (username ++ " allows sending as "%string ++ quote ad
                               ++ ", which is not a configured domain and is not in this document either"%string))
        | None =>
            let* p := plan_user username cu in
            match p with
            | inl msg => ret (inl msg)
            | inr (p, warnings) =>
                let* rest := plan_users incoming (seen ++ [username]) cus in
                ret match rest with
                    | inl msg => inl msg
                    | inr (q, more) => inr (join_plans p q, warnings ++ more)
                    end
            end
        end
  end.

Definition planImport (doc : configDocument) : M (text + importPlan * list text) :=
  let* ds := plan_domains [] (doc_Domains doc) in
  match ds with
  | inl msg => ret (inl msg)
  | inr (incoming, p) =>
      let* us := plan_users incoming [] (doc_SMTPUsers doc) in
      ret match us with
          | inl msg => inl msg
          | inr (q, warnings) => inr (join_plans p q, warnings)
          end
  end.

(** ** Applying a plan: it stops at the first failure, and what was done stays *)

Fixpoint each {A} (l : list A) (f : A -> M (result unit)) : M (result unit) :=
  match l with
  | [] => ret (Ok tt)
  | x :: l => let* r := f x in match r with Err e => ret (Err e) | Ok _ => each l f end
  end.

(** [fmt.Errorf("... %s: %w")]. *)
Definition wrapped {A} (what name : text) (r : result A) : result unit :=
  match r with Err e => Err (EWrap (what ++ name) e) | Ok _ => Ok tt end.

Definition apply_create (d : domain) : M (result unit) :=
  let* now := now_ in
  let* r := on_domains (CreateDomain d now) in ret (wrapped "create domain "%string (DName d) r).

Definition apply_update (d : domain) : M (result unit) :=
  let* now := now_ in
  let* r := on_domain_rows (UpdateDomain d now) in ret (wrapped "update domain "%string (DName d) r).

Definition apply_recipients (entry : text * list text) : M (result unit) :=
  let '(name, list) := entry in
  let* d := query (fun s => DomainByName name (dt_domains (s_domains s))) in
  match d with
  | Err e => ret (Err (EWrap ("look up "%string ++ name) e))
  | Ok d =>
      let* r := on_recipients (fun ds => SetDomainRecipients ds (DID d) list) in
      ret (wrapped "set recipients of "%string name r)
  end.

Definition apply_new_user (cu : configSMTPUser) : M (result unit) :=
  let* salt := random_bytes saltLen in
  match HashPassword salt (cu_Password cu) with
  | Err e => ret (Err (EWrap ("hash password for "%string ++ cu_Username cu) e))
  | Ok hash =>
      let* now := now_ in
      let* r := on_smtp_users (CreateSMTPUser (cu_Username cu) hash (cu_AllowedDomains cu) now) in
      ret (wrapped "create submission account "%string (cu_Username cu) r)
  end.

Definition apply_enable (entry : text * bool) : M (result unit) :=
  let '(username, enabled) := entry in
  let* u := query (fun s => SMTPUserByName username (s_smtp_users s)) in
  match u with
  | Err e => ret (Err (EWrap ("look up "%string ++ username) e))
  | Ok u =>
      let* r := on_smtp_users (SetSMTPUserEnabled (SID u) enabled) in
      ret (wrapped "update "%string username r)
  end.

Definition and_then (m k : M (result unit)) : M (result unit) :=
  let* r := m in match r with Err e => ret (Err e) | Ok _ => k end.

Definition applyImport (plan : importPlan) : M (result unit) :=
  and_then (each (ip_createDomains plan) apply_create)
  (and_then (each (ip_updateDomains plan) apply_update)
  (and_then (each (range_ _ (ip_setRecipients plan)) apply_recipients)
  (and_then (each (ip_createUsers plan) apply_new_user)
            (each (range_ _ (ip_enableUsers plan)) apply_enable)))).

Record report := Report {
  rp_dry_run : bool;
  rp_domains : list changed;
  rp_smtp_users : list changed;
  rp_warnings : list text;
  rp_description : text;
  rp_changed : Z
}.

(** [inl None] is [errBadConfigDocument]. *)
Definition ApplyConfigYAML (raw : text) (dryRun : bool) : M (option error + report) :=
  let '(err, doc) := yaml_Decode raw in
  match err with
  | Some _ => ret (inl None)
  | None =>
      if negb (doc_Version doc =? 0) && negb (doc_Version doc =? configDocVersion) then ret (inl None)
      else
        let* p := planImport doc in
        match p with
        | inl _ => ret (inl None)
        | inr (plan, warnings) =>
            let rep := Report dryRun (ip_domains plan) (ip_users plan) warnings (summary plan) (changedCount plan) in
            if dryRun then ret (inr rep)
            else
              let* r := applyImport plan in
              ret match r with Err e => inl (Some e) | Ok _ => inr rep end
        end
  end.

(** ** The two pages *)

Definition handleExportConfig (p : principal) (r : request) : M response :=
  let* body := ExportConfigYAML in
  ret match body with
      | Err _ => fail 500 "config_export_failed"%string
      | Ok body => ok 200 [(T "body", JStr body)]
      end.

(** [None] is a body that is too large. *)
Definition handleImportConfig (dry_run : text) (raw : option text) (p : principal) (r : request) : M response :=
  let dryRun := bool_decide (dry_run = "true"%string) in
  match raw with
  | None => ret (fail 413 "request_too_large"%string)
  | Some raw =>
      let* rep := ApplyConfigYAML raw dryRun in
      match rep with
      | inl None => ret (fail 400 "invalid_config"%string)
      | inl (Some _) => ret (fail 500 "config_import_failed"%string)
      | inr rep =>
          (if dryRun then ret (Ok tt)
           else audit (Some p) r (Event "config_imported"%string None None (Some (UID (p_user p)))
                  [(T "summary", JStr (rp_description rep))])) ;;;
          ret (ok 200 [(T "dry_run", JBool (rp_dry_run rep)); (T "warnings", JStrs (rp_warnings rep));
                       (T "description", JStr (rp_description rep)); (T "changed", JNum (rp_changed rep))])
      end
  end.
End configio.
