(* ===== verification/SecretProps.v ===== *)
(** * What the pages do with secrets: none is shown, all are sealed, and a key signs once it is published *)

From S2P Require Import Prelude GoStrings Base64 Times Errors StoreTypes StoreQueue StoreDomains StoreWebhooks.
From S2P Require Import Filter Routes Dkim Dmarc StoreUsers Auth SmtpClient World Blob BlobProps Webhook.
From S2P Require Import Api Account AccountProps Pages PagesProps UserPages RulePages OutboundPages HookPages ConfigIO.
From Stdlib Require Import QArith.
Open Scope Z_scope.

(** ** A state without its secrets *)

(** Whether there is one is no secret. *)
Definition mask (s : text) : text := if bool_decide (s = []) then [] else "*"%string.

Lemma mask_empty s : bool_decide (mask s = []) = bool_decide (s = []).
Proof. unfold mask. by destruct (bool_decide_reflect (s = [])); [subst|]. Qed.

Definition mask_user (u : User) : User := with_totp [] (TOTPEnabled u) 0 (with_password (mask (PasswordHash u)) u).

Definition mask_token (k : APIToken) : APIToken :=
  {| TokID := TokID k; TokName := TokName k; TokPrefix := TokPrefix k; TokHash := []; TokRole := TokRole k;
     CreatedBy := CreatedBy k; TokCreatedAt := TokCreatedAt k; TokExpiresAt := TokExpiresAt k; TokLastUsedAt := TokLastUsedAt k |}.

Definition mask_session (r : session_row) : session_row :=
  SessionRow [] (sr_user r) (sr_created r) (sr_expires r) (sr_agent r).

Definition mask_code (c : recovery_row) : recovery_row := {| rr_user := rr_user c; rr_hash := []; rr_used := rr_used c |}.

Definition mask_tables (t : user_tables) : user_tables :=
  Users (map mask_user (ut_users t)) (ut_next t) (map mask_session (ut_sessions t)) (map mask_code (ut_codes t))
    (map mask_token (ut_tokens t)) (ut_next_token t).

Definition mask_route (r : Route) : Route := with_relay_password (mask (RelayPassword r)) r.

Definition mask_key (k : DKIMKey) : DKIMKey :=
  {| KDomainID := KDomainID k; Selector := Selector k; Algorithm := Algorithm k; PrivateKey := []; PublicKey := PublicKey k;
     KEnabled := KEnabled k; KCreatedAt := KCreatedAt k |}.

Definition mask_hook (w : Webhook) : Webhook := with_secret (mask (WSecret w)) w.

Definition mask_account (u : SMTPUser) : SMTPUser :=
  {| SID := SID u; Username := Username u; SPasswordHash := []; SAllowedDomains := SAllowedDomains u;
     SEnabled := SEnabled u; SCreatedAt := SCreatedAt u; LastUsedAt := LastUsedAt u |}.

Definition blind (s : state) : state :=
  set_s_users (mask_tables (s_users s))
    (set_s_routes (RouteTable (map mask_route (rt_rows (s_routes s))) (rt_next (s_routes s)))
      (set_s_dkim (mask_key <$> s_dkim s)
        (set_s_hooks (set_hooks (map mask_hook (ht_hooks (s_hooks s))) (s_hooks s))
          (set_s_smtp_users (SMTPUsers (map mask_account (su_rows (s_smtp_users s))) (su_next (s_smtp_users s))) s)))).

(** ** Computations that cannot tell *)

Definition related {A B} (R : A -> B -> Prop) (m : M A) (m' : M B) : Prop :=
  forall s e, let '(a, w) := m (World s e) in
    exists b, m' (World (blind s) e) = (b, World (blind (st w)) (wenv w)) /\ R a b.

Definition results {A B} (R : A -> B -> Prop) (a : result A) (b : result B) : Prop :=
  match a, b with Ok a, Ok b => R a b | Err e, Err e' => e = e' | _, _ => False end.

Lemma related_ret {A B} (R : A -> B -> Prop) a b : R a b -> related R (ret a) (ret b).
Proof. intros H s e. cbn. eauto. Qed.

Lemma related_bind {A B C D} (R : A -> B -> Prop) (Q : C -> D -> Prop) m m' (k : A -> M C) (k' : B -> M D) :
  related R m m' -> (forall a b, R a b -> related Q (k a) (k' b)) -> related Q (bind m k) (bind m' k').
Proof.
  intros Hm Hk s e. unfold bind. specialize (Hm s e). destruct (m (World s e)) as [a [s1 e1]]. destruct Hm as (b & -> & Hab).
  apply (Hk a b Hab).
Qed.

Lemma related_query {A B} (R : A -> B -> Prop) f g :
  (forall s, results R (f s) (g (blind s))) -> related (results R) (query f) (query g).
Proof.
  intros H s e. unfold query, statement, bind, next_fault, ret. cbn.
  destruct (e_faults e) as [|[x|] fs]; cbn; eexists; (split; [reflexivity|]); [apply H|reflexivity|apply H].
Qed.

Lemma related_now : related eq now_ now_.
Proof. intros s e. unfold now_. cbn. destruct (e_ticks e); cbn; eexists; (split; [|reflexivity]); by destruct s. Qed.

(** A page that reads, on both sides. *)
Definition unseeing (m : M response) : Prop := related eq m m.

(** Both sides read the same rows, or fail alike. *)
Lemma unseeing_query {A B} (R : A -> B -> Prop) f g (k : result A -> M response) (k' : result B -> M response) :
  (forall s, results R (f s) (g (blind s))) ->
  (forall e, related eq (k (Err e)) (k' (Err e))) -> (forall a b, R a b -> related eq (k (Ok a)) (k' (Ok b))) ->
  related eq (bind (query f) k) (bind (query g) k').
Proof.
  intros Hfg He Hk. eapply related_bind; [by apply related_query|]. intros [a|e] [b|e'] Hab; cbn in Hab; [auto|done..|by subst].
Qed.

Lemma unseeing_same {A} (f : state -> result A) (k : result A -> M response) :
  (forall s, f (blind s) = f s) -> (forall r, related eq (k r) (k r)) -> related eq (bind (query f) k) (bind (query f) k).
Proof.
  intros Hf Hk. apply (unseeing_query eq); [|intros; apply Hk|by intros a b ->].
  intros s. rewrite Hf. by destruct (f s).
Qed.

Lemma unseeing_ret (rs rs' : response) : rs = rs' -> related eq (ret rs) (ret rs').
Proof. apply related_ret. Qed.

(** ** The lists *)

Lemma renderUser_mask u : renderUser (mask_user u) = renderUser u.
Proof.
  unfold renderUser, HasPassword, FromDirectory. cbn. by rewrite mask_empty.
Qed.

Lemma unseeing_users p r : unseeing (handleListUsers p r).
Proof.
  apply (unseeing_query (fun a b => b = map mask_user a)); [|intros; by apply unseeing_ret|].
  - intros s. apply (merge_sort_map created_le created_le mask_user). intros u v. done.
  - intros us ? ->. apply unseeing_ret. rewrite map_map. by setoid_rewrite renderUser_mask.
Qed.

Lemma unseeing_tokens p r : unseeing (handleListTokens p r).
Proof.
  apply (unseeing_query (fun a b => b = map mask_token a)); [|intros; by apply unseeing_ret|].
  - intros s. cbn. unfold ListAPITokens. cbn. by rewrite map_rev.
  - intros ks ? ->. eapply related_bind; [apply related_now|]. intros now ? <-. apply unseeing_ret. by rewrite map_map.
Qed.

Lemma unseeing_me p r : unseeing (handleMe p r).
Proof.
  unfold unseeing, handleMe. destruct (TOTPEnabled (p_user p)).
  - apply (unseeing_same (fun s => Ok (Some (RecoveryCodesLeft (UID (p_user p)) (s_users s))))); [|intros; by apply unseeing_ret].
    intros s. unfold RecoveryCodesLeft, affected. cbn. do 2 f_equal. f_equal. induction (ut_codes (s_users s)) as [|c cs IH]; [done|].
    cbn. destruct (_ && _); cbn; congruence.
  - eapply related_bind; [by apply (related_ret eq)|]. intros a ? <-. by apply unseeing_ret.
Qed.

(** ** Routes, subscriptions and domains *)

Lemma routeJSON_mask r : routeJSON (mask_route r) = routeJSON r.
Proof. unfold routeJSON. cbn. by rewrite mask_empty. Qed.

Lemma ListRoutes_mask s : ListRoutes (s_routes (blind s)) = map mask_route (ListRoutes (s_routes s)).
Proof. apply (merge_sort_map route_le route_le mask_route). intros a b. done. Qed.

Lemma unseeing_routes p r : unseeing (handleListRoutes p r).
Proof.
  apply (unseeing_query (fun a b => b = map mask_route a)); [|intros; by apply unseeing_ret|].
  - intros s. apply ListRoutes_mask.
  - intros rs ? ->. apply unseeing_ret. rewrite map_map. by setoid_rewrite routeJSON_mask.
Qed.

Lemma best_route_mask dest best rs :
  best_route dest (option_map mask_route best) (map mask_route rs) = option_map mask_route (best_route dest best rs).
Proof.
  revert best. induction rs as [|r rs IH]; intros best; [done|]. cbn.
  destruct (negb _ || negb _); [done|]. destruct best as [b|]; cbn; [|apply (IH (Some r))].
  case_match; [apply (IH (Some r))|apply (IH (Some b))].
Qed.

Lemma unseeing_test_route global dest p r : unseeing (handleTestRoute global dest p r).
Proof.
  unfold unseeing, handleTestRoute. destruct (bool_decide _); [by apply unseeing_ret|].
  apply (unseeing_query (fun a b => b = mask_route a)); [|intros; by apply unseeing_ret|intros a ? ->; by apply unseeing_ret].
  intros s. unfold RouteFor. rewrite ListRoutes_mask, (best_route_mask _ None). by destruct (best_route _ _ _).
Qed.

Lemma viewWebhook_mask w : viewWebhook (mask_hook w) = viewWebhook w.
Proof. unfold viewWebhook. cbn. by rewrite mask_empty. Qed.

Lemma unseeing_webhooks hooks p r : unseeing (handleListWebhooks hooks p r).
Proof.
  apply (unseeing_query (fun a b => b = map mask_hook a)); [done|intros; by apply unseeing_ret|].
  intros ws ? ->. apply unseeing_ret. rewrite map_map. by setoid_rewrite viewWebhook_mask.
Qed.

Lemma webhook_name_mask ws id : webhook_name (map mask_hook ws) id = webhook_name ws id.
Proof.
  unfold webhook_name. induction ws as [|w ws IH]; [done|]. cbn. unfold hook_by in *. cbn. by destruct (_ =? _).
Qed.

Lemma unseeing_deliveries id limit p r : unseeing (handleListDeliveries id limit p r).
Proof.
  apply unseeing_same; [|intros; by apply unseeing_ret].
  intros s. cbn. f_equal. apply map_ext. intros d. unfold viewDelivery. by rewrite webhook_name_mask.
Qed.

Lemma related_lookup p segment : related eq (lookupDomain p segment) (lookupDomain p segment).
Proof.
  unfold lookupDomain. destruct (pathID segment); [|by apply related_ret].
  eapply related_bind; [by apply (related_query eq); intros s; cbn; destruct (DomainByID _ _)|].
  intros [d|e] [d'|e'] E; cbn in E; try done; subst; by apply related_ret.
Qed.

Lemma unseeing_domain p segment (k : response + domain -> M response) :
  (forall rs, k (inl rs) = ret rs) -> (forall d, unseeing (k (inr d))) -> unseeing (bind (lookupDomain p segment) k).
Proof.
  intros Hl Hr. eapply related_bind; [apply related_lookup|]. intros [rs|d] ? <-; [rewrite Hl; by apply unseeing_ret|apply Hr].
Qed.

Lemma unseeing_key d (f g : result DKIMKey -> response) :
  (forall e, f (Err e) = g (Err e)) -> (forall k, f (Ok k) = g (Ok (mask_key k))) -> related eq (let* k := key_of d in ret (f k)) (let* k := key_of d in ret (g k)).
Proof.
  intros He Hk. apply (unseeing_query (fun a b => b = mask_key a)); [|intros; by apply unseeing_ret|intros a ? ->; by apply unseeing_ret].
  intros s. unfold DKIMKeyFor. cbn. rewrite lookup_fmap. by destruct (s_dkim s !! DID d).
Qed.

Lemma ListSMTPUsers_mask s :
  ListSMTPUsers (s_smtp_users (blind s)) = map mask_account (ListSMTPUsers (s_smtp_users s)).
Proof. apply (merge_sort_map username_le username_le mask_account). intros a b. done. Qed.

Lemma unseeing_accounts p r : unseeing (handleListSMTPUsers p r).
Proof.
  apply (unseeing_query (fun a b => b = map mask_account a)); [|intros; by apply unseeing_ret|].
  - intros s. apply ListSMTPUsers_mask.
  - intros us ? ->. apply unseeing_ret. by rewrite map_map.
Qed.

Lemma related_export_domains ds : related eq (export_domains ds) (export_domains ds).
Proof.
  induction ds as [|d ds IH]; [by apply related_ret|]. cbn.
  eapply related_bind; [by apply (related_query eq)|]. intros [l|e] [l'|e'] E; cbn in E; try done; subst; [|by apply related_ret].
  eapply related_bind; [apply IH|]. intros rest ? <-. by apply related_ret.
Qed.

Lemma related_export : related eq export_document export_document.
Proof.
  unfold export_document. eapply related_bind; [by apply (related_query eq)|].
  intros [ds|e] [?|?] E; cbn in E; try done; subst; [|by apply related_ret].
  eapply related_bind; [apply (related_query (fun a b => b = map mask_account a)); intros s; apply ListSMTPUsers_mask|].
  intros [us|e] [?|?] E; cbn in E; try done; subst; [|by apply related_ret].
  eapply related_bind; [apply related_export_domains|]. intros l ? <-. apply related_ret. by rewrite map_map.
Qed.

Section pages.
Context `{SmtpLib} `{DohLib} `{DmarcLib} `{YamlLib} (cfg : PagesConfig).

Lemma unseeing_get_dkim segment p r : unseeing (handleGetDKIM segment p r).
Proof. apply unseeing_domain; [done|]. intros d. by apply unseeing_key. Qed.

Lemma unseeing_check_dkim segment p r : unseeing (handleCheckDKIM segment p r).
Proof. apply unseeing_domain; [done|]. intros d. by apply unseeing_key. Qed.

Lemma unseeing_dmarc segment p r : unseeing (handleGetDMARC segment p r).
Proof. apply unseeing_domain; [done|]. intros d. by apply unseeing_key. Qed.

Lemma unseeing_dns segment p r : unseeing (handleDomainDNS cfg segment p r).
Proof. apply unseeing_domain; [done|]. intros d. by apply unseeing_key. Qed.

Lemma unseeing_export p r : unseeing (handleExportConfig p r).
Proof.
  unfold unseeing, handleExportConfig, ExportConfigYAML. apply (related_bind eq); [|intros a ? <-; by apply related_ret].
  apply (related_bind eq); [apply related_export|]. intros a ? <-. by apply related_ret.
Qed.

(** The pages that read what has secrets. *)
Inductive reading :=
  | ReadUsers | ReadTokens | ReadMe | ReadAccounts | ReadRoutes | TryRoute (global : text * text) (destination : text)
  | ReadDKIM (segment : text) | ReadDKIMCheck (segment : text) | ReadDMARC (segment : text) | ReadDNS (segment : text)
  | ReadWebhooks (hooks : bool) | ReadDeliveries (webhook_id limit : text) | ReadConfig.

Definition read_page (g : reading) : principal -> request -> M response :=
  match g with
  | ReadUsers => handleListUsers
  | ReadTokens => handleListTokens
  | ReadMe => handleMe
  | ReadAccounts => handleListSMTPUsers
  | ReadRoutes => handleListRoutes
  | TryRoute global dest => handleTestRoute global dest
  | ReadDKIM seg => handleGetDKIM seg
  | ReadDKIMCheck seg => handleCheckDKIM seg
  | ReadDMARC seg => handleGetDMARC seg
  | ReadDNS seg => handleDomainDNS cfg seg
  | ReadWebhooks hooks => handleListWebhooks hooks
  | ReadDeliveries id limit => handleListDeliveries id limit
  | ReadConfig => handleExportConfig
  end.

Lemma read_page_unseeing g p r : unseeing (read_page g p r).
Proof.
  destruct g; cbn [read_page]; auto using unseeing_users, unseeing_tokens, unseeing_me, unseeing_accounts, unseeing_routes, unseeing_test_route,
    unseeing_get_dkim, unseeing_check_dkim, unseeing_dmarc, unseeing_dns, unseeing_webhooks, unseeing_deliveries, unseeing_export.
Qed.

(** C28: no page that lists or shows what has a secret lets on anything about it but whether there is one: two servers
    that differ only in password hashes, one-time secrets, recovery codes, token and session hashes, relay
    passwords, private keys and signing secrets answer every such request, and export their configuration,
    in the very same words. *)
Theorem secrets_not_shown g p r s s' e :
  blind s = blind s' -> fst (read_page g p r (World s e)) = fst (read_page g p r (World s' e)).
Proof.
  intros Eb. pose proof (read_page_unseeing g p r s e) as Ha. pose proof (read_page_unseeing g p r s' e) as Hb.
  destruct (read_page g p r (World s e)) as [a w], (read_page g p r (World s' e)) as [b w'].
  destruct Ha as (a' & E1 & ->), Hb as (b' & E2 & ->). cbn. rewrite Eb in E1. congruence.
Qed.
End pages.

(** ** Every secret is stored sealed, and opens to what it was *)

Section sealing.
Context `{SmtpLib} `{DohLib} `{KeyGenLib} `{AddressLib} `{AEADLaws} (md : mode).
Context (master : text).

Definition opens (sealed plaintext : text) : Prop := Unseal master sealed = Ok plaintext.

(** What is stored for a secret that may not be given. *)
Definition kept_sealed (plaintext stored : text) : Prop := if bool_decide (plaintext = []) then stored = [] else opens stored plaintext.

Definition sealed_text (stored : text) : Prop := stored = [] \/ exists plaintext, opens stored plaintext.

Record sealed_at (s : state) : Prop := {
  sealed_routes : Forall (fun r => sealed_text (RelayPassword r)) (rt_rows (s_routes s));
  sealed_hooks : Forall (fun w => sealed_text (WSecret w)) (ht_hooks (s_hooks s));
  sealed_keys : map_Forall (fun _ k => exists pem, opens (PrivateKey k) pem) (s_dkim s)
}.

Lemma kept_sealed_text plaintext stored : kept_sealed plaintext stored -> sealed_text stored.
Proof. unfold kept_sealed, sealed_text. case_bool_decide; eauto. Qed.

Lemma wp_seal plaintext Q s :
  (forall e, Q (Err e) s) -> (forall sealed, opens sealed plaintext -> Q (Ok sealed) s) -> wp md (seal master plaintext) Q s.
Proof.
  intros He Hok. apply wp_bind, wp_random_bytes.
  - intros e. apply wp_bind, wp_random_bytes; intros; apply wp_ret, He.
  - intros salt Hs. apply wp_bind, wp_random_bytes; [intros; apply wp_ret, He|]. intros nonce Hn. apply wp_ret. apply Hok.
    by apply (Seal_Unseal master salt nonce plaintext _ []).
Qed.


Definition secret_parts (s : state) := (s_routes s, s_hooks s, s_dkim s).

Lemma keeps_secrets_audit p r ev : keeps secret_parts (audit p r ev).
Proof. by apply keeps_audit. Qed.

Lemma wp_on_routes {A} (f : route_table -> result A * route_table) Q s :
  (forall e, Q (Err e) s) -> (let '(r, t) := f (s_routes s) in Q r (set_s_routes t s)) -> wp md (on_routes f) Q s.
Proof. intros He Hf. apply wp_statement; [auto|]. by destruct (f (s_routes s)). Qed.

Lemma wp_hook_tables {A} (f : hook_tables -> result A * hook_tables) Q s :
  (forall e, Q (Err e) s) -> (let '(r, t) := f (s_hooks s) in Q r (set_s_hooks t s)) -> wp md (on_hooks f) Q s.
Proof. intros He Hf. apply wp_statement; [auto|]. by destruct (f (s_hooks s)). Qed.

Lemma wp_on_dkim {A} (f : list domain -> gmap Z DKIMKey -> result A * gmap Z DKIMKey) Q s :
  (forall e, Q (Err e) s) ->
  (let '(r, t) := f (dt_domains (s_domains s)) (s_dkim s) in Q r (set_s_dkim t s)) -> wp md (on_dkim f) Q s.
Proof. intros He Hf. apply wp_statement; [auto|]. by destruct (f _ _). Qed.

(** *** Routes *)

Lemma wp_seal_password password rt Q s :
  (forall e, Q (Err e) s) ->
  (forall rt', (if bool_decide (password = []) then RelayPassword rt' = RelayPassword rt else opens (RelayPassword rt') password) ->
     RID rt' = RID rt -> Q (Ok rt') s) -> wp md (seal_password master password rt) Q s.
Proof.
  intros He Hok. unfold seal_password. case_bool_decide; [by apply wp_ret, Hok|].
  apply wp_bind, wp_seal; [intros; apply wp_ret, He|]. intros sealed Ho. by apply wp_ret, Hok.
Qed.

Lemma routeFromRequest_keeps req existing rt :
  routeFromRequest req existing = inr rt ->
  RelayPassword rt = RelayPassword (default new_route existing) /\ RID rt = RID (default new_route existing).
Proof. unfold routeFromRequest. repeat case_match; by intros [= <-]. Qed.
Lemma sealed_same s s' : secret_parts s' = secret_parts s -> sealed_at s -> sealed_at s'.
Proof. intros [= E1 E2 E3] []. split; by rewrite ?E1, ?E2, ?E3. Qed.

Lemma sealed_set_routes s t :
  sealed_at s -> Forall (fun r => sealed_text (RelayPassword r)) (rt_rows t) -> sealed_at (set_s_routes t s).
Proof. intros [] Hr. by split. Qed.

Lemma wp_create_route body p r s :
  sealed_at s -> wp md (handleCreateRoute master body p r)
    (fun rs s' => sealed_at s' /\ (rs_status rs = 201 ->
       exists req rt, body = Some req /\ last (rt_rows (s_routes s')) = Some rt /\ kept_sealed (rr_RelayPassword req) (RelayPassword rt))) s.
Proof.
  intros Hs. unfold handleCreateRoute. destruct body as [req|]; [|by apply wp_ret].
  destruct (routeFromRequest req None) as [code|rt] eqn:Er; [by apply wp_ret|]. apply routeFromRequest_keeps in Er as [Ep _].
  apply wp_bind, wp_seal_password; [intros; by apply wp_ret|]. intros rt' Hrt' _.
  assert (Hk : kept_sealed (rr_RelayPassword req) (RelayPassword rt')) by (unfold kept_sealed; case_bool_decide; [by rewrite Hrt', Ep|done]).
  apply wp_bind, wp_now. intros now _. set (s1 := set_s_now now s). assert (Hs1 : sealed_at s1) by exact (sealed_same s s1 eq_refl Hs).
  apply wp_bind, wp_on_routes; [intros e; apply wp_ret; by destruct (unique_error e)|].
  unfold CreateRoute. destruct (negb _); [apply wp_ret; split; [apply sealed_set_routes; by destruct Hs1|by destruct (unique_error _)]|].
  destruct (existsb _ _); [apply wp_ret; split; [apply sealed_set_routes; by destruct Hs1|by destruct (unique_error _)]|].
  set (s2 := set_s_routes _ s1). assert (Hs2 : sealed_at s2).
  { apply sealed_set_routes; [done|]. apply Forall_app. split; [apply Hs1|]. apply Forall_singleton. eapply kept_sealed_text, Hk. }
  apply wp_bind, wp_query; [intros|];
    (apply (wp_frame secret_parts); [apply keeps_secrets_audit|]; intros _ s' E; apply wp_ret;
     split; [by apply (sealed_same s2)|]; intros _; exists req, (route_row (rt_next (s_routes s)) now rt');
     injection E as -> _ _; split_and!; [done|apply last_snoc|done]).
Qed.

Lemma wp_update_route segment body p r s :
  sealed_at s -> wp md (handleUpdateRoute master segment body p r)
    (fun rs s' => sealed_at s' /\ (rs_status rs = 200 ->
       exists req id old, body = Some req /\ pathID segment = Some id /\ old ∈ rt_rows (s_routes s) /\ RID old = id /\
         existsb (route_is id) (rt_rows (s_routes s')) = true /\
         forall rt, rt ∈ rt_rows (s_routes s') -> RID rt = id ->
           if bool_decide (rr_RelayPassword req = []) then RelayPassword rt = RelayPassword old
           else opens (RelayPassword rt) (rr_RelayPassword req))) s.
Proof.
  intros Hs. unfold handleUpdateRoute. destruct (pathID segment) as [id|]; [|by apply wp_ret].
  apply wp_bind, wp_query; [intros; apply wp_ret; by case_match|]. unfold RouteByID.
  destruct (find (route_is id) _) as [old|] eqn:Ef; [|by apply wp_ret]. apply find_some in Ef as [Hin Hid].
  apply list_elem_of_In in Hin. apply Z.eqb_eq in Hid.
  destruct body as [req|]; [|by apply wp_ret].
  destruct (routeFromRequest req (Some old)) as [code|rt] eqn:Er; [by apply wp_ret|]. apply routeFromRequest_keeps in Er as [Ep Ei].
  cbn in Ep, Ei.
  apply wp_bind, wp_seal_password; [intros; by apply wp_ret|]. intros rt' Hrt' Hid'. rewrite Ep in Hrt'. rewrite Hid in Ei. rewrite Ei in Hid'.
  assert (Hst : sealed_text (RelayPassword rt')).
  { case_bool_decide; [|right; eauto]. rewrite Hrt'. destruct Hs as [Hr _ _]. rewrite Forall_forall in Hr. by apply Hr. }
  apply wp_bind, wp_on_routes; [intros; by apply wp_ret|].
  unfold UpdateRoute. rewrite Hid'. destruct (existsb (route_is id) _) eqn:Ee; cbn [negb];
    [|apply wp_ret; split; [apply sealed_set_routes; by destruct Hs|done]].
  destruct (negb (route_checks rt')); [apply wp_ret; split; [apply sealed_set_routes; by destruct Hs|done]|].
  match goal with |- context [if ?b then (Err _, _) else _] => destruct b end;
    [apply wp_ret; split; [apply sealed_set_routes; by destruct Hs|done]|].
  apply wp_ret. split.
  - apply sealed_set_routes; [done|]. cbn. apply Forall_map, (Forall_impl _ _ _ (sealed_routes _ Hs)). intros o Ho. cbn. by destruct (route_is id o).
  - intros _. exists req, id, old. split_and!; try done; cbn.
    + apply existsb_exists in Ee as (o & Ho & Hoi). apply existsb_exists. exists (route_row (RID o) (RCreatedAt o) rt').
      split; [|done]. apply in_map_iff. exists o. by rewrite Hoi.
    + intros o' Ho' Hi. apply list_elem_of_fmap in Ho' as (o & -> & Ho). unfold route_is in Hi |- *.
      destruct (Z.eqb_spec (RID o) id); cbn in *; [done|congruence].
Qed.

(** *** Subscriptions *)

(** The secret a request leaves, and what the reply shows of it. *)
Definition secret_given (requested : option text) (shown : jmap) (stored : text) : Prop :=
  match requested with
  | Some plaintext => kept_sealed plaintext stored
  | None => exists plaintext, opens stored plaintext /\ (T "secret", JStr plaintext) ∈ shown
  end.

Lemma EncodeToString_nonempty al b : b <> [] -> EncodeToString al b <> [].
Proof. destruct b as [|? [|? [|? ?]]]; [done|discriminate..]. Qed.

Lemma wp_sealWebhookSecret requested Q s :
  (forall e, Q (Err e) s) ->
  (forall secret shown, secret_given requested (secret_fields shown) secret -> sealed_text secret -> Q (Ok (secret, shown)) s) ->
  wp md (sealWebhookSecret master requested) Q s.
Proof.
  intros He Hok. unfold sealWebhookSecret. destruct requested as [[|c cs]|].
  - apply wp_ret, Hok; [done|by left].
  - apply wp_bind, wp_seal; [intros; apply wp_ret, He|]. intros sealed Ho. apply wp_ret, Hok; [done|right; eauto].
  - apply wp_bind, wp_random_bytes; [intros; apply wp_ret, He|]. intros b Hb.
    apply wp_bind, wp_seal; [intros; apply wp_ret, He|]. intros sealed Ho. apply wp_ret, Hok; [|right; eauto].
    exists (EncodeToString url_alphabet b). split; [done|]. unfold secret_fields.
    rewrite bool_decide_eq_false_2 by (apply EncodeToString_nonempty; by destruct b). apply list_elem_of_here.
Qed.

Lemma sealed_set_hooks s t :
  sealed_at s -> Forall (fun w => sealed_text (WSecret w)) (ht_hooks t) -> sealed_at (set_s_hooks t s).
Proof. intros [] Hw. by split. Qed.

Lemma secret_given_more requested shown more stored : secret_given requested shown stored -> secret_given requested (more ++ shown) stored.
Proof. destruct requested; [done|]. intros (pt & Ho & Hin). exists pt. split; [done|]. apply elem_of_app. by right. Qed.

Lemma wp_create_webhook body p r s :
  sealed_at s -> wp md (handleCreateWebhook master body p r)
    (fun rs s' => sealed_at s' /\ (rs_status rs = 201 ->
       exists req w, body = Some req /\ last (ht_hooks (s_hooks s')) = Some w /\ secret_given (wq_Secret req) (rs_body rs) (WSecret w))) s.
Proof.
  intros Hs. unfold handleCreateWebhook. destruct body as [req|]; [|by apply wp_ret].
  destruct (validateWebhook _ _ _) as [[name events]|]; [|by apply wp_ret].
  apply wp_bind, wp_sealWebhookSecret; [intros; by apply wp_ret|]. intros secret shown Hsec Hst.
  apply wp_bind, wp_now. intros now _. set (s1 := set_s_now now s). assert (Hs1 : sealed_at s1) by exact (sealed_same s s1 eq_refl Hs).
  apply wp_bind, wp_hook_tables; [intros; by apply wp_ret|]. unfold CreateWebhook.
  set (s2 := set_s_hooks _ s1). assert (Hs2 : sealed_at s2).
  { apply sealed_set_hooks; [done|]. apply Forall_app. split; [apply Hs1|]. by apply Forall_singleton. }
  apply wp_bind, wp_now. intros created _.
  apply (wp_frame secret_parts); [apply keeps_secrets_audit|]. intros _ s' E. apply wp_ret.
  split; [by apply (sealed_same s2)|]. intros _. injection E as _ -> _. eexists req, _. split_and!; [done|apply last_snoc|].
  by apply secret_given_more.
Qed.

Lemma map_hook_secret (P : Webhook -> Prop) id f hooks :
  Forall P hooks -> (forall w, P w -> P (f w)) -> Forall P (map (fun w => if hook_by id w then f w else w) hooks).
Proof. intros HP Hf. apply Forall_map, (Forall_impl _ _ _ HP). intros w Hw. destruct (hook_by id w); auto. Qed.

(** The settings are written first; whatever happens to the secret, no row loses its identifier. *)
Lemma wp_rotate id requested current Q s :
  sealed_at s ->
  (forall s', sealed_at s' -> Q None s') ->
  (forall secret shown s', sealed_at s' ->
     (forall w, w ∈ ht_hooks (s_hooks s') -> WID w = id ->
        match requested with
        | Some plaintext => kept_sealed plaintext (WSecret w)
        | None => w ∈ ht_hooks (s_hooks s)
        end) -> Q (Some (secret, shown)) s') ->
  wp md (rotate master id requested current) Q s.
Proof.
  intros Hs Hn Hok. unfold rotate. destruct requested as [pt|]; [|by apply wp_ret, Hok].
  apply wp_bind, wp_sealWebhookSecret; [intros; by apply wp_ret, Hn|]. intros secret shown Hsec Hst.
  apply wp_bind, wp_hook_tables; [intros; by apply wp_ret, Hn|]. unfold SetWebhookSecret, exec_hooks.
  destruct (existsb _ _); [|apply wp_ret, Hn, sealed_set_hooks; [done|apply Hs]].
  apply wp_ret, Hok.
  - apply sealed_set_hooks; [done|]. apply map_hook_secret; [apply Hs|done].
  - intros w' Hw Hi. apply list_elem_of_fmap in Hw as (w & -> & Hw). unfold hook_by in *.
    destruct (Z.eqb_spec (WID w) id); cbn in *; [done|congruence].
Qed.

Lemma wp_update_webhook segment body p r s :
  sealed_at s -> wp md (handleUpdateWebhook master segment body p r)
    (fun rs s' => sealed_at s' /\ (rs_status rs = 200 ->
       exists req id, body = Some req /\ pathID segment = Some id /\
         forall w, w ∈ ht_hooks (s_hooks s') -> WID w = id ->
           match wq_Secret req with
           | Some plaintext => kept_sealed plaintext (WSecret w)
           | None => exists old, old ∈ ht_hooks (s_hooks s) /\ WID old = id /\ WSecret w = WSecret old
           end)) s.
Proof.
  intros Hs. unfold handleUpdateWebhook. destruct (pathID segment) as [id|]; [|by apply wp_ret].
  assert (Hnf : forall e, rs_status (webhook_refused e) <> 200) by (intros e; unfold webhook_refused; by destruct (is_sentinel _ e)).
  apply wp_bind, wp_query; [intros e _; apply wp_ret; split; [done|]; by intros ?%Hnf|]. unfold Webhook_.
  destruct (find _ _) as [old|] eqn:Ef; [|by apply wp_ret]. apply find_some in Ef as [Hin Hid].
  destruct body as [req|]; [|by apply wp_ret].
  destruct (validateWebhook _ _ _) as [[name events]|]; [|by apply wp_ret].
  apply wp_bind, wp_hook_tables; [intros; by apply wp_ret|]. unfold UpdateWebhook, exec_hooks. cbn [WID hook_row].
  destruct (existsb _ _); [|apply wp_ret; split; [apply sealed_set_hooks; [done|apply Hs]|done]].
  set (s1 := set_s_hooks _ s). assert (Hs1 : sealed_at s1).
  { apply sealed_set_hooks; [done|]. apply map_hook_secret; [apply Hs|done]. }
  apply wp_bind, wp_rotate; [done|intros; by apply wp_ret|]. intros secret shown s2 Hs2 Hrows.
  apply (wp_frame secret_parts); [apply keeps_secrets_audit|]. intros _ s' E. apply wp_ret.
  split; [by apply (sealed_same s2)|]. intros _. injection E as _ -> _. exists req, id. split_and!; [done..|].
  intros w Hw Hi. specialize (Hrows w Hw Hi). destruct (wq_Secret req); [done|].
  apply list_elem_of_fmap in Hrows as (o & -> & Ho). exists o. destruct (hook_by id o) eqn:Eh; [|done].
  by apply Z.eqb_eq in Eh.
Qed.

(** *** Keys *)

Lemma sealed_set_dkim s t :
  sealed_at s -> map_Forall (fun _ k => exists pem, opens (PrivateKey k) pem) t -> sealed_at (set_s_dkim t s).
Proof. intros [] Hk. by split. Qed.

(** What a page may do to the keys: a key that is enabled was, or has just been, by a request that
    forced it or after its record was found; a new key is disabled, and its private part sealed. *)
Definition enabled_by (req : dkimRequest) (s : state) (id : Z) (k' : DKIMKey) : Prop :=
  exists d k, d ∈ domains_of s /\ DID d = id /\ s_dkim s !! id = Some k /\ kq_Enabled req = Some true /\
    Selector k' = Selector k /\ PublicKey k' = PublicKey k /\ PrivateKey k' = PrivateKey k /\
    (kq_Force req = true \/ dc_Valid (Dkim.CheckDNS (DName d) (Selector k) (PublicKey k)) = true).

Definition key_step (req : option dkimRequest) (s s' : state) : Prop :=
  forall id k', s_dkim s' !! id = Some k' -> KEnabled k' = true ->
    s_dkim s !! id = Some k' \/ exists r, req = Some r /\ enabled_by r s id k'.

Lemma key_step_same req s s' : s_dkim s' = s_dkim s -> key_step req s s'.
Proof. intros E id k'. rewrite E. auto. Qed.

Lemma wp_key_of d Q s : (forall k, (forall v, k = Ok v -> s_dkim s !! DID d = Some v) -> Q k s) -> wp md (key_of d) Q s.
Proof.
  intros H5. apply wp_query; [intros; by apply H5|]. unfold DKIMKeyFor.
  destruct (s_dkim s !! DID d) eqn:E; apply H5; [by intros ? [= <-]|done].
Qed.

Lemma wp_domain p seg Q s :
  (forall rs, 400 <= rs_status rs -> Q (inl rs) s) -> (forall d, d ∈ domains_of s -> Q (inr d) s) -> wp md (lookupDomain p seg) Q s.
Proof.
  intros Hno Hd. unfold lookupDomain. destruct (pathID seg) as [id|]; [|by apply wp_ret, Hno].
  apply wp_bind, wp_query; [intros e _; apply wp_ret; by destruct (is_sentinel _ e); apply Hno|].
  destruct (DomainByID id _) as [d|e] eqn:E; apply wp_ret; [|by destruct (is_sentinel _ e); apply Hno].
  apply DomainByID_Ok in E as [Hin _]. destruct (CanAccessDomain _ _); [by apply Hd|by apply Hno].
Qed.

Lemma wp_create_dkim segment body p r s :
  wp md (handleCreateDKIM master segment body p r)
    (fun rs s' => (sealed_at s -> sealed_at s') /\ key_step None s s' /\ (rs_status rs = 201 ->
       exists req d key random k, body = Some req /\ Generate random (kq_Selector req) (kq_Algorithm req) = Ok key /\ d ∈ domains_of s /\
         s_dkim s' !! DID d = Some k /\ opens (PrivateKey k) (k_PrivatePEM key) /\ PublicKey k = k_PublicB64 key /\ KEnabled k = false)) s.
Proof.
  unfold handleCreateDKIM. pose proof (key_step_same None s s eq_refl) as Hk.
  apply wp_bind, wp_domain; [intros rs Hrs; apply wp_ret; split_and!; [done..|lia]|].
  intros d Hd. destruct body as [req|]; [|by apply wp_ret].
  destruct (negb _ && negb _); [by apply wp_ret|].
  apply (wp_frame (fun s => s)); [apply keeps_random_bytes|]. intros random s' ->.
  destruct (Generate _ _ _) as [key|] eqn:Eg; [|by apply wp_ret].
  apply wp_bind, wp_seal; [intros; by apply wp_ret|]. intros sealed Ho.
  apply wp_bind, wp_now. intros now _. set (s1 := set_s_now now s).
  pose proof (sealed_same s s1 eq_refl : sealed_at s -> sealed_at s1) as Hs1.
  apply wp_bind, wp_on_dkim; [intros; by apply wp_ret|]. unfold SaveDKIMKey.
  destruct (negb _); [apply wp_ret; split_and!; [intros Hs; apply sealed_set_dkim; [auto|apply Hs]|by apply key_step_same|done]|].
  destruct (negb _); [apply wp_ret; split_and!; [intros Hs; apply sealed_set_dkim; [auto|apply Hs]|by apply key_step_same|done]|].
  set (s2 := set_s_dkim _ s1). assert (Hs2 : sealed_at s -> sealed_at s2).
  { intros Hs. apply sealed_set_dkim; [auto|]. apply map_Forall_insert_2; [eauto|apply Hs]. }
  apply (wp_frame secret_parts); [apply keeps_secrets_audit|]. intros _ s' E.
  apply wp_bind, wp_key_of. intros fresh _. apply wp_ret. injection E as E1 E2 E3.
  split_and!; [intros Hs; apply (sealed_same s2); [by unfold secret_parts; rewrite E1, E2, E3|auto]| |].
  - intros id k'. rewrite E3. cbn. intros [[<- <-]|[_ Hin]]%lookup_insert_Some He; [done|by left].
  - intros _. exists req, d, key, random. rewrite E3. cbn. eexists.
    split_and!; [done..| | | |]; [apply lookup_insert_eq|done..].
Qed.

Lemma wp_unpublished d enabled force Q s :
  (forall rs, 400 <= rs_status rs -> Q (Some rs) s) ->
  ((enabled = true -> force = true \/ exists k, s_dkim s !! DID d = Some k /\
      dc_Valid (Dkim.CheckDNS (DName d) (Selector k) (PublicKey k)) = true) -> Q None s) ->
  wp md (unpublished d enabled force) Q s.
Proof.
  intros Hr Hok. unfold unpublished. destruct enabled, force; cbn [andb negb]; try (apply wp_ret; apply Hok; auto).
  apply wp_bind, wp_key_of. intros [k|e] Hk; apply wp_ret.
  - destruct (dc_Valid _) eqn:Ev; [apply Hok|by apply Hr]. intros _. right. eauto.
  - apply Hr. unfold no_key. by destruct (is_sentinel _ _).
Qed.

Lemma wp_update_dkim segment body p r s :
  wp md (handleUpdateDKIM segment body p r) (fun rs s' => (sealed_at s -> sealed_at s') /\ key_step body s s') s.
Proof.
  unfold handleUpdateDKIM. pose proof (key_step_same body s s eq_refl) as Hk.
  apply wp_bind, wp_domain; [intros rs Hrs; by apply wp_ret|].
  intros d Hd. destruct body as [req|]; [|by apply wp_ret]. destruct (kq_Enabled req) as [enabled|] eqn:Een; [|by apply wp_ret].
  apply wp_bind, wp_unpublished; [intros; by apply wp_ret|]. intros Hpub.
  apply wp_bind, wp_on_dkim; [intros; by apply wp_ret|]. unfold SetDKIMEnabled.
  destruct (s_dkim s !! DID d) as [k|] eqn:Ek; [|apply wp_ret; split; [intros Hs; apply sealed_set_dkim; [auto|apply Hs]|by apply key_step_same]].
  apply wp_bind, wp_key_of. intros fresh _. apply wp_ret. split.
  - intros Hs. apply sealed_set_dkim; [done|]. apply map_Forall_insert_2; [|apply Hs]. cbn. by apply (sealed_keys _ Hs) in Ek.
  - intros id k'. cbn. intros [[<- <-]|[_ Hin]]%lookup_insert_Some He; [|by left]. cbn in He. subst enabled.
    right. exists req. split; [done|]. exists d, k. split_and!; try done.
    destruct (Hpub eq_refl) as [Hf|(k2 & Hk2 & Hv)]; [by left|right]. congruence.
Qed.

Lemma wp_delete_dkim segment p r s :
  wp md (handleDeleteDKIM segment p r) (fun rs s' => (sealed_at s -> sealed_at s') /\ key_step None s s') s.
Proof.
  unfold handleDeleteDKIM. pose proof (key_step_same None s s eq_refl) as Hk.
  apply wp_bind, wp_domain; [intros rs Hrs; by apply wp_ret|]. intros d Hd.
  apply wp_bind, wp_on_dkim; [intros; by apply wp_ret|]. unfold DeleteDKIMKey.
  destruct (s_dkim s !! DID d) as [k|] eqn:Ek; [|apply wp_ret; split; [intros Hs; apply sealed_set_dkim; [auto|apply Hs]|by apply key_step_same]].
  apply (wp_frame secret_parts); [apply keeps_secrets_audit|]. intros _ s' E. apply wp_ret. injection E as E1 E2 E3. split.
  - intros Hs. apply (sealed_same (set_s_dkim (delete (DID d) (s_dkim s)) s)); [by unfold secret_parts; rewrite E1, E2, E3|].
    apply sealed_set_dkim; [done|]. apply map_Forall_delete, Hs.
  - intros id k'. rewrite E3. cbn. intros [_ Hin]%lookup_delete_Some He. by left.
Qed.

(** *** Every page that stores one *)

Inductive storing :=
  | NewRoute (body : option routeRequest) | ChangeRoute (segment : text) (body : option routeRequest) | DropRoute (segment : text)
  | NewWebhook (body : option webhookRequest) | ChangeWebhook (segment : text) (body : option webhookRequest)
  | DropWebhook (segment : text)
  | NewKey (segment : text) (body : option dkimRequest) | ChangeKey (segment : text) (body : option dkimRequest)
  | DropKey (segment : text).

Definition store_page (g : storing) : principal -> request -> M response :=
  match g with
  | NewRoute body => handleCreateRoute master body
  | ChangeRoute seg body => handleUpdateRoute master seg body
  | DropRoute seg => handleDeleteRoute seg
  | NewWebhook body => handleCreateWebhook master body
  | ChangeWebhook seg body => handleUpdateWebhook master seg body
  | DropWebhook seg => handleDeleteWebhook seg
  | NewKey seg body => handleCreateDKIM master seg body
  | ChangeKey seg body => handleUpdateDKIM seg body
  | DropKey seg => handleDeleteDKIM seg
  end.

(** What a request that succeeds leaves: the secret it gave, or the one there was. *)
Definition stored (g : storing) (rs : response) (s s' : state) : Prop :=
  match g with
  | NewRoute body =>
      rs_status rs = 201 -> exists req rt, body = Some req /\ last (rt_rows (s_routes s')) = Some rt /\
        kept_sealed (rr_RelayPassword req) (RelayPassword rt)
  | ChangeRoute seg body =>
      rs_status rs = 200 -> exists req id old, body = Some req /\ pathID seg = Some id /\ old ∈ rt_rows (s_routes s) /\ RID old = id /\
        existsb (route_is id) (rt_rows (s_routes s')) = true /\
        forall rt, rt ∈ rt_rows (s_routes s') -> RID rt = id ->
          if bool_decide (rr_RelayPassword req = []) then RelayPassword rt = RelayPassword old
          else opens (RelayPassword rt) (rr_RelayPassword req)
  | NewWebhook body =>
      rs_status rs = 201 -> exists req w, body = Some req /\ last (ht_hooks (s_hooks s')) = Some w /\
        secret_given (wq_Secret req) (rs_body rs) (WSecret w)
  | ChangeWebhook seg body =>
      rs_status rs = 200 -> exists req id, body = Some req /\ pathID seg = Some id /\
        forall w, w ∈ ht_hooks (s_hooks s') -> WID w = id ->
          match wq_Secret req with
          | Some plaintext => kept_sealed plaintext (WSecret w)
          | None => exists old, old ∈ ht_hooks (s_hooks s) /\ WID old = id /\ WSecret w = WSecret old
          end
  | NewKey seg body =>
      rs_status rs = 201 -> exists req d key random k, body = Some req /\
        Generate random (kq_Selector req) (kq_Algorithm req) = Ok key /\ d ∈ domains_of s /\
        s_dkim s' !! DID d = Some k /\ opens (PrivateKey k) (k_PrivatePEM key) /\ PublicKey k = k_PublicB64 key /\ KEnabled k = false
  | _ => True
  end.

Definition key_request (g : storing) : option dkimRequest :=
  match g with ChangeKey _ body => body | _ => None end.

Lemma keeps_seal {X} (f : state -> X) plaintext : keeps f (seal master plaintext).
Proof. unfold seal. keeps. Qed.

#[local] Hint Resolve keeps_seal : keeps.

Lemma keeps_routes_dkim :
  (forall body p r, keeps s_dkim (handleCreateRoute master body p r)) /\
  (forall seg body p r, keeps s_dkim (handleUpdateRoute master seg body p r)) /\
  (forall seg p r, keeps s_dkim (handleDeleteRoute seg p r)).
Proof.
  unfold handleCreateRoute, handleUpdateRoute, handleDeleteRoute, seal_password, on_routes. split_and!; keeps.
Qed.

Lemma keeps_hooks_dkim :
  (forall body p r, keeps s_dkim (handleCreateWebhook master body p r)) /\
  (forall seg body p r, keeps s_dkim (handleUpdateWebhook master seg body p r)) /\
  (forall seg p r, keeps s_dkim (handleDeleteWebhook seg p r)).
Proof.
  unfold handleCreateWebhook, handleUpdateWebhook, handleDeleteWebhook, rotate, sealWebhookSecret, on_hooks. split_and!; keeps.
Qed.

Lemma wp_delete_route seg p r s : sealed_at s -> wp md (handleDeleteRoute seg p r) (fun _ s' => sealed_at s') s.
Proof.
  intros Hs. unfold handleDeleteRoute. destruct (pathID seg) as [id|]; [|by apply wp_ret].
  apply wp_bind, wp_on_routes; [intros; by apply wp_ret|]. unfold DeleteRoute.
  destruct (existsb _ _); [|apply wp_ret, sealed_set_routes; [done|apply Hs]].
  apply (wp_frame secret_parts); [apply keeps_secrets_audit|]. intros _ s' E. apply wp_ret.
  eapply sealed_same; [exact E|]. apply sealed_set_routes; [done|]. eapply incl_Forall; [apply incl_filter|apply Hs].
Qed.

Lemma wp_delete_webhook seg p r s : sealed_at s -> wp md (handleDeleteWebhook seg p r) (fun _ s' => sealed_at s') s.
Proof.
  intros Hs. unfold handleDeleteWebhook. destruct (pathID seg) as [id|]; [|by apply wp_ret].
  apply wp_bind, wp_hook_tables; [intros; by apply wp_ret|]. unfold DeleteWebhook.
  destruct (existsb _ _); [|apply wp_ret, sealed_set_hooks; [done|apply Hs]].
  apply (wp_frame secret_parts); [apply keeps_secrets_audit|]. intros _ s' E. apply wp_ret.
  eapply sealed_same; [exact E|]. apply sealed_set_hooks; [done|]. eapply incl_Forall; [apply incl_filter|apply Hs].
Qed.
End sealing.

(** C29: whatever the statements of the database and the random generator do, every relay password, signing secret
    and private key in the database opens with the master key, and a request that succeeds stores what it
    gave, the secret it made and showed, or the private half of the key it shows, or leaves what there was. *)
Theorem secrets_sealed `{SmtpLib} `{DohLib} `{KeyGenLib} `{AddressLib} `{AEADLaws} master g p r s e :
  sealed_at master s ->
  let '(rs, w) := store_page master g p r (World s e) in sealed_at master (st w) /\ stored master g rs s (st w).
Proof.
  intros Hs. apply (wp_run any _ (fun rs s' => sealed_at master s' /\ stored master g rs s s')); [apply allows_any|].
  destruct g; cbn [store_page stored].
  - by apply wp_create_route.
  - by apply wp_update_route.
  - eapply wp_mono; [by apply wp_delete_route|]. done.
  - by apply wp_create_webhook.
  - by apply wp_update_webhook.
  - eapply wp_mono; [by apply wp_delete_webhook|]. done.
  - eapply wp_mono; [by apply wp_create_dkim|]. cbn. intuition.
  - eapply wp_mono; [by apply wp_update_dkim|]. cbn. intuition.
  - eapply wp_mono; [by apply wp_delete_dkim|]. cbn. intuition.
Qed.

(** A key signs only once its record was found in the DNS, or the request that enabled it said to do without:
    whatever page of secrets is asked for, a key that is enabled afterwards was so before, or has just been enabled,
    as it was stored, by such a request; replacing a key leaves the new one switched off. *)
Theorem dkim_enabled_only_published `{SmtpLib} `{DohLib} `{KeyGenLib} `{AddressLib} `{AEADLaws} master g p r s e :
  let '(_, w) := store_page master g p r (World s e) in key_step (key_request g) s (st w).
Proof.
  apply (wp_run any _ (fun _ s' => key_step (key_request g) s s')); [apply allows_any|].
  destruct (keeps_routes_dkim master) as (R1 & R2 & R3), (keeps_hooks_dkim master) as (W1 & W2 & W3).
  destruct g; cbn [store_page key_request];
    try (eapply wp_mono; [first [apply R1|apply R2|apply R3|apply W1|apply W2|apply W3]|]; cbn; intros; by apply key_step_same).
  - eapply wp_mono; [apply wp_create_dkim|]. cbn. by intros rs s' (_ & Hk & _).
  - eapply wp_mono; [apply (wp_update_dkim any master)|]. cbn. by intros rs s' (_ & Hk).
  - eapply wp_mono; [apply (wp_delete_dkim any master)|]. cbn. by intros rs s' (_ & Hk).
Qed.

(** *** Witnesses *)

#[local] Existing Instance Dkim.sample_doh.
#[local] Existing Instance Dkim.sample_doh_smtp.
#[local] Existing Instance BlobProps.sample_aead.
#[local] Existing Instance BlobProps.sample_aead_laws.
#[local] Instance sample_dmarc : DmarcLib := {| dmarc_Parse := fun _ => Err (EText "no policy"%string) |}.
#[local] Instance sample_addresses : AddressLib := {| url_Parse := fun _ => Some (T "https", T "hooks.example") |}.
#[local] Instance sample_keygen : KeyGenLib := {|
  ed25519_GenerateKey := fun r => Ok (T "pem", T "YWI=");
  rsa_GenerateKey := fun r => Ok (T "pem", T "YWI=") |}.
#[local] Instance sample_secret_yaml : YamlLib :=
  {| yaml_Decode := fun _ => (Some (EText "empty"%string), ConfigDocument 1 [] []); yaml_Marshal := fun _ => Ok (T "version: 1") |}.

Definition sample_secret_route (sealed : text) : Route :=
  with_relay_password sealed (with_route_id 1 (Build_Route 0 "partner.example"%string "relay"%string "relay.example"%string 587 TLSRequired
                                                 "us"%string [] true 0)).

(** The office of [PagesProps], with a relay, a key that is not in use, and whatever is sealed in the route. *)
Definition sample_secrets (sealed : text) : state :=
  set_s_routes (RouteTable [sample_secret_route sealed] 2)
    (set_s_dkim {[1 := {| KDomainID := 1; Selector := DefaultSelector; Algorithm := AlgorithmRSA;
                          PrivateKey := match Seal "master"%string (Ok sample_salt) (Ok (T "nonce-12byte")) "pem"%string with Ok s => s | Err _ => [] end;
                          PublicKey := std_EncodeToString (T "ab"); KEnabled := false; KCreatedAt := 0 |}]}
      (set_s_hooks (Hooks [] 1 [] 1 ∅) sample_pages)).

Definition sample_viewer : principal := Principal (sample_user false) None.

Lemma secrets_not_shown_witness :
  let page s := fst (read_page sample_pages_cfg ReadRoutes sample_viewer sample_page_request (World s quiet)) in
  sample_secrets "one"%string <> sample_secrets "two"%string /\ page (sample_secrets "one"%string) = page (sample_secrets "two"%string).
Proof.
  split; [intros [=]|].
  apply (secrets_not_shown sample_pages_cfg ReadRoutes sample_viewer sample_page_request (sample_secrets "one"%string)
           (sample_secrets "two"%string) quiet). reflexivity.
Defined.

Definition sample_hook_request : webhookRequest :=
  Build_webhookRequest "ops"%string "https://hooks.example/in"%string None (Some (T "hush")) None.

Definition sample_draws : env := set_e_ids [Some sample_salt; Some (T "nonce-12byte")] quiet.

Lemma secrets_sealed_witness :
  let '(rs, w) := store_page "master"%string (NewWebhook (Some sample_hook_request)) sample_viewer sample_page_request
                    (World (sample_secrets []) sample_draws) in
  rs_status rs = 201 /\ sealed_at "master"%string (st w) /\
  exists hook, last (ht_hooks (s_hooks (st w))) = Some hook /\ Unseal "master"%string (WSecret hook) = Ok (T "hush").
Proof.
  assert (Hs : sealed_at "master"%string (sample_secrets [])).
  { split; [repeat constructor|constructor|]. apply map_Forall_singleton. exists (T "pem"). vm_compute. reflexivity. }
  pose proof (secrets_sealed "master"%string (NewWebhook (Some sample_hook_request)) sample_viewer sample_page_request
    (sample_secrets []) sample_draws Hs) as Hp.
  assert (Hrs : rs_status (fst (store_page "master"%string (NewWebhook (Some sample_hook_request)) sample_viewer sample_page_request
                                  (World (sample_secrets []) sample_draws))) = 201) by (vm_compute; reflexivity).
  destruct (store_page _ _ _ _ _) as [rs w]. destruct Hp as [Ha Hst]. cbn [fst] in Hrs. split_and!; [done..|].
  destruct (Hst Hrs) as (req & hook & [= <-] & Hl & Hk). by exists hook.
Defined.

Lemma dkim_enabled_only_published_witness :
  let ask := store_page "master"%string (ChangeKey "1"%string (Some (Build_dkimRequest [] [] (Some true) false))) sample_viewer sample_page_request in
  let '(rs, w) := ask (World (sample_secrets []) quiet) in
  rs_status rs = 200 /\ (KEnabled <$> s_dkim (st w) !! 1) = Some true /\
  dc_Valid (Dkim.CheckDNS "you.example"%string DefaultSelector (std_EncodeToString (T "ab"))) = true.
Proof.
  pose proof (dkim_enabled_only_published "master"%string (ChangeKey "1"%string (Some (Build_dkimRequest [] [] (Some true) false)))
    sample_viewer sample_page_request (sample_secrets []) quiet) as Hp.
  assert (Hc : let '(rs, w) := store_page "master"%string (ChangeKey "1"%string (Some (Build_dkimRequest [] [] (Some true) false)))
                                 sample_viewer sample_page_request (World (sample_secrets []) quiet) in
               rs_status rs = 200 /\ (KEnabled <$> s_dkim (st w) !! 1) = Some true) by (vm_compute; split; reflexivity).
  cbv zeta. destruct (store_page _ _ _ _ _) as [rs w]. destruct Hc as [Hrs Hk]. split_and!; [done..|].
  destruct (s_dkim (st w) !! 1) as [k|] eqn:Ek; [|done]. injection Hk as Hk.
  destruct (Hp 1 k Ek Hk) as [Ho|(q & [= <-] & d & k0 & Hd & Hi & Ek0 & _ & _ & _ & _ & [Hf|Hv])];
    [vm_compute in Ho; injection Ho as <-; discriminate Hk|done|].
  vm_compute in Ek0. injection Ek0 as <-. vm_compute. reflexivity.
Defined.
