(* ===== verification/ConfigIOProps.v ===== *)
(** * Exporting and importing the configuration: guarantees *)

From S2P Require Import Prelude GoStrings Base64 Sha Times Net Errors StoreTypes StoreQueue StoreDomains DomainProps.
From S2P Require Import Filter Routes StoreUsers Auth SmtpClient RateLimit World Api ApiProps Account AccountProps Pages PagesProps ConfigIO.
From Stdlib Require Import QArith.
Open Scope Z_scope.

(** No statement fails by itself. *)
Definition calm : mode := Assume true true false (fun _ => True) (fun _ => True).

Lemma wp_query_calm {A} (f : state -> result A) Q s : Q (f s) s -> wp calm (query f) Q s.
Proof. by apply wp_query. Qed.

(** ** What can be imported back *)

Definition name_normal (name : text) : Prop :=
  trim_space name = name /\ trim_suffix "."%string name = name /\ to_lower name = name /\ valid_name name = true.

Lemma import_normal name : name_normal name -> import_name name = name.
Proof. intros (Ht & _ & Hl & _). unfold import_name. by rewrite Ht. Qed.

Lemma normalize_normal name : name_normal name -> normalizeDomain name = name.
Proof. intros (Ht & Hs & Hl & _). unfold normalizeDomain. by rewrite Hs, Ht. Qed.

Definition account_plain (ds : list domain) (u : SMTPUser) : Prop :=
  trim_space (Username u) = Username u /\ valid_username (Username u) = true /\
  Forall (fun ad => is_ok (DomainByName (import_name ad) ds) = true) (SAllowedDomains u).

(** The tables as the pages leave them, but for names that keep a dot, recipients of other
    domains and accounts that may still send as a domain that is gone. *)
Record importable (cfg : PagesConfig) (s : state) : Prop := {
  im_tables : tables_valid cfg (s_domains s);
  im_names : forall d, d ∈ domains_of s -> name_normal (DName d);
  im_recipients : forall d, d ∈ domains_of s ->
    let list := DomainRecipients (DID d) (s_recipients s) in validRecipients (DName d) list = Some list;
  im_usernames : NoDup (map Username (su_rows (s_smtp_users s)));
  im_accounts : Forall (account_plain (domains_of s)) (su_rows (s_smtp_users s))
}.

Lemma DomainByName_row ds d :
  NoDup (map DName ds) -> d ∈ ds -> normalizeDomain (DName d) = DName d -> DomainByName (DName d) ds = Ok d.
Proof.
  intros Hnd Hd Hn. unfold DomainByName. rewrite Hn. destruct (find _ ds) as [e|] eqn:E.
  - apply find_some in E as [He%list_elem_of_In Hb]. bools. f_equal. by apply (NoDup_map_unique DName ds).
  - pose proof (find_none _ _ E d) as Hno. rewrite <- list_elem_of_In in Hno. specialize (Hno Hd). bools. done.
Qed.

Lemma SMTPUserByName_row l u :
  NoDup (map Username l) -> u ∈ l -> trim_space (Username u) = Username u -> forall t, su_rows t = l ->
  SMTPUserByName (Username u) t = Ok u.
Proof.
  intros Hnd Hu Ht t Et. unfold SMTPUserByName, find_row. rewrite Ht, Et. destruct (find _ l) as [v|] eqn:E.
  - apply find_some in E as [Hv%list_elem_of_In Hb]. bools. f_equal. by apply (NoDup_map_unique Username l).
  - pose proof (find_none _ _ E u) as Hno. rewrite <- list_elem_of_In in Hno. specialize (Hno Hu). bools. done.
Qed.

Section configio.
Context `{YamlLib} `{SmtpLib} `{PasswordCrypto} (cfg : PagesConfig).

(** ** The export *)

Definition exported (s : state) : configDocument :=
  ConfigDocument configDocVersion
    (map (fun d => exported_domain d (DomainRecipients (DID d) (s_recipients s))) (ListDomains (domains_of s)))
    (map exported_user (ListSMTPUsers (s_smtp_users s))).

Lemma wp_export_domains ds Q s :
  Q (Ok (map (fun d => exported_domain d (DomainRecipients (DID d) (s_recipients s))) ds)) s ->
  wp calm (export_domains ds) Q s.
Proof.
  revert Q. induction ds as [|d ds IH]; intros Q HQ; cbn; [by apply wp_ret|].
  apply wp_bind, wp_query_calm, wp_bind, IH, wp_ret, HQ.
Qed.

Lemma wp_export_document Q s : Q (Ok (exported s)) s -> wp calm export_document Q s.
Proof.
  intros HQ. unfold export_document. apply wp_bind, wp_query_calm, wp_bind, wp_query_calm, wp_bind, wp_export_domains.
  by apply wp_ret.
Qed.

(** ** Importing it *)

Lemma sameDomain_spec a b :
  sameDomain a b = true <->
  PrimaryHost a = PrimaryHost b /\ PrimaryPort a = PrimaryPort b /\ PrimaryTLS a = PrimaryTLS b /\
  RetentionHours a = RetentionHours b /\ DEnabled a = DEnabled b /\
  MaxQueueMessages a = MaxQueueMessages b /\ MonthlySendLimit a = MonthlySendLimit b.
Proof.
  unfold sameDomain, sameLimit. rewrite !andb_true_iff, !bool_decide_eq_true, !Z.eqb_eq, eqb_true_iff. tauto.
Qed.

(** A request with the fields of a stored domain asks for no change of it. *)
Lemma own_request d list :
  domain_valid cfg d -> name_normal (DName d) ->
  exists d', domainFromRequest cfg (request_of (exported_domain d list)) (Some d) = inr d' /\ sameDomain d d' = true.
Proof.
  intros [Hn [Hh Ht] Hl Hp Htls Hr Hlim] (Htn & Hsn & Hln & Hv). unfold domainFromRequest, request_of, exported_domain.
  cbv zeta. cbn [dq_Name dq_PrimaryHost dq_PrimaryPort dq_PrimaryTLS dq_MaxQueueMessages dq_MonthlySendLimit dq_RetentionHours
    dq_Enabled cd_Name cd_PrimaryHost cd_PrimaryPort cd_PrimaryTLS cd_MaxQueueMessages cd_MonthlySendLimit cd_RetentionHours
    cd_Enabled DName PrimaryHost PrimaryPort PrimaryTLS RetentionHours MonthlySendLimit MaxQueueMessages DEnabled].
  assert (Hne : DName d <> []) by (intros E; by rewrite E in Hv).
  rewrite (proj2 (equal_fold_spec (DName d) (DName d)) eq_refl), andb_false_r.
  rewrite (bool_decide_eq_false_2 (DName d = [])), Htn, Hsn, Hln, Hv by done. cbn [negb].
  rewrite (bool_decide_eq_false_2 (PrimaryHost d = [])), (trim_space_id _ Ht), (bool_decide_eq_false_2 (PrimaryHost d = [])) by done.
  rewrite (proj2 (Z.eqb_neq (PrimaryPort d) 0)), (proj2 (Z.ltb_ge (PrimaryPort d) 1)), (proj2 (Z.ltb_ge 65535 (PrimaryPort d))) by lia.
  cbn [orb].
  assert (Htne : PrimaryTLS d <> []) by (intros E; rewrite E in Htls; vm_compute in Htls; done).
  rewrite (bool_decide_eq_false_2 (PrimaryTLS d = [])), Htls by done. cbn [negb].
  rewrite (proj2 (Z.eqb_neq (RetentionHours d) 0)), (proj2 (Z.ltb_ge (RetentionHours d) 1)), (proj2 (Z.ltb_ge (24 * 30) (RetentionHours d))) by lia.
  cbn [orb]. destruct (equal_fold _ _ && _) eqn:El.
  - apply andb_true_iff in El as [E1 E2]. bools. by rewrite Hl in E1.
  - eexists. split; [reflexivity|]. apply sameDomain_spec. cbn. split_and!; try done.
    + by destruct (MaxQueueMessages d).
    + destruct (MonthlySendLimit d) as [n|]; [|done]. by rewrite (proj2 (Z.leb_gt n 0)).
Qed.

Lemma wp_plan_own_domain s d Q :
  importable cfg s -> d ∈ domains_of s ->
  Q (inr (Plan [Change (DName d) Unchanged] [] [] [] [] [] [])) s ->
  wp calm (plan_domain cfg (DName d) (exported_domain d (DomainRecipients (DID d) (s_recipients s)))) Q s.
Proof.
  intros Him Hd HQ. unfold plan_domain. apply wp_bind, wp_query_calm. pose proof (im_names _ _ Him d Hd) as Hn.
  destruct (im_tables _ _ Him) as [Hwf Hv]. eapply Forall_forall in Hd as Hdv; [|exact Hv].
  rewrite (DomainByName_row _ d (dw_names _ Hwf) Hd) by by apply normalize_normal.
  destruct (own_request d (DomainRecipients (DID d) (s_recipients s)) Hdv Hn) as (d' & -> & Hsame).
  apply wp_bind. unfold plan_recipients, exported_domain at 1. cbn [cd_Recipients].
  assert (Hend : wp calm (ret (inr (plan_entry (DName d) (Some d) d' None))) Q s)
    by (apply wp_ret; unfold plan_entry; by rewrite Hsame).
  case_bool_decide as He; [apply wp_ret; exact Hend|].
  pose proof (im_recipients _ _ Him d Hd) as Hr. cbv zeta in Hr. rewrite Hr.
  apply wp_bind, wp_query_calm, wp_ret. by rewrite bool_decide_eq_true_2.
Qed.

Definition all_unchanged (l : list changed) : Prop := Forall (fun c => ch_Action c = Unchanged) l.

(** A plan that asks for nothing. *)
Definition idle (p : importPlan) : Prop :=
  all_unchanged (ip_domains p) /\ all_unchanged (ip_users p) /\ ip_createDomains p = [] /\ ip_updateDomains p = [] /\
  ip_createUsers p = [] /\ ip_enableUsers p = [] /\ ip_setRecipients p = [].

Lemma idle_empty : idle empty_plan.
Proof. by repeat split; constructor. Qed.

Lemma idle_join p q : idle p -> idle q -> idle (join_plans p q).
Proof.
  intros (A1 & A2 & A3 & A4 & A5 & A6 & A7) (B1 & B2 & B3 & B4 & B5 & B6 & B7). unfold idle, join_plans, all_unchanged. cbn.
  rewrite A3, A4, A5, A6, A7, B3, B4, B5, B6, B7. split_and!; try done; by apply Forall_app.
Qed.

Lemma idle_count p : idle p -> changedCount p = 0.
Proof.
  intros (Hd & Hu & _). unfold changedCount, changes.
  assert (Hc : forall a, a <> Unchanged -> count_action a (ip_domains p ++ ip_users p) = 0).
  { intros a Ha. unfold count_action. rewrite (list_nil_iff_no_elem (List.filter _ _)); [done|].
    intros c [Hb Hc]%elem_of_List_filter. bools. apply Ha. rewrite <- Hb.
    assert (Hall : all_unchanged (ip_domains p ++ ip_users p)) by by apply Forall_app.
    by eapply Forall_forall in Hc; [|exact Hall]. }
  by rewrite !Hc.
Qed.

Lemma wp_plan_own_domains s ds incoming Q :
  importable cfg s -> (forall d, d ∈ ds -> d ∈ domains_of s /\ DName d ∉ incoming) -> NoDup (map DName ds) ->
  (forall p, idle p -> Q (inr (incoming ++ map DName ds, p)) s) ->
  wp calm (plan_domains cfg incoming (map (fun d => exported_domain d (DomainRecipients (DID d) (s_recipients s))) ds)) Q s.
Proof.
  intros Him. revert incoming Q. induction ds as [|d ds IH]; intros incoming Q Hin Hnd HQ; cbn [plan_domains map].
  - apply wp_ret. rewrite <- (app_nil_r incoming). apply HQ, idle_empty.
  - apply NoDup_cons in Hnd as [Hd Hnd]. destruct (Hin d) as [Hds Hni]; [apply list_elem_of_here|].
    pose proof (im_names _ _ Him d Hds) as Hn.
    change (cd_Name (exported_domain d _)) with (DName d). cbv zeta. rewrite (import_normal _ Hn).
    rewrite bool_decide_eq_false_2 by (intros E; destruct Hn as (_ & _ & _ & Hv); by rewrite E in Hv).
    rewrite bool_decide_eq_false_2 by done.
    apply wp_bind, wp_plan_own_domain; [done..|]. apply wp_bind, IH; [|done|].
    + intros e He. destruct (Hin e) as [Hes Hei]; [by apply list_elem_of_further|]. split; [done|].
      rewrite elem_of_app, list_elem_of_singleton. intros [|Ee]; [done|]. apply Hd. rewrite <- Ee. by apply elem_of_map_2.
    + intros p Hp. apply wp_ret. rewrite <- app_assoc. apply HQ. apply idle_join; [|done].
      repeat split; try constructor; done.
Qed.

Lemma wp_unknown_domain s incoming allowed Q :
  Forall (fun ad => is_ok (DomainByName (import_name ad) (domains_of s)) = true) allowed ->
  Q None s -> wp calm (unknown_domain incoming allowed) Q s.
Proof.
  intros Ha HQ. induction Ha as [|ad allowed Had _ IH]; cbn; [by apply wp_ret|]. case_bool_decide; [done|].
  apply wp_bind, wp_query_calm. by destruct (DomainByName _ _).
Qed.

Lemma wp_plan_own_users s us incoming seen Q :
  importable cfg s -> (forall u, u ∈ us -> u ∈ su_rows (s_smtp_users s) /\ Username u ∉ seen) -> NoDup (map Username us) ->
  (forall p, idle p -> Q (inr (p, [])) s) ->
  wp calm (plan_users incoming seen (map exported_user us)) Q s.
Proof.
  intros Him. revert seen Q. induction us as [|u us IH]; intros seen Q Hin Hnd HQ; cbn [plan_users map].
  - apply wp_ret, HQ, idle_empty.
  - apply NoDup_cons in Hnd as [Hu Hnd]. destruct (Hin u) as [Hus Hni]; [apply list_elem_of_here|].
    pose proof (im_accounts _ _ Him) as Hac. eapply Forall_forall in Hac as (Ht & Hv & Hal); [|exact Hus].
    change (cu_Username (exported_user u)) with (Username u). cbv zeta. rewrite Ht.
    unfold valid_username in Hv. apply andb_true_iff in Hv as [Hv1 Hv2]. bools.
    rewrite bool_decide_eq_false_2 by done. rewrite Hv2, (bool_decide_eq_false_2 (Username u ∈ seen)) by done.
    apply wp_bind, wp_unknown_domain; [done|]. unfold plan_user. apply wp_bind, wp_bind, wp_query_calm.
    rewrite (SMTPUserByName_row _ u (im_usernames _ _ Him) Hus Ht _ eq_refl). cbn [exported_user cu_Password cu_Enabled].
    rewrite eqb_reflx. apply wp_ret, wp_bind, IH; [|done|].
    + intros v Hvin. destruct (Hin v) as [Hvs Hvi]; [by apply list_elem_of_further|]. split; [done|].
      rewrite elem_of_app, list_elem_of_singleton. intros [|Ee]; [done|]. apply Hu. rewrite <- Ee. by apply elem_of_map_2.
    + intros p Hp. apply wp_ret, HQ, idle_join; [|done]. repeat split; try constructor; done.
Qed.

Lemma wp_plan_exported s Q :
  importable cfg s -> (forall p, idle p -> Q (inr (p, [])) s) -> wp calm (planImport cfg (exported s)) Q s.
Proof.
  intros Him HQ. destruct (im_tables _ _ Him) as [Hwf _]. unfold planImport, exported. cbn [doc_Domains doc_SMTPUsers].
  assert (Hp1 : ListDomains (domains_of s) ≡ₚ domains_of s) by apply merge_sort_Permutation.
  assert (Hp2 : ListSMTPUsers (s_smtp_users s) ≡ₚ su_rows (s_smtp_users s)) by apply merge_sort_Permutation.
  apply wp_bind, wp_plan_own_domains; [done| |rewrite (Permutation_map DName Hp1); apply Hwf|].
  { intros d Hd. rewrite Hp1 in Hd. split; [done|apply not_elem_of_nil]. }
  intros p Hp. apply wp_bind, wp_plan_own_users; [done| |rewrite (Permutation_map Username Hp2); apply Him|].
  { intros u Hu. rewrite Hp2 in Hu. split; [done|apply not_elem_of_nil]. }
  intros q Hq. apply wp_ret, HQ. by apply idle_join.
Qed.
End configio.

(** C38: importing what was exported changes nothing.  On tables as the pages leave them, whose
    names are as the store normalises them and whose accounts send as domains that are there
    (see [stale_sender_refused]), when no statement fails, the document of [ExportConfigYAML],
    which YAML reads back as it was written, is accepted, reports no change and no warning, and leaves the domains, the recipient
    lists and the submission accounts as they are, whatever order the maps are visited in. *)
Theorem export_import_noop `{YamlLib} `{SmtpLib} `{PasswordCrypto} cfg (range_ : forall A, list (text * A) -> list (text * A)) s e :
  (forall A l, range_ A l ≡ₚ l) -> allows calm e -> importable cfg s ->
  (forall body, yaml_Marshal (exported s) = Ok body -> yaml_Decode (preamble ++ body) = (None, exported s)) ->
  let '(raw, w1) := ExportConfigYAML (World s e) in
  forall out, raw = Ok out ->
  let '(rep, w2) := ApplyConfigYAML cfg range_ out false w1 in
  settings (st w2) = settings s /\
  exists r, rep = inr r /\ rp_changed r = 0 /\ rp_warnings r = [].
Proof.
  intros Hrange He Him Hyaml.
  assert (Hout : forall out, yaml_Decode out = (None, exported s) ->
    wp calm (ApplyConfigYAML cfg range_ out false) (fun rep s2 => settings s2 = settings s /\
      exists r, rep = inr r /\ rp_changed r = 0 /\ rp_warnings r = []) s).
  { intros out E. unfold ApplyConfigYAML. rewrite E. apply wp_bind, wp_plan_exported; [done|]. intros p Hp.
    pose proof (idle_count p Hp) as Hc. destruct Hp as (_ & _ & E1 & E2 & E3 & E4 & E5).
    assert (Hnil : forall A, range_ A [] = []) by (intros A; by apply Permutation_nil_r, Hrange).
    unfold applyImport, and_then. rewrite E1, E2, E3, E4, E5, !Hnil. cbn [each].
    repeat (apply wp_bind, wp_ret; cbv iota beta || apply wp_ret || apply wp_bind). split; [done|]. eexists. done. }
  assert (Hexp : wp calm ExportConfigYAML (fun raw s1 => s1 = s /\ forall out, raw = Ok out -> yaml_Decode out = (None, exported s)) s).
  { unfold ExportConfigYAML. apply wp_bind, wp_export_document, wp_ret. split; [done|].
    destruct (yaml_Marshal (exported s)) eqn:E; [|done]. intros out [= <-]. by apply Hyaml. }
  specialize (Hexp e He). destruct (ExportConfigYAML (World s e)) as [raw [s1 e1]]. destruct Hexp as [He1 [Hs1 Hdec]].
  cbn [st wenv] in *. subst s1. intros out Hraw. apply (wp_run calm _ _ s e1 He1 (Hout out (Hdec out Hraw))).
Qed.

(** The office of [PagesProps], with an account and a list of recipients. *)
Definition sample_config : state :=
  set_s_smtp_users (SMTPUsers [{| SID := 1; Username := "web"%string; SPasswordHash := []; SAllowedDomains := [T "Other.example"];
                                  SEnabled := false; SCreatedAt := 0; LastUsedAt := None |}] 2)
    (set_s_recipients {[1 := [T "ann@you.example"; T "bob@you.example"]]} sample_pages).

#[local] Existing Instance Auth.sample_crypto.
#[local] Instance sample_yaml_smtp : SmtpLib :=
  {| smtp_error_text := fun e => Message e; ErrAuthRequired := SMTPError 502 (Enh 5 7 0) [];
     ErrAuthFailed := SMTPError 535 (Enh 5 7 8) []; ErrAuthUnsupported := SMTPError 504 (Enh 5 7 4) [] |}.

(** A library that knows one document. *)
#[local] Instance sample_yaml : YamlLib :=
  {| yaml_Decode := fun _ => (None, exported sample_config); yaml_Marshal := fun _ => Ok (T "version: 1") |}.

Lemma sample_config_importable : importable sample_pages_cfg sample_config.
Proof.
  split.
  - apply sample_office_valid.
  - intros d Hd. repeat (apply elem_of_cons in Hd as [->|Hd]); [..|by apply not_elem_of_nil in Hd];
      (split_and!; vm_compute; reflexivity).
  - intros d Hd. repeat (apply elem_of_cons in Hd as [->|Hd]); [..|by apply not_elem_of_nil in Hd]; vm_compute; reflexivity.
  - apply NoDup_singleton.
  - constructor; [|constructor]. split_and!; [vm_compute; reflexivity..|]. constructor; [vm_compute; reflexivity|constructor].
Qed.

Lemma export_import_noop_witness :
  let '(raw, w1) := ExportConfigYAML (World sample_config quiet) in
  raw = Ok (preamble ++ T "version: 1") /\
  let '(rep, w2) := ApplyConfigYAML sample_pages_cfg (fun _ l => rev l) (preamble ++ T "version: 1") false w1 in
  settings (st w2) = settings sample_config /\ exists r, rep = inr r /\ rp_changed r = 0 /\ rp_warnings r = [].
Proof.
  pose proof (export_import_noop sample_pages_cfg (fun _ l => rev l) sample_config quiet
    (fun A l => symmetry (Permutation_rev l)) ltac:(repeat split; constructor) sample_config_importable
    ltac:(intros body [= <-]; reflexivity)) as H.
  assert (Hraw : fst (ExportConfigYAML (World sample_config quiet)) = Ok (preamble ++ T "version: 1")) by (vm_compute; reflexivity).
  destruct (ExportConfigYAML _) as [raw w1]. cbn [fst] in Hraw. split; [exact Hraw|]. exact (H _ Hraw).
Defined.

(** ** What an import does not do *)

Definition reading (doc : configDocument) : YamlLib :=
  {| yaml_Decode := fun _ => (None, doc); yaml_Marshal := fun _ => Ok [] |}.

Definition import_of (doc : configDocument) (w : world) : (option error + report) * world :=
  ApplyConfigYAML (H := reading doc) sample_pages_cfg (fun _ l => l) [] false w.

(** A new account that is switched off in the document is created switched on; only a second
    import of the document switches it off. *)
Example disabled_account_created_enabled :
  let doc := ConfigDocument 1 [] [ConfigSMTPUser "robot"%string sample_password [] (Some false)] in
  let w := World sample_config (set_e_ids (replicate 4 (Some (T "0123456789abcdef"))) quiet) in
  let enabled w := map SEnabled (List.filter (fun u => bool_decide (Username u = "robot"%string)) (su_rows (s_smtp_users (st w)))) in
  let '(r1, w1) := import_of doc w in
  let '(r2, w2) := import_of doc w1 in
  enabled w1 = [true] /\ enabled w2 = [false] /\
  match r1, r2 with inr r1, inr r2 => rp_changed r1 = 1 /\ rp_changed r2 = 1 | _, _ => False end.
Proof. vm_compute. split_and!; reflexivity. Qed.

(** Deleting a domain an account may send as leaves an export that is refused when it is
    imported, by the node itself and by those that follow it. *)
Example stale_sender_refused :
  let s := set_s_smtp_users (SMTPUsers [{| SID := 1; Username := "web"%string; SPasswordHash := []; SAllowedDomains := [T "gone.example"];
                                           SEnabled := true; SCreatedAt := 0; LastUsedAt := None |}] 2) sample_pages in
  fst (import_of (exported s) (World s quiet)) = inl None.
Proof. vm_compute. reflexivity. Qed.

(** A domain that takes any recipient is exported without a list, and importing it leaves
    the list another node has. *)
Example emptied_list_stays :
  let leader := set_s_recipients ∅ sample_config in
  match import_of (exported leader) (World sample_config quiet) with
  | (inr r, w) => rp_changed r = 0 /\ DomainRecipients 1 (s_recipients (st w)) = [T "ann@you.example"; T "bob@you.example"]
  | _ => False
  end.
Proof. vm_compute. split; reflexivity. Qed.
