(* ===== verification/ClusterPages.v ===== *)
(** * The cluster's pages, and the configuration it exchanges (internal/api/clusterapi.go)

    The two endpoints peers call are guarded by the signature alone; the state of the fleet
    and forgetting a node are pages like the others. *)

From S2P Require Import Prelude GoStrings Times Errors StoreTypes StoreQueue StoreDomains StoreCluster StoreUsers Auth SmtpClient.
From S2P Require Import World Cluster Api Account Pages UserPages ConfigIO Sha PagesProps ConfigIOProps.
From Stdlib Require Import QArith.
Open Scope Z_scope.

(** ** The server as the source of configuration *)

Definition action_text (a : action) : text :=
  match a with
  | Created => "created"%string | Updated => "updated"%string | Unchanged => "unchanged"%string | Skipped => "skipped"%string
  end.

Definition change_json (c : changed) : jval := JObj [(T "name", JStr (ch_Name c)); (T "action", JStr (action_text (ch_Action c)))].

Definition report_map (rep : report) : jmap :=
  [(T "dry_run", JBool (rp_dry_run rep)); (T "domains", JList (map change_json (rp_domains rep)));
   (T "smtp_users", JList (map change_json (rp_smtp_users rep))); (T "warnings", JStrs (rp_warnings rep));
   (T "description", JStr (rp_description rep)); (T "changed", JNum (rp_changed rep))].

Definition errBadConfigDocument : error := EText "invalid configuration document"%string.

Section source.
Context `{YamlLib} `{SmtpLib} `{PasswordCrypto}.
Context (cfg : PagesConfig) (range_ : forall A, list (text * A) -> list (text * A)).

#[export] Instance server_source : ConfigSource := {|
  Cluster.ExportConfigYAML := ConfigIO.ExportConfigYAML;
  Cluster.ApplyConfigYAML := fun raw dryRun =>
    let* rep := ConfigIO.ApplyConfigYAML cfg range_ raw dryRun in
    ret match rep with
        | inl e => inl (default errBadConfigDocument e)
        | inr rep => inr (report_map rep)
        end;
  Cluster.ConfigHash := ConfigIO.ConfigHash
|}.
End source.

(** ** The endpoints of the peers *)

Definition maxClusterBody : Z := 2 ^ 20.

Section cluster_pages.
Context `{WireLib} `{ConfigSource}.
Context (cluster : option Member).

(** The body of a call that is accepted; [None] is a body too large or unreadable. *)
Definition peerRequest (pr : peer_request) (body : option text) : M (response + text) :=
  match cluster with
  | None => ret (inl (fail 404 "not_found"%string))
  | Some n =>
      if negb (cl_Enabled (n_cfg n)) then ret (inl (fail 404 "not_found"%string))
      else match body with
           | None => ret (inl (fail 413 "request_too_large"%string))
           | Some body =>
               let* now := now_ in
               ret match Verify pr (cl_Secret (n_cfg n)) (n_id n) body now with
                   | inl _ => inl (fail 401 "cluster_unauthorized"%string)
                   | inr _ => inr body
                   end
           end
  end.

Definition heartbeat_json (hb : Heartbeat) : jmap :=
  [(T "node_id", JStr (hb_NodeID hb)); (T "advertise_url", JStr (hb_AdvertiseURL hb)); (T "version", JStr (hb_Version hb));
   (T "role", JStr (hb_Role hb)); (T "config_hash", JStr (hb_ConfigHash hb)); (T "queue_pending", JNum (hb_QueuePending hb));
   (T "queue_bytes", JNum (hb_QueueBytes hb)); (T "domains", JNum (hb_Domains hb)); (T "at", JTime (hb_At hb))].

Definition handleHeartbeat (pr : peer_request) (body : option text) : M response :=
  let* accepted := peerRequest pr body in
  match accepted, cluster with
  | inl rs, _ => ret rs
  | inr _, None => ret (fail 404 "not_found"%string)
  | inr body, Some n =>
      match read_Heartbeat body with
      | None => ret (fail 400 "invalid_heartbeat"%string)
      | Some hb =>
          if bool_decide (hb_NodeID hb = []) then ret (fail 400 "invalid_heartbeat"%string)
          else
            let* seen := Observe hb in
            match seen with
            | Err _ => ret (fail 500 "peer_record_failed"%string)
            | Ok _ =>
                let* self := Snapshot n in
                ret match self with
                    | Err _ => fail 500 "cluster_describe_failed"%string
                    | Ok self => ok 200 (heartbeat_json self)
                    end
            end
      end
  end.

Definition handleClusterConfig (pr : peer_request) (body : option text) : M response :=
  let* accepted := peerRequest pr body in
  match accepted with
  | inl rs => ret rs
  | inr _ =>
      let* yaml := Cluster.ExportConfigYAML in
      ret match yaml with
          | Err _ => fail 500 "config_read_failed"%string
          | Ok yaml => ok 200 [(T "yaml", JStr yaml)]
          end
  end.

(** ** The state of the fleet *)

Definition drifts (ours : text) (o : node) : bool :=
  negb (bool_decide (ours = [])) && negb (bool_decide (NConfigHash o = [])) && negb (bool_decide (NConfigHash o = ours)).

Definition nodeView (selfID ours : text) (within now : Z) (o : node) : jval :=
  JObj ([(T "node_id", JStr (NodeID o))] ++ omit_text (T "advertise_url") (AdvertiseURL o) ++ omit_text (T "version") (NVersion o)
        ++ [(T "role", JStr (NRole o))] ++ omit_text (T "config_hash") (NConfigHash o)
        ++ [(T "queue_pending", JNum (NQueuePending o)); (T "queue_bytes", JNum (NQueueBytes o)); (T "domains", JNum (NDomains o));
            (T "first_seen", JTime (FirstSeen o)); (T "last_seen", JTime (LastSeen o));
            (T "healthy", JBool (Healthy o now within)); (T "self", JBool (bool_decide (NodeID o = selfID)));
            (T "config_drift", JBool (drifts ours o))]).

(** The last row with this node's name. *)
Definition own_hash (selfID : text) (nodes : list node) : text :=
  fold_left (fun ours o => if bool_decide (NodeID o = selfID) then NConfigHash o else ours) nodes [].

Definition how_many (f : node -> bool) (nodes : list node) : jval := JNum (Z.of_nat (length (List.filter f nodes))).

Definition handleClusterState (p : principal) (r : request) : M response :=
  match cluster with
  | None => ret (ok 200 [(T "enabled", JBool false); (T "nodes", JList [])])
  | Some n =>
      if negb (cl_Enabled (n_cfg n)) then ret (ok 200 [(T "enabled", JBool false); (T "nodes", JList [])])
      else
        let* nodes := query (fun s => Ok (ListNodes (s_nodes s))) in
        match nodes with
        | Err _ => ret (fail 500 "fleet_read_failed"%string)
        | Ok nodes =>
            let* now := now_ in
            let within := HealthyWithin n in
            let ours := own_hash (n_id n) nodes in
            ret (ok 200 [(T "enabled", JBool true); (T "node_id", JStr (n_id n)); (T "role", JStr (n_role n));
                   (T "healthy_after", JNum (Z.quot within second));
                   (T "nodes", JList (map (nodeView (n_id n) ours within now) nodes));
                   (T "healthy", how_many (fun o => Healthy o now within) nodes); (T "drifted", how_many (drifts ours) nodes);
                   (T "queue_is_shared", JBool false)])
        end
  end.

Definition handleForgetNode (id : text) (p : principal) (r : request) : M response :=
  if bool_decide (id = []) then ret (fail 400 "invalid_node_id"%string)
  else if match cluster with Some n => bool_decide (id = n_id n) | None => false end then ret (fail 400 "invalid_node_id"%string)
  else
    let* done_ := on_nodes (DeleteNode id) in
    ret match done_ with
        | Err e => if is_sentinel ErrNotFound e then fail 404 "node_not_found"%string else fail 500 "node_forget_failed"%string
        | Ok _ => ok 200 [(T "forgotten", JStr id)]
        end.
End cluster_pages.

(** * Guarantees *)

(** What the cluster relies on: fingerprinting and exporting leave the configuration alone, and
    an import calls no other node. *)
Class ConfigSourceLaws `{ConfigSource} : Prop := {
  hash_reads : keeps settings Cluster.ConfigHash;
  export_reads : keeps settings Cluster.ExportConfigYAML;
  apply_stays_home raw dryRun : keeps s_calls (Cluster.ApplyConfigYAML raw dryRun)
}.

(** ** The server keeps these promises *)

Section server.
Context `{YamlLib} `{SmtpLib} `{PasswordCrypto} (cfg : PagesConfig) (range_ : forall A, list (text * A) -> list (text * A)).
Context {X : Type} (f : state -> X).

Lemma keeps_export_domains ds : keeps f (export_domains ds).
Proof. induction ds as [|d ds IH]; cbn [export_domains]; keeps. Qed.

#[local] Hint Resolve keeps_export_domains : keeps.

Lemma keeps_ExportConfigYAML : keeps f ExportConfigYAML.
Proof. unfold ExportConfigYAML, export_document. keeps. Qed.

#[local] Hint Resolve keeps_ExportConfigYAML : keeps.

Lemma keeps_ConfigHash : keeps f ConfigHash.
Proof. unfold ConfigHash. keeps. Qed.

Lemma keeps_plan_domains incoming cds : keeps f (plan_domains cfg incoming cds).
Proof.
  revert incoming. induction cds as [|cd cds IH]; intros incoming; cbn [plan_domains]; [keeps|]. cbv zeta.
  case_bool_decide; [keeps|]. case_bool_decide; [keeps|]. apply keeps_bind; [unfold plan_domain, plan_recipients; keeps|].
  intros []; keeps.
Qed.

Lemma keeps_unknown_domain incoming allowed : keeps f (unknown_domain incoming allowed).
Proof. induction allowed as [|ad allowed IH]; cbn [unknown_domain]; [keeps|]. cbv zeta. case_bool_decide; keeps. Qed.

#[local] Hint Resolve keeps_plan_domains keeps_unknown_domain : keeps.

Lemma keeps_plan_users incoming seen cus : keeps f (plan_users incoming seen cus).
Proof.
  revert seen. induction cus as [|cu cus IH]; intros seen; cbn [plan_users]; [keeps|]. cbv zeta.
  case_bool_decide; [keeps|]. destruct (contains_any _ _); [keeps|]. case_bool_decide; [keeps|].
  apply keeps_bind; [keeps|]. intros [ad|]; [keeps|]. apply keeps_bind; [unfold plan_user; keeps|]. intros [|[]]; keeps.
Qed.

#[local] Hint Resolve keeps_plan_users : keeps.

Lemma keeps_planImport doc : keeps f (planImport cfg doc).
Proof. unfold planImport. keeps. Qed.

Lemma keeps_each {A} (l : list A) g : (forall x, keeps f (g x)) -> keeps f (each l g).
Proof. intros Hg. induction l as [|x l IH]; cbn [each]; [keeps|]. apply keeps_bind; [apply Hg|]. intros []; keeps. Qed.

Lemma keeps_and_then m k : keeps f m -> keeps f k -> keeps f (and_then m k).
Proof. intros Hm Hk. unfold and_then. apply keeps_bind; [done|]. intros []; [done|keeps]. Qed.

Hypothesis Hnow : forall s t, f (set_s_now t s) = f s.
Hypothesis Hdomains : forall s t, f (set_s_domains t s) = f s.
Hypothesis Hrecipients : forall s t, f (set_s_recipients t s) = f s.
Hypothesis Haccounts : forall s t, f (set_s_smtp_users t s) = f s.

Lemma keeps_applyImport p : keeps f (applyImport range_ p).
Proof.
  assert (Hn : keeps f now_) by by apply keeps_now.
  assert (Hd : forall A (g : domain_tables -> result A * domain_tables), keeps f (on_domains g)).
  { intros A g. apply keeps_statement. intros s. destruct (g _). apply Hdomains. }
  assert (Hr : forall g, keeps f (on_recipients g)).
  { intros g. apply keeps_statement. intros s. destruct (g _ _). apply Hrecipients. }
  assert (Hu : forall A (g : smtp_user_table -> result A * smtp_user_table), keeps f (on_smtp_users g)).
  { intros A g. apply keeps_statement. intros s. destruct (g _). apply Haccounts. }
  unfold applyImport. repeat apply keeps_and_then; apply keeps_each.
  - intros d. unfold apply_create. apply keeps_bind; [done|]. intros now. apply keeps_bind; [done|keeps].
  - intros d. unfold apply_update, on_domain_rows. apply keeps_bind; [done|]. intros now. apply keeps_bind; [done|keeps].
  - intros [name list]. unfold apply_recipients. apply keeps_bind; [keeps|]. intros [d|e]; [|keeps]. apply keeps_bind; [done|keeps].
  - intros cu. unfold apply_new_user, random_bytes. apply keeps_bind; [keeps|]. intros salt. destruct (HashPassword _ _); [|keeps].
    apply keeps_bind; [done|]. intros now. apply keeps_bind; [done|keeps].
  - intros [name b]. unfold apply_enable. apply keeps_bind; [keeps|]. intros [u|e]; [|keeps]. apply keeps_bind; [done|keeps].
Qed.

Lemma keeps_ApplyConfigYAML raw dryRun : keeps f (ConfigIO.ApplyConfigYAML cfg range_ raw dryRun).
Proof.
  unfold ConfigIO.ApplyConfigYAML. destruct (yaml_Decode raw) as [[e|] doc]; [keeps|]. destruct (_ && _); [keeps|].
  apply keeps_bind; [apply keeps_planImport|]. intros [msg|[p w]]; [keeps|]. destruct dryRun; [keeps|].
  apply keeps_bind; [apply keeps_applyImport|keeps].
Qed.
End server.

#[export] Instance server_source_laws `{YamlLib} `{SmtpLib} `{PasswordCrypto} cfg range_ :
  @ConfigSourceLaws (server_source cfg range_).
Proof.
  split; intros.
  - apply keeps_ConfigHash.
  - apply keeps_ExportConfigYAML.
  - cbn. apply keeps_bind; [by apply keeps_ApplyConfigYAML|keeps].
Qed.

(** ** A follower pulls from the only primary *)

Section sync.
Context `{WireLib} `{ConfigSourceLaws} (n : Member).

Lemma may_lead_earlier o t t' : may_lead n t o = true -> t' <= t -> may_lead n t' o = true.
Proof.
  unfold may_lead, Healthy. rewrite !andb_true_iff. intros [Hrest Hl%Z.leb_le] Ht. split; [done|]. apply Z.leb_le. lia.
Qed.

(** The only node of [nodes] that led, looked at between [from] and [now]. *)
Definition only_leader (nodes : list node) (from now : Z) (o : node) : Prop :=
  o ∈ nodes /\ may_lead n from o = true /\ forall o', o' ∈ nodes -> may_lead n now o' = true -> o' = o.

(** What is found among nodes none of which leads. *)
Lemma wp_choose_primary md found nodes Q s :
  Q None s ->
  (forall t, s_now s <= t -> Q None (set_s_now t s)) ->
  (forall t r, s_now s <= t ->
     (r = found /\ (forall o, o ∈ nodes -> may_lead n t o = false)) \/
     (found = None /\ exists o, r = Some o /\ only_leader nodes (s_now s) t o) -> Q (Some r) (set_s_now t s)) ->
  wp md (choose_primary n found nodes) Q s.
Proof.
  assert (Hself : forall s, set_s_now (s_now s) s = s) by by intros [].
  revert found Q s. induction nodes as [|o nodes IH]; intros found Q s HN HNt HQ; cbn [choose_primary].
  - apply wp_ret. rewrite <- (Hself s). apply HQ; [done|]. left. split; [done|]. by intros o ?%not_elem_of_nil.
  - assert (Hskip : (forall t, s_now s <= t -> may_lead n t o = false) -> wp md (choose_primary n found nodes) Q s).
    { intros Hno. apply IH; [done|done|]. intros t r Ht [[-> Hall]|(-> & l & -> & Hl & Hlead & Honly)]; apply HQ; try done.
      - left. split; [done|]. intros o' [->|Ho']%elem_of_cons; auto.
      - right. split; [done|]. exists l. split; [done|]. split_and!; [by apply list_elem_of_further|done|].
        intros o' [->|Ho']%elem_of_cons Hm; [by rewrite Hno in Hm|auto]. }
    destruct (bool_decide (NodeID o = n_id n) || negb (bool_decide (NRole o = NodePrimary)) || bool_decide (AdvertiseURL o = [])) eqn:E.
    { apply Hskip. intros t _. unfold may_lead. revert E. destruct (bool_decide (NodeID o = n_id n)); [done|].
      destruct (bool_decide (NRole o = NodePrimary)); [|done]. by destruct (bool_decide (AdvertiseURL o = [])). }
    apply wp_bind, wp_now. intros t Ht. destruct (may_lead n t o) eqn:Em; cbn [negb].
    + destruct found as [p|]; [by apply wp_ret, HNt|]. apply IH; [by apply HNt|intros t' Ht'; apply HNt; cbn in Ht'; lia|].
      intros t' r Ht' [[-> Hall]|(? & _)]; [|done]. cbn in Ht'. apply HQ; [lia|]. right. split; [done|]. exists o. split; [done|].
      split_and!; [apply list_elem_of_here|by eapply may_lead_earlier|]. intros o' [->|Ho']%elem_of_cons Hm; [done|].
      by rewrite Hall in Hm.
    + apply IH; [by apply HNt|intros t' Ht'; apply HNt; cbn in Ht'; lia|]. intros t' r Ht' Hr. cbn in Ht'.
      assert (Hno : may_lead n t' o = false) by (destruct (may_lead n t' o) eqn:E'; [by rewrite (may_lead_earlier _ t' t) in Em|done]).
      apply HQ; [lia|]. destruct Hr as [[-> Hall]|(-> & l & -> & Hl & Hlead & Honly)].
      * left. split; [done|]. intros o' [->|Ho']%elem_of_cons; auto.
      * right. split; [done|]. exists l. split; [done|]. cbn in Hlead.
        split_and!; [by apply list_elem_of_further|eapply may_lead_earlier; [exact Hlead|lia]|].
        intros o' [->|Ho']%elem_of_cons Hm; [congruence|auto].
Qed.

Lemma wp_pull md o Q s :
  (forall s', settings s' = settings s -> Q tt s') ->
  (forall c s', pc_method c = T "GET" -> pc_url c = trim_slashes (AdvertiseURL o) ++ ConfigPath ->
     s_calls s' = s_calls s ++ [c] -> Q tt s') ->
  wp md (pull n o) Q s.
Proof.
  intros Hsame Hpulled. unfold pull. apply wp_bind, wp_call; [intros e; by apply wp_ret, Hsame|].
  intros p r Hp now _ s0. set (s1 := set_s_calls _ s0). assert (Hs1 : settings s1 = settings s) by done.
  destruct r as [raw|e]; [|by apply wp_ret, Hsame]. destruct (read_yaml raw) as [yaml|]; [|by apply wp_ret, Hsame].
  apply wp_bind. eapply wp_mono; [apply apply_stays_home|]. cbn. intros rep s2 E2.
  assert (Hcalls : forall s', s_calls s' = s_calls s2 -> Q tt s').
  { intros s' E. eapply (Hpulled _ s'); [| |rewrite E, E2; reflexivity]; reflexivity. }
  destruct rep as [e|rep]; [by apply wp_ret, Hcalls|]. case_match; [by apply wp_ret, Hcalls|].
  eapply wp_mono; [apply (keeps_record_event s_calls); reflexivity|]. intros [] s3 E3. by apply Hcalls.
Qed.

(** C31: a node changes its configuration only when it is a follower set to synchronise, and
    only by pulling from a node that was a healthy primary with an address when the table was read, no
    other node being one, and whose fingerprint differs from its own; the call that fetched the
    document went to that node. *)
Theorem sync_from_only_primary md self s :
  wp md (syncConfig n self) (fun _ s' =>
    settings s' = settings s \/
    (cl_SyncConfig (n_cfg n) = true /\ n_role n = NodeFollower /\
     exists o now c, s_now s <= now /\ only_leader (s_nodes s) (s_now s) now o /\
       NConfigHash o <> [] /\ NConfigHash o <> hb_ConfigHash self /\
       pc_method c = T "GET" /\ pc_url c = trim_slashes (AdvertiseURL o) ++ ConfigPath /\ s_calls s' = s_calls s ++ [c])) s.
Proof.
  unfold syncConfig. destruct (cl_SyncConfig (n_cfg n)) eqn:Esync; [|by apply wp_ret; left].
  destruct (bool_decide_reflect (n_role n = NodeFollower)) as [Hrole|]; [|by apply wp_ret; left].
  case_bool_decide as Hhash; [by apply wp_ret; left|]. cbn [negb orb].
  apply wp_bind, wp_query; [intros e _; apply wp_ret; by left|].
  assert (Hin : forall o, o ∈ ListNodes (s_nodes s) <-> o ∈ s_nodes s).
  { intros o. unfold ListNodes. by rewrite (merge_sort_Permutation node_le (s_nodes s)). }
  apply wp_bind, wp_choose_primary; [apply wp_ret; by left|intros t _; apply wp_ret; by left|].
  intros t r Ht [[-> _]|(_ & o & -> & Ho & Hlead & Honly)]; [apply wp_ret; by left|].
  destruct (bool_decide (NConfigHash o = []) || bool_decide (NConfigHash o = hb_ConfigHash self)) eqn:E; [apply wp_ret; by left|].
  apply orb_false_iff in E as [E1%bool_decide_eq_false E2%bool_decide_eq_false].
  apply wp_pull; [intros s' E; by left|]. intros c s' Hm Hu Hc. right. split; [done|]. split; [done|].
  exists o, t, c. split; [done|]. split; [|done]. split_and!; [by apply Hin|done|]. intros o' Ho'%Hin. auto.
Qed.

(** Nothing else of a round, and nothing a peer asks for, changes the configuration. *)
Lemma keeps_Observe hb : keeps settings (Observe hb).
Proof. unfold Observe, on_nodes. keeps. Qed.

Lemma keeps_call method base path body : keeps settings (call n method base path body).
Proof. unfold call. keeps. Qed.

#[local] Hint Resolve keeps_Observe keeps_call hash_reads export_reads : keeps.

Lemma keeps_Snapshot : keeps settings (Snapshot n).
Proof. unfold Snapshot. keeps. Qed.

Lemma keeps_greet_all ps self : keeps settings (greet_all n ps self).
Proof. induction ps as [|p ps IH]; cbn [greet_all]; [keeps|]. apply keeps_bind; [unfold greet; keeps|done]. Qed.

#[local] Hint Resolve keeps_Snapshot : keeps.

Lemma keeps_peerRequest cl pr body : keeps settings (peerRequest cl pr body).
Proof. unfold peerRequest. keeps. Qed.

#[local] Hint Resolve keeps_peerRequest : keeps.

Lemma keeps_handleClusterConfig cl pr body : keeps settings (handleClusterConfig cl pr body).
Proof. unfold handleClusterConfig. keeps. Qed.
End sync.

Lemma keeps_handleHeartbeat `{WireLib} `{ConfigSourceLaws} cl pr body : keeps settings (handleHeartbeat cl pr body).
Proof.
  unfold handleHeartbeat. apply keeps_bind; [apply keeps_peerRequest|]. intros [rs|b]; [keeps|]. destruct cl as [n|]; [|keeps].
  destruct (read_Heartbeat b); [|keeps]. case_bool_decide; [keeps|]. apply keeps_bind; [apply keeps_Observe|]. intros []; [|keeps].
  apply keeps_bind; [apply keeps_Snapshot|keeps].
Qed.

(** A follower of a primary whose document has one domain more. *)
Definition sample_leader : node := Node "a"%string "https://a/"%string "1"%string NodePrimary "f00d"%string 0 0 0 0 0.

Definition sample_document : configDocument :=
  ConfigDocument 1 [ConfigDomain "new.example"%string "mail.new.example"%string 25 TLSOpportunistic None None 72 None None] [].

#[local] Existing Instance Auth.sample_crypto.
#[local] Existing Instance ConfigIOProps.sample_yaml_smtp.
#[local] Existing Instance Cluster.sample_wire.

Definition follower_source : ConfigSource := server_source (H := reading sample_document) sample_pages_cfg (fun _ l => l).

Lemma sync_from_only_primary_witness :
  let s := set_s_nodes [sample_leader] sample_config in
  let self := {| hb_NodeID := "b"%string; hb_AdvertiseURL := []; hb_Version := []; hb_Role := NodeFollower;
                 hb_ConfigHash := "beef"%string; hb_QueuePending := 0; hb_QueueBytes := 0; hb_Domains := 0; hb_At := 0 |} in
  let '(_, w) := syncConfig (H0 := follower_source) (sample_member (T "b") NodeFollower) self
                   (World s (set_e_calls [inr (200, T "{}")] quiet)) in
  length (domains_of (st w)) = S (length (domains_of s)) /\
  exists o now c, only_leader (sample_member (T "b") NodeFollower) [sample_leader] (s_now sample_config) now o /\
    s_calls (st w) = [c] /\ pc_url c = trim_slashes (AdvertiseURL o) ++ ConfigPath.
Proof.
  cbv zeta. set (s := set_s_nodes [sample_leader] sample_config).
  set (self := Build_Heartbeat _ _ _ _ _ _ _ _ _).
  pose proof (wp_run any _ _ s (set_e_calls [inr (200, T "{}")] quiet) (allows_any _)
    (sync_from_only_primary (H0 := follower_source) (H1 := server_source_laws (H := reading sample_document) sample_pages_cfg (fun _ l => l))
       (sample_member (T "b") NodeFollower) any self s)) as H.
  assert (Hlen : length (domains_of (st (snd (syncConfig (H0 := follower_source) (sample_member (T "b") NodeFollower) self
    (World s (set_e_calls [inr (200, T "{}")] quiet)))))) = S (length (domains_of s))) by (vm_compute; reflexivity).
  destruct (syncConfig _ _ _) as [[] w]. cbn [snd] in Hlen. split; [exact Hlen|].
  destruct H as [H|(_ & _ & o & now & c & _ & Ho & _ & _ & _ & Hu & Hc)].
  - exfalso. injection H as Hd _ _. rewrite Hd in Hlen. exact (Nat.neq_succ_diag_r _ Hlen).
  - exists o, now, c. split; [exact Ho|]. split; [exact Hc|exact Hu].
Defined.
