(* ===== verification/Arc.v ===== *)
(** * Authenticated received chains (internal/arc)

    Canonicalisation and tag lists (canon.go), the verification of a chain (verify.go) and
    its sealing (arc.go).  SHA-256 and base64 are computed; RSA, ed25519 and the parsing of
    keys belong to Go's crypto packages and are a class; DNS is a function.  [Seal] takes
    the bytes it reads and gives the bytes it writes: its caller hands it a slice and a
    buffer, which do not fail. *)

From S2P Require Import Prelude GoStrings Base64 Sha Times Errors.
From Stdlib Require Import QArith.
Open Scope Z_scope.

(** ** canon.go *)

Record field := Field { fd_name : text; fd_raw : text }.

Definition value (f : field) : text :=
  match index_byte ":"%char (fd_raw f) with Some i => drop (S i) (fd_raw f) | None => [] end.

(** Every line break as CRLF. *)
Fixpoint to_crlf (s : text) : text :=
  match s with
  | [] => []
  | c :: r =>
      if bool_decide (c = CR) then
        CR :: LF :: match r with
                    | d :: r' => if bool_decide (d = LF) then to_crlf r' else to_crlf r
                    | [] => []
                    end
      else if bool_decide (c = LF) then CR :: LF :: to_crlf r
      else c :: to_crlf r
  end.

Definition normalizeLineEndings (raw : text) : text := if bool_decide (LF ∈ raw) then to_crlf raw else raw.

(** [bytes.Index(raw, "\r\n\r\n")], as what precedes the first and what follows it. *)
Definition CRLF2 : text := CRLF ++ CRLF.

Fixpoint cut_blank (s : text) : option (text * text) :=
  if has_prefix CRLF2 s then Some ([], drop 4 s)
  else match s with
       | [] => None
       | c :: r => match cut_blank r with Some (a, b) => Some (c :: a, b) | None => None end
       end.

(** [strings.SplitAfter(s, "\r\n")]. *)
Fixpoint split_after (s : text) : list text :=
  match s with
  | [] => [[]]
  | c :: r =>
      if bool_decide (c = CR) && has_prefix [LF] r then
        match r with
        | d :: r' => [c; d] :: split_after r'
        | [] => [[c]]
        end
      else match split_after r with
           | l :: ls => (c :: l) :: ls
           | [] => [[c]]
           end
  end.

(** [strings.Split(s, "\r\n")]. *)
Fixpoint split_crlf (s : text) : list text :=
  match s with
  | [] => [[]]
  | c :: r =>
      if bool_decide (c = CR) && has_prefix [LF] r then
        match r with _ :: r' => [] :: split_crlf r' | [] => [[]] end
      else match split_crlf r with
           | l :: ls => (c :: l) :: ls
           | [] => [[c]]
           end
  end.

Definition is_wsp (c : ascii) : bool := bool_decide (c = SP) || bool_decide (c = TAB).

Definition starts_wsp (s : text) : bool := match s with c :: _ => is_wsp c | [] => false end.

(** The last field grows with a continuation line. *)
Fixpoint continue_last (fields : list text) (line : text) : list text :=
  match fields with
  | [] => []
  | [f] => [f ++ line]
  | f :: fs => f :: continue_last fs line
  end.

Definition add_line (fields : list text) (line : text) : list text :=
  if bool_decide (line = []) then fields
  else if starts_wsp line && negb (bool_decide (fields = [])) then continue_last fields line
  else fields ++ [line].

(** A field with a name before its colon. *)
Definition field_of (raw : text) : option field :=
  let raw := trim_suffix CRLF raw in
  match index_byte ":"%char raw with
  | Some (S i) => Some (Field (trim_right is_wsp (take (S i) raw)) raw)
  | _ => None
  end.

Definition split_head (raw : text) : text * text :=
  if has_prefix CRLF raw then ([], drop 2 raw)
  else match cut_blank raw with
       | Some (a, b) => (a ++ CRLF, b)
       | None => (raw, [])
       end.

Definition splitMessage (raw : text) : list field * text :=
  let '(head, body) := split_head raw in
  (omap field_of (fold_left add_line (split_after head) []), body).

Fixpoint compress (space : bool) (s : text) : text :=
  match s with
  | [] => if space then [SP] else []
  | c :: r =>
      if is_wsp c then compress true r
      else (if space then [SP] else []) ++ c :: compress false r
  end.

Definition compressWSP (s : text) : text := compress false s.

Definition unfold_ (s : text) : text :=
  List.filter (fun c => negb (bool_decide (c = CR)) && negb (bool_decide (c = LF))) s.

Definition canonHeader (f : field) (relaxed : bool) : text :=
  if negb relaxed then fd_raw f ++ CRLF
  else to_lower (trim_space (fd_name f)) ++ ":"%string ++ trim_space (compressWSP (unfold_ (value f))) ++ CRLF.

(** Empty lines at the end go. *)
Fixpoint drop_empty (lines : list text) : list text :=
  match lines with
  | [] => []
  | l :: ls => match l with [] => drop_empty ls | _ => lines end
  end.

Definition drop_last_empty (lines : list text) : list text :=
  match rev lines with [] :: ls => rev ls | _ => lines end.

Definition canonBody (body : text) (relaxed : bool) : text :=
  let lines := drop_last_empty (split_crlf body) in
  let lines := if relaxed then map (fun l => trim_right (fun c => bool_decide (c = SP)) (compressWSP l)) lines else lines in
  match rev (drop_empty (rev lines)) with
  | [] => if relaxed then [] else CRLF
  | lines => join CRLF lines ++ CRLF
  end.

Notation tagList := (gmap text text).

Definition tag (t : tagList) (name : text) : text := default [] (t !! name).

(** [None] when the list does not parse. *)
Definition add_tag (tags : option tagList) (part : text) : option tagList :=
  match tags with
  | None => None
  | Some tags =>
      let part := trim_space part in
      if bool_decide (part = []) then Some tags
      else match index_byte "="%char part with
           | Some (S i) =>
               let name := trim_space (take (S i) part) in
               match tags !! name with
               | Some _ => None
               | None => Some (<[name := trim_space (drop (S (S i)) part)]> tags)
               end
           | _ => None
           end
  end.

Definition parseTags (v : text) : option tagList := fold_left add_tag (split_byte ";"%char (unfold_ v)) (Some ∅).

Definition is_blank (c : ascii) : bool := is_wsp c || bool_decide (c = CR) || bool_decide (c = LF).

Definition compact (t : tagList) (name : text) : text := List.filter (fun c => negb (is_blank c)) (tag t name).

(** What [bTag] makes of the text between two semicolons: a [b=] tag loses its value. *)
Definition strip_part (part : text) : text :=
  match trim_left is_blank part with
  | c :: r =>
      if bool_decide (c = "b"%char) then
        match trim_left is_blank r with
        | d :: rest => if bool_decide (d = "="%char) then take (length part - length rest)%nat part else part
        | [] => part
        end
      else part
  | [] => part
  end.

Definition stripSignature (f : field) : field :=
  let n := match index_byte ":"%char (fd_raw f) with Some i => S i | None => 0%nat end in
  Field (fd_name f) (take n (fd_raw f) ++ join ";"%string (map strip_part (split_byte ";"%char (drop n (fd_raw f))))).

Definition MaxInstances : Z := 50.

Definition CVNone : text := "none"%string.
Definition CVPass : text := "pass"%string.
Definition CVFail : text := "fail"%string.

Definition aarName : text := "ARC-Authentication-Results"%string.
Definition amsName : text := "ARC-Message-Signature"%string.
Definition asName : text := "ARC-Seal"%string.

Definition instance_text (f : field) : option text :=
  if equal_fold (fd_name f) aarName then
    let v := trim_space (unfold_ (value f)) in
    let semi := match index_byte ";"%char v with Some i => i | None => length v end in
    let tag := trim_space (take semi v) in
    if negb (has_prefix "i"%string tag) then None
    else match index_byte "="%char tag with
         | None => None
         | Some i => if bool_decide (trim_space (take i tag) = "i"%string) then Some (trim_space (drop (S i) tag)) else None
         end
  else match parseTags (value f) with
       | None => None
       | Some tags => Some (tag tags "i"%string)
       end.

(** [strconv.Atoi] is [ParseInt64] on a 64-bit machine. *)
Definition instanceOf (f : field) : option Z :=
  match instance_text f with
  | None => None
  | Some raw =>
      match ParseInt64 raw with
      | Some n => if (n <? 1) || (MaxInstances <? n) then None else Some n
      | None => None
      end
  end.

(** ** verify.go *)

Definition minRSABits : Z := 1024.

Record Result := { r_CV : text; r_Instance : Z; r_Reason : text }.

(** A set being collected, and a complete one. *)
Record partial := Partial { p_aar : option field; p_ams : option field; p_as : option field }.
Record arc_set := ArcSet { aar : field; ams : field; as_ : field }.

Inductive slot := Saar | Sams | Sas.

Definition slot_of (f : field) : option slot :=
  if equal_fold (fd_name f) aarName then Some Saar
  else if equal_fold (fd_name f) amsName then Some Sams
  else if equal_fold (fd_name f) asName then Some Sas
  else None.

Definition get_slot (sl : slot) (p : partial) : option field :=
  match sl with Saar => p_aar p | Sams => p_ams p | Sas => p_as p end.

Definition put_slot (sl : slot) (f : field) (p : partial) : partial :=
  match sl with
  | Saar => Partial (Some f) (p_ams p) (p_as p)
  | Sams => Partial (p_aar p) (Some f) (p_as p)
  | Sas => Partial (p_aar p) (p_ams p) (Some f)
  end.

(** One field into [byInstance] and [max]. *)
Definition collect_field (st : result (gmap Z partial * Z)) (f : field) : result (gmap Z partial * Z) :=
  match st with
  | Err e => Err e
  | Ok (byInstance, max) =>
      match slot_of f with
      | None => Ok (byInstance, max)
      | Some sl =>
          match instanceOf f with
          | None => Err (EText (fd_name f ++ " with a missing or invalid instance"%string))
          | Some n =>
              let s := default (Partial None None None) (byInstance !! n) in
              match get_slot sl s with
              | Some _ => Err (EText ("two "%string ++ fd_name f ++ " headers for instance "%string ++ dec n))
              | None => Ok (<[n := put_slot sl f s]> byInstance, Z.max max n)
              end
          end
      end
  end.

Definition complete (p : option partial) : option arc_set :=
  match p with
  | Some (Partial (Some aar) (Some ams) (Some as_)) => Some (ArcSet aar ams as_)
  | _ => None
  end.

(** Instances [i], [i + 1], ..., [k] of them. *)
Fixpoint sets_from (byInstance : gmap Z partial) (i : Z) (k : nat) : result (list arc_set) :=
  match k with
  | O => Ok []
  | S k =>
      match complete (byInstance !! i) with
      | None => Err (EText ("arc set "%string ++ dec i ++ " is incomplete"%string))
      | Some s => match sets_from byInstance (i + 1) k with Ok l => Ok (s :: l) | Err e => Err e end
      end
  end.

Definition collect (fields : list field) : result (list arc_set) :=
  match fold_left collect_field fields (Ok (∅, 0)) with
  | Err e => Err e
  | Ok (byInstance, max) => sets_from byInstance 1 (Z.to_nat max)
  end.

Definition latestCV (c : list arc_set) : text :=
  match last c with
  | None => []
  | Some s => to_lower (tag (default ∅ (parseTags (value (as_ s)))) "cv"%string)
  end.

Definition sealInput (sets : list arc_set) (pending : option arc_set) : text :=
  let all := sets ++ match pending with Some s => [s] | None => [] end in
  concat (imap (fun i s =>
    canonHeader (aar s) true ++ canonHeader (ams s) true ++
    (if (S i =? length all)%nat then trim_suffix CRLF (canonHeader (stripSignature (as_ s)) true)
     else canonHeader (as_ s) true)) all).

(** Header and body, whether relaxed. *)
Definition canonicalization (c : text) : result (bool * bool) :=
  if bool_decide (c = []) then Ok (false, false)
  else
    let l := to_lower c in
    let '(h, b) := match index_byte "/"%char l with Some i => (take i l, drop (S i) l) | None => (l, []) end in
    let b := if bool_decide (b = []) then "simple"%string : text else b in
    let known v := bool_decide (v = T "simple") || bool_decide (v = T "relaxed") in
    if known h && known b then Ok (bool_decide (h = "relaxed"%string), bool_decide (b = "relaxed"%string))
    else Err (EText ("unknown canonicalization "%string ++ quote c)).

(** Signatures and keys. *)
Class SignatureLib := {
  rsa_key : Type;
  ParsePKIXPublicKey : text -> option (option rsa_key);    (* [Some None]: a key that is not RSA *)
  ParsePKCS1PublicKey : text -> option rsa_key;
  BitLen : rsa_key -> Z;
  VerifyPKCS1v15 : rsa_key -> text -> text -> bool;        (* digest, signature *)
  ed25519_Verify : text -> text -> text -> bool;
  (* private keys *)
  private_key : Type;
  ed25519_public : private_key -> bool;
  key_Sign : private_key -> text -> result text
}.

Inductive public_key `{SignatureLib} := RSAKey (k : rsa_key) | Ed25519Key (k : text).

Section verify.
Context `{SmtpLib} `{SignatureLib}.
Context (LookupTXT : text -> result (list text)).

Definition rsa_public (name der : text) : result public_key :=
  let pub := match ParsePKIXPublicKey der with
             | Some k => Some k
             | None => match ParsePKCS1PublicKey der with Some k => Some (Some k) | None => None end
             end in
  match pub with
  | None => Err (EText ("key at "%string ++ name ++ " does not parse"%string))
  | Some None => Err (EText ("key at "%string ++ name ++ " is not rsa"%string))
  | Some (Some k) =>
      if BitLen k <? minRSABits then Err (EText ("key at "%string ++ name ++ " is only "%string ++ dec (BitLen k) ++ " bits"%string))
      else Ok (RSAKey k)
  end.

Definition published_key (name : text) (tags : tagList) (der : text) : result public_key :=
  let k := to_lower (tag tags "k"%string) in
  if bool_decide (k = []) || bool_decide (k = "rsa"%string) then rsa_public name der
  else if bool_decide (k = "ed25519"%string) then
    if negb (length der =? 32)%nat then Err (EText ("key at "%string ++ name ++ " is not an ed25519 key"%string))
    else Ok (Ed25519Key der)
  else Err (EText ("key at "%string ++ name ++ " has unsupported k="%string ++ tag tags "k"%string)).

Definition lookupKey (selector domain : text) : result public_key :=
  let name := selector ++ "._domainkey."%string ++ trim_suffix "."%string domain in
  match LookupTXT name with
  | Err e => Err (EWrap ("key lookup "%string ++ name) e)
  | Ok txts =>
      if bool_decide (txts = []) then Err (EText ("no key at "%string ++ name))
      else match parseTags (concat txts) with
      | None => Err (EText ("key record at "%string ++ name ++ " does not parse"%string))
      | Some tags =>
          let v := tag tags "v"%string in
          if negb (bool_decide (v = [])) && negb (bool_decide (v = "DKIM1"%string)) then
            Err (EText ("key record at "%string ++ name ++ " has v="%string ++ v))
          else if bool_decide (compact tags "p"%string = []) then Err (EText ("key at "%string ++ name ++ " is revoked"%string))
          else match std_DecodeString (compact tags "p"%string) with
          | None => Err (EText ("key at "%string ++ name ++ " is not base64"%string))
          | Some der => published_key name tags der
          end
      end
  end.

Definition checkSignature (tags : tagList) (input : text) : option error :=
  match std_DecodeString (compact tags "b"%string) with
  | None => Some (EText "b= is not base64"%string)
  | Some sig =>
      match lookupKey (tag tags "s"%string) (tag tags "d"%string) with
      | Err e => Some e
      | Ok key =>
          let hash := Sum256 input in
          let a := to_lower (tag tags "a"%string) in
          if bool_decide (a = "rsa-sha256"%string) then
            match key with
            | RSAKey k => if VerifyPKCS1v15 k hash sig then None else Some (EText "signature does not verify"%string)
            | _ => Some (EText "a=rsa-sha256 but the published key is not rsa"%string)
            end
          else if bool_decide (a = "ed25519-sha256"%string) then
            match key with
            | Ed25519Key k => if ed25519_Verify k hash sig then None else Some (EText "signature does not verify"%string)
            | _ => Some (EText "a=ed25519-sha256 but the published key is not ed25519"%string)
            end
          else Some (EText ("unsupported algorithm "%string ++ quote (tag tags "a"%string)))
      end
  end.

(** The fields from the last to the first, each with its mark in [used]. *)
Fixpoint take_field (name : text) (fields : list (field * bool)) : option (field * list (field * bool)) :=
  match fields with
  | [] => None
  | (f, used) :: rest =>
      if used || negb (equal_fold (fd_name f) name) then
        match take_field name rest with
        | Some (g, rest) => Some (g, (f, used) :: rest)
        | None => None
        end
      else Some (f, (f, true) :: rest)
  end.

Fixpoint signed_headers (relaxed : bool) (names : list text) (fields : list (field * bool)) : text :=
  match names with
  | [] => []
  | name :: names =>
      match take_field name fields with
      | Some (f, fields) => canonHeader f relaxed ++ signed_headers relaxed names fields
      | None => signed_headers relaxed names fields
      end
  end.

Definition missing_tag (names : list text) (tags : tagList) : option error :=
  match find (fun t => bool_decide (tag tags t = [])) names with
  | Some t => Some (EText ("missing "%string ++ t ++ "="%string))
  | None => None
  end.

(** The body under [l=]. *)
Definition signed_body (l cbody : text) : result text :=
  if bool_decide (l = []) then Ok cbody
  else match ParseInt64 l with
       | Some n => if n <? 0 then Err (EText "invalid l="%string)
                   else if n <? Z.of_nat (length cbody) then Ok (take (Z.to_nat n) cbody) else Ok cbody
       | None => Err (EText "invalid l="%string)
       end.

Definition verifyAMS (fields : list field) (body : text) (ams : field) : option error :=
  match parseTags (value ams) with
  | None => Some (EText "tags do not parse"%string)
  | Some tags =>
      match missing_tag [T "a"; T "b"; T "bh"; T "d"; T "s"; T "h"] tags with
      | Some e => Some e
      | None =>
          match canonicalization (tag tags "c"%string) with
          | Err e => Some e
          | Ok (headerRelaxed, bodyRelaxed) =>
              match signed_body (tag tags "l"%string) (canonBody body bodyRelaxed) with
              | Err e => Some e
              | Ok cbody =>
                  if negb (bool_decide (std_EncodeToString (Sum256 cbody) = compact tags "bh"%string)) then
                    Some (EText "body hash does not match"%string)
                  else
                    checkSignature tags
                      (signed_headers headerRelaxed (split_byte ":"%char (compact tags "h"%string)) (map (fun f => (f, false)) (rev fields))
                       ++ trim_suffix CRLF (canonHeader (stripSignature ams) headerRelaxed))
              end
          end
      end
  end.

(** [verifySeal] of the last of the sets given. *)
Definition verifySeal (sets : list arc_set) : option error :=
  match last sets with
  | None => None
  | Some s =>
      match parseTags (value (as_ s)) with
      | None => Some (EText "tags do not parse"%string)
      | Some tags =>
          match missing_tag [T "a"; T "b"; T "d"; T "s"] tags with
          | Some e => Some e
          | None =>
              if negb (bool_decide (tag tags "h"%string = [])) then Some (EText "h= is not allowed in an arc-seal"%string)
              else checkSignature tags (sealInput sets None)
          end
      end
  end.

(** The seals must say none, pass, pass, ...: the first that does not. *)
Fixpoint cv_from (i : nat) (sets : list arc_set) : option text :=
  match sets with
  | [] => None
  | s :: sets =>
      match parseTags (value (as_ s)) with
      | None => Some ("arc-seal "%string ++ dec (Z.of_nat (S i)) ++ " does not parse"%string)
      | Some tags =>
          let want := if (i =? 0)%nat then CVNone else CVPass in
          if negb (bool_decide (to_lower (tag tags "cv"%string) = want)) then
            Some ("arc-seal "%string ++ dec (Z.of_nat (S i)) ++ " has cv="%string ++ tag tags "cv"%string ++ ", want "%string ++ want)
          else cv_from (S i) sets
      end
  end.

(** Seals [k], [k - 1], ..., 1. *)
Fixpoint seals_down (c : list arc_set) (k : nat) : option (nat * error) :=
  match k with
  | O => None
  | S k' => match verifySeal (take k c) with Some e => Some (k, e) | None => seals_down c k' end
  end.
Definition Verify (raw : text) : Result :=
  let '(fields, body) := splitMessage (normalizeLineEndings raw) in
  match collect fields with
  | Err e => Build_Result CVFail 0 (error_text e)
  | Ok c =>
      match last c with
      | None => Build_Result CVNone 0 []
      | Some newest =>
          let n := Z.of_nat (length c) in
          let fail reason := Build_Result CVFail n reason in
          if bool_decide (latestCV c = CVFail) then fail ("the chain was already marked failed at instance "%string ++ dec n)
          else match cv_from 0 c with
          | Some reason => fail reason
          | None =>
              match verifyAMS fields body (ams newest) with
              | Some e => fail ("arc-message-signature "%string ++ dec n ++ ": "%string ++ error_text e)
              | None =>
                  match seals_down c (length c) with
                  | Some (i, e) => fail ("arc-seal "%string ++ dec (Z.of_nat i) ++ ": "%string ++ error_text e)
                  | None => Build_Result CVPass n []
                  end
              end
          end
      end
  end.
End verify.

(** ** arc.go *)

Inductive seal_error := ErrUnvalidatedChain | ErrFailedChain | ErrChainTooLong.

Definition seal_error_text (e : seal_error) : text :=
  match e with
  | ErrUnvalidatedChain => "arc: the message already carries an ARC chain that was not validated"%string
  | ErrFailedChain => "arc: the message's ARC chain was already marked failed"%string
  | ErrChainTooLong => "arc: the message's ARC chain has reached its maximum length"%string
  end.

Definition DefaultSignedHeaders : list text :=
  map T ["from"; "to"; "cc"; "subject"; "date"; "message-id"; "reply-to";
         "in-reply-to"; "references"; "mime-version"; "content-type";
         "content-transfer-encoding"; "dkim-signature"]%string.

Section seal.
Context `{SignatureLib}.
Context (Domain_ Selector_ : text) (Signer : private_key) (now : Z).

Definition algorithm : text := if ed25519_public Signer then "ed25519-sha256"%string else "rsa-sha256"%string.

Definition sign (data : text) : result text :=
  match key_Sign Signer (Sum256 data) with
  | Ok sig => Ok (std_EncodeToString sig)
  | Err e => Err e
  end.

(** The signed fields, the last of a name first. *)
Definition matching (name : text) (fields : list field) : list field :=
  List.filter (fun f => equal_fold (fd_name f) name) (rev fields).

Definition signed_names (fields : list field) : list text :=
  concat (map (fun name => map (fun _ => name) (matching name fields)) DefaultSignedHeaders).

Definition header_input (fields : list field) : text :=
  concat (map (fun name => concat (map (fun f => canonHeader f true) (matching name fields))) DefaultSignedHeaders).

(** The results of the chain so far decide whether it may be extended, and as what. *)
Definition extend (c : list arc_set) (cv : text) : seal_error + text :=
  let instance := Z.of_nat (length c) + 1 in
  if MaxInstances <? instance then inl ErrChainTooLong
  else if (1 <? instance) && bool_decide (latestCV c = CVFail) then inl ErrFailedChain
  else if (1 <? instance) && negb (bool_decide (cv = CVPass)) && negb (bool_decide (cv = CVFail)) then inl ErrUnvalidatedChain
  else inr (if instance =? 1 then CVNone else cv).

Definition aar_raw (instance : Z) (authservID authResults : text) : text :=
  aarName ++ ": i="%string ++ dec instance ++ "; "%string ++ authservID ++ "; "%string ++ authResults.

Definition ams_raw (instance : Z) (bh : text) (signed : list text) : text :=
  amsName ++ ": i="%string ++ dec instance ++ "; a="%string ++ algorithm ++ "; c=relaxed/relaxed; d="%string ++ Domain_
  ++ "; s="%string ++ Selector_ ++ "; t="%string ++ dec (now / second) ++ "; bh="%string ++ bh
  ++ "; h="%string ++ join ":"%string signed ++ "; b="%string.

Definition as_raw (instance : Z) (cv : text) : text :=
  asName ++ ": i="%string ++ dec instance ++ "; a="%string ++ algorithm ++ "; cv="%string ++ cv ++ "; d="%string ++ Domain_
  ++ "; s="%string ++ Selector_ ++ "; t="%string ++ dec (now / second) ++ "; b="%string.

Definition with_signature (f : field) (sig : text) : field := Field (fd_name f) (fd_raw f ++ sig).

(** The set of the new instance, signed. *)
Definition new_set (fields : list field) (body : text) (c : list arc_set) (cv authservID authResults : text) : result arc_set :=
  let instance := Z.of_nat (length c) + 1 in
  let authservID := if bool_decide (authservID = []) then Domain_ else authservID in
  let authResults := if bool_decide (authResults = []) then T "none" else authResults in
  let aar := Field aarName (aar_raw instance authservID authResults) in
  let bh := std_EncodeToString (Sum256 (canonBody body true)) in
  let ams := Field amsName (ams_raw instance bh (signed_names fields)) in
  match sign (header_input fields ++ trim_suffix CRLF (canonHeader ams true)) with
  | Err e => Err (EWrap "arc: sign ams"%string e)
  | Ok sig =>
      let ams := with_signature ams sig in
      let seal := Field asName (as_raw instance cv) in
      match sign (sealInput c (Some (ArcSet aar ams seal))) with
      | Err e => Err (EWrap "arc: sign seal"%string e)
      | Ok sig => Ok (ArcSet aar ams (with_signature seal sig))
      end
  end.

(** What is written in front of the message as it was read. *)
Definition write_set (s : arc_set) (original : text) : text :=
  fd_raw (as_ s) ++ CRLF ++ fd_raw (ams s) ++ CRLF ++ fd_raw (aar s) ++ CRLF ++ original.

Definition Seal (original authservID authResults cv : text) : result text :=
  let '(fields, body) := splitMessage (normalizeLineEndings original) in
  match collect fields with
  | Err _ =>
      Err (EText (seal_error_text (if negb (bool_decide (cv = CVPass)) && negb (bool_decide (cv = CVFail))
                                   then ErrUnvalidatedChain else ErrFailedChain)))
  | Ok c =>
      match extend c cv with
      | inl e => Err (EText (seal_error_text e))
      | inr cv =>
          match new_set fields body c cv authservID authResults with
          | Err e => Err e
          | Ok s => Ok (write_set s original)
          end
      end
  end.
End seal.
