(* ===== verification/ArcProps.v ===== *)
(** * Theorems about chains: what [Seal] writes, [Verify] accepts

    First how a message with fields put in front of it is read, then the tag lists of the
    new fields, the fields of the new set among those of the chain, and the signed headers. *)

From S2P Require Import Prelude GoStrings Base64 Sha Times Errors Arc.
From Stdlib Require Import QArith.
Open Scope Z_scope.

(** ** Reading a message with a line put in front *)

Lemma to_crlf_line l s : no_break l -> to_crlf (l ++ CRLF ++ s) = l ++ CRLF ++ to_crlf s.
Proof.
  induction l as [|c l IH]; [done|]. intros [[Hr Hn] Hl]%no_break_cons. cbn [app to_crlf].
  rewrite !bool_decide_eq_false_2 by done. by rewrite IH.
Qed.

Lemma to_crlf_id s : no_break s -> to_crlf s = s.
Proof.
  induction s as [|c s IH]; [done|]. intros [[Hr Hn] Hl]%no_break_cons. cbn.
  rewrite !bool_decide_eq_false_2 by done. by rewrite IH.
Qed.

(** A message whose line breaks are read the same whatever stands before it. *)
Definition lines_settled (s : text) : Prop := LF ∈ s \/ CR ∉ s.

Lemma normalize_line l s : no_break l -> lines_settled s ->
  normalizeLineEndings (l ++ CRLF ++ s) = l ++ CRLF ++ normalizeLineEndings s.
Proof.
  intros Hl Hs. unfold normalizeLineEndings at 1. rewrite bool_decide_eq_true_2 by set_solver.
  rewrite to_crlf_line by done. do 2 f_equal. unfold normalizeLineEndings. case_bool_decide as Hn; [done|].
  apply to_crlf_id. split; [|done]. by destruct Hs.
Qed.

Lemma lines_settled_line l s : lines_settled (l ++ CRLF ++ s).
Proof. left. set_solver. Qed.

Lemma starts_wsp_normalize s : starts_wsp (normalizeLineEndings s) = starts_wsp s.
Proof.
  unfold normalizeLineEndings. case_bool_decide; [|done]. destruct s as [|c s]; [done|]. cbn.
  case_bool_decide as Hr; [by rewrite Hr|]. case_bool_decide as Hn; [by rewrite Hn|]. done.
Qed.

Lemma has_prefix_cons c p d s : has_prefix (c :: p) (d :: s) = bool_decide (c = d) && has_prefix p s.
Proof. cbn. case_bool_decide; done. Qed.

Lemma cut_blank_line l x : no_break l ->
  cut_blank (l ++ x) = match cut_blank x with Some (a, b) => Some (l ++ a, b) | None => None end.
Proof.
  induction l as [|c l IH]; [intros _; cbn [app]; by destruct (cut_blank x) as [[]|]|]. intros [[Hr Hn] Hl]%no_break_cons.
  cbn [app cut_blank]. change CRLF2 with (CR :: LF :: CRLF).
  rewrite has_prefix_cons, bool_decide_eq_false_2 by congruence. cbn [andb].
  rewrite IH by done. by destruct (cut_blank x) as [[]|].
Qed.

Lemma cut_blank_crlf s :
  cut_blank (CRLF ++ s) =
  if has_prefix CRLF s then Some ([], drop 2 s)
  else match cut_blank s with Some (a, b) => Some (CRLF ++ a, b) | None => None end.
Proof.
  change (CRLF ++ s) with (CR :: LF :: s). cbn [cut_blank]. change CRLF2 with (CR :: LF :: CRLF).
  rewrite !has_prefix_cons, !bool_decide_eq_true_2 by done. cbn [andb].
  destruct (has_prefix CRLF s); [done|]. rewrite (bool_decide_eq_false_2 (CR = LF)) by done. cbn [andb].
  by destruct (cut_blank s) as [[]|].
Qed.

Lemma has_prefix_line l x : no_break l -> l <> [] -> has_prefix CRLF (l ++ x) = false.
Proof.
  destruct l as [|c l]; [done|]. intros [[Hr Hn] _]%no_break_cons _. cbn [app]. change CRLF with [CR; LF].
  by rewrite has_prefix_cons, bool_decide_eq_false_2.
Qed.

Lemma split_head_line l s : no_break l -> l <> [] ->
  split_head (l ++ CRLF ++ s) = (l ++ CRLF ++ fst (split_head s), snd (split_head s)).
Proof.
  intros Hl Hne. unfold split_head at 1. rewrite has_prefix_line, cut_blank_line, cut_blank_crlf by done.
  unfold split_head. destruct (has_prefix CRLF s); [by rewrite !app_nil_r|].
  destruct (cut_blank s) as [[a b]|]; [|done]. cbn [fst snd]. by rewrite <- !app_assoc.
Qed.

Lemma split_after_line l s : no_break l -> split_after (l ++ CRLF ++ s) = (l ++ CRLF) :: split_after s.
Proof.
  induction l as [|c l IH]; [done|]. intros [[Hr Hn] Hl]%no_break_cons. cbn [app split_after].
  rewrite bool_decide_eq_false_2 by done. cbn [andb]. by rewrite IH.
Qed.

Lemma split_after_first s : exists l ls, split_after s = l :: ls /\ starts_wsp l = starts_wsp s /\ (l = [] -> s = [] /\ ls = []).
Proof.
  destruct s as [|c s]; [by exists [], []|]. cbn [split_after].
  destruct (bool_decide (c = CR) && has_prefix [LF] s) eqn:E.
  - destruct s as [|d s]; [by exists [c], []|]. by eexists _, _.
  - destruct (split_after s) as [|l ls]; by eexists _, _.
Qed.

Lemma add_line_cons x acc line : acc <> [] -> add_line (x :: acc) line = x :: add_line acc line /\ add_line acc line <> [].
Proof.
  intros Ha. unfold add_line. case_bool_decide; [by split|]. rewrite !bool_decide_eq_false_2 by done. cbn [negb]. rewrite andb_true_r.
  destruct (starts_wsp line); [|split; [done|by destruct acc]]. destruct acc as [|y acc]; [done|].
  split; [done|]. cbn. by destruct acc.
Qed.

Lemma fold_add_line x lines acc : acc <> [] -> fold_left add_line lines (x :: acc) = x :: fold_left add_line lines acc.
Proof.
  revert acc. induction lines as [|l lines IH]; intros acc Ha; [done|]. cbn.
  destruct (add_line_cons x acc l Ha) as [-> Hne]. by apply IH.
Qed.

Lemma fold_add_head l h : l <> [] -> starts_wsp h = false ->
  fold_left add_line (l :: split_after h) [] = l :: fold_left add_line (split_after h) [].
Proof.
  intros Hl Hh. destruct (split_after_first h) as (l1 & ls & -> & E & Hnil). rewrite Hh in E. cbn [fold_left].
  assert (El : add_line [] l = [l]) by (unfold add_line; by rewrite bool_decide_eq_false_2, andb_false_r by done).
  rewrite El. destruct (decide (l1 = [])) as [-> | Hne]; [by destruct (Hnil eq_refl) as [-> ->]|].
  unfold add_line at 2 4. rewrite E, !bool_decide_eq_false_2 by done. cbn. by apply fold_add_line.
Qed.

Lemma starts_wsp_head s : starts_wsp s = false -> starts_wsp (fst (split_head s)) = false.
Proof.
  intros Hs. unfold split_head. destruct (has_prefix CRLF s) eqn:Ep; [done|].
  destruct (cut_blank s) as [[a b]|] eqn:E; [|done]. destruct s as [|c s]; [done|]. cbn [cut_blank] in E.
  destruct (has_prefix CRLF2 (c :: s)); [by injection E as <- <-|].
  destruct (cut_blank s) as [[a' b']|]; [|done]. by injection E as <- <-.
Qed.

Lemma splitMessage_line l s : no_break l -> l <> [] -> starts_wsp s = false ->
  splitMessage (l ++ CRLF ++ s) = (omap field_of [l ++ CRLF] ++ fst (splitMessage s), snd (splitMessage s)).
Proof.
  intros Hl Hne Hs. unfold splitMessage. rewrite split_head_line by done.
  pose proof (starts_wsp_head s Hs) as Hh. destruct (split_head s) as [h b]. cbn [fst snd] in *.
  rewrite split_after_line, fold_add_head by (done || by destruct l). rewrite <- omap_app. done.
Qed.

(** ** Fields *)

Lemma index_byte_app c l r : c ∉ l -> index_byte c (l ++ c :: r) = Some (length l).
Proof.
  induction l as [|d l IH]; cbn; [by rewrite bool_decide_eq_true_2|]. rewrite not_elem_of_cons. intros [Hd Hl].
  rewrite bool_decide_eq_false_2 by done. by rewrite IH.
Qed.

(** A name that a field may have. *)
Definition name_ok (name : text) : bool :=
  negb (bool_decide (":"%char ∈ name)) && negb (bool_decide (name = [])) && negb (starts_wsp (rev name)).

Lemma field_of_line name v : name_ok name = true -> 
  field_of ((name ++ ":"%char :: v) ++ CRLF) = Some (Field name (name ++ ":"%char :: v)).
Proof.
  unfold name_ok. intros Hn. bools. unfold field_of. rewrite trim_suffix_app, index_byte_app by done.
  destruct (length name) as [|n] eqn:El; [by destruct name|]. do 2 f_equal.
  rewrite <- El, take_app_length. unfold trim_right. rewrite trim_left_id; [apply rev_involutive|].
  destruct (rev name); [done|]. done.
Qed.

Lemma value_field name v : name_ok name = true -> value (Field name (name ++ ":"%char :: v)) = v.
Proof.
  unfold name_ok. intros Hn. bools. unfold value. cbn [fd_raw]. rewrite index_byte_app by done.
  change (name ++ ":"%char :: v) with (name ++ [":"%char] ++ v). rewrite app_assoc, drop_app_length'; [done|].
  rewrite length_app. cbn. lia.
Qed.

(** ** Tag lists as [Seal] writes them *)

Definition kv_text (kv : text * text) : text := SP :: fst kv ++ "="%char :: snd kv.

Definition render (tags : list (text * text)) : text := join ";"%string (map kv_text tags).

Definition key_ok (k : text) : bool :=
  negb (bool_decide (k = [])) &&
  forallb (fun c => negb (bool_decide (c = "="%char)) && negb (bool_decide (c = ";"%char)) && negb (is_space c)) k.

Record value_ok (v : text) : Prop := {
  vo_semi : ";"%char ∉ v;
  vo_break : no_break v;
  vo_trimmed : trimmed v
}.

Definition tag_ok (kv : text * text) : Prop := key_ok (fst kv) = true /\ value_ok (snd kv).

Lemma key_ok_spec k : key_ok k = true -> k <> [] /\ forall c, c ∈ k -> c <> "="%char /\ c <> ";"%char /\ is_space c = false.
Proof.
  unfold key_ok. intros Hk. bools. split; [done|]. intros c Hc%list_elem_of_In.
  match goal with Hf : forallb _ _ = true |- _ => rewrite forallb_forall in Hf; specialize (Hf c Hc) end. bools. done.
Qed.

Lemma not_space_break c : is_space c = false -> c <> CR /\ c <> LF.
Proof. intros Hc. split; intros ->; discriminate Hc. Qed.

Lemma trimmed_kv k v : key_ok k = true -> trimmed v -> trimmed (k ++ "="%char :: v).
Proof.
  intros [Hne Hk]%key_ok_spec [_ Hv]. split.
  - destruct k as [|c k]; [done|]. cbn. by apply Hk, list_elem_of_here.
  - rewrite rev_app_distr. cbn [rev]. by destruct (rev v).
Qed.

Lemma trim_space_lead c s : is_space c = true -> trim_space (c :: s) = trim_space s.
Proof. intros Hc. unfold trim_space. cbn. by rewrite Hc. Qed.

Lemma trim_kv_text kv : tag_ok kv -> trim_space (kv_text kv) = fst kv ++ "="%char :: snd kv.
Proof. intros [Hk Hv]. unfold kv_text. rewrite trim_space_lead by done. by apply trim_space_id, trimmed_kv, Hv. Qed.

Lemma key_trimmed k : key_ok k = true -> trim_space k = k.
Proof. intros [_ Hk]%key_ok_spec. apply trim_space_none. intros c Hc. by apply Hk. Qed.

Lemma add_tag_kv m kv : tag_ok kv -> m !! fst kv = None -> add_tag (Some m) (kv_text kv) = Some (<[fst kv := snd kv]> m).
Proof.
  intros Hok Hm. unfold add_tag. rewrite trim_kv_text by done. destruct kv as [k v], Hok as [Hk Hv]. cbn [fst snd] in *.
  rewrite bool_decide_eq_false_2 by by destruct k.
  pose proof (key_ok_spec k Hk) as [Hne Hc].
  rewrite index_byte_app by (intros Hin; by destruct (Hc _ Hin)).
  destruct (length k) as [|n] eqn:El; [by destruct k|]. rewrite <- El, take_app_length, key_trimmed, Hm by done.
  replace (drop (S (length k)) (k ++ "="%char :: v)) with v.
  - by rewrite trim_space_id by apply Hv.
  - change (k ++ "="%char :: v) with (k ++ ["="%char] ++ v). rewrite app_assoc, drop_app_length'; [done|].
    rewrite length_app. cbn. lia.
Qed.

Definition insert_all (tags : list (text * text)) (m : tagList) : tagList :=
  fold_left (fun m kv => <[fst kv := snd kv]> m) tags m.

Lemma add_tags_render tags m :
  Forall tag_ok tags -> NoDup (map fst tags) -> (forall k, k ∈ map fst tags -> m !! k = None) ->
  fold_left add_tag (map kv_text tags) (Some m) = Some (insert_all tags m).
Proof.
  revert m. induction tags as [|kv tags IH]; intros m Hok Hnd Hm; [done|]. apply Forall_cons in Hok as [Hkv Hok].
  cbn [map] in Hnd. apply NoDup_cons in Hnd as [Hk Hnd]. cbn [map fold_left insert_all].
  rewrite add_tag_kv; [|done|apply Hm, list_elem_of_here]. apply IH; [done|done|].
  intros k Hk'. rewrite lookup_insert_ne; [by apply Hm, list_elem_of_further|]. intros E. by rewrite E in Hk.
Qed.

Lemma kv_text_parts kv : tag_ok kv -> (";"%char ∉ kv_text kv) /\ no_break (kv_text kv).
Proof.
  intros [Hk Hv]. apply key_ok_spec in Hk as [_ Hk]. unfold kv_text. split.
  - rewrite not_elem_of_cons, not_elem_of_app, not_elem_of_cons. split_and!; [done| |done|apply Hv].
    intros Hin. by destruct (Hk _ Hin) as (_ & ? & _).
  - change (SP :: fst kv ++ "="%char :: snd kv) with ([SP] ++ fst kv ++ ["="%char] ++ snd kv). no_breaks; [|apply Hv].
    split; intros Hin; by destruct (Hk _ Hin) as (_ & _ & ?).
Qed.

Lemma render_parts tags : tags <> [] -> Forall tag_ok tags -> split_byte ";"%char (render tags) = map kv_text tags.
Proof.
  intros Hne Hok. apply split_join; [by destruct tags|]. apply Forall_map. eapply Forall_impl; [exact Hok|].
  intros kv Hkv. by apply kv_text_parts.
Qed.

Lemma unfold_id s : no_break s -> unfold_ s = s.
Proof.
  intros [Hr Hn]. apply List_filter_all. intros c Hc. rewrite !bool_decide_eq_false_2; [done|..]; by intros ->.
Qed.

Lemma no_break_join sep parts : no_break sep -> Forall no_break parts -> no_break (join sep parts).
Proof.
  intros Hs Hp. induction parts as [|p parts IH]; [apply no_break_nil|]. apply Forall_cons in Hp as [H1 Hp].
  destruct parts as [|q parts]; [done|]. rewrite join_cons by done. rewrite !no_break_app. by split_and!; [| |apply IH].
Qed.

Lemma no_break_render tags : Forall tag_ok tags -> no_break (render tags).
Proof.
  intros Hok. apply no_break_join; [by apply no_break_lit|]. apply Forall_map. eapply Forall_impl; [exact Hok|].
  intros kv Hkv. by apply kv_text_parts.
Qed.

Lemma parseTags_render tags : tags <> [] -> Forall tag_ok tags -> NoDup (map fst tags) ->
  parseTags (render tags) = Some (insert_all tags ∅).
Proof.
  intros Hne Hok Hnd. unfold parseTags. rewrite unfold_id by by apply no_break_render.
  rewrite render_parts by done. by apply add_tags_render.
Qed.

Lemma trim_left_step (f : ascii -> bool) c s : f c = true -> trim_left f (c :: s) = trim_left f s.
Proof. cbn. by intros ->. Qed.

(** The value of the last tag [b] goes, and nothing else. *)
Lemma strip_part_other kv : tag_ok kv -> fst kv <> "b"%string -> strip_part (kv_text kv) = kv_text kv.
Proof.
  intros [Hk _] Hb. apply key_ok_spec in Hk as [Hne Hk]. unfold strip_part, kv_text.
  destruct kv as [[|c k] v]; [done|]. cbn [fst snd app] in *. rewrite trim_left_step by done. cbn [trim_left].
  assert (Hc : forall c, is_space c = false -> is_blank c = false).
  { clear. intros c Hc. unfold is_blank, is_wsp. rewrite !bool_decide_eq_false_2; [done|..]; intros ->; discriminate Hc. }
  rewrite (Hc c) by by apply Hk, list_elem_of_here. case_bool_decide as Ec; [|done]. subst c.
  destruct k as [|d k]; [done|]. cbn [app trim_left]. 
  destruct (Hk d) as (Hd & _ & Hs); [by apply list_elem_of_further, list_elem_of_here|].
  rewrite (Hc d Hs). by rewrite bool_decide_eq_false_2.
Qed.

Lemma strip_part_b v : strip_part (kv_text (T "b", v)) = kv_text (T "b", []).
Proof.
  change (kv_text (T "b", v)) with (SP :: "b"%char :: "="%char :: v). unfold strip_part.
  rewrite trim_left_step, trim_left_id by done. rewrite (bool_decide_eq_true_2 ("b"%char = _)), trim_left_id by done.
  rewrite bool_decide_eq_true_2 by done. replace (length _ - length v)%nat with 3%nat by (cbn; lia). done.
Qed.

Lemma stripSignature_render name tags v :
  name_ok name = true -> Forall tag_ok tags -> Forall (fun kv => fst kv <> T "b") tags -> value_ok v ->
  stripSignature (Field name (name ++ ":"%char :: render (tags ++ [(T "b", v)]))) =
  Field name (name ++ ":"%char :: render (tags ++ [(T "b", [])])).
Proof.
  intros Hname Hok Hb Hv. pose proof (value_field name (render (tags ++ [(T "b", v)])) Hname) as Hval.
  unfold value in Hval. cbn [fd_raw] in Hval. unfold stripSignature. cbn [fd_raw fd_name].
  rewrite index_byte_app in * by (unfold name_ok in Hname; by bools). rewrite Hval. f_equal.
  change (name ++ ":"%char :: ?x) with (name ++ [":"%char] ++ x). rewrite !app_assoc.
  rewrite (take_app_length' (name ++ [":"%char])) by (rewrite length_app; cbn; lia). f_equal.
  rewrite render_parts; [|by destruct tags|apply Forall_app; split; [done|repeat constructor; apply Hv]].
  unfold render. f_equal. rewrite !map_app, map_map. cbn [map]. rewrite strip_part_b. f_equal.
  apply map_ext_Forall. rewrite Forall_forall in *. intros kv Hin. apply strip_part_other; [by apply Hok|by apply Hb].
Qed.

(** ** The fields of the new set *)

(** Text without blanks or semicolons. *)
Definition plain (s : text) : bool := forallb (fun c => negb (is_space c) && negb (bool_decide (c = ";"%char))) s.

Lemma plain_elem s c : plain s = true -> c ∈ s -> is_space c = false /\ c <> ";"%char.
Proof.
  unfold plain. rewrite forallb_forall. intros Hs Hc%list_elem_of_In. specialize (Hs c Hc). bools. done.
Qed.

Lemma plain_intro s : (forall c, c ∈ s -> is_space c = false /\ c <> ";"%char) -> plain s = true.
Proof.
  intros Hs. unfold plain. rewrite forallb_forall. intros c Hc%list_elem_of_In. destruct (Hs c Hc) as [-> Hn].
  by rewrite bool_decide_eq_false_2.
Qed.

Lemma plain_value s : plain s = true -> value_ok s.
Proof.
  intros Hs. split.
  - intros Hin. by destruct (plain_elem s _ Hs Hin).
  - split; intros Hin; by destruct (plain_elem s _ Hs Hin).
  - split.
    + destruct s as [|c s]; [done|]. by apply (plain_elem _ _ Hs), list_elem_of_here.
    + destruct (rev s) as [|c r] eqn:E; [done|]. apply (plain_elem _ _ Hs). apply elem_of_rev. rewrite E. by apply list_elem_of_here.
Qed.

Lemma plain_app s t : plain (s ++ t) = plain s && plain t.
Proof. apply forallb_app. Qed.

Lemma plain_dec n : 0 <= n -> plain (dec n) = true.
Proof.
  intros Hn. apply plain_intro. intros c Hc%dec_digits; [|done]. unfold is_digit, is_space in *. bools. split.
  - rewrite !orb_false_iff, !andb_false_iff. split; [lia|right; lia].
  - intros ->. change (code ";"%char) with 59 in *. lia.
Qed.

Lemma plain_base64 s : plain (std_EncodeToString s) = true.
Proof.
  apply plain_intro. intros c Hc. unfold std_EncodeToString in Hc. apply elem_of_app in Hc as [Hc|Hc].
  - apply encode_chars in Hc as (n & Hn & Ec). rewrite Ec. apply (plain_elem std_alphabet); [by vm_compute|]. unfold sextet_char.
    destruct (nth_in_or_default (Z.to_nat n) std_alphabet "A"%char) as [Hin| ->]; [by apply list_elem_of_In|].
    apply list_elem_of_here.
  - apply elem_of_replicate in Hc as [-> _]. done.
Qed.

Lemma join_snoc sep ps p : ps <> [] -> join sep (ps ++ [p]) = join sep ps ++ sep ++ p.
Proof.
  induction ps as [|q ps IH]; [done|]. intros _. destruct ps as [|q' ps]; [done|].
  change ((q :: q' :: ps) ++ [p]) with (q :: (q' :: ps) ++ [p]). rewrite join_cons by by destruct ps.
  rewrite IH, (join_cons sep q) by done. by rewrite <- !app_assoc.
Qed.

Lemma render_signature tags sig : tags <> [] -> render (tags ++ [(T "b", [])]) ++ sig = render (tags ++ [(T "b", sig)]).
Proof.
  intros Hne. unfold render. rewrite !map_app. cbn [map]. rewrite !join_snoc by by destruct tags. rewrite <- !app_assoc. done.
Qed.

Section fields.
Context `{SmtpLib} `{SignatureLib}.
Context (Domain_ Selector_ : text) (Signer : private_key) (now : Z).

Definition ams_tags (n : Z) (bh : text) (signed : list text) : list (text * text) :=
  [(T "i", dec n); (T "a", algorithm Signer); (T "c", T "relaxed/relaxed"); (T "d", Domain_); (T "s", Selector_);
   (T "t", dec (now / second)); (T "bh", bh); (T "h", join ":"%string signed)].

Definition as_tags (n : Z) (cv : text) : list (text * text) :=
  [(T "i", dec n); (T "a", algorithm Signer); (T "cv", cv); (T "d", Domain_); (T "s", Selector_); (T "t", dec (now / second))].

Lemma ams_raw_render n bh signed :
  ams_raw Domain_ Selector_ Signer now n bh signed = amsName ++ ":"%char :: render (ams_tags n bh signed ++ [(T "b", [])]).
Proof. unfold ams_raw, render, ams_tags, kv_text. cbn. by rewrite <- ?app_assoc. Qed.

Lemma as_raw_render n cv :
  as_raw Domain_ Selector_ Signer now n cv = asName ++ ":"%char :: render (as_tags n cv ++ [(T "b", [])]).
Proof. unfold as_raw, render, as_tags, kv_text. cbn. by rewrite <- ?app_assoc. Qed.

Lemma algorithm_plain : plain (algorithm Signer) = true.
Proof. unfold algorithm. by destruct (ed25519_public Signer). Qed.

Hypothesis Hdomain : plain Domain_ = true.
Hypothesis Hselector : plain Selector_ = true.
Hypothesis Hnow : 0 <= now.

Lemma plain_tags tags : forallb (fun kv => key_ok (fst kv) && plain (snd kv)) tags = true -> Forall tag_ok tags.
Proof.
  rewrite forallb_forall, Forall_forall. intros Ht kv Hin%list_elem_of_In. specialize (Ht kv Hin). bools.
  split; [done|by apply plain_value].
Qed.

Lemma ams_tags_ok n bh signed sig : 0 <= n -> plain bh = true -> plain (join ":"%string signed) = true -> plain sig = true ->
  Forall tag_ok (ams_tags n bh signed ++ [(T "b", sig)]).
Proof.
  intros Hn Hb Hs Hg. apply plain_tags. unfold ams_tags. cbn [app forallb fst snd].
  rewrite Hdomain, Hselector, Hb, Hs, Hg, algorithm_plain, !plain_dec by (done || by apply Z.div_pos).
  done.
Qed.

Lemma as_tags_ok n cv sig : 0 <= n -> plain cv = true -> plain sig = true -> Forall tag_ok (as_tags n cv ++ [(T "b", sig)]).
Proof.
  intros Hn Hc Hg. apply plain_tags. unfold as_tags. cbn [app forallb fst snd].
  rewrite Hdomain, Hselector, Hc, Hg, algorithm_plain, !plain_dec by (done || by apply Z.div_pos).
  done.
Qed.
End fields.

(** The tags of a field are those it was rendered from. *)
Lemma parse_field name tags : name_ok name = true -> tags <> [] -> Forall tag_ok tags ->
  bool_decide (NoDup (map fst tags)) = true ->
  parseTags (value (Field name (name ++ ":"%char :: render tags))) = Some (insert_all tags ∅).
Proof. intros Hn Hne Hok Hnd. bools. rewrite value_field by done. by apply parseTags_render. Qed.

Lemma instance_tags name tags n :
  name_ok name = true -> equal_fold name aarName = false -> tags <> [] -> Forall tag_ok tags ->
  bool_decide (NoDup (map fst tags)) = true -> tag (insert_all tags ∅) (T "i") = dec n -> 1 <= n <= MaxInstances ->
  instanceOf (Field name (name ++ ":"%char :: render tags)) = Some n.
Proof.
  intros Hname Haar Hne Hok Hnd Hi Hn. unfold instanceOf, instance_text. cbn [fd_name]. rewrite Haar, parse_field by done.
  unfold MaxInstances in *. rewrite Hi, ParseInt64_dec by lia. by rewrite !(proj2 (Z.ltb_ge _ _)) by lia.
Qed.

Lemma trim_right_keep (f : ascii -> bool) a c b : f c = false -> trim_right f (a ++ c :: b) = a ++ c :: trim_right f b.
Proof.
  intros Hc. unfold trim_right. rewrite rev_app_distr. cbn [rev]. rewrite <- app_assoc.
  assert (H : forall r, trim_left f (r ++ [c] ++ rev a) = trim_left f r ++ [c] ++ rev a).
  { induction r as [|x r IH]; [by cbn; rewrite Hc|]. cbn [app trim_left]. by destruct (f x). }
  rewrite H, !rev_app_distr, rev_involutive. cbn. by rewrite <- app_assoc.
Qed.

Lemma trim_space_keep p c b : match p with d :: _ => is_space d = false | [] => False end -> is_space c = false ->
  trim_space (p ++ c :: b) = p ++ c :: trim_right is_space b.
Proof.
  intros Hp Hc. unfold trim_space. rewrite trim_left_id by by destruct p. by apply trim_right_keep.
Qed.

Lemma instance_aar n auth res : no_break auth -> no_break res -> 1 <= n <= MaxInstances ->
  instanceOf (Field aarName (aar_raw n auth res)) = Some n.
Proof.
  intros Ha Hr Hn. unfold instanceOf, instance_text. cbn [fd_name]. rewrite (eq_refl : equal_fold aarName aarName = true).
  change (aar_raw n auth res) with (aarName ++ ":"%char :: (SP :: T "i=" ++ dec n ++ ";"%char :: SP :: auth ++ T "; " ++ res)).
  assert (Hdig : forall c, c ∈ dec n -> is_space c = false /\ c <> ";"%char).
  { intros c Hc. apply (plain_elem (dec n)); [apply plain_dec; lia|done]. }
  assert (Hi : forall c, c ∈ T "i=" ++ dec n -> is_space c = false /\ c <> ";"%char).
  { intros c [Hc|Hc]%elem_of_app; [|by apply Hdig]. by apply (plain_elem (T "i=")). }
  rewrite value_field, unfold_id; [|no_breaks|done].
  2: { change (SP :: ?x ++ ?y ++ ";"%char :: SP :: ?z) with ([SP] ++ x ++ y ++ [";"%char; SP] ++ z). no_breaks.
       split; intros Hc; by destruct (Hdig _ Hc). }
  rewrite trim_space_lead, app_assoc, trim_space_keep by done.
  rewrite index_byte_app by (intros Hc; by destruct (Hi _ Hc)). rewrite take_app_length.
  rewrite trim_space_none by (intros c Hc; by apply Hi).
  change (has_prefix "i"%string (T "i=" ++ dec n)) with true. cbn [negb].
  change (index_byte "="%char (T "i=" ++ dec n)) with (Some 1%nat). cbv beta iota.
  change (take 1 (T "i=" ++ dec n)) with (T "i"). change (drop 2 (T "i=" ++ dec n)) with (dec n).
  rewrite bool_decide_eq_true_2 by done. rewrite trim_space_none by (intros c Hc; by apply Hdig).
  unfold MaxInstances in *. rewrite ParseInt64_dec by lia. by rewrite !(proj2 (Z.ltb_ge _ _)) by lia.
Qed.

(** ** The new set among the others *)

Lemma collect_error fields e : fold_left collect_field fields (Err e) = Err e.
Proof. by induction fields. Qed.

Lemma collect_field_ok m mx f m' mx' :
  collect_field (Ok (m, mx)) f = Ok (m', mx') ->
  (m' = m /\ mx' = mx /\ slot_of f = None) \/
  (exists sl n, slot_of f = Some sl /\ instanceOf f = Some n /\ mx' = Z.max mx n /\
     let s := default (Partial None None None) (m !! n) in get_slot sl s = None /\ m' = <[n := put_slot sl f s]> m).
Proof.
  unfold collect_field. destruct (slot_of f) as [sl|]; [|intros [= <- <-]; by left].
  destruct (instanceOf f) as [n|]; [|done]. destruct (get_slot sl _) eqn:Eg; [done|]. intros [= <- <-]. right. by exists sl, n.
Qed.

Lemma collect_max fields m mx m' mx' : fold_left collect_field fields (Ok (m, mx)) = Ok (m', mx') -> mx <= mx'.
Proof.
  revert m mx. induction fields as [|f fields IH]; intros m mx; [by intros [= <- <-]|]. cbn [fold_left].
  destruct (collect_field (Ok (m, mx)) f) as [[m1 mx1]|e] eqn:E; [|by rewrite collect_error].
  intros Hf%IH. apply collect_field_ok in E as [(_ & -> & _)|(sl & n & _ & _ & -> & _)]; lia.
Qed.

(** A set beyond the last instance is out of the way. *)
Lemma collect_beyond fields m mx m' mx' N s :
  fold_left collect_field fields (Ok (m, mx)) = Ok (m', mx') -> mx' < N ->
  fold_left collect_field fields (Ok (<[N := s]> m, N)) = Ok (<[N := s]> m', N).
Proof.
  revert m mx. induction fields as [|f fields IH]; intros m mx; [by intros [= <- <-]|]. cbn [fold_left].
  destruct (collect_field (Ok (m, mx)) f) as [[m1 mx1]|e] eqn:E; [|by rewrite collect_error].
  intros Hf HN. pose proof (collect_max _ _ _ _ _ Hf) as Hm1.
  enough (collect_field (Ok (<[N := s]> m, N)) f = Ok (<[N := s]> m1, N)) as -> by by eapply IH.
  apply collect_field_ok in E as [(-> & _ & Es)|(sl & n & Es & Ei & -> & Eg & ->)]; unfold collect_field; rewrite Es; [done|].
  rewrite Ei, lookup_insert_ne, Eg by lia. rewrite insert_insert_ne by lia. by rewrite Z.max_l by lia.
Qed.

Lemma sets_from_ext m m' i k : (forall j, i <= j < i + Z.of_nat k -> m !! j = m' !! j) -> sets_from m i k = sets_from m' i k.
Proof.
  revert i. induction k as [|k IH]; intros i Hm; [done|]. cbn [sets_from]. rewrite (Hm i) by lia.
  rewrite (IH (i + 1)); [done|]. intros j Hj. apply Hm. lia.
Qed.

Lemma sets_from_snoc m i k l s :
  sets_from m i k = Ok l -> complete (m !! (i + Z.of_nat k)) = Some s -> sets_from m i (S k) = Ok (l ++ [s]).
Proof.
  revert i l. induction k as [|k IH]; intros i l.
  - intros [= <-] Hs. cbn [sets_from]. rewrite Z.add_0_r in Hs. by rewrite Hs.
  - change (sets_from m i (S k)) with (match complete (m !! i) with
      | None => Err (EText ("arc set "%string ++ dec i ++ " is incomplete"%string))
      | Some s => match sets_from m (i + 1) k with Ok l => Ok (s :: l) | Err e => Err e end end).
    intros Hl Hs. cbn [sets_from] in *. destruct (complete (m !! i)) as [s0|]; [|done].
    destruct (sets_from m (i + 1) k) as [l0|] eqn:E; [|done]. injection Hl as <-.
    replace (i + Z.of_nat (S k)) with (i + 1 + Z.of_nat k) in Hs by lia. pose proof (IH _ _ E Hs) as Hn. cbn [sets_from] in Hn.
    by rewrite Hn.
Qed.

Lemma sets_from_length m i k l : sets_from m i k = Ok l -> length l = k.
Proof.
  revert i l. induction k as [|k IH]; intros i l; [by intros [= <-]|]. cbn [sets_from].
  destruct (complete _); [|done]. destruct (sets_from m (i + 1) k) eqn:E; [|done]. intros [= <-]. cbn. by rewrite (IH _ _ E).
Qed.

Lemma collect_new fields sets fas fams faar :
  let N := Z.of_nat (length sets) + 1 in
  collect fields = Ok sets ->
  slot_of fas = Some Sas -> slot_of fams = Some Sams -> slot_of faar = Some Saar ->
  instanceOf fas = Some N -> instanceOf fams = Some N -> instanceOf faar = Some N ->
  collect (fas :: fams :: faar :: fields) = Ok (sets ++ [ArcSet faar fams fas]).
Proof.
  intros N Hc S1 S2 S3 I1 I2 I3. unfold collect in *.
  destruct (fold_left collect_field fields (Ok (∅, 0))) as [[m mx]|] eqn:Ef; [|done].
  pose proof (collect_max _ _ _ _ _ Ef) as Hmx. pose proof (sets_from_length _ _ _ _ Hc) as Hl.
  assert (EN : N = mx + 1) by lia. clearbody N.
  assert (E3 : fold_left collect_field [fas; fams; faar] (Ok (∅, 0)) = Ok (<[N := Partial (Some faar) (Some fams) (Some fas)]> ∅, N)).
  { cbn [fold_left]. unfold collect_field. rewrite S1, I1. cbv iota beta zeta. rewrite lookup_empty. cbn [default id get_slot put_slot p_ams p_as p_aar].
    rewrite S2, I2. cbv iota beta zeta. rewrite lookup_insert_eq. cbn [default id get_slot put_slot p_ams p_as p_aar].
    rewrite S3, I3. cbv iota beta zeta. rewrite lookup_insert_eq. cbn [default id get_slot put_slot p_ams p_as p_aar].
    rewrite !insert_insert_eq. do 3 f_equal. lia. }
  change (fas :: fams :: faar :: fields) with ([fas; fams; faar] ++ fields). rewrite fold_left_app, E3.
  rewrite (collect_beyond _ _ _ _ _ N _ Ef) by lia. subst N. rewrite Z2Nat.inj_add by lia. rewrite Nat.add_1_r.
  apply sets_from_snoc.
  - rewrite <- Hc. apply sets_from_ext. intros j Hj. apply lookup_insert_ne. lia.
  - replace (1 + Z.of_nat (Z.to_nat mx)) with (mx + 1) by lia. by rewrite lookup_insert_eq.
Qed.

(** ** The signed headers are read back as they were signed *)

Definition pending (name : text) (st : list (field * bool)) : list field :=
  omap (fun fu => if negb (snd fu) && equal_fold (fd_name (fst fu)) name then Some (fst fu) else None) st.

Definition mark_all (name : text) (st : list (field * bool)) : list (field * bool) :=
  map (fun fu => (fst fu, snd fu || equal_fold (fd_name (fst fu)) name)) st.

Lemma take_field_pending name st f ps :
  pending name st = f :: ps ->
  exists st', take_field name st = Some (f, st') /\ pending name st' = ps /\ mark_all name st' = mark_all name st.
Proof.
  induction st as [|[g used] st IH]; [done|]. unfold pending. cbn [omap list_omap fst snd take_field].
  destruct used; cbn [negb orb andb].
  - intros Hp. destruct (IH Hp) as (st' & -> & E1 & E2). eexists. split; [done|]. split; [exact E1|].
    unfold mark_all in *. cbn [map]. by rewrite E2.
  - destruct (equal_fold (fd_name g) name) eqn:Eg; cbn [negb].
    + intros [= <- <-]. eexists. split; [done|]. split; [done|]. unfold mark_all. cbn [map fst snd]. by rewrite Eg.
    + intros Hp. destruct (IH Hp) as (st' & -> & E1 & E2). eexists. split; [done|].
      split; [|unfold mark_all in *; cbn [map]; by rewrite E2].
      cbn [omap list_omap fst snd negb andb]. rewrite Eg. exact E1.
Qed.

Lemma signed_headers_all relaxed name ps rest st :
  pending name st = ps ->
  signed_headers relaxed (map (fun _ => name) ps ++ rest) st =
  concat (map (fun f => canonHeader f relaxed) ps) ++
  match ps with [] => signed_headers relaxed rest st | _ => signed_headers relaxed rest (mark_all name st) end.
Proof.
  revert st. induction ps as [|f ps IH]; intros st Hp; [done|]. cbn [map app signed_headers].
  destruct (take_field_pending _ _ _ _ Hp) as (st' & -> & Hp' & Hm). rewrite (IH st' Hp'). cbn [concat map]. rewrite <- app_assoc.
  do 2 f_equal. destruct ps as [|g ps]; [|by rewrite Hm]. rewrite <- Hm. f_equal. unfold mark_all. symmetry.
  rewrite <- (map_id st') at 2. apply map_ext_in. intros [g u] Hin%list_elem_of_In. cbn. f_equal. destruct u; [done|]. cbn.
  destruct (equal_fold (fd_name g) name) eqn:Eg; [|done].
  assert (Hg : g ∈ pending name st').
  { unfold pending. apply list_elem_of_omap. exists (g, false). split; [done|]. cbn. by rewrite Eg. }
  rewrite Hp' in Hg. by apply elem_of_nil in Hg.
Qed.

Definition marked (names : list text) (L : list field) : list (field * bool) :=
  map (fun f => (f, existsb (equal_fold (fd_name f)) names)) L.

Lemma mark_all_marked name names L : mark_all name (marked names L) = marked (names ++ [name]) L.
Proof.
  unfold mark_all, marked. rewrite map_map. apply map_ext. intros f. cbn. f_equal. rewrite existsb_app. cbn.
  by rewrite orb_false_r.
Qed.

Lemma pending_marked name names L :
  to_lower name ∉ map to_lower names -> pending name (marked names L) = List.filter (fun f => equal_fold (fd_name f) name) L.
Proof.
  intros Hn. unfold pending, marked. induction L as [|f L IH]; [done|]. cbn [map omap list_omap fst snd List.filter].
  destruct (equal_fold (fd_name f) name) eqn:E; [|rewrite andb_false_r; exact IH].
  assert (existsb (equal_fold (fd_name f)) names = false) as ->; [|cbn; by f_equal].
  apply not_true_iff_false. rewrite existsb_exists. intros (n & Hin%list_elem_of_In & En).
  apply equal_fold_spec in E, En. apply Hn. rewrite <- E, En. by apply list_elem_of_fmap_2.
Qed.

Lemma signed_headers_marked relaxed names done_ L :
  NoDup (map to_lower (done_ ++ names)) ->
  let mt name := List.filter (fun f => equal_fold (fd_name f) name) L in
  signed_headers relaxed (concat (map (fun name => map (fun _ => name) (mt name)) names)) (marked done_ L) =
  concat (map (fun name => concat (map (fun f => canonHeader f relaxed) (mt name))) names).
Proof.
  intros Hnd mt. revert done_ Hnd. induction names as [|name names IH]; intros done_ Hnd; [done|]. cbn [map concat].
  assert (Hp : pending name (marked done_ L) = mt name).
  { apply pending_marked. rewrite map_app in Hnd. apply NoDup_app in Hnd as (_ & Hd & _). intros Hin.
    apply (Hd _ Hin). cbn. apply list_elem_of_here. }
  rewrite (signed_headers_all _ _ _ _ _ Hp). f_equal.
  assert (Hnd' : NoDup (map to_lower ((done_ ++ [name]) ++ names))) by by rewrite <- app_assoc.
  destruct (mt name) as [|f ps] eqn:Em; [|rewrite mark_all_marked; by apply IH].
  apply IH. rewrite map_app in *. cbn [map] in Hnd. apply NoDup_app in Hnd as (H1 & H2 & [_ H3]%NoDup_cons).
  apply NoDup_app. split_and!; [done| |done]. intros x Hx Hx'. apply (H2 x Hx). by apply list_elem_of_further.
Qed.

(** ** A chain with one set more *)

(** What a public key takes for a signature of the private key's kind. *)
Definition accepts `{SignatureLib} (pub : public_key) (ed : bool) (digest sig : text) : bool :=
  match pub with
  | RSAKey k => negb ed && VerifyPKCS1v15 k digest sig
  | Ed25519Key k => ed && ed25519_Verify k digest sig
  end.

Lemma compact_plain tags k v : tag tags k = v -> plain v = true -> compact tags k = v.
Proof.
  intros Hk Hv. unfold compact. rewrite Hk. apply List_filter_all. intros c Hc. destruct (plain_elem v c Hv Hc) as [Hs _].
  unfold is_blank, is_wsp. rewrite !bool_decide_eq_false_2; [done|..]; intros ->; discriminate Hs.
Qed.

Lemma cv_from_snoc i sets s tags :
  cv_from i sets = None -> parseTags (value (as_ s)) = Some tags ->
  to_lower (tag tags "cv"%string) = (if (i + length sets =? 0)%nat then CVNone else CVPass) -> cv_from i (sets ++ [s]) = None.
Proof.
  revert i. induction sets as [|s0 sets IH]; intros i Hc Hp Ht.
  - cbn [app cv_from]. rewrite Hp. rewrite Nat.add_0_r in Ht. rewrite Ht. by rewrite bool_decide_eq_true_2.
  - cbn [app cv_from] in *. destruct (parseTags (value (as_ s0))) as [t0|]; [|done].
    destruct (negb _); [done|]. apply IH; [done|done|]. by replace (S i + length sets)%nat with (i + length (s0 :: sets))%nat by (cbn; lia).
Qed.

Section sealing.
Context `{SmtpLib} `{SignatureLib}.
Context (LookupTXT : text -> result (list text)).
Context (Domain_ Selector_ : text) (Signer : private_key) (now : Z) (pub : public_key).
Hypothesis Hdomain : plain Domain_ = true.
Hypothesis Hdomain_nonempty : Domain_ <> [].
Hypothesis Hselector : plain Selector_ = true.
Hypothesis Hselector_nonempty : Selector_ <> [].
Hypothesis Hnow : 0 <= now.
Hypothesis Hpub : lookupKey LookupTXT Selector_ Domain_ = Ok pub.
Hypothesis Hsign : forall digest sig, key_Sign Signer digest = Ok sig -> sig <> [] /\ accepts pub (ed25519_public Signer) digest sig = true.

Lemma sign_plain data b : sign Signer data = Ok b -> plain b = true /\ b <> [].
Proof.
  unfold sign. destruct (key_Sign Signer (Sum256 data)) as [sig|] eqn:Es; [|done]. intros [= <-].
  split; [apply plain_base64|]. intros Hb. apply Hsign in Es as [Hne _]. apply Hne.
  assert (E : std_DecodeString (std_EncodeToString sig) = std_DecodeString (std_EncodeToString [])) by by rewrite Hb.
  rewrite !std_decode_encode in E. by injection E.
Qed.

Lemma checkSignature_signed tags input b :
  sign Signer input = Ok b -> tag tags "b"%string = b -> tag tags "s"%string = Selector_ -> tag tags "d"%string = Domain_ ->
  tag tags "a"%string = algorithm Signer -> checkSignature LookupTXT tags input = None.
Proof.
  intros Hs Hb Es Ed Ea. unfold checkSignature. rewrite (compact_plain _ _ _ Hb) by by apply (sign_plain input).
  unfold sign in Hs. destruct (key_Sign Signer (Sum256 input)) as [sig|] eqn:Ek; [|done]. injection Hs as <-.
  rewrite std_decode_encode, Es, Ed, Hpub, Ea. apply Hsign in Ek as [_ Hacc]. unfold accepts, algorithm in *.
  destruct (ed25519_public Signer); destruct pub; bools; cbn; try done.
  - rewrite bool_decide_eq_false_2, bool_decide_eq_true_2 by done. by destruct (ed25519_Verify _ _ _).
  - rewrite bool_decide_eq_true_2 by done. by destruct (VerifyPKCS1v15 _ _ _).
Qed.

Let ams_list := ams_tags Domain_ Selector_ Signer now.
Let as_list := as_tags Domain_ Selector_ Signer now.

Definition ams_field (n : Z) (bh : text) (signed : list text) (sig : text) : field :=
  Field amsName (amsName ++ ":"%char :: render (ams_list n bh signed ++ [(T "b", sig)])).

Definition as_field (n : Z) (cv sig : text) : field :=
  Field asName (asName ++ ":"%char :: render (as_list n cv ++ [(T "b", sig)])).

Lemma with_signature_ams n bh signed sig :
  with_signature (Field amsName (ams_raw Domain_ Selector_ Signer now n bh signed)) sig = ams_field n bh signed sig.
Proof.
  unfold with_signature, ams_field. cbn [fd_name fd_raw]. rewrite ams_raw_render. f_equal.
  rewrite <- app_assoc. cbn [app]. by rewrite render_signature.
Qed.

Lemma with_signature_as n cv sig :
  with_signature (Field asName (as_raw Domain_ Selector_ Signer now n cv)) sig = as_field n cv sig.
Proof.
  unfold with_signature, as_field. cbn [fd_name fd_raw]. rewrite as_raw_render. f_equal.
  rewrite <- app_assoc. cbn [app]. by rewrite render_signature.
Qed.

Lemma plain_join sep ps : plain sep = true -> Forall (fun p => plain p = true) ps -> plain (join sep ps) = true.
Proof.
  intros Hs Hp. induction ps as [|p ps IH]; [done|]. apply Forall_cons in Hp as [H1 Hp]. destruct ps as [|q ps]; [done|].
  rewrite join_cons, !plain_app, H1, Hs by done. cbn [andb]. by apply IH.
Qed.

Lemma signed_names_ok fields : Forall (fun p => plain p = true /\ (":"%char ∉ p) /\ p <> []) (signed_names fields).
Proof.
  apply Forall_forall. intros p Hp. unfold signed_names in Hp. apply list_elem_of_In, in_concat in Hp as (l & Hl & Hp).
  apply in_map_iff in Hl as (name & <- & Hname). apply in_map_iff in Hp as (f & <- & _).
  revert name Hname. apply List.Forall_forall.
  assert (Hb : forallb (fun p => plain p && (negb (bool_decide (":"%char ∈ p)) && negb (bool_decide (p = [])))) DefaultSignedHeaders = true) by by vm_compute.
  rewrite forallb_forall in Hb. apply List.Forall_forall. intros name Hname. specialize (Hb name Hname). bools. by split_and!.
Qed.

Lemma signed_names_join fields : signed_names fields <> [] -> join ":"%string (signed_names fields) <> [].
Proof.
  pose proof (signed_names_ok fields) as Hok. destruct (signed_names fields) as [|p ps]; [done|]. intros _.
  apply Forall_cons in Hok as [(_ & _ & Hp) _]. destruct ps as [|q ps]; [done|]. rewrite join_cons by done. by destruct p.
Qed.

Lemma base64_nonempty s : length s <> 0%nat -> std_EncodeToString s <> [].
Proof.
  intros Hs E. assert (Ed : std_DecodeString (std_EncodeToString s) = std_DecodeString (std_EncodeToString [])) by by rewrite E.
  rewrite !std_decode_encode in Ed. injection Ed as ->. done.
Qed.

Lemma missing_none names tags : Forall (fun t => tag tags t <> []) names -> missing_tag names tags = None.
Proof.
  intros Hn. unfold missing_tag. induction Hn as [|t names Ht _ IH]; [done|]. cbn [find].
  by rewrite bool_decide_eq_false_2.
Qed.

Lemma signed_names_plain fields : plain (join ":"%string (signed_names fields)) = true.
Proof. apply plain_join; [done|]. eapply Forall_impl; [apply signed_names_ok|]. by intros p [? _]. Qed.

Lemma parse_ams n bh signed sig : 0 <= n -> plain bh = true -> plain (join ":"%string signed) = true -> plain sig = true ->
  parseTags (value (ams_field n bh signed sig)) = Some (insert_all (ams_list n bh signed ++ [(T "b", sig)]) ∅).
Proof. intros. apply parse_field; [by vm_compute|done|by apply ams_tags_ok|by vm_compute]. Qed.

Lemma parse_as n cv sig : 0 <= n -> plain cv = true -> plain sig = true ->
  parseTags (value (as_field n cv sig)) = Some (insert_all (as_list n cv ++ [(T "b", sig)]) ∅).
Proof. intros. apply parse_field; [by vm_compute|done|by apply as_tags_ok|by vm_compute]. Qed.

Lemma strip_ams n bh signed sig : 0 <= n -> plain bh = true -> plain (join ":"%string signed) = true -> plain sig = true ->
  stripSignature (ams_field n bh signed sig) = Field amsName (ams_raw Domain_ Selector_ Signer now n bh signed).
Proof.
  intros Hn Hb Hs Hg. rewrite ams_raw_render. apply stripSignature_render; [by vm_compute| | |by apply plain_value].
  - pose proof (ams_tags_ok Domain_ Selector_ Signer now Hdomain Hselector Hnow n bh signed [] Hn Hb Hs eq_refl) as Hok.
    by apply Forall_app in Hok as [Hok _].
  - unfold ams_list, ams_tags. repeat constructor; done.
Qed.

Lemma strip_as n cv sig : 0 <= n -> plain cv = true -> plain sig = true ->
  stripSignature (as_field n cv sig) = as_field n cv [].
Proof.
  intros Hn Hc Hg. apply stripSignature_render; [by vm_compute| | |by apply plain_value].
  - pose proof (as_tags_ok Domain_ Selector_ Signer now Hdomain Hselector Hnow n cv [] Hn Hc eq_refl) as Hok.
    by apply Forall_app in Hok as [Hok _].
  - unfold as_list, as_tags. repeat constructor; done.
Qed.

Lemma signed_read relaxed fields all :
  (forall name, name ∈ DefaultSignedHeaders -> matching name all = matching name fields) -> signed_names fields <> [] ->
  signed_headers relaxed (split_byte ":"%char (join ":"%string (signed_names fields))) (map (fun f => (f, false)) (rev all)) =
  concat (map (fun name => concat (map (fun f => canonHeader f relaxed) (matching name fields))) DefaultSignedHeaders).
Proof.
  intros Hall Hne. rewrite split_join; [|done|eapply Forall_impl; [apply signed_names_ok|by intros p (_ & ? & _)]].
  pose proof (signed_headers_marked relaxed DefaultSignedHeaders [] (rev all)) as Hm. cbn zeta in Hm.
  unfold signed_names. rewrite <- (map_ext_in (fun name => map (fun _ => name) (matching name all)));
    [|intros name Hin; rewrite Hall; [done|by apply list_elem_of_In]].
  rewrite <- (map_ext_in (fun name => concat (map (fun f => canonHeader f relaxed) (matching name all))));
    [|intros name Hin; rewrite Hall; [done|by apply list_elem_of_In]].
  apply Hm. apply (bool_decide_unpack _). by vm_compute.
Qed.

Lemma verifyAMS_new n fields all body sig :
  0 <= n -> signed_names fields <> [] ->
  (forall name, name ∈ DefaultSignedHeaders -> matching name all = matching name fields) ->
  let bh := std_EncodeToString (Sum256 (canonBody body true)) in
  sign Signer (header_input fields ++ trim_suffix CRLF
    (canonHeader (Field amsName (ams_raw Domain_ Selector_ Signer now n bh (signed_names fields))) true)) = Ok sig ->
  verifyAMS LookupTXT all body (ams_field n bh (signed_names fields) sig) = None.
Proof.
  intros Hn Hne Hall bh Hs. destruct (sign_plain _ _ Hs) as [Hsig Hsig0].
  assert (Hbh : plain bh = true) by apply plain_base64. pose proof (signed_names_plain fields) as Hnames.
  unfold verifyAMS. rewrite parse_ams by done. set (tags := insert_all _ _).
  assert (Ta : tag tags "a"%string = algorithm Signer) by reflexivity.
  assert (Tb : tag tags "b"%string = sig) by reflexivity.
  assert (Th : tag tags "h"%string = join ":"%string (signed_names fields)) by reflexivity.
  assert (Tbh : tag tags "bh"%string = bh) by reflexivity.
  assert (Td : tag tags "d"%string = Domain_) by reflexivity.
  assert (Ts : tag tags "s"%string = Selector_) by reflexivity.
  assert (Tc : tag tags "c"%string = T "relaxed/relaxed") by reflexivity.
  assert (Tl : tag tags "l"%string = []) by reflexivity.
  clearbody tags. rewrite missing_none, Tc, (eq_refl : canonicalization (T "relaxed/relaxed") = Ok (true, true)), Tl.
  - unfold signed_body. rewrite bool_decide_eq_true_2 by done.
    rewrite (compact_plain tags "bh"%string bh), bool_decide_eq_true_2 by done. cbn [negb].
    rewrite (compact_plain tags "h"%string _ Th), signed_read, strip_ams by done.
    by apply checkSignature_signed with (b := sig).
  - repeat constructor; rewrite ?Ta, ?Tb, ?Tbh, ?Td, ?Ts, ?Th; try done.
    + unfold algorithm. by destruct (ed25519_public Signer).
    + apply base64_nonempty. by rewrite length_Sum256.
    + by apply signed_names_join.
Qed.

Lemma sealInput_pending sets s s' :
  aar s' = aar s -> ams s' = ams s -> stripSignature (as_ s') = stripSignature (as_ s) ->
  sealInput sets (Some s) = sealInput (sets ++ [s']) None.
Proof.
  intros Ea Em Es. unfold sealInput. rewrite app_nil_r. f_equal. rewrite !imap_app, !length_app. cbn [length imap].
  f_equal. unfold compose. rewrite Ea, Em, Es. replace (S (length sets + 0) =? length sets + 1)%nat with true; [done|].
  symmetry. apply Nat.eqb_eq. lia.
Qed.

Lemma seals_down_app c s k : (k <= length c)%nat -> seals_down LookupTXT (c ++ [s]) k = seals_down LookupTXT c k.
Proof.
  induction k as [|k IH]; intros Hk; [done|]. cbn [seals_down]. rewrite take_app_le by lia.
  destruct (verifySeal LookupTXT (take (S k) c)); [done|]. apply IH. lia.
Qed.

Lemma verifySeal_new sets n cv faar fams b :
  0 <= n -> plain cv = true ->
  sign Signer (sealInput sets (Some (ArcSet faar fams (as_field n cv [])))) = Ok b ->
  verifySeal LookupTXT (sets ++ [ArcSet faar fams (as_field n cv b)]) = None.
Proof.
  intros Hn Hcv Hs. destruct (sign_plain _ _ Hs) as [Hb Hb0].
  unfold verifySeal. rewrite last_snoc. cbn [as_]. rewrite parse_as by done. set (tags := insert_all _ _).
  assert (Ta : tag tags "a"%string = algorithm Signer) by reflexivity.
  assert (Tb : tag tags "b"%string = b) by reflexivity.
  assert (Td : tag tags "d"%string = Domain_) by reflexivity.
  assert (Ts : tag tags "s"%string = Selector_) by reflexivity.
  assert (Th : tag tags "h"%string = []) by reflexivity.
  clearbody tags. rewrite missing_none, Th, bool_decide_eq_true_2 by done || (
    repeat constructor; rewrite ?Ta, ?Tb, ?Td, ?Ts; try done; unfold algorithm; by destruct (ed25519_public Signer)).
  cbn [negb]. rewrite <- (sealInput_pending _ (ArcSet faar fams (as_field n cv []))); [|done|done|].
  - by apply checkSignature_signed with (b := b).
  - cbn [as_]. by rewrite !strip_as.
Qed.

(** The sealed message as it is read. *)
Lemma read_sealed original n cv bh signed sig b auth res :
  lines_settled original -> starts_wsp original = false -> 0 <= n -> plain cv = true -> plain bh = true ->
  plain (join ":"%string signed) = true -> plain sig = true -> plain b = true -> no_break auth -> no_break res ->
  let faar := Field aarName (aar_raw n auth res) in
  splitMessage (normalizeLineEndings (write_set (ArcSet faar (ams_field n bh signed sig) (as_field n cv b)) original)) =
  (as_field n cv b :: ams_field n bh signed sig :: faar :: fst (splitMessage (normalizeLineEndings original)),
   snd (splitMessage (normalizeLineEndings original))).
Proof.
  intros Hl Hw Hn Hcv Hbh Hsn Hsig Hb Ha Hr faar. unfold write_set. cbn [as_ ams aar].
  set (r1 := fd_raw (as_field n cv b)). set (r2 := fd_raw (ams_field n bh signed sig)). set (r3 := fd_raw faar).
  assert (B1 : no_break r1).
  { unfold r1, as_field. cbn [fd_raw]. rewrite no_break_app, no_break_cons. split_and!; [by apply no_break_lit|done|done|].
    by apply no_break_render, as_tags_ok. }
  assert (B2 : no_break r2).
  { unfold r2, ams_field. cbn [fd_raw]. rewrite no_break_app, no_break_cons. split_and!; [by apply no_break_lit|done|done|].
    by apply no_break_render, ams_tags_ok. }
  assert (B3 : no_break r3).
  { unfold r3, faar, aar_raw. cbn [fd_raw]. pose proof (plain_value _ (plain_dec n Hn)) as [_ Hd _]. no_breaks. }
  rewrite !normalize_line by (try done; by apply lines_settled_line).
  rewrite !splitMessage_line by (done || by rewrite starts_wsp_normalize). cbn [fst snd omap list_omap app].
  assert (F1 : field_of (r1 ++ CRLF) = Some (as_field n cv b)) by (apply field_of_line; by vm_compute).
  assert (F2 : field_of (r2 ++ CRLF) = Some (ams_field n bh signed sig)) by (apply field_of_line; by vm_compute).
  assert (F3 : field_of (r3 ++ CRLF) = Some faar) by (apply (field_of_line aarName); by vm_compute).
  by rewrite F1, F2, F3.
Qed.

Definition auth_text (auth : text) : text := if bool_decide (auth = []) then Domain_ else auth.
Definition results_text (res : text) : text := if bool_decide (res = []) then T "none" else res.

Lemma as_field_signed n cv b : with_signature (as_field n cv []) b = as_field n cv b.
Proof.
  unfold with_signature, as_field. cbn [fd_name fd_raw]. f_equal. rewrite <- app_assoc. cbn [app]. by rewrite render_signature.
Qed.

Lemma new_set_shape fields body c cv auth res s :
  new_set Domain_ Selector_ Signer now fields body c cv auth res = Ok s ->
  let n := Z.of_nat (length c) + 1 in
  let bh := std_EncodeToString (Sum256 (canonBody body true)) in
  let faar := Field aarName (aar_raw n (auth_text auth) (results_text res)) in
  exists sig b,
    sign Signer (header_input fields ++ trim_suffix CRLF
      (canonHeader (Field amsName (ams_raw Domain_ Selector_ Signer now n bh (signed_names fields))) true)) = Ok sig /\
    sign Signer (sealInput c (Some (ArcSet faar (ams_field n bh (signed_names fields) sig) (as_field n cv [])))) = Ok b /\
    s = ArcSet faar (ams_field n bh (signed_names fields) sig) (as_field n cv b).
Proof.
  unfold new_set. cbv zeta. fold (auth_text auth) (results_text res).
  destruct (sign Signer (header_input fields ++ _)) as [sig|e]; [|done]. rewrite with_signature_ams.
  rewrite (as_raw_render Domain_ Selector_ Signer now (Z.of_nat (length c) + 1) cv).
  change (Field asName (asName ++ ":"%char :: render (as_tags Domain_ Selector_ Signer now (Z.of_nat (length c) + 1) cv ++ [(T "b", [])])))
    with (as_field (Z.of_nat (length c) + 1) cv []).
  destruct (sign Signer (sealInput c _)) as [b|e] eqn:Eb; [|done]. intros [= <-]. exists sig, b. split_and!; [done|exact Eb|].
  by rewrite as_field_signed.
Qed.

Lemma new_set_ok fields body c cv auth res :
  (forall d, is_ok (key_Sign Signer d) = true) -> is_ok (new_set Domain_ Selector_ Signer now fields body c cv auth res) = true.
Proof.
  intros Hk. assert (Hs : forall d, is_ok (sign Signer d) = true).
  { intros d. unfold sign. specialize (Hk (Sum256 d)). by destruct (key_Sign _ _). }
  unfold new_set. cbv zeta.
  repeat match goal with
  | |- context [sign Signer ?x] => let E := fresh in destruct (sign Signer x) eqn:E; [|specialize (Hs x); by rewrite E in Hs]
  end. done.
Qed.

Definition chain_cv (cv : text) : Prop := cv = CVNone \/ cv = CVPass \/ cv = CVFail.

Lemma chain_cv_plain cv : chain_cv cv -> plain cv = true /\ to_lower cv = cv.
Proof. by intros [-> | [-> | ->]]. Qed.

(** The fields of a set are not among the signed ones. *)
Lemma matching_beyond name x y z fields : name ∈ DefaultSignedHeaders ->
  fd_name x = asName -> fd_name y = amsName -> fd_name z = aarName -> matching name (x :: y :: z :: fields) = matching name fields.
Proof.
  intros Hname Ex Ey Ez. unfold matching. cbn [rev]. rewrite !List.filter_app. cbn [List.filter]. rewrite Ex, Ey, Ez.
  assert (Hno : forallb (fun name => forallb (fun n => negb (equal_fold n name)) [asName; amsName; aarName]) DefaultSignedHeaders = true)
    by by vm_compute.
  rewrite forallb_forall in Hno. apply list_elem_of_In, Hno in Hname. cbn [forallb] in Hname. bools.
  repeat match goal with E : equal_fold _ _ = false |- _ => rewrite E; clear E end. by rewrite !app_nil_r.
Qed.

(** What the chain says of itself after a set is added. *)
Lemma Verify_write_set original c cv auth res s :
  let '(fields, body) := splitMessage (normalizeLineEndings original) in
  lines_settled original -> starts_wsp original = false -> no_break auth -> no_break res -> signed_names fields <> [] ->
  collect fields = Ok c -> Z.of_nat (length c) + 1 <= MaxInstances -> chain_cv cv ->
  new_set Domain_ Selector_ Signer now fields body c cv auth res = Ok s ->
  let n := Z.of_nat (length c) + 1 in
  let v := Verify LookupTXT (write_set s original) in
  r_Instance v = n /\
  (cv = CVFail -> r_CV v = CVFail) /\
  (cv = (if (length c =? 0)%nat then CVNone else CVPass) -> cv_from 0 c = None -> seals_down LookupTXT c (length c) = None ->
   r_CV v = CVPass).
Proof.
  destruct (splitMessage (normalizeLineEndings original)) as [fields body] eqn:Esp.
  intros Hl Hw Ha Hr Hne Hc Hmax Hcv Hnew n v. destruct (chain_cv_plain cv Hcv) as [Hcvp Hcvl].
  apply new_set_shape in Hnew as (sig & b & Es1 & Es2 & ->). fold n in Es1, Es2, v |- *.
  destruct (sign_plain _ _ Es1) as [Hsig _], (sign_plain _ _ Es2) as [Hb _].
  assert (Hn : 0 <= n) by lia. assert (Hn50 : 1 <= n <= MaxInstances) by lia.
  assert (Hauth : no_break (auth_text auth)) by (unfold auth_text; case_bool_decide; [by apply plain_value|done]).
  assert (Hres : no_break (results_text res)) by (unfold results_text; case_bool_decide; [by apply no_break_lit|done]).
  unfold v, Verify. rewrite read_sealed by (done || apply plain_base64 || apply signed_names_plain).
  rewrite Esp. cbn [fst snd]. rewrite (collect_new fields c); [|done|by vm_compute..| | |].
  2: { apply instance_tags; [by vm_compute..|done|by apply as_tags_ok|by vm_compute|reflexivity|done]. }
  2: { apply instance_tags; [by vm_compute..|done| |by vm_compute|reflexivity|done].
       apply ams_tags_ok; try done; [apply plain_base64|apply signed_names_plain]. }
  2: { by apply instance_aar. }
  rewrite last_snoc, length_app. cbn [length ams]. rewrite Nat2Z.inj_add. cbn [Z.of_nat Pos.of_succ_nat]. fold n.
  assert (Hlat : latestCV (c ++ [ArcSet (Field aarName (aar_raw n (auth_text auth) (results_text res)))
    (ams_field n (std_EncodeToString (Sum256 (canonBody body true))) (signed_names fields) sig) (as_field n cv b)]) = cv).
  { unfold latestCV. rewrite last_snoc. cbn [as_]. rewrite parse_as by done. exact Hcvl. }
  rewrite Hlat. case_bool_decide as Ef.
  { split_and!; [done|done|]. intros -> . by destruct (length c =? 0)%nat. }
  split_and!; [|by intros ->|].
  - destruct (cv_from _ _); [done|]. destruct (verifyAMS _ _ _ _); [done|]. by destruct (seals_down _ _ _) as [[]|].
  - intros Ecv Hfrom Hdown. rewrite (cv_from_snoc 0 c _ (insert_all (as_list n cv ++ [(T "b", b)]) ∅)); [|done|by apply parse_as|].
    2: { cbn [Nat.add]. rewrite <- Ecv. exact Hcvl. }
    rewrite verifyAMS_new; [|done|done| |done].
    2: { intros name Hname. by apply matching_beyond. }
    rewrite Nat.add_1_r. cbn [seals_down]. rewrite take_ge by (rewrite length_app; cbn; lia).
    rewrite verifySeal_new by done. by rewrite seals_down_app, Hdown by lia.
Qed.
End sealing.

(** A sealer whose key is published, and a signing operation whose signatures that key takes. *)
Record sealer_ok `{SignatureLib} (LookupTXT : text -> result (list text)) (Domain_ Selector_ : text) (Signer : private_key) (now : Z) : Prop := {
  so_domain : plain Domain_ = true /\ Domain_ <> [];
  so_selector : plain Selector_ = true /\ Selector_ <> [];
  so_now : 0 <= now;
  so_key : exists pub, lookupKey LookupTXT Selector_ Domain_ = Ok pub /\
    forall digest sig, key_Sign Signer digest = Ok sig -> sig <> [] /\ accepts pub (ed25519_public Signer) digest sig = true
}.

(** What [Verify] found, when the chain could be collected. *)
Lemma Verify_found `{SmtpLib} `{SignatureLib} LookupTXT original c :
  collect (fst (splitMessage (normalizeLineEndings original))) = Ok c ->
  let v := Verify LookupTXT original in
  r_Instance v = Z.of_nat (length c) /\
  (c = [] /\ r_CV v = CVNone \/ c <> [] /\ r_CV v = CVFail \/
   c <> [] /\ r_CV v = CVPass /\ latestCV c <> CVFail /\ cv_from 0 c = None /\ seals_down LookupTXT c (length c) = None).
Proof.
  intros Hc v. subst v. unfold Verify. destruct (splitMessage _) as [fields body]. cbn [fst] in Hc. rewrite Hc.
  destruct (last c) as [newest|] eqn:El.
  - assert (Hne : c <> []) by by intros ->. case_bool_decide; [split; [done|right; left; by split]|].
    destruct (cv_from 0 c) eqn:Ef; [split; [done|right; left; by split]|]. destruct (verifyAMS _ _ _ _); [split; [done|right; left; by split]|].
    destruct (seals_down _ _ _) as [[i e]|] eqn:Ed; [split; [done|right; left; by split]|]. split; [done|]. by right; right.
  - apply last_None in El as ->. by split; [|left].
Qed.

Lemma extend_spec c cv cv' : extend c cv = inr cv' ->
  Z.of_nat (length c) + 1 <= MaxInstances /\ cv' = if (length c =? 0)%nat then CVNone else cv.
Proof.
  unfold extend. destruct (Z.ltb_spec MaxInstances (Z.of_nat (length c) + 1)); [done|]. destruct (_ && _); [done|].
  destruct (_ && _); [done|]. intros [= <-]. split; [done|]. destruct c; [done|].
  by rewrite (proj2 (Z.eqb_neq _ 1)) by (cbn [length]; lia).
Qed.

Lemma extend_ok c cv : Z.of_nat (length c) < MaxInstances -> latestCV c <> CVFail \/ c = [] ->
  cv = CVPass \/ c = [] -> exists cv', extend c cv = inr cv'.
Proof.
  intros Hn Hl Hcv. unfold extend. rewrite (proj2 (Z.ltb_ge _ _)) by lia.
  destruct c as [|s c]; [by eexists|]. destruct Hl as [Hl|]; [|done]. destruct Hcv as [-> |]; [|done].
  rewrite (bool_decide_eq_false_2 _ Hl), andb_false_r, (bool_decide_eq_true_2 (CVPass = CVPass)), andb_false_r by done. by eexists.
Qed.

(** C16: a chain that is extended stays verifiable.  A message whose own chain was verified, sealed
    with what was found, verifies at the receiver with one instance more: passing when there
    was no chain or it passed, failed when it had failed; and sealing is refused only when the
    chain failed or is full, or the key does not sign.  This asks of the message that it has
    a header that is signed, does not begin with a continuation line and has no lone carriage
    returns, and of the texts put in that they have no line breaks. *)
Theorem seal_verifies `{SmtpLib} `{SignatureLib} LookupTXT Domain_ Selector_ Signer now original auth res :
  sealer_ok LookupTXT Domain_ Selector_ Signer now -> no_break auth -> no_break res ->
  lines_settled original -> starts_wsp original = false ->
  signed_names (fst (splitMessage (normalizeLineEndings original))) <> [] ->
  let v := Verify LookupTXT original in
  let sealed := Seal Domain_ Selector_ Signer now original auth res (r_CV v) in
  (forall out, sealed = Ok out ->
     r_Instance (Verify LookupTXT out) = r_Instance v + 1 /\
     r_CV (Verify LookupTXT out) = if bool_decide (r_CV v = CVFail) then CVFail else CVPass) /\
  (r_CV v <> CVFail -> r_Instance v < MaxInstances -> (forall d, is_ok (key_Sign Signer d) = true) -> is_ok sealed = true).
Proof.
  intros [[Hd Hd0] [Hs Hs0] Hnow (pub & Hpub & Hsign)] Ha Hr Hl Hw Hne v.
  pose proof (Verify_write_set LookupTXT Domain_ Selector_ Signer now pub Hd Hd0 Hs Hs0 Hnow Hpub Hsign original) as Hnew.
  assert (Hfound : forall c, collect (fst (splitMessage (normalizeLineEndings original))) = Ok c -> _) by exact (Verify_found LookupTXT original).
  fold v in Hfound. assert (Herr : forall e, collect (fst (splitMessage (normalizeLineEndings original))) = Err e -> r_CV v = CVFail).
  { unfold v, Verify. destruct (splitMessage _). cbn [fst]. by intros e ->. }
  clearbody v. unfold Seal. destruct (splitMessage (normalizeLineEndings original)) as [fields body]. cbn [fst] in *.
  destruct (collect fields) as [c|e]; [|by split; [|rewrite (Herr e eq_refl)]]. clear Herr.
  destruct (Hfound c eq_refl) as [Hi Hcases]. split.
  - intros out. destruct (extend c (r_CV v)) as [|cv] eqn:Ex; [done|].
    destruct (new_set _ _ _ _ _ _ _ _ _ _) as [s|] eqn:En; [|done]. intros [= <-]. apply extend_spec in Ex as [Hmax Ecv].
    assert (Hchain : chain_cv cv) by (rewrite Ecv; destruct Hcases as [[-> _]|[[Hn ->]|(_ & -> & _)]]; unfold chain_cv; [tauto|..];
      destruct (length c =? 0)%nat; tauto).
    destruct (Hnew c cv auth res s Hl Hw Ha Hr Hne eq_refl Hmax Hchain En) as (Hi' & Hfail & Hpass). split; [lia|].
    destruct Hcases as [[-> Hv]|[[Hn Hv]|(Hn & Hv & _ & Hf & Hdn)]]; rewrite Hv in *; cbn.
    + by apply Hpass.
    + apply Hfail. rewrite Ecv. by destruct c.
    + apply Hpass; [rewrite Ecv; by destruct c|done|done].
  - intros Hv Hn Hk. destruct (extend_ok c (r_CV v)) as [cv ->]; [lia|naive_solver|naive_solver|].
    pose proof (new_set_ok Domain_ Selector_ Signer now fields body c cv auth res Hk) as Hok.
    by destruct (new_set _ _ _ _ _ _ _ _ _ _).
Qed.

(** A signature that is the digest after a blank, published as an ed25519 key. *)
#[local] Instance plain_signatures : SignatureLib := {|
  rsa_key := unit; ParsePKIXPublicKey := fun _ => None; ParsePKCS1PublicKey := fun _ => None; BitLen := fun _ => 2048;
  VerifyPKCS1v15 := fun _ _ _ => false; ed25519_Verify := fun _ digest sig => bool_decide (sig = SP :: digest);
  private_key := unit; ed25519_public := fun _ => true; key_Sign := fun _ digest => Ok (SP :: digest)
|}.

#[local] Instance plain_smtp : SmtpLib :=
  let reply := SMTPError 535 (Enh 5 7 8) [] in
  {| smtp_error_text := fun r => Message r; ErrAuthRequired := reply; ErrAuthFailed := reply; ErrAuthUnsupported := reply |}.

Definition sample_txt (name : text) : result (list text) :=
  if bool_decide (name = "s1._domainkey.mx.example"%string) then
    Ok [T "v=DKIM1; k=ed25519; p=AAAAAAAAAAAAAAAAAAAAAAAAAAAAAAAAAAAAAAAAAAA="]
  else Err (EDNS true "no such host"%string).

Definition sample_mail : text := T "From: a@example.com" ++ CRLF ++ T "Subject: hi" ++ CRLF ++ CRLF ++ T "Hello" ++ CRLF.

Lemma seal_verifies_witness :
  exists out, Seal (H := plain_signatures) (T "mx.example") (T "s1") tt second sample_mail [] (T "spf=pass") (r_CV (Verify sample_txt sample_mail)) = Ok out /\
    r_Instance (Verify sample_txt out) = 1 /\ r_CV (Verify sample_txt out) = CVPass.
Proof.
  assert (Hv : r_CV (Verify sample_txt sample_mail) = CVNone /\ r_Instance (Verify sample_txt sample_mail) = 0) by (vm_compute; done).
  destruct Hv as [Hcv Hi].
  destruct (seal_verifies (H := plain_smtp) (H0 := plain_signatures) sample_txt (T "mx.example") (T "s1") tt second sample_mail [] (T "spf=pass")) as [Hs Hok].
  - split; [done..|]. exists (Ed25519Key (replicate 32 "000"%char)). split; [vm_compute; reflexivity|].
    intros digest sig. cbn. intros [= <-]. split; [done|]. by apply bool_decide_eq_true_2.
  - apply no_break_nil.
  - by apply no_break_lit.
  - left. apply (bool_decide_unpack _). vm_compute. exact I.
  - done.
  - vm_compute. discriminate.
  - destruct (Seal (H := plain_signatures) (T "mx.example") (T "s1") tt second sample_mail [] (T "spf=pass") (r_CV (Verify sample_txt sample_mail))) as [out|e] eqn:E.
    + exists out. split; [done|]. destruct (Hs out eq_refl) as [H1 H2]. rewrite Hi, Hcv in *. split; [done|]. by rewrite H2.
    + enough (is_ok (Err e : result text) = true) by done. apply Hok; [by rewrite Hcv|by rewrite Hi|done].
Defined.
