(* ===== verification/Outbound.v ===== *)
(** * Handing a message to a peer (internal/sender/outbound.go)

    One SMTP transaction ([transmit]), the choice of hosts ([lookupMX]), and the ways
    out: the relay, and straight to the recipients' exchangers. *)

From S2P Require Import Arc.
From S2P Require Import Prelude GoStrings Times Net Errors StoreTypes StoreQueue StoreDomains.
From S2P Require Import Filter Routes Spam World.
From Stdlib Require Import QArith.
Open Scope Z_scope.

Record recipientFailure := RF { rf_rcpt : text; rf_err : error }.

Record recipients := Recipients {
  accepted : list text;
  deferred : list recipientFailure;
  rejected : list recipientFailure
}.

Definition no_recipients : recipients := Recipients [] [] [].

Definition addresses (failures : list recipientFailure) : list text := map rf_rcpt failures.

Definition errMailFrom : error := ESentinel ErrMailFrom "MAIL FROM"%string.

Definition refusedNullSender (e : error) : bool := is_sentinel ErrMailFrom e && permanent e.

(** ** [transmit] *)

(** The loop over [m.EnvelopeTo]: an error without a reply ends the transaction. *)
Fixpoint rcpt_loop (rcpts : list text) (res : recipients) : M (result recipients) :=
  match rcpts with
  | [] => ret (Ok res)
  | rcpt :: rest =>
      let* e := command (CRcpt rcpt) in
      let wrap err := EWrap ("RCPT TO "%string ++ rcpt) err in
      match e with
      | None => rcpt_loop rest (Recipients (accepted res ++ [rcpt]) (deferred res) (rejected res))
      | Some err =>
          if permanent err then
            rcpt_loop rest (Recipients (accepted res) (deferred res) (rejected res ++ [RF rcpt (wrap err)]))
          else match as_smtp err with
          | Some _ => rcpt_loop rest (Recipients (accepted res) (deferred res ++ [RF rcpt (wrap err)]) (rejected res))
          | None => ret (Err (wrap err))
          end
      end
  end.

(** [io.Copy(w, body)]. *)
Fixpoint copy_body (body : reader) : M (option error) :=
  match body with
  | [] => ret None
  | inr e :: _ => ret (Some e)
  | inl bytes :: rest =>
      let* e := command (CWrite bytes) in
      match e with Some e => ret (Some e) | None => copy_body rest end
  end.

Definition write_headers (extraHeaders : text) : M (option error) :=
  if bool_decide (extraHeaders = []) then ret None else command (CWrite extraHeaders).

(** From DATA on; a write that fails closes the stream, which ends the message. *)
Definition send_data (body : reader) (extraHeaders : text) : M (option error) :=
  let* e := command CData in
  match e with
  | Some e => ret (Some (EWrap "DATA"%string e))
  | None =>
      let* e := write_headers extraHeaders in
      match e with
      | Some e => command CClose ;;; ret (Some (EWrap "write headers"%string e))
      | None =>
          let* e := copy_body body in
          match e with
          | Some e => command CClose ;;; ret (Some (EWrap "write body"%string e))
          | None =>
              let* e := command CClose in
              match e with
              | Some e => ret (Some (EWrap "finish DATA"%string e))
              | None => command CQuit ;;; ret None
              end
          end
      end
  end.

Definition transmit (from : text) (to : list text) (body : reader) (extraHeaders : text) : M (result recipients) :=
  let* e := command (CMail from) in
  match e with
  | Some e => ret (Err (EBoth errMailFrom e))
  | None =>
      let* r := rcpt_loop to no_recipients in
      match r with
      | Err e => ret (Err e)
      | Ok res =>
          if bool_decide (accepted res = []) then command CQuit ;;; ret (Ok res)
          else
            let* e := send_data body extraHeaders in
            ret match e with Some e => Err e | None => Ok res end
      end
  end.

(** ** [lookupMX] *)

Record mx_record := MX { mx_Host : text; mx_Pref : Z }.

(** [net.Resolver], as far as the sender uses it: [LookupMX] may return records and an
    error together. *)
Class Resolver := {
  LookupMX : text -> list mx_record * option error;
  LookupHost : text -> option error
}.

Definition notFound (e : error) : bool := match as_dns e with Some b => b | None => false end.

Definition pref_le (a b : mx_record) : Prop := mx_Pref a <= mx_Pref b.
#[export] Instance pref_le_dec : RelDecision pref_le.
Proof. intros a b. unfold pref_le. apply _. Defined.

Definition no_mail (domain : text) : smtp_error :=
  SMTPError 550 (Enh 5 1 2) (domain ++ " has no MX and no address, it cannot receive mail"%string).

Definition null_mx (domain : text) : smtp_error :=
  SMTPError 556 (Enh 5 1 10) (domain ++ " publishes a null MX and accepts no mail"%string).

Fixpoint mx_hosts (domain : text) (records : list mx_record) : result (list text) :=
  match records with
  | [] => Ok []
  | r :: rest =>
      let host := trim_suffix "."%string (mx_Host r) in
      if bool_decide (host = []) then Err (ESMTP (null_mx domain))
      else match mx_hosts domain rest with Ok hs => Ok (host :: hs) | Err e => Err e end
  end.

(** Without an exchanger the domain itself is tried, when it has an address. *)
Definition no_records `{Resolver} (domain : text) : result (list text) :=
  match LookupHost domain with
  | None => Ok [domain]
  | Some a => if notFound a then Err (ESMTP (no_mail domain)) else Err a
  end.

(** [sort.SliceStable] by preference: a merge sort is stable. *)
Definition lookupMX `{Resolver} (domain : text) : result (list text) :=
  let '(records, err) := LookupMX domain in
  match (match err with Some e => if notFound e then None else Some e | None => None end) with
  | Some e => Err e
  | None =>
      match records with
      | [] => no_records domain
      | _ => mx_hosts domain (merge_sort pref_le records)
      end
  end.

(** ** Configuration (internal/config) *)

Record QueueConfig := {
  MaxMessages : Z;
  MaxBytes : Z;
  Retention : Z;
  Workers : nat;
  RetryBase : Z;
  RetryMax : Z;
  DeliveryTimeout : Z;
  Bounces : text;
  AllowPrivateDestinations : bool
}.

Definition BouncesAuthenticated : text := "authenticated"%string.

Record OutboundConfig := {
  oc_Enabled : bool;
  oc_Mode : text;
  oc_RelayHost : text;
  oc_RelayPort : Z;
  oc_RelayTLS : text;
  oc_RelayUsername : text;
  oc_RelayPassword : text
}.

(** Signing and unsealing: RSA, ed25519 and AES-GCM of Go's [crypto], and go-msgauth. *)
Class Crypto := {
  Unseal : text -> result text;
  signer : Type;
  NewSigner : text -> text -> text -> result signer;      (* domain, selector, pem *)
  Sign : signer -> reader -> result text;
  crypto_signatures :: SignatureLib;
  ParsePrivate : text -> result private_key
}.

Section outbound.
Context `{SmtpLib} `{Resolver} `{Crypto}.
Context (cfg : QueueConfig) (outbound : OutboundConfig).
Context (hostname : text) (os_hostname : option text).
Context (directAddr : text -> text * Z).          (* (host, 25) outside the tests *)

Definition heloName : text :=
  if negb (bool_decide (hostname = [])) then hostname
  else match os_hostname with
       | Some h => if bool_decide (h = []) then "xeronmx.local"%string else h
       | None => "xeronmx.local"%string
       end.

Definition spamHeaders (m : message) : text := Headers (SpamAction m) (SpamScore m).

Definition destinationPolicy : bool := negb (AllowPrivateDestinations cfg).

(** ** [signed]: DKIM, when the domain has a usable key *)

Definition signed (m : message) (body : reader) : M (result reader) :=
  let* key := query (fun s => DKIMKeyFor (DomainID m) (s_dkim s)) in
  match key with
  | Err _ => ret (Ok body)
  | Ok key =>
      if negb (KEnabled key) then ret (Ok body)
      else
        let* d := query (fun s => DomainByID (DomainID m) (dt_domains (s_domains s))) in
        ret match d with
            | Err _ => Ok body
            | Ok d =>
                match Unseal (PrivateKey key) with
                | Err _ => Ok body
                | Ok pem =>
                    match NewSigner (DName d) (Selector key) pem with
                    | Err _ => Ok body
                    | Ok sg =>
                        match Sign sg body with
                        | Err e => Err (EWrap "dkim: signing failed and the body has been consumed"%string e)
                        | Ok out => Ok (of_text out)
                        end
                    end
                end
            end
  end.

(** ** [routeFor] *)

Definition routeFor (m : message) : M (text * option Route) :=
  match EnvelopeTo m with
  | [] => ret (oc_Mode outbound, None)
  | rcpt :: _ =>
      match last_index "@"%char rcpt with
      | None => ret (oc_Mode outbound, None)
      | Some at_ =>
          let* r := query (fun s => RouteFor (drop (S at_) rcpt) (s_routes s)) in
          ret match r with
              | Err _ => (oc_Mode outbound, None)
              | Ok r => (Mode r, Some r)
              end
      end
  end.

(** ** [sendViaRelay] *)

Definition BounceSender (host : text) : text := "MAILER-DAEMON@"%string ++ host.

(** Host, port, TLS mode and credentials of the relay to use. *)
Definition relay_target (override : option Route) : result (text * Z * text * text * text) :=
  let default_ := (oc_RelayHost outbound, oc_RelayPort outbound, oc_RelayTLS outbound,
                   oc_RelayUsername outbound, oc_RelayPassword outbound) in
  match override with
  | Some r =>
      if bool_decide (RelayHost r = []) then Ok default_
      else if (0 <? length (RelayPassword r))%nat then
        match Unseal (RelayPassword r) with
        | Err e => Err (EWrap ("route "%string ++ Destination r ++ ": stored relay password unreadable"%string) e)
        | Ok clear => Ok (RelayHost r, RelayPort r, RelayTLS r, RelayUsername r, clear)
        end
      else Ok (RelayHost r, RelayPort r, RelayTLS r, RelayUsername r, [])
  | None => Ok default_
  end.

(** Authentication, when a user name is configured. *)
Definition relay_auth (host username password : text) : M (option error) :=
  if bool_decide (username = []) then ret None
  else
    let* e := command (CExtension "AUTH"%string) in
    match e with
    | Some _ => ret (Some (EText ("relay "%string ++ host ++ " does not offer AUTH but credentials are configured"%string)))
    | None =>
        let* e := command (CAuth username password) in
        ret match e with
            | Some e => Some (EText ("relay "%string ++ host ++ " refused the configured credentials: "%string ++ error_text e))
            | None => None
            end
    end.

Definition sendViaRelay (m : message) (body : reader) (override : option Route) : M (result recipients) :=
  match relay_target override with
  | Err e => ret (Err e)
  | Ok (host, port, mode, username, password) =>
      let* c := dial host port mode heloName false in
      match c with
      | Err e => ret (Err e)
      | Ok _ =>
          let* e := relay_auth host username password in
          match e with
          | Some e => ret (Err e)
          | None =>
              let* res := transmit (EnvelopeFrom m) (EnvelopeTo m) body (spamHeaders m) in
              match res with
              | Err e =>
                  if bool_decide (EnvelopeFrom m = []) && refusedNullSender e then
                    let* rerr := command CReset in
                    match rerr with
                    | Some _ => ret (Err e)
                    | None => transmit (BounceSender heloName) (EnvelopeTo m) body (spamHeaders m)
                    end
                  else ret (Err e)
              | Ok res => ret (Ok res)
              end
          end
      end
  end.

(** ** [sendDirect] *)

(** The loop over the hosts of one domain: a failed connection tries the next host, a
    failed transaction does not. *)
Fixpoint try_hosts (m : message) (domain : text) (rcpts : list text) (raw : text) (lastErr : option error)
  (hosts : list text) : M (result recipients) :=
  match hosts with
  | [] => ret (Err (match lastErr with
                    | Some e => e
                    | None => EText ("no MX host for "%string ++ domain ++ " accepted the message"%string)
                    end))
  | host :: rest =>
      let '(addr, port) := directAddr host in
      let* c := dial addr port "opportunistic"%string heloName destinationPolicy in
      match c with
      | Err e => try_hosts m domain rcpts raw (Some e) rest
      | Ok _ => transmit (EnvelopeFrom m) rcpts (of_text raw) (spamHeaders m)
      end
  end.

Definition directTo (m : message) (domain : text) (rcpts : list text) (raw : text) : M (result recipients) :=
  match lookupMX domain with
  | Err e => ret (Err (EWrap ("MX lookup for "%string ++ domain) e))
  | Ok hosts => try_hosts m domain rcpts raw None hosts
  end.

Definition malformed (rcpt : text) : recipientFailure :=
  RF rcpt (ESMTP (SMTPError 550 (Enh 5 1 3) ("malformed recipient "%string ++ rcpt))).

(** The domain of a recipient; [None] for a malformed one. *)
Definition rcpt_domain (rcpt : text) : option text :=
  match last_index "@"%char rcpt with
  | None => None
  | Some at_ => if (S at_ =? length rcpt)%nat then None else Some (to_lower (drop (S at_) rcpt))
  end.

(** [byDomain] and [domains]: the recipients by domain, in order of first appearance. *)
Fixpoint add_rcpt (d rcpt : text) (groups : list (text * list text)) : list (text * list text) :=
  match groups with
  | [] => [(d, [rcpt])]
  | (d', rcpts) :: rest => if bool_decide (d = d') then (d', rcpts ++ [rcpt]) :: rest else (d', rcpts) :: add_rcpt d rcpt rest
  end.

Fixpoint group_rcpts (rcpts : list text) (bad : list recipientFailure) (groups : list (text * list text))
  : list recipientFailure * list (text * list text) :=
  match rcpts with
  | [] => (bad, groups)
  | rcpt :: rest =>
      match rcpt_domain rcpt with
      | None => group_rcpts rest (bad ++ [malformed rcpt]) groups
      | Some d => group_rcpts rest bad (add_rcpt d rcpt groups)
      end
  end.

(** The loop over the domains: it stops when the attempt's time is up after a failure. *)
Fixpoint direct_loop (m : message) (raw : text) (all : recipients) (groups : list (text * list text)) : M recipients :=
  match groups with
  | [] => ret all
  | (domain, rcpts) :: rest =>
      let* r := directTo m domain rcpts raw in
      match r with
      | Ok res =>
          direct_loop m raw (Recipients (accepted all ++ accepted res) (deferred all ++ deferred res)
                               (rejected all ++ rejected res)) rest
      | Err err =>
          let failed := map (fun rcpt => RF rcpt err) rcpts in
          let all' := if permanent err then Recipients (accepted all) (deferred all) (rejected all ++ failed)
                      else Recipients (accepted all) (deferred all ++ failed) (rejected all) in
          let* done := ctx_done in
          if done then ret all' else direct_loop m raw all' rest
      end
  end.

Definition sendDirect (m : message) (body : reader) : M (result recipients) :=
  match ReadAll body with
  | (_, Some e, _) => ret (Err (EWrap "read message"%string e))
  | (raw, None, _) =>
      let '(bad, groups) := group_rcpts (EnvelopeTo m) [] [] in
      let* all := direct_loop m raw (Recipients [] [] bad) groups in
      ret (Ok all)
  end.

(** ** [sendOutbound] *)

Definition sendOutbound (m : message) (body : reader) : M (result recipients) :=
  let* b := signed m body in
  match b with
  | Err e => ret (Err e)
  | Ok body =>
      let* r := routeFor m in
      let '(mode, route) := if oc_Enabled outbound then r else (T "direct", None) in
      if bool_decide (mode = "relay"%string) then sendViaRelay m body route
      else if bool_decide (mode = "direct"%string) then sendDirect m body
      else ret (Err (EText ("outbound: unknown mode "%string ++ quote mode)))
  end.
End outbound.
