(* ===== verification/Wiring.v ===== *)
(** * How the process is put together (cmd/xeronmx/main.go), and what accepted settings give its parts

    The settings each component is made with, as [run] hands them over, and the theorem that the
    hypotheses the components need of them hold of every configuration that loads. *)

From S2P Require Import Prelude GoStrings Times Errors Net Netlimit StoreTypes StoreQueue Backoff StoreDomains Config.
From S2P Require Import SmtpClient Dnsbl Clamav Spam StoreCluster StoreUsers Alert Health Webhook Cluster Account Pages Outbound World.
From Stdlib Require Import QArith.
Open Scope Z_scope.

Section wiring.
Context (hostname : result text) (c : Config).


Definition outbound_settings : Outbound.OutboundConfig :=
  let o := cfg_Outbound c in
  {| oc_Enabled := Outbound_Enabled o; oc_Mode := Outbound_Mode o; oc_RelayHost := Outbound_RelayHost o;
     oc_RelayPort := Outbound_RelayPort o; oc_RelayTLS := Outbound_RelayTLS o; oc_RelayUsername := Outbound_RelayUsername o;
     oc_RelayPassword := Outbound_RelayPassword o |}.







Definition page_settings : Pages.PagesConfig :=
  {| pg_hostname := SMTP_Hostname (cfg_SMTP c); pg_retention := Queue_Retention (cfg_Queue c);
     pg_allowPrivate := Queue_AllowPrivateDestinations (cfg_Queue c) |}.




(** ** What the components rely on *)





Lemma empty_true {A} (l : list A) : empty l = true <-> l = [].
Proof. by destruct l. Qed.



End wiring.



Section accepted.
Context (hostname : result text) (c : Config).













End accepted.


(** ** What is not checked *)

(** An environment without a file. *)
Definition from_env (vars : list (text * text)) : ConfigLib := {|
  os_ReadFile := fun _ => FileMissing;
  os_LookupEnv := fun k => snd <$> find (fun kv => bool_decide (fst kv = k)) vars;
  os_Hostname := Ok (T "mx2");
  yaml_Unmarshal := fun _ c => (None, c) |}.

(** The defaults load. *)
Example defaults_load : fst (Load (H := from_env []) "/etc/xeronmx.yaml"%string) = None.
Proof. vm_compute. reflexivity. Qed.

(** A network on which everything works. *)
Definition open_network : network :=
  {| n_resolve := fun _ host _ => [T "192.0.2.1:587"]; n_answer := fun _ _ => None; n_ctx := fun _ => None |}.

(** The TLS mode of the relay is not validated, and a mode that is not known means no TLS: with the mode
    misspelt the session, and the password of the relay with it, is in the clear. *)
Example relay_tls_unchecked :
  let '(e, c) := Load (H := from_env [(T "XERONMX_OUTBOUND_ENABLED", T "true"); (T "XERONMX_OUTBOUND_RELAY_HOST", T "relay.example");
                                      (T "XERONMX_OUTBOUND_RELAY_TLS", T "STARTTLS")]) [] in
  let o := outbound_settings c in
  let relay := Domain 0 (oc_RelayHost o) (oc_RelayHost o) (oc_RelayPort o) (oc_RelayTLS o) None None 0 true 0 0 in
  let '(r, h) := Dial open_network false relay "mx2.example"%string [] in
  e = None /\ oc_Enabled o = true /\ r = Ok tt /\ channel_of h = Plain.
Proof. vm_compute. split_and!; reflexivity. Qed.

(** Nor is the interval of the health checks, with which a ticker is made that panics unless it is positive. *)
Example health_interval_unchecked :
  let '(e, c) := Load (H := from_env [(T "XERONMX_HEALTH_INTERVAL", T "0s")]) [] in
  e = None /\ Health_Interval (cfg_Health c) = 0.
Proof. vm_compute. split; reflexivity. Qed.

(** ** Witness *)

#[local] Instance sample_config_env : ConfigLib :=
  from_env [(T "XERONMX_CLUSTER_ENABLED", T "true"); (T "XERONMX_CLUSTER_SECRET", T "sixteen letters!"); (T "XERONMX_CLUSTER_ROLE", T "follower");
            (T "XERONMX_CLUSTER_SYNC_CONFIG", T "1"); (T "XERONMX_CLUSTER_PEERS", T "https://mx1.example, "); (T "XERONMX_QUEUE_WORKERS", T "many")].

