(* ===== verification/Oidc.v ===== *)
(** * Signing in through an identity provider (internal/oidc/oidc.go, internal/api/oidcauth.go)

    The state of the provider with its discovery loop, the address the browser is sent to,
    the exchange of a code with every check on the identity token, the mapping of groups to
    roles, and the two handlers with the resolution of an identity to an account.  The OAuth2
    and OpenID Connect libraries and the JSON of the flow cookie are a class. *)

From S2P Require Import Prelude GoStrings Base64 Times Errors StoreTypes StoreQueue StoreDomains StoreUsers Auth World Api.
From S2P Require Import Config Account UserPages.
From Stdlib Require Import QArith.
Open Scope Z_scope.

(** ** What the libraries provide *)

(** A value of decoded JSON, as far as [toStringSlice] looks at it. *)
Inductive claim_value := AnyList (items : list claim_value) | AnyStrings (items : list text) | AnyString (s : text) | AnyOther.

Record claims := {
  c_Email : text;
  c_EmailVerified : option bool;
  c_Name : text;
  c_PreferredName : text;
  c_UPN : text;
  c_HostedDomain : text
}.

(** A token that verified: [raw] is the map its claims decode to, if they do. *)
Record idToken := {
  it_Issuer : text;
  it_Subject : text;
  it_Nonce : text;
  it_Claims : result claims;
  it_Raw : option (gmap text claim_value)
}.

(** What is set up for a provider [D] that was found. *)
Record IDTokenVerifier (D : Type) := { v_Provider : D; v_ClientID : text }.
Record OAuthConfig (D : Type) := {
  o_ClientID : text;
  o_ClientSecret : text;
  o_Endpoint : D;
  o_RedirectURL : text;
  o_Scopes : list text
}.
Arguments v_Provider {D}. Arguments v_ClientID {D}.
Arguments o_ClientID {D}. Arguments o_ClientSecret {D}. Arguments o_Endpoint {D}. Arguments o_RedirectURL {D}. Arguments o_Scopes {D}.

Inductive AuthCodeOption := Nonce (n : text) | S256Challenge (verifier : text) | URLParam (key value : text).

Record flowState := { f_State : text; f_Nonce : text; f_Verifier : text; f_Return : text }.

Class OIDCLib := {
  discovered : Type;                                        (* *coreoidc.Provider *)
  oauth_AuthCodeURL : OAuthConfig discovered -> text -> list AuthCodeOption -> text;
  (* [Exchange] with the verifier of the challenge, then [token.Extra("id_token").(string)] *)
  oauth_Exchange : OAuthConfig discovered -> text -> text -> result (option text);
  id_Verify : IDTokenVerifier discovered -> text -> result idToken;
  flow_Marshal : flowState -> result text;
  flow_Unmarshal : text -> result flowState
}.

Definition ErrNotReady : error := EText "oidc: the identity provider has not been reached yet"%string.
Definition unverified (msg : text) : error :=
  ESentinel ErrEmailUnverified ("oidc: the provider did not assert that this address is verified: "%string ++ msg).

Definition discoveryRetryBase : Z := 15 * second.
Definition discoveryRetryMax : Z := 5 * minute.

Section provider.
Context `{OIDCLib}.

Record Provider := {
  p_cfg : OIDCConfig;
  p_redirectURL : text;
  p_verifier : option (IDTokenVerifier discovered);
  p_oauth : option (OAuthConfig discovered);
  p_lastErr : option error
}.

Definition New (cfg : OIDCConfig) (redirectURL : text) : Provider := Build_Provider cfg redirectURL None None None.

Definition Enabled (p : Provider) : bool := OIDC_Enabled (p_cfg p).
Definition AllowPasswordLogin (p : Provider) : bool := OIDC_AllowPasswordLogin (p_cfg p).
Definition Ready (p : Provider) : bool * option error := (bool_decide (is_Some (p_verifier p)), p_lastErr p).

(** ** Discovery *)

(** [discover], for a provider that answered. *)
Definition discover (found : discovered) (p : Provider) : Provider :=
  let c := p_cfg p in
  let scopes := if bool_decide (OIDC_Scopes c = []) then [T "openid"; T "email"; T "profile"] else OIDC_Scopes c in
  Build_Provider c (p_redirectURL p)
    (Some {| v_Provider := found; v_ClientID := OIDC_ClientID c |})
    (Some {| o_ClientID := OIDC_ClientID c; o_ClientSecret := OIDC_ClientSecret c; o_Endpoint := found;
             o_RedirectURL := p_redirectURL p; o_Scopes := scopes |})
    None.

(** How an attempt ends: the provider answers; the context ends while it is asked; it fails, and the context
    ends or does not end before the wait is over. *)
Inductive attempt := Found (d : discovered) | Cut | Failed (e : error) (ended : bool).

(** The loop of [Run] over the attempts, with the delays waited. *)
Fixpoint run_loop (delay : Z) (attempts : list attempt) (p : Provider) : Provider * list Z :=
  match attempts with
  | [] => (p, [])
  | Found d :: _ => (discover d p, [])
  | Cut :: _ => (p, [])
  | Failed e ended :: rest =>
      let p := Build_Provider (p_cfg p) (p_redirectURL p) (p_verifier p) (p_oauth p) (Some e) in
      if ended : bool then (p, [])
      else
        let next := if discoveryRetryMax <? delay * 2 then discoveryRetryMax else delay * 2 in
        let '(p, waits) := run_loop next rest p in (p, delay :: waits)
  end.

Definition Run (attempts : list attempt) (p : Provider) : Provider * list Z :=
  if negb (Enabled p) then (p, []) else run_loop discoveryRetryBase attempts p.

(** ** Sending the browser away, and what it comes back with *)

Definition AuthCodeURL (p : Provider) (state nonce verifier : text) : result text :=
  match p_oauth p with
  | None => Err ErrNotReady
  | Some o =>
      let hd := OIDC_HostedDomain (p_cfg p) in
      Ok (oauth_AuthCodeURL o state ([Nonce nonce; S256Challenge verifier]
            ++ if negb (bool_decide (hd = [])) then [URLParam (T "hd") hd] else []))
  end.

Definition DefaultRole (p : Provider) : text :=
  if bool_decide (OIDC_DefaultRole (p_cfg p) = []) then Config.RoleViewer else OIDC_DefaultRole (p_cfg p).

Definition toStringSlice (val : claim_value) : list text :=
  match val with
  | AnyList v => omap (fun item => match item with AnyString s => if bool_decide (s = []) then None else Some s | _ => None end) v
  | AnyStrings v => v
  | AnyString v => [v]
  | AnyOther => []
  end.

Definition in_groups (extracted groups : list text) : bool := existsb (fun g => existsb (equal_fold g) groups) extracted.

Definition RoleFromClaims (p : Provider) (raw : option (gmap text claim_value)) : text :=
  match raw with
  | None => DefaultRole p
  | Some raw =>
      let claimName := if bool_decide (OIDC_RolesClaim (p_cfg p) = []) then T "groups" else OIDC_RolesClaim (p_cfg p) in
      let extracted := match raw !! claimName with Some val => toStringSlice val | None => [] end in
      let extracted :=
        if bool_decide (extracted = []) && negb (bool_decide (claimName = T "roles")) then
          match raw !! T "roles" with Some val => toStringSlice val | None => extracted end
        else extracted in
      if in_groups extracted (OIDC_AdminGroups (p_cfg p)) then Config.RoleAdmin
      else if in_groups extracted (OIDC_OperatorGroups (p_cfg p)) then Config.RoleOperator
      else if in_groups extracted (OIDC_ViewerGroups (p_cfg p)) then Config.RoleViewer
      else DefaultRole p
  end.

Record Identity := { i_Subject : text; i_Issuer : text; i_Email : text; i_Name : text; i_Role : text }.

(** The address an identity is taken to have. *)
Definition claimed_email (c : claims) : text :=
  let email := to_lower (trim_space (c_Email c)) in
  if negb (bool_decide (email = [])) then email
  else if contains "@"%string (c_PreferredName c) then to_lower (trim_space (c_PreferredName c))
  else if contains "@"%string (c_UPN c) then to_lower (trim_space (c_UPN c))
  else email.

(** The error that refuses an address the provider does not vouch for. *)
Definition check_verified (p : Provider) (c : claims) (email : text) : option error :=
  match c_EmailVerified c with
  | None => if negb (OIDC_SkipEmailVerified (p_cfg p)) then Some (unverified "no email_verified claim was present"%string) else None
  | Some verified => if negb verified then Some (unverified email) else None
  end.

(** What follows the verification of the token. *)
Definition identify (p : Provider) (nonce : text) (token : idToken) : result Identity :=
  if negb (bool_decide (it_Nonce token = nonce)) then Err (EText "oidc: the id_token nonce does not match this sign-in"%string)
  else match it_Claims token with
  | Err e => Err (EWrap "oidc: could not read the id_token claims"%string e)
  | Ok c =>
      let email := claimed_email c in
      if bool_decide (email = []) then
        Err (EText "oidc: the provider returned no email claim; add the email scope to this client"%string)
      else match check_verified p c email with
      | Some e => Err e
      | None =>
          let hd := OIDC_HostedDomain (p_cfg p) in
          if negb (bool_decide (hd = [])) && negb (equal_fold (c_HostedDomain c) hd) then
            Err (EText ("oidc: the provider did not assert the expected hosted domain "%string ++ quote hd))
          else
            Ok {| i_Subject := it_Subject token; i_Issuer := it_Issuer token; i_Email := email;
                  i_Name := if bool_decide (c_Name c = []) then c_PreferredName c else c_Name c;
                  i_Role := RoleFromClaims p (it_Raw token) |}
      end
  end.

Definition Exchange (p : Provider) (code nonce verifier : text) : result Identity :=
  match p_oauth p, p_verifier p with
  | Some oauth, Some idVerifier =>
      match oauth_Exchange oauth code verifier with
      | Err e => Err (EWrap "oidc: the code exchange failed"%string e)
      | Ok None | Ok (Some []) => Err (EText "oidc: the provider returned no id_token"%string)
      | Ok (Some rawID) =>
          match id_Verify idVerifier rawID with
          | Err e => Err (EWrap "oidc: the id_token did not verify"%string e)
          | Ok token => identify p nonce token
          end
      end
  | _, _ => Err ErrNotReady
  end.

Definition MayProvision (p : Provider) (email : text) : bool :=
  if negb (OIDC_AutoProvision (p_cfg p)) then false
  else if bool_decide (OIDC_AllowedDomains (p_cfg p) = []) then true
  else match last_index "@"%char email with
       | None => false
       | Some at_ => existsb (fun allowed => equal_fold allowed (drop (S at_) email)) (OIDC_AllowedDomains (p_cfg p))
       end.

(** ** The handlers *)

(** The flow cookie of a reply: its value and the seconds it is kept, or its removal. *)
Inductive flow_change := KeepFlow | SetFlow (value : text) (maxAge : Z) | ClearFlow.

(** A redirection with status 303. *)
Record redirect := Redirect { rd_location : text; rd_flow : flow_change; rd_session : cookie_change }.

Definition oidcFlowTTL : Z := 10 * minute.

Definition ssoFailed (code : text) : redirect := Redirect ("/?sso_error="%string ++ code) ClearFlow KeepCookie.

Definition randomString : M (result text) :=
  let* b := random_bytes 32 in
  ret match b with Err e => Err e | Ok b => Ok (EncodeToString url_alphabet b) end.

(** [verifier] is what [oauth2.GenerateVerifier] made up. *)
Definition handleOIDCLogin (sso : option Provider) (verifier : text) : M redirect :=
  match sso with
  | None => ret (ssoFailed "not_configured"%string)
  | Some p =>
    if negb (Enabled p) then ret (ssoFailed "not_configured"%string)
    else if negb (fst (Ready p)) then ret (ssoFailed "not_ready"%string)
    else
      let* state := randomString in
      match state with
      | Err _ => ret (ssoFailed "server"%string)
      | Ok state =>
          let* nonce := randomString in
          match nonce with
          | Err _ => ret (ssoFailed "server"%string)
          | Ok nonce =>
              match flow_Marshal {| f_State := state; f_Nonce := nonce; f_Verifier := verifier; f_Return := [] |} with
              | Err _ => ret (ssoFailed "server"%string)
              | Ok raw =>
                  match AuthCodeURL p state nonce verifier with
                  | Err _ => ret (ssoFailed "not_ready"%string)
                  | Ok target =>
                      ret (Redirect target (SetFlow (EncodeToString url_alphabet raw) (Z.quot oidcFlowTTL second)) KeepCookie)
                  end
              end
          end
      end
  end.

(** What the callback is called with: its query parameters and the flow cookie. *)
Record callback := { cb_error : text; cb_state : text; cb_code : text; cb_cookie : option text }.

Definition readOIDCCookie (cookie : option text) : option flowState :=
  match cookie with
  | None | Some [] => None
  | Some value =>
      match DecodeString url_alphabet value with
      | None => None
      | Some raw =>
          match flow_Unmarshal raw with
          | Err _ => None
          | Ok flow =>
              if bool_decide (f_State flow = []) || bool_decide (f_Nonce flow = []) || bool_decide (f_Verifier flow = []) then None
              else Some flow
          end
      end
  end.

Definition OIDCSubject (u : User) : text := match OIDC u with Some (_, subject) => subject | None => [] end.

(** [UpdateUserRole] reads the account's domains and hands over to [UpdateUserScope]. *)
Definition update_role (id : Z) (role : text) : M (result unit) :=
  let* u := query (fun s => UserByID id (s_users s)) in
  match u with
  | Err e => ret (Err e)
  | Ok u => update_scope id role (AllowedDomains u)
  end.

(** The role of the identity, when it names one; an error leaves the account as it is. *)
Definition sync_role (id : Identity) (user : User) : M User :=
  if negb (bool_decide (i_Role id = [])) && negb (bool_decide (i_Role id = Role user)) then
    let* done_ := update_role (UID user) (i_Role id) in
    ret match done_ with Ok _ => with_scope (i_Role id) (AllowedDomains user) user | Err _ => user end
  else ret user.

Definition resolveIdentity (p : Provider) (id : Identity) : M (User + text) :=
  let* bound := query (fun s => UserByOIDC (i_Issuer id) (i_Subject id) (s_users s)) in
  match bound with
  | Ok user => let* user := sync_role id user in ret (inl user)
  | Err e =>
    if negb (is_sentinel ErrNotFound e) then ret (inr (T "server"))
    else
      let* known := query (fun s => UserByEmail (i_Email id) (s_users s)) in
      match known with
      | Ok user =>
          if negb (bool_decide (OIDCSubject user = [])) && negb (bool_decide (OIDCSubject user = i_Subject id)) then
            ret (inr (T "conflict"))
          else
            let* linked := on_accounts (LinkOIDC (UID user) (i_Issuer id) (i_Subject id)) in
            match linked with
            | Err _ => ret (inr (T "server"))
            | Ok _ =>
                let* user := sync_role id (with_oidc (Some (i_Issuer id, i_Subject id)) user) in
                ret (inl user)
            end
      | Err e =>
        if negb (is_sentinel ErrNotFound e) then ret (inr (T "server"))
        else if negb (MayProvision p (i_Email id)) then ret (inr (T "no_account"))
        else
          let role := if bool_decide (i_Role id = []) then DefaultRole p else i_Role id in
          let* now := now_ in
          let* created := on_accounts (CreateOIDCUser (i_Email id) role (i_Issuer id) (i_Subject id) [] now) in
          match created with
          | Err _ => ret (inr (T "server"))
          | Ok newID =>
              let* user := query (fun s => UserByID newID (s_users s)) in
              ret match user with Ok user => inl user | Err _ => inr (T "server") end
          end
      end
  end.

Context `{PasswordCrypto} (cfg : AccountConfig).

Definition handleOIDCCallback (sso : option Provider) (r : request) (cb : callback) : M redirect :=
  match sso with
  | None => ret (ssoFailed "not_configured"%string)
  | Some p =>
    if negb (Enabled p) then ret (ssoFailed "not_configured"%string)
    else if negb (bool_decide (cb_error cb = [])) then ret (ssoFailed "exchange"%string)
    else match readOIDCCookie (cb_cookie cb) with
    | None => ret (ssoFailed "state"%string)
    | Some flow =>
      if negb (bool_decide (f_State flow = cb_state cb)) then ret (ssoFailed "state"%string)
      else if bool_decide (cb_code cb = []) then ret (ssoFailed "exchange"%string)
      else match Exchange p (cb_code cb) (f_Nonce flow) (f_Verifier flow) with
      | Err e => ret (ssoFailed (if is_sentinel ErrEmailUnverified e then "unverified"%string else "exchange"%string))
      | Ok identity =>
          let* resolved := resolveIdentity p identity in
          match resolved with
          | inr failure => ret (ssoFailed failure)
          | inl user =>
              let* session := startSession cfg r (UID user) in
              match session with
              | Err _ => ret (ssoFailed "server"%string)
              | Ok token =>
                  let* now := now_ in
                  on_accounts (TouchLogin (UID user) now) ;;;
                  audit None r (user_event EventLogin (Some (UID user))
                    [(T "ip", JStr (clientIP r)); (T "method", JStr "oidc"%string); (T "issuer", JStr (i_Issuer identity));
                     (T "by", JStr (Email user))]) ;;;
                  ret (Redirect "/"%string ClearFlow (SetCookie token (Z.quot (session_ttl cfg) second)))
              end
          end
      end
    end
  end.
End provider.
