(* ===== verification/OidcProps.v ===== *)
(** * Signing in through an identity provider: guarantees *)

From S2P Require Import Prelude GoStrings Base64 Times Net Errors StoreTypes StoreQueue StoreDomains StoreUsers UserProps.
From S2P Require Import Auth RateLimit World Api ApiProps Config Account AccountProps UserPages Oidc.
From Stdlib Require Import QArith.
Open Scope Z_scope.

(** ** Writing to the row of one account *)

(** Only rows of account [id] are rewritten, keeping identifier and address; the identity of those becomes [o] of it. *)
Definition rewrites (id : Z) (o : option (text * text) -> option (text * text)) (t t' : user_tables) : Prop :=
  (exists f, ut_users t' = update_rows (user_by id) f (ut_users t) /\
             forall u, UID (f u) = UID u /\ Email (f u) = Email u /\ OIDC (f u) = o (OIDC u)) /\
  ut_sessions t' = ut_sessions t.

Lemma update_rows_id {A} (p : A -> bool) l : update_rows p (fun x => x) l = l.
Proof. unfold update_rows. rewrite <- (map_id l) at 2. apply map_ext. intros x. by destruct (p x). Qed.

Lemma rewrites_refl id t : rewrites id (fun o => o) t t.
Proof. split; [|done]. exists (fun u => u). by rewrite update_rows_id. Qed.

Lemma rewrites_trans id o1 o2 t1 t2 t3 : rewrites id o1 t1 t2 -> rewrites id o2 t2 t3 -> rewrites id (fun x => o2 (o1 x)) t1 t3.
Proof.
  intros [(f & Ef & Hf) Es1] [(g & Eg & Hg) Es2]. split; [|congruence]. exists (fun u => g (f u)). split.
  - rewrite Eg, Ef. unfold update_rows. rewrite map_map. apply map_ext. intros u.
    destruct (user_by id u) eqn:E; [|by rewrite E]. unfold user_by in *. by rewrite (proj1 (Hf u)), E.
  - intros u. destruct (Hf u) as (F1 & F2 & F3), (Hg (f u)) as (G1 & G2 & G3). split_and!; congruence.
Qed.

Lemma rewrites_exec id o f t :
  (forall u, UID (f u) = UID u /\ Email (f u) = Email u /\ OIDC (f u) = o (OIDC u)) ->
  rewrites id o t (snd (on_users (exec_rows (user_by id) f) t)).
Proof. intros Hf. split; [|done]. exists f. split; [done|exact Hf]. Qed.

(** What becomes of the rows: those of other accounts stay, one of this account keeps its place. *)
Lemma rewrites_other id o t t' v : rewrites id o t t' -> UID v <> id -> v ∈ ut_users t' <-> v ∈ ut_users t.
Proof.
  intros [(f & -> & Hf) _] Hv. unfold update_rows. rewrite elem_of_map. unfold user_by. split.
  - intros (u & -> & Hu). destruct (Z.eqb_spec (UID u) id) as [E|E]; [|done]. destruct Hv. by rewrite (proj1 (Hf u)).
  - intros Hin. exists v. by destruct (Z.eqb_spec (UID v) id).
Qed.

Lemma rewrites_row o t t' u : rewrites (UID u) o t t' -> u ∈ ut_users t ->
  exists u', u' ∈ ut_users t' /\ UID u' = UID u /\ Email u' = Email u /\ OIDC u' = o (OIDC u).
Proof.
  intros [(f & -> & Hf) _] Hu. exists (f u). split; [|apply Hf]. unfold update_rows. apply elem_of_map. exists u.
  unfold user_by. by rewrite Z.eqb_refl.
Qed.

Section oidc.
Context `{OIDCLib}.

(** ** Discovery *)

(** The delay after [k] failures. *)
Definition nth_delay (k : nat) : Z := Z.min (discoveryRetryBase * 2 ^ Z.of_nat k) discoveryRetryMax.

Lemma nth_delay_S k :
  (if discoveryRetryMax <? nth_delay k * 2 then discoveryRetryMax else nth_delay k * 2) = nth_delay (S k).
Proof.
  unfold nth_delay. rewrite Nat2Z.inj_succ, Z.pow_succ_r by lia. pose proof (Z.pow_pos_nonneg 2 (Z.of_nat k) ltac:(lia) ltac:(lia)).
  set (x := 2 ^ Z.of_nat k) in *. change discoveryRetryBase with 15000000000. change discoveryRetryMax with 300000000000.
  destruct (Z.ltb_spec 300000000000 (Z.min (15000000000 * x) 300000000000 * 2)); lia.
Qed.

Lemma run_loop_perseveres k errs d rest p :
  let '(p', waits) := run_loop (nth_delay k) (map (fun e => Failed e false) errs ++ Found d :: rest) p in
  p_verifier p' = p_verifier (discover d p) /\ p_oauth p' = p_oauth (discover d p) /\ p_lastErr p' = None /\
  waits = map nth_delay (seq k (length errs)).
Proof.
  revert k p. induction errs as [|e errs IH]; intros k p; cbn [map app run_loop]; [done|]. rewrite nth_delay_S.
  set (p1 := Build_Provider _ _ _ _ (Some e)). specialize (IH (S k) p1).
  destruct (run_loop (nth_delay (S k)) _ p1) as [p' waits]. destruct IH as (Hv & Ho & He & ->). done.
Qed.

(** ** The role an account gets *)

Lemma wp_update_role md id role Q s :
  (forall r t, rewrites id (fun o => o) (s_users s) t -> Q r (set_s_users t s)) ->
  wp md (update_role id role) Q s.
Proof.
  intros HQ. assert (Hs : s = set_s_users (s_users s) s) by (by destruct s).
  assert (Herr : forall e, Q (Err e) s) by (intros e; rewrite Hs; apply HQ, rewrites_refl).
  unfold update_role. apply wp_bind, wp_query; [intros e _; by apply wp_ret|].
  destruct (UserByID id (s_users s)) as [u|e]; [|by apply wp_ret]. unfold update_scope.
  apply wp_bind, wp_query; [intros e _; by apply wp_ret|].
  destruct (may_change_role id role (s_users s)) as [[]|e]; [|by apply wp_ret].
  apply wp_on_accounts; [done|]. unfold write_scope. destruct (_ && _); [apply HQ, rewrites_refl|].
  pose proof (rewrites_exec id (fun o => o) (with_scope role (AllowedDomains u)) (s_users s)) as Hr.
  destruct (on_users _ (s_users s)) as [r t]. by apply HQ, Hr.
Qed.

Lemma wp_sync_role md id user Q s :
  (forall v t, UID v = UID user -> rewrites (UID user) (fun o => o) (s_users s) t -> Q v (set_s_users t s)) ->
  wp md (sync_role id user) Q s.
Proof.
  intros HQ. unfold sync_role. destruct (_ && _).
  - apply wp_bind, wp_update_role. intros r t Ht. apply wp_ret. by destruct r; apply HQ.
  - apply wp_ret. replace s with (set_s_users (s_users s) s) at 1 by (by destruct s). apply HQ; [done|apply rewrites_refl].
Qed.

(** ** Which account an identity signs in to *)

Definition identity_of (id : Identity) : option (text * text) := Some (i_Issuer id, i_Subject id).

(** Account [n] is one bound to the identity, or the one of its address where that is not bound to another
    subject, or a new one where provisioning covers the address; no other account is bound to the identity. *)
Definition account_for (p : Provider) (id : Identity) (n : Z) (t : user_tables) : Prop :=
  (exists u, u ∈ ut_users t /\ UID u = n /\ OIDC u = identity_of id) \/
  ((forall u, u ∈ ut_users t -> OIDC u = identity_of id -> UID u = n) /\
   ((exists u, u ∈ ut_users t /\ UID u = n /\ Email u = normalizeEmail (i_Email id) /\
               (OIDCSubject u = [] \/ OIDCSubject u = i_Subject id)) \/
    (n = ut_next t /\ MayProvision p (i_Email id) = true /\ forall u, u ∈ ut_users t -> Email u <> normalizeEmail (i_Email id)))).

(** Its row is bound to the identity, and the rows of other accounts are as they were. *)
Definition account_bound (id : Identity) (n : Z) (t t' : user_tables) : Prop :=
  (exists u, u ∈ ut_users t' /\ UID u = n /\ OIDC u = identity_of id) /\
  forall v, UID v <> n -> v ∈ ut_users t' <-> v ∈ ut_users t.

Lemma account_bound_later id n t t1 t2 :
  account_bound id n t t1 -> rewrites n (fun o => o) t1 t2 -> account_bound id n t t2.
Proof.
  intros [(u & Hu & <- & Ho) Hother] Hr. split.
  - destruct (rewrites_row _ _ _ _ Hr Hu) as (u' & Hu' & Eid & _ & Eo). exists u'. by rewrite Eo.
  - intros v Hv. rewrite <- (Hother v Hv). by apply (rewrites_other _ _ _ _ v Hr).
Qed.

Lemma existsb_none {A} (f : A -> bool) l x : existsb f l = false -> x ∈ l -> f x = false.
Proof. intros E Hx. destruct (f x) eqn:Ef; [|done]. rewrite (proj2 (existsb_elem f l)) in E; [done|eauto]. Qed.

Lemma LinkOIDC_Ok u id t t' :
  u ∈ ut_users t -> LinkOIDC (UID u) (i_Issuer id) (i_Subject id) t = (Ok tt, t') ->
  rewrites (UID u) (fun _ => identity_of id) t t' /\ forall v, v ∈ ut_users t -> OIDC v = identity_of id -> UID v = UID u.
Proof.
  intros Hu. unfold LinkOIDC. rewrite (proj2 (existsb_user_by (UID u) (ut_users t))) by (by apply elem_of_map_2).
  destruct (existsb _ _) eqn:Ee; [done|]. cbn [andb]. intros HL. split.
  - apply (f_equal snd) in HL. cbn [snd] in HL. rewrite <- HL. by apply rewrites_exec.
  - intros v Hv Ho. apply (existsb_none _ _ v) in Ee; [|done]. unfold oidc_is, user_by in Ee.
    rewrite bool_decide_eq_true_2 in Ee by done. apply negb_false_iff, Z.eqb_eq in Ee. done.
Qed.

Lemma CreateOIDCUser_Ok p id role now t n t' :
  users_wf t -> MayProvision p (i_Email id) = true ->
  CreateOIDCUser (i_Email id) role (i_Issuer id) (i_Subject id) [] now t = (Ok n, t') ->
  ut_sessions t' = ut_sessions t /\ account_for p id n t /\ account_bound id n t t'.
Proof.
  intros Hwf Hmay. unfold CreateOIDCUser, insert_user. destruct (existsb _ _) eqn:Ee; [done|].
  destruct (existsb (oidc_is _) _) eqn:Eo; [done|]. destruct (negb _); [done|]. intros [= <- <-]. split_and!; [done|right; split|split].
  - intros u Hu Hid. apply (existsb_none _ _ u) in Eo; [|done]. unfold oidc_is in Eo. by apply bool_decide_eq_false in Eo.
  - right. split_and!; [done..|]. intros u Hu. apply (existsb_none _ _ u) in Ee; [|done]. by apply bool_decide_eq_false in Ee.
  - eexists. split; [apply elem_of_app; right; by apply list_elem_of_singleton|done].
  - intros v Hv. cbn. rewrite elem_of_app, list_elem_of_singleton. split; [|by left]. by intros [?| ->].
Qed.

(** What a resolution promises of the account it found. *)
Definition resolved (p : Provider) (id : Identity) (n : Z) (t t' : user_tables) : Prop :=
  account_for p id n t /\ account_bound id n t t' /\ ut_sessions t' = ut_sessions t.

Lemma wp_sync_resolved md p id u t (Q : User + text -> state -> Prop) s :
  resolved p id (UID u) t (s_users s) ->
  (forall v s', resolved p id (UID v) t (s_users s') -> Q (inl v) s') ->
  wp md (let* user := sync_role id u in ret (inl user)) Q s.
Proof.
  intros (Hfor & Hb & Hs) HQ. apply wp_bind, wp_sync_role. intros v t' Hv Hr. apply wp_ret, HQ. rewrite Hv.
  split_and!; [done|by eapply account_bound_later|]. cbn. rewrite <- Hs. apply Hr.
Qed.

Lemma wp_resolveIdentity md p id Q s :
  users_wf (s_users s) ->
  (forall code s', ut_sessions (s_users s') = ut_sessions (s_users s) -> Q (inr code) s') ->
  (forall u s', resolved p id (UID u) (s_users s) (s_users s') -> Q (inl u) s') ->
  wp md (resolveIdentity p id) Q s.
Proof.
  intros Hwf Hno Hyes. unfold resolveIdentity.
  match goal with |- wp _ (bind _ ?k) _ _ => assert (Hunbound : forall e, wp md (k (Err e)) Q s) end.
  { intros e. cbn beta iota. destruct (negb _); [by apply wp_ret, Hno|].
    match goal with |- wp _ (bind _ ?k) _ _ => assert (Hunknown : forall e, wp md (k (Err e)) Q s) end.
    { clear e. intros e. cbn beta iota. destruct (negb _); [by apply wp_ret, Hno|].
      destruct (MayProvision p (i_Email id)) eqn:Emay; [cbn [negb]|by apply wp_ret, Hno].
      apply wp_bind, wp_now. intros now _. apply wp_bind, wp_on_accounts; [intros e1; by apply wp_ret, Hno|].
      cbn [s_users set_s_now]. destruct (CreateOIDCUser _ _ _ _ _ _ _) as [[n|e1] t] eqn:Ec; [|apply wp_ret, Hno].
      - apply (CreateOIDCUser_Ok p id) in Ec as (Hs & Hfor & Hb); [|done..].
        apply wp_bind, wp_query; [intros e1 _; by apply wp_ret, Hno|]. cbn [s_users set_s_users].
        destruct (UserByID n t) as [u|] eqn:Eu; apply wp_ret; [|by apply Hno]. apply Hyes.
        apply find_row_Ok in Eu as [_ ->%Z.eqb_eq]. done.
      - revert Ec. unfold CreateOIDCUser, insert_user. repeat split_match; intros [= _ <-]; done. }
    apply wp_bind, wp_query; [intros e1 _; apply Hunknown|].
    destruct (UserByEmail (i_Email id) (s_users s)) as [u|e1] eqn:Eu; [|apply Hunknown].
    apply UserByEmail_Ok in Eu as [Hu Hemail]. destruct (_ && _) eqn:Econf; [by apply wp_ret, Hno|].
    apply wp_bind, wp_on_accounts; [intros e1; by apply wp_ret, Hno|].
    destruct (LinkOIDC _ _ _ _) as [[[]|e1] t] eqn:El; [|apply wp_ret, Hno].
    - apply LinkOIDC_Ok in El as [Hr Honly]; [|done]. eapply wp_sync_resolved; [|exact Hyes]. cbn. split_and!.
      + right. split; [done|left]. exists u. split_and!; [done..|]. apply andb_false_iff in Econf. destruct Econf; bools; auto.
      + split; [|intros v Hv; by apply (rewrites_other _ _ _ _ v Hr)].
        destruct (rewrites_row _ _ _ _ Hr Hu) as (u' & Hu' & Eid & _ & Eo). by exists u'.
      + apply Hr.
    - apply (f_equal snd) in El. cbn [snd] in El. rewrite <- El. unfold LinkOIDC.
      by destruct (existsb _ _ && _). }
  apply wp_bind, wp_query; [intros e _; apply Hunbound|].
  destruct (UserByOIDC _ _ (s_users s)) as [u|e] eqn:Eu; [|apply Hunbound].
  apply find_row_Ok in Eu as [Hu Ho]. unfold oidc_is in Ho. bools. eapply wp_sync_resolved; [|exact Hyes].
  split_and!; [left; by exists u|split; [by exists u|done]|done].
Qed.

(** ** What a callback takes for an identity *)

(** The code was exchanged, with this flow's verifier, for a token that verified, carries this flow's nonce, and
    names the subject; its address is one the provider vouches for, of the hosted domain where one is set. *)
Definition verified_identity (p : Provider) (code : text) (flow : flowState) (id : Identity) : Prop :=
  exists oauth verifier raw token c,
    p_oauth p = Some oauth /\ p_verifier p = Some verifier /\
    oauth_Exchange oauth code (f_Verifier flow) = Ok (Some raw) /\ id_Verify verifier raw = Ok token /\
    it_Nonce token = f_Nonce flow /\ identity_of id = Some (it_Issuer token, it_Subject token) /\
    it_Claims token = Ok c /\ i_Email id = claimed_email c /\ i_Email id <> [] /\
    (c_EmailVerified c = Some true \/ c_EmailVerified c = None /\ OIDC_SkipEmailVerified (p_cfg p) = true) /\
    (OIDC_HostedDomain (p_cfg p) = [] \/ equal_fold (c_HostedDomain c) (OIDC_HostedDomain (p_cfg p)) = true) /\
    i_Role id = RoleFromClaims p (it_Raw token).

Lemma check_verified_None p c email : check_verified p c email = None ->
  c_EmailVerified c = Some true \/ c_EmailVerified c = None /\ OIDC_SkipEmailVerified (p_cfg p) = true.
Proof. unfold check_verified. destruct (c_EmailVerified c) as [[]|]; [auto|done|]. destruct (OIDC_SkipEmailVerified _); [auto|done]. Qed.

Lemma Exchange_Ok p code flow id :
  Exchange p code (f_Nonce flow) (f_Verifier flow) = Ok id -> verified_identity p code flow id.
Proof.
  unfold Exchange, identify, verified_identity.
  destruct (p_oauth p) as [oauth|] eqn:Eo; [|done]. destruct (p_verifier p) as [verifier|] eqn:Ev; [|done].
  destruct (oauth_Exchange oauth code (f_Verifier flow)) as [[[|a raw]|]|] eqn:Ex; try done.
  destruct (id_Verify verifier (a :: raw)) as [token|] eqn:Et; [|done].
  destruct (bool_decide_reflect (it_Nonce token = f_Nonce flow)) as [En|]; [cbn [negb]|done].
  destruct (it_Claims token) as [c|] eqn:Ec; [|done].
  destruct (bool_decide_reflect (claimed_email c = [])) as [|Hne]; [done|].
  destruct (check_verified p c (claimed_email c)) eqn:Echeck; [done|]. apply check_verified_None in Echeck.
  destruct (negb _ && _) eqn:Ehd; [done|]. intros [= <-]. exists oauth, verifier, (a :: raw), token, c.
  split_and!; try done. apply andb_false_iff in Ehd. destruct Ehd as [Ehd|Ehd]; bools; auto.
Qed.

Section callback.
Context `{PasswordCrypto} (cfg : AccountConfig).

(** What the reply to a callback means. *)
Definition callback_outcome (sso : option Provider) (cb : callback) (s : state) (rs : redirect) (s' : state) : Prop :=
  rd_flow rs = ClearFlow /\
  match rd_session rs with
  | SetCookie token _ => exists p flow id row,
      sso = Some p /\ Enabled p = true /\ readOIDCCookie (cb_cookie cb) = Some flow /\ f_State flow = cb_state cb /\
      verified_identity p (cb_code cb) flow id /\
      account_for p id (sr_user row) (s_users s) /\ account_bound id (sr_user row) (s_users s) (s_users s') /\
      ut_sessions (s_users s') = ut_sessions (s_users s) ++ [row] /\ sr_token row = HashToken token
  | KeepCookie => ut_sessions (s_users s') = ut_sessions (s_users s)
  | ClearCookie => False
  end.

Lemma TouchLogin_rewrites id now t : rewrites id (fun o => o) t (snd (TouchLogin id now t)).
Proof. by apply rewrites_exec. Qed.

Lemma account_bound_same id n t t1 t2 : account_bound id n t t1 -> ut_users t2 = ut_users t1 -> account_bound id n t t2.
Proof. intros [Hu Ho] E. unfold account_bound. rewrite E. done. Qed.

Lemma wp_handleOIDCCallback md sso r cb s :
  users_wf (s_users s) -> wp md (handleOIDCCallback cfg sso r cb) (callback_outcome sso cb s) s.
Proof.
  intros Hwf. assert (Hno : forall code s', ut_sessions (s_users s') = ut_sessions (s_users s) ->
    callback_outcome sso cb s (ssoFailed code) s') by done.
  unfold handleOIDCCallback. destruct sso as [p|]; [|by apply wp_ret, Hno].
  destruct (Enabled p) eqn:Een; [cbn [negb]|by apply wp_ret, Hno]. destruct (negb _); [by apply wp_ret, Hno|].
  destruct (readOIDCCookie (cb_cookie cb)) as [flow|] eqn:Eflow; [|by apply wp_ret, Hno].
  destruct (bool_decide_reflect (f_State flow = cb_state cb)) as [Est|]; [cbn [negb]|by apply wp_ret, Hno].
  destruct (bool_decide _); [by apply wp_ret, Hno|].
  destruct (Exchange p _ _ _) as [id|] eqn:Ex; [|by apply wp_ret, Hno]. apply Exchange_Ok in Ex.
  apply wp_bind, wp_resolveIdentity; [done|intros code s1 E1; by apply wp_ret, Hno|]. intros u s1 (Hfor & Hb & Es1).
  apply wp_bind, wp_startSession; [intros e s2 E2; apply wp_ret, Hno; by rewrite E2|].
  intros token now s2 Ec. apply CreateSession_Ok in Ec as (Eu & _ & row & Erow & Eid & Etok).
  apply (account_bound_same _ _ _ _ (s_users s2)) in Hb; [|done]. rewrite Es1 in Erow.
  assert (Hyes : forall s3 body, account_bound id (UID u) (s_users s) (s_users s3) ->
    ut_sessions (s_users s3) = ut_sessions (s_users s) ++ [row] ->
    callback_outcome (Some p) cb s (Redirect body ClearFlow (SetCookie token (Z.quot (session_ttl cfg) second))) s3).
  { intros s3 body Hb3 Er3. split; [done|]. exists p, flow, id, row. rewrite Eid. done. }
  apply wp_bind, wp_now. intros now2 _.
  assert (Hend : forall s3 ev, account_bound id (UID u) (s_users s) (s_users s3) ->
    ut_sessions (s_users s3) = ut_sessions (s_users s) ++ [row] ->
    wp md (audit None r ev ;;; ret (Redirect "/"%string ClearFlow (SetCookie token (Z.quot (session_ttl cfg) second))))
      (callback_outcome (Some p) cb s) s3).
  { intros s3 ev Hb3 Er3. apply wp_frame with (f := s_users); [auto with keeps|]. intros [] s4 E4.
    all: apply wp_ret, Hyes; by rewrite E4. }
  apply wp_bind, wp_on_accounts; [intros e; by apply Hend|]. cbn [s_users set_s_now].
  destruct (TouchLogin (UID u) now2 (s_users s2)) as [b t] eqn:Et.
  pose proof (TouchLogin_rewrites (UID u) now2 (s_users s2)) as Hr. rewrite Et in Hr.
  apply Hend; [by eapply account_bound_later|]. cbn. rewrite <- Erow. apply Hr.
Qed.
End callback.
End oidc.

(** ** Properties *)

(** C8: whatever comes back from the identity provider, a callback opens at most one session, and only where the
    flow cookie of the browser carries the state given, the code was exchanged for a token that verified, names
    this flow's nonce and an address the provider vouches for, and the account is one bound to the issuer and
    subject of that token, the one of that address where it is not bound to another subject, or a new one
    where provisioning covers the address.  From then on the account is bound to that identity, and no
    other account has changed.  Any other reply leaves the sessions as they are, and the cookie is removed. *)
Theorem sso_login_checked `{OIDCLib} `{PasswordCrypto} cfg sso r cb s e :
  users_wf (s_users s) ->
  let '(rs, w') := handleOIDCCallback cfg sso r cb (World s e) in
  rd_flow rs = ClearFlow /\
  match rd_session rs with
  | SetCookie token _ => exists p flow id row,
      sso = Some p /\ Enabled p = true /\ readOIDCCookie (cb_cookie cb) = Some flow /\ f_State flow = cb_state cb /\
      verified_identity p (cb_code cb) flow id /\
      account_for p id (sr_user row) (s_users s) /\ account_bound id (sr_user row) (s_users s) (s_users (st w')) /\
      ut_sessions (s_users (st w')) = ut_sessions (s_users s) ++ [row] /\ sr_token row = HashToken token
  | KeepCookie => ut_sessions (s_users (st w')) = ut_sessions (s_users s)
  | ClearCookie => False
  end.
Proof.
  intros Hwf.
  pose proof (wp_run any _ _ _ _ (allows_any e) (wp_handleOIDCCallback cfg any sso r cb s Hwf)) as Hrun.
  destruct (handleOIDCCallback cfg sso r cb (World s e)) as [rs w']. exact Hrun.
Qed.

(** C34: a provider that cannot be reached is asked again after fifteen seconds, then after twice as long each
    time and at most five minutes, for as long as it takes; as soon as it answers, sign-ins work with what it
    said, the credentials configured and no error left. *)
Theorem discovery_perseveres `{OIDCLib} p errs d rest :
  Enabled p = true ->
  let '(p', waits) := Run (map (fun e => Failed e false) errs ++ Found d :: rest) p in
  Ready p' = (true, None) /\ p_verifier p' = p_verifier (discover d p) /\ p_oauth p' = p_oauth (discover d p) /\
  length waits = length errs /\
  forall i w, waits !! i = Some w -> w = Z.min (15 * second * 2 ^ Z.of_nat i) (5 * minute).
Proof.
  intros Hen. unfold Run. rewrite Hen. cbn [negb]. change discoveryRetryBase with (nth_delay 0).
  pose proof (run_loop_perseveres 0 errs d rest p) as Hl. destruct (run_loop (nth_delay 0) _ p) as [p' waits].
  destruct Hl as (Hv & Ho & He & ->). split_and!; [|done..| |].
  - unfold Ready. rewrite Hv, He. done.
  - by rewrite length_map, length_seq.
  - intros i w Hw. rewrite list_lookup_fmap in Hw. destruct (seq 0 (length errs) !! i) as [j|] eqn:Ej; [|done].
    apply lookup_seq in Ej as [-> _]. by injection Hw as <-.
Qed.

(** ** The flow from its start to the callback *)

Definition url_text (s : text) : bool := negb (bool_decide (s = [])) && forallb (fun c => bool_decide (c ∈ url_alphabet)) s.

(** JSON keeps the strings of a flow, which are written in the alphabet of base64. *)
Class OIDCLaws `{OIDCLib} := {
  flow_round_trip f raw : url_text (f_State f) = true -> url_text (f_Nonce f) = true -> url_text (f_Verifier f) = true ->
    flow_Marshal f = Ok raw -> flow_Unmarshal raw = Ok f /\ raw <> []
}.

Lemma url_text_encode b : b <> [] -> url_text (EncodeToString url_alphabet b) = true.
Proof.
  intros Hb. apply andb_true_iff. split.
  - rewrite bool_decide_eq_false_2; [done|]. intros E. apply Hb.
    pose proof (decode_encode url_alphabet url_alphabet_ok b) as Hd. rewrite E in Hd. by injection Hd as <-.
  - apply forallb_forall. intros c Hc%list_elem_of_In. apply bool_decide_eq_true.
    apply (encode_chars url_alphabet) in Hc as (n & Hn & ->). unfold sextet_char. apply list_elem_of_In, nth_In.
    change (length url_alphabet) with 64%nat. lia.
Qed.

Lemma wp_randomString md Q s :
  (forall e, Q (Err e) s) -> (forall t, url_text t = true -> Q (Ok t) s) -> wp md randomString Q s.
Proof.
  intros He Hok. apply wp_bind, wp_random_bytes; [intros e; by apply wp_ret|]. intros b Hb. apply wp_ret, Hok, url_text_encode.
  by intros ->.
Qed.

(** What the reply to the start of a sign-in means: a refusal, or an address made of what the cookie holds. *)
Definition flow_started `{OIDCLib} (p : Provider) (verifier : text) (rs : redirect) : Prop :=
  match rd_flow rs with
  | SetFlow value _ => exists flow oauth,
      readOIDCCookie (Some value) = Some flow /\ p_oauth p = Some oauth /\ f_Verifier flow = verifier /\
      rd_location rs = oauth_AuthCodeURL oauth (f_State flow) ([Nonce (f_Nonce flow); S256Challenge verifier]
        ++ if negb (bool_decide (OIDC_HostedDomain (p_cfg p) = [])) then [URLParam (T "hd") (OIDC_HostedDomain (p_cfg p))] else [])
  | _ => exists code, rs = ssoFailed code
  end.

Lemma wp_handleOIDCLogin `{OIDCLaws} md p verifier s :
  url_text verifier = true -> wp md (handleOIDCLogin (Some p) verifier) (fun rs _ => flow_started p verifier rs) s.
Proof.
  intros Hver. assert (Hno : forall code, flow_started p verifier (ssoFailed code)) by (intros; by eexists).
  unfold handleOIDCLogin. destruct (negb (Enabled p)); [by apply wp_ret|]. destruct (negb _); [by apply wp_ret|].
  apply wp_bind, wp_randomString; [intros e1; by apply wp_ret|]. intros state Hst.
  apply wp_bind, wp_randomString; [intros e1; by apply wp_ret|]. intros nonce Hn.
  destruct (flow_Marshal _) as [raw|e1] eqn:Em; [|by apply wp_ret].
  apply flow_round_trip in Em as [Eun Hraw]; [|done..]. unfold AuthCodeURL.
  destruct (p_oauth p) as [oauth|] eqn:Eo; [|by apply wp_ret]. apply wp_ret. unfold flow_started. cbn [rd_flow rd_location].
  exists {| f_State := state; f_Nonce := nonce; f_Verifier := verifier; f_Return := [] |}, oauth.
  split_and!; [|done..]. unfold readOIDCCookie. rewrite decode_encode by apply url_alphabet_ok. rewrite Eun.
  pose proof (url_text_encode raw Hraw) as Hurl. destruct (EncodeToString url_alphabet raw); [done|].
  unfold url_text in Hst, Hn, Hver. cbn [f_State f_Nonce f_Verifier]. bools. by rewrite !bool_decide_eq_false_2.
Qed.

(** A sign-in that is started sends the browser to the provider with the state, the nonce and the challenge that
    the callback will read from the cookie it was given. *)
Theorem sso_flow_kept `{OIDCLaws} p verifier s e :
  url_text verifier = true -> flow_started p verifier (fst (handleOIDCLogin (Some p) verifier (World s e))).
Proof.
  intros Hver. pose proof (wp_run any _ _ _ _ (allows_any e) (wp_handleOIDCLogin any p verifier s Hver)) as Hrun.
  by destruct (handleOIDCLogin (Some p) verifier (World s e)).
Qed.

(** ** Witnesses *)

#[local] Existing Instance Auth.sample_crypto.

(** A provider whose tokens make the claims given, for the nonce of a sign-in that was just started. *)
Definition sample_idp (c : claims) : OIDCLib := {|
  discovered := text;
  oauth_AuthCodeURL := fun o state _ => o_Endpoint o ++ "?state="%string ++ state;
  oauth_Exchange := fun _ code verifier => if bool_decide (code = T "code") && bool_decide (verifier = T "proof") then Ok (Some (T "jwt"))
                                           else Err (EText "invalid_grant"%string);
  id_Verify := fun v _ => Ok {| it_Issuer := v_Provider v; it_Subject := "subject"%string; it_Nonce := "nonce"%string;
                                it_Claims := Ok c; it_Raw := Some {[ T "groups" := AnyList [AnyString (T "Staff"); AnyOther] ]} |};
  flow_Marshal := fun f => Ok (f_State f ++ "."%string ++ f_Nonce f ++ "."%string ++ f_Verifier f);
  flow_Unmarshal := fun raw => match split_byte "."%char raw with
                               | [s; n; v] => Ok {| f_State := s; f_Nonce := n; f_Verifier := v; f_Return := [] |}
                               | _ => Err (EText "invalid flow"%string)
                               end |}.

Definition vouched : claims :=
  {| c_Email := "OP@example.org "%string; c_EmailVerified := Some true; c_Name := []; c_PreferredName := "op"%string;
     c_UPN := []; c_HostedDomain := [] |}.

#[local] Instance sample_lib : OIDCLib := sample_idp vouched.

Definition sample_oidc : OIDCConfig :=
  Build_OIDCConfig true "https://idp.example"%string "client"%string [] [] [] true "viewer"%string [] true false [] [] []
    [T "staff"] [].

Definition sample_sso `{L : OIDCLib} (d : @discovered L) : option Provider :=
  Some (discover d (New sample_oidc "https://mx.example/api/v1/auth/oidc/callback"%string)).

Definition sample_callback : callback :=
  {| cb_error := []; cb_state := "state"%string; cb_code := "code"%string;
     cb_cookie := Some (EncodeToString url_alphabet "state.nonce.proof"%string) |}.

Definition sample_row (id : Z) (email role : text) : User :=
  {| UID := id; Email := email; PasswordHash := "hash"%string; Role := role; AllowedDomains := []; UCreatedAt := 0;
     LastLoginAt := None; OIDC := None; TOTPSecret := []; TOTPEnabled := false; TOTPLastStep := 0 |}.

(** Two administrators. *)
Definition sample_staff : state :=
  set_s_now minute (set_s_users (Users [sample_row 1 "op@example.org"%string RoleAdmin; sample_row 2 "root@example.org"%string RoleAdmin] 3 [] [] [] 1) blank).

Lemma sample_staff_wf : users_wf (s_users sample_staff).
Proof.
  assert (Hd : forall s s' : text, bool_decide (s <> s') = true -> s <> s') by (intros s s'; by apply bool_decide_eq_true).
  split; cbn; unfold has_user; cbn.
  - repeat constructor; set_solver.
  - apply NoDup_cons. split; [|apply NoDup_singleton]. intros E%list_elem_of_singleton. by revert E; apply Hd; vm_compute.
  - intros id [->|[->|[]%not_elem_of_nil]%elem_of_cons]%elem_of_cons; lia.
  - intros x Hx. inv Hx.
  - intros x Hx. inv Hx.
Qed.

Definition sample_env : env := set_e_ids [Some (T "token one")] quiet.

Definition sample_issuer : discovered := T "https://idp.example".

Lemma sso_login_checked_witness :
  let '(rs, w') := handleOIDCCallback sample_account_cfg (sample_sso sample_issuer) sample_request sample_callback
                     (World sample_staff sample_env) in
  rd_location rs = T "/" /\ length (ut_sessions (s_users (st w'))) = 1%nat /\
  rd_flow rs = ClearFlow /\
  match rd_session rs with
  | SetCookie token _ => exists p flow id row,
      sample_sso sample_issuer = Some p /\ Enabled p = true /\
      readOIDCCookie (cb_cookie sample_callback) = Some flow /\ f_State flow = cb_state sample_callback /\
      verified_identity p (cb_code sample_callback) flow id /\
      account_for p id (sr_user row) (s_users sample_staff) /\
      account_bound id (sr_user row) (s_users sample_staff) (s_users (st w')) /\
      ut_sessions (s_users (st w')) = ut_sessions (s_users sample_staff) ++ [row] /\ sr_token row = HashToken token
  | KeepCookie => ut_sessions (s_users (st w')) = ut_sessions (s_users sample_staff)
  | ClearCookie => False
  end.
Proof.
  pose proof (sso_login_checked sample_account_cfg (sample_sso sample_issuer) sample_request sample_callback
    sample_staff sample_env sample_staff_wf) as Hc.
  destruct (handleOIDCCallback sample_account_cfg (sample_sso sample_issuer) sample_request sample_callback
    (World sample_staff sample_env)) as [rs w'] eqn:E.
  vm_compute in E. injection E as <- <-. split; [reflexivity|]. split; [reflexivity|]. exact Hc.
Defined.

Lemma discovery_perseveres_witness :
  let p := New sample_oidc [] in
  let errs := [EText "refused"%string; EText "refused"%string; EText "timeout"%string] in
  let '(p', waits) := Run (map (fun e => Failed e false) errs ++ [Found sample_issuer]) p in
  waits = [15 * second; 30 * second; minute] /\
  Ready p' = (true, None) /\ p_verifier p' = p_verifier (discover sample_issuer p) /\ p_oauth p' = p_oauth (discover sample_issuer p) /\
  length waits = length errs /\
  forall i w, waits !! i = Some w -> w = Z.min (15 * second * 2 ^ Z.of_nat i) (5 * minute).
Proof.
  split; [vm_compute; reflexivity|].
  exact (discovery_perseveres (New sample_oidc []) [EText "refused"%string; EText "refused"%string; EText "timeout"%string]
           sample_issuer [] eq_refl).
Defined.

(** ** What a sign-in does to the account *)

Definition role_after `{OIDCLib} (d : discovered) (id : Z) (s : state) : option text :=
  match UserByID id (s_users (st (snd (handleOIDCCallback sample_account_cfg (sample_sso d) sample_request sample_callback
                                         (World s sample_env))))) with
  | Ok u => Some (Role u)
  | Err _ => None
  end.

(** The role of an identity is never empty, as the default stands in for it: an administrator whose groups name
    no role is made a viewer by signing in. *)
Lemma RoleFromClaims_given `{OIDCLib} p raw : RoleFromClaims p raw <> [].
Proof.
  assert (Hd : DefaultRole p <> []) by (unfold DefaultRole; by case_bool_decide).
  unfold RoleFromClaims. destruct raw; [|done]. by repeat (destruct (in_groups _ _)).
Qed.

Definition ungrouped : OIDCLib := {|
  discovered := text;
  oauth_AuthCodeURL := oauth_AuthCodeURL (OIDCLib := sample_lib);
  oauth_Exchange := oauth_Exchange (OIDCLib := sample_lib);
  id_Verify := fun v _ => Ok {| it_Issuer := v_Provider v; it_Subject := "subject"%string; it_Nonce := "nonce"%string;
                                it_Claims := Ok vouched; it_Raw := Some ∅ |};
  flow_Marshal := flow_Marshal;
  flow_Unmarshal := flow_Unmarshal |}.

Example sso_demotes : role_after (H := ungrouped) (T "https://idp.example") 1 sample_staff = Some StoreUsers.RoleViewer.
Proof. vm_compute. reflexivity. Qed.

(** Without an address the name the user goes by is taken for one, and the claim that vouches for the address
    is taken to vouch for it. *)
Definition nameless : claims :=
  {| c_Email := []; c_EmailVerified := Some true; c_Name := []; c_PreferredName := "root@example.org"%string;
     c_UPN := []; c_HostedDomain := [] |}.

Example sso_takes_the_name :
  map sr_user (ut_sessions (s_users (st (snd (handleOIDCCallback sample_account_cfg
    (sample_sso (L := sample_idp nameless) (T "https://idp.example")) sample_request sample_callback
    (World sample_staff sample_env)))))) = [2].
Proof. vm_compute. reflexivity. Qed.

(** An account bound to the same subject of another issuer is bound anew. *)
Example sso_moves_issuer :
  let bound := with_oidc (Some (T "https://old.example", T "subject")) (sample_row 1 "op@example.org"%string RoleAdmin) in
  let s := set_s_users (Users [bound] 2 [] [] [] 1) sample_staff in
  let w' := snd (handleOIDCCallback sample_account_cfg (sample_sso (L := sample_lib) (T "https://new.example")) sample_request sample_callback
                   (World s sample_env)) in
  map OIDC (ut_users (s_users (st w'))) = [Some (T "https://new.example", T "subject")].
Proof. vm_compute. reflexivity. Qed.
