(* ===== verification/Acme.v ===== *)
(** * Certificates (internal/acme/acme.go, internal/acme/guard.go)

    The guard on requests to the certificate authority, and the manager as a state machine: which
    certificate is served, what the loop of [Run] does with each outcome of [obtain].  The requests
    themselves are autocert's; making the self-signed certificate is the library's and an argument. *)

From S2P Require Import Prelude GoStrings Times Errors Config.
From Stdlib Require Import QArith.
Open Scope Z_scope.

(** ** The guard *)

Definition guardBurst : Z := 120.
Definition guardRefill : Z := 2 * minute.
Definition guardMaxWaitStep : Z := 30 * second.

Record issuanceGuard := Guard { tokens : Z; lastFill : Z }.

Definition newIssuanceGuard (now : Z) : issuanceGuard := Guard guardBurst now.

Definition refill (now : Z) (g : issuanceGuard) : issuanceGuard :=
  let earned := Z.quot (now - lastFill g) guardRefill in
  if 0 <? earned then Guard (if guardBurst <? tokens g + earned then guardBurst else tokens g + earned)
                            (lastFill g + earned * guardRefill)
  else g.

Definition take (now : Z) (g : issuanceGuard) : Z * issuanceGuard :=
  let g := refill now g in
  if 0 <? tokens g then (0, Guard (tokens g - 1) (lastFill g))
  else
    let wait := guardRefill - (now - lastFill g) in
    let wait := if wait <? 0 then 0 else wait in
    (if guardMaxWaitStep <? wait then guardMaxWaitStep else wait, g).

(** When the request goes out: at once, after the wait, or not at all because the context ended first. *)
Definition RoundTrip (now : Z) (ended : bool) (g : issuanceGuard) : option Z * issuanceGuard :=
  let '(wait, g) := take now g in
  if 0 <? wait then (if ended then None else Some (now + wait), g) else (Some now, g).

(** The waits of requests at the times given. *)
Fixpoint takes (times : list Z) (g : issuanceGuard) : list Z * issuanceGuard :=
  match times with
  | [] => ([], g)
  | t :: rest => let '(w, g) := take t g in let '(ws, g) := takes rest g in (w :: ws, g)
  end.

Definition guard_wf (now : Z) (g : issuanceGuard) : Prop := 0 <= tokens g <= guardBurst /\ lastFill g <= now.

(** What may still go out at once by [now]. *)
Definition credit (now : Z) (g : issuanceGuard) : Z := tokens g + (now - lastFill g) / guardRefill.

Lemma guardRefill_val : guardRefill = 120000000000.
Proof. reflexivity. Qed.

Lemma refill_wf now g : guard_wf now g ->
  guard_wf now (refill now g) /\ 0 <= now - lastFill (refill now g) < guardRefill /\
  forall later, now <= later -> credit later (refill now g) <= credit later g.
Proof.
  intros [Ht Hl]. unfold refill, guard_wf, credit. rewrite Z.quot_div_nonneg by (rewrite ?guardRefill_val; lia).
  pose proof (Z.div_mod (now - lastFill g) guardRefill ltac:(done)) as Hd.
  pose proof (Z.mod_pos_bound (now - lastFill g) guardRefill eq_refl) as Hm.
  set (q := (now - lastFill g) / guardRefill) in *.
  destruct (Z.ltb_spec 0 q) as [Hq|Hq]; cbn [tokens lastFill].
  - assert (Hcap : 0 <= (if guardBurst <? tokens g + q then guardBurst else tokens g + q) <= guardBurst /\
                   (if guardBurst <? tokens g + q then guardBurst else tokens g + q) <= tokens g + q).
    { destruct (Z.ltb_spec guardBurst (tokens g + q)); unfold guardBurst in *; lia. }
    split; [lia|]. split; [lia|]. intros later Hlater.
    replace (later - (lastFill g + q * guardRefill)) with (later - lastFill g + - q * guardRefill) by lia.
    rewrite Z.div_add by done. lia.
  - assert (0 <= q) by (apply Z.div_pos; [lia|done]). assert (q = 0) as E by lia. rewrite E in Hd. split_and!; try lia; done.
Qed.

(** A request goes out at once exactly when a token is there, and takes it. *)
Lemma take_spec now g : guard_wf now g ->
  let '(wait, g') := take now g in
  guard_wf now g' /\ 0 <= wait <= guardMaxWaitStep /\
  (if bool_decide (wait = 0) then forall later, now <= later -> credit later g' + 1 <= credit later g
   else forall later, now <= later -> credit later g' <= credit later g).
Proof.
  intros Hwf. apply refill_wf in Hwf as ((Ht & Hl) & Hr & Hc). unfold take. set (g1 := refill now g) in *.
  destruct (Z.ltb_spec 0 (tokens g1)).
  - split; [split; cbn; lia|]. split; [split; [lia|done]|]. rewrite bool_decide_eq_true_2 by done.
    intros later Hlater. specialize (Hc later Hlater). revert Hc. unfold credit. cbn [tokens lastFill]. lia.
  - split; [done|]. rewrite guardRefill_val in *. unfold guardMaxWaitStep. change (30 * second) with 30000000000.
    destruct (Z.ltb_spec (120000000000 - (now - lastFill g1)) 0); [lia|].
    destruct (Z.ltb_spec 30000000000 (120000000000 - (now - lastFill g1))).
    + split; [lia|]. rewrite bool_decide_eq_false_2 by lia. exact Hc.
    + split; [lia|]. rewrite bool_decide_eq_false_2 by lia. exact Hc.
Qed.

(** Times that do not go back, from [now] to [last]. *)
Fixpoint in_order (now : Z) (times : list Z) (last : Z) : Prop :=
  match times with
  | [] => now <= last
  | t :: rest => now <= t /\ in_order t rest last
  end.

Lemma in_order_le now times last : in_order now times last -> now <= last.
Proof. revert now. induction times as [|t times IH]; cbn; [done|]. intros now [H1 H2%IH]. lia. Qed.

Lemma guard_wf_later now later g : now <= later -> guard_wf now g -> guard_wf later g.
Proof. unfold guard_wf. lia. Qed.

Definition at_once (waits : list Z) : Z := Z.of_nat (length (List.filter (fun w => bool_decide (w = 0)) waits)).

Lemma takes_bounded times now last g :
  guard_wf now g -> in_order now times last ->
  let '(waits, g') := takes times g in
  at_once waits + tokens g' <= credit last g /\ Forall (fun w => 0 <= w <= guardMaxWaitStep) waits /\ guard_wf last g'.
Proof.
  revert now g. induction times as [|t times IH]; intros now g Hwf Hin; cbn [takes in_order] in *.
  - apply (guard_wf_later _ last) in Hwf; [|done]. split_and!; [|constructor|done]. unfold at_once, credit. cbn.
    assert (0 <= (last - lastFill g) / guardRefill) by (apply Z.div_pos; [destruct Hwf; lia|done]). lia.
  - destruct Hin as [Hnow Hin]. apply (guard_wf_later _ t) in Hwf; [|done]. apply take_spec in Hwf.
    destruct (take t g) as [w g1]. destruct Hwf as (Hwf1 & Hw & Hc). pose proof (in_order_le _ _ _ Hin) as Hlast.
    specialize (IH t g1 Hwf1 Hin). destruct (takes times g1) as [ws g2]. destruct IH as (IH1 & IH2 & IH3).
    split_and!; [|by constructor|done]. unfold at_once in *. cbn [List.filter].
    destruct (bool_decide (w = 0)); specialize (Hc last Hlast); cbn [length]; lia.
Qed.

(** Whatever is asked of the certificate authority and when, the requests let through at once since the start
    are at most the burst and one more for every two minutes gone by; any other is held back, for no
    longer than thirty seconds. *)
Theorem issuance_bounded start times last :
  in_order start times last ->
  let '(waits, g) := takes times (newIssuanceGuard start) in
  at_once waits <= guardBurst + (last - start) / guardRefill /\ length waits = length times /\
  Forall (fun w => 0 <= w <= guardMaxWaitStep) waits.
Proof.
  intros Hin. assert (Hwf : guard_wf start (newIssuanceGuard start)) by (split; cbn; [done|lia]).
  pose proof (takes_bounded times start last _ Hwf Hin) as Hb.
  assert (Hlen : forall ts g, length (fst (takes ts g)) = length ts).
  { clear. induction ts as [|t ts IH]; intros g; cbn; [done|]. destruct (take t g) as [w g1]. specialize (IH g1).
    destruct (takes ts g1). cbn in *. congruence. }
  specialize (Hlen times (newIssuanceGuard start)).
  destruct (takes times (newIssuanceGuard start)) as [waits g]. destruct Hb as (Hb & Hw & (Ht & _)).
  unfold credit in Hb. cbn in Hb, Hlen. split_and!; [lia|done|done].
Qed.

Lemma issuance_bounded_witness :
  in_order 0 (replicate 125 0 ++ [minute; 5 * minute]) (6 * minute) /\
  let '(waits, g) := takes (replicate 125 0 ++ [minute; 5 * minute]) (newIssuanceGuard 0) in
  at_once waits = 121 /\
  at_once waits <= guardBurst + (6 * minute - 0) / guardRefill /\ length waits = length (replicate 125 0 ++ [minute; 5 * minute]) /\
  Forall (fun w => 0 <= w <= guardMaxWaitStep) waits.
Proof.
  assert (Hin : in_order 0 (replicate 125 0 ++ [minute; 5 * minute]) (6 * minute)) by (cbn; repeat split; done).
  split; [exact Hin|]. pose proof (issuance_bounded 0 _ _ Hin) as Hb.
  destruct (takes (replicate 125 0 ++ [minute; 5 * minute]) (newIssuanceGuard 0)) as [waits g] eqn:E.
  split; [|exact Hb]. apply (f_equal fst) in E. vm_compute in E. subst waits. vm_compute. reflexivity.
Defined.

(** A request that was held back goes out after its wait without a token: of a thousand at once none is later than
    thirty seconds. *)
Fixpoint round_trips (n : nat) (now : Z) (g : issuanceGuard) : list (option Z) :=
  match n with
  | O => []
  | S n => let '(at_, g) := RoundTrip now false g in at_ :: round_trips n now g
  end.

Example waiting_takes_no_token :
  forallb (fun at_ => match at_ with Some t => t <=? 30 * second | None => false end)
    (round_trips 1000 0 (newIssuanceGuard 0)) = true.
Proof. vm_compute. reflexivity. Qed.

(** ** The manager *)

Definition SourceACME : text := "acme"%string.
Definition SourceSelfSigned : text := "self-signed"%string.

Definition retryInitial : Z := 5 * minute.
Definition retryMax : Z := hour.
Definition refreshInterval : Z := 6 * hour.
Definition defaultRenewBefore : Z := 30 * 24 * hour.

(** A certificate is the chain of its encodings, with the key at the library. *)
Record Manager := {
  m_domains : list text;
  m_primary : text;
  m_renewBefore : Z;
  m_issued : option (list text);
  m_fallback : list text;
  m_source : text;
  m_since : Z;
  m_lastErr : text
}.

(** [mkdir] is how making the cache directory failed, [selfSigned] the interim certificate made for the domains,
    or the error. *)
Definition New (cfg : ACMEConfig) (mkdir : option error) (selfSigned : list text -> result (list text)) (now : Z) : result Manager :=
  let domains := map (fun d => to_lower (trim_space d)) (ACME_Domains cfg) in
  match domains with
  | [] => Err (EText "acme: no domains configured"%string)
  | primary :: _ =>
      match mkdir with
      | Some e => Err (EWrap "acme: create cache dir"%string e)
      | None =>
      match selfSigned domains with
      | Err e => Err (EWrap "acme: generate the interim certificate"%string e)
      | Ok cert => Ok {| m_domains := domains; m_primary := primary;
                         m_renewBefore := if ACME_RenewBefore cfg <=? 0 then defaultRenewBefore else ACME_RenewBefore cfg;
                         m_issued := None; m_fallback := cert; m_source := SourceSelfSigned; m_since := now; m_lastErr := [] |}
      end
      end
  end.

(** What is served to a handshake that is not the authority's own check, which autocert answers. *)
Definition getCertificate (challenge : option (result (list text))) (m : Manager) : result (list text) :=
  match challenge with
  | Some answer => answer
  | None => Ok (default (m_fallback m) (m_issued m))
  end.

Definition adopt (cert : list text) (now : Z) (m : Manager) : bool * Manager :=
  (negb (bool_decide (m_issued m = Some cert)),
   {| m_domains := m_domains m; m_primary := m_primary m; m_renewBefore := m_renewBefore m; m_issued := Some cert;
      m_fallback := m_fallback m; m_source := SourceACME;
      m_since := match m_issued m with None => now | Some _ => m_since m end; m_lastErr := [] |}).

Definition recordFailure (msg : text) (m : Manager) : Manager :=
  {| m_domains := m_domains m; m_primary := m_primary m; m_renewBefore := m_renewBefore m; m_issued := m_issued m;
     m_fallback := m_fallback m; m_source := m_source m; m_since := m_since m; m_lastErr := msg |}.

(** An attempt of [obtain]: what it gives, the time then, and whether the context ends during the sleep after it. *)
Record attempt := { at_result : text + list text; at_now : Z; at_ended : bool }.

Fixpoint run_loop (delay : Z) (attempts : list attempt) (m : Manager) : Manager * list Z :=
  match attempts with
  | [] => (m, [])
  | a :: rest =>
      let '(m, wait, next) :=
        match at_result a with
        | inr cert => (snd (adopt cert (at_now a) m), refreshInterval, retryInitial)
        | inl msg => (recordFailure msg m, delay, Z.min (delay * 2) retryMax)
        end in
      if at_ended a then (m, [wait])
      else let '(m, waits) := run_loop next rest m in (m, wait :: waits)
  end.

Definition Run : list attempt -> Manager -> Manager * list Z := run_loop retryInitial.

(** The attempts made, and the certificate of the last that gave one. *)
Fixpoint made (attempts : list attempt) : list attempt :=
  match attempts with
  | [] => []
  | a :: rest => if at_ended a then [a] else a :: made rest
  end.

Definition newest (attempts : list attempt) (before : option (list text)) : option (list text) :=
  fold_left (fun c a => match at_result a with inr cert => Some cert | inl _ => c end) attempts before.

(** A failure takes no certificate away: handshakes get the newest obtained, or the interim one while there is
    none; the next attempt comes within an hour of a failure and six hours of a success, never within five minutes. *)
Theorem newest_served attempts m delay :
  retryInitial <= delay <= retryMax ->
  let '(m', waits) := run_loop delay attempts m in
  getCertificate None m' = Ok (default (m_fallback m) (newest (made attempts) (m_issued m))) /\
  length waits = length (made attempts) /\ Forall (fun w => retryInitial <= w <= refreshInterval) waits.
Proof.
  revert delay m. induction attempts as [|a rest IH]; intros delay m Hd; cbn [run_loop made newest fold_left];
    [split_and!; try done; constructor|].
  assert (Hrange : retryInitial <= delay <= refreshInterval) by (change retryMax with 3600000000000 in Hd; change refreshInterval with 21600000000000; lia).
  assert (Hnext : retryInitial <= Z.min (delay * 2) retryMax <= retryMax).
  { change retryMax with 3600000000000 in *. change retryInitial with 300000000000 in *. lia. }
  destruct (at_result a) as [msg|cert] eqn:Ea; destruct (at_ended a); cbn [newest fold_left]; rewrite ?Ea.
  - split_and!; [done..|]. apply Forall_singleton. done.
  - specialize (IH _ (recordFailure msg m) Hnext). destruct (run_loop _ rest _) as [m' waits].
    destruct IH as (-> & Hl & Hw). split_and!; [done|cbn; lia|]. by apply Forall_cons.
  - split_and!; [done..|]. apply Forall_singleton. done.
  - specialize (IH retryInitial (snd (adopt cert (at_now a) m)) ltac:(split; done)).
    destruct (run_loop _ rest _) as [m' waits]. destruct IH as (-> & Hl & Hw).
    split_and!; [done|cbn; lia|]. by apply Forall_cons.
Qed.
