(* ===== verification/Hub.v ===== *)
(** * The hub of live events (internal/api/hub.go)

    Channels with their buffers, the set of open dashboards, and the calls on the hub as steps that interleave:
    [Notify] holds the lock for reading, so several of them send at the same time, while [subscribe], its
    returned function and [Close] wait until none does. *)

From S2P Require Import Prelude StoreTypes StoreDomains.
From stdpp Require Import gmap.
Open Scope Z_scope.

(** The type of an event, when it was notified, and its payload. *)
Record hub_event := HubEvent { he_type : text; he_at : Z; he_payload : jmap }.

Record channel := Channel { ch_buf : list hub_event; ch_closed : bool }.

Definition buffer_size : nat := 32.

(** [h_calls] are the calls of [Notify] under way, each with the clients it has still to send to; [h_left] the
    subscriptions whose returned function has run. *)
Record Hub := {
  h_channels : gmap nat channel;
  h_clients : gset nat;
  h_closed : bool;
  h_calls : gmap nat (hub_event * gset nat);
  h_left : gset nat;
  h_next : nat;
  h_next_call : nat
}.

Definition NewHub : Hub := Build_Hub ∅ ∅ false ∅ ∅ 0 0.

(** A call may have to wait, or panic as an operation on a closed channel does. *)
Inductive outcome := Next (h : Hub) | Waits | Panics.

(** [close]. *)
Definition close (id : nat) (chans : gmap nat channel) : option (gmap nat channel) :=
  match chans !! id with
  | Some (Channel buf false) => Some (<[id := Channel buf true]> chans)
  | _ => None
  end.

Fixpoint close_all (ids : list nat) (chans : gmap nat channel) : option (gmap nat channel) :=
  match ids with
  | [] => Some chans
  | id :: rest => match close id chans with Some chans => close_all rest chans | None => None end
  end.

(** [select { case ch <- ev: default: }]. *)
Definition try_send (id : nat) (ev : hub_event) (chans : gmap nat channel) : option (gmap nat channel) :=
  match chans !! id with
  | Some (Channel buf false) =>
      Some (if (length buf <? buffer_size)%nat then <[id := Channel (buf ++ [ev]) false]> chans else chans)
  | _ => None
  end.

(** The writers' lock. *)
Definition exclusive (h : Hub) (next : outcome) : outcome := if bool_decide (h_calls h = ∅) then next else Waits.

Definition subscribe (h : Hub) : outcome :=
  exclusive h
    (if h_closed h then Next (Build_Hub (<[h_next h := Channel [] true]> (h_channels h)) (h_clients h) true (h_calls h)
                                (h_left h) (S (h_next h)) (h_next_call h))
     else Next (Build_Hub (<[h_next h := Channel [] false]> (h_channels h)) ({[h_next h]} ∪ h_clients h) false (h_calls h)
                  (h_left h) (S (h_next h)) (h_next_call h))).

(** The function [subscribe] returned for a channel. *)
Definition unsubscribe (id : nat) (h : Hub) : outcome :=
  if bool_decide (id ∈ h_left h) then Next h
  else exclusive h
    (if bool_decide (id ∈ h_clients h) then
       match close id (h_channels h) with
       | Some chans => Next (Build_Hub chans (h_clients h ∖ {[id]}) (h_closed h) (h_calls h) ({[id]} ∪ h_left h) (h_next h) (h_next_call h))
       | None => Panics
       end
     else Next (Build_Hub (h_channels h) (h_clients h) (h_closed h) (h_calls h) ({[id]} ∪ h_left h) (h_next h) (h_next_call h))).

Definition Close (h : Hub) : outcome :=
  exclusive h
    (if h_closed h then Next h
     else match close_all (elements (h_clients h)) (h_channels h) with
          | Some chans => Next (Build_Hub chans ∅ true (h_calls h) (h_left h) (h_next h) (h_next_call h))
          | None => Panics
          end).

(** [Notify] begins, sends to one of the clients left, and ends. *)
Definition notify_begin (ev : hub_event) (h : Hub) : outcome :=
  if h_closed h || bool_decide (h_clients h = ∅) then Next h
  else Next (Build_Hub (h_channels h) (h_clients h) (h_closed h) (<[h_next_call h := (ev, h_clients h)]> (h_calls h))
               (h_left h) (h_next h) (S (h_next_call h))).

Definition notify_send (call id : nat) (h : Hub) : outcome :=
  match h_calls h !! call with
  | Some (ev, left_) =>
      if bool_decide (id ∈ left_) then
        match try_send id ev (h_channels h) with
        | Some chans => Next (Build_Hub chans (h_clients h) (h_closed h) (<[call := (ev, left_ ∖ {[id]})]> (h_calls h))
                                (h_left h) (h_next h) (h_next_call h))
        | None => Panics
        end
      else Next h
  | None => Next h
  end.

Definition notify_end (call : nat) (h : Hub) : outcome :=
  match h_calls h !! call with
  | Some (_, left_) =>
      if bool_decide (left_ = ∅) then
        Next (Build_Hub (h_channels h) (h_clients h) (h_closed h) (delete call (h_calls h)) (h_left h) (h_next h) (h_next_call h))
      else Next h
  | None => Next h
  end.

(** A dashboard takes the oldest event of its channel. *)
Definition receive (id : nat) (h : Hub) : outcome :=
  match h_channels h !! id with
  | Some (Channel (_ :: buf) c) =>
      Next (Build_Hub (<[id := Channel buf c]> (h_channels h)) (h_clients h) (h_closed h) (h_calls h) (h_left h) (h_next h) (h_next_call h))
  | _ => Waits
  end.

Definition clientCount (h : Hub) : nat := size (h_clients h).

(** ** Any interleaving of calls *)

Inductive action :=
| Subscribe | Unsubscribe (id : nat) | CloseHub | Begin (ev : hub_event) | SendTo (call id : nat) | EndCall (call : nat)
| Receive (id : nat).

Definition act (a : action) : Hub -> outcome :=
  match a with
  | Subscribe => subscribe
  | Unsubscribe id => unsubscribe id
  | CloseHub => Close
  | Begin ev => notify_begin ev
  | SendTo call id => notify_send call id
  | EndCall call => notify_end call
  | Receive id => receive id
  end.

Inductive reachable : Hub -> Prop :=
| reach_new : reachable NewHub
| reach_step h a h' : reachable h -> act a h = Next h' -> reachable h'.

(** Clients have open channels, a call under way sends to clients only, buffers keep their size, and a hub that is
    closed has no client. *)
Record hub_wf (h : Hub) : Prop := {
  hw_open id : id ∈ h_clients h -> exists buf, h_channels h !! id = Some (Channel buf false);
  hw_calls call ev left_ : h_calls h !! call = Some (ev, left_) -> left_ ⊆ h_clients h;
  hw_size id ch : h_channels h !! id = Some ch -> (length (ch_buf ch) <= buffer_size)%nat;
  hw_closed : h_closed h = true -> h_clients h = ∅;
  hw_next id : (h_next h <= id)%nat -> h_channels h !! id = None
}.

Lemma close_Some id chans buf : chans !! id = Some (Channel buf false) -> close id chans = Some (<[id := Channel buf true]> chans).
Proof. intros E. unfold close. by rewrite E. Qed.

(** Closing touches no other channel and keeps every buffer. *)
Definition same_buffers (chans chans' : gmap nat channel) : Prop :=
  forall id, ch_buf <$> chans' !! id = ch_buf <$> chans !! id.

Lemma close_all_open ids chans :
  NoDup ids -> (forall id, id ∈ ids -> exists buf, chans !! id = Some (Channel buf false)) ->
  exists chans', close_all ids chans = Some chans' /\ same_buffers chans chans'.
Proof.
  revert chans. induction ids as [|id ids IH]; intros chans Hnd Hopen; cbn [close_all]; [by exists chans|].
  apply NoDup_cons in Hnd as [Hnot Hnd]. destruct (Hopen id) as [buf Hid]; [by left|]. rewrite (close_Some _ _ buf) by done.
  destruct (IH (<[id := Channel buf true]> chans)) as (chans' & -> & Hsame); [done| |].
  - intros j Hj. rewrite lookup_insert_ne by (by intros <-). apply Hopen. by right.
  - exists chans'. split; [done|]. intros j. rewrite (Hsame j). destruct (decide (j = id)) as [->|Hne].
    + by rewrite lookup_insert_eq, Hid.
    + by rewrite lookup_insert_ne.
Qed.

Lemma same_buffers_size chans chans' id ch :
  same_buffers chans chans' -> (forall id ch, chans !! id = Some ch -> (length (ch_buf ch) <= buffer_size)%nat) ->
  chans' !! id = Some ch -> (length (ch_buf ch) <= buffer_size)%nat.
Proof.
  intros Hsame Hsize Hid. specialize (Hsame id). rewrite Hid in Hsame. cbn in Hsame.
  destruct (chans !! id) as [ch0|] eqn:E; [|done]. injection Hsame as ->. by eapply Hsize.
Qed.

(** What a step may come to. *)
Definition keeps_sound (o : outcome) : Prop := match o with Next h => hub_wf h | Waits => True | Panics => False end.

Lemma exclusive_sound h o : (h_calls h = ∅ -> keeps_sound o) -> keeps_sound (exclusive h o).
Proof. unfold exclusive. case_bool_decide; cbn; auto. Qed.

Section steps.
Context (h : Hub) (Hwf : hub_wf h).

Lemma subscribe_sound : keeps_sound (subscribe h).
Proof using Hwf.
  destruct Hwf as [Hopen Hcalls Hsize Hcl Hnext]. apply exclusive_sound. intros Hnone.
  assert (Hsize' : forall c id ch, <[h_next h := Channel [] c]> (h_channels h) !! id = Some ch -> (length (ch_buf ch) <= buffer_size)%nat).
  { intros c id ch [[_ <-]|[_ ?]]%lookup_insert_Some; [cbn; lia|eauto]. }
  assert (Hnext' : forall c id, (S (h_next h) <= id)%nat -> <[h_next h := Channel [] c]> (h_channels h) !! id = None).
  { intros c id Hid. rewrite lookup_insert_ne by lia. apply Hnext. lia. }
  destruct (h_closed h) eqn:Ec; split; cbn; eauto.
  - rewrite Hcl by done. set_solver.
  - intros id Hid. destruct (decide (id = h_next h)) as [->|Hne]; [exists []; by rewrite lookup_insert_eq|].
    rewrite lookup_insert_ne by done. apply Hopen. set_solver.
  - intros call ev left_. by rewrite Hnone, lookup_empty.
  - done.
Qed.

Lemma unsubscribe_sound id : keeps_sound (unsubscribe id h).
Proof using Hwf.
  unfold unsubscribe. case_bool_decide; [done|]. apply exclusive_sound. intros Hnone. destruct Hwf as [Hopen Hcalls Hsize Hcl Hnext].
  case_bool_decide as Hin; [|by split].
  destruct (Hopen id Hin) as [buf Hid]. rewrite (close_Some _ _ buf) by done. split; cbn.
  - intros j Hj. rewrite lookup_insert_ne by set_solver. apply Hopen. set_solver.
  - intros call ev left_. by rewrite Hnone, lookup_empty.
  - intros j ch [[_ <-]|[_ ?]]%lookup_insert_Some; [by apply (Hsize id (Channel buf false))|eauto].
  - intros Hc. apply Hcl in Hc. set_solver.
  - intros j Hj. rewrite lookup_insert_ne; [auto|]. intros <-. by rewrite Hnext in Hid.
Qed.

Lemma Close_sound : keeps_sound (Close h).
Proof using Hwf.
  apply exclusive_sound. intros Hnone. destruct (h_closed h); [done|]. destruct Hwf as [Hopen Hcalls Hsize Hcl Hnext].
  destruct (close_all_open (elements (h_clients h)) (h_channels h)) as (chans & -> & Hsame).
  { apply NoDup_elements. }
  { intros id Hid%elem_of_elements. auto. }
  split; cbn.
  - set_solver.
  - intros call ev left_. by rewrite Hnone, lookup_empty.
  - intros id ch Hid. by apply (same_buffers_size _ _ id ch Hsame).
  - done.
  - intros id Hid. specialize (Hsame id). rewrite (Hnext id Hid) in Hsame. by destruct (chans !! id).
Qed.

Lemma notify_begin_sound ev : keeps_sound (notify_begin ev h).
Proof using Hwf.
  unfold notify_begin. destruct (_ || _); [done|]. destruct Hwf as [Hopen Hcalls Hsize Hcl Hnext]. split; cbn; eauto.
  intros call ev' left_ [[_ [= _ <-]]|[_ ?]]%lookup_insert_Some; [done|eauto].
Qed.

Lemma notify_send_sound call id : keeps_sound (notify_send call id h).
Proof using Hwf.
  unfold notify_send. destruct (h_calls h !! call) as [[ev left_]|] eqn:Ecall; [|done]. case_bool_decide as Hin; [|done].
  destruct Hwf as [Hopen Hcalls Hsize Hcl Hnext]. pose proof (Hcalls call ev left_ Ecall) as Hsub.
  destruct (Hopen id (Hsub id Hin)) as [buf Hid]. unfold try_send. rewrite Hid.
  assert (Hcalls' : forall c e l, <[call := (ev, left_ ∖ {[id]})]> (h_calls h) !! c = Some (e, l) -> l ⊆ h_clients h).
  { intros c e l [[_ [= _ <-]]|[_ ?]]%lookup_insert_Some; [set_solver|eauto]. }
  destruct (Nat.ltb_spec (length buf) buffer_size); split; cbn; eauto.
  - intros j Hj. destruct (decide (j = id)) as [->|]; [rewrite lookup_insert_eq; eauto|rewrite lookup_insert_ne by done; auto].
  - intros j ch [[_ <-]|[_ ?]]%lookup_insert_Some; [cbn; rewrite length_app; cbn; lia|eauto].
  - intros j Hj. rewrite lookup_insert_ne; [auto|]. intros <-. by rewrite Hnext in Hid.
Qed.

Lemma notify_end_sound call : keeps_sound (notify_end call h).
Proof using Hwf.
  unfold notify_end. destruct (h_calls h !! call) as [[ev left_]|]; [|done]. case_bool_decide; [|done].
  destruct Hwf as [Hopen Hcalls Hsize Hcl Hnext]. split; cbn; eauto.
  intros c e l [_ ?]%lookup_delete_Some. eauto.
Qed.

Lemma receive_sound id : keeps_sound (receive id h).
Proof using Hwf.
  unfold receive. destruct (h_channels h !! id) as [[[|e buf] c]|] eqn:Hid; [done| |done].
  destruct Hwf as [Hopen Hcalls Hsize Hcl Hnext]. split; cbn; eauto.
  - intros j Hj. destruct (Hopen j Hj) as [b Hb]. destruct (decide (j = id)) as [->|]; [|rewrite lookup_insert_ne by done; eauto].
    rewrite lookup_insert_eq. assert (c = false) as -> by congruence. eauto.
  - intros j ch [[_ <-]|[_ ?]]%lookup_insert_Some; [|eauto]. specialize (Hsize id _ Hid). cbn in *. lia.
  - intros j Hj. rewrite lookup_insert_ne; [auto|]. intros <-. by rewrite Hnext in Hid.
Qed.

Lemma act_sound a : keeps_sound (act a h).
Proof using Hwf.
  destruct a; cbn [act]; auto using subscribe_sound, unsubscribe_sound, Close_sound, notify_begin_sound, notify_send_sound,
    notify_end_sound, receive_sound.
Qed.
End steps.

Lemma reachable_wf h : reachable h -> hub_wf h.
Proof.
  induction 1 as [|h a h' _ IH E].
  - split; cbn; try done; intros; by rewrite ?lookup_empty in *.
  - pose proof (act_sound h IH a) as Hs. by rewrite E in Hs.
Qed.

(** C35: in any interleaving of subscriptions, departures, notifications and the shutdown, no call sends on or closes a
    closed channel, a notification never waits for a dashboard, a dashboard has at most thirty-two events waiting and
    an open channel as long as it is subscribed, and after the shutdown there are none. *)
Theorem hub_safe h a :
  reachable h ->
  act a h <> Panics /\
  (forall ev call id, notify_begin ev h <> Waits /\ notify_send call id h <> Waits /\ notify_end call h <> Waits) /\
  (forall id ch, h_channels h !! id = Some ch -> (length (ch_buf ch) <= buffer_size)%nat) /\
  (forall id, id ∈ h_clients h -> exists buf, h_channels h !! id = Some (Channel buf false)) /\
  (h_closed h = true -> clientCount h = 0%nat).
Proof.
  intros Hr%reachable_wf. pose proof (act_sound h Hr a) as Hs. split_and!.
  - intros E. by rewrite E in Hs.
  - intros ev call id. split_and!; unfold notify_begin, notify_send, notify_end; repeat case_match; done.
  - apply Hr.
  - apply Hr.
  - intros Hc. unfold clientCount. by rewrite (hw_closed h Hr Hc), size_empty.
Qed.

(** A dashboard leaves while the hub shuts down: the second of the two waits, then finds nothing to do. *)
Definition run_actions (l : list action) (h : Hub) : Hub :=
  fold_left (fun h a => match act a h with Next h' => h' | _ => h end) l h.

Lemma run_actions_reachable l h : reachable h -> reachable (run_actions l h).
Proof.
  revert h. induction l as [|a l IH]; intros h Hr; [done|]. cbn. apply IH. destruct (act a h) eqn:E; [|done..].
  by eapply reach_step.
Qed.

Definition sample_event : hub_event := HubEvent "login"%string 0 [].
Definition sample_shutdown : Hub :=
  run_actions [Subscribe; Subscribe; Begin sample_event; SendTo 0 0; CloseHub; SendTo 0 1; EndCall 0; CloseHub] NewHub.

Lemma hub_safe_witness :
  ch_closed <$> h_channels sample_shutdown !! 0%nat = Some true /\
  (length ∘ ch_buf <$> h_channels sample_shutdown !! 1%nat) = Some 1%nat /\
  act (Unsubscribe 0) sample_shutdown <> Panics /\
  (forall ev call id, notify_begin ev sample_shutdown <> Waits /\ notify_send call id sample_shutdown <> Waits /\
                      notify_end call sample_shutdown <> Waits) /\
  (forall id ch, h_channels sample_shutdown !! id = Some ch -> (length (ch_buf ch) <= buffer_size)%nat) /\
  (forall id, id ∈ h_clients sample_shutdown -> exists buf, h_channels sample_shutdown !! id = Some (Channel buf false)) /\
  (h_closed sample_shutdown = true -> clientCount sample_shutdown = 0%nat).
Proof.
  split; [vm_compute; reflexivity|]. split; [vm_compute; reflexivity|].
  apply (hub_safe sample_shutdown (Unsubscribe 0)). apply run_actions_reachable, reach_new.
Defined.
