(* ===== verification/Server.v ===== *)
(** * The administration server: which request reaches which handler, behind which guard (internal/api/api.go)

    The table of routes with the handlers of every other file, the mux that looks a request up in
    it, the stream of live events, the check of the origin and the headers every reply carries;
    and the theorem that only administrators configure the server. *)

From S2P Require Import Prelude GoStrings Base64 Times Net Errors StoreTypes StoreQueue StoreDomains Filter Routes StoreUsers.
From S2P Require Import UserProps StoreWebhooks Auth RateLimit SmtpClient Dkim Dmarc Dnsbl Clamav Spam World Blob Webhook Api ApiProps Account AccountProps.
From S2P Require Import Pages PagesProps UserPages RulePages OutboundPages HookPages StatusPages ConfigIO Cluster ClusterPages Oidc Hub Metrics.
From Stdlib Require Import QArith.
Open Scope Z_scope.

(** What decoding a body into each type gives, with unknown fields refused; [None] is an error. *)
Class BodyLib := {
  decode_setup : text -> option setupRequest;
  decode_login : text -> option loginRequest;
  decode_password : text -> option changePasswordReq;
  decode_totp_password : text -> option text;
  decode_totp_code : text -> option text;
  decode_confirm : text -> option confirmReq;
  decode_domain : text -> option domainRequest;
  decode_recipients : text -> option (list text);
  decode_smtp_user : text -> option smtpUserRequest;
  decode_dkim : text -> option dkimRequest;
  decode_route : text -> option routeRequest;
  decode_filter : text -> option filterRequest;
  decode_filter_test : text -> option filterTestRequest;
  decode_dnsbl : text -> option text;
  decode_token : text -> option tokenRequest;
  decode_new_user : text -> option createUserReq;
  decode_user : text -> option updateUserReq;
  decode_webhook : text -> option webhookRequest;
  decode_drain : text -> option (option bool)
}.

(** A request as the mux sees it: the segments of its clean path, its query parameters (empty when absent), its
    body, the cookie of a sign-in under way, and what a signed call of a peer carries. *)
Record http_request := {
  hr_request : request;
  hr_path : list text;
  hr_query : text -> text;
  hr_body : text;
  hr_length : Z;                         (* the Content-Length, -1 when unknown *)
  hr_flow : option text;
  hr_peer : peer_request
}.

(** What the process told the server, and what other parts of it answer while it serves. *)
Record ServerConfig `{OIDCLib} := {
  sv_account : AccountConfig;
  sv_pages : PagesConfig;
  sv_status : StatusConfig;
  sv_secure : bool;                      (* it has a certificate *)
  sv_global : text * text;               (* mode and relay of the outbound settings *)
  sv_sso : option Provider;
  sv_cluster : option Member;
  sv_hooks : bool;
  sv_node : text;
  sv_dnsbl : option Checker;
  sv_clamav : option ClamAVConfig;
  sv_spam : option SpamConfig;
  sv_metrics : option (text * CollectorInfo);   (* the token of the metrics, and their collector, when they are on *)
  sv_range : forall A, list (text * A) -> list (text * A)
}.

Record surroundings := {
  su_clients : Z;                        (* dashboards connected *)
  su_disk : option (result Z);
  su_certificate : option CertificateState;
  su_ping : option error;
  su_lookup : text -> result (list text);
  su_arrivals : list text;
  su_events : list hub_event;            (* what a dashboard's channel gives until it closes *)
  su_verifier : text;                    (* what [oauth2.GenerateVerifier] makes up *)
  su_writes : list (option (nat * error))  (* how writes of the metrics go *)
}.

Inductive reply :=
| Page (rs : response)
| Redirected (rd : redirect)
| Site                                   (* the embedded site, or a redirection of the mux *)
| MetricsPage (body : option text).      (* [None]: unauthorised *)

Definition maxConfigBytes : Z := 2 ^ 20.
Definition within (limit : Z) (body : text) : option text := if limit <? Z.of_nat (length body) then None else Some body.

Definition security_headers (secure : bool) : list (text * text) :=
  [(T "Content-Security-Policy",
    T "default-src 'self'; img-src 'self' data:; style-src 'self' 'unsafe-inline'; connect-src 'self'; frame-ancestors 'none'; base-uri 'none'; form-action 'self'");
   (T "X-Content-Type-Options", T "nosniff"); (T "X-Frame-Options", T "DENY"); (T "Referrer-Policy", T "no-referrer");
   (T "Cache-Control", T "no-store")]
  ++ if secure then [(T "Strict-Transport-Security", T "max-age=31536000; includeSubDomains")] else [].

(** ** Patterns *)

Definition wildcard : text := "{id}"%string.

(** The segments of a pattern; the first is what precedes the leading slash. *)
Definition segments (pattern : text) : list text := tail (split_byte "/"%char pattern).

(** The value of [{id}], empty in a pattern without one; a wildcard takes a segment that is not empty. *)
Fixpoint match_path (pattern path : list text) : option text :=
  match pattern, path with
  | [], [] => Some []
  | p :: pattern, s :: path =>
      if bool_decide (p = wildcard) then
        if bool_decide (s = []) then None else match match_path pattern path with Some _ => Some s | None => None end
      else if bool_decide (p = s) then match_path pattern path
      else None
  | _, _ => None
  end.

(** A pattern for GET is one for HEAD. *)
Definition match_method (pattern method : text) : bool :=
  bool_decide (pattern = method) || bool_decide (pattern = T "GET") && bool_decide (method = T "HEAD").

Section server.
Context `{SmtpLib} `{PasswordCrypto} `{AEAD} `{QRLib} `{RegexpLib} `{DohLib} `{DmarcLib} `{KeyGenLib} `{HttpLib} `{AddressLib}.
Context `{YamlLib} `{WireLib} `{OIDCLib} `{UrlLib} `{BodyLib}.
Context (sv : ServerConfig) (now : surroundings).

(** ** The stream of live events *)

Fixpoint live_loop (u : User) (events : list hub_event) : M (list hub_event) :=
  match events with
  | [] => ret []
  | ev :: rest =>
      let* visible := liveVisible (Some u) (he_type ev, he_payload ev) in
      let* seen := live_loop u rest in
      ret (if visible : bool then ev :: seen else seen)
  end.

Definition event_json (ev : hub_event) : jval :=
  JObj ([(T "type", JStr (he_type ev)); (T "at", JTime (he_at ev))]
        ++ if bool_decide (he_payload ev = []) then [] else [(T "payload", JObj (he_payload ev))]).

Definition handleLive (p : principal) (r : request) : M response :=
  let* seen := live_loop (p_user p) (su_events now) in
  ret (ok 200 [(T "data", JList (map event_json seen))]).

(** ** The table *)

Record route := Route { rt_method : text; rt_pattern : list text; rt_handler : http_request -> text -> M reply }.

Definition page (m : M response) : M reply := let* rs := m in ret (Page rs).
Definition redirected (m : M redirect) : M reply := let* rd := m in ret (Redirected rd).

(** A page that is not guarded, and one behind a guard: [guard] is one of [authed], [admin], [operator], [fleetWide]. *)
Definition open_page (h : http_request -> M response) (rq : http_request) (_ : text) : M reply := page (h rq).
Definition guarded (guard : (principal -> request -> M response) -> request -> M response)
  (h : http_request -> text -> principal -> request -> M response) (rq : http_request) (id : text) : M reply :=
  page (guard (h rq id) (hr_request rq)).

Definition GET (pattern : text) := Route "GET"%string (segments pattern).
Definition POST (pattern : text) := Route "POST"%string (segments pattern).
Definition PUT (pattern : text) := Route "PUT"%string (segments pattern).
Definition PATCH (pattern : text) := Route "PATCH"%string (segments pattern).
Definition DELETE (pattern : text) := Route "DELETE"%string (segments pattern).

Definition queue_query (rq : http_request) : queueQuery :=
  let q := fun k : string => hr_query rq k in
  {| qq_status := q "status"%string; qq_direction := q "direction"%string; qq_limit := q "limit"%string;
     qq_offset := q "offset"%string; qq_domain := q "domain_id"%string; qq_quarantined := q "quarantined"%string |}.

Definition callback_of (rq : http_request) : callback :=
  {| cb_error := hr_query rq "error"%string; cb_state := hr_query rq "state"%string; cb_code := hr_query rq "code"%string;
     cb_cookie := hr_flow rq |}.

#[local] Instance source : ConfigSource := server_source (sv_pages sv) (sv_range sv).

Definition account_routes : list route := [
  GET "/api/v1/setup"%string (open_page (fun rq => handleSetupStatus (sv_status sv) (hr_request rq)));
  POST "/api/v1/setup"%string (open_page (fun rq => handleSetup (sv_account sv) (hr_request rq) (decode_setup (hr_body rq))));
  POST "/api/v1/auth/login"%string (open_page (fun rq => handleLogin (sv_account sv) (hr_request rq) (decode_login (hr_body rq))));
  POST "/api/v1/auth/logout"%string (guarded authed (fun _ _ => handleLogout));
  GET "/api/v1/auth/me"%string (guarded authed (fun _ _ => handleMe));
  POST "/api/v1/auth/password"%string (guarded authed (fun rq _ p r => handleChangePassword p r (decode_password (hr_body rq))));
  POST "/api/v1/auth/totp/setup"%string
    (guarded authed (fun rq _ p r => handleTOTPSetup (sv_account sv) p r (decode_totp_password (hr_body rq))));
  POST "/api/v1/auth/totp/enable"%string
    (guarded authed (fun rq _ p r => handleTOTPEnable (sv_account sv) p r (decode_totp_code (hr_body rq))));
  POST "/api/v1/auth/totp/disable"%string
    (guarded authed (fun rq _ p r => handleTOTPDisable (sv_account sv) p r (decode_confirm (hr_body rq))));
  POST "/api/v1/auth/totp/recovery-codes"%string
    (guarded authed (fun rq _ p r => handleTOTPRecoveryCodes (sv_account sv) p r (decode_confirm (hr_body rq))));
  GET "/api/v1/auth/oidc/login"%string (fun rq _ => redirected (handleOIDCLogin (sv_sso sv) (su_verifier now)));
  GET "/api/v1/auth/oidc/callback"%string
    (fun rq _ => redirected (handleOIDCCallback (sv_account sv) (sv_sso sv) (hr_request rq) (callback_of rq)))
].

Definition domain_routes : list route := [
  GET "/api/v1/domains"%string (guarded authed (fun _ _ => handleListDomains));
  GET "/api/v1/domains/{id}"%string (guarded authed (fun _ => handleGetDomain));
  GET "/api/v1/domains/{id}/dns"%string (guarded authed (fun _ => handleDomainDNS (sv_pages sv)));
  GET "/api/v1/domains/{id}/recipients"%string (guarded authed (fun _ => handleGetRecipients));
  PUT "/api/v1/domains/{id}/recipients"%string (guarded admin (fun rq id => handleSetRecipients id (decode_recipients (hr_body rq))));
  POST "/api/v1/domains"%string (guarded admin (fun rq _ => handleCreateDomain (sv_pages sv) (decode_domain (hr_body rq))));
  PATCH "/api/v1/domains/{id}"%string (guarded admin (fun rq id => handleUpdateDomain (sv_pages sv) id (decode_domain (hr_body rq))));
  DELETE "/api/v1/domains/{id}"%string (guarded admin (fun rq id => handleDeleteDomain id (hr_query rq "force"%string)));
  POST "/api/v1/domains/{id}/test"%string (guarded operator (fun _ => handleTestDomain (sv_pages sv)));
  GET "/api/v1/domains/{id}/dkim"%string (guarded authed (fun _ => handleGetDKIM));
  POST "/api/v1/domains/{id}/dkim"%string
    (guarded admin (fun rq id => handleCreateDKIM (ac_master (sv_account sv)) id (decode_dkim (hr_body rq))));
  PATCH "/api/v1/domains/{id}/dkim"%string (guarded admin (fun rq id => handleUpdateDKIM id (decode_dkim (hr_body rq))));
  DELETE "/api/v1/domains/{id}/dkim"%string (guarded admin (fun _ => handleDeleteDKIM));
  GET "/api/v1/domains/{id}/dkim/check"%string (guarded authed (fun _ => handleCheckDKIM));
  POST "/api/v1/domains/{id}/dkim/check"%string (guarded authed (fun _ => handleCheckDKIM));
  GET "/api/v1/domains/{id}/dmarc"%string (guarded authed (fun _ => handleGetDMARC));
  POST "/api/v1/domains/{id}/dmarc/check"%string (guarded authed (fun _ => handleCheckDMARC))
].

Definition queue_routes : list route := [
  GET "/api/v1/status"%string
    (guarded authed (fun _ _ => handleStatus (sv_status sv) (su_clients now) (su_disk now) (su_certificate now)));
  GET "/api/v1/queue"%string (guarded authed (fun rq _ => handleListQueue (queue_query rq)));
  GET "/api/v1/queue/{id}"%string (guarded authed (fun _ => handleGetMessage));
  GET "/api/v1/events"%string (guarded authed (fun rq _ => handleListEvents (hr_query rq "limit"%string)));
  GET "/api/v1/live"%string (guarded authed (fun _ _ => handleLive));
  POST "/api/v1/queue/{id}/retry"%string (guarded operator (fun _ => handleRetryMessage));
  DELETE "/api/v1/queue/{id}"%string (guarded operator (fun _ => handleDeleteMessage));
  GET "/api/v1/queue/{id}/raw"%string (guarded operator (fun _ => handleRawMessage));
  POST "/api/v1/queue/{id}/release"%string (guarded operator (fun _ => handleReleaseMessage));
  GET "/api/v1/maintenance/drain"%string (guarded operator (fun _ _ => handleGetDrain));
  POST "/api/v1/maintenance/drain"%string (guarded admin (fun rq _ => handleSetDrain (hr_length rq) (decode_drain (hr_body rq))))
].

Definition settings_routes : list route := [
  GET "/api/v1/smtp-users"%string (guarded fleetWide (fun _ _ => handleListSMTPUsers));
  POST "/api/v1/smtp-users"%string (guarded admin (fun rq _ => handleCreateSMTPUser (decode_smtp_user (hr_body rq))));
  PATCH "/api/v1/smtp-users/{id}"%string (guarded admin (fun rq id => handleUpdateSMTPUser id (decode_smtp_user (hr_body rq))));
  DELETE "/api/v1/smtp-users/{id}"%string (guarded admin (fun _ => handleDeleteSMTPUser));
  GET "/api/v1/routes"%string (guarded fleetWide (fun _ _ => handleListRoutes));
  POST "/api/v1/routes"%string (guarded admin (fun rq _ => handleCreateRoute (ac_master (sv_account sv)) (decode_route (hr_body rq))));
  PATCH "/api/v1/routes/{id}"%string
    (guarded admin (fun rq id => handleUpdateRoute (ac_master (sv_account sv)) id (decode_route (hr_body rq))));
  DELETE "/api/v1/routes/{id}"%string (guarded admin (fun _ => handleDeleteRoute));
  GET "/api/v1/routes/test"%string (guarded fleetWide (fun rq _ => handleTestRoute (sv_global sv) (hr_query rq "destination"%string)));
  GET "/api/v1/filters"%string (guarded fleetWide (fun _ _ => handleListFilters));
  POST "/api/v1/filters"%string (guarded admin (fun rq _ => handleCreateFilter (decode_filter (hr_body rq))));
  PATCH "/api/v1/filters/{id}"%string (guarded admin (fun rq id => handleUpdateFilter id (decode_filter (hr_body rq))));
  DELETE "/api/v1/filters/{id}"%string (guarded admin (fun _ => handleDeleteFilter));
  POST "/api/v1/filters/test"%string (guarded admin (fun rq _ => handleTestFilters (decode_filter_test (hr_body rq))));
  GET "/api/v1/security/status"%string
    (guarded authed (fun _ _ => handleSecurityStatus (sv_dnsbl sv) (sv_clamav sv) (su_ping now) (sv_spam sv)));
  POST "/api/v1/security/dnsbl/test"%string
    (guarded authed (fun rq _ => handleTestDNSBL (su_lookup now) (sv_dnsbl sv) (su_arrivals now) (decode_dnsbl (hr_body rq))));
  GET "/api/v1/config"%string (guarded admin (fun _ _ => handleExportConfig));
  POST "/api/v1/config"%string
    (guarded admin (fun rq _ => handleImportConfig (sv_pages sv) (sv_range sv) (hr_query rq "dry_run"%string) (within maxConfigBytes (hr_body rq))))
].

Definition fleet_routes : list route := [
  GET "/api/v1/tokens"%string (guarded admin (fun _ _ => handleListTokens));
  POST "/api/v1/tokens"%string (guarded admin (fun rq _ => handleCreateToken (decode_token (hr_body rq))));
  DELETE "/api/v1/tokens/{id}"%string (guarded admin (fun _ => handleDeleteToken));
  GET "/api/v1/users"%string (guarded admin (fun _ _ => handleListUsers));
  POST "/api/v1/users"%string (guarded admin (fun rq _ => handleCreateUser (decode_new_user (hr_body rq))));
  PATCH "/api/v1/users/{id}"%string (guarded admin (fun rq id => handleUpdateUser id (decode_user (hr_body rq))));
  DELETE "/api/v1/users/{id}"%string (guarded admin (fun _ => handleDeleteUser));
  GET "/api/v1/webhooks"%string (guarded fleetWide (fun _ _ => handleListWebhooks (sv_hooks sv)));
  GET "/api/v1/webhooks/events"%string (guarded authed (fun _ _ => handleWebhookEventTypes));
  GET "/api/v1/webhooks/deliveries"%string
    (guarded fleetWide (fun rq _ => handleListDeliveries (hr_query rq "webhook_id"%string) (hr_query rq "limit"%string)));
  POST "/api/v1/webhooks"%string (guarded admin (fun rq _ => handleCreateWebhook (ac_master (sv_account sv)) (decode_webhook (hr_body rq))));
  PATCH "/api/v1/webhooks/{id}"%string
    (guarded admin (fun rq id => handleUpdateWebhook (ac_master (sv_account sv)) id (decode_webhook (hr_body rq))));
  DELETE "/api/v1/webhooks/{id}"%string (guarded admin (fun _ => handleDeleteWebhook));
  POST "/api/v1/webhooks/{id}/test"%string
    (guarded admin (fun _ => handleTestWebhook (ac_master (sv_account sv)) (sv_hooks sv) (sv_node sv)));
  GET "/api/v1/cluster"%string (guarded fleetWide (fun _ _ => handleClusterState (sv_cluster sv)));
  DELETE "/api/v1/cluster/nodes/{id}"%string (guarded admin (fun _ => handleForgetNode (sv_cluster sv)));
  POST HeartbeatPath (open_page (fun rq => handleHeartbeat (sv_cluster sv) (hr_peer rq) (within maxClusterBody (hr_body rq))));
  GET ConfigPath (open_page (fun rq => handleClusterConfig (sv_cluster sv) (hr_peer rq) (within maxClusterBody (hr_body rq))));
  GET "/healthz"%string (open_page (fun rq => handleHealthz (sv_status sv) (hr_request rq)))
].

(** The token of the metrics is compared with the one presented; without one anybody reads them. *)
Definition subtleCompare (a b : text) : bool := bool_decide (a = b).
Definition metrics_allowed (token : text) (r : request) : bool :=
  bool_decide (token = [])
  || has_prefix "Bearer "%string (rq_authorization r) && subtleCompare (trim_prefix "Bearer "%string (rq_authorization r)) token.

(** A page that could not be written whole is sent as far as it went. *)
Definition handleMetrics (token : text) (ci : CollectorInfo) (rq : http_request) (_ : text) : M reply :=
  if metrics_allowed token (hr_request rq) then
    let* r := Write ci (su_writes now) in ret (MetricsPage (Some r.2))
  else ret (MetricsPage None).

Definition metrics_routes : list route :=
  match sv_metrics sv with
  | None => []
  | Some (token, ci) => [GET "/metrics"%string (handleMetrics token ci)]
  end.

Definition routes : list route :=
  account_routes ++ domain_routes ++ queue_routes ++ settings_routes ++ fleet_routes ++ metrics_routes.

(** ** The mux *)

Fixpoint lookup_route (table : list route) (method : text) (path : list text) : option (route * text) :=
  match table with
  | [] => None
  | r :: table =>
      match (if match_method (rt_method r) method then match_path (rt_pattern r) path else None) with
      | Some id => Some (r, id)
      | None => lookup_route table method path
      end
  end.

Definition dispatch (rq : http_request) : M reply :=
  match lookup_route routes (rq_method (hr_request rq)) (hr_path rq) with
  | Some (r, id) => rt_handler r rq id
  | None =>
      match hr_path rq with
      | first :: _ :: _ => if bool_decide (first = T "api") then ret (Page (fail 404 "not_found"%string)) else ret Site
      | _ => ret Site
      end
  end.

(** The whole: a reply, and the headers it is sent with besides its own. *)
Definition serve_http (rq : http_request) : M (list (text * text) * reply) :=
  let* r := withSameOrigin Page (fun _ => dispatch rq) (hr_request rq) in
  ret (security_headers (sv_secure sv), r).
End server.

(** ** What a request may change *)

(** The configuration: domains, recipients, filters, routes, keys, submission accounts, subscriptions, the drain flag. *)
Definition settings (s : state) :=
  (dt_domains (s_domains s), s_recipients s, (s_filters s, s_rules s), s_routes s, s_dkim s, s_smtp_users s, ht_hooks (s_hooks s), s_drain s).

(** Who may do what: the accounts with their roles and domains, and the tokens. *)
Definition standing (t : user_tables) :=
  (map (fun u => (UID u, Email u, Role u, AllowedDomains u)) (ut_users t),
   token_rights t).

Definition view (s : state) := (settings s, standing (s_users s)).

Lemma standing_exec p f t :
  (forall u, UID (f u) = UID u /\ Email (f u) = Email u /\ Role (f u) = Role u /\ AllowedDomains (f u) = AllowedDomains u) ->
  standing (snd (on_users (exec_rows p f) t)) = standing t.
Proof.
  intros Hf. unfold standing, on_users, exec_rows. cbn. f_equal. apply map_update_rows. intros u.
  destruct (Hf u) as (-> & -> & -> & ->). done.
Qed.

Lemma keeps_on_accounts_view {A} (f : user_tables -> result A * user_tables) :
  (forall t, standing (snd (f t)) = standing t) -> keeps view (on_accounts f).
Proof.
  intros Hf. unfold on_accounts. apply keeps_statement. intros s. specialize (Hf (s_users s)).
  destruct (f (s_users s)) as [r t]. cbn in *. unfold view. cbn. by rewrite Hf.
Qed.

(** Statements on the accounts that change nobody's standing. *)
Definition neutral {A} (f : user_tables -> A * user_tables) : Prop := forall t, standing (snd (f t)) = standing t.

Lemma neutral_CreateSession h id now ttl agent : neutral (CreateSession h id now ttl agent).
Proof. intros t. unfold CreateSession. by repeat case_match. Qed.
Lemma neutral_ConsumeTOTPStep id step : neutral (ConsumeTOTPStep id step).
Proof. intros t. unfold ConsumeTOTPStep. unfold standing. cbn. f_equal. by apply map_update_rows. Qed.
Lemma neutral_ConsumeRecoveryCode id h now : neutral (ConsumeRecoveryCode id h now).
Proof. intros t. unfold ConsumeRecoveryCode. by repeat case_match. Qed.
Lemma neutral_UpdatePassword id h : neutral (UpdatePassword id h).
Proof. intros t. by apply standing_exec. Qed.
Lemma neutral_SetPendingTOTP id s : neutral (SetPendingTOTP id s).
Proof. intros t. by apply standing_exec. Qed.
Lemma neutral_TouchLogin id now : neutral (TouchLogin id now).
Proof. intros t. by apply standing_exec. Qed.
Lemma neutral_replaceRecoveryCodes id hs : neutral (replaceRecoveryCodes id hs).
Proof. intros t. unfold replaceRecoveryCodes. by repeat case_match. Qed.
Lemma neutral_EnableTOTP id step hs : neutral (EnableTOTP id step hs).
Proof.
  intros t. unfold EnableTOTP. destruct (_ =? 0); [done|]. set (t1 := set_users _ t).
  pose proof (neutral_replaceRecoveryCodes id hs t1) as Hr. destruct (replaceRecoveryCodes id hs t1) as [[]t2]; [|done].
  cbn in *. rewrite Hr. unfold standing, t1. cbn. f_equal. by apply map_update_rows.
Qed.
Lemma neutral_DisableTOTP id : neutral (fun t => (Ok () : result unit, DisableTOTP id t)).
Proof. intros t. unfold standing. cbn. f_equal. by apply map_update_rows. Qed.
Lemma neutral_TouchAPIToken id now : neutral (fun t => (Ok () : result unit, TouchAPIToken id now t)).
Proof. intros t. unfold standing. cbn. f_equal. by apply map_update_rows. Qed.
Lemma neutral_sessions f : neutral (fun t => (Ok () : result unit, set_sessions (f t) t)).
Proof. by intros t. Qed.

#[export] Hint Resolve neutral_CreateSession neutral_ConsumeTOTPStep neutral_ConsumeRecoveryCode neutral_UpdatePassword
  neutral_SetPendingTOTP neutral_TouchLogin neutral_replaceRecoveryCodes neutral_EnableTOTP neutral_DisableTOTP
  neutral_TouchAPIToken : keeps.
#[export] Hint Extern 1 (keeps view (on_accounts _)) => apply keeps_on_accounts_view : keeps.
#[export] Hint Extern 1 (forall t, standing (snd (_ t)) = standing t) => solve [refine (_ : neutral _); auto with keeps | reflexivity] : keeps.
#[export] Hint Extern 1 (keeps view (exec_accounts _)) => apply keeps_on_accounts_view : keeps.

(** Walk through a handler, opening what it calls. *)
Ltac head_of m := match m with ?f _ => head_of f | _ => m end.
Ltac views_step :=
  first [ keeps_step
        | match goal with |- keeps _ ?m => let h := head_of m in unfold h; cbn beta end ].
Ltac views := intros; repeat views_step.

Section handlers.
Context `{SmtpLib} `{PasswordCrypto} `{AEAD} `{QRLib} `{RegexpLib} `{DohLib} `{DmarcLib} `{KeyGenLib} `{HttpLib} `{AddressLib}.
Context `{YamlLib} `{WireLib} `{OIDCLib}.

Lemma view_login_Allow k : keeps view (login_Allow k).
Proof. unfold login_Allow. apply keeps_bind; [keeps|]. intros t md s e He. cbn. by destruct (Allow k t (s_logins s)). Qed.
Lemma view_login_Reset k : keeps view (login_Reset k).
Proof. unfold login_Reset. keeps. Qed.
Hint Resolve view_login_Allow view_login_Reset : keeps.

Lemma view_get : keeps view get.
Proof. intros md s. by apply wp_get. Qed.
Lemma view_DisableTOTP id : keeps view (exec_accounts (DisableTOTP id)).
Proof. apply keeps_on_accounts_view, neutral_DisableTOTP. Qed.
Hint Resolve view_get view_DisableTOTP keeps_newRecoveryCodes : keeps.

Lemma view_domain_items ds : keeps view (domain_items ds).
Proof. induction ds; cbn [domain_items]; views. Qed.
Lemma view_export_domains ds : keeps view (export_domains ds).
Proof. induction ds; cbn [export_domains]; views. Qed.
Lemma view_domain_statuses ds : keeps view (domain_statuses ds).
Proof. induction ds; cbn [domain_statuses]; views. Qed.
Lemma view_domain_health ds : keeps view (domain_health ds).
Proof. induction ds; cbn [domain_health]; views. Qed.
Lemma view_live_loop u events : keeps view (live_loop u events).
Proof. induction events; cbn [live_loop]; views. Qed.
Hint Resolve view_domain_items view_export_domains view_domain_statuses view_live_loop view_domain_health : keeps.

Lemma view_handleLogout p r : keeps view (handleLogout p r).
Proof. views. Qed.
Lemma view_handleMe p r : keeps view (handleMe p r).
Proof. views. Qed.
Lemma view_handleChangePassword p r b : keeps view (handleChangePassword p r b).
Proof. views. Qed.
Lemma view_handleListDomains p r : keeps view (handleListDomains p r).
Proof. views. Qed.
Lemma view_handleGetDomain id p r : keeps view (handleGetDomain id p r).
Proof. views. Qed.
Lemma view_handleGetRecipients id p r : keeps view (handleGetRecipients id p r).
Proof. views. Qed.
Lemma view_handleGetDKIM id p r : keeps view (handleGetDKIM id p r).
Proof. views. Qed.
Lemma view_handleCheckDKIM id p r : keeps view (handleCheckDKIM id p r).
Proof. views. Qed.
Lemma view_handleGetDMARC id p r : keeps view (handleGetDMARC id p r).
Proof. views. Qed.
Lemma view_handleCheckDMARC id p r : keeps view (handleCheckDMARC id p r).
Proof. views. Qed.
Lemma view_handleListQueue q p r : keeps view (handleListQueue q p r).
Proof. views. Qed.
Lemma view_handleGetMessage id p r : keeps view (handleGetMessage id p r).
Proof. views. Qed.
Lemma view_handleListEvents l p r : keeps view (handleListEvents l p r).
Proof. views. Qed.
Lemma view_handleRetryMessage id p r : keeps view (handleRetryMessage id p r).
Proof. views. Qed.
Lemma view_handleDeleteMessage id p r : keeps view (handleDeleteMessage id p r).
Proof. views. Qed.
Lemma view_handleRawMessage id p r : keeps view (handleRawMessage id p r).
Proof. views. Qed.
Lemma view_handleReleaseMessage id p r : keeps view (handleReleaseMessage id p r).
Proof. views. Qed.
Lemma view_handleGetDrain p r : keeps view (handleGetDrain p r).
Proof. views. Qed.
Lemma view_handleListSMTPUsers p r : keeps view (handleListSMTPUsers p r).
Proof. views. Qed.
Lemma view_handleListRoutes p r : keeps view (handleListRoutes p r).
Proof. views. Qed.
Lemma view_handleTestRoute g d p r : keeps view (handleTestRoute g d p r).
Proof. views. Qed.
Lemma view_handleListFilters p r : keeps view (handleListFilters p r).
Proof. views. Qed.
Lemma view_handleSecurityStatus a b c d p r : keeps view (handleSecurityStatus a b c d p r).
Proof. views. Qed.
Lemma view_handleTestDNSBL a b c d p r : keeps view (handleTestDNSBL a b c d p r).
Proof. views. Qed.
Lemma view_handleExportConfig p r : keeps view (handleExportConfig p r).
Proof. views. Qed.
Lemma view_handleListTokens p r : keeps view (handleListTokens p r).
Proof. views. Qed.
Lemma view_handleListUsers p r : keeps view (handleListUsers p r).
Proof. views. Qed.
Lemma view_handleListWebhooks h p r : keeps view (handleListWebhooks h p r).
Proof. views. Qed.
Lemma view_handleWebhookEventTypes p r : keeps view (handleWebhookEventTypes p r).
Proof. views. Qed.
Lemma view_handleListDeliveries a b p r : keeps view (handleListDeliveries a b p r).
Proof. views. Qed.
Lemma view_handleClusterState c p r : keeps view (handleClusterState c p r).
Proof. views. Qed.
Lemma view_handleTestDomain c id p r : keeps view (handleTestDomain c id p r).
Proof. views. Qed.
Lemma view_handleDomainDNS c id p r : keeps view (handleDomainDNS c id p r).
Proof. views. Qed.
Lemma view_handleStatus c a b d p r : keeps view (handleStatus c a b d p r).
Proof. views. Qed.
Lemma view_handleTOTPSetup c p r b : keeps view (handleTOTPSetup c p r b).
Proof. views. Qed.
Lemma view_handleTOTPEnable c p r b : keeps view (handleTOTPEnable c p r b).
Proof. views. Qed.
Lemma view_handleTOTPDisable c p r b : keeps view (handleTOTPDisable c p r b).
Proof. views. Qed.
Lemma view_handleTOTPRecoveryCodes c p r b : keeps view (handleTOTPRecoveryCodes c p r b).
Proof. views. Qed.
Lemma view_handleLogin c r b : keeps view (handleLogin c r b).
Proof. views. Qed.
Lemma view_handleSetupStatus c r : keeps view (handleSetupStatus c r).
Proof. views. Qed.
Lemma view_handleHealthz c r : keeps view (handleHealthz c r).
Proof. views. Qed.
Lemma view_handleOIDCLogin s v : keeps view (handleOIDCLogin s v).
Proof. views. Qed.

Lemma view_Write ci writes : keeps view (Write ci writes).
Proof. views. Qed.
Lemma view_handleLive now p r : keeps view (handleLive now p r).
Proof. views. Qed.

Lemma view_ExportConfigYAML : keeps view ConfigIO.ExportConfigYAML.
Proof. views. Qed.
Lemma view_ConfigHash : keeps view ConfigIO.ConfigHash.
Proof. views. Qed.
Hint Resolve view_ExportConfigYAML view_ConfigHash : keeps.

Section peers.
Context (cfg : PagesConfig) (range_ : forall A, list (text * A) -> list (text * A)).

Lemma view_handleHeartbeat c pr body : keeps view (@handleHeartbeat _ (server_source cfg range_) c pr body).
Proof. views. Qed.
Lemma view_handleClusterConfig c pr body : keeps view (@handleClusterConfig (server_source cfg range_) c pr body).
Proof. views. Qed.
End peers.

(** The first account, and a sign-in through the provider, change accounts only. *)
Lemma settings_on_accounts {A} (f : user_tables -> result A * user_tables) : keeps settings (on_accounts f).
Proof. unfold on_accounts. apply keeps_statement. intros s. by destruct (f (s_users s)). Qed.
Hint Resolve settings_on_accounts : keeps.

Lemma settings_handleOIDCCallback cfg sso r cb : keeps settings (handleOIDCCallback cfg sso r cb).
Proof. views. Qed.
Lemma settings_handleSetup cfg r body : keeps settings (handleSetup cfg r body).
Proof. views. Qed.

(** Once there is an account, no first one is made. *)
Lemma CreateFirstUser_refused s s1 email hash role t u us :
  ut_users (s_users s) = u :: us -> view s1 = view s ->
  exists e, CreateFirstUser email hash role t (s_users s1) = (Err e, s_users s1).
Proof.
  intros Eu E. apply (f_equal (fun v => fst (snd v))) in E. cbn in E. rewrite Eu in E. unfold CreateFirstUser, CountUsers.
  destruct (ut_users (s_users s1)); [done|]. by eexists.
Qed.

Lemma wp_handleSetup cfg r body s :
  wp any (handleSetup cfg r body) (fun _ s' => view s' = view s \/ ut_users (s_users s) = []) s.
Proof.
  destruct (ut_users (s_users s)) as [|u us] eqn:Eu.
  { intros e _. destruct (handleSetup cfg r body _). split; [apply allows_any|by right]. }
  eapply wp_mono with (P := fun _ s' => view s' = view s); [|cbn; auto].
  unfold handleSetup. apply wp_frame with (f := view); [views|]. intros [n|e] s1 E1; [|by apply wp_ret].
  destruct (0 <? n); [by apply wp_ret|]. destruct body as [req|]; [|by apply wp_ret].
  destruct (negb _); [by apply wp_ret|]. destruct (bool_decide _); [by apply wp_ret|].
  apply wp_frame with (f := view); [views|]. intros salt s2 E2. destruct (HashPassword _ _) as [hash|]; [|apply wp_ret; congruence].
  apply wp_frame with (f := view); [views|]. intros t s3 E3.
  apply wp_bind, wp_on_accounts; [intros e; apply wp_ret; congruence|].
  destruct (CreateFirstUser_refused s s3 (su_email req) hash StoreUsers.RoleAdmin t u us Eu ltac:(congruence)) as [e ->].
  apply wp_ret. rewrite <- E1, <- E2, <- E3. by destruct s3.
Qed.
End handlers.

(** ** The guards and the table *)

Section outcome.
Context (rq : http_request) (s : state).

(** An administrator's request, by a method that is not for reading. *)
Definition by_admin : Prop :=
  (exists p, known (hr_request rq) (s_users s) p /\ Role (p_user p) = StoreUsers.RoleAdmin) /\
  rq_method (hr_request rq) ∉ [T "GET"; T "HEAD"; T "OPTIONS"].

Definition outcome_of (r : route) (s' : state) : Prop :=
  view s' = view s \/ by_admin \/
  settings s' = settings s /\ (ut_users (s_users s) = [] \/ rt_pattern r = segments "/api/v1/auth/oidc/callback"%string).
End outcome.

(** What every route of the table must keep to, for a request it takes. *)
Definition route_sound (r : route) : Prop :=
  forall rq id s, match_method (rt_method r) (rq_method (hr_request rq)) = true ->
    wp any (rt_handler r rq id) (fun _ s' => outcome_of rq s r s') s.

Lemma asked_view s s1 : asked s s1 -> view s1 = view s.
Proof. intros (now & us & -> & Hu & _ & Ht). unfold view, standing. cbn. by rewrite Hu, Ht. Qed.

(** A page that keeps the view, whatever guards it. *)
Lemma sound_kept rq s r (m : M response) : keeps view m -> wp any (page m) (fun _ s' => outcome_of rq s r s') s.
Proof. intros Hm. apply wp_bind. eapply wp_mono; [apply Hm|]. cbn. intros rs s' E. apply wp_ret. by left. Qed.

Lemma view_authed next r : (forall p, keeps view (next p r)) -> keeps view (authed next r).
Proof.
  intros Hn md s. apply wp_authed; [intros rs s1 _ _ Ha; by apply asked_view|].
  intros p s1 _ Ha. apply asked_view in Ha. rewrite <- Ha. apply Hn.
Qed.

Lemma view_operator next r : (forall p, keeps view (next p r)) -> keeps view (operator next r).
Proof. intros Hn. apply view_authed. intros p. destruct (_ && _); [apply keeps_ret|apply Hn]. Qed.

Lemma view_fleetWide next r : (forall p, keeps view (next p r)) -> keeps view (fleetWide next r).
Proof. intros Hn. apply view_authed. intros p. destruct (Scoped _); [apply keeps_ret|apply Hn]. Qed.

Lemma view_admin next r : (forall p, keeps view (next p r)) -> keeps view (admin next r).
Proof. intros Hn. apply view_authed. intros p. destruct (negb _); [apply keeps_ret|apply Hn]. Qed.

(** A page behind [admin], for a method that is not for reading. *)
Lemma sound_admin rq s r next :
  rq_method (hr_request rq) ∉ [T "GET"; T "HEAD"; T "OPTIONS"] ->
  wp any (page (admin next (hr_request rq))) (fun _ s' => outcome_of rq s r s') s.
Proof.
  intros Hm. apply wp_bind, wp_authed.
  - intros rs s1 _ _ Ha. apply wp_ret. left. by apply asked_view.
  - intros p s1 Hk Ha. destruct (negb _) eqn:E; [apply wp_ret, wp_ret; left; by apply asked_view|]. bools.
    intros e _. destruct (next p (hr_request rq) _) as [rs w1]. split; [apply allows_any|].
    intros e1 _. split; [apply allows_any|]. right; left. split; [by exists p|done].
Qed.

Create HintDb views.
#[local] Hint Resolve view_handleLogout view_handleMe view_handleChangePassword view_handleListDomains view_handleGetDomain
  view_handleGetRecipients view_handleGetDKIM view_handleCheckDKIM view_handleGetDMARC view_handleCheckDMARC
  view_handleListQueue view_handleGetMessage view_handleListEvents view_handleRetryMessage view_handleDeleteMessage
  view_handleRawMessage view_handleReleaseMessage view_handleGetDrain view_handleListSMTPUsers view_handleListRoutes
  view_handleTestRoute view_handleListFilters view_handleSecurityStatus view_handleTestDNSBL view_handleExportConfig
  view_handleListTokens view_handleListUsers view_handleListWebhooks view_handleWebhookEventTypes view_handleListDeliveries
  view_handleClusterState view_handleTestDomain view_handleDomainDNS view_handleStatus view_handleTOTPSetup
  view_handleTOTPEnable view_handleTOTPDisable view_handleTOTPRecoveryCodes view_handleLogin view_handleSetupStatus
  view_handleHealthz view_handleOIDCLogin view_handleLive view_handleHeartbeat view_handleClusterConfig : views.

Lemma method_exact m0 m : bool_decide (m0 ∈ [T "GET"; T "HEAD"; T "OPTIONS"]) = false -> match_method m0 m = true -> m ∉ [T "GET"; T "HEAD"; T "OPTIONS"].
Proof.
  intros H0%bool_decide_eq_false Hm. unfold match_method in Hm. apply orb_true_iff in Hm as [Hm|Hm]; [by bools; subst|].
  apply andb_true_iff in Hm as [Hm _]. apply bool_decide_eq_true in Hm as ->. destruct H0. apply list_elem_of_here.
Qed.

Ltac route_case :=
  intros rq id s Hm;
  first
  [ apply sound_admin; eapply method_exact; [|exact Hm]; vm_compute; reflexivity
  | apply sound_kept; first [apply view_operator | apply view_fleetWide | apply view_admin | apply view_authed | idtac];
    intros; solve [auto with views] ].

Section table.
Context `{SmtpLib} `{PasswordCrypto} `{AEAD} `{QRLib} `{RegexpLib} `{DohLib} `{DmarcLib} `{KeyGenLib} `{HttpLib} `{AddressLib}.
Context `{YamlLib} `{WireLib} `{OIDCLib} `{UrlLib} `{BodyLib}.
Context (sv : ServerConfig) (now : surroundings).

Lemma account_routes_sound : Forall route_sound (account_routes sv now).
Proof.
  unfold account_routes. apply Forall_cons; split; [route_case|].
  apply Forall_cons; split.
  { intros rq id s _. apply wp_bind. eapply wp_mono; [apply wp_conj; [apply settings_handleSetup|apply wp_handleSetup]|].
    cbn. intros rs s' [Es [Ev|Eu]]; apply wp_ret; [by left|right; right; auto]. }
  repeat (apply Forall_cons; split; [route_case|]).
  apply Forall_cons; split.
  { intros rq id s _. apply wp_bind. eapply wp_mono; [apply view_handleOIDCLogin|]. cbn. intros rd s' E. apply wp_ret. by left. }
  apply Forall_singleton. intros rq id s _. apply wp_bind.
  eapply wp_mono; [apply (settings_handleOIDCCallback (sv_account sv) (sv_sso sv))|]. cbn. intros rd s' E. apply wp_ret. right; right; auto.
Qed.

Lemma domain_routes_sound : Forall route_sound (domain_routes sv).
Proof. unfold domain_routes. repeat (apply Forall_cons; split; [route_case|]). by apply Forall_nil. Qed.
Lemma queue_routes_sound : Forall route_sound (queue_routes sv now).
Proof. unfold queue_routes. repeat (apply Forall_cons; split; [route_case|]). by apply Forall_nil. Qed.
Lemma settings_routes_sound : Forall route_sound (settings_routes sv now).
Proof. unfold settings_routes. repeat (apply Forall_cons; split; [route_case|]). by apply Forall_nil. Qed.
Lemma fleet_routes_sound : Forall route_sound (fleet_routes sv).
Proof.
  unfold fleet_routes. repeat (apply Forall_cons; split; [route_case|]).
  apply Forall_cons; split; [intros rq id s _; apply sound_kept, view_handleHeartbeat|].
  apply Forall_cons; split; [intros rq id s _; apply sound_kept, view_handleClusterConfig|].
  apply Forall_singleton. route_case.
Qed.

Lemma metrics_routes_sound : Forall route_sound (metrics_routes sv now).
Proof.
  unfold metrics_routes. destruct (sv_metrics sv) as [[token ci]|]; [|by apply Forall_nil]. apply Forall_singleton. intros rq id s _.
  cbn [rt_handler GET]. unfold handleMetrics. destruct (metrics_allowed _ _); [|apply wp_ret; by left].
  apply wp_bind. eapply wp_mono; [apply view_Write|]. cbn. intros r s' E. apply wp_ret. by left.
Qed.

Lemma routes_sound : Forall route_sound (routes sv now).
Proof.
  unfold routes. rewrite !Forall_app. eauto 10 using account_routes_sound, domain_routes_sound, queue_routes_sound,
    settings_routes_sound, fleet_routes_sound, metrics_routes_sound.
Qed.

(** The mux takes a route of the table, for a request its pattern matches. *)
Lemma lookup_route_Some table method path r id :
  lookup_route table method path = Some (r, id) ->
  r ∈ table /\ match_method (rt_method r) method = true /\ match_path (rt_pattern r) path = Some id.
Proof.
  induction table as [|r0 table IH]; cbn [lookup_route]; [done|].
  destruct (match_method (rt_method r0) method) eqn:Em; [destruct (match_path (rt_pattern r0) path) eqn:Ep|].
  - intros [= <- <-]. split_and!; [left|done..].
  - intros E%IH. destruct E as (? & ? & ?). split_and!; [by right|done..].
  - intros E%IH. destruct E as (? & ? & ?). split_and!; [by right|done..].
Qed.

Lemma match_path_literal pattern path id :
  wildcard ∉ pattern -> match_path pattern path = Some id -> path = pattern.
Proof.
  revert path id. induction pattern as [|p pattern IH]; intros [|x path] id Hw; cbn; try done.
  apply not_elem_of_cons in Hw as [Hp Hw]. rewrite bool_decide_eq_false_2 by done.
  destruct (bool_decide_reflect (p = x)) as [->|]; [|done]. intros ->%IH; done.
Qed.

(** What a request may have changed when it is answered. *)
Definition request_outcome (rq : http_request) (s s' : state) : Prop :=
  view s' = view s \/ by_admin rq s \/
  settings s' = settings s /\ (ut_users (s_users s) = [] \/ hr_path rq = segments "/api/v1/auth/oidc/callback"%string).

Lemma wp_dispatch rq s : wp any (dispatch sv now rq) (fun _ s' => request_outcome rq s s') s.
Proof.
  unfold dispatch. destruct (lookup_route _ _ _) as [[r id]|] eqn:El.
  - apply lookup_route_Some in El as (Hin & Hm & Hp). pose proof routes_sound as Hs. rewrite Forall_forall in Hs.
    eapply wp_mono; [by apply (Hs r Hin rq id s)|]. cbn. intros rp s' [?|[?|[Es [?|Er]]]]; [by left|by right; left|by right; right; auto|].
    right; right. split; [done|right]. rewrite Er in Hp. apply match_path_literal in Hp; [done|]. by apply (bool_decide_unpack _); vm_compute.
  - repeat case_match; apply wp_ret; by left.
Qed.
End table.

(** C6: whatever is sent to the administration server, the configuration (domains, recipients, filters, routes, keys,
    submission accounts, subscriptions, the drain flag) and the standing of accounts and tokens stay as they are,
    unless the request is an administrator's, known to the tables, by a method that is not for reading, and from a page of the
    server itself where it states an origin; or the request sets the server up while it has no account or is a
    callback of the identity provider, and then the configuration stays.  Every reply carries the security headers. *)
Theorem only_admins_configure `{SmtpLib} `{PasswordCrypto} `{AEAD} `{QRLib} `{RegexpLib} `{DohLib} `{DmarcLib} `{KeyGenLib}
  `{HttpLib} `{AddressLib} `{YamlLib} `{WireLib} `{OIDCLib} `{UrlLib} `{BodyLib} sv now rq s e :
  let '((headers, _), w') := serve_http sv now rq (World s e) in
  headers = security_headers (sv_secure sv) /\
  (view (st w') = view s \/
   by_admin rq s /\ (rq_origin (hr_request rq) = [] \/ sameOrigin (rq_origin (hr_request rq)) (rq_host (hr_request rq)) = true) \/
   settings (st w') = settings s /\ (ut_users (s_users s) = [] \/ hr_path rq = segments "/api/v1/auth/oidc/callback"%string)).
Proof.
  set (Q := fun (out : list (text * text) * reply) (s' : state) => fst out = security_headers (sv_secure sv) /\
   (view s' = view s \/
    by_admin rq s /\ (rq_origin (hr_request rq) = [] \/ sameOrigin (rq_origin (hr_request rq)) (rq_host (hr_request rq)) = true) \/
    settings s' = settings s /\ (ut_users (s_users s) = [] \/ hr_path rq = segments "/api/v1/auth/oidc/callback"%string))).
  assert (Hwp : wp any (serve_http sv now rq) Q s).
  { unfold serve_http, withSameOrigin. apply wp_bind. case_bool_decide as Hm.
    - eapply wp_mono; [apply wp_dispatch|]. cbn. intros rp s' Ho. apply wp_ret. split; [done|].
      destruct Ho as [?|[[_ Hn]|?]]; [by left|done|by right; right].
    - destruct (_ && _) eqn:Eo; [apply wp_ret, wp_ret; split; [done|by left]|].
      eapply wp_mono; [apply wp_dispatch|]. cbn. intros rp s' Ho. apply wp_ret. split; [done|].
      destruct Ho as [?|[Ha|?]]; [by left| |by right; right]. right; left. split; [done|].
      apply andb_false_iff in Eo as [Eo|Eo]; bools; auto. }
  pose proof (wp_run any _ _ _ _ (allows_any e) Hwp) as Hrun.
  destruct (serve_http sv now rq (World s e)) as [[headers rp] w']. exact Hrun.
Qed.
