(* ===== verification/Scoped.v ===== *)
(** * Accounts limited to some domains: what the server tells them, and what they may change

    An account with domains of its own sees a part of the state ([alike] says when two states show it
    the same).  Every page it can open answers from that part alone and leaves the rest of the queue,
    the spool and the whole configuration as they are.  The first half is a relation between two
    runs, [same]: from states that are alike, with the same environment, a computation gives the same
    result and leaves states that are alike.  The second half is [wp] and [keeps]. *)

From S2P Require Import Prelude GoStrings Base64 Times Net Errors StoreTypes StoreQueue QueueFacts QueueProps StoreDomains DomainProps.
From S2P Require Import Filter Routes StoreUsers UserProps StoreWebhooks Auth RateLimit SmtpClient Dkim Dmarc Dnsbl Clamav Spam World Blob Webhook.
From S2P Require Import Health Api ApiProps Account AccountProps Pages PagesProps UserPages RulePages OutboundPages HookPages StatusPages.
From S2P Require SecretProps WebhookProps OidcProps.
From S2P Require Import ConfigIO Cluster ClusterPages Oidc Hub Metrics Server.
From Stdlib Require Import QArith.
Open Scope Z_scope.

(** ** What an account sees *)

(** The identifiers of the domains it may see. *)
Definition own_domains (u : User) (s : state) : list domain := List.filter (fun d => CanAccessDomain u (DName d)) (domains_of s).
Definition own_ids (u : User) (s : state) : list Z := map DID (own_domains u s).

Definition own_rows (u : User) (s : state) : queue := List.filter (in_domains (own_ids u s)) (s_queue s).

Definition of_domains (ids : list Z) (e : event_row) : bool :=
  match EDomainID (ev_event e) with Some d => bool_decide (d ∈ ids) | None => false end.
Definition own_events (u : User) (s : state) : list event_row := List.filter (of_domains (own_ids u s)) (et_rows (s_events s)).

(** Two states that show the account the same: the same domains of its own, with their status, recipients, keys and
    usage, the same messages and events of these, the same texts of these messages; the same accounts,
    sign-ins and drain flag, the same clock, and the same number for the next event. *)
Record alike (u : User) (s t : state) : Prop := {
  al_now : s_now s = s_now t;
  al_users : s_users s = s_users t;
  al_logins : s_logins s = s_logins t;
  al_drain : s_drain s = s_drain t;
  al_domains : own_domains u s = own_domains u t;
  al_primary : forall id, id ∈ own_ids u s -> dt_primary (s_domains s) !! id = dt_primary (s_domains t) !! id;
  al_recipients : forall id, id ∈ own_ids u s -> s_recipients s !! id = s_recipients t !! id;
  al_dkim : forall id, id ∈ own_ids u s -> s_dkim s !! id = s_dkim t !! id;
  al_usage : forall id month, id ∈ own_ids u s -> s_usage s !! (id, month) = s_usage t !! (id, month);
  al_rows : own_rows u s = own_rows u t;
  al_blobs : forall r, r ∈ own_rows u s -> s_blobs s !! row_id r = s_blobs t !! row_id r;
  al_events : own_events u s = own_events u t;
  al_next_event : et_next (s_events s) = et_next (s_events t)
}.

Lemma alike_ids u s t : alike u s t -> own_ids u s = own_ids u t.
Proof. intros Ha. unfold own_ids. by rewrite (al_domains _ _ _ Ha). Qed.

#[export] Instance alike_equiv u : Equivalence (alike u).
Proof.
  split.
  - intros s. by split.
  - intros s t Ha. pose proof (alike_ids _ _ _ Ha) as E. pose proof (al_rows _ _ _ Ha) as Er. destruct Ha.
    split; rewrite <- ?E, <- ?Er; intros; symmetry; auto.
  - intros s t v Ha Hb. pose proof (alike_ids _ _ _ Ha) as E. pose proof (al_rows _ _ _ Ha) as Er. destruct Ha, Hb.
    rewrite <- ?E, <- ?Er in *. split; intros; try congruence;
      match goal with H : _ ∈ _, H0 : forall x, x ∈ _ -> _ |- _ => rewrite H0 by done; solve [auto] | H0 : forall x y, x ∈ _ -> _ |- _ => rewrite H0 by done; solve [auto] end.
Qed.

(** What the schema enforces: identifiers and names are unique, and every message has a domain. *)
Record consistent (s : state) : Prop := {
  co_ids : NoDup (map DID (domains_of s));
  co_names : NoDup (map DName (domains_of s));
  co_rows : unique_ids (s_queue s);
  co_keys : forall r, r ∈ s_queue s -> DomainID (q_msg r) ∈ map DID (domains_of s)
}.

(** ** Two runs *)

(** A condition on the domains and the queue, the tables whose rows the pages look up. *)
Abbreviation pre := (list domain -> queue -> Prop).

Definition settled (K : pre) (s : state) : Prop := consistent s /\ K (domains_of s) (s_queue s).

Lemma settled_keeps K s s' : s_domains s' = s_domains s -> s_queue s' = s_queue s -> settled K s -> settled K s'.
Proof. intros Ed Eq [[]]. unfold settled. rewrite Ed, Eq. split; [|done]. split; by rewrite ?Ed, ?Eq. Qed.

(** *** The tables, narrowed to the account's domains *)

Lemma find_none_unique {A K} (key : A -> K) (f : A -> bool) (k : K) l :
  (forall x, f x = true -> key x = k) -> k ∉ map key l -> find f l = None.
Proof.
  intros Hf Hk. destruct (find f l) as [x|] eqn:E; [|done]. apply find_some in E as [Hin Hx]. destruct Hk.
  rewrite <- (Hf x Hx). by apply elem_of_map_2, list_elem_of_In.
Qed.

(** A row found by its key in the narrowed table is the one in the table, if the account may see it. *)
Lemma find_narrowed {A K} (key : A -> K) (P f : A -> bool) (k : K) l :
  NoDup (map key l) -> (forall x, f x = true -> key x = k) ->
  find f (List.filter P l) = match find f l with Some x => if P x then Some x else None | None => None end.
Proof.
  intros Hn Hf. induction l as [|x l IH]; [done|]. cbn in *. apply NoDup_cons in Hn as [Hx Hn].
  destruct (f x) eqn:Ef.
  - destruct (P x); cbn; [by rewrite Ef|]. apply (find_none_unique key f k); [done|]. rewrite <- (Hf x Ef). intros Hin.
    apply Hx. apply elem_of_map in Hin as (y & -> & [_ Hy]%elem_of_List_filter). by apply elem_of_map_2.
  - destruct (P x); cbn; rewrite ?Ef; by apply IH.
Qed.

(** A narrower selection does not need the rest. *)
Lemma filter_narrowed {A} (P V : A -> bool) l : (forall x, x ∈ l -> P x = true -> V x = true) -> List.filter P (List.filter V l) = List.filter P l.
Proof.
  intros H. induction l as [|x l IH]; [done|]. cbn. rewrite <- IH by (intros; apply H; [by right|done]).
  destruct (V x) eqn:EV; cbn; [done|]. destruct (P x) eqn:EP; [|done]. rewrite (H x) in EV; [done|by left|done].
Qed.

Section tables.
Context (u : User) (s : state) (Hc : consistent s).

Lemma own_ids_within id : id ∈ own_ids u s <-> PagesProps.within u (domains_of s) id.
Proof.
  unfold own_ids, own_domains, PagesProps.within. rewrite elem_of_map. setoid_rewrite elem_of_List_filter.
  split; [intros (d & -> & ? & ?)|intros (d & ? & <- & ?)]; eauto.
Qed.

Lemma own_domain_ids d : d ∈ own_domains u s -> DID d ∈ own_ids u s.
Proof. by apply elem_of_map_2. Qed.

Lemma own_rows_elem r : r ∈ own_rows u s <-> r ∈ s_queue s /\ DomainID (q_msg r) ∈ own_ids u s.
Proof. unfold own_rows, in_domains. rewrite elem_of_List_filter. rewrite bool_decide_eq_true. tauto. Qed.

Lemma domain_of_id id :
  match DomainByID id (domains_of s) with Ok d => if CanAccessDomain u (DName d) then Some d else None | Err _ => None end =
  find (fun d => DID d =? id) (own_domains u s).
Proof.
  unfold own_domains. rewrite (find_narrowed DID _ _ id); [|apply Hc|intros; by bools].
  unfold DomainByID. by destruct (find _ _).
Qed.

Lemma row_of_id id :
  find (by_id id) (own_rows u s) = match lookup_row id (s_queue s) with Some r => if in_domains (own_ids u s) r then Some r else None | None => None end.
Proof. apply (find_narrowed row_id _ _ id); [apply Hc|]. intros x Hx. unfold by_id in Hx. by bools. Qed.

(** Whether the account may see a message, asked of the database. *)
Lemma may_see r : Scoped u = true -> r ∈ s_queue s ->
  CanAccessDomainID u (domains_of s) (DomainID (q_msg r)) = Ok (in_domains (own_ids u s) r).
Proof.
  intros Hs Hr. unfold CanAccessDomainID. rewrite Hs. cbn [negb]. apply Hc, elem_of_map in Hr as (d & Ed & Hd). rewrite Ed.
  unfold DomainByID. destruct (find _ _) as [d'|] eqn:E.
  2: { apply list_elem_of_In in Hd. apply (find_none _ _ E) in Hd. bools. lia. }
  apply find_some in E as [Hin%list_elem_of_In E]. bools. rewrite (NoDup_map_unique DID _ d' d (co_ids _ Hc) Hin Hd E).
  f_equal. unfold in_domains. rewrite Ed. destruct (CanAccessDomain u (DName d)) eqn:Ea; symmetry.
  - apply bool_decide_eq_true, own_ids_within. by exists d.
  - apply bool_decide_eq_false. intros (d1 & Hd1 & E1 & Ha)%own_ids_within.
    by rewrite (NoDup_map_unique DID _ d1 d (co_ids _ Hc) Hd1 Hd E1), Ea in Ha.
Qed.
End tables.

(** *** Narrowed tables of two states that are alike *)

Section alike.
Context (u : User) (s1 s2 : state) (Ha : alike u s1 s2).

Lemma alike_filter P : (forall r, P r = true -> in_domains (own_ids u s1) r = true) -> List.filter P (s_queue s1) = List.filter P (s_queue s2).
Proof.
  intros HP. rewrite <- (filter_narrowed P (in_domains (own_ids u s1)) (s_queue s1)) by auto.
  rewrite <- (filter_narrowed P (in_domains (own_ids u s2)) (s_queue s2)) by (rewrite <- (alike_ids _ _ _ Ha); auto).
  f_equal. apply (al_rows _ _ _ Ha).
Qed.

Lemma alike_affected P : (forall r, P r = true -> in_domains (own_ids u s1) r = true) -> rows_affected P (s_queue s1) = rows_affected P (s_queue s2).
Proof. intros HP. unfold rows_affected. by rewrite (alike_filter P). Qed.

Lemma alike_pending id : id ∈ own_ids u s1 -> CountPendingForDomain id (s_queue s1) = CountPendingForDomain id (s_queue s2).
Proof. intros Hid. apply alike_affected. intros r Hr. bools. apply bool_decide_eq_true. congruence. Qed.

Lemma in_domains_sub ids ids' r : ids ⊆ ids' -> in_domains ids r = true -> in_domains ids' r = true.
Proof. unfold in_domains. rewrite !bool_decide_eq_true. auto. Qed.

Lemma alike_stats ids : ids ⊆ own_ids u s1 -> StatsForDomains ids (s_queue s1) = StatsForDomains ids (s_queue s2).
Proof.
  intros Hi. unfold StatsForDomains. destruct ids as [|i ids]; [done|]. rewrite (alike_filter (in_domains (i :: ids))); [done|].
  intros r. by apply in_domains_sub.
Qed.

Lemma alike_quarantined ids : ids ⊆ own_ids u s1 -> CountQuarantinedForDomains ids (s_queue s1) = CountQuarantinedForDomains ids (s_queue s2).
Proof.
  intros Hi. unfold CountQuarantinedForDomains. destruct ids as [|i ids]; [done|]. apply alike_affected.
  intros r Hr. bools. by eapply in_domains_sub.
Qed.

Lemma alike_messages f : (forall r, list_where f r = true -> in_domains (own_ids u s1) r = true) ->
  ListMessages f (s_queue s1) = ListMessages f (s_queue s2).
Proof. intros Hf. unfold ListMessages. by rewrite (alike_filter _ Hf). Qed.

Lemma alike_event_list ids limit : ids ⊆ own_ids u s1 ->
  ListEventsForDomains ids limit (s_events s1) = ListEventsForDomains ids limit (s_events s2).
Proof.
  intros Hi. unfold ListEventsForDomains. destruct ids as [|i ids]; [done|]. do 2 f_equal. set (P := fun r => _).
  assert (HP : forall x, P x = true -> of_domains (own_ids u s1) x = true).
  { intros x. unfold P, of_domains. destruct (EDomainID _); [|done]. rewrite !bool_decide_eq_true. auto. }
  pose proof (al_events _ _ _ Ha) as He. unfold own_events in He.
  rewrite <- (filter_narrowed P (of_domains (own_ids u s1)) (et_rows (s_events s1))) by auto.
  rewrite <- (filter_narrowed P (of_domains (own_ids u s2)) (et_rows (s_events s2))) by (rewrite <- (alike_ids _ _ _ Ha); auto).
  by rewrite He.
Qed.
End alike.

(** The list of an account's domains, sorted. *)
Lemma name_le_antisym ds a b : NoDup (map DName ds) -> a ∈ ds -> b ∈ ds -> name_le a b -> name_le b a -> a = b.
Proof.
  intros Hn Hin Hb H1 H2. apply (NoDup_map_unique DName ds); [done..|]. unfold name_le, text_leb in *.
  apply text_compare_eq. rewrite text_compare_antisym in H2. by destruct (text_compare (DName a) (DName b)).
Qed.

#[export] Instance name_le_trans : Transitive name_le.
Proof. intros a b c. apply text_leb_trans. Qed.
#[export] Instance name_le_total : base.Total name_le.
Proof. intros a b. apply text_leb_total. Qed.

Lemma StronglySorted_filter {A} (R : relation A) (P : A -> bool) l : StronglySorted R l -> StronglySorted R (List.filter P l).
Proof.
  induction 1 as [|x l Hs IH Hx]; cbn; [constructor|]. destruct (P x); [|done]. constructor; [done|].
  apply Forall_forall. intros y [_ Hy]%elem_of_List_filter. by eapply Forall_forall in Hx.
Qed.

#[export] Instance List_filter_Permutation {A} (P : A -> bool) : Proper ((≡ₚ) ==> (≡ₚ)) (List.filter P).
Proof.
  intros l l2. induction 1 as [|x l l2 _ IH|x y l|l1 l2 l3 _ IH1 _ IH2]; cbn; [done| | |by etrans].
  - destruct (P x); [by constructor|done].
  - destruct (P x), (P y); try done. constructor.
Qed.

Lemma domainsForUser_own u s : Scoped u = true -> domainsForUser (Some u) (domains_of s) ≡ₚ own_domains u s.
Proof.
  intros Hs. unfold domainsForUser, ListDomains, own_domains. rewrite Hs. cbn [negb].
  set (P := fun d => bool_decide _). rewrite (List.filter_ext P (fun d => CanAccessDomain u (DName d))).
  - by rewrite (merge_sort_Permutation name_le (domains_of s)).
  - intros d. unfold P, CanAccessDomain. rewrite Hs. cbn [negb]. apply eq_bool_prop_intro.
    rewrite !Is_true_true, bool_decide_eq_true, elem_of_map, existsb_elem. unfold equal_fold.
    split; intros (x & E & Hx); exists x; [|by bools]. split; [done|]. by rewrite bool_decide_eq_true_2.
Qed.

Lemma domainsForUser_alike u s1 s2 :
  Scoped u = true -> consistent s1 -> consistent s2 -> alike u s1 s2 ->
  domainsForUser (Some u) (domains_of s1) = domainsForUser (Some u) (domains_of s2).
Proof.
  intros Hs H1 H2 Ha. apply (StronglySorted_unique_strong name_le).
  - intros a b Hin Hb. rewrite (domainsForUser_own u) in Hin, Hb by done. rewrite <- (al_domains _ _ _ Ha) in Hb.
    apply elem_of_List_filter in Hin as [_ Hin], Hb as [_ Hb]. apply (name_le_antisym (domains_of s1)); [apply H1|done..].
  - unfold domainsForUser. rewrite Hs. cbn [negb]. apply StronglySorted_filter, StronglySorted_merge_sort; apply _.
  - unfold domainsForUser. rewrite Hs. cbn [negb]. apply StronglySorted_filter, StronglySorted_merge_sort; apply _.
  - rewrite !domainsForUser_own by done. by rewrite (al_domains _ _ _ Ha).
Qed.

Lemma allowed_alike u s1 s2 :
  Scoped u = true -> consistent s1 -> consistent s2 -> alike u s1 s2 ->
  allowedDomainIDsForUser (Some u) (domains_of s1) = allowedDomainIDsForUser (Some u) (domains_of s2).
Proof. intros. unfold allowedDomainIDsForUser. by rewrite (domainsForUser_alike u s1 s2). Qed.

Lemma allowed_own u s ids : Scoped u = true -> allowedDomainIDsForUser (Some u) (domains_of s) = Some ids -> ids ⊆ own_ids u s.
Proof.
  intros Hs. unfold allowedDomainIDsForUser. rewrite Hs. intros [= <-] id Hid. unfold own_ids. by rewrite <- (domainsForUser_own u s).
Qed.

Section two_runs.
Context (u : User).

(** While the database answers, both runs give the same, and leave states that are alike. *)
Definition same {A} (K : pre) (m : M A) (Q : A -> pre) : Prop :=
  forall s1 s2 e, settled K s1 -> settled K s2 -> alike u s1 s2 -> e_faults e = [] ->
    exists a s1' s2' e', m (World s1 e) = (a, World s1' e') /\ m (World s2 e) = (a, World s2' e') /\
      settled (Q a) s1' /\ settled (Q a) s2' /\ alike u s1' s2' /\ e_faults e' = [].

Definition same_ {A} (K : pre) (m : M A) : Prop := same K m (fun _ => K).

Lemma same_ret {A} (a : A) K (Q : A -> pre) : (forall ds q, K ds q -> Q a ds q) -> same K (ret a) Q.
Proof. intros HQ s1 s2 e [] [] Ha He. exists a, s1, s2, e. split_and!; try done; split; auto. Qed.

Lemma same_bind {A B} (m : M A) (k : A -> M B) K R Q :
  same K m R -> (forall a, same (R a) (k a) Q) -> same K (bind m k) Q.
Proof.
  intros Hm Hk s1 s2 e H1 H2 Ha He. destruct (Hm s1 s2 e H1 H2 Ha He) as (a & t1 & t2 & e' & E1 & E2 & H1' & H2' & Ha' & He').
  destruct (Hk a t1 t2 e' H1' H2' Ha' He') as (b & Hb). exists b. unfold bind. by rewrite E1, E2.
Qed.

Lemma same_mono {A} (m : M A) (K K' : pre) (Q Q' : A -> pre) :
  same K m Q -> (forall ds q, K' ds q -> K ds q) -> (forall a ds q, Q a ds q -> Q' a ds q) -> same K' m Q'.
Proof.
  intros Hm HK HQ s1 s2 e [Hc1 H1] [Hc2 H2] Ha He.
  destruct (Hm s1 s2 e) as (a & t1 & t2 & e' & E1 & E2 & [] & [] & Ha' & He'); [split; auto|split; auto|done|done|].
  exists a, t1, t2, e'. split_and!; try done; split; auto.
Qed.

(** A fact about values, learnt on the way. *)
Lemma same_fact {A} (P : Prop) (m : M A) K Q : (P -> same K m Q) -> same (fun ds q => K ds q /\ P) m Q.
Proof. intros Hm s1 s2 e [Hc1 [H1 HP]] [Hc2 [H2 _]]. apply (Hm HP); by split. Qed.

(** Nothing is asked of what a page leaves. *)
Lemma same_any {A} (m : M A) K : same_ K m -> same K m (fun _ _ _ => True).
Proof. intros Hm. by eapply same_mono. Qed.

Lemma same_statement {A} (f : state -> result A * state) K (Q : result A -> pre) :
  (forall s1 s2, settled K s1 -> settled K s2 -> alike u s1 s2 -> fst (f s1) = fst (f s2) /\ alike u (snd (f s1)) (snd (f s2))) ->
  (forall s, settled K s -> settled (Q (fst (f s))) (snd (f s))) -> same K (statement f) Q.
Proof.
  intros Hf HQ s1 s2 e H1 H2 Ha He. destruct (Hf s1 s2 H1 H2 Ha) as [E Ha']. pose proof (HQ s1 H1) as Q1. pose proof (HQ s2 H2) as Q2.
  unfold statement, bind, next_fault, ret. cbn. rewrite He.
  revert E Ha' Q1 Q2. destruct (f s1) as [a t1] eqn:E1, (f s2) as [b t2] eqn:E2. cbn.
  intros <- Ha' Q1 Q2. exists a, t1, t2, e. by rewrite E1, E2.
Qed.

(** A query whose answer is the same from states that are alike. *)
Lemma same_query {A} (f : state -> result A) K (Q : result A -> pre) :
  (forall s1 s2, settled K s1 -> settled K s2 -> alike u s1 s2 -> f s1 = f s2) ->
  (forall s, settled K s -> Q (f s) (domains_of s) (s_queue s)) -> same K (query f) Q.
Proof. intros Hf HQ. apply same_statement; [intros; split; [by apply Hf|done]|]. intros s Hs. split; [apply Hs|by apply HQ]. Qed.

Lemma same_ask {A} (f : state -> result A) K :
  (forall s1 s2, settled K s1 -> settled K s2 -> alike u s1 s2 -> f s1 = f s2) -> same_ K (query f).
Proof. intros Hf. apply same_query; [done|]. intros s Hs. apply Hs. Qed.

(** A change outside the domains, the queue, and what belongs to domains. *)
Lemma same_modify f K :
  (forall s1 s2, alike u s1 s2 -> alike u (f s1) (f s2)) ->
  (forall s, s_domains (f s) = s_domains s /\ s_queue (f s) = s_queue s) -> same_ K (modify f).
Proof.
  intros Hf Hk s1 s2 e H1 H2 Ha He. exists tt, (f s1), (f s2), e. destruct (Hk s1), (Hk s2).
  split_and!; eauto using settled_keeps.
Qed.

(** *** The primitives of the pages *)

Lemma same_now K : same_ K now_.
Proof.
  intros s1 s2 e H1 H2 Ha He. unfold now_. cbn. rewrite (al_now _ _ _ Ha).
  destruct (e_ticks e) as [|d ts]; do 4 eexists; (split; [reflexivity|]; split; [reflexivity|]);
    (split_and!; [by eapply settled_keeps; [| |exact H1]|by eapply settled_keeps; [| |exact H2]|by destruct Ha|done]).
Qed.

Lemma same_new_id K : same_ K new_id.
Proof.
  intros s1 s2 e H1 H2 Ha He. unfold new_id. cbn. destruct (e_ids e) as [|i rest]; do 4 eexists; by split_and!.
Qed.

Lemma same_drain K : same_ K IsDraining.
Proof.
  intros s1 s2 e H1 H2 Ha He. exists (s_drain s1), s1, s2, e. split_and!; try done. cbn. by rewrite (al_drain _ _ _ Ha).
Qed.

Lemma same_accounts {A} (f : user_tables -> result A * user_tables) K : same_ K (on_accounts f).
Proof.
  apply same_statement.
  - intros s1 s2 _ _ Ha. rewrite (al_users _ _ _ Ha). destruct (f (s_users s2)) as [r t]. split; [done|]. by destruct Ha.
  - intros s Hs. destruct (f (s_users s)). by eapply settled_keeps; [| |exact Hs].
Qed.

Lemma same_login_Allow k K : same_ K (login_Allow k).
Proof.
  eapply same_bind; [apply same_now|]. intros now s1 s2 e H1 H2 Ha He. cbn. rewrite (al_logins _ _ _ Ha).
  destruct (Allow k now (s_logins s2)) as [b l]. do 4 eexists. split; [reflexivity|]. split; [reflexivity|].
  split_and!; [by eapply settled_keeps; [| |exact H1]|by eapply settled_keeps; [| |exact H2]|by destruct Ha|done].
Qed.

Lemma same_login_Reset k K : same_ K (login_Reset k).
Proof.
  apply same_modify; [|done]. intros s1 s2 Ha. destruct Ha. split; try done. cbn. congruence.
Qed.

Lemma same_audit p r ev K : same_ K (audit p r ev).
Proof.
  eapply same_bind; [apply same_now|]. intros now. apply same_statement.
  - intros s1 s2 _ _ Ha. split; [done|]. pose proof (alike_ids _ _ _ Ha) as E. destruct Ha. split; try done; cbn [s_events set_s_events].
    + unfold own_events in al_events0.
      change (List.filter (of_domains (own_ids u s1)) (et_rows (s_events s1) ++ [EventRow (et_next (s_events s1)) (audited p r ev) now]) =
              List.filter (of_domains (own_ids u s2)) (et_rows (s_events s2) ++ [EventRow (et_next (s_events s2)) (audited p r ev) now])).
      by rewrite !List.filter_app, al_events0, al_next_event0, E.
    + cbn. by rewrite al_next_event0.
  - intros s Hs. by eapply settled_keeps; [| |exact Hs].
Qed.

(** A probe dials the primary; what else was said to it is not looked at. *)
Lemma same_Probe hc d K : same_ K (Probe hc d).
Proof.
  intros s1 s2 e H1 H2 Ha He. unfold Probe, bind, dial, command, ret. cbn.
  destruct (e_dials e) as [|[x|pr] ds]; cbn; do 4 eexists; (split; [reflexivity|]; split; [reflexivity|]);
    (split_and!; [by eapply settled_keeps; [| |exact H1]|by eapply settled_keeps; [| |exact H2]|by destruct Ha|done]).
Qed.

Lemma same_blob_Delete id K : same_ K (blob_Delete id).
Proof.
  intros s1 s2 e H1 H2 Ha He. unfold blob_Delete, bind, next_blob_fault, ret. destruct (negb _); [do 4 eexists; by split_and!|].
  cbn. assert (Hd : alike u (set_s_blobs (delete id (s_blobs s1)) s1) (set_s_blobs (delete id (s_blobs s2)) s2)).
  { destruct Ha. split; try done. intros r Hr. cbn. destruct (decide (id = row_id r)) as [->|Hn].
    - by rewrite !lookup_delete_eq.
    - rewrite !lookup_delete_ne by done. by apply al_blobs0. }
  destruct (e_blobs e) as [|[|x|rd] fs]; cbn; do 4 eexists; (split; [reflexivity|]; split; [reflexivity|]);
    (split_and!; [by eapply settled_keeps; [| |exact H1]|by eapply settled_keeps; [| |exact H2]|done|done]).
Qed.

(** *** What the pages read *)

(** A computation that only reads. *)
Lemma same_value {A} (m : M A) (v : state -> A) K (Q : A -> pre) :
  (forall s e, settled K s -> e_faults e = [] -> m (World s e) = (v s, World s e)) ->
  (forall s1 s2, settled K s1 -> settled K s2 -> alike u s1 s2 -> v s1 = v s2) ->
  (forall s, settled K s -> Q (v s) (domains_of s) (s_queue s)) -> same K m Q.
Proof.
  intros Hm Hv HQ s1 s2 e H1 H2 Ha He. exists (v s1), s1, s2, e. pose proof (Hv s1 s2 H1 H2 Ha) as E.
  split_and!; try done; [by apply Hm|by rewrite E; apply Hm|split; [apply H1|by apply HQ]|split; [apply H2|rewrite E; by apply HQ]].
Qed.

Lemma query_runs {A} (f : state -> result A) s e : e_faults e = [] -> query f (World s e) = (f s, World s e).
Proof. intros He. unfold query, statement, bind, next_fault. cbn. by rewrite He. Qed.

Definition with_domain (K : pre) (d : domain) : pre :=
  fun ds q => K ds q /\ d ∈ List.filter (fun d => CanAccessDomain u (DName d)) ds.

Definition with_message (K : pre) (m : message) : pre :=
  fun ds q => K ds q /\ exists r, r ∈ q /\ q_msg r = m /\
    in_domains (map DID (List.filter (fun d => CanAccessDomain u (DName d)) ds)) r = true.

Lemma same_lookupDomain p seg K :
  p_user p = u -> same K (lookupDomain p seg) (fun a => match a with inr d => with_domain K d | inl _ => K end).
Proof.
  intros Hp. unfold lookupDomain. destruct (pathID seg) as [id|]; [|by apply same_ret].
  apply (same_value _ (fun s => match find (fun d => DID d =? id) (own_domains u s) with
                                | Some d => inr d | None => inl (fail 404 "domain_not_found"%string) end)).
  - intros s e [Hc _] He. unfold bind. rewrite query_runs by done. rewrite <- domain_of_id by done. rewrite Hp.
    destruct (DomainByID id (domains_of s)) as [d|x] eqn:E; unfold ret; [by destruct (CanAccessDomain _ _)|].
    unfold DomainByID in E. destruct (find _ _); [done|]. by injection E as <-.
  - intros s1 s2 _ _ Ha. by rewrite (al_domains _ _ _ Ha).
  - intros s [Hc HK]. destruct (find _ _) as [d|] eqn:E; [|done]. apply find_some in E as [Hin%list_elem_of_In _]. by split.
Qed.

Lemma same_lookupMessage p id K :
  p_user p = u -> Scoped u = true ->
  same K (lookupMessage p id) (fun a => match a with inr m => with_message K m | inl _ => K end).
Proof.
  intros Hp Hs. apply (same_value _ (fun s => match find (by_id id) (own_rows u s) with
                                | Some r => inr (q_msg r) | None => inl (fail 404 "message_not_found"%string) end)).
  - intros s e [Hc _] He. unfold lookupMessage, bind. rewrite query_runs by done. rewrite row_of_id by done. unfold GetMessage.
    destruct (lookup_row id (s_queue s)) as [r|] eqn:E; [|done]. apply lookup_row_Some in E as [Hr _].
    rewrite Hp, Hs. cbn [negb]. rewrite query_runs by done. rewrite may_see by done. by destruct (in_domains _ _).
  - intros s1 s2 _ _ Ha. by rewrite (al_rows _ _ _ Ha).
  - intros s [Hc HK]. destruct (find _ _) as [r|] eqn:E; [|done]. apply find_some in E as [Hin%list_elem_of_In _].
    apply elem_of_List_filter in Hin as [Ho Hr]. split; [done|]. by exists r.
Qed.

(** *** What they write in the queue *)

(** A change of the rows with the identifier of a message the account has looked up. *)
Lemma same_update p f m K :
  (forall r, p r = true -> row_id r = ID m) -> (forall r, DomainID (q_msg (f r)) = DomainID (q_msg r)) -> keeps_id f ->
  same (with_message K m) (on_queue (exec_update p f)) (fun _ _ _ => True).
Proof.
  intros Hp Hd Hid.
  assert (Hown : forall s, settled (with_message K m) s -> forall r, r ∈ s_queue s -> p r = true -> in_domains (own_ids u s) r = true).
  { intros s [Hc (_ & r0 & Hr0 & Em & Hin)] r Hr Hpr. rewrite (unique_ids_eq _ r r0 (co_rows _ Hc) Hr Hr0); [done|].
    rewrite (Hp r Hpr). by rewrite <- Em. }
  assert (Hin : forall ids r, in_domains ids (if p r then f r else r) = in_domains ids r)
    by (intros ids r; unfold in_domains; destruct (p r); [by rewrite Hd|done]).
  assert (Hnar : forall s, own_rows u (set_s_queue (update_where p f (s_queue s)) s) = update_where p f (own_rows u s)).
  { intros s. unfold own_rows. change (own_ids u (set_s_queue _ s)) with (own_ids u s). cbn [s_queue set_s_queue].
    unfold update_where. generalize (own_ids u s) as ids. intros ids. induction (s_queue s) as [|r q IH]; [done|]. cbn.
    rewrite Hin, IH. by destruct (in_domains ids r). }
  apply same_statement.
  - intros s1 s2 H1 H2 Ha. cbn. split.
    + assert (E : forall s, settled (with_message K m) s -> rows_affected p (s_queue s) = rows_affected p (own_rows u s)).
      { intros s Hs. unfold rows_affected, own_rows. rewrite filter_narrowed; [done|]. by apply Hown. }
      rewrite (E s1 H1), (E s2 H2). by rewrite (al_rows _ _ _ Ha).
    + pose proof (Hnar s1) as E1. pose proof (Hnar s2) as E2. destruct Ha. split; try done; [by rewrite E1, E2, al_rows0|].
      intros r Hr. rewrite E1 in Hr. apply elem_of_update_where in Hr as (x & Hx & ->). cbn.
      replace (row_id (if p x then f x else x)) with (row_id x) by (destruct (p x); [by rewrite Hid|done]). by apply al_blobs0.
  - intros s [Hc _]. split; [|done]. destruct Hc. split; try done; cbn.
    + unfold unique_ids. by rewrite update_where_ids.
    + intros r (x & Hx & ->)%elem_of_update_where. destruct (p x); [rewrite Hd|]; by apply co_keys0.
Qed.

Lemma same_RetryNow m now K : same (with_message K m) (on_queue (RetryNow (ID m) now)) (fun _ _ _ => True).
Proof. apply same_update; try done. intros r Hr. unfold StoreQueue.retryable, by_id in Hr. by bools. Qed.

Lemma same_Release m now K : same (with_message K m) (on_queue (Release (ID m) now)) (fun _ _ _ => True).
Proof. apply same_update; try done. intros r Hr. unfold by_id in Hr. by bools. Qed.

Lemma same_DeleteMessage m K : same (with_message K m) (on_queue (DeleteMessage (ID m))) (fun _ _ _ => True).
Proof.
  set (p := by_id (ID m)).
  assert (Hown : forall s, settled (with_message K m) s -> forall r, r ∈ s_queue s -> p r = true -> in_domains (own_ids u s) r = true).
  { intros s [Hc (_ & r0 & Hr0 & Em & Hin)] r Hr Hpr. unfold p, by_id in Hpr. bools.
    rewrite (unique_ids_eq _ r r0 (co_rows _ Hc) Hr Hr0); [done|]. rewrite Hpr. by rewrite <- Em. }
  assert (Hnar : forall s, own_rows u (set_s_queue (delete_where p (s_queue s)) s) = delete_where p (own_rows u s)).
  { intros s. unfold own_rows. change (own_ids u (set_s_queue _ s)) with (own_ids u s). cbn [s_queue set_s_queue].
    unfold delete_where. generalize (own_ids u s) as ids. intros ids. induction (s_queue s) as [|r q IH]; [done|]. cbn.
    destruct (p r) eqn:Ep, (in_domains ids r) eqn:Ei; cbn; rewrite ?Ep, ?Ei; cbn; congruence. }
  apply same_statement.
  - intros s1 s2 H1 H2 Ha. unfold DeleteMessage. cbn. fold p. split.
    + assert (E : forall s, settled (with_message K m) s -> rows_affected p (s_queue s) = rows_affected p (own_rows u s)).
      { intros s Hs. unfold rows_affected, own_rows. rewrite filter_narrowed; [done|]. by apply Hown. }
      rewrite (E s1 H1), (E s2 H2). by rewrite (al_rows _ _ _ Ha).
    + pose proof (Hnar s1) as E1. pose proof (Hnar s2) as E2. destruct Ha. split; try done; [by rewrite E1, E2, al_rows0|].
      intros r Hr. rewrite E1 in Hr. apply elem_of_delete_where in Hr as [Hr _]. by apply al_blobs0.
  - intros s [Hc _]. split; [|done]. unfold DeleteMessage. cbn. destruct Hc. split; try done; cbn.
    + unfold unique_ids. eapply sublist_NoDup; [exact co_rows0|apply delete_where_ids].
    + intros r [Hx _]%elem_of_delete_where. by apply co_keys0.
Qed.

(** The text of such a message. *)
Lemma same_blob_Get m K : same_ (with_message K m) (blob_Get (ID m)).
Proof.
  intros s1 s2 e H1 H2 Ha He.
  assert (Eb : s_blobs s1 !! ID m = s_blobs s2 !! ID m).
  { destruct H1 as [_ (_ & r & Hr & <- & Hin)]. apply (al_blobs _ _ _ Ha). unfold own_rows. by apply elem_of_List_filter. }
  unfold blob_Get, bind, next_blob_fault, get, ret. destruct (negb _); [do 4 eexists; by split_and!|]. cbn.
  destruct (e_blobs e) as [|f fs]; cbn; do 4 eexists; (split; [reflexivity|]; split; [by rewrite Eb|]); by split_and!.
Qed.
End two_runs.

(** ** What the pages answer *)

Lemma same__bind u K {A B} (m : M A) (k : A -> M B) : same_ u K m -> (forall a, same_ u K (k a)) -> same_ u K (bind m k).
Proof. intros Hm Hk. by eapply same_bind. Qed.

Lemma same__ret u K {A} (a : A) : same_ u K (ret a).
Proof. by apply same_ret. Qed.

Create HintDb sames.

(** Walk through a page that asks for nothing but accounts, clocks and draws. *)
Ltac sames_step :=
  match goal with
  | |- same_ _ _ (bind _ _) => apply same__bind; [|intros ?]
  | |- same_ _ _ (ret _) => apply same__ret
  | |- same_ _ _ now_ => apply same_now
  | |- same_ _ _ new_id => apply same_new_id
  | |- same_ _ _ IsDraining => apply same_drain
  | |- same_ _ _ (on_accounts _) => apply same_accounts
  | |- same_ _ _ (audit _ _ _) => apply same_audit
  | |- same_ _ _ (login_Allow _) => apply same_login_Allow
  | |- same_ _ _ (login_Reset _) => apply same_login_Reset
  | |- same_ _ _ (Probe _ _) => apply same_Probe
  | |- same_ _ _ (blob_Delete _) => apply same_blob_Delete
  | |- same_ _ _ (query _) => apply same_ask; intros ? ? _ _ Ha; solve [by rewrite (al_users _ _ _ Ha) | done]
  | |- same_ _ _ (let _ := _ in _) => cbv zeta
  | |- same_ _ _ (match ?x with _ => _ end) => destruct x
  | _ => solve [eauto with sames]
  | |- same_ _ _ ?m => let h := head_of m in unfold h; cbn beta
  end.
Ltac sames := intros; repeat sames_step.

Section answers.
Context `{SmtpLib} `{PasswordCrypto} `{AEAD} `{QRLib} `{DohLib} `{DmarcLib}.
Context (u : User) (p : principal) (Hp : p_user p = u) (Hs : Scoped u = true).

Lemma same_draw_codes n K : same_ u K (draw_codes n).
Proof. induction n; cbn [draw_codes]; sames. Qed.
#[local] Hint Resolve same_draw_codes : sames.

(** The account's own pages. *)
Lemma same_handleLogout r K : same_ u K (handleLogout p r).
Proof. sames. Qed.
Lemma same_handleMe r K : same_ u K (handleMe p r).
Proof. sames. Qed.
Lemma same_handleChangePassword r b K : same_ u K (handleChangePassword p r b).
Proof. sames. Qed.
Lemma same_handleTOTPSetup c r b K : same_ u K (handleTOTPSetup c p r b).
Proof. sames. Qed.
Lemma same_handleTOTPEnable c r b K : same_ u K (handleTOTPEnable c p r b).
Proof. sames. Qed.
Lemma same_handleTOTPDisable c r b K : same_ u K (handleTOTPDisable c p r b).
Proof. sames. Qed.
Lemma same_handleTOTPRecoveryCodes c r b K : same_ u K (handleTOTPRecoveryCodes c p r b).
Proof. sames. Qed.

(** The pages of a domain. *)
Lemma with_domain_id K d s : settled (with_domain u K d) s -> DID d ∈ own_ids u s.
Proof. intros [_ [_ Hd]]. by apply own_domain_ids. Qed.

Lemma same_on_domain seg K (k : response + domain -> M response) :
  (forall rs, same_ u K (k (inl rs))) -> (forall d, same_ u (with_domain u K d) (k (inr d))) ->
  same u K (bind (lookupDomain p seg) k) (fun _ _ _ => True).
Proof. intros Hl Hr. eapply same_bind; [by apply same_lookupDomain|]. intros [rs|d]; by apply same_any. Qed.

Lemma same_key_of d K : same_ u (with_domain u K d) (key_of d).
Proof.
  apply same_ask. intros s1 s2 Hd%with_domain_id _ Ha. unfold DKIMKeyFor. by rewrite (al_dkim _ _ _ Ha).
Qed.

Lemma same_primary {A} d K (f : primary_status -> A) :
  same_ u (with_domain u K d) (query (fun s => match dt_primary (s_domains s) !! DID d with Some st => Ok st | None => Err not_found end)).
Proof. apply same_ask. intros s1 s2 Hd%with_domain_id _ Ha. by rewrite (al_primary _ _ _ Ha). Qed.

Lemma same_pending d K : same_ u (with_domain u K d) (query (fun s => Ok (CountPendingForDomain (DID d) (s_queue s)))).
Proof. apply same_ask. intros s1 s2 Hd%with_domain_id _ Ha. by rewrite (alike_pending u s1 s2). Qed.

Lemma same_recipients d K : same_ u (with_domain u K d) (query (fun s => Ok (DomainRecipients (DID d) (s_recipients s)))).
Proof. apply same_ask. intros s1 s2 Hd%with_domain_id _ Ha. unfold DomainRecipients. by rewrite (al_recipients _ _ _ Ha). Qed.

Lemma same_sent d now K : same_ u (with_domain u K d) (query (fun s => Ok (SentThisMonth (DID d) now (s_usage s)))).
Proof. apply same_ask. intros s1 s2 Hd%with_domain_id _ Ha. unfold SentThisMonth. by rewrite (al_usage _ _ _ Ha). Qed.
#[local] Hint Resolve same_key_of same_primary same_pending same_recipients same_sent : sames.

Lemma same_domainJSON d K : same_ u (with_domain u K d) (domainJSON d).
Proof. sames. Qed.
#[local] Hint Resolve same_domainJSON : sames.

Lemma same_handleGetDomain seg r K : same u K (handleGetDomain seg p r) (fun _ _ _ => True).
Proof. apply same_on_domain; sames. Qed.
Lemma same_handleTestDomain c seg r K : same u K (handleTestDomain c seg p r) (fun _ _ _ => True).
Proof. apply same_on_domain; sames. Qed.
Lemma same_handleGetRecipients seg r K : same u K (handleGetRecipients seg p r) (fun _ _ _ => True).
Proof. apply same_on_domain; sames. Qed.
Lemma same_handleGetDKIM seg r K : same u K (handleGetDKIM seg p r) (fun _ _ _ => True).
Proof. apply same_on_domain; sames. Qed.
Lemma same_handleCheckDKIM seg r K : same u K (handleCheckDKIM seg p r) (fun _ _ _ => True).
Proof. apply same_on_domain; sames. Qed.
Lemma same_handleGetDMARC seg r K : same u K (handleGetDMARC seg p r) (fun _ _ _ => True).
Proof. apply same_on_domain; sames. Qed.
Lemma same_handleCheckDMARC seg r K : same u K (handleCheckDMARC seg p r) (fun _ _ _ => True).
Proof. apply same_on_domain; sames. Qed.
Lemma same_handleDomainDNS c seg r K : same u K (handleDomainDNS c seg p r) (fun _ _ _ => True).
Proof. apply same_on_domain; sames. Qed.

(** *** The lists *)

Definition with_domains (K : pre) (l : list domain) : pre :=
  fun ds q => K ds q /\ forall d, d ∈ l -> d ∈ List.filter (fun d => CanAccessDomain u (DName d)) ds.

Lemma same_each {A} K l d (m : M A) : d ∈ l -> same_ u (with_domain u (with_domains K l) d) m -> same_ u (with_domains K l) m.
Proof.
  intros Hin Hm. eapply same_mono; [exact Hm| |].
  - intros ds q Hd. split; [done|]. by apply Hd.
  - by intros a ds q [Hd _].
Qed.

Lemma same_domain_items K l0 l : l ⊆ l0 -> same_ u (with_domains K l0) (domain_items l).
Proof.
  induction l as [|d l IH]; intros Hl; cbn [domain_items]; [sames|]. apply same__bind; [apply (same_each _ _ d); [set_solver|sames]|].
  intros _. apply same__bind; [apply IH; set_solver|sames].
Qed.

Lemma same_domain_statuses K l0 l : l ⊆ l0 -> same_ u (with_domains K l0) (domain_statuses l).
Proof.
  induction l as [|d l IH]; intros Hl; cbn [domain_statuses]; [sames|]. apply same__bind; [apply (same_each _ _ d); [set_solver|sames]|].
  intros one. apply same__bind; [apply IH; set_solver|sames].
Qed.

(** The domains of the account, in their order. *)
Lemma same_domains K :
  same u K (query (fun s => Ok (domainsForUser (Some (p_user p)) (domains_of s))))
    (fun r => match r with Ok l => with_domains K l | Err _ => K end).
Proof.
  rewrite Hp. apply same_query.
  - intros s1 s2 [Hc1 _] [Hc2 _] Ha. by rewrite (domainsForUser_alike u s1 s2).
  - intros s [_ HK]. split; [done|]. intros d Hd. change (d ∈ own_domains u s). by rewrite <- (domainsForUser_own u s).
Qed.

Lemma same_handleListDomains r K : same u K (handleListDomains p r) (fun _ _ _ => True).
Proof.
  unfold handleListDomains. eapply same_bind; [apply same_domains|]. intros [l|e]; apply same_any; [|sames].
  apply same__bind; [by apply same_domain_items|sames].
Qed.

(** A list of identifiers of domains of the account. *)
Definition with_ids (K : pre) (ids : list Z) : pre :=
  fun ds q => K ds q /\ ids ⊆ map DID (List.filter (fun d => CanAccessDomain u (DName d)) ds).

Lemma same_allowed K :
  same u K (query (fun s => Ok (allowedDomainIDsForUser (Some (p_user p)) (domains_of s))))
    (fun r => match r with Ok (Some ids) => with_ids K ids | Ok None => fun _ _ => False | Err _ => K end).
Proof.
  rewrite Hp. apply same_query.
  - intros s1 s2 [Hc1 _] [Hc2 _] Ha. by rewrite (allowed_alike u s1 s2).
  - intros s [_ HK]. destruct (allowedDomainIDsForUser _ _) as [ids|] eqn:E.
    + split; [done|]. by apply (allowed_own u s).
    + unfold allowedDomainIDsForUser in E. by rewrite Hs in E.
Qed.

Lemma same_absurd {A} (m : M A) Q : same u (fun _ _ => False) m Q.
Proof. by intros s1 s2 e [_ []]. Qed.

Lemma same_visible_stats K ids : same_ u (with_ids K ids) (visible_stats (Some ids)).
Proof.
  unfold visible_stats. apply same__bind.
  - apply same_ask. intros s1 s2 [_ [_ Hi]] _ Ha. by rewrite (alike_stats u s1 s2).
  - intros [st|e]; [|sames]. apply same__bind; [|sames].
    apply same_ask. intros s1 s2 [_ [_ Hi]] _ Ha. by rewrite (alike_quarantined u s1 s2).
Qed.

Lemma same_handleStatus c watching disk certs r K : same u K (handleStatus c watching disk certs p r) (fun _ _ _ => True).
Proof.
  unfold handleStatus. eapply same_bind; [apply same_domains|]. intros [l|e]; [|apply same_any; sames].
  eapply same_bind; [apply same_allowed|]. intros [[ids|]|e]; [|apply same_absurd|apply same_any; sames].
  eapply same_bind; [apply same_visible_stats|]. intros [[stats n]|e]; [|apply same_any; sames].
  eapply same_bind; [|intros one; apply same_any; sames].
  eapply same_mono; [by apply (same_domain_statuses K l)|by intros ds q [? _]|intros a ds q Hk; exact Hk].
Qed.

(** *** The queue and the events *)

Lemma same_handleListQueue q r K : same u K (handleListQueue q p r) (fun _ _ _ => True).
Proof.
  unfold handleListQueue. eapply same_bind; [apply same_allowed|]. intros [[ids|]|e]; [|apply same_absurd|apply same_any; sames].
  destruct (listing_scope _ _) as [[id ids']|] eqn:El; [|apply same_any; sames]. apply same_any, same__bind; [|sames].
  apply same_ask. intros s1 s2 [_ [_ Hi]] _ Ha. destruct (_ && _); [|done]. rewrite (alike_messages u s1 s2); [done..|].
  intros row Hw. apply bool_decide_eq_true, Hi. by refine (listing_rows _ _ _ _ _ _ El _ _ Hw).
Qed.

(** Naming events of the account's domains. *)
Lemma named_own s1 s2 id :
  consistent s1 -> consistent s2 -> alike u s1 s2 -> id ∈ own_ids u s1 ->
  named (map (fun d => (DID d, DName d)) (ListDomains (domains_of s1))) (Some id) =
  named (map (fun d => (DID d, DName d)) (ListDomains (domains_of s2))) (Some id).
Proof.
  intros Hc1 Hc2 Ha Hid.
  assert (Hn : forall s d, consistent s -> d ∈ own_domains u s ->
    named (map (fun d => (DID d, DName d)) (ListDomains (domains_of s))) (Some (DID d)) = DName d).
  { intros s d Hc [_ Hd]%elem_of_List_filter. unfold named. destruct (find _ _) as [[i n]|] eqn:E.
    - apply find_some in E as [Hin%list_elem_of_In E]. bools. apply elem_of_map in Hin as (d' & [= -> ->] & Hd').
      unfold ListDomains in Hd'. rewrite (merge_sort_Permutation name_le (domains_of s)) in Hd'.
      by rewrite (NoDup_map_unique DID _ d' d (co_ids _ Hc) Hd' Hd E).
    - exfalso. rewrite <- (merge_sort_Permutation name_le (domains_of s)) in Hd.
      apply (elem_of_map_2 (fun d => (DID d, DName d))), list_elem_of_In in Hd. apply (find_none _ _ E) in Hd. bools. cbn in Hd. lia. }
  apply elem_of_map in Hid as (d & -> & Hd). rewrite (Hn s1 d Hc1 Hd). rewrite (Hn s2 d Hc2); [done|]. by rewrite <- (al_domains _ _ _ Ha).
Qed.

Lemma same_nameEvents events K ids :
  Forall (fun e => of_domains ids e = true) events -> same u (with_ids K ids) (nameEvents events) (fun _ _ _ => True).
Proof.
  intros Hev. unfold nameEvents.
  set (names := fun s => map (fun d => (DID d, DName d)) (ListDomains (domains_of s))).
  set (users := fun s => map (fun x => (UID x, Email x)) (ListUsers (s_users s))).
  apply (same_value u _ (fun s => map (fun e => IEvent e (named (users s) (EUserID (ev_event e))) (named (names s) (EDomainID (ev_event e)))) events)); [|..].
  - intros s e _ He. unfold bind. rewrite !query_runs by done. done.
  - intros s1 s2 [Hc1 [_ Hi]] [Hc2 _] Ha. apply map_ext_in. intros e He%list_elem_of_In. unfold users. rewrite (al_users _ _ _ Ha). f_equal.
    eapply Forall_forall in Hev; [|exact He]. unfold of_domains in Hev. destruct (EDomainID _) as [d|]; [|done]. bools.
    apply named_own; auto.
  - done.
Qed.

Lemma same_handleListEvents limit r K : same u K (handleListEvents limit p r) (fun _ _ _ => True).
Proof.
  unfold handleListEvents. eapply same_bind; [apply same_allowed|]. intros [[ids|]|e]; [|apply same_absurd|apply same_any; sames].
  eapply (same_bind u _ _ _ (fun r => match r with Ok ev => fun ds q => with_ids K ids ds q /\ Forall (fun e => of_domains ids e = true) ev
                                               | Err _ => K end)).
  - apply same_query.
    + intros s1 s2 [_ [_ Hi]] _ Ha. by rewrite (alike_event_list u s1 s2).
    + intros s Hk. split; [apply Hk|]. apply Forall_forall. intros e He. unfold ListEventsForDomains in He.
      destruct ids as [|i ids]; [set_solver|]. apply subseteq_take, elem_of_rev, elem_of_List_filter in He as [He _]. exact He.
  - intros [ev|e]; [|apply same_any; sames]. apply same_fact. intros Hev.
    eapply same_bind; [by apply same_nameEvents|]. intros items. apply same_any. sames.
Qed.

(** *** A message *)

Lemma same_handleGetMessage id r K : same u K (handleGetMessage id p r) (fun _ _ _ => True).
Proof.
  unfold handleGetMessage. eapply same_bind; [by apply same_lookupMessage|]. intros [rs|m]; apply same_any; sames.
Qed.

Lemma same_handleRawMessage id r K : same u K (handleRawMessage id p r) (fun _ _ _ => True).
Proof.
  unfold handleRawMessage. eapply same_bind; [by apply same_lookupMessage|]. intros [rs|m]; apply same_any; [sames|].
  apply same__bind; [apply same_audit|]. intros [logged|e]; [|sames]. apply same__bind; [apply same_blob_Get|sames].
Qed.

Lemma same_handleRetryMessage id r K : same u K (handleRetryMessage id p r) (fun _ _ _ => True).
Proof.
  unfold handleRetryMessage. eapply same_bind; [by apply same_lookupMessage|]. intros [rs|m]; [apply same_any; sames|].
  eapply same_bind; [apply same_now|]. intros now. eapply same_bind; [apply same_RetryNow|]. intros done_. apply same_any. sames.
Qed.

Lemma same_handleReleaseMessage id r K : same u K (handleReleaseMessage id p r) (fun _ _ _ => True).
Proof.
  unfold handleReleaseMessage. eapply same_bind; [by apply same_lookupMessage|]. intros [rs|m]; [apply same_any; sames|].
  eapply same_bind; [apply same_now|]. intros now. eapply same_bind; [apply same_Release|]. intros done_. apply same_any. sames.
Qed.

Lemma same_handleDeleteMessage id r K : same u K (handleDeleteMessage id p r) (fun _ _ _ => True).
Proof.
  unfold handleDeleteMessage. eapply same_bind; [by apply same_lookupMessage|]. intros [rs|m]; [apply same_any; sames|].
  case_bool_decide; [apply same_any; sames|]. eapply same_bind; [apply same_audit|]. intros logged.
  eapply same_bind; [apply same_DeleteMessage|]. intros done_. apply same_any. sames.
Qed.

(** *** The stream of live events *)

Lemma same_liveVisible ev K : same_ u K (liveVisible (Some u) ev).
Proof.
  unfold liveVisible. rewrite Hs. cbn [negb]. case_bool_decide; cbn [negb]; [|sames]. case_bool_decide; cbn [negb]; [sames|].
  set (id := payload_text _ _).
  apply (same_value u _ (fun s => bool_decide (is_Some (find (by_id id) (own_rows u s))))).
  - intros s e [Hc _] He. unfold bind. rewrite query_runs by done. rewrite row_of_id by done. unfold GetMessage.
    destruct (lookup_row id (s_queue s)) as [row|] eqn:E; [|done]. apply lookup_row_Some in E as [Hr _].
    rewrite query_runs by done. rewrite may_see by done. by destruct (in_domains _ _).
  - intros s1 s2 _ _ Ha. by rewrite (al_rows _ _ _ Ha).
  - intros s [_ HK]. exact HK.
Qed.

Lemma same_live_loop events K : same_ u K (live_loop u events).
Proof. induction events; cbn [live_loop]; [sames|]. apply same__bind; [apply same_liveVisible|]. intros v. apply same__bind; [done|sames]. Qed.

Lemma same_handleLive now r K : same_ u K (handleLive now p r).
Proof. unfold handleLive. rewrite Hp. apply same__bind; [apply same_live_loop|sames]. Qed.
End answers.

(** ** What the pages show and change *)

(** What a computation gives, whatever the state and the environment. *)
Definition gives {A} (P : A -> Prop) (m : M A) : Prop := forall w, P (fst (m w)).

Lemma gives_ret {A} (P : A -> Prop) a : P a -> gives P (ret a).
Proof. by intros H w. Qed.
Lemma gives_bind {A B} (P : A -> Prop) (Q : B -> Prop) (m : M A) (k : A -> M B) :
  gives P m -> (forall a, P a -> gives Q (k a)) -> gives Q (bind m k).
Proof. intros Hm Hk w. specialize (Hm w). unfold bind. destruct (m w) as [a w1]. by apply Hk. Qed.
Lemma gives_next {A B} (Q : B -> Prop) (m : M A) (k : A -> M B) : (forall a, gives Q (k a)) -> gives Q (bind m k).
Proof. intros Hk. apply (gives_bind (fun _ => True)); [by intros w|auto]. Qed.

(** A reply without objects: what a refused look-up or check gives, and what most pages give. *)
Definition bare (rs : response) : Prop := rs_items rs = [].
Definition refusal_bare {A} (a : response + A) : Prop := match a with inl rs => bare rs | inr _ => True end.

Create HintDb bares.
Ltac bares_step :=
  match goal with
  | |- gives _ (bind ?m _) =>
      first [eapply gives_bind; [solve [eauto with bares]|first [intros [?|?] ?; cbn [refusal_bare] in * | intros ? ?]] | apply gives_next; intros ?]
  | |- gives _ (ret _) => apply gives_ret; first [assumption | exact I | reflexivity | try unfold no_key; repeat (cbn; split_match); first [reflexivity | assumption]]
  | |- gives _ (match ?x with _ => _ end) => destruct x
  | |- gives _ (let _ := _ in _) => cbv zeta
  | |- gives _ ?m => let h := head_of m in unfold h; cbn beta
  end.
Ltac bares := intros; repeat bares_step.

Section shown.
Context `{SmtpLib} `{PasswordCrypto} `{AEAD} `{QRLib} `{DohLib} `{DmarcLib}.

Lemma bare_lookupDomain p seg : gives refusal_bare (lookupDomain p seg).
Proof. bares. Qed.
Lemma bare_lookupMessage p id : gives refusal_bare (lookupMessage p id).
Proof. bares. Qed.
Lemma bare_accountGuard p r : gives refusal_bare (accountGuard p r).
Proof. bares. Qed.
Hint Resolve bare_lookupDomain bare_lookupMessage bare_accountGuard : bares.
Lemma bare_wrongPassword p r x : gives bare (wrongPassword p r x).
Proof. bares. Qed.
Hint Resolve bare_wrongPassword : bares.
Lemma bare_confirmIdentity c p r b : gives refusal_bare (confirmIdentity c p r b).
Proof. bares. Qed.
Hint Resolve bare_confirmIdentity : bares.

(** A page that changes nothing but the accounts and the trail, and shows no object. *)
Definition plain (m : M response) : Prop := keeps touched m /\ gives bare m.

Lemma keeps_touched_logins k : keeps touched (login_Allow k).
Proof. unfold login_Allow. apply keeps_bind; [by apply keeps_now|]. intros t md s e He. cbn. by destruct (Allow k t (s_logins s)). Qed.
Lemma keeps_touched_codes n : keeps touched (draw_codes n).
Proof. induction n; cbn [draw_codes]; views. Qed.
Lemma keeps_touched_statuses ds : keeps touched (domain_statuses ds).
Proof. induction ds; cbn [domain_statuses]; views. Qed.
Lemma keeps_touched_live u events : keeps touched (live_loop u events).
Proof. induction events; cbn [live_loop]; views. Qed.
Lemma keeps_touched_get : keeps touched get.
Proof. intros md s. by apply wp_get. Qed.
Hint Resolve keeps_touched_logins keeps_touched_codes keeps_touched_statuses keeps_touched_live keeps_touched_get : keeps.

Lemma plain_handleLogout p r : plain (handleLogout p r).
Proof. split; [views|bares]. Qed.
Lemma plain_handleMe p r : plain (handleMe p r).
Proof. split; [views|bares]. Qed.
Lemma plain_handleChangePassword p r b : plain (handleChangePassword p r b).
Proof. split; [views|bares]. Qed.
Lemma plain_handleTOTPSetup c p r b : plain (handleTOTPSetup c p r b).
Proof. split; [views|bares]. Qed.
Lemma plain_handleTOTPEnable c p r b : plain (handleTOTPEnable c p r b).
Proof. split; [views|bares]. Qed.
Lemma plain_handleTOTPDisable c p r b : plain (handleTOTPDisable c p r b).
Proof. split; [views|bares]. Qed.
Lemma plain_handleTOTPRecoveryCodes c p r b : plain (handleTOTPRecoveryCodes c p r b).
Proof. split; [views|bares]. Qed.
Lemma plain_handleGetDKIM seg p r : plain (handleGetDKIM seg p r).
Proof. split; [views|bares]. Qed.
Lemma plain_handleCheckDKIM seg p r : plain (handleCheckDKIM seg p r).
Proof. split; [views|bares]. Qed.
Lemma plain_handleGetDMARC seg p r : plain (handleGetDMARC seg p r).
Proof. split; [views|bares]. Qed.
Lemma plain_handleCheckDMARC seg p r : plain (handleCheckDMARC seg p r).
Proof. split; [views|bares]. Qed.
Lemma plain_handleDomainDNS c seg p r : plain (handleDomainDNS c seg p r).
Proof. split; [views|bares]. Qed.
Lemma plain_handleStatus c w d t p r : plain (handleStatus c w d t p r).
Proof. split; [views|bares]. Qed.
Lemma plain_handleLive now p r : plain (handleLive now p r).
Proof. split; [views|bares]. Qed.
Lemma plain_handleSecurityStatus a b c d p r : plain (handleSecurityStatus a b c d p r).
Proof. split; [views|bares]. Qed.
Lemma plain_handleTestDNSBL a b c d p r : plain (handleTestDNSBL a b c d p r).
Proof. split; [views|bares]. Qed.
Lemma plain_handleWebhookEventTypes p r : plain (handleWebhookEventTypes p r).
Proof. split; [views|bares]. Qed.
End shown.

(** A change of the rows of one message, then at most a line in the trail. *)
Lemma wp_handleReleaseMessage `{SmtpLib} md id p r s :
  Scoped (p_user p) = true -> unique_ids (s_queue s) -> wp md (handleReleaseMessage id p r) (confined (p_user p) s) s.
Proof.
  intros Hs Hu. unfold handleReleaseMessage. apply wp_bind, wp_lookupMessage; [done|..].
  - intros rs E. by apply wp_ret, refused_confined.
  - intros row [Hin <-]%lookup_row_Some Hw. apply wp_bind, wp_now. intros now _. apply wp_bind, wp_on_queue.
    + intros e _. apply wp_ret, touched_confined; [by destruct s|]. destruct (is_sentinel _ _); constructor.
    + unfold Release, exec_update. set (p0 := fun r => _). set (f := on_msg _). cbn [s_queue set_s_now].
      assert (Hc : forall rs s', touched s' = (PagesProps.settings s, update_where p0 f (s_queue s), s_blobs s) -> rs_items rs = [] ->
                     confined (p_user p) s rs s').
      { intros rs s' E Hrs. injection E as E1 E2 E3 E4 E5.
        eapply (hidden_update _ _ p0 f row); eauto; [|unfold PagesProps.settings; congruence|by rewrite E5].
        unfold p0, by_id. intros x Hx. by bools. }
      destruct (_ =? 0).
      * apply wp_ret. apply Hc; [done|]. by destruct (is_sentinel _ _).
      * apply (wp_frame touched); [by apply keeps_audit|]. intros a s1 E1. apply wp_ret, Hc; [by rewrite E1|done].
Qed.

(** ** Behind the guards *)






(** A page as a limited account runs it; [told] says whether the reply depends on what the account sees alone. *)
Record limited (told : bool) (h : principal -> request -> M response) : Prop := {
  lm_confined : forall p r s, Scoped (p_user p) = true -> consistent s -> wp any (h p r) (confined (p_user p) s) s;
  lm_view : forall p r, Scoped (p_user p) = true -> keeps view (h p r);
  lm_same : forall p r, Scoped (p_user p) = true -> told = true -> same (p_user p) (fun _ _ => True) (h p r) (fun _ _ _ => True)
}.

Lemma limited_plain told h :
  (forall p r, plain (h p r)) -> (forall p r, keeps view (h p r)) ->
  (told = true -> forall p r, Scoped (p_user p) = true -> same (p_user p) (fun _ _ => True) (h p r) (fun _ _ _ => True)) -> limited told h.
Proof.
  intros Hp Hv Hs. split; [|auto..]. intros p r s _ _. destruct (Hp p r) as [Ht Hb]. intros e He.
  specialize (Ht any s e He). specialize (Hb (World s e)). destruct (h p r _) as [rs w]. destruct Ht as [Ha Ht]. split; [done|].
  apply touched_confined; [done|]. cbn in Hb. rewrite Hb. constructor.
Qed.







(** ** The table of routes *)







Section guarded_routes.
Context (method : text) (pattern : list text) (h : http_request -> text -> principal -> request -> M response).




End guarded_routes.

Section apart.
Context `{SmtpLib} `{PasswordCrypto} `{AEAD} `{QRLib} `{RegexpLib} `{DohLib} `{DmarcLib} `{KeyGenLib} `{HttpLib} `{AddressLib}.
Context `{YamlLib} `{WireLib} `{OIDCLib} `{UrlLib} `{BodyLib}.
Context (sv : ServerConfig) (now : surroundings).

Ltac plainly L V S := apply limited_plain; [intros; apply L|intros; apply V|intros _ ? ? ?; first [by apply S|by apply same_any, S]].
Ltac confinedly L V S :=
  split; [intros ? ? ? ? []; by apply L|intros; apply V|intros ? ? ? _; first [by apply S|by apply same_any, S]].

Lemma limited_handleLogout : limited true handleLogout.
Proof. plainly plain_handleLogout view_handleLogout same_handleLogout. Qed.
Lemma limited_handleMe : limited true handleMe.
Proof. plainly plain_handleMe view_handleMe same_handleMe. Qed.
Lemma limited_handleChangePassword b : limited true (fun p r => handleChangePassword p r b).
Proof. plainly plain_handleChangePassword view_handleChangePassword same_handleChangePassword. Qed.
Lemma limited_handleTOTPSetup c b : limited true (fun p r => handleTOTPSetup c p r b).
Proof. plainly plain_handleTOTPSetup view_handleTOTPSetup same_handleTOTPSetup. Qed.
Lemma limited_handleTOTPEnable c b : limited true (fun p r => handleTOTPEnable c p r b).
Proof. plainly plain_handleTOTPEnable view_handleTOTPEnable same_handleTOTPEnable. Qed.
Lemma limited_handleTOTPDisable c b : limited true (fun p r => handleTOTPDisable c p r b).
Proof. plainly plain_handleTOTPDisable view_handleTOTPDisable same_handleTOTPDisable. Qed.
Lemma limited_handleTOTPRecoveryCodes c b : limited true (fun p r => handleTOTPRecoveryCodes c p r b).
Proof. plainly plain_handleTOTPRecoveryCodes view_handleTOTPRecoveryCodes same_handleTOTPRecoveryCodes. Qed.
Lemma limited_handleListDomains : limited true handleListDomains.
Proof. confinedly wp_handleListDomains view_handleListDomains same_handleListDomains. Qed.
Lemma limited_handleGetDomain seg : limited true (handleGetDomain seg).
Proof. confinedly wp_handleGetDomain view_handleGetDomain same_handleGetDomain. Qed.
Lemma limited_handleTestDomain c seg : limited true (handleTestDomain c seg).
Proof. confinedly wp_handleTestDomain view_handleTestDomain same_handleTestDomain. Qed.
Lemma limited_handleGetRecipients seg : limited true (handleGetRecipients seg).
Proof. confinedly wp_handleGetRecipients view_handleGetRecipients same_handleGetRecipients. Qed.
Lemma limited_handleDomainDNS c seg : limited true (handleDomainDNS c seg).
Proof. plainly plain_handleDomainDNS view_handleDomainDNS same_handleDomainDNS. Qed.
Lemma limited_handleGetDKIM seg : limited true (handleGetDKIM seg).
Proof. plainly plain_handleGetDKIM view_handleGetDKIM same_handleGetDKIM. Qed.
Lemma limited_handleCheckDKIM seg : limited true (handleCheckDKIM seg).
Proof. plainly plain_handleCheckDKIM view_handleCheckDKIM same_handleCheckDKIM. Qed.
Lemma limited_handleGetDMARC seg : limited true (handleGetDMARC seg).
Proof. plainly plain_handleGetDMARC view_handleGetDMARC same_handleGetDMARC. Qed.
Lemma limited_handleCheckDMARC seg : limited true (handleCheckDMARC seg).
Proof. plainly plain_handleCheckDMARC view_handleCheckDMARC same_handleCheckDMARC. Qed.
Lemma limited_handleStatus c w d t : limited true (handleStatus c w d t).
Proof. plainly plain_handleStatus view_handleStatus same_handleStatus. Qed.
Lemma limited_handleListQueue q : limited true (handleListQueue q).
Proof. confinedly wp_handleListQueue view_handleListQueue same_handleListQueue. Qed.
Lemma limited_handleGetMessage i : limited true (handleGetMessage i).
Proof. confinedly wp_handleGetMessage view_handleGetMessage same_handleGetMessage. Qed.
Lemma limited_handleRawMessage i : limited true (handleRawMessage i).
Proof. confinedly wp_handleRawMessage view_handleRawMessage same_handleRawMessage. Qed.
Lemma limited_handleRetryMessage i : limited true (handleRetryMessage i).
Proof. confinedly wp_handleRetryMessage view_handleRetryMessage same_handleRetryMessage. Qed.
Lemma limited_handleDeleteMessage i : limited true (handleDeleteMessage i).
Proof. confinedly wp_handleDeleteMessage view_handleDeleteMessage same_handleDeleteMessage. Qed.
Lemma limited_handleReleaseMessage i : limited true (handleReleaseMessage i).
Proof. confinedly wp_handleReleaseMessage view_handleReleaseMessage same_handleReleaseMessage. Qed.
Lemma limited_handleListEvents l : limited true (handleListEvents l).
Proof. confinedly wp_handleListEvents view_handleListEvents same_handleListEvents. Qed.
Lemma limited_handleLive : limited true (handleLive now).
Proof. plainly plain_handleLive view_handleLive same_handleLive. Qed.
Lemma limited_handleSecurityStatus a b c d : limited true (handleSecurityStatus a b c d).
Proof. plainly plain_handleSecurityStatus view_handleSecurityStatus same__ret. Qed.
Lemma limited_handleTestDNSBL a b c d : limited true (handleTestDNSBL a b c d).
Proof. plainly plain_handleTestDNSBL view_handleTestDNSBL same__ret. Qed.
Lemma limited_handleWebhookEventTypes : limited true handleWebhookEventTypes.
Proof. plainly plain_handleWebhookEventTypes view_handleWebhookEventTypes same__ret. Qed.

Create HintDb limited.
#[local] Hint Resolve limited_handleLogout limited_handleMe limited_handleChangePassword limited_handleTOTPSetup limited_handleTOTPEnable
  limited_handleTOTPDisable limited_handleTOTPRecoveryCodes limited_handleListDomains limited_handleGetDomain limited_handleTestDomain
  limited_handleGetRecipients limited_handleDomainDNS limited_handleGetDKIM limited_handleCheckDKIM limited_handleGetDMARC
  limited_handleCheckDMARC limited_handleStatus limited_handleListQueue limited_handleGetMessage limited_handleRawMessage
  limited_handleRetryMessage limited_handleDeleteMessage limited_handleReleaseMessage limited_handleListEvents limited_handleLive
  limited_handleSecurityStatus limited_handleTestDNSBL limited_handleWebhookEventTypes : limited.





End apart.


(** *** A witness: the office of [PagesProps], with and without the other domain *)

#[local] Existing Instance Auth.sample_crypto.
#[local] Existing Instance PagesProps.sample_pages_smtp.
#[local] Existing Instance BlobProps.sample_aead.
#[local] Existing Instance AccountProps.sample_qr.
#[local] Existing Instance Dkim.sample_doh.
#[local] Existing Instance SecretProps.sample_dmarc.
#[local] Existing Instance SecretProps.sample_keygen.
#[local] Existing Instance SecretProps.sample_addresses.
#[local] Existing Instance SecretProps.sample_secret_yaml.
#[local] Existing Instance WebhookProps.sample_http.
#[local] Existing Instance Cluster.sample_wire.
#[local] Existing Instance OidcProps.sample_lib.
#[local] Instance sample_any_regexp : RegexpLib := {| regexp := unit; regexp_compile := fun _ => Ok tt; MatchString := fun _ _ => true |}.
#[local] Instance sample_urls : UrlLib := {| url_host := fun _ => None |}.
#[local] Instance sample_bodies : BodyLib := {|
  decode_setup _ := None; decode_login _ := None; decode_password _ := None; decode_totp_password _ := None; decode_totp_code _ := None;
  decode_confirm _ := None; decode_domain _ := None; decode_recipients _ := None; decode_smtp_user _ := None; decode_dkim _ := None;
  decode_route _ := None; decode_filter _ := None; decode_filter_test _ := None; decode_dnsbl _ := None; decode_token _ := None;
  decode_new_user _ := None; decode_user _ := None; decode_webhook _ := None; decode_drain _ := None |}.




(** The same office without the domain the operator may not see, and its message. *)
Definition sample_smaller : state :=
  set_s_queue (delete_where (fun r => DomainID (q_msg r) =? 2) sample_queue)
    (set_s_domains (DomainTables (take 1 (dt_domains sample_office)) {[1 := fresh_primary]} 3) sample_pages).




(** The drain page tells the operator of a message it may not see. *)
Example drain_counts_everything :
  let page s := fst (handleGetDrain (Principal sample_scoped None) sample_page_request (World s quiet)) in
  rs_body (page sample_pages) <> rs_body (page sample_smaller).
Proof. intros page E. vm_compute in E. discriminate E. Qed.
