(* ===== verification/Cli.v ===== *)
(** * The command line client: requests, settings, output (cmd/xeronmxctl/client.go, output.go)

    A command is a tree of interactions: it asks the server, reads and writes files, looks at
    the clock and prints, and each step goes on with what it was answered.  Nothing is
    assumed of the answers.  Flags are those of Go's [flag] package. *)

From S2P Require Import Prelude GoStrings Times Errors MailUtil Metrics HookPages Config Auth StoreTypes.
From Stdlib Require Import SpecFloat.
Open Scope Z_scope.

(** ** Programs *)

(** [APIError] wherever it stands in the chain, or any other error. *)
Inductive cli_error :=
| Other (e : error)
| APIErr (status : Z) (message : text)
| Wrapped (prefix : text) (e : cli_error).

Definition plain (s : text) : cli_error := Other (EText s).

(** [errors.As(err, &apiErr)]: the status. *)
Fixpoint api_status (e : cli_error) : option Z :=
  match e with
  | Other _ => None
  | APIErr status _ => Some status
  | Wrapped _ e => api_status e
  end.

Inductive body := NoBody | JSONBody (v : jval) | RawBody (contentType : text) (raw : text).

(** A request: where it goes, and with which token. *)
Record call := Call {
  c_base : text;
  c_token : text;
  c_insecure : bool;                     (* certificates are not verified *)
  c_method : text;
  c_path : text;                         (* with the query *)
  c_body : body
}.

(** What is printed: lines to stdout or stderr, a table aligned in columns, a value as indented JSON, bytes. *)
Inductive out :=
| Note (s : text)
| Warn (s : text)
| Table (rows : list (list text))
| Emit (A : Type) (v : A)
| Bytes_ (raw : text)
| UsageOf (name : text).                 (* the flags of a command, on stderr *)

Inductive prog (A : Type) : Type :=
| Return (a : A)
| Http (c : call) (k : error + Z * text -> prog A)
| Print_ (o : out) (k : prog A)
| ReadFile (name : text) (k : result text -> prog A)
| WriteFile (name : text) (mode : Z) (raw : text) (k : option error -> prog A)
| MkdirAll_ (name : text) (mode : Z) (k : option error -> prog A)
| Mode (name : text) (k : result Z -> prog A)
| Clock (k : Z -> prog A).

Arguments Return {A} a.
Arguments Http {A} c k.
Arguments Print_ {A} o k.
Arguments ReadFile {A} name k.
Arguments WriteFile {A} name mode raw k.
Arguments MkdirAll_ {A} name mode k.
Arguments Mode {A} name k.
Arguments Clock {A} k.

Fixpoint pbind {A B} (p : prog A) (f : A -> prog B) : prog B :=
  match p with
  | Return a => f a
  | Http c k => Http c (fun r => pbind (k r) f)
  | Print_ o k => Print_ o (pbind k f)
  | ReadFile n k => ReadFile n (fun r => pbind (k r) f)
  | WriteFile n m raw k => WriteFile n m raw (fun r => pbind (k r) f)
  | MkdirAll_ n m k => MkdirAll_ n m (fun r => pbind (k r) f)
  | Mode n k => Mode n (fun r => pbind (k r) f)
  | Clock k => Clock (fun t => pbind (k t) f)
  end.

Declare Scope prog_scope.
Delimit Scope prog_scope with prog.
Notation "'var' x := p 'in' q" := (pbind p (fun x => q))
  (at level 10, x pattern at level 0, p at level 100, q at level 200) : prog_scope.
Notation "o ;;; q" := (Print_ o q) (at level 199, right associativity) : prog_scope.
Open Scope prog_scope.

(** A command ends without an error, or with one. *)
Definition command_ : Type := prog (option cli_error).
Definition success : command_ := Return None.
Definition failure (e : cli_error) : command_ := Return (Some e).

(** Go on with a value, or end with the error. *)
Definition orFail {A} (p : prog (cli_error + A)) (f : A -> command_) : command_ :=
  pbind p (fun r => match r with inl e => failure e | inr a => f a end).
Notation "'try_' x := p 'in' q" := (orFail p (fun x => q))
  (at level 10, x pattern at level 0, p at level 100, q at level 200) : prog_scope.

Definition time_now : prog Z := Clock Return.

(** ** The client *)

Record Settings := { URL : text; Token : text; Insecure : bool }.

(** What JSON and YAML make of what is read: the field [error] of a failed answer (empty when there is none), the settings. *)
Class EnvelopeLib := {
  envelope_Error : text -> text;
  yaml_settings : text -> result Settings;
  yaml_of_settings : Settings -> result text
}.

Definition maxResponseBytes : Z := Z.shiftl 32 20.

(** [io.LimitReader]. *)
Definition limited (n : Z) (s : text) : text := if Z.of_nat (length s) <=? n then s else take (Z.to_nat n) s.

Record Client := { base : text; token : text; insecure : bool }.

Definition NewClient `{AddressLib} (s : Settings) : prog (cli_error + Client) :=
  if bool_decide (URL s = []) then
    Return (inl (plain (T "no server URL. Pass --url, set XERONMX_URL, "
      ++ T "or run: xeronmxctl login --url https://mx2.example.com --token <token>")))
  else
    let not_a_url := inl (plain (quote (URL s) ++ T " is not a URL")) in
    match url_Parse (URL s) with
    | None => Return not_a_url
    | Some (scheme, host) =>
        if bool_decide (host = []) then Return not_a_url
        else if negb (bool_decide (scheme = T "http")) && negb (bool_decide (scheme = T "https")) then
          Return (inl (plain (T "the URL must start with http:// or https://")))
        else if bool_decide (Token s = []) then
          Return (inl (plain (T "no API token. Pass --token, set XERONMX_TOKEN, or run: xeronmxctl login")))
        else
          let client := {| base := trim_right (fun c => bool_decide (c = "/"%char)) (URL s); token := Token s; insecure := Insecure s |} in
          if Insecure s then Warn (T "warning: TLS certificate verification is off") ;;; Return (inr client) else Return (inr client)
    end.

Section client.
Context `{EnvelopeLib}.

(** The status and the error of an answer that is not a success. *)
Definition refused (status : Z) (raw : text) : cli_error :=
  let e := envelope_Error raw in APIErr status (if bool_decide (e = []) then trim_space raw else e).

Definition is_success (status : Z) : bool := negb ((status <? 200) || (300 <=? status)).

(** [do], up to what is made of a successful answer. *)
Definition do_raw (c : Client) (method path : text) (b : body) : prog (cli_error + text) :=
  Http (Call (base c) (token c) (insecure c) method path b) (fun answer =>
    Return match answer with
           | inl e => inl (Other e)
           | inr (status, raw) =>
               let raw := limited maxResponseBytes raw in
               if is_success status then inr raw else inl (refused status raw)
           end).

Definition do {A} (c : Client) (method path : text) (b : body) (decode : text -> result A) : prog (cli_error + A) :=
  var r := do_raw c method path b in
  Return match r with
         | inl e => inl e
         | inr raw =>
             match decode raw with
             | Ok v => inr v
             | Err e => inl (Other (EWrap "the server returned something unexpected"%string e))
             end
         end.

(** Without a place for the answer. *)
Definition do_ (c : Client) (method path : text) (b : body) : prog (cli_error + unit) :=
  var r := do_raw c method path b in Return match r with inl e => inl e | inr _ => inr tt end.

Definition postRaw {A} (c : Client) (path contentType raw : text) (decode : text -> result A) : prog (cli_error + A) :=
  var r := do_raw c "POST"%string path (RawBody contentType raw) in
  Return match r with
         | inl e => inl e
         | inr raw => match decode raw with Ok v => inr v | Err e => inl (Other e) end
         end.

Definition get {A} (c : Client) (path : text) (decode : text -> result A) := do c "GET"%string path NoBody decode.
Definition post {A} (c : Client) (path : text) (b : body) (decode : text -> result A) := do c "POST"%string path b decode.
Definition put {A} (c : Client) (path : text) (b : body) (decode : text -> result A) := do c "PUT"%string path b decode.
Definition delete {A} (c : Client) (path : text) (decode : text -> result A) := do c "DELETE"%string path NoBody decode.

(** ** The settings *)

(** What the process is started with: the directory of the user's settings, the environment, the system. *)
Record Process := {
  UserConfigDir : result text;
  Getenv : text -> text;
  windows : bool
}.
Context (os : Process).

Definition cli_ConfigPath : result text :=
  match UserConfigDir os with Ok dir => Ok (Join (Join dir "xeronmx"%string) "cli.yaml"%string) | Err e => Err e end.

(** [%04o]: at least four octal digits. *)
Fixpoint octal (fuel : nat) (n : Z) : text :=
  match fuel with
  | O => []
  | S fuel => octal fuel (n / 8) ++ [digit (n mod 8)]
  end.

Definition warnIfReadable {A} (path : text) (k : prog A) : prog A :=
  if windows os then k
  else
    Mode path (fun m =>
      match m with
      | Err _ => k
      | Ok m =>
          if negb (Z.land m 63 =? 0) then
            Warn (T "warning: " ++ path ++ T " holds an API token and is readable by other users (mode " ++ octal 4 m ++ T ")") ;;; k
          else k
      end).

Definition override (flags s : Settings) : Settings :=
  let env k dst := if bool_decide (Getenv os k = []) then dst else Getenv os k in
  let flag v dst := if bool_decide (v = [] :> text) then dst else v in
  {| URL := flag (URL flags) (env "XERONMX_URL"%string (URL s));
     Token := flag (Token flags) (env "XERONMX_TOKEN"%string (Token s));
     Insecure := Insecure flags || Insecure s |}.

Definition LoadSettings (flags : Settings) : prog (cli_error + Settings) :=
  let none := {| URL := []; Token := []; Insecure := false |} in
  match cli_ConfigPath with
  | Err _ => Return (inr (override flags none))
  | Ok path =>
      ReadFile path (fun raw =>
        match raw with
        | Err _ => Return (inr (override flags none))
        | Ok raw =>
            match yaml_settings raw with
            | Err e => Return (inl (Other (EWrap (T "parse " ++ path) e)))
            | Ok s => warnIfReadable path (Return (inr (override flags s)))
            end
        end)
  end.

Definition dir_of (path : text) : text :=
  match last_index "/"%char path with Some i => take i path | None => "."%string end.

Definition SaveSettings (s : Settings) : prog (cli_error + text) :=
  match cli_ConfigPath with
  | Err e => Return (inl (Other e))
  | Ok path =>
      MkdirAll_ (dir_of path) 448 (fun e =>                             (* 0o700 *)
        match e with
        | Some e => Return (inl (Other e))
        | None =>
            match yaml_of_settings s with
            | Err e => Return (inl (Other e))
            | Ok raw =>
                WriteFile path 384 raw (fun e =>                        (* 0o600 *)
                  Return match e with Some e => inl (Other e) | None => inr path end)
            end
        end)
  end.
End client.

(** ** Flags *)

Inductive fval := VString (s : text) | VInt (n : Z) | VBool (b : bool).

Inductive num_error := Syntax | Range.

Definition digit_value (c : ascii) : option Z :=
  if is_digit c then Some (code c - 48)
  else if (97 <=? code (lower_char c)) && (code (lower_char c) <=? 122) then Some (code (lower_char c) - 87)
  else None.

(** The digits of [ParseUint], underscores passed over; the first digit that does not fit ends it. *)
Fixpoint uint_digits (radix n : Z) (s : text) : num_error + Z :=
  match s with
  | [] => inr n
  | c :: s =>
      if bool_decide (c = "_"%char) then uint_digits radix n s
      else
        match digit_value c with
        | None => inl Syntax
        | Some d =>
            if radix <=? d then inl Syntax
            else if 2 ^ 64 <=? n * radix + d then inl Range
            else uint_digits radix (n * radix + d) s
        end
  end.

Definition radix_prefix (s : text) : option Z :=
  match s with
  | "0"%char :: c :: _ =>
      let c := lower_char c in
      if bool_decide (c = "b"%char) then Some 2 else if bool_decide (c = "o"%char) then Some 8
      else if bool_decide (c = "x"%char) then Some 16 else None
  | _ => None
  end.

(** [underscoreOK]: each underscore stands between digits, or after the prefix; [saw] is what the last byte was. *)
Inductive class := Start | Digit | Underscore | Neither.

Fixpoint underscores_ok (hex : bool) (saw : class) (s : text) : bool :=
  match s with
  | [] => match saw with Underscore => false | _ => true end
  | c :: s =>
      if is_digit c || hex && (97 <=? code (lower_char c)) && (code (lower_char c) <=? 102) then underscores_ok hex Digit s
      else if bool_decide (c = "_"%char) then match saw with Digit => underscores_ok hex Underscore s | _ => false end
      else match saw with Underscore => false | _ => underscores_ok hex Neither s end
  end.

Definition underscoreOK (s : text) : bool :=
  match radix_prefix s with
  | Some r => underscores_ok (r =? 16) Digit (drop 2 s)
  | None => underscores_ok false Start s
  end.

Definition ParseUint0 (s : text) : num_error + Z :=
  match s with
  | [] => inl Syntax
  | c :: r =>
      let '(radix, digits) :=
        match radix_prefix s with
        | Some radix => if (3 <=? length s)%nat then (radix, drop 2 s) else (8, r)
        | None => if bool_decide (c = "0"%char) then (8, r) else (10, s)
        end in
      match uint_digits radix 0 digits with
      | inl e => inl e
      | inr n => if bool_decide ("_"%char ∈ digits) && negb (underscoreOK s) then inl Syntax else inr n
      end
  end.

(** [strconv.ParseInt(s, 0, 64)]. *)
Definition ParseInt0 (s : text) : num_error + Z :=
  let '(neg, s) :=
    match s with
    | c :: r => if bool_decide (c = "+"%char) then (false, r) else if bool_decide (c = "-"%char) then (true, r) else (false, s)
    | [] => (false, [])
    end in
  match ParseUint0 s with
  | inl e => inl e
  | inr n =>
      if neg then if 2 ^ 63 <? n then inl Range else inr (- n)
      else if 2 ^ 63 <=? n then inl Range else inr n
  end.

Example parse_int0_ex :
  map ParseInt0 [T "42"; T "-7"; T "0x1F"; T "0b101"; T "017"; T "0"; T "1_000"; T "_1"; T "1__0"; T ""; T "0x"; T "9223372036854775808"; T "12a"]
  = [inr 42; inr (-7); inr 31; inr 5; inr 15; inr 0; inr 1000; inl Syntax; inl Syntax; inl Syntax; inl Syntax; inl Range; inl Syntax].
Proof. vm_compute. reflexivity. Qed.

Definition num_error_text (e : num_error) : text := match e with Syntax => "parse error"%string | Range => "value out of range"%string end.

(** The flags of a set, with what they are set to. *)
Definition FlagSet : Type := list (text * fval).

Definition set_flag (name : text) (v : fval) (fs : FlagSet) : FlagSet :=
  map (fun f => if bool_decide (f.1 = name) then (f.1, v) else f) fs.

Definition flag_named (name : text) (fs : FlagSet) : option fval := snd <$> find (fun f => bool_decide (f.1 = name)) fs.

Inductive flag_error := FlagHelp | FlagBad (msg : text).

(** The first equals sign that is not the first byte. *)
Definition name_value (s : text) : text * option text :=
  match index_byte "="%char (drop 1 s) with
  | Some i => (take (S i) s, Some (drop (S (S i)) s))
  | None => (s, None)
  end.

Definition set_value (fs : FlagSet) (name value : text) (old : fval) : flag_error + FlagSet :=
  match old with
  | VBool _ =>
      match ParseBool value with
      | Some b => inr (set_flag name (VBool b) fs)
      | None => inl (FlagBad (T "invalid boolean value " ++ quote value ++ T " for -" ++ name ++ T ": parse error"))
      end
  | VInt _ =>
      match ParseInt0 value with
      | inr n => inr (set_flag name (VInt n) fs)
      | inl e => inl (FlagBad (T "invalid value " ++ quote value ++ T " for flag -" ++ name ++ T ": " ++ num_error_text e))
      end
  | VString _ => inr (set_flag name (VString value) fs)
  end.

(** [Parse]: what the flags are set to, and the arguments after them. *)
Fixpoint parse_flags (fuel : nat) (fs : FlagSet) (args : list text) : flag_error + FlagSet * list text :=
  match fuel, args with
  | S fuel, s :: rest =>
      match s with
      | "-"%char :: s1 :: _ =>
          if bool_decide (s = T "--") then inr (fs, rest)
          else
            let arg := if bool_decide (s1 = "-"%char) then drop 2 s else drop 1 s in
            if match arg with c :: _ => bool_decide (c = "-"%char) || bool_decide (c = "="%char) | [] => true end then
              inl (FlagBad (T "bad flag syntax: " ++ s))
            else
              let '(name, value) := name_value arg in
              match flag_named name fs with
              | None =>
                  if bool_decide (name = T "help") || bool_decide (name = T "h") then inl FlagHelp
                  else inl (FlagBad (T "flag provided but not defined: -" ++ name))
              | Some old =>
                  let next :=
                    match old, value, rest with
                    | _, Some v, _ => Some (v, rest)
                    | VBool _, None, _ => Some (T "true", rest)
                    | _, None, v :: rest => Some (v, rest)
                    | _, None, [] => None
                    end in
                  match next with
                  | None => inl (FlagBad (T "flag needs an argument: -" ++ name))
                  | Some (v, rest) =>
                      match set_value fs name v old with
                      | inl e => inl e
                      | inr fs => parse_flags fuel fs rest
                      end
                  end
              end
      | _ => inr (fs, args)
      end
  | _, _ => inr (fs, args)
  end.

Definition ErrHelp : cli_error := plain (T "flag: help requested").

(** An error is printed with the usage, then returned. *)
Definition Parse (usage : out) (fs : FlagSet) (args : list text) : prog (cli_error + FlagSet * list text) :=
  match parse_flags (length args) fs args with
  | inr r => Return (inr r)
  | inl FlagHelp => usage ;;; Return (inl ErrHelp)
  | inl (FlagBad msg) => Warn msg ;;; usage ;;; Return (inl (plain msg))
  end.

Definition flag_string (name : text) (fs : FlagSet) : text := match flag_named name fs with Some (VString s) => s | _ => [] end.
Definition flag_int (name : text) (fs : FlagSet) : Z := match flag_named name fs with Some (VInt n) => n | _ => 0 end.
Definition flag_bool (name : text) (fs : FlagSet) : bool := match flag_named name fs with Some (VBool b) => b | _ => false end.

(** The arguments before the first that starts like a flag. *)
Fixpoint positionals (args : list text) : list text * list text :=
  match args with
  | [] => ([], [])
  | a :: rest => if has_prefix "-"%string a then ([], args) else let '(p, f) := positionals rest in (a :: p, f)
  end.

Definition parseMixed (name : text) (fs : FlagSet) (args : list text) : prog (cli_error + FlagSet * list text) :=
  let '(positional, flags) := positionals args in
  var r := Parse (UsageOf name) fs flags in
  Return match r with inl e => inl e | inr (fs, rest) => inr (fs, positional ++ rest) end.

Definition split (args : list text) (fallback : text) : text * list text :=
  match args with [] => (fallback, []) | a :: rest => (a, rest) end.

(** ** Output *)

(** [[]rune(s)]: each rune as the bytes that write it; a malformed byte becomes U+FFFD. *)
Definition replacement : text := ["239"%char; "191"%char; "189"%char].

Fixpoint runes (s : text) : list text :=
  match s with
  | [] => []
  | c0 :: r0 =>
      if code c0 <? 128 then [c0] :: runes r0
      else
        match r0 with
        | c1 :: r1 =>
            if utf8_2 c0 c1 then [c0; c1] :: runes r1
            else match r1 with
                 | c2 :: r2 =>
                     if utf8_3 c0 c1 c2 then [c0; c1; c2] :: runes r2
                     else match r2 with
                          | c3 :: r3 => if utf8_4 c0 c1 c2 c3 then [c0; c1; c2; c3] :: runes r3 else replacement :: runes r0
                          | [] => replacement :: runes r0
                          end
                 | [] => replacement :: runes r0
                 end
        | [] => [replacement]
        end
  end.

Definition ellipsis : text := ["226"%char; "128"%char; "166"%char].

Definition truncate (s : text) (max : Z) : text :=
  let r := runes s in
  if Z.of_nat (length r) <=? max then s
  else if max <=? 1 then concat (take (Z.to_nat max) r)
  else concat (take (Z.to_nat (max - 1)) r) ++ ellipsis.

(** [int(x)] of a float64. *)
Definition int_of (x : spec_float) : Z :=
  match x with
  | S754_finite s m e =>
      let n := if 0 <=? e then Zpos m * 2 ^ e else Zpos m / 2 ^ (- e) in
      if s then - n else n
  | _ => 0
  end.

(** [Duration.Minutes()], [Duration.Hours()]. *)
Definition in_units (unit d : Z) : spec_float :=
  SFadd 53 1024 (of_Z (Z.quot d unit)) (SFdiv 53 1024 (of_Z (Z.rem d unit)) (of_Z unit)).

Definition short (d : Z) : text :=
  if d <? minute then dec (int_of (Seconds d)) ++ T "s"
  else if d <? hour then dec (int_of (in_units minute d)) ++ T "m"
  else if d <? 48 * hour then dec (int_of (in_units hour d)) ++ T "h"
  else dec (int_of (SFdiv 53 1024 (in_units hour d) (of_Z 24))) ++ T "d".

(** [time.Time.Sub] stops at the longest durations; the negation of the least is itself. *)
Definition saturated (d : Z) : Z := Z.max (- 2 ^ 63) (Z.min (2 ^ 63 - 1) d).
Definition negated (d : Z) : Z := if d =? - 2 ^ 63 then d else - d.

(** A time is [None] when it is absent or zero. *)
Definition ago_at (now : Z) (t : option Z) : text :=
  match t with
  | None => "never"%string
  | Some t =>
      let d := saturated (now - t) in
      if d <? 0 then T "in " ++ short (negated d) else short d ++ T " ago"
  end.

Definition until_at (now : Z) (t : option Z) : text :=
  match t with
  | None => "never"%string
  | Some t =>
      let d := saturated (t - now) in
      if d <=? 0 then "expired"%string else T "in " ++ short d
  end.

(** Each looks at the clock, when there is a time. *)
Definition ago (t : option Z) : prog text :=
  match t with None => Return (ago_at 0 None) | Some _ => var now := time_now in Return (ago_at now t) end.
Definition until (t : option Z) : prog text :=
  match t with None => Return (until_at 0 None) | Some _ => var now := time_now in Return (until_at now t) end.

(** [%.1f] of a float64 that is not negative: the nearest tenth of the exact value, a tie to the even one. *)
Definition tenths (x : spec_float) : Z :=
  match x with
  | S754_finite false m e =>
      if 0 <=? e then Zpos m * 2 ^ e * 10
      else
        let num := Zpos m * 10 in
        let den := 2 ^ (- e) in
        let q := num / den in
        let r := 2 * (num mod den) in
        if (r <? den) || ((r =? den) && Z.even q) then q else q + 1
  | _ => 0
  end.

Definition fixed1 (x : spec_float) : text :=
  match x with
  | S754_finite true m e => T "-" ++ dec (tenths (S754_finite false m e) / 10) ++ T "." ++ dec (tenths (S754_finite false m e) mod 10)
  | S754_zero true => "-0.0"%string
  | S754_infinity s => if s then "-Inf"%string else "+Inf"%string
  | S754_nan => "NaN"%string
  | _ => dec (tenths x / 10) ++ T "." ++ dec (tenths x mod 10)
  end.

(** The divisor and its exponent; [v] is at most [2^63], so that ten rounds are more than enough. *)
Fixpoint byte_unit (fuel : nat) (v div exp : Z) : Z * Z :=
  match fuel with
  | O => (div, exp)
  | S fuel => if 1024 <=? v then byte_unit fuel (v / 1024) (div * 1024) (exp + 1) else (div, exp)
  end.

Definition unit_letters : text := "KMGTPE"%string.

(** [None] where the letter would be out of range, which is a panic. *)
Definition bytesHuman (n : Z) : option text :=
  if n <? 1024 then Some (dec n ++ T " B")
  else
    let '(div, exp) := byte_unit 10 (n / 1024) 1024 0 in
    match unit_letters !! Z.to_nat exp with
    | Some c => Some (fixed1 (SFdiv 53 1024 (of_Z n) (of_Z div)) ++ T " " ++ [c] ++ T "B")
    | None => None
    end.

Definition yesNo (b : bool) : text := if b then "yes"%string else "no"%string.

Example output_ex :
  map bytesHuman [0; 1023; 1024; 1536; 1048576; 10 * 2 ^ 30 + 2 ^ 29; 2 ^ 63 - 1]
    = map (fun s => Some (T s)) ["0 B"; "1023 B"; "1.0 KB"; "1.5 KB"; "1.0 MB"; "10.5 GB"; "8.0 EB"]%string
  /\ map (ago_at (100 * hour)) [Some (100 * hour); Some (99 * hour); Some (10 * hour); Some (101 * hour); None]
    = map T ["0s ago"; "1h ago"; "3d ago"; "in 1h"; "never"]%string
  /\ truncate "secondary"%string 5 = T "seco" ++ ellipsis.
Proof. vm_compute. done. Qed.

(** ** What the output keeps to *)

Lemma byte_unit_bound fuel v div exp k :
  v < 2 ^ (10 * (k + 1)) -> 0 <= v -> 0 <= k -> snd (byte_unit fuel v div exp) <= exp + k.
Proof.
  revert v div exp k. induction fuel as [|fuel IH]; intros v div exp k Hv H0 Hk; cbn [byte_unit]; [cbn; lia|].
  destruct (Z.leb_spec 1024 v); [|cbn; lia]. destruct (Z.eq_dec k 0) as [->|]; [change (2 ^ (10 * (0 + 1))) with 1024 in Hv; lia|].
  specialize (IH (v / 1024) (div * 1024) (exp + 1) (k - 1)). assert (v / 1024 < 2 ^ (10 * (k - 1 + 1))).
  { apply Z.div_lt_upper_bound; [done|]. replace (10 * (k + 1)) with (10 + 10 * (k - 1 + 1)) in Hv by lia.
    rewrite Z.pow_add_r in Hv by lia. exact Hv. }
  assert (0 <= v / 1024) by (apply Z.div_pos; lia). specialize (IH ltac:(done) ltac:(done) ltac:(lia)). lia.
Qed.

Lemma byte_unit_grows fuel v div exp : exp <= snd (byte_unit fuel v div exp).
Proof. revert v div exp. induction fuel as [|fuel IH]; intros v div exp; cbn [byte_unit]; [cbn; lia|]. case_match; [|cbn; lia]. specialize (IH (v / 1024) (div * 1024) (exp + 1)). lia. Qed.

(** Every round of the parsing takes an argument away, so that the arguments are fuel enough. *)
Lemma parse_flags_enough fuel fs args : (length args <= fuel)%nat -> parse_flags fuel fs args = parse_flags (length args) fs args.
Proof.
  assert (E : forall f1 f2 fs args, (length args <= f1)%nat -> (length args <= f2)%nat -> parse_flags f1 fs args = parse_flags f2 fs args).
  { clear. induction f1 as [|f1 IH]; intros [|f2] fs args H1 H2; destruct args as [|s args]; cbn in H1, H2; try lia; [done..|].
    cbn [parse_flags]. repeat (case_match; simplify_eq; try done; cbn in * ); apply IH; lia. }
  intros Hf. by apply E.
Qed.

(** A size is always printed: no number of bytes asks for a unit beyond the last. *)
Lemma bytesHuman_total n : n < 2 ^ 63 -> is_Some (bytesHuman n).
Proof.
  intros Hn. unfold bytesHuman. destruct (Z.ltb_spec n 1024); [by eexists|].
  pose proof (byte_unit_bound 10 (n / 1024) 1024 0 5) as Hb. pose proof (byte_unit_grows 10 (n / 1024) 1024 0) as Hg.
  destruct (byte_unit 10 (n / 1024) 1024 0) as [div exp]. cbn [snd] in *.
  assert (exp <= 5) by (apply Hb; [apply Z.div_lt_upper_bound; [done|]; change (1024 * 2 ^ (10 * (5 + 1))) with (2 ^ 70); lia|apply Z.div_pos; lia|lia]).
  destruct (lookup_lt_is_Some_2 unit_letters (Z.to_nat exp)) as [c ->]; [cbn; lia|by eexists].
Qed.

(** A cell is no wider than asked. *)
Lemma truncate_width s max : 0 <= max -> exists r, truncate s max = (if Z.of_nat (length (runes s)) <=? max then s else concat r) /\ Z.of_nat (length r) <= max.
Proof.
  intros Hm. unfold truncate. destruct (Z.leb_spec (Z.of_nat (length (runes s))) max); [by exists []|].
  destruct (Z.leb_spec max 1); [exists (take (Z.to_nat max) (runes s)); split; [done|rewrite length_take; lia]|].
  exists (take (Z.to_nat (max - 1)) (runes s) ++ [ellipsis]). rewrite concat_app, length_app, length_take. cbn [concat length]. rewrite app_nil_r.
  split; [done|lia].
Qed.
