(* ===== verification/Ctl.v ===== *)
(** * The commands of the command line client (cmd/xeronmxctl/commands.go, main.go)

    What each command asks the server and prints, for whatever it is answered; and that the
    pages it asks for are pages of the server. *)

From S2P Require Import Prelude GoStrings Times Errors StoreTypes StoreUsers Auth SmtpClient World Dkim Dmarc Filter Webhook Blob Api Account.
From S2P Require Import HookPages ConfigIO Cluster Oidc Server.
From S2P Require Import Cli.
From Stdlib Require Import SpecFloat.
Open Scope Z_scope.
Open Scope prog_scope.

(** ** What answers decode to *)

Record statusDomain := StatusDomain { sd_Name : text; sd_Enabled : bool; sd_IsUp : bool; sd_Pending : Z; sd_LastError : text; sd_LastCheck : option Z }.
Record statusTLS := StatusTLS { tls_Source : text; tls_Domain : text; tls_LastError : text }.
Record statusResponse := StatusResponse {
  sr_Version : text;
  sr_Commit : text;
  sr_Pending : Z;
  sr_PendingBytes : Z;
  sr_Total : Z;
  sr_MaxMessages : Z;
  sr_MaxBytes : Z;
  sr_Domains : list statusDomain;
  sr_AllPrimariesUp : bool;
  sr_Quarantined : Z;
  sr_TLS : option statusTLS
}.
Record domain_ := Domain_ {
  d_ID : Z;
  d_Name : text;
  d_PrimaryHost : text;
  d_PrimaryPort : Z;
  d_PrimaryTLS : text;
  d_Retention : Z;
  d_Enabled : bool;
  d_Pending : Z;
  d_Primary : option bool                (* whether it is up *)
}.
Record probeResult := ProbeResult { pr_Reachable : bool; pr_TookMS : Z; pr_Error : text; pr_Hint : text }.
Record message_ := Message_ {
  m_ID : text;
  m_From : text;
  m_To : list text;
  m_Subject : text;
  m_SizeBytes : Z;
  m_ReceivedAt : option Z;
  m_ExpiresAt : option Z;
  m_Status : text;
  m_Attempts : Z;
  m_NextRetryAt : option (option Z);     (* absent, or a time that may be zero *)
  m_LastError : text;
  m_Direction : text;
  m_Quarantined : option (option Z);
  m_QuarReason : text;
  m_SpamScore : option spec_float
}.
(** The values of [Data] are given as [%v] prints them. *)
Record event_ := Event_ { e_ID : Z; e_Type : text; e_QueueID : option text; e_Data : gmap text text; e_CreatedAt : option Z }.
Record filter_ := Filter_ {
  f_ID : Z;
  f_Name : text;
  f_Field : text;
  f_Pattern : text;
  f_Action : text;
  f_Enabled : bool;
  f_Priority : Z;
  f_MatchCount : Z;
  f_LastMatch : option Z
}.
Record webhook_ := Webhook_ {
  h_ID : Z;
  h_Name : text;
  h_URL : text;
  h_Events : list text;
  h_Enabled : bool;
  h_Signed : bool;
  h_LastError : text;
  h_LastOK : option Z
}.
Record webhookList := WebhookList { wl_Enabled : bool; wl_Webhooks : list webhook_ }.
Record testResult := TestResult { tr_OK : bool; tr_Status : Z; tr_Error : text }.
Record delivery_ := Delivery_ {
  l_ID : Z;
  l_WebhookName : text;
  l_Event : text;
  l_Status : text;
  l_Attempts : Z;
  l_StatusCode : Z;
  l_LastError : text;
  l_CreatedAt : option Z;
  l_NextAttempt : option (option Z)
}.
Record token_ := Token_ { t_ID : Z; t_Name : text; t_Prefix : text; t_Role : text; t_Expires : option Z; t_LastUsed : option Z; t_Expired : bool }.
Record node_ := Node_ {
  n_ID : text;
  n_AdvertiseURL : text;
  n_Version : text;
  n_Role : text;
  n_ConfigHash : text;
  n_QueuePending : Z;
  n_QueueBytes : Z;
  n_Domains : Z;
  n_LastSeen : option Z;
  n_Healthy : bool;
  n_Self : bool;
  n_ConfigDrift : bool
}.
Record clusterState := ClusterState {
  cl_Enabled : bool;
  cl_NodeID : text;
  cl_Role : text;
  cl_HealthyAfter : Z;
  cl_Drifted : Z;
  cl_QueueIsShared : bool;
  cl_Nodes : list node_
}.
Record importReport := ImportReport {
  ir_DryRun : bool;
  ir_Description : text;
  ir_Warnings : list text;
  ir_Domains : list (text * text);       (* name and action *)
  ir_SMTPUsers : list (text * text)
}.
Record drainResp := DrainResp { dr_Draining : bool; dr_Pending : Z; dr_PendingBytes : Z }.
Definition no_drain : drainResp := DrainResp false 0 0.
Record me_ := Me { me_Email : text; me_Role : text; me_ViaToken : option (text * text) }.

(** Decoding JSON into each. *)
Class CtlLib := {
  json_status : text -> result statusResponse;
  json_domains : text -> result (list domain_);
  json_domain : text -> result domain_;
  json_map : text -> result unit;
  json_probe : text -> result probeResult;
  json_recipients : text -> result (list text);
  json_messages : text -> result (list message_ * Z);
  json_message : text -> result message_;
  json_events : text -> result (list event_);
  json_filters : text -> result (list filter_);
  json_webhooks : text -> result webhookList;
  json_test : text -> result testResult;
  json_deliveries : text -> result (list delivery_);
  json_tokens : text -> result (list token_);
  json_cluster : text -> result clusterState;
  json_report : text -> result importReport;
  json_drain : drainResp -> text -> result drainResp;   (* into the last one *)
  json_me : text -> result me_;
  json_setup : text -> result text       (* the version *)
}.

(** [url.QueryEscape] and [url.Values.Encode], the keys in order. *)
Definition hex_upper (n : Z) : ascii := if n <? 10 then digit n else ascii_of_nat (Z.to_nat (n + 55)).

Definition unreserved (c : ascii) : bool :=
  is_digit c || (97 <=? code (lower_char c)) && (code (lower_char c) <=? 122) || bool_decide (c ∈ T "-_.~").

Definition QueryEscape (s : text) : text :=
  flat_map (fun c => if unreserved c then [c] else if bool_decide (c = " "%char) then T "+"
                     else ["%"%char; hex_upper (code c / 16); hex_upper (code c mod 16)]) s.

Definition pair_le (a b : text * text) : Prop := text_leb a.1 b.1 = true.
#[export] Instance pair_le_dec a b : Decision (pair_le a b).
Proof. unfold pair_le. apply _. Defined.

Definition Encode (q : list (text * text)) : text :=
  join "&"%string (map (fun kv => QueryEscape kv.1 ++ T "=" ++ QueryEscape kv.2) (merge_sort pair_le q)).

(** A size as the commands print it; [bytesHuman] has one for every size the server sends. *)
Definition human (n : Z) : text := default [] (bytesHuman n).

(** The rows of a table, each of which may look at the clock. *)
Fixpoint rows_of {A} (row : A -> prog (list text)) (xs : list A) : prog (list (list text)) :=
  match xs with
  | [] => Return []
  | x :: xs => var r := row x in var rs := rows_of row xs in Return (r :: rs)
  end.

Definition print_table {A} (head : list string) (row : A -> prog (list text)) (xs : list A) (k : command_) : command_ :=
  var rs := rows_of row xs in Table (map T head :: rs) ;;; k.

Fixpoint print_all {B} (os : list out) (k : prog B) : prog B := match os with [] => k | o :: os => o ;;; print_all os k end.

Definition usage_error (s : text) : command_ := failure (plain (T "usage: xeronmxctl " ++ s)).

Section commands.
Context `{EnvelopeLib} `{CtlLib}.
Context (jsonOut : bool).

(** With [--json] the value, else the rest. *)
Definition shown {A} (v : A) (k : command_) : command_ := if jsonOut then Emit A v ;;; success else k.

(** ** status *)

Definition status_row (d : statusDomain) : prog (list text) :=
  let state := if negb (sd_Enabled d) then T "disabled" else if negb (sd_IsUp d) then T "DOWN" else T "up" in
  var checked := ago (sd_LastCheck d) in
  Return [sd_Name d; state; dec (sd_Pending d); checked; truncate (sd_LastError d) 50].

Definition status_head (st : statusResponse) : list out :=
  [Note (T "XeronMX " ++ sr_Version st);
   Note (T "queue       " ++ dec (sr_Pending st) ++ T " pending, " ++ human (sr_PendingBytes st) ++ T " (" ++ dec (sr_Total st) ++ T " total)")]
  ++ (if 0 <? sr_Quarantined st then [Note (T "quarantine  " ++ dec (sr_Quarantined st) ++ T " held")] else [])
  ++ match sr_TLS st with
     | Some t =>
         Note (T "tls         " ++ tls_Source t ++ T " for " ++ tls_Domain t
               ++ if bool_decide (tls_Source t = T "self-signed") then T "  (interim; no CA certificate yet)" else [])
         :: if bool_decide (tls_LastError t = []) then [] else [Warn (T "            last ACME error: " ++ tls_LastError t)]
     | None => []
     end
  ++ [Note []].

Definition cmdStatus (c : Client) : command_ :=
  try_ st := get c "/api/v1/status"%string json_status in
  shown st
    (print_all (status_head st)
      match sr_Domains st with
      | [] => Note (T "No domains configured.") ;;; success
      | ds =>
          print_table ["DOMAIN"; "PRIMARY"; "PENDING"; "CHECKED"; "ERROR"]%string status_row ds
            (if sr_AllPrimariesUp st then success
             else Note [] ;;; Note (T "At least one primary is down. Mail is being held, not lost.") ;;; success)
      end).

(** ** domains *)

Definition domain_row (d : domain_) : prog (list text) :=
  let state :=
    if negb (d_Enabled d) then T "disabled"
    else match d_Primary d with Some false => T "primary down" | _ => T "enabled" end in
  Return [dec (d_ID d); d_Name d; d_PrimaryHost d ++ T ":" ++ dec (d_PrimaryPort d); d_PrimaryTLS d; dec (d_Retention d) ++ T "h";
          dec (d_Pending d); state].

Definition domains_list (c : Client) : command_ :=
  try_ ds := get c "/api/v1/domains"%string json_domains in
  shown ds
    match ds with
    | [] => Note (T "No domains configured.") ;;; success
    | _ => print_table ["ID"; "DOMAIN"; "PRIMARY"; "TLS"; "RETENTION"; "PENDING"; "STATE"]%string domain_row ds success
    end.

Definition domains_add (c : Client) (rest : list text) : command_ :=
  try_ (fs, args) := parseMixed "domains add"%string
    [(T "port", VInt 25); (T "tls", VString (T "starttls")); (T "retention-hours", VInt 168)] rest in
  match args with
  | [name; host] =>
      try_ created := post c "/api/v1/domains"%string
        (JSONBody (JObj [(T "name", JStr name); (T "primary_host", JStr host); (T "primary_port", JNum (flag_int "port"%string fs));
                         (T "primary_tls", JStr (flag_string "tls"%string fs));
                         (T "retention_hours", JNum (flag_int "retention-hours"%string fs))])) json_domain in
      shown created
        (Note (T "Added " ++ d_Name created ++ T " (id " ++ dec (d_ID created) ++ T "), holding for " ++ dec (d_Retention created) ++ T "h.") ;;;
         Note (T "Publish a secondary MX record for it, then run: xeronmxctl domains test " ++ dec (d_ID created)) ;;;
         success)
  | _ => usage_error (T "domains add <domain> <primary-host> [flags]")
  end.

Definition domains_rm (c : Client) (rest : list text) : command_ :=
  try_ (fs, args) := parseMixed "domains rm"%string [(T "force", VBool false)] rest in
  match args with
  | [id] =>
      let path := T "/api/v1/domains/" ++ id ++ if flag_bool "force"%string fs then T "?force=true" else [] in
      var r := delete c path json_map in
      match r with
      | inl e =>
          failure match e with
                  | APIErr 409 message => plain (message ++ [LF] ++ T "  pass --force to delete it and the mail with it")
                  | e => e
                  end
      | inr _ => Note (T "Deleted.") ;;; success
      end
  | _ => usage_error (T "domains rm <id> [--force]")
  end.

Definition domains_test (c : Client) (rest : list text) : command_ :=
  match rest with
  | [id] =>
      try_ probe := post c (T "/api/v1/domains/" ++ id ++ T "/test") NoBody json_probe in
      shown probe
        (if pr_Reachable probe then Note (T "The primary answered in " ++ dec (pr_TookMS probe) ++ T "ms.") ;;; success
         else Warn (T "The primary did not answer: " ++ pr_Error probe) ;;;
              if bool_decide (pr_Hint probe = []) then success else Warn (T "  " ++ pr_Hint probe) ;;; success)
  | _ => usage_error (T "domains test <id>")
  end.

(** A list without a value is null in JSON. *)
Definition strings_json (l : list text) : jval := match l with [] => JNull | _ => JStrs l end.

(** The addresses of a file: lines that are neither empty nor comments, without the space around them. *)
Definition listed (raw : text) : list text :=
  List.filter (fun l => negb (bool_decide (l = [])) && negb (has_prefix "#"%string l)) (map trim_space (split_byte LF raw)).

Definition stdin : text := "/dev/stdin"%string.

Definition domains_recipients (c : Client) (rest : list text) : command_ :=
  try_ (fs, args) := parseMixed "domains recipients"%string [(T "file", VString []); (T "clear", VBool false)] rest in
  let file := flag_string "file"%string fs in
  let clear := flag_bool "clear"%string fs in
  match args with
  | [id] =>
      if negb (bool_decide (file = [])) && clear then usage_error (T "domains recipients <id> [--file <path|-> | --clear]")
      else
        let path := T "/api/v1/domains/" ++ id ++ T "/recipients" in
        let answered := fun (r : cli_error + list text) =>
          match r with
          | inl e => failure e
          | inr rs =>
              shown rs
                match rs with
                | [] => Note (T "No list: every address in the domain is accepted.") ;;; success
                | _ =>
                    print_all (map Note rs)
                      (if bool_decide (file = []) then success
                       else Note (dec (Z.of_nat (length rs)) ++ T " addresses; any other is refused with 550 5.1.1.") ;;; success)
                end
          end in
        if clear then pbind (put c path (JSONBody (JObj [(T "recipients", JStrs [])])) json_recipients) answered
        else if bool_decide (file = []) then pbind (get c path json_recipients) answered
        else
          ReadFile (if bool_decide (file = T "-") then stdin else file) (fun raw =>
            match raw with
            | Err e => failure (Other e)
            | Ok raw => pbind (put c path (JSONBody (JObj [(T "recipients", strings_json (listed raw))])) json_recipients) answered
            end)
  | _ => usage_error (T "domains recipients <id> [--file <path|-> | --clear]")
  end.

Definition unknown (sub rest : text) : command_ := failure (plain (T "unknown subcommand " ++ quote sub ++ rest)).

Definition cmdDomains (c : Client) (args : list text) : command_ :=
  let '(sub, rest) := split args "list"%string in
  if bool_decide (sub = T "list") then domains_list c
  else if bool_decide (sub = T "add") then domains_add c rest
  else if bool_decide (sub = T "rm") then domains_rm c rest
  else if bool_decide (sub = T "test") then domains_test c rest
  else if bool_decide (sub = T "recipients") then domains_recipients c rest
  else unknown sub (T " (try list, add, rm, test, recipients)").

(** ** queue *)

Definition message_row (m : message_) : prog (list text) :=
  let state := match m_Quarantined m with Some _ => T "quarantined" | None => m_Status m end in
  var age := ago (m_ReceivedAt m) in
  Return [truncate (m_ID m) 12; state; truncate (m_From m) 24; truncate (join ","%string (m_To m)) 24; truncate (m_Subject m) 30;
          human (m_SizeBytes m); dec (m_Attempts m); age].

Definition queue_list (c : Client) (rest : list text) : command_ :=
  try_ (fs, _) := Parse (UsageOf "queue list"%string)
    [(T "status", VString []); (T "direction", VString []); (T "limit", VInt 50); (T "quarantined", VBool false)] rest in
  let given := fun name : text => let v := flag_string name fs in if bool_decide (v = []) then [] else [(name, v)] in
  let q := given "status"%string ++ given "direction"%string
           ++ (if flag_bool "quarantined"%string fs then [(T "quarantined", T "true")] else [])
           ++ [(T "limit", dec (flag_int "limit"%string fs))] in
  try_ (messages, count) := get c (T "/api/v1/queue?" ++ Encode q) json_messages in
  shown messages
    match messages with
    | [] => Note (T "Nothing in the queue.") ;;; success
    | _ =>
        print_table ["ID"; "STATUS"; "FROM"; "TO"; "SUBJECT"; "SIZE"; "TRIES"; "AGE"]%string message_row messages
          (Note [] ;;; Note (dec (Z.of_nat (length messages)) ++ T " shown of " ++ dec count ++ T " matching.") ;;; success)
    end.

Definition message_lines (c : Client) (m : message_) (received expires : text) (next : option text) : list out :=
  [Note (T "id          " ++ m_ID m);
   Note (T "status      " ++ m_Status m ++ T " (" ++ m_Direction m ++ T ")");
   Note (T "from        " ++ m_From m);
   Note (T "to          " ++ join ", "%string (m_To m));
   Note (T "subject     " ++ m_Subject m);
   Note (T "size        " ++ human (m_SizeBytes m));
   Note (T "received    " ++ received);
   Note (T "expires     " ++ expires);
   Note (T "attempts    " ++ dec (m_Attempts m))]
  ++ match next with Some t => [Note (T "next try    " ++ t)] | None => [] end
  ++ match m_SpamScore m with Some x => [Note (T "spam score  " ++ fixed1 x)] | None => [] end
  ++ match m_Quarantined m with Some _ => [Note (T "quarantine  " ++ m_QuarReason m)] | None => [] end
  ++ (if bool_decide (m_LastError m = []) then [] else [Note (T "last error  " ++ m_LastError m)])
  ++ [Note []; Note (T "The body is not shown here. Reading it is an audited action:");
      Note (T "  curl -H " ++ [DQ] ++ T "Authorization: Bearer $XERONMX_TOKEN" ++ [DQ] ++ T " " ++ base c ++ T "/api/v1/queue/" ++ m_ID m ++ T "/raw")].

Definition queue_show (c : Client) (rest : list text) : command_ :=
  match rest with
  | [id] =>
      try_ m := get c (T "/api/v1/queue/" ++ id) json_message in
      shown m
        (var received := ago (m_ReceivedAt m) in
         var expires := until (m_ExpiresAt m) in
         var next := match m_NextRetryAt m with Some t => var u := until t in Return (Some u) | None => Return None end in
         print_all (message_lines c m received expires next) success)
  | _ => usage_error (T "queue show <id>")
  end.

(** A request for one message, of which only the success is looked at. *)
Definition queue_act (c : Client) (name method : text) (path : text -> text) (said : text) (rest : list text) : command_ :=
  match rest with
  | [id] => try_ _ := do_ c method (path id) NoBody in Note said ;;; success
  | _ => usage_error (T "queue " ++ name ++ T " <id>")
  end.

Definition queue_retry (c : Client) := queue_act c "retry"%string "POST"%string
  (fun id => T "/api/v1/queue/" ++ id ++ T "/retry") "Queued for immediate delivery."%string.
Definition queue_rm (c : Client) := queue_act c "rm"%string "DELETE"%string
  (fun id => T "/api/v1/queue/" ++ id) "Deleted. The body is gone from the spool."%string.
Definition queue_release (c : Client) := queue_act c "release"%string "POST"%string
  (fun id => T "/api/v1/queue/" ++ id ++ T "/release") "Released from quarantine and queued for delivery."%string.

Definition cmdQueue (c : Client) (args : list text) : command_ :=
  let '(sub, rest) := split args "list"%string in
  if bool_decide (sub = T "list") then queue_list c rest
  else if bool_decide (sub = T "show") then queue_show c rest
  else if bool_decide (sub = T "retry") then queue_retry c rest
  else if bool_decide (sub = T "rm") then queue_rm c rest
  else if bool_decide (sub = T "release") then queue_release c rest
  else unknown sub (T " (try list, show, retry, rm, release)").

(** ** events and filters *)

Definition key_le (a b : text) : Prop := text_leb a b = true.
#[local] Instance key_le_dec a b : Decision (key_le a b).
Proof. unfold key_le. apply _. Defined.

Definition summarise (data : gmap text text) : text :=
  join " "%string (map (fun k => k ++ T "=" ++ default [] (data !! k)) (merge_sort key_le (map fst (map_to_list data)))).

Definition event_row (e : event_) : prog (list text) :=
  var when := ago (e_CreatedAt e) in Return [when; e_Type e; truncate (summarise (e_Data e)) 60].

Definition cmdEvents (c : Client) (args : list text) : command_ :=
  try_ (fs, _) := Parse (UsageOf "events"%string) [(T "limit", VInt 40)] args in
  try_ events := get c (T "/api/v1/events?limit=" ++ dec (flag_int "limit"%string fs)) json_events in
  shown events
    match events with
    | [] => Note (T "Nothing on the timeline yet.") ;;; success
    | _ => print_table ["WHEN"; "EVENT"; "DETAIL"]%string event_row events success
    end.

Definition off (enabled : bool) (name : text) : text := if enabled then name else name ++ T " (off)".

Definition filter_row (f : filter_) : prog (list text) :=
  var last := ago (f_LastMatch f) in
  Return [dec (f_ID f); dec (f_Priority f); off (f_Enabled f) (f_Name f); f_Field f; f_Action f; truncate (f_Pattern f) 30; dec (f_MatchCount f); last].

Definition cmdFilters (c : Client) (args : list text) : command_ :=
  let '(sub, _) := split args "list"%string in
  if negb (bool_decide (sub = T "list")) then
    unknown sub (T " (only list is available here; " ++ T "filters are edited in the UI, where the pattern can be tried before it is saved")
  else
    try_ filters := get c "/api/v1/filters"%string json_filters in
    shown filters
      match filters with
      | [] => Note (T "No filters configured.") ;;; success
      | _ => print_table ["ID"; "PRIO"; "NAME"; "FIELD"; "ACTION"; "PATTERN"; "MATCHES"; "LAST"]%string filter_row filters success
      end.

(** ** webhooks *)

Definition webhook_row (h : webhook_) : prog (list text) :=
  let events := match h_Events h with [] => T "all" | es => dec (Z.of_nat (length es)) end in
  var ok := ago (h_LastOK h) in
  Return [dec (h_ID h); off (h_Enabled h) (h_Name h); truncate (h_URL h) 36; events; yesNo (h_Signed h); ok; truncate (h_LastError h) 30].

Definition webhooks_list (c : Client) : command_ :=
  try_ list := get c "/api/v1/webhooks"%string json_webhooks in
  shown list
    (print_all (if wl_Enabled list then []
                else [Warn (T "Event webhooks are switched off in the configuration; nothing here will be delivered.")])
      match wl_Webhooks list with
      | [] => Note (T "No subscriptions.") ;;; success
      | hs => print_table ["ID"; "NAME"; "URL"; "EVENTS"; "SIGNED"; "LAST OK"; "LAST ERROR"]%string webhook_row hs success
      end).

Definition webhooks_test (c : Client) (rest : list text) : command_ :=
  match rest with
  | [id] =>
      try_ res := post c (T "/api/v1/webhooks/" ++ id ++ T "/test") NoBody json_test in
      shown res
        (if tr_OK res then Note (T "The endpoint answered " ++ dec (tr_Status res) ++ T ".") ;;; success
         else failure (plain (T "the endpoint did not accept the test: " ++ tr_Error res)))
  | _ => usage_error (T "webhooks test <id>")
  end.

Definition delivery_row (d : delivery_) : prog (list text) :=
  var detail :=
    match l_NextAttempt d with
    | Some t =>
        if bool_decide (l_Status d = T "pending") then var u := until t in Return (T "retry " ++ u) else Return (l_LastError d)
    | None => Return (l_LastError d)
    end in
  var when := ago (l_CreatedAt d) in
  Return [dec (l_ID d); truncate (l_WebhookName d) 16; l_Event d; l_Status d; dec (l_Attempts d);
          if 0 <? l_StatusCode d then dec (l_StatusCode d) else []; when; truncate detail 34].

Definition webhooks_deliveries (c : Client) (rest : list text) : command_ :=
  try_ (fs, _) := Parse (UsageOf "webhooks deliveries"%string) [(T "webhook", VInt 0); (T "limit", VInt 30)] rest in
  let hook := flag_int "webhook"%string fs in
  let q := (T "limit", dec (flag_int "limit"%string fs)) :: if 0 <? hook then [(T "webhook_id", dec hook)] else [] in
  try_ deliveries := get c (T "/api/v1/webhooks/deliveries?" ++ Encode q) json_deliveries in
  shown deliveries
    match deliveries with
    | [] => Note (T "Nothing has been delivered yet.") ;;; success
    | _ => print_table ["ID"; "SUBSCRIPTION"; "EVENT"; "STATUS"; "TRIES"; "CODE"; "WHEN"; "DETAIL"]%string delivery_row deliveries success
    end.

Definition cmdWebhooks (c : Client) (args : list text) : command_ :=
  let '(sub, rest) := split args "list"%string in
  if bool_decide (sub = T "list") then webhooks_list c
  else if bool_decide (sub = T "test") then webhooks_test c rest
  else if bool_decide (sub = T "deliveries") then webhooks_deliveries c rest
  else unknown sub (T " (try list, test, deliveries)").

(** ** tokens and cluster *)

Definition token_row (t : token_) : prog (list text) :=
  var expires := until (t_Expires t) in
  var used := ago (t_LastUsed t) in
  Return [dec (t_ID t); if t_Expired t then t_Name t ++ T " (expired)" else t_Name t; t_Prefix t ++ ellipsis; t_Role t; expires; used].

Definition cmdTokens (c : Client) (args : list text) : command_ :=
  let '(sub, rest) := split args "list"%string in
  if bool_decide (sub = T "list") then
    try_ tokens := get c "/api/v1/tokens"%string json_tokens in
    shown tokens
      match tokens with
      | [] => Note (T "No API tokens.") ;;; success
      | _ => print_table ["ID"; "NAME"; "PREFIX"; "ROLE"; "EXPIRES"; "LAST USED"]%string token_row tokens success
      end
  else if bool_decide (sub = T "rm") then
    match rest with
    | [id] =>
        try_ _ := do_ c "DELETE"%string (T "/api/v1/tokens/" ++ id) NoBody in
        Note (T "Revoked. Anything using it stops working now.") ;;; success
    | _ => usage_error (T "tokens rm <id>")
    end
  else unknown sub (T " (try list, rm. " ++ T "New tokens are created in the UI, which is the only place the secret is ever shown").

Definition node_row (n : node_) : prog (list text) :=
  let conf :=
    if bool_decide (n_ConfigHash n = []) then T "unknown"
    else truncate (n_ConfigHash n) 12 ++ if n_ConfigDrift n then T " DRIFT" else [] in
  var seen := ago (n_LastSeen n) in
  Return [if n_Self n then n_ID n ++ T " *" else n_ID n; n_Role n; if n_Healthy n then T "up" else T "down";
          dec (n_QueuePending n) ++ T " (" ++ human (n_QueueBytes n) ++ T ")"; dec (n_Domains n); conf; n_Version n; seen].

Definition cluster_notes (s : clusterState) : list out :=
  [Note []]
  ++ (if 0 <? cl_Drifted s then
        [Warn (dec (cl_Drifted s) ++ T " node(s) are configured differently from this one. A domain that exists");
         Warn (T "on one node and not the other means half the internet gets a 550.")]
      else [])
  ++ (if cl_QueueIsShared s then []
      else [Note (T "Each node holds its own spool. Nothing here is replicated mail:");
            Note (T "a node that is down is drained by itself when it comes back.")]).

Definition cmdCluster (c : Client) : command_ :=
  try_ s := get c "/api/v1/cluster"%string json_cluster in
  shown s
    (if negb (cl_Enabled s) then Note (T "Clustering is off. This node runs alone.") ;;; success
     else
       Note (T "This node: " ++ cl_NodeID s ++ T " (" ++ cl_Role s ++ T ")") ;;; Note [] ;;;
       print_table ["NODE"; "ROLE"; "STATE"; "PENDING"; "DOMAINS"; "CONFIG"; "VERSION"; "SEEN"]%string node_row (cl_Nodes s)
         (print_all (cluster_notes s) success)).

(** ** config *)

Definition config_export (c : Client) (rest : list text) : command_ :=
  try_ raw := do_raw c "GET"%string "/api/v1/config"%string NoBody in
  match rest with
  | [file] =>
      WriteFile file 384 raw (fun e =>
        match e with Some e => failure (Other e) | None => Note (T "Written to " ++ file) ;;; success end)
  | _ => Bytes_ raw ;;; success
  end.

Definition config_import (c : Client) (rest : list text) : command_ :=
  try_ (fs, args) := parseMixed "config import"%string [(T "dry-run", VBool false)] rest in
  match args with
  | [file] =>
      ReadFile file (fun raw =>
        match raw with
        | Err e => failure (Other e)
        | Ok raw =>
            let path := T "/api/v1/config" ++ if flag_bool "dry-run"%string fs then T "?dry_run=true" else [] in
            try_ report := postRaw c path "application/yaml"%string raw json_report in
            shown report
              (print_all (if ir_DryRun report then [Note (T "Dry run: nothing was changed.")] else [])
                (Table (map T ["KIND"; "NAME"; "ACTION"]%string :: map (fun d => [T "domain"; d.1; d.2]) (ir_Domains report)
                        ++ map (fun u => [T "account"; u.1; u.2]) (ir_SMTPUsers report)) ;;;
                 print_all ([Note []; Note (ir_Description report)] ++ map (fun w => Warn (T "warning: " ++ w)) (ir_Warnings report)) success))
        end)
  | _ => usage_error (T "config import <file.yaml> [--dry-run]")
  end.

Definition cmdConfig (c : Client) (args : list text) : command_ :=
  let '(sub, rest) := split args [] in
  if bool_decide (sub = T "export") then config_export c rest
  else if bool_decide (sub = T "import") then config_import c rest
  else usage_error (T "config export [file] | import <file> [--dry-run]").

(** ** drain *)

Definition depth (r : drainResp) : text := dec (dr_Pending r) ++ T " pending messages (" ++ human (dr_PendingBytes r) ++ T ")".

Definition cancelled : cli_error := Other (ESentinel ErrContext "context canceled"%string).

(** Asks at each tick, into the one [res]; [ticks] of them come before the user interrupts. *)
Fixpoint drain_wait (c : Client) (ticks : nat) (res : drainResp) : command_ :=
  match ticks with
  | O => failure cancelled
  | S ticks =>
      try_ res := get c "/api/v1/maintenance/drain"%string (json_drain res) in
      if dr_Pending res =? 0 then
        Note (T "Spool is completely drained (0 messages). Safe to perform maintenance or restart.") ;;; success
      else
        Note (T "... " ++ dec (dr_Pending res) ++ T " messages remaining (" ++ human (dr_PendingBytes res) ++ T ")") ;;;
        drain_wait c ticks res
  end.

Definition cmdDrain (c : Client) (ticks : nat) (args : list text) : command_ :=
  try_ (fs, _) := Parse (UsageOf "drain"%string)
    [(T "status", VBool false); (T "cancel", VBool false); (T "disable", VBool false); (T "wait", VBool false)] args in
  let status := flag_bool "status"%string fs in
  let enable := negb (flag_bool "cancel"%string fs || flag_bool "disable"%string fs) in
  try_ res := (if status then get c "/api/v1/maintenance/drain"%string (json_drain no_drain)
               else post c "/api/v1/maintenance/drain"%string (JSONBody (JObj [(T "enabled", JBool enable)])) (json_drain no_drain)) in
  shown res
    (if status then
       Note (if dr_Draining res then T "Drain mode: ACTIVE (refusing new inbound mail with 421)" else T "Drain mode: INACTIVE (normal operation)") ;;;
       Note (T "Spool depth: " ++ depth res) ;;; success
     else if dr_Draining res then
       Note (T "Drain mode enabled. New inbound SMTP connections are refused with 421.") ;;;
       Note (T "Spool depth: " ++ depth res) ;;;
       if flag_bool "wait"%string fs then Note (T "Waiting for queue to drain to 0 messages...") ;;; drain_wait c ticks res else success
     else Note (T "Drain mode disabled. Normal SMTP intake resumed.") ;;; success).
End commands.

(** ** main *)

Definition usage : text := concat (map (fun l => l ++ [LF])
  [T "xeronmxctl: command line client for XeronMX";
   [];
   T "Usage:";
   T "  xeronmxctl [flags] <command> [arguments]";
   [];
   T "Commands:";
   T "  login       Save the server URL and API token for later runs";
   T "  status      Overall state: primaries, queue depth, certificate";
   T "  domains     list | add | rm | test | recipients";
   T "  queue       list | show | retry | rm | release";
   T "  events      Recent timeline entries";
   T "  filters     list";
   T "  webhooks    list | test | deliveries";
   T "  tokens      list | rm";
   T "  cluster     The fleet as this node sees it";
   T "  config      export | import";
   T "  drain       Refuse new mail and empty the queue (--wait, --status, --cancel)";
   T "  version     Client and server versions";
   [];
   T "Flags:";
   T "  --url string     Base URL of the instance (env XERONMX_URL)";
   T "  --token string   API token (env XERONMX_TOKEN)";
   T "  --insecure       Skip TLS verification; for an interim self-signed certificate";
   T "  --json           Print raw JSON instead of a table";
   [];
   T "Run " ++ [DQ] ++ T "xeronmxctl <command> --help" ++ [DQ] ++ T " for the flags a command takes.";
   [];
   T "The token is read from --token, then XERONMX_TOKEN, then the file written by";
   [DQ] ++ T "xeronmxctl login" ++ [DQ] ++ T ". Prefer the environment variable in CI: a flag ends up in the";
   T "process list, and the file ends up on disk."]).

Section main.
Context `{AddressLib} `{EnvelopeLib} `{CtlLib}.
Context (os : Process) (version : text) (ticks : nat).

Definition cmdLogin (args : list text) (flags : Settings) : command_ :=
  try_ (fs, _) := Parse (UsageOf "login"%string)
    [(T "url", VString (URL flags)); (T "token", VString (Token flags)); (T "insecure", VBool (Insecure flags))] args in
  let s := {| URL := flag_string "url"%string fs; Token := flag_string "token"%string fs; Insecure := flag_bool "insecure"%string fs |} in
  if bool_decide (URL s = []) || bool_decide (Token s = []) then failure (plain (T "login needs --url and --token"))
  else
    try_ client := NewClient s in
    var me := get client "/api/v1/auth/me"%string json_me in
    match me with
    | inl e => failure (Wrapped "the server did not accept that token"%string e)
    | inr me =>
        try_ path := SaveSettings os s in
        let '(name, role) := match me_ViaToken me with Some (n, r) => (n, r) | None => (T "unnamed", me_Role me) end in
        Note (T "Signed in to " ++ URL s ++ T " as " ++ me_Email me ++ T " (" ++ role ++ T " access) using token " ++ quote name ++ T ".") ;;;
        Note (T "Settings written to " ++ path) ;;;
        if Insecure s then
          Warn (T "TLS verification is off for this instance; remove `insecure: true` from " ++ path ++ T " once a real certificate is in place.") ;;;
          success
        else success
    end.

(** [error_text] is what an error says of itself. *)
Definition cmdVersion (error_text : cli_error -> text) (flags : Settings) : command_ :=
  Note (T "xeronmxctl " ++ version) ;;;
  var s := LoadSettings os flags in
  match s with
  | inl _ => success
  | inr s =>
      if bool_decide (URL s = []) then success
      else
        var client := NewClient s in
        match client with
        | inl _ => success
        | inr client =>
            var setup := get client "/api/v1/setup"%string json_setup in
            match setup with
            | inl e => Warn (T "could not reach " ++ URL s ++ T ": " ++ error_text e) ;;; success
            | inr v => Note (T "server      " ++ v ++ T " (" ++ URL s ++ T ")") ;;; success
            end
        end
  end.

(** The commands that talk to the server the settings name. *)
Definition dispatch_ (jsonOut : bool) (client : Client) (command : text) (rest : list text) : command_ :=
  let cmd (s : string) := bool_decide (command = T s) in
  if cmd "status"%string then cmdStatus jsonOut client
  else if cmd "domains"%string then cmdDomains jsonOut client rest
  else if cmd "queue"%string then cmdQueue jsonOut client rest
  else if cmd "events"%string then cmdEvents jsonOut client rest
  else if cmd "filters"%string then cmdFilters jsonOut client rest
  else if cmd "webhooks"%string then cmdWebhooks jsonOut client rest
  else if cmd "tokens"%string then cmdTokens jsonOut client rest
  else if cmd "cluster"%string then cmdCluster jsonOut client
  else if cmd "config"%string then cmdConfig jsonOut client rest
  else if cmd "drain"%string then cmdDrain jsonOut client ticks rest
  else UsageOf "xeronmxctl"%string ;;; failure (plain (T "unknown command " ++ quote command)).

Definition run (error_text : cli_error -> text) (args : list text) : command_ :=
  try_ (fs, args) := Parse (UsageOf "xeronmxctl"%string)
    [(T "url", VString []); (T "token", VString []); (T "insecure", VBool false); (T "json", VBool false)] args in
  let flags := {| URL := flag_string "url"%string fs; Token := flag_string "token"%string fs; Insecure := flag_bool "insecure"%string fs |} in
  match args with
  | [] => UsageOf "xeronmxctl"%string ;;; failure (plain (T "no command given"))
  | command :: rest =>
      if bool_decide (command = T "login") then cmdLogin rest flags
      else if bool_decide (command = T "version") then cmdVersion error_text flags
      else if bool_decide (command ∈ map T ["help"; "-h"; "--help"]%string) then Bytes_ usage ;;; success
      else
        try_ settings := LoadSettings os flags in
        try_ client := NewClient settings in
        dispatch_ (flag_bool "json"%string fs) client command rest
  end.

(** The exit status, after what is said of the error. *)
Definition main (error_text : cli_error -> text) (args : list text) : prog Z :=
  var r := run error_text args in
  match r with
  | None => Return 0
  | Some e =>
      Warn (T "xeronmxctl: " ++ error_text e) ;;;
      match api_status e with
      | Some 401 =>
          Warn (T "  the token was refused (it may have expired, been revoked, " ++ T "or belong to an account that no longer exists") ;;; Return 1
      | _ => Return 1
      end
  end.
End main.

(** * Guarantees *)

(** ** What a program may ask *)

(** What the files a run reads may say. *)
Class Disk := says : text -> result text -> Prop.

Section asks.
Context {files : Disk}.

(** Every request satisfies [P], and what it ends with [Q], whatever it is answered and the files say. *)
Fixpoint asks {A} (P : call -> Prop) (Q : A -> Prop) (p : prog A) : Prop :=
  match p with
  | Return a => Q a
  | Http c k => P c /\ forall r, asks P Q (k r)
  | Print_ _ k => asks P Q k
  | ReadFile name k => forall r, says name r -> asks P Q (k r)
  | WriteFile _ _ _ k => forall r, asks P Q (k r)
  | MkdirAll_ _ _ k => forall r, asks P Q (k r)
  | Mode _ k => forall r, asks P Q (k r)
  | Clock k => forall t, asks P Q (k t)
  end.

Definition anything {A} : A -> Prop := fun _ => True.

Lemma asks_bind {A B} P Q (p : prog A) (f : A -> prog B) : asks P (fun a => asks P Q (f a)) p -> asks P Q (pbind p f).
Proof. induction p; cbn; try naive_solver. Qed.

Lemma asks_mono {A} P (Q Q' : A -> Prop) p : (forall a, Q a -> Q' a) -> asks P Q p -> asks P Q' p.
Proof. intros HQ. induction p; cbn; naive_solver. Qed.

Lemma asks_weaken {A} (P P' : call -> Prop) (Q : A -> Prop) p : (forall c, P c -> P' c) -> asks P Q p -> asks P' Q p.
Proof. intros HP. induction p; cbn; naive_solver. Qed.

Lemma asks_try {A} P (p : prog (cli_error + A)) (f : A -> command_) :
  asks P (fun r => match r with inl _ => True | inr a => asks P anything (f a) end) p -> asks P anything (orFail p f).
Proof. intros Hp. apply asks_bind. eapply asks_mono; [|exact Hp]. by intros [e|a]. Qed.

Lemma asks_print_all {B} P (Q : B -> Prop) os k : asks P Q k -> asks P Q (print_all os k).
Proof. induction os; cbn; auto. Qed.

Lemma asks_ago P t : asks P anything (ago t).
Proof. by destruct t. Qed.
Lemma asks_until P t : asks P anything (until t).
Proof. by destruct t. Qed.

Lemma asks_rows P {A} (row : A -> prog (list text)) xs : (forall x, asks P anything (row x)) -> asks P anything (rows_of row xs).
Proof.
  intros Hr. induction xs as [|x xs IH]; cbn [rows_of]; [done|]. apply asks_bind. eapply asks_mono; [|apply Hr]. intros r _.
  apply asks_bind. eapply asks_mono; [|exact IH]. done.
Qed.

Lemma asks_print_table P {A} head (row : A -> prog (list text)) xs k :
  (forall x, asks P anything (row x)) -> asks P anything k -> asks P anything (print_table head row xs k).
Proof. intros Hr Hk. unfold print_table. apply asks_bind. eapply asks_mono; [|by apply asks_rows]. done. Qed.

(** The arguments after the flags are arguments. *)
Lemma parse_flags_args fuel fs args fs' rest x : parse_flags fuel fs args = inr (fs', rest) -> x ∈ rest -> x ∈ args.
Proof.
  revert fs args. induction fuel as [|fuel IH]; intros fs args; cbn [parse_flags]; [intros [= _ <-]; done|].
  destruct args as [|s args]; [intros [= _ <-]; done|]. intros H Hx.
  repeat (case_match; simplify_eq; try done); try (by right); try (right; by eapply IH); right; right; by eapply IH.
Qed.

Lemma asks_Parse P usage fs args :
  asks P (fun r => forall fs' rest, r = inr (fs', rest) -> forall x, x ∈ rest -> x ∈ args) (Parse usage fs args).
Proof.
  unfold Parse. destruct (parse_flags _ fs args) as [[|msg]|[fs' rest]] eqn:E; cbn; [naive_solver..|].
  intros ? ? [= <- <-] x. by eapply parse_flags_args.
Qed.

Lemma positionals_app args : fst (positionals args) ++ snd (positionals args) = args.
Proof.
  induction args as [|a args IH]; cbn [positionals]; [done|]. destruct (has_prefix "-"%string a); [done|].
  destruct (positionals args) as [p f]. cbn in *. by rewrite IH.
Qed.

Lemma asks_parseMixed P name fs args :
  asks P (fun r => forall fs' rest, r = inr (fs', rest) -> forall x, x ∈ rest -> x ∈ args) (parseMixed name fs args).
Proof.
  unfold parseMixed. pose proof (positionals_app args) as Ha. destruct (positionals args) as [pos flags]. cbn in Ha. apply asks_bind.
  eapply asks_mono; [|apply asks_Parse]. cbn. intros [e|[fs1 rest1]] Hr; [naive_solver|]. intros ? ? [= <- <-] x. rewrite <- Ha, !elem_of_app.
  intros [?|Hx]; [by left|right]. by eapply Hr.
Qed.

(** What is parsed is what the flag package makes of the arguments. *)
Lemma asks_parsed P usage fs args :
  asks P (fun r => forall fs' rest, r = inr (fs', rest) -> parse_flags (length args) fs args = inr (fs', rest)) (Parse usage fs args).
Proof. unfold Parse. destruct (parse_flags _ fs args) as [[|msg]|[fs' rest]]; cbn; naive_solver. Qed.
End asks.

(** ** The pages asked for are pages of the server *)

(** The path of a pattern, with [id] in the place of its wildcard, and the query after it. *)
Fixpoint fill (pattern : list text) (id query : text) : text :=
  match pattern with
  | [] => query
  | p :: pattern => T "/" ++ (if bool_decide (p = wildcard) then id else p) ++ fill pattern id query
  end.

(** What identifies an object: nothing that a URL gives a meaning to. *)
Definition segment_ok (id : text) : Prop := id <> [] /\ forallb unreserved id = true.

Lemma segments_fill pattern id :
  segment_ok id -> Forall (fun p => "/"%char ∉ p) pattern ->
  tail (split_byte "/"%char (fill pattern id [])) = map (fun p => if bool_decide (p = wildcard) then id else p) pattern.
Proof.
  intros [_ Hid] Hp. assert (Hs : "/"%char ∉ id) by (rewrite forallb_forall in Hid; intros Hin; apply list_elem_of_In, Hid in Hin; done).
  assert (E : forall l, "/"%char ∉ l -> split_byte "/"%char (l ++ fill pattern id []) =
    l :: map (fun p => if bool_decide (p = wildcard) then id else p) pattern).
  { induction Hp as [|p pattern Hp Hps IH]; intros l Hl; cbn [fill map]; [rewrite app_nil_r; by apply split_byte_id|].
    change (T "/") with ["/"%char]. cbn [app]. rewrite split_byte_app by done. f_equal. apply IH. by case_bool_decide. }
  specialize (E [] ltac:(by apply not_elem_of_nil)). cbn [app] in E. by rewrite E.
Qed.

Lemma match_path_fill pattern id :
  id <> [] -> exists v, match_path pattern (map (fun p => if bool_decide (p = wildcard) then id else p) pattern) = Some v.
Proof.
  intros Hid. induction pattern as [|p pattern [v IH]]; cbn [match_path map]; [by eexists|]. destruct (bool_decide_reflect (p = wildcard)) as [->|Hp].
  - rewrite bool_decide_eq_false_2, IH by done. by eexists.
  - rewrite bool_decide_eq_true_2 by done. rewrite IH. by eexists.
Qed.

Lemma match_method_refl m : match_method m m = true.
Proof. unfold match_method. by rewrite bool_decide_eq_true_2. Qed.

Section pages.
Context `{SmtpLib} `{PasswordCrypto} `{AEAD} `{QRLib} `{RegexpLib} `{DohLib} `{DmarcLib} `{KeyGenLib} `{HttpLib} `{AddressLib}.
Context `{YamlLib} `{WireLib} `{OIDCLib} `{UrlLib} `{BodyLib} `{EnvelopeLib} `{CtlLib}.
Context (sv : ServerConfig) (now : surroundings).

Lemma lookup_route_takes table m path r : r ∈ table -> rt_method r = m -> (exists v, match_path (rt_pattern r) path = Some v) ->
  exists r' id, lookup_route table m path = Some (r', id).
Proof.
  intros Hr <- [v Hv]. induction table as [|r0 table IH]; [by apply not_elem_of_nil in Hr|]. cbn [lookup_route].
  apply elem_of_cons in Hr as [<-|Hr].
  - rewrite match_method_refl, Hv. by eexists _, _.
  - destruct (match_method _ _); [destruct (match_path (rt_pattern r0) path); [by eexists _, _|]|]; by apply IH.
Qed.

(** A request of the client: to its server, with its token, for a page of the server's table, with an identifier from the
    command line in the place of the wildcard; a clean one reaches a handler. *)
Definition known_page (client : Client) (args : list text) (c : call) : Prop :=
  c_base c = base client /\ c_token c = token client /\ c_insecure c = insecure client /\
  exists r id query, r ∈ routes sv now /\ rt_method r = c_method c /\ c_path c = fill (rt_pattern r) id query /\
    (query = [] \/ exists q, query = "?"%char :: q) /\ (wildcard ∈ rt_pattern r -> id ∈ args) /\
    (segment_ok id -> exists r' id', lookup_route (routes sv now) (c_method c) (tail (split_byte "/"%char (fill (rt_pattern r) id []))) = Some (r', id')).

Definition listed_in (table : list route) (m : text) (p : list text) : bool :=
  existsb (fun r => bool_decide (rt_method r = m) && bool_decide (rt_pattern r = p)) table.

Lemma known_page_intro client args m pattern id query b path :
  listed_in (account_routes sv now ++ domain_routes sv ++ queue_routes sv now ++ settings_routes sv now ++ fleet_routes sv) m pattern = true ->
  path = fill pattern id query -> (query = [] \/ exists q, query = "?"%char :: q) ->
  (bool_decide (wildcard ∈ pattern) = true -> id ∈ args) -> bool_decide (Forall (fun p => "/"%char ∉ p) pattern) = true ->
  known_page client args (Call (base client) (token client) (insecure client) m path b).
Proof.
  intros Hl -> Hq Hid Hs. split_and!; [done..|]. unfold listed_in in Hl. apply existsb_exists in Hl as (r & Hr & Hm).
  apply andb_true_iff in Hm as [Hm Hp]. apply bool_decide_eq_true in Hm, Hp. apply list_elem_of_In in Hr.
  assert (Hin : r ∈ routes sv now) by (unfold routes; rewrite !app_assoc in *; apply elem_of_app; by left).
  exists r, id, query. rewrite Hp. split_and!; [done..| |].
  - intros Hw. apply Hid. by apply bool_decide_eq_true.
  - intros Hok. apply (lookup_route_takes _ _ _ r); [done..|]. rewrite Hp, segments_fill; [|done|by apply bool_decide_eq_true in Hs].
    apply match_path_fill. by destruct Hok.
Qed.
End pages.

(** ** Every command *)

Section every.
Context {files : Disk}.
Context `{SmtpLib} `{PasswordCrypto} `{AEAD} `{QRLib} `{RegexpLib} `{DohLib} `{DmarcLib} `{KeyGenLib} `{HttpLib} `{AddressLib}.
Context `{YamlLib} `{WireLib} `{OIDCLib} `{UrlLib} `{BodyLib} `{EnvelopeLib} `{CtlLib}.
Context (sv : ServerConfig) (now : surroundings) (client : Client) (args : list text).

(** The commands that may change something on the server. *)
Definition changing (command : text) (sub : text) : bool :=
  bool_decide ((command, sub) ∈ [(T "domains", T "add"); (T "domains", T "rm"); (T "domains", T "test"); (T "domains", T "recipients");
    (T "queue", T "retry"); (T "queue", T "rm"); (T "queue", T "release"); (T "webhooks", T "test"); (T "tokens", T "rm"); (T "config", T "import")])
  || bool_decide (command = T "drain").

Definition allowed (may_change : bool) (c : call) : Prop :=
  known_page sv now client args c /\ (may_change = false -> c_method c = T "GET").


Section asked.
Context (mc : bool).
Abbreviation P := (allowed mc).
Abbreviation to_client m path b := (Call (base client) (token client) (insecure client) m path b).

Lemma asks_do_raw Q m path b : P (to_client m path b) -> (forall r, Q r) -> asks P Q (do_raw client m path b).
Proof. intros Hc HQ. split; [done|]. intros r. apply HQ. Qed.
Lemma asks_do {A} (Q : cli_error + A -> Prop) m path b decode : P (to_client m path b) -> (forall r, Q r) -> asks P Q (do client m path b decode).
Proof. intros Hc HQ. apply asks_bind, asks_do_raw; [done|]. intros r. apply HQ. Qed.
Lemma asks_do_ (Q : cli_error + unit -> Prop) m path b : P (to_client m path b) -> (forall r, Q r) -> asks P Q (do_ client m path b).
Proof. intros Hc HQ. apply asks_bind, asks_do_raw; [done|]. intros r. apply HQ. Qed.
Lemma asks_postRaw {A} (Q : cli_error + A -> Prop) path ct raw decode :
  P (to_client "POST"%string path (RawBody ct raw)) -> (forall r, Q r) -> asks P Q (postRaw client path ct raw decode).
Proof. intros Hc HQ. apply asks_bind, asks_do_raw; [done|]. intros r. apply HQ. Qed.

Lemma asks_flags usage fs l (f : FlagSet * list text -> command_) :
  (forall fs' rest, (forall x, x ∈ rest -> x ∈ l) -> asks P anything (f (fs', rest))) -> asks P anything (orFail (Parse usage fs l) f).
Proof. intros Hf. apply asks_try. eapply asks_mono; [|apply asks_Parse]. intros [e|[fs' rest]] Hr; [done|]. apply Hf. by eapply Hr. Qed.

Lemma asks_mixed name fs l (f : FlagSet * list text -> command_) :
  (forall fs' rest, (forall x, x ∈ rest -> x ∈ l) -> asks P anything (f (fs', rest))) -> asks P anything (orFail (parseMixed name fs l) f).
Proof. intros Hf. apply asks_try. eapply asks_mono; [|apply asks_parseMixed]. intros [e|[fs' rest]] Hr; [done|]. apply Hf. by eapply Hr. Qed.
End asked.
End every.

(** Walk through a command; what is left are its requests. *)
Ltac walk_step :=
  match goal with
  | |- True => exact I
  | |- forall _, _ => intros ?
  | |- anything _ => exact I
  | |- asks _ _ (Return _) => cbn [asks]
  | |- asks _ _ (queue_act _ _ _ _ _ _) => unfold queue_act
  | |- asks _ _ success => exact I
  | |- asks _ _ (failure _) => exact I
  | |- asks _ _ (usage_error _) => exact I
  | |- asks _ _ (unknown _ _) => exact I
  | |- asks _ _ (Print_ _ _) => cbn [asks]
  | |- asks _ _ (ReadFile _ _) => cbn [asks]
  | |- asks _ _ (WriteFile _ _ _ _) => cbn [asks]
  | |- asks _ _ (print_all _ _) => apply asks_print_all
  | |- asks _ _ (print_table _ _ _ _) => apply asks_print_table
  | |- asks _ _ (shown _ _ _) => unfold shown
  | |- asks _ _ (orFail (Parse _ _ _) _) => apply asks_flags
  | |- asks _ _ (orFail (parseMixed _ _ _) _) => apply asks_mixed
  | |- asks _ _ (orFail _ _) => apply asks_try
  | |- asks _ _ (pbind _ _) => apply asks_bind
  | |- asks _ _ (ago _) => eapply asks_mono; [intros ? _|apply asks_ago]
  | |- asks _ _ (until _) => eapply asks_mono; [intros ? _|apply asks_until]
  | |- asks _ _ (do_raw _ _ _ _) => apply asks_do_raw
  | |- asks _ _ (do_ _ _ _ _) => apply asks_do_
  | |- asks _ _ (do _ _ _ _ _) => apply asks_do
  | |- asks _ _ (get _ _ _) => apply asks_do
  | |- asks _ _ (post _ _ _ _) => apply asks_do
  | |- asks _ _ (put _ _ _ _) => apply asks_do
  | |- asks _ _ (delete _ _ _) => apply asks_do
  | |- asks _ _ (postRaw _ _ _ _ _) => apply asks_postRaw
  | |- asks _ _ (match ?x with _ => _ end) => destruct x
  | |- match ?x with _ => _ end => destruct x
  | |- asks _ _ ?p => let f := head_of p in unfold f
  end.
Ltac walk := repeat (walk_step; cbv beta zeta).

(** A request for the page of a pattern: [fixed_page] without an identifier, [object_page] with one. *)
Ltac is_query := first [by left | by right; eexists | by case_match; [right; eexists | left]].
Ltac fixed_page pattern :=
  split; [eapply (known_page_intro _ _ _ _ _ (segments pattern) []);
          [vm_compute; reflexivity | reflexivity | is_query | intros Hw; vm_compute in Hw; discriminate Hw | vm_compute; reflexivity]
         |first [done | by intros [=]]].
Ltac object_page pattern :=
  try match goal with |- allowed _ _ _ _ _ (Call _ _ _ _ (_ ++ ?l) _) => is_var l; rewrite <- (app_nil_r l) end;
  split; [eapply (known_page_intro _ _ _ _ _ (segments pattern));
          [vm_compute; reflexivity | reflexivity | is_query | intros _; eauto using list_elem_of_here | vm_compute; reflexivity]
         |first [done | by intros [=]]].

(** The cases of a [switch] on the name of a command; a name that is known tells whether it may change something. *)
Ltac subcommand :=
  repeat match goal with
  | |- asks _ _ (if bool_decide (?x = ?name) then _ else _) =>
      let E := fresh "E" in
      destruct (bool_decide_reflect (x = name)) as [E|E];
        [first [rewrite E | subst x]; repeat match goal with |- context [changing (T ?c) (T ?n)] =>
           let v := eval vm_compute in (changing (T c) (T n)) in change (changing (T c) (T n)) with v end|]
  end.

Section commands_ask.
Context {files : Disk}.
Context `{SmtpLib} `{PasswordCrypto} `{AEAD} `{QRLib} `{RegexpLib} `{DohLib} `{DmarcLib} `{KeyGenLib} `{HttpLib} `{AddressLib}.
Context `{YamlLib} `{WireLib} `{OIDCLib} `{UrlLib} `{BodyLib} `{EnvelopeLib} `{CtlLib}.
Context (sv : ServerConfig) (now : surroundings) (client : Client) (args : list text) (json : bool).
Abbreviation asks_only mc := (asks (allowed sv now client args mc) anything).

Lemma asks_cmdStatus mc : asks_only mc (cmdStatus json client).
Proof. walk. fixed_page "/api/v1/status"%string. Qed.

Lemma asks_domains_list mc : asks_only mc (domains_list json client).
Proof. walk. fixed_page "/api/v1/domains"%string. Qed.
Lemma asks_domains_add rest : asks_only true (domains_add json client rest).
Proof. walk. fixed_page "/api/v1/domains"%string. Qed.
Lemma asks_domains_rm rest : (forall x, x ∈ rest -> x ∈ args) -> asks_only true (domains_rm client rest).
Proof. intros Ha. walk. object_page "/api/v1/domains/{id}"%string. Qed.
Lemma asks_domains_test rest : (forall x, x ∈ rest -> x ∈ args) -> asks_only true (domains_test json client rest).
Proof. intros Ha. walk. object_page "/api/v1/domains/{id}/test"%string. Qed.
Lemma asks_domains_recipients rest : (forall x, x ∈ rest -> x ∈ args) -> asks_only true (domains_recipients json client rest).
Proof. intros Ha. walk; object_page "/api/v1/domains/{id}/recipients"%string. Qed.

Lemma asks_queue_list mc rest : asks_only mc (queue_list json client rest).
Proof. walk. fixed_page "/api/v1/queue"%string. Qed.
Lemma asks_queue_show mc rest : (forall x, x ∈ rest -> x ∈ args) -> asks_only mc (queue_show json client rest).
Proof. intros Ha. walk. object_page "/api/v1/queue/{id}"%string. Qed.
Lemma asks_queue_retry rest : (forall x, x ∈ rest -> x ∈ args) -> asks_only true (queue_retry client rest).
Proof. intros Ha. walk. object_page "/api/v1/queue/{id}/retry"%string. Qed.
Lemma asks_queue_rm rest : (forall x, x ∈ rest -> x ∈ args) -> asks_only true (queue_rm client rest).
Proof. intros Ha. walk. object_page "/api/v1/queue/{id}"%string. Qed.
Lemma asks_queue_release rest : (forall x, x ∈ rest -> x ∈ args) -> asks_only true (queue_release client rest).
Proof. intros Ha. walk. object_page "/api/v1/queue/{id}/release"%string. Qed.

Lemma asks_cmdEvents mc rest : asks_only mc (cmdEvents json client rest).
Proof. walk. fixed_page "/api/v1/events"%string. Qed.
Lemma asks_cmdFilters mc rest : asks_only mc (cmdFilters json client rest).
Proof. walk. fixed_page "/api/v1/filters"%string. Qed.

Lemma asks_webhooks_list mc : asks_only mc (webhooks_list json client).
Proof. walk; fixed_page "/api/v1/webhooks"%string. Qed.
Lemma asks_webhooks_test rest : (forall x, x ∈ rest -> x ∈ args) -> asks_only true (webhooks_test json client rest).
Proof. intros Ha. walk. object_page "/api/v1/webhooks/{id}/test"%string. Qed.
Lemma asks_webhooks_deliveries mc rest : asks_only mc (webhooks_deliveries json client rest).
Proof. walk; fixed_page "/api/v1/webhooks/deliveries"%string. Qed.

Lemma asks_cmdCluster mc : asks_only mc (cmdCluster json client).
Proof. walk; fixed_page "/api/v1/cluster"%string. Qed.
Lemma asks_config_export mc rest : asks_only mc (config_export client rest).
Proof. walk; fixed_page "/api/v1/config"%string. Qed.
Lemma asks_config_import rest : asks_only true (config_import json client rest).
Proof. walk; fixed_page "/api/v1/config"%string. Qed.

Lemma asks_drain_wait ticks res : asks_only true (drain_wait client ticks res).
Proof. revert res. induction ticks as [|ticks IH]; intros res; cbn [drain_wait]; [done|]. walk; [fixed_page "/api/v1/maintenance/drain"%string|apply IH]. Qed.
Lemma asks_cmdDrain ticks rest : asks_only true (cmdDrain json client ticks rest).
Proof. walk; first [apply asks_drain_wait | fixed_page "/api/v1/maintenance/drain"%string]. Qed.

(** The first argument of a command is its subcommand, and the others are those of the subcommand. *)
Lemma split_rest l fallback x : x ∈ (split l fallback).2 -> x ∈ l.
Proof. destruct l; cbn; [by intros ?%not_elem_of_nil|]. by right. Qed.

Lemma asks_cmdDomains rest : (forall x, x ∈ rest -> x ∈ args) -> asks_only (changing (T "domains") (split rest (T "list")).1) (cmdDomains json client rest).
Proof.
  intros Ha. pose proof (split_rest rest (T "list")) as Hs. unfold cmdDomains. destruct (split rest (T "list")) as [sub r]. cbn [fst snd] in *.
  subcommand; [apply asks_domains_list|apply asks_domains_add|apply asks_domains_rm|apply asks_domains_test|apply asks_domains_recipients|done]; auto.
Qed.

Lemma asks_cmdQueue rest : (forall x, x ∈ rest -> x ∈ args) -> asks_only (changing (T "queue") (split rest (T "list")).1) (cmdQueue json client rest).
Proof.
  intros Ha. pose proof (split_rest rest (T "list")) as Hs. unfold cmdQueue. destruct (split rest (T "list")) as [sub r]. cbn [fst snd] in *.
  subcommand; [apply asks_queue_list|apply asks_queue_show|apply asks_queue_retry|apply asks_queue_rm|apply asks_queue_release|done]; auto.
Qed.

Lemma asks_cmdWebhooks rest : (forall x, x ∈ rest -> x ∈ args) -> asks_only (changing (T "webhooks") (split rest (T "list")).1) (cmdWebhooks json client rest).
Proof.
  intros Ha. pose proof (split_rest rest (T "list")) as Hs. unfold cmdWebhooks. destruct (split rest (T "list")) as [sub r]. cbn [fst snd] in *.
  subcommand; [apply asks_webhooks_list|apply asks_webhooks_test|apply asks_webhooks_deliveries|done]; auto.
Qed.

Lemma asks_cmdTokens rest : (forall x, x ∈ rest -> x ∈ args) -> asks_only (changing (T "tokens") (split rest (T "list")).1) (cmdTokens json client rest).
Proof.
  intros Ha. pose proof (split_rest rest (T "list")) as Hs. unfold cmdTokens. destruct (split rest (T "list")) as [sub r]. cbn [fst snd] in *. subcommand.
  - walk. fixed_page "/api/v1/tokens"%string.
  - assert (Hr : forall x, x ∈ r -> x ∈ args) by auto. clear Hs. walk. object_page "/api/v1/tokens/{id}"%string.
  - done.
Qed.

Lemma asks_cmdConfig rest fallback : asks_only (changing (T "config") (split rest fallback).1) (cmdConfig json client rest).
Proof.
  unfold cmdConfig. destruct rest as [|sub r]; [done|]. cbn [split fst]. subcommand; [apply asks_config_export|apply asks_config_import|done].
Qed.

Lemma asks_dispatch ticks command rest :
  (forall x, x ∈ rest -> x ∈ args) ->
  asks_only (changing command (split rest (T "list")).1) (dispatch_ ticks json client command rest).
Proof.
  intros Ha. unfold dispatch_. subcommand; first [apply asks_cmdStatus|apply asks_cmdDomains, Ha|apply asks_cmdQueue, Ha|apply asks_cmdEvents|apply asks_cmdFilters
    |apply asks_cmdWebhooks, Ha|apply asks_cmdTokens, Ha|apply asks_cmdCluster|apply asks_cmdConfig|idtac].
  - change (changing (T "drain") _) with (true || true). apply asks_cmdDrain.
  - done.
Qed.
End commands_ask.

(** ** The whole run *)

(** A client is what settings with an address and a token say. *)
Definition settings_client `{AddressLib} (s : Settings) (c : Client) : Prop :=
  base c = trim_right (fun c => bool_decide (c = "/"%char)) (URL s) /\ token c = Token s /\ insecure c = Insecure s /\ Token s <> [] /\
  exists scheme host, url_Parse (URL s) = Some (scheme, host) /\ host <> [] /\ scheme ∈ map T ["http"; "https"]%string.

Section asks_run.
Context (settings_file : result text).
Context `{SmtpLib} `{PasswordCrypto} `{AEAD} `{QRLib} `{RegexpLib} `{DohLib} `{DmarcLib} `{KeyGenLib} `{HttpLib} `{AddressLib}.
Context `{YamlLib} `{WireLib} `{OIDCLib} `{UrlLib} `{BodyLib} `{EnvelopeLib} `{CtlLib}.
Context (os : Process) (version : text) (ticks : nat) (error_text : cli_error -> text) (sv : ServerConfig) (now : surroundings).

(** What the settings file says, whenever it is read. *)
#[local] Instance file_says : Disk := fun name r => cli_ConfigPath os = Ok name -> r = settings_file.

Lemma asks_NewClient P s : asks P (fun r => forall c, r = inr c -> settings_client s c) (NewClient s).
Proof.
  unfold NewClient. case_bool_decide; [done|]. destruct (url_Parse (URL s)) as [[scheme host]|] eqn:Eu; [|done].
  case_bool_decide; [done|]. destruct (negb _ && negb _) eqn:Es; [done|].
  destruct (bool_decide_reflect (Token s = [])); [done|].
  assert (Hs : scheme ∈ map T ["http"; "https"]%string).
  { apply andb_false_iff in Es as [Es|Es]; apply negb_false_iff, bool_decide_eq_true in Es; subst; set_solver. }
  destruct (Insecure s) eqn:Ei; cbn [asks]; intros c [= <-]; split_and!; cbn; eauto 6.
Qed.

(** The settings of the file: none when there is no file, no answer when it does not parse. *)
Definition file_settings : option Settings :=
  match cli_ConfigPath os, settings_file with
  | Ok _, Ok raw => match yaml_settings raw with Ok s => Some s | Err _ => None end
  | _, _ => Some {| URL := []; Token := []; Insecure := false |}
  end.

(** The first that is not empty. *)
Definition first_given (l : list text) : text := default [] (List.find (fun t => negb (bool_decide (t = []))) l).

(** Settings come from the flags, else the environment, else the file; certificates go
    unverified when the flags or the file say so. *)
Definition settings_given (flags file s : Settings) : Prop :=
  URL s = first_given [URL flags; Getenv os "XERONMX_URL"%string; URL file] /\
  Token s = first_given [Token flags; Getenv os "XERONMX_TOKEN"%string; Token file] /\
  Insecure s = Insecure flags || Insecure file.

Lemma override_given flags file : settings_given flags file (override os flags file).
Proof.
  unfold settings_given, override, first_given. cbn. split_and!; repeat case_bool_decide; cbn; congruence.
Qed.

Lemma asks_LoadSettings P flags :
  asks P (fun r => forall s, r = inr s -> exists file, file_settings = Some file /\ settings_given flags file s) (LoadSettings os flags).
Proof.
  assert (Hi : forall file, file_settings = Some file ->
    asks P (fun r : cli_error + Settings => forall s, r = inr s -> exists file, file_settings = Some file /\ settings_given flags file s)
      (Return (inr (override os flags file)))) by (intros file Hf s [= <-]; eauto using override_given).
  unfold LoadSettings, warnIfReadable, file_settings in *. destruct (cli_ConfigPath os) as [path|] eqn:Ep; [|by apply Hi].
  intros raw' Hr. rewrite (Hr Ep). destruct settings_file as [raw|]; [|by apply Hi].
  destruct (yaml_settings raw); [|done]. destruct (windows os); [by apply Hi|]. intros [m|]; [|by apply Hi]. destruct (negb _); by apply Hi.
Qed.

Lemma asks_SaveSettings P s : asks P anything (SaveSettings os s).
Proof.
  unfold SaveSettings. destruct (cli_ConfigPath os); [|done]. intros [e|]; [done|]. by destruct (yaml_of_settings s).
Qed.

(** What flags say of the server. *)
Definition of_flags (fs : FlagSet) : Settings :=
  {| URL := flag_string "url"%string fs; Token := flag_string "token"%string fs; Insecure := flag_bool "insecure"%string fs |}.

Definition no_flags : FlagSet :=
  [(T "url", VString []); (T "token", VString []); (T "insecure", VBool false); (T "json", VBool false)].

(** The settings of a run of a command: a login takes those of its own flags, which start as the
    flags before the command; the others those of the flags, the environment and the file. *)
Definition own_settings (fs : FlagSet) (command : text) (rest : list text) (s : Settings) : Prop :=
  if bool_decide (command = T "login") then
    exists fs' rest', parse_flags (length rest) [(T "url", VString (URL (of_flags fs))); (T "token", VString (Token (of_flags fs)));
        (T "insecure", VBool (Insecure (of_flags fs)))] rest = inr (fs', rest') /\ s = of_flags fs'
  else exists file, file_settings = Some file /\ settings_given (of_flags fs) file s.

(** What a run may ask: what the command of its arguments may, of the server of its settings. *)
Definition asked_by (args : list text) (c : call) : Prop :=
  exists fs command rest s client, parse_flags (length args) no_flags args = inr (fs, command :: rest) /\
    own_settings fs command rest s /\ settings_client s client /\
    allowed sv now client rest (changing command (split rest (T "list")).1) c.

(** An identifier goes into the path as it is given: what follows a question mark in it is a query of the request, so a
    domain is deleted by force without the flag for it. *)
Lemma identifier_is_not_escaped client :
  exists k, domains_rm client [T "5?force=true"] =
    Http (Call (base client) (token client) (insecure client) "DELETE"%string (T "/api/v1/domains/5?force=true") NoBody) k.
Proof. by eexists. Qed.

(** A client of settings, in the rest of a run. *)
Lemma asks_with_client {A} P (Q : A -> Prop) s (f : cli_error + Client -> prog A) :
  (forall e, asks P Q (f (inl e))) -> (forall c, settings_client s c -> asks P Q (f (inr c))) -> asks P Q (pbind (NewClient s) f).
Proof. intros He Hc. apply asks_bind. eapply asks_mono; [|apply asks_NewClient]. intros [e|c] Hr; [apply He|by apply Hc, Hr]. Qed.

Section command.
Context (args : list text) (fs : FlagSet) (command : text) (rest : list text).
Context (Hparsed : parse_flags (length args) no_flags args = inr (fs, command :: rest)).

Lemma asks_of_client s client mc {A} (Q : A -> Prop) p :
  own_settings fs command rest s -> settings_client s client -> mc = changing command (split rest (T "list")).1 ->
  asks (allowed sv now client rest mc) Q p -> asks (asked_by args) Q p.
Proof. intros Hs Hc -> Hp. eapply asks_weaken; [|exact Hp]. intros c Ha. by exists fs, command, rest, s, client. Qed.

Lemma asks_cmdLogin : command = T "login" -> asks (asked_by args) anything (cmdLogin os rest (of_flags fs)).
Proof.
  intros Hl. unfold cmdLogin. apply asks_bind. eapply asks_mono; [|apply asks_parsed]. intros [e|[fs' rest']] Hp; [done|]. cbv zeta.
  destruct (_ || _); [done|]. apply asks_with_client; [done|]. intros c Hc. apply asks_bind.
  eapply asks_of_client; [|exact Hc|reflexivity|].
  { unfold own_settings. rewrite Hl. cbn. eexists fs', rest'. split; [by apply Hp|reflexivity]. }
  apply asks_do; [fixed_page "/api/v1/auth/me"%string|].
  intros [e|me]; [done|]. apply asks_try. eapply asks_mono; [|apply asks_SaveSettings]. intros [e|path] _; [done|].
  destruct (match me_ViaToken me with Some _ => _ | None => _ end). cbn [asks]. by case_match.
Qed.

Lemma asks_loaded {B} (Q : B -> Prop) (f : cli_error + Settings -> prog B) :
  command <> T "login" -> (forall e, asks (asked_by args) Q (f (inl e))) ->
  (forall s, own_settings fs command rest s -> asks (asked_by args) Q (f (inr s))) ->
  asks (asked_by args) Q (pbind (LoadSettings os (of_flags fs)) f).
Proof.
  intros Hl He Hs. apply asks_bind. eapply asks_mono; [|apply asks_LoadSettings]. intros [e|s] Hr; [apply He|]. apply Hs.
  unfold own_settings. rewrite bool_decide_eq_false_2 by done. by apply Hr.
Qed.

Lemma asks_cmdVersion : command = T "version" -> asks (asked_by args) anything (cmdVersion os version error_text (of_flags fs)).
Proof.
  intros Hv. unfold cmdVersion. cbn [asks]. apply asks_loaded; [by rewrite Hv|done|]. intros s Hs.
  destruct (bool_decide _); [done|]. apply asks_with_client; [done|]. intros c Hc. apply asks_bind.
  eapply asks_of_client; [exact Hs|exact Hc|reflexivity|].
  apply asks_do; [fixed_page "/api/v1/setup"%string|]. by intros [e|v].
Qed.
End command.

(** C24: whatever its arguments, the environment, the settings file and the answers, a run of the client asks only what its
    command may: each request goes to the http or https server of its settings - the flags, else the environment, else the file,
    and for a login the flags alone -, with the (non-empty) token of these settings, for the path of a page that the server's
    route table lists under that method, with an argument of the command, just as it was given, in the place of the identifier:
    one that a URL can hold as it is reaches a handler, one with a slash or a question mark in it may ask for another page. Only
    the commands meant to change something use another method than GET. *)
Theorem client_asks_known_pages args :
  asks (asked_by args) anything (run os version ticks error_text args).
Proof.
  unfold run. apply asks_bind. eapply asks_mono; [|apply asks_parsed]. intros [e|[fs rest]] Hr; [done|].
  specialize (Hr _ _ eq_refl). cbv zeta. change {| URL := _; Token := _; Insecure := _ |} with (of_flags fs).
  destruct rest as [|command rest]; [done|].
  destruct (bool_decide_reflect (command = T "login")) as [->|Hl]; [by eapply asks_cmdLogin|].
  destruct (bool_decide_reflect (command = T "version")) as [->|_]; [by eapply asks_cmdVersion|].
  destruct (bool_decide (command ∈ _)); [done|]. unfold orFail.
  eapply asks_loaded; [exact Hl|done|]. intros s Hs. apply asks_with_client; [done|]. intros c Hc.
  eapply asks_of_client; [exact Hr|exact Hs|exact Hc|reflexivity|]. by apply asks_dispatch.
Qed.

End asks_run.

(** ** Waiting for an empty queue *)

(** What is answered in a run, and what the run ends with, in every case satisfy [Q]. *)
Fixpoint follows {A} (Q : list (call * (error + Z * text)) -> A -> Prop) log (p : prog A) : Prop :=
  match p with
  | Return a => Q log a
  | Http c k => forall r, follows Q (log ++ [(c, r)]) (k r)
  | Print_ _ k => follows Q log k
  | ReadFile _ k => forall r, follows Q log (k r)
  | WriteFile _ _ _ k => forall r, follows Q log (k r)
  | MkdirAll_ _ _ k => forall r, follows Q log (k r)
  | Mode _ k => forall r, follows Q log (k r)
  | Clock k => forall t, follows Q log (k t)
  end.

Lemma follows_bind {A B} Q log (p : prog A) (f : A -> prog B) : follows (fun log a => follows Q log (f a)) log p -> follows Q log (pbind p f).
Proof. revert log. induction p; cbn; intros log; try naive_solver. Qed.

Lemma follows_mono {A} (Q Q' : _ -> A -> Prop) log p : (forall log a, Q log a -> Q' log a) -> follows Q log p -> follows Q' log p.
Proof. intros HQ. revert log. induction p; cbn; intros log; try naive_solver. Qed.

Section drained.
Context `{EnvelopeLib} `{CtlLib}.
Context (client : Client).
Abbreviation to_drain m b := (Call (base client) (token client) (insecure client) m (T "/api/v1/maintenance/drain") b).

(** The last answer read by a run: a drain that is off, or has no message left. *)
Definition drained (log : list (call * (error + Z * text))) : Prop :=
  exists c status raw before res, last log = Some (c, inr (status, raw)) /\ is_success status = true /\
    json_drain before (limited maxResponseBytes raw) = Ok res /\ (dr_Draining res = false \/ dr_Pending res = 0).

(** An answer asked for with [do]. *)
Lemma follows_do {A B} Q log m path b (decode : text -> result A) (f : cli_error + A -> prog B) :
  (forall r e, follows Q (log ++ [(Call (base client) (token client) (insecure client) m path b, r)]) (f (inl e))) ->
  (forall status raw v, is_success status = true -> decode (limited maxResponseBytes raw) = Ok v ->
     follows Q (log ++ [(Call (base client) (token client) (insecure client) m path b, inr (status, raw))]) (f (inr v))) ->
  follows Q log (pbind (do client m path b decode) f).
Proof.
  intros Hl Hr. cbn. intros [e|[status raw]]; [apply Hl|]. destruct (is_success status) eqn:Es; [|apply Hl].
  destruct (decode _) eqn:Ed; [by apply Hr|apply Hl].
Qed.

Definition done_drained (log : list (call * (error + Z * text))) (r : option cli_error) : Prop := r = None -> drained log.

Lemma drained_last log c status raw before res :
  is_success status = true -> json_drain before (limited maxResponseBytes raw) = Ok res -> dr_Draining res = false \/ dr_Pending res = 0 ->
  drained (log ++ [(c, inr (status, raw))]).
Proof. intros. exists c, status, raw, before, res. by rewrite last_snoc. Qed.

(** It is answered [ticks] times at most. *)
Lemma follows_drain_wait ticks res log :
  follows (fun log' r => log `prefix_of` log' /\ (length log' <= ticks + length log)%nat /\ done_drained log' r) log (drain_wait client ticks res).
Proof.
  revert res log. induction ticks as [|ticks IH]; intros res log; cbn [drain_wait]; [done|].
  apply follows_do.
  - intros r e. split_and!; [by apply prefix_app_r|rewrite length_app; cbn; lia|done].
  - intros status raw v Hs Hd. destruct (dr_Pending v =? 0) eqn:E.
    + cbn. split_and!; [by apply prefix_app_r|rewrite length_app; cbn; lia|]. intros _. eapply drained_last; [done..|right; lia].
    + cbn [follows]. eapply follows_mono; [|apply IH]. cbn. intros log' r (Hp & Hn & Hr). rewrite length_app in Hn. cbn in Hn.
      split_and!; [by eapply prefix_app_l|lia|done].
Qed.

(** Puts what a closed use of [f] evaluates to in its place. *)
Ltac evaluated f :=
  match goal with |- context [f ?a ?b] => let v := eval vm_compute in (f a b) in change (f a b) with v end.

(** [xeronmxctl drain --wait] first asks for the drain mode, and it ends without an error only after a successful answer
    of the server that says that the drain is off or that no message is left in the queue, whatever the server answers
    meanwhile; it asks at most once a tick. *)
Theorem drain_wait_means_empty ticks :
  follows (fun log r => [to_drain (T "POST") (JSONBody (JObj [(T "enabled", JBool true)]))] `prefix_of` map fst log /\
                        (length log <= ticks + 1)%nat /\ (r = None -> drained log))
    [] (cmdDrain false client ticks [T "--wait"]).
Proof.
  unfold cmdDrain. evaluated (Parse (UsageOf "drain"%string)). apply follows_bind. cbn [follows]. cbv zeta.
  repeat evaluated flag_bool. cbn [negb orb]. apply follows_do.
  - intros r e. cbn. split_and!; [done|lia|done].
  - intros status raw v Hs Hd. unfold shown. destruct (dr_Draining v) eqn:E; cbn [follows].
    + eapply follows_mono; [|apply follows_drain_wait]. cbn. intros log r ([log' ->] & Hn & Hr). rewrite length_app in *. cbn in *.
      split_and!; [by eexists|lia|done].
    + cbn. split_and!; [done|lia|]. intros _. eapply (drained_last []); [done..|by left].
Qed.
End drained.
