(* ===== verification/OutboundFacts.v ===== *)
(** * Transactions: what a peer has taken responsibility for

    [peer_accepted] reads the log of a session the way the server at the other end
    does; it is the specification [transmit] is judged by. *)

From S2P Require Import Arc.
From S2P Require Import Prelude GoStrings Times Net Errors StoreTypes StoreQueue StoreDomains.
From S2P Require Import Filter Routes Spam World Outbound.
From Stdlib Require Import QArith.
Open Scope Z_scope.

(** ** The server's view *)

Record txn := Txn {
  t_from : option text;
  t_rcpts : list text;
  t_data : option text;
  t_done : list (text * list text * text)      (* sender, recipients, content *)
}.

Definition txn_start : txn := Txn None [] None [].

(** One command and the server's answer to it. *)
Definition txn_step (t : txn) (x : cmd * option error) : txn :=
  match x with
  | (CMail f, None) => Txn (Some f) [] None (t_done t)
  | (CRcpt r, None) => Txn (t_from t) (t_rcpts t ++ [r]) (t_data t) (t_done t)
  | (CData, None) => Txn (t_from t) (t_rcpts t) (Some []) (t_done t)
  | (CWrite b, None) => Txn (t_from t) (t_rcpts t) ((fun d => d ++ b) <$> t_data t) (t_done t)
  | (CClose, None) =>
      match t_from t, t_data t with
      | Some f, Some d => Txn None [] None (t_done t ++ [(f, t_rcpts t, d)])
      | _, _ => t
      end
  | (CReset, None) => Txn None [] None (t_done t)
  | _ => t
  end.

Definition txn_run (log : list (cmd * option error)) : txn := fold_left txn_step log txn_start.

(** The messages the server acknowledged at the end of their data. *)
Definition peer_accepted (log : list (cmd * option error)) : list (text * list text * text) := t_done (txn_run log).

(** The messages all sessions together handed over. *)
Definition handed_over (sent : list session_log) : list (text * list text * text) :=
  concat (map (fun s => peer_accepted (sl_log s)) sent).

Lemma txn_run_app l k : txn_run (l ++ k) = fold_left txn_step k (txn_run l).
Proof. apply fold_left_app. Qed.

(** ** Steps of an open session *)

Definition txn_of (ses : session_log) : txn := txn_run (sl_log ses).

Lemma txn_log_reply c r ses : txn_of (log_reply c r ses) = txn_step (txn_of ses) (c, r).
Proof. apply (txn_run_app (sl_log ses) [(c, r)]). Qed.

(** Two sessions with the same endpoint. *)
Definition same_endpoint (a b : session_log) : Prop :=
  (sl_host a, sl_port a, sl_tls a, sl_hello a, sl_public a) = (sl_host b, sl_port b, sl_tls b, sl_hello b, sl_public b).

(** The open session [ses] went on as [ses'], and nothing else changed. *)
Definition session_step (rest : list session_log) (ses : session_log) (s : state)
  (Q : session_log -> Prop) (s' : state) : Prop :=
  exists ses', s' = set_s_sent (ses' :: rest) s /\ same_endpoint ses ses' /\ Q ses'.

Lemma set_s_sent_twice a b s : set_s_sent a (set_s_sent b s) = set_s_sent a s.
Proof. done. Qed.

Section transmit.
Context (md : mode) (rest : list session_log).

(** A command, by its effect on the server's view. *)
Lemma wp_command_txn c ses s Q :
  s_sent s = ses :: rest ->
  (forall r ses', same_endpoint ses ses' -> txn_of ses' = txn_step (txn_of ses) (c, r) ->
     Q r (set_s_sent (ses' :: rest) s)) ->
  wp md (command c) Q s.
Proof. intros Es HQ. eapply wp_command; [done|]. intros r. apply HQ; [done|]. apply txn_log_reply. Qed.

(** The recipients of the transaction are the accepted ones, and every recipient ends in
    exactly one class. *)
Lemma wp_rcpt_loop rcpts res ses s Q :
  s_sent s = ses :: rest ->
  (forall r ses', same_endpoint ses ses' ->
     (match r with
      | Ok res' => exists acc def rej,
          accepted res' = accepted res ++ acc /\ deferred res' = deferred res ++ def /\
          rejected res' = rejected res ++ rej /\
          rcpts ≡ₚ acc ++ addresses def ++ addresses rej /\
          Forall (fun f => permanent (rf_err f) = true) rej /\
          Forall (fun f => permanent (rf_err f) = false) def /\
          txn_of ses' = Txn (t_from (txn_of ses)) (t_rcpts (txn_of ses) ++ acc) (t_data (txn_of ses)) (t_done (txn_of ses))
      | Err e => permanent e = false /\ t_done (txn_of ses') = t_done (txn_of ses)
      end) -> Q r (set_s_sent (ses' :: rest) s)) ->
  wp md (rcpt_loop rcpts res) Q s.
Proof.
  revert res ses s. induction rcpts as [|rcpt rcpts IH]; intros res ses s Es HQ; cbn [rcpt_loop].
  - apply wp_ret. replace s with (set_s_sent (ses :: rest) s) by (destruct s; cbn in *; by subst).
    apply HQ; [done|]. exists [], [], []. rewrite !app_nil_r. by destruct (txn_of ses).
  - apply wp_bind. eapply wp_command_txn; [done|]. intros r ses1 Hep1 Htx.
    destruct r as [err|].
    + destruct (permanent err) eqn:Ep; [|destruct (as_smtp err) as [reply|] eqn:Er].
      * eapply IH; [done|]. intros r ses2 Hep2 Hr. rewrite set_s_sent_twice.
        apply HQ; [unfold same_endpoint in *; congruence|]. destruct r as [res'|e].
        -- destruct Hr as (acc & def & rej & Ha & Hd & Hj & Hperm & Hrej & Hdef & Ht). cbn in Ha, Hd, Hj.
           exists acc, def, (RF rcpt (EWrap ("RCPT TO "%string ++ rcpt) err) :: rej).
           rewrite Ht, Htx. cbn. split_and!; try done.
           ++ by rewrite Hj, <- app_assoc.
           ++ rewrite Hperm. cbn. by rewrite !app_assoc, Permutation_middle.
           ++ by constructor.
        -- destruct Hr as [? Hdone]. rewrite Htx in Hdone. done.
      * eapply IH; [done|]. intros r ses2 Hep2 Hr. rewrite set_s_sent_twice.
        apply HQ; [unfold same_endpoint in *; congruence|]. destruct r as [res'|e].
        -- destruct Hr as (acc & def & rej & Ha & Hd & Hj & Hperm & Hrej & Hdef & Ht). cbn in Ha, Hd, Hj.
           exists acc, (RF rcpt (EWrap ("RCPT TO "%string ++ rcpt) err) :: def), rej.
           rewrite Ht, Htx. cbn. split_and!; try done.
           ++ by rewrite Hd, <- app_assoc.
           ++ rewrite Hperm. by rewrite Permutation_middle.
           ++ by constructor.
        -- destruct Hr as [? Hdone]. rewrite Htx in Hdone. done.
      * apply wp_ret. apply HQ; [done|]. split; [done|]. by rewrite Htx.
    + eapply IH; [done|]. intros r ses2 Hep2 Hr. rewrite set_s_sent_twice.
      apply HQ; [unfold same_endpoint in *; congruence|]. destruct r as [res'|e].
      * destruct Hr as (acc & def & rej & Ha & Hd & Hj & Hperm & Hrej & Hdef & Ht). cbn in Ha, Hd, Hj.
        exists (rcpt :: acc), def, rej. rewrite Ht, Htx. cbn. rewrite Ha, <- !app_assoc. cbn.
        split_and!; try done. by rewrite Hperm.
      * destruct Hr as [? Hdone]. rewrite Htx in Hdone. done.
Qed.

(** Copying the body: either all of it is written, or something failed. *)
Lemma wp_copy_body body ses s Q d0 :
  s_sent s = ses :: rest -> t_data (txn_of ses) = Some d0 ->
  (forall r ses', same_endpoint ses ses' -> t_done (txn_of ses') = t_done (txn_of ses) ->
     (r = None -> exists data rem, ReadAll body = (data, None, rem) /\
        txn_of ses' = Txn (t_from (txn_of ses)) (t_rcpts (txn_of ses)) (Some (d0 ++ data)) (t_done (txn_of ses))) ->
     Q r (set_s_sent (ses' :: rest) s)) ->
  wp md (copy_body body) Q s.
Proof.
  revert ses s d0. induction body as [|[bytes|e] body IH]; intros ses s d0 Es Hd HQ; cbn [copy_body].
  - apply wp_ret. replace s with (set_s_sent (ses :: rest) s) by (destruct s; cbn in *; by subst).
    apply HQ; [done..|]. intros _. exists [], []. rewrite app_nil_r, <- Hd. by destruct (txn_of ses).
  - apply wp_bind. eapply wp_command_txn; [done|]. intros [e|] ses1 Hep1 Htx.
    + apply wp_ret, HQ; [done| |done]. by rewrite Htx.
    + cbn in Htx. rewrite Hd in Htx. eapply (IH _ _ (d0 ++ bytes)); [done|by rewrite Htx|].
      intros r ses2 Hep2 Hdone Hr. rewrite set_s_sent_twice.
      apply HQ; [unfold same_endpoint in *; congruence|by rewrite Hdone, Htx|].
      intros Hn. destruct (Hr Hn) as (data & rem & Hread & Ht). exists (bytes ++ data), rem.
      split; [cbn; by rewrite Hread|]. rewrite Ht, Htx. cbn. by rewrite app_assoc.
  - apply wp_ret. replace s with (set_s_sent (ses :: rest) s) by (destruct s; cbn in *; by subst).
    by apply HQ.
Qed.

(** Every recipient is in one class; refusals are permanent, deferrals are not. *)
Definition partition (to : list text) (res : recipients) : Prop :=
  to ≡ₚ accepted res ++ addresses (deferred res) ++ addresses (rejected res) /\
  Forall (fun f => permanent (rf_err f) = true) (rejected res) /\
  Forall (fun f => permanent (rf_err f) = false) (deferred res).

Lemma wp_send_data body extra ses s Q from :
  s_sent s = ses :: rest -> t_from (txn_of ses) = Some from ->
  (forall r ses', same_endpoint ses ses' ->
     (r = None -> exists data rem, ReadAll body = (data, None, rem) /\
        t_done (txn_of ses') = t_done (txn_of ses) ++ [(from, t_rcpts (txn_of ses), extra ++ data)]) ->
     Q r (set_s_sent (ses' :: rest) s)) ->
  wp md (send_data body extra) Q s.
Proof.
  intros Es Hf HQ. unfold send_data. apply wp_bind. eapply wp_command_txn; [done|].
  intros [e|] ses1 Hep1 Ht1; [by apply wp_ret, HQ|]. cbn in Ht1.
  apply wp_bind.
  (* the extra headers *)
  assert (Hwrite : forall Q1, (forall r ses', same_endpoint ses ses' ->
      (r = None -> txn_of ses' = Txn (Some from) (t_rcpts (txn_of ses)) (Some extra) (t_done (txn_of ses))) ->
      Q1 r (set_s_sent (ses' :: rest) s)) -> wp md (write_headers extra) Q1 (set_s_sent (ses1 :: rest) s)).
  { intros Q1 HQ1. unfold write_headers. case_bool_decide as Hx.
    - apply wp_ret, HQ1; [done|]. intros _. by rewrite Ht1, Hf, Hx.
    - eapply wp_command_txn; [done|]. intros r ses2 Hep2 Ht2. rewrite set_s_sent_twice.
      apply HQ1; [unfold same_endpoint in *; congruence|]. intros ->. rewrite Ht2, Ht1. cbn. by rewrite Hf. }
  apply Hwrite. clear Hwrite. intros [e|] ses2 Hep2 Ht2.
  { apply wp_bind. eapply wp_command_txn; [done|]. intros r ses3 Hep3 _. apply wp_ret.
    rewrite set_s_sent_twice. apply HQ; [unfold same_endpoint in *; congruence|done]. }
  specialize (Ht2 eq_refl). apply wp_bind. eapply wp_copy_body; [done|by rewrite Ht2|].
  intros [e|] ses3 Hep3 Hd3 Ht3.
  { apply wp_bind. eapply wp_command_txn; [done|]. intros r ses4 Hep4 _. apply wp_ret.
    rewrite !set_s_sent_twice. apply HQ; [unfold same_endpoint in *; congruence|done]. }
  destruct (Ht3 eq_refl) as (data & rem & Hread & Ht3'). rewrite set_s_sent_twice.
  apply wp_bind. eapply wp_command_txn; [done|]. intros [e|] ses4 Hep4 Ht4.
  { apply wp_ret. rewrite set_s_sent_twice. apply HQ; [unfold same_endpoint in *; congruence|done]. }
  apply wp_bind. eapply wp_command_txn; [done|]. intros r ses5 Hep5 Ht5. apply wp_ret.
  rewrite !set_s_sent_twice. apply HQ; [unfold same_endpoint in *; congruence|]. intros _.
  exists data, rem. split; [done|]. cbn in Ht5. rewrite Ht5, Ht4. cbn. rewrite Ht3'. cbn. by rewrite Ht2.
Qed.

(** A successful transaction partitions the recipients, and the server has acknowledged
    the whole message for exactly the accepted ones. *)
Lemma wp_transmit from to body extra ses s Q :
  s_sent s = ses :: rest ->
  (forall r ses', same_endpoint ses ses' ->
     (match r with
      | Ok res => partition to res /\
          if bool_decide (accepted res = []) then t_done (txn_of ses') = t_done (txn_of ses)
          else exists data rem, ReadAll body = (data, None, rem) /\
            t_done (txn_of ses') = t_done (txn_of ses) ++ [(from, accepted res, extra ++ data)]
      | Err _ => True
      end) -> Q r (set_s_sent (ses' :: rest) s)) ->
  wp md (transmit from to body extra) Q s.
Proof.
  intros Es HQ. unfold transmit. apply wp_bind. eapply wp_command_txn; [done|].
  intros [e|] ses1 Hep1 Ht1; [by apply wp_ret, HQ|]. cbn in Ht1.
  apply wp_bind. eapply wp_rcpt_loop; [done|]. intros [res|e] ses2 Hep2 H2.
  2: { apply wp_ret. rewrite set_s_sent_twice. apply HQ; [unfold same_endpoint in *; congruence|done]. }
  destruct H2 as (acc & def & rej & Ha & Hd & Hj & Hperm & Hrej & Hdef & Ht2). cbn in Ha, Hd, Hj.
  assert (Hpart : partition to res) by (unfold partition; by rewrite Ha, Hd, Hj).
  rewrite Ht1 in Ht2. cbn in Ht2. rewrite set_s_sent_twice. case_bool_decide as Hacc.
  - apply wp_bind. eapply wp_command_txn; [done|]. intros r ses3 Hep3 Ht3. apply wp_ret.
    rewrite set_s_sent_twice. apply HQ; [unfold same_endpoint in *; congruence|].
    split; [done|]. rewrite bool_decide_eq_true_2 by done. cbn in Ht3. by rewrite Ht3, Ht2.
  - apply wp_bind. eapply (wp_send_data _ _ _ _ _ from); [done|by rewrite Ht2|].
    intros r ses3 Hep3 H3. apply wp_ret. rewrite set_s_sent_twice.
    destruct r as [e|]; (apply HQ; [unfold same_endpoint in *; congruence|]); [done|].
    split; [done|]. rewrite bool_decide_eq_false_2 by done. destruct (H3 eq_refl) as (data & rem & Hread & Hdone).
    exists data, rem. split; [done|]. by rewrite Hdone, Ht2, Ha.
Qed.
End transmit.

(** ** Whole attempts *)

(** Three classes merged class by class. *)
Lemma merge_classes {A} (a d r a' d' r' : list A) :
  (a ++ d ++ r) ++ (a' ++ d' ++ r') ≡ₚ (a ++ a') ++ (d ++ d') ++ (r ++ r').
Proof.
  rewrite <- !app_assoc. apply Permutation_app_head.
  rewrite (Permutation_app_swap_app a' d). apply Permutation_app_head.
  rewrite (app_assoc a' d' r'), (app_assoc a' d' (r ++ r')). apply Permutation_app_swap_app.
Qed.

(** Sessions [new] were opened, and nothing else changed. *)
Definition goes (s s' : state) (new : list session_log) : Prop := s' = set_s_sent (new ++ s_sent s) s.

Lemma goes_refl s : goes s s [].
Proof. by destruct s. Qed.

Lemma goes_trans s1 s2 s3 a b : goes s1 s2 a -> goes s2 s3 b -> goes s1 s3 (b ++ a).
Proof. unfold goes. intros -> ->. cbn. by rewrite <- app_assoc. Qed.

Lemma handed_over_app a b : handed_over (a ++ b) = handed_over a ++ handed_over b.
Proof. unfold handed_over. by rewrite map_app, concat_app. Qed.

Section attempts.
Context `{SmtpLib} `{Resolver} `{Crypto}.
Context (md : mode) (cfg : QueueConfig) (outbound : OutboundConfig).
Context (hostname : text) (os_hostname : option text).
Context (directAddr : text -> text * Z).

(** Some session handed the whole of [content] over for [rcpt]. *)
Definition acknowledged (new : list session_log) (content : text -> Prop) (rcpt : text) : Prop :=
  exists from rcpts c, (from, rcpts, c) ∈ handed_over new /\ rcpt ∈ rcpts /\ content c.

Lemma acknowledged_app_l a b P rcpt : acknowledged a P rcpt -> acknowledged (a ++ b) P rcpt.
Proof.
  intros (f & rs & c & Hin & ?). exists f, rs, c. split; [|done].
  rewrite handed_over_app. apply elem_of_app. by left.
Qed.

Lemma acknowledged_app_r a b P rcpt : acknowledged b P rcpt -> acknowledged (a ++ b) P rcpt.
Proof.
  intros (f & rs & c & Hin & ?). exists f, rs, c. split; [|done].
  rewrite handed_over_app. apply elem_of_app. by right.
Qed.

Lemma acknowledged_mono new (P Q : text -> Prop) rcpt :
  (forall c, P c -> Q c) -> acknowledged new P rcpt -> acknowledged new Q rcpt.
Proof. intros HPQ (f & rs & c & ? & ? & ?). exists f, rs, c. auto. Qed.

(** What the recipients of one transaction of [extra ++ body] were given. *)
Definition whole (extra : text) (body : reader) (c : text) : Prop :=
  exists data rem, ReadAll body = (data, None, rem) /\ c = extra ++ data.

Definition settled (to : list text) (content : text -> Prop) (res : recipients) (new : list session_log) : Prop :=
  partition to res /\ Forall (acknowledged new content) (accepted res).

(** [transmit] on a session already open. *)
Lemma wp_transmit_open from to body extra ses rest s Q :
  s_sent s = ses :: rest ->
  (forall r ses', (match r with Ok res => settled to (whole extra body) res [ses'] | Err _ => True end) ->
     Q r (set_s_sent (ses' :: rest) s)) ->
  wp md (transmit from to body extra) Q s.
Proof.
  intros Es HQ. eapply wp_transmit; [done|]. intros [res|e] ses' Hep Hr; apply HQ; [|done].
  destruct Hr as [Hp Hd]. split; [done|]. apply Forall_forall. intros rcpt Hin.
  rewrite bool_decide_eq_false_2 in Hd by (intros E; rewrite E in Hin; set_solver).
  destruct Hd as (data & rem & Hread & Hd). exists from, (accepted res), (extra ++ data).
  split_and!; [|done|by exists data, rem].
  unfold handed_over, peer_accepted. cbn. rewrite app_nil_r.
  change (t_done (txn_run (sl_log ses'))) with (t_done (txn_of ses')). rewrite Hd.
  apply elem_of_app. right. apply list_elem_of_here.
Qed.

(** A connection and one transaction on it. *)
Lemma wp_dial_transmit host port tls hello public from to body extra s Q :
  (forall e, Q (Err e) s) ->
  (forall r ses', (match r with Ok res => settled to (whole extra body) res [ses'] | Err _ => True end) ->
     Q r (set_s_sent ([ses'] ++ s_sent s) s)) ->
  wp md (let* c := dial host port tls hello public in
      match c with Err e => ret (Err e) | Ok _ => transmit from to body extra end) Q s.
Proof.
  intros He HQ. apply wp_bind, wp_dial; [intros e; by apply wp_ret|].
  eapply wp_transmit_open; [done|]. intros r ses' Hr. rewrite set_s_sent_twice. by apply HQ.
Qed.

(** *** Through the relay *)

Lemma wp_relay_auth host username password ses rest s Q :
  s_sent s = ses :: rest ->
  (forall r ses', Q r (set_s_sent (ses' :: rest) s)) ->
  wp md (relay_auth host username password) Q s.
Proof.
  intros Es HQ. unfold relay_auth. case_bool_decide.
  - apply wp_ret. replace s with (set_s_sent (ses :: rest) s) by (destruct s; cbn in *; by subst). apply HQ.
  - apply wp_bind. eapply wp_command; [done|]. intros [e|]; [by apply wp_ret|].
    apply wp_bind. eapply wp_command; [done|]. intros r. apply wp_ret. rewrite set_s_sent_twice. apply HQ.
Qed.

Lemma wp_sendViaRelay m body override s Q :
  (forall r new, goes s (set_s_sent (new ++ s_sent s) s) new ->
     (match r with Ok res => settled (EnvelopeTo m) (whole (spamHeaders m) body) res new | Err _ => True end) ->
     Q r (set_s_sent (new ++ s_sent s) s)) ->
  wp md (sendViaRelay outbound hostname os_hostname m body override) Q s.
Proof.
  intros HQ. unfold sendViaRelay.
  assert (Hs : s = set_s_sent ([] ++ s_sent s) s) by (by destruct s).
  destruct (relay_target outbound override) as [[[[[host port] tls] user] pw]|e].
  2: { apply wp_ret. rewrite Hs. by apply HQ. }
  apply wp_bind, wp_dial.
  { intros e. apply wp_ret. rewrite Hs. by apply HQ. }
  apply wp_bind. eapply wp_relay_auth; [done|]. intros [e|] ses1; rewrite set_s_sent_twice.
  { apply wp_ret. by apply (HQ _ [ses1]). }
  apply wp_bind. eapply wp_transmit_open; [done|]. intros [res|e] ses2 H2; rewrite set_s_sent_twice.
  { apply wp_ret. by apply (HQ _ [ses2]). }
  destruct (bool_decide (EnvelopeFrom m = []) && refusedNullSender e).
  2: { apply wp_ret. by apply (HQ _ [ses2]). }
  apply wp_bind. eapply wp_command; [done|]. intros [e'|]; rewrite set_s_sent_twice.
  { apply wp_ret. by apply (HQ _ [_]). }
  eapply wp_transmit_open; [done|]. intros r ses3 H3. rewrite set_s_sent_twice. by apply (HQ _ [ses3]).
Qed.

(** *** Direct to the exchangers *)

Lemma wp_try_hosts m domain rcpts raw lastErr hosts s Q :
  (forall r new, (match r with Ok res => settled rcpts (whole (spamHeaders m) (of_text raw)) res new | Err _ => True end) ->
     Q r (set_s_sent (new ++ s_sent s) s)) ->
  wp md (try_hosts cfg hostname os_hostname directAddr m domain rcpts raw lastErr hosts) Q s.
Proof.
  revert lastErr. induction hosts as [|host hosts IH]; intros lastErr HQ; cbn [try_hosts].
  - apply wp_ret. replace s with (set_s_sent ([] ++ s_sent s) s) by (by destruct s). by apply HQ.
  - destruct (directAddr host) as [addr port]. apply wp_bind, wp_dial.
    + intros e. by apply IH.
    + eapply wp_transmit_open; [done|]. intros r ses Hr. rewrite set_s_sent_twice. by apply (HQ r [ses]).
Qed.

Lemma wp_directTo m domain rcpts raw s Q :
  (forall r new, (match r with Ok res => settled rcpts (whole (spamHeaders m) (of_text raw)) res new | Err _ => True end) ->
     Q r (set_s_sent (new ++ s_sent s) s)) ->
  wp md (directTo cfg hostname os_hostname directAddr m domain rcpts raw) Q s.
Proof.
  intros HQ. unfold directTo. destruct (lookupMX domain) as [hosts|e]; [by apply wp_try_hosts|].
  apply wp_ret. replace s with (set_s_sent ([] ++ s_sent s) s) by (by destruct s). by apply HQ.
Qed.

Definition grouped (groups : list (text * list text)) : list text := concat (map snd groups).

Lemma add_rcpt_grouped d rcpt groups : grouped (add_rcpt d rcpt groups) ≡ₚ rcpt :: grouped groups.
Proof.
  induction groups as [|[d' rs] groups IH]; cbn; [done|]. case_bool_decide; cbn.
  - rewrite <- app_assoc. cbn. by rewrite <- Permutation_middle.
  - unfold grouped in IH. rewrite IH. by rewrite <- Permutation_middle.
Qed.

Lemma group_rcpts_perm rcpts bad groups :
  let '(bad', groups') := group_rcpts rcpts bad groups in
  grouped groups' ++ addresses bad' ≡ₚ grouped groups ++ addresses bad ++ rcpts /\
  (Forall (fun f => permanent (rf_err f) = true) bad -> Forall (fun f => permanent (rf_err f) = true) bad').
Proof.
  revert bad groups. induction rcpts as [|rcpt rcpts IH]; intros bad groups; cbn; [by rewrite app_nil_r|].
  destruct (rcpt_domain rcpt) as [d|].
  - specialize (IH bad (add_rcpt d rcpt groups)). destruct (group_rcpts _ _ _) as [bad' groups'].
    destruct IH as [IH ?]. split; [|done]. rewrite IH, add_rcpt_grouped. cbn.
    rewrite Permutation_middle. apply Permutation_app_head. by rewrite Permutation_middle.
  - specialize (IH (bad ++ [malformed rcpt]) groups). destruct (group_rcpts _ _ _) as [bad' groups'].
    destruct IH as [IH Hb]. split.
    + rewrite IH. unfold addresses. rewrite map_app. by rewrite <- !app_assoc.
    + intros H'. apply Hb, Forall_app. split; [done|]. by constructor.
Qed.

(** The recipients of a direct delivery: each class holds what the transactions put in it,
    and [skipped] are those of domains never tried because the time was up. *)
Definition conserved (to : list text) (content : text -> Prop) (res : recipients) (skipped : list text)
  (new : list session_log) : Prop :=
  to ≡ₚ accepted res ++ addresses (deferred res) ++ addresses (rejected res) ++ skipped /\
  Forall (fun f => permanent (rf_err f) = true) (rejected res) /\
  Forall (fun f => permanent (rf_err f) = false) (deferred res) /\
  Forall (acknowledged new content) (accepted res) /\
  (no_deadline md = true -> skipped = []).

Lemma addresses_failed rcpts err : addresses (map (fun rcpt => RF rcpt err) rcpts) = rcpts.
Proof. unfold addresses. rewrite map_map. apply map_id. Qed.

Lemma addresses_app a b : addresses (a ++ b) = addresses a ++ addresses b.
Proof. apply map_app. Qed.

Lemma Forall_failed (P : error -> Prop) rcpts err :
  P err -> Forall (fun f => P (rf_err f)) (map (fun rcpt => RF rcpt err) rcpts).
Proof. intros HP. apply Forall_forall. intros f (r & -> & _)%elem_of_map. done. Qed.

Lemma wp_direct_loop m raw all groups done0 new0 s Q :
  conserved done0 (whole (spamHeaders m) (of_text raw)) all [] new0 ->
  (forall all' skipped new,
     conserved (done0 ++ grouped groups) (whole (spamHeaders m) (of_text raw)) all' skipped (new ++ new0) ->
     Q all' (set_s_sent (new ++ s_sent s) s)) ->
  wp md (direct_loop cfg hostname os_hostname directAddr m raw all groups) Q s.
Proof.
  revert all done0 new0 s. induction groups as [|[domain rcpts] groups IH];
    intros all done0 new0 s (Hto & Hrej & Hdef & Hack & _) HQ; cbn [direct_loop].
  - apply wp_ret. replace s with (set_s_sent ([] ++ s_sent s) s) by (by destruct s).
    apply (HQ _ []). cbn. rewrite app_nil_r. unfold conserved. split_and!; auto.
  - apply wp_bind, wp_directTo. intros [res|err] new Hr.
    + destruct Hr as [(Hp & Hrej1 & Hdef1) Hack1].
      eapply (IH _ (done0 ++ rcpts) (new ++ new0)).
      * split_and!; cbn [accepted deferred rejected]; [|apply Forall_app; auto..| |done].
        -- rewrite !addresses_app, !app_nil_r, Hto, Hp, !app_nil_r. apply merge_classes.
        -- apply Forall_app. split; (eapply Forall_impl; [eassumption|]);
             intros; [by apply acknowledged_app_r|by apply acknowledged_app_l].
      * intros all' skipped new' Hc. rewrite set_s_sent_twice. cbn [s_sent set_s_sent].
        rewrite app_assoc. apply (HQ _ skipped). rewrite <- app_assoc.
        change (grouped ((domain, rcpts) :: groups)) with (rcpts ++ grouped groups). by rewrite app_assoc.
    + cbv zeta. set (all1 := if permanent err then _ else _).
      assert (Hc1 : conserved (done0 ++ rcpts) (whole (spamHeaders m) (of_text raw)) all1 [] (new ++ new0)).
      { rewrite app_nil_r in Hto.
        assert (Hack' : Forall (acknowledged (new ++ new0) (whole (spamHeaders m) (of_text raw))) (accepted all))
          by (eapply Forall_impl; [exact Hack|]; intros; by apply acknowledged_app_r).
        unfold all1. destruct (permanent err) eqn:Ep; split_and!; cbn [accepted deferred rejected]; try done.
        - rewrite addresses_app, addresses_failed, app_nil_r, Hto. by rewrite <- !app_assoc.
        - apply Forall_app. split; [done|]. by apply (Forall_failed (fun e => permanent e = true)).
        - rewrite addresses_app, addresses_failed, app_nil_r, Hto. rewrite <- !app_assoc.
          do 2 apply Permutation_app_head. apply Permutation_app_comm.
        - apply Forall_app. split; [done|]. by apply (Forall_failed (fun e => permanent e = false)). }
      apply wp_bind, wp_ctx_done. intros b Hb. destruct b.
      * apply wp_ret. apply (HQ _ (grouped groups)). destruct Hc1 as (Hto1 & ? & ? & ? & _).
        split_and!; auto.
        -- change (grouped ((domain, rcpts) :: groups)) with (rcpts ++ grouped groups).
           rewrite app_assoc, Hto1, app_nil_r, <- !app_assoc. done.
        -- intros Hn. by specialize (Hb Hn).
      * eapply IH; [exact Hc1|]. intros all' skipped new' Hc. rewrite set_s_sent_twice. cbn [s_sent set_s_sent].
        rewrite app_assoc. apply (HQ _ skipped). rewrite <- app_assoc.
        change (grouped ((domain, rcpts) :: groups)) with (rcpts ++ grouped groups). by rewrite app_assoc.
Qed.

Lemma wp_sendDirect m body s Q :
  (forall r new, (match r with
      | Ok res => exists raw rem skipped, ReadAll body = (raw, None, rem) /\
          conserved (EnvelopeTo m) (whole (spamHeaders m) body) res skipped new
      | Err _ => True end) -> Q r (set_s_sent (new ++ s_sent s) s)) ->
  wp md (sendDirect cfg hostname os_hostname directAddr m body) Q s.
Proof.
  intros HQ. unfold sendDirect. destruct (ReadAll body) as [[raw [e|]] rem] eqn:Er.
  { apply wp_ret. replace s with (set_s_sent ([] ++ s_sent s) s) by (by destruct s). by apply HQ. }
  pose proof (group_rcpts_perm (EnvelopeTo m) [] []) as Hg.
  destruct (group_rcpts (EnvelopeTo m) [] []) as [bad groups]. destruct Hg as [Hg Hbad].
  apply wp_bind. eapply (wp_direct_loop _ _ _ _ (addresses bad) []).
  - split_and!; cbn; [by rewrite app_nil_r|by apply Hbad|by constructor|by constructor|done].
  - intros all skipped new (Hto & Hrej & Hdef & Hack & Hs). apply wp_ret. apply HQ.
    exists raw, rem, skipped. split; [done|]. split_and!; auto.
    + rewrite <- Hto. cbn in Hg. by rewrite (Permutation_app_comm (addresses bad)), Hg.
    + rewrite app_nil_r in Hack. eapply Forall_impl; [exact Hack|]. intros rcpt.
      apply acknowledged_mono. intros c (data & rem' & [= <- <-] & ->). exists raw, rem.
      by rewrite app_nil_r.
Qed.
End attempts.
