(* ===== verification/Sender.v ===== *)
(** * The delivery workers (internal/sender/sender.go)

    What happens to a claimed message: [deliver] and the settling of its outcome, the
    bounces, the maintenance pass, and the claiming pass.  Logging is left out.  The
    workers take the messages of a batch in some order; a batch is delivered in list
    order here, and each delivery is one step. *)

From S2P Require Import Arc.
From S2P Require Import Prelude GoStrings Times Net Errors Backoff StoreTypes StoreQueue.
From S2P Require Import StoreDomains Filter Routes Spam Authres Dsn World Outbound.
From Stdlib Require Import QArith.
Open Scope Z_scope.

Section sender.
Context `{SmtpLib} `{Resolver} `{Crypto}.
Context (cfg : QueueConfig) (outbound : OutboundConfig).
Context (hostname : text) (os_hostname : option text) (workerID : text).
Context (directAddr : text -> text * Z).

(** ** [record], [defer_] *)

Definition record (typ : text) (m : message) (data : jmap) : M unit :=
  let data := data ++ (if bool_decide (MDirection m = DirectionOutbound)
                       then [(T "direction", JStr "outbound"%string)] else []) in
  record_event (Event typ (Some (DomainID m)) (Some (ID m)) None data) ;;;
  Notify typ ((T "id", JStr (ID m)) :: data).

Definition defer_ (m : message) (reason : text) : M unit :=
  let* now := now_ in
  let* k := draw in
  let* r := on_queue (Reschedule (ID m) (Attempts m + 1) reason (RetryBase cfg) (RetryMax cfg) now k) in
  match r with
  | Err _ => ret tt
  | Ok _ => record EventMailDeferred m [(T "reason", JStr reason)]
  end.

(** ** Bounces *)

Definition eachRecipient (rcpts : list text) (f : text -> Failure) : list Failure := map f rcpts.

Definition shouldBounce (m : message) : bool :=
  bool_decide (Bounces cfg = BouncesAuthenticated) && negb (bool_decide (EnvelopeFrom m = []))
  && (bool_decide (MDirection m = DirectionOutbound) || SenderAuthenticated m).

(** The message a bounce is queued as. *)
Definition bounce_message (m : message) (id : text) (n now : Z) : message :=
  Msg id (DomainID m) [] [EnvelopeFrom m] "Undelivered Mail Returned to Sender"%string n now
    (now + Retention cfg) StatusQueued 0 now [] None [] DirectionOutbound None [] None [] [] false [].

Definition original_headers (m : message) : M text :=
  let* r := blob_Get (ID m) in
  ret match r with Ok r => HeadersOf (let '(d, _, _) := ReadAll r in d) | Err _ => [] end.

(** Spool the report and queue it; a failure on the way removes what was spooled. *)
Definition queue_bounce (m : message) (id raw : text) (now : Z) : M unit :=
  let* n := blob_Put id (of_text raw) (Z.of_nat (length raw) + 1) in
  match n with
  | Err _ => blob_Delete id ;;; ret tt
  | Ok n =>
      let* r := statement (fun s =>
        let '(r, q) := Enqueue (dt_domains (s_domains s)) (bounce_message m id n now) (s_queue s) in
        (r, set_s_queue q s)) in
      match r with
      | Err _ => blob_Delete id ;;; ret tt
      | Ok _ => ret tt
      end
  end.

Definition bounce_report (m : message) (failures : list Failure) (headers : text) : Report :=
  {| ReportingMTA := heloName hostname os_hostname; RQueueID := ID m; Arrival := Some (ReceivedAt m);
     RRecipient := EnvelopeFrom m; Failures := failures; Dsn.Headers := headers |}.

Definition bounce (m : message) (failures : list Failure) : M unit :=
  if bool_decide (failures = []) || negb (shouldBounce m) then ret tt
  else
    let* headers := original_headers m in
    let* now := now_ in
    let* boundary := new_id in
    let* nonce := new_id in
    match Build (boundary, nonce) (bounce_report m failures headers) now with
    | Err _ => ret tt
    | Ok raw =>
        let* id := new_id in
        match id with
        | None => ret tt
        | Some id => queue_bounce m id raw now
        end
    end.

(** ** [settle] *)

Definition first_error (fs : list recipientFailure) : text :=
  match fs with f :: _ => error_text (rf_err f) | [] => [] end.

Definition settle_rejected (m : message) (d : domain) (res : recipients) : M unit :=
  if bool_decide (addresses (rejected res) = []) then ret tt
  else
    record EventMailFailed m [(T "domain", JStr (DName d)); (T "to", JStrs (addresses (rejected res)));
                              (T "error", JStr (first_error (rejected res)))] ;;;
    bounce m (map (fun f => FromError (rf_rcpt f) (rf_err f)) (rejected res)).

Definition delivered_event (m : message) (d : domain) (res : recipients) : M unit :=
  record EventMailDelivered m [(T "domain", JStr (DName d)); (T "to", JStrs (accepted res))].

Definition settle_deferred (m : message) (d : domain) (res : recipients) : M unit :=
  (if (0 <? length (accepted res))%nat then delivered_event m d res else ret tt) ;;;
  on_queue (SetRecipients (ID m) (addresses (deferred res))) ;;;
  count MessagesDeferred 1 ;;;
  defer_ m (first_error (deferred res)).

Definition settle (m : message) (d : domain) (res : recipients) : M unit :=
  settle_rejected m d res ;;;
  if (0 <? length (deferred res))%nat then settle_deferred m d res
  else if bool_decide (accepted res = []) then
    let reason := match rejected res with
                  | f :: _ => error_text (rf_err f)
                  | [] => T "no recipients left to deliver to"
                  end in
    count MessagesFailed 1 ;;;
    on_queue (MarkFailed (ID m) reason) ;;;
    blob_Delete (ID m) ;;;
    ret tt
  else
    let* now := now_ in
    let* r := on_queue (MarkDelivered (ID m) now) in
    match r with
    | Err _ => ret tt
    | Ok _ =>
        blob_Delete (ID m) ;;;
        count MessagesDelivered 1 ;;;
        delivered_event m d res
    end.

(** ** [sealARC] *)

Definition sealARC (d : domain) (m : message) (body : reader) : M reader :=
  match ReadAll body with
  | (_, Some _, rest) => ret rest
  | (raw, None, _) =>
      let* key := query (fun s => DKIMKeyFor (DID d) (s_dkim s)) in
      match key with
      | Err _ => ret (of_text raw)
      | Ok key =>
          if negb (KEnabled key) then ret (of_text raw)
          else match Unseal (PrivateKey key) with
          | Err _ => ret (of_text raw)
          | Ok pem =>
              match ParsePrivate pem with
              | Err _ => ret (of_text raw)
              | Ok signer =>
                  let authservID := if bool_decide (hostname = []) then DName d else hostname in
                  (* [ARCResult] does not panic on what the intake stores *)
                  let cv := default [] (ARCResult (AuthResults m)) in
                  let cv := if bool_decide (cv = CVPass) || bool_decide (cv = CVFail) then cv else [] in
                  let* now := now_ in
                  ret match Seal (DName d) (Selector key) signer now raw authservID (AuthResults m) cv with
                      | Err _ => of_text raw
                      | Ok out => of_text out
                      end
              end
          end
      end
  end.

(** ** [deliver] *)

(** [send]: to the primary. *)
Definition send (d : domain) (m : message) (body : reader) : M (result recipients) :=
  let* c := dial (PrimaryHost d) (PrimaryPort d) (PrimaryTLS d) ("xeronmx."%string ++ DName d)
              (destinationPolicy cfg) in
  match c with
  | Err e => ret (Err e)
  | Ok _ => transmit (EnvelopeFrom m) (EnvelopeTo m) body (spamHeaders m)
  end.

Definition attempt (d : domain) (m : message) (body : reader) : M (result recipients) :=
  match MDirection m with
  | DirectionOutbound => sendOutbound cfg outbound hostname os_hostname directAddr m body
  | DirectionInbound => let* payload := sealARC d m body in send d m payload
  end.

Definition unreadable (m : message) (e : error) : M unit :=
  on_queue (MarkFailed (ID m) ("message body unreadable: "%string ++ error_text e)) ;;;
  bounce m (eachRecipient (EnvelopeTo m) Lost) ;;;
  record EventMailFailed m [(T "reason", JStr "body unreadable"%string)].

Definition refused (m : message) (d : domain) (reply : smtp_error) (err : error) : M unit :=
  count MessagesFailed 1 ;;;
  on_queue (MarkFailed (ID m) (error_text err)) ;;;
  bounce m (eachRecipient (EnvelopeTo m) (fun rcpt => FromError rcpt err)) ;;;
  blob_Delete (ID m) ;;;
  record EventMailFailed m [(T "domain", JStr (DName d)); (T "code", JNum (Code reply));
                            (T "error", JStr (error_text err))].

Definition deliver (m : message) : M unit :=
  let* d := query (fun s => DomainByID (DomainID m) (dt_domains (s_domains s))) in
  match d with
  | Err e => defer_ m ("domain lookup failed: "%string ++ error_text e)
  | Ok d =>
      let* body := blob_Get (ID m) in
      match body with
      | Err e => unreadable m e
      | Ok body =>
          let* r := attempt d m body in
          match r with
          | Ok res => settle m d res
          | Err err =>
              match as_smtp err with
              | Some reply =>
                  if code_5xx reply then refused m d reply err
                  else count MessagesDeferred 1 ;;; defer_ m (error_text err)
              | None => count MessagesDeferred 1 ;;; defer_ m (error_text err)
              end
          end
      end
  end.

(** ** [maintain] *)

Definition expire_one (now : Z) (id : text) : M unit :=
  count MessagesExpired 1 ;;;
  let* r := query (fun s => GetMessage id (s_queue s)) in
  let* ev := match r with
    | Ok m =>
        bounce m (eachRecipient (EnvelopeTo m) (fun rcpt => Expired rcpt (now - ReceivedAt m))) ;;;
        ret (Event EventMailExpired (Some (DomainID m)) (Some id) None
               [(T "from", JStr (EnvelopeFrom m)); (T "to", JStrs (EnvelopeTo m));
                (T "attempts", JNum (Attempts m)); (T "last_error", JStr (LastError m))])
    | Err _ => ret (Event EventMailExpired None (Some id) None [])
    end in
  blob_Delete id ;;;
  record_event ev ;;;
  Notify EventMailExpired [(T "id", JStr id)].

Fixpoint expire_all (now : Z) (ids : list text) : M unit :=
  match ids with
  | [] => ret tt
  | id :: rest => expire_one now id ;;; expire_all now rest
  end.

Definition day : Z := 24 * hour.

Definition maintain : M unit :=
  let* now := now_ in
  let* expired := on_queue (fun q => let '(ids, q') := ExpireOverdue now q in (Ok ids, q')) in
  match expired with Ok ids => expire_all now ids | Err _ => ret tt end ;;;
  on_queue (fun q => let '(n, q') := ReleaseOrphanedClaims (now - 3 * DeliveryTimeout cfg) q in (Ok n, q')) ;;;
  on_queue (fun q => let '(n, q') := PurgeDelivered (now - 30 * day) q in (Ok n, q')) ;;;
  statement (fun s => let '(n, t) := PurgeEvents 50000 (s_events s) in (Ok n, set_s_events t s)) ;;;
  ret tt.

(** ** [pass] *)

(** Feeding the workers: a message is dropped, still claimed, when the context ends. *)
Fixpoint deliver_all (batch : list message) : M unit :=
  match batch with
  | [] => ret tt
  | m :: rest =>
      let* done := ctx_done in
      (if done then ret tt else deliver m) ;;; deliver_all rest
  end.

Definition claim_inbound : M (result (list message)) :=
  let* now := now_ in
  statement (fun s =>
    let '(ms, q) := ClaimBatch (dt_domains (s_domains s)) (dt_primary (s_domains s)) workerID
                      (Z.of_nat (Workers cfg * 4)) now (s_queue s) in
    (Ok ms, set_s_queue q s)).

Definition claim_outbound : M (result (list message)) :=
  if oc_Enabled outbound || bool_decide (Bounces cfg = BouncesAuthenticated) then
    let* now := now_ in
    statement (fun s =>
      let '(ms, q) := claimOutbound (dt_domains (s_domains s)) workerID
                        (Z.of_nat (Workers cfg * 4)) now (negb (oc_Enabled outbound)) (s_queue s) in
      (Ok ms, set_s_queue q s))
  else ret (Ok []).

(** One round of the loop: [true] when there may be more to do. *)
Definition pass_round : M bool :=
  let* done := ctx_done in
  if done then ret false
  else
    let* batch := claim_inbound in
    match batch with
    | Err _ => ret false
    | Ok batch =>
        let* out := claim_outbound in
        let batch := batch ++ match out with Ok ms => ms | Err _ => [] end in
        if bool_decide (map ID batch = []) then ret false
        else deliver_all batch ;;; ret true
    end.

(** [fuel] bounds the rounds; [None] when it ran out. *)
Fixpoint pass (fuel : nat) : M (option unit) :=
  match fuel with
  | O => ret None
  | S fuel =>
      let* more := pass_round in
      if more then pass fuel else ret (Some tt)
  end.

(** [Run]: what it does before its loop, and on each of its ticks. *)
Definition startup : M unit :=
  let* now := now_ in
  on_queue (fun q => let '(n, q') := ReleaseOrphanedClaims now q in (Ok n, q')) ;;;
  ret tt.
End sender.
