(* ===== verification/SenderFacts.v ===== *)
(** * Deliveries: what each step does to the message it is about

    [sees id s b r ss ns] is what concerns one message: its body in the spool, its row,
    the sessions opened and the notifications sent so far. *)

From S2P Require Import Arc.
From S2P Require Import Prelude GoStrings Times Net Errors Backoff StoreTypes StoreQueue.
From S2P Require Import QueueFacts StoreDomains Filter Routes Spam Authres Dsn World Outbound.
From S2P Require Import OutboundFacts Sender.
From Stdlib Require Import QArith.
Open Scope Z_scope.

Definition sees (id : text) (s : state) (b : option text) (r : option qrow)
  (ss : list session_log) (ns : list (text * jmap)) : Prop :=
  s_blobs s !! id = b /\ lookup_row id (s_queue s) = r /\ s_sent s = ss /\ s_notes s = ns.

(** The body as the key of the message's domain DKIM-signs it, going out, or ARC-seals it, coming in. *)
Definition dkim_signed `{Crypto} (s : state) (m : message) (body : reader) (data : text) : Prop :=
  MDirection m = DirectionOutbound /\ exists key d pem sg,
    DKIMKeyFor (DomainID m) (s_dkim s) = Ok key /\ KEnabled key = true /\
    DomainByID (DomainID m) (dt_domains (s_domains s)) = Ok d /\ Unseal (PrivateKey key) = Ok pem /\
    NewSigner (DName d) (Selector key) pem = Ok sg /\ Sign sg body = Ok data.

Definition arc_sealed `{Crypto} (s : state) (m : message) (raw data : text) : Prop :=
  MDirection m = DirectionInbound /\ exists d key pem k now authserv cv,
    DomainByID (DomainID m) (dt_domains (s_domains s)) = Ok d /\
    DKIMKeyFor (DID d) (s_dkim s) = Ok key /\ KEnabled key = true /\ Unseal (PrivateKey key) = Ok pem /\
    ParsePrivate pem = Ok k /\ Seal (DName d) (Selector key) k now raw authserv (AuthResults m) cv = Ok data.

(** What a delivery carries of what the spool's reader gives: all of it, as it is, signed or
    sealed.  The last case is a body whose reading failed once and then went on, which only the
    reader of a damaged file does (see [sealARC_sends_the_rest]). *)
Definition carries `{Crypto} (s : state) (m : message) (body : reader) (data : text) : Prop :=
  (exists rem, ReadAll body = (data, None, rem)) \/
  dkim_signed s m body data \/
  (exists raw rem, ReadAll body = (raw, None, rem) /\ arc_sealed s m raw data) \/
  (exists pre e rest rem, ReadAll body = (pre, Some e, rest) /\ ReadAll rest = (data, None, rem)).

Definition sends `{Crypto} (s : state) (m : message) (body : reader) (content : text) : Prop :=
  exists data, carries s m body data /\ content = spamHeaders m ++ data.

Section facts.
Context `{SmtpLib} `{Resolver} `{Crypto}.
Context (md : mode) (cfg : QueueConfig) (outbound : OutboundConfig).
Context (hostname : text) (os_hostname : option text) (workerID : text).
Context (directAddr : text -> text * Z).

(** ** Attempts *)

Lemma wp_signed m body s Q :
  MDirection m = DirectionOutbound ->
  (forall r, (match r with
              | Ok b => forall data rem, ReadAll b = (data, None, rem) -> carries s m body data
              | Err _ => True end) -> Q r s) ->
  wp md (signed m body) Q s.
Proof.
  intros Hdir HQ. assert (Hraw : Q (Ok body) s) by (apply HQ; intros data rem Hr; left; eauto).
  unfold signed. apply wp_bind, wp_query; [intros; by apply wp_ret|].
  destruct (DKIMKeyFor _ _) as [key|] eqn:Ek; [|by apply wp_ret].
  destruct (KEnabled key) eqn:Een; cbn [negb]; [|by apply wp_ret].
  apply wp_bind, wp_query; [intros; by apply wp_ret|]. apply wp_ret.
  destruct (DomainByID _ _) as [d|] eqn:Ed; [|done]. destruct (Unseal _) as [pem|] eqn:Eu; [|done].
  destruct (NewSigner _ _ _) as [sg|] eqn:Es; [|done]. destruct (Sign sg body) as [out|] eqn:E; apply HQ; [|done].
  intros data rem [-> _]%ReadAll_of_text. right. left. split; [done|]. by exists key, d, pem, sg.
Qed.

Lemma set_s_now_id s : set_s_now (s_now s) s = s.
Proof. by destruct s. Qed.

Lemma wp_sealARC d m body s Q :
  MDirection m = DirectionInbound -> DomainByID (DomainID m) (dt_domains (s_domains s)) = Ok d ->
  (forall b t, (forall data rem, ReadAll b = (data, None, rem) -> carries s m body data) -> Q b (set_s_now t s)) ->
  wp md (sealARC hostname d m body) Q s.
Proof.
  intros Hdir Hd HQ. unfold sealARC.
  assert (Hsame : forall b, (forall data rem, ReadAll b = (data, None, rem) -> carries s m body data) -> Q b s).
  { intros b Hb. rewrite <- (set_s_now_id s). by apply HQ. }
  destruct (ReadAll body) as [[raw [e|]] rest] eqn:Er.
  { apply wp_ret, Hsame. intros data rem Hr. right. right. right. by exists raw, e, rest, rem. }
  assert (Hraw : forall data rem, ReadAll (of_text raw) = (data, None, rem) -> carries s m body data).
  { intros data rem [-> _]%ReadAll_of_text. left. eauto. }
  apply wp_bind, wp_query; [intros; by apply wp_ret, Hsame|].
  destruct (DKIMKeyFor _ _) as [key|] eqn:Ek; [|by apply wp_ret, Hsame].
  destruct (KEnabled key) eqn:Een; cbn [negb]; [|by apply wp_ret, Hsame].
  destruct (Unseal _) as [pem|] eqn:Eu; [|by apply wp_ret, Hsame].
  destruct (ParsePrivate pem) as [k|] eqn:Ep; [|by apply wp_ret, Hsame].
  cbv zeta. apply wp_bind, wp_now. intros t _. apply wp_ret, HQ.
  destruct (Seal _ _ _ _ _ _ _ _) as [out|] eqn:E; [|done].
  intros data rem [-> _]%ReadAll_of_text. right. right. left. exists raw, rest. split; [done|]. split; [done|].
  by repeat eexists.
Qed.

Lemma conserved_mono to (P R : text -> Prop) res skipped new :
  (forall c, P c -> R c) -> conserved md to P res skipped new -> conserved md to R res skipped new.
Proof.
  intros HPR (? & ? & ? & Hack & ?). split_and!; try done.
  eapply Forall_impl; [exact Hack|]. intros rcpt. by apply acknowledged_mono.
Qed.

Lemma settled_conserved to P res new : settled to P res new -> conserved md to P res [] new.
Proof. intros [(? & ? & ?) ?]. split_and!; rewrite ?app_nil_r; done. Qed.

Lemma whole_sends s m body b c :
  (forall data rem, ReadAll b = (data, None, rem) -> carries s m body data) ->
  whole (spamHeaders m) b c -> sends s m body c.
Proof. intros Hb (data & rem & Hr & ->). exists data. eauto. Qed.

(** The outcome of an attempt: every recipient is in one class, unless an outbound attempt
    ran out of time. *)
Lemma wp_attempt d m body s Q :
  DomainByID (DomainID m) (dt_domains (s_domains s)) = Ok d ->
  (forall r new t, (match r with
      | Ok res => exists skipped, conserved md (EnvelopeTo m) (sends s m body) res skipped new /\
          (MDirection m = DirectionInbound -> skipped = [])
      | Err _ => True end) -> Q r (set_s_sent (new ++ s_sent s) (set_s_now t s))) ->
  wp md (attempt cfg outbound hostname os_hostname directAddr d m body) Q s.
Proof.
  intros Hdom HQ. assert (Hid : forall t, set_s_now t s = set_s_sent ([] ++ s_sent s) (set_s_now t s)) by (intros t; by destruct s).
  unfold attempt. destruct (MDirection m) eqn:Edir.
  - apply wp_bind, wp_sealARC; [done..|]. intros b t Hb. unfold send. apply wp_dial_transmit.
    + intros e. rewrite Hid. by apply HQ.
    + intros [res|e] ses Hr; apply HQ; [|done]. exists []. split; [|done].
      eapply conserved_mono, settled_conserved, Hr. intros c. by apply whole_sends.
  - pose proof (fun r new => HQ r new (s_now s)) as HQ'. rewrite set_s_now_id in HQ'. clear HQ. rename HQ' into HQ.
    specialize (Hid (s_now s)). rewrite set_s_now_id in Hid. unfold sendOutbound. apply wp_bind, wp_signed; [done|]. intros [b|e] Hb.
    2: { apply wp_ret. rewrite Hid. by apply HQ. }
    apply wp_bind. unfold routeFor.
    assert (Hgo : forall x : text * option Route, wp md
      (let '(mode, route) := if oc_Enabled outbound then x else (T "direct", None) in
       if bool_decide (mode = "relay"%string) then sendViaRelay outbound hostname os_hostname m b route
       else if bool_decide (mode = "direct"%string) then sendDirect cfg hostname os_hostname directAddr m b
       else ret (Err (EText ("outbound: unknown mode "%string ++ quote mode)))) Q s).
    { intros x. destruct (if oc_Enabled outbound then x else _) as [mode route]. case_bool_decide; [|case_bool_decide].
      - apply wp_sendViaRelay. intros [res|e] new _ Hr; apply HQ; [|done]. exists []. split; [|done].
        eapply conserved_mono, settled_conserved, Hr. intros c. by apply whole_sends.
      - apply wp_sendDirect. intros [res|e] new Hr; apply HQ; [|done].
        destruct Hr as (raw & rem & skipped & _ & Hc). exists skipped. split; [|done].
        eapply conserved_mono, Hc. intros c. by apply whole_sends.
      - apply wp_ret. rewrite Hid. by apply HQ. }
    destruct (EnvelopeTo m) as [|rcpt rcpts]; [by apply wp_ret|].
    destruct (last_index _ rcpt) as [i|]; [|by apply wp_ret].
    apply wp_bind, wp_query; [intros; by apply wp_ret|]. apply wp_ret, Hgo.
Qed.

(** ** Steps, seen from one message *)

Section one.
Context (id : text).

Lemma wp_record typ m data s b r ss ns Q :
  sees id s b r ss ns ->
  (forall s' extra, sees id s' b r ss (ns ++ [(typ, (T "id", JStr (ID m)) :: data ++ extra)]) ->
     (forall l, (T "to", JStrs l) ∉ extra) -> Q tt s') ->
  wp md (record typ m data) Q s.
Proof.
  intros (Hb & Hr & Hs & Hn) HQ. unfold record. cbv zeta.
  set (extra := if bool_decide (MDirection m = DirectionOutbound) then _ else _).
  assert (Hextra : forall l, (T "to", JStrs l) ∉ extra).
  { intros l. unfold extra. case_bool_decide; [|set_solver]. rewrite list_elem_of_singleton. discriminate. }
  apply wp_bind, wp_record_event. intros t _.
  split; apply wp_Notify, (HQ _ extra); try done; split_and!; cbn; by rewrite ?Hn.
Qed.

Lemma wp_update f upd s b r ss ns Q :
  keeps_id upd -> (forall q, f q = exec_update (by_id id) upd q) ->
  sees id s b r ss ns ->
  (forall e s', sees id s' b r ss ns -> Q (Err e) s') ->
  (forall x s', sees id s' b (upd <$> r) ss ns -> Q x s') ->
  wp md (on_queue f) Q s.
Proof.
  intros Hk Hf (Hb & Hr & Hs & Hn) He HQ. apply wp_on_queue; [intros e _; by apply He|].
  rewrite Hf. unfold exec_update. apply HQ. split_and!; try done.
  cbn [s_queue set_s_queue]. rewrite lookup_update by done. rewrite Hr. destruct r as [r|]; [|done].
  apply lookup_row_Some in Hr as [_ Hid]. cbn. unfold by_id. by rewrite bool_decide_eq_true_2.
Qed.

Lemma wp_defer m reason s b r ss ns Q :
  ID m = id -> sees id s b r ss ns ->
  (forall s' r' ns', sees id s' b r' ss (ns ++ ns') ->
     (r' = r \/ exists next, r' = rescheduled_row (Attempts m + 1) reason next <$> r) -> Q tt s') ->
  wp md (defer_ cfg m reason) Q s.
Proof.
  intros Hid Hsees HQ. unfold defer_. apply wp_bind, wp_now. intros t Ht.
  apply wp_bind, wp_draw. intros k Hk. apply wp_bind. eapply wp_update with (b := b) (r := r) (ss := ss) (ns := ns).
  - apply keeps_id_rescheduled.
  - intros q. unfold Reschedule. by rewrite Hid.
  - exact Hsees.
  - intros e s' Hs'. apply wp_ret. apply (HQ s' r []); [by rewrite app_nil_r|by left].
  - intros x s' Hs'. destruct x.
    2: { apply wp_ret. eapply (HQ s'); [|right; by eexists]. rewrite app_nil_r. exact Hs'. }
    eapply wp_record; [exact Hs'|]. intros s'' extra Hs'' _. eapply (HQ s''); [exact Hs''|right; by eexists].
Qed.

Lemma wp_count_sees c n s b r ss ns Q :
  sees id s b r ss ns -> (forall s', sees id s' b r ss ns -> Q tt s') -> wp md (count c n) Q s.
Proof. intros Hs HQ. apply wp_count. intros k. by apply HQ. Qed.

Lemma wp_delete_sees s b r ss ns Q :
  sees id s b r ss ns -> (forall x s' b', sees id s' b' r ss ns -> (b' = b \/ b' = None) -> Q x s') ->
  wp md (blob_Delete id) Q s.
Proof.
  intros (Hb & Hr & Hs & Hn) HQ. apply wp_blob_Delete; [intros e _|intros _].
  - by apply (HQ _ s b); auto; split_and!.
  - apply (HQ _ _ None); auto. split_and!; cbn; try done. apply lookup_delete_eq.
Qed.

(** A bounce is queued under an identifier of its own: it leaves the message alone. *)
Lemma wp_bounce m failures s b r ss ns Q :
  (forall i, id_ok md i -> i <> id) -> sees id s b r ss ns ->
  (forall s', sees id s' b r ss ns -> Q tt s') ->
  wp md (bounce cfg hostname os_hostname m failures) Q s.
Proof.
  intros Hfresh Hsees HQ. unfold bounce.
  destruct (bool_decide _ || negb _); [by apply wp_ret, HQ|].
  apply wp_bind. unfold original_headers. apply wp_bind.
  assert (Hgo : forall headers, wp md
    (let* now := now_ in let* boundary := new_id in let* nonce := new_id in
     match Build (boundary, nonce) (bounce_report hostname os_hostname m failures headers) now with
     | Err _ => ret tt
     | Ok raw => let* i := new_id in
         match i with None => ret tt | Some i => queue_bounce cfg m i raw now end
     end) Q s).
  2: { apply wp_blob_Get; intros; apply wp_ret, Hgo. }
  intros headers. apply wp_bind, wp_now. intros t _. apply wp_bind, wp_new_id. intros bd _.
  apply wp_bind, wp_new_id. intros nonce _.
  destruct (Build _ _ _) as [raw|e]; [|by apply wp_ret, HQ].
  apply wp_bind, wp_new_id. intros [i|] Hi; [|by apply wp_ret, HQ].
  assert (Hne : i <> id) by (apply Hfresh; auto). unfold queue_bounce.
  destruct Hsees as (Hb & Hr & Hs & Hn).
  assert (Hdel : forall s', sees id s' b r ss ns -> wp md (blob_Delete i ;;; ret tt) Q s').
  { intros s' (Hb' & ? & ? & ?). apply wp_bind, wp_blob_Delete; [intros; by apply wp_ret, HQ; split_and!|].
    intros _. apply wp_ret, HQ. split_and!; cbn; try done. by rewrite lookup_delete_ne. }
  apply wp_bind, wp_blob_Put; [intros; by apply Hdel; split_and!|]. intros data err rest _ _ _ _ _.
  apply wp_bind, wp_statement.
  - intros e _. apply Hdel. split_and!; cbn; try done. by rewrite lookup_insert_ne.
  - cbn. unfold Enqueue. destruct (existsb (by_id _) (s_queue s)); [|destruct (negb _)]; cbn.
    + apply Hdel. split_and!; cbn; try done. by rewrite lookup_insert_ne.
    + apply Hdel. split_and!; cbn; try done. by rewrite lookup_insert_ne.
    + apply wp_ret, HQ. split_and!; try done; [cbn; by rewrite lookup_insert_ne|].
      cbn [s_queue set_s_queue set_s_blobs]. rewrite lookup_app, Hr. destruct r; [done|].
      unfold by_id. cbn. by rewrite bool_decide_eq_false_2.
Qed.

(** ** The fate of a recipient *)

(** A [mail_failed] notification of this message names the recipient, or no one. *)
Definition notified (ns : list (text * jmap)) (m : message) (rcpt : text) : Prop :=
  exists data, (EventMailFailed, data) ∈ ns /\ (T "id", JStr (ID m)) ∈ data /\
    forall l, (T "to", JStrs l) ∈ data -> rcpt ∈ l.

Lemma notified_app_l a c m rcpt : notified a m rcpt -> notified (a ++ c) m rcpt.
Proof. intros (d & ? & ?). exists d. split; [apply elem_of_app; by left|done]. Qed.

Definition live (r : qrow) : Prop := row_status r = StatusQueued \/ row_status r = StatusDelivering.

(** Delivered whole, reported as failed, or still to be delivered with the body kept. *)
Definition fate (m : message) (P : text -> Prop) (new : list session_log) (ns : list (text * jmap))
  (b b' : option text) (r' : option qrow) (rcpt : text) : Prop :=
  acknowledged new P rcpt \/ notified ns m rcpt \/
  (b' = b /\ exists row, r' = Some row /\ live row /\ rcpt ∈ EnvelopeTo (q_msg row)).

Lemma wp_settle_rejected m d res s b r ss ns Q :
  (forall i, id_ok md i -> i <> id) -> ID m = id -> sees id s b r ss ns ->
  (forall s' ns', sees id s' b r ss (ns ++ ns') ->
     (forall rcpt, rcpt ∈ addresses (rejected res) -> notified ns' m rcpt) -> Q tt s') ->
  wp md (settle_rejected cfg hostname os_hostname m d res) Q s.
Proof.
  intros Hfresh Hid Hsees HQ. unfold settle_rejected. case_bool_decide as Hr.
  - apply wp_ret, (HQ s []); [by rewrite app_nil_r|]. rewrite Hr. set_solver.
  - apply wp_bind. eapply wp_record; [exact Hsees|]. intros s1 extra H1s Hextra.
    eapply wp_bounce; [done|exact H1s|]. intros s2 H2s. eapply HQ; [exact H2s|].
    intros rcpt Hrcpt. eexists. split_and!; [apply list_elem_of_here|apply list_elem_of_here|].
    intros l. cbn. rewrite !elem_of_cons. intros [E|[E|[E|[E|E]]]]; try discriminate E.
    + by injection E as ->.
    + by apply Hextra in E.
Qed.

(** Every recipient of a settled attempt is accounted for. *)
Lemma wp_settle m d res P new s b r ss ns Q :
  (forall i, id_ok md i -> i <> id) -> ID m = id -> sees id s b (Some r) ss ns ->
  live r -> EnvelopeTo (q_msg r) = EnvelopeTo m -> conserved md (EnvelopeTo m) P res [] new ->
  (forall s' b' r' ns', sees id s' b' r' ss (ns ++ ns') ->
     (forall rcpt, rcpt ∈ EnvelopeTo m -> fate m P new ns' b b' r' rcpt) -> Q tt s') ->
  wp md (settle cfg hostname os_hostname m d res) Q s.
Proof.
  intros Hfresh Hid Hsees Hlive Hto (Hperm & _ & _ & Hack & _) HQ.
  unfold settle. apply wp_bind. eapply wp_settle_rejected; [done..|]. intros s1 ns1 Hs1 Hrej.
  assert (Hcls : forall rcpt, rcpt ∈ EnvelopeTo m ->
    acknowledged new P rcpt \/ notified ns1 m rcpt \/ rcpt ∈ addresses (deferred res)).
  { intros rcpt. rewrite Hperm, app_nil_r, !elem_of_app. rewrite Forall_forall in Hack.
    intros [?|[?|?]]; [left; by apply Hack|auto|right; left; by apply Hrej]. }
  destruct (0 <? length (deferred res))%nat eqn:Ed.
  - (* deferred *)
    unfold settle_deferred. apply wp_bind.
    assert (Hev : forall Q', (forall s' ns', sees id s' b (Some r) ss ((ns ++ ns1) ++ ns') -> Q' tt s') ->
      wp md (if (0 <? length (accepted res))%nat then delivered_event m d res else ret tt) Q' s1).
    { intros Q' HQ'. case_match; [|apply wp_ret, (HQ' _ []); by rewrite app_nil_r].
      eapply wp_record; [exact Hs1|]. intros s' extra Hs' _. by eapply HQ'. }
    apply Hev. clear Hev. intros s2 ns2 Hs2. apply wp_bind.
    assert (Hend : forall r3 s3, sees id s3 b (Some r3) ss ((ns ++ ns1) ++ ns2) -> live r3 ->
      (forall rcpt, rcpt ∈ addresses (deferred res) -> rcpt ∈ EnvelopeTo (q_msg r3)) ->
      wp md (count MessagesDeferred 1 ;;; defer_ cfg m (first_error (deferred res))) Q s3).
    { intros r3 s3 Hs3 Hl3 Ht3. apply wp_bind. eapply wp_count_sees; [exact Hs3|]. intros s4 Hs4.
      eapply wp_defer; [done|exact Hs4|]. intros s5 r5 ns5 Hs5 Hr5. rewrite <- !app_assoc in Hs5.
      eapply HQ; [exact Hs5|]. intros rcpt Hrcpt.
      destruct (Hcls rcpt Hrcpt) as [?|[?|Hd]]; [by left|right; left; by apply notified_app_l|].
      right. right. split; [done|]. destruct Hr5 as [->|[next ->]]; (eexists; split; [reflexivity|]).
      - split; [done|auto].
      - split; [by left|]. cbn. auto. }
    eapply wp_update with (upd := on_msg (set_EnvelopeTo (addresses (deferred res)))); [| |exact Hs2| |].
    + intros ?. reflexivity.
    + intros q. unfold SetRecipients. by rewrite Hid.
    + intros e s3 Hs3. eapply Hend; [exact Hs3|done|]. intros rcpt Hd. rewrite Hto, Hperm, !elem_of_app. auto.
    + intros x s3 Hs3. eapply Hend; [exact Hs3|done|]. done.
  - (* nothing deferred *)
    assert (Hnil : addresses (deferred res) = []).
    { apply Nat.ltb_ge in Ed. destruct (deferred res); [done|cbn in Ed; lia]. }
    rewrite Hnil in Hcls.
    assert (Hdone : forall s' b' r' ns', sees id s' b' r' ss ((ns ++ ns1) ++ ns') -> Q tt s').
    { intros s' b' r' ns' Hs'. rewrite <- app_assoc in Hs'. eapply HQ; [exact Hs'|]. intros rcpt Hrcpt.
      destruct (Hcls rcpt Hrcpt) as [?|[?|?]]; [by left|right; left; by apply notified_app_l|set_solver]. }
    case_bool_decide as Ha.
    + cbv zeta. apply wp_bind. eapply wp_count_sees; [exact Hs1|]. intros s2 Hs2. apply wp_bind.
      assert (Hdel : forall r3 s3, sees id s3 b r3 ss (ns ++ ns1) -> wp md (blob_Delete (ID m) ;;; ret tt) Q s3).
      { intros r3 s3 Hs3. apply wp_bind. rewrite Hid. eapply wp_delete_sees; [exact Hs3|].
        intros x s4 b4 Hs4 _. apply wp_ret. eapply (Hdone _ _ _ []). by rewrite app_nil_r. }
      eapply wp_update; [apply keeps_id_failed| |exact Hs2|intros e s3 Hs3; by eapply Hdel|intros x s3 Hs3; by eapply Hdel].
      intros q. unfold MarkFailed. by rewrite Hid.
    + apply wp_bind, wp_now. intros t _. apply wp_bind.
      assert (Hs1' : sees id (set_s_now t s1) b (Some r) ss (ns ++ ns1)) by done.
      eapply wp_update; [apply keeps_id_delivered| |exact Hs1'|intros e s2 Hs2|intros x s2 Hs2].
      * intros q. unfold MarkDelivered. by rewrite Hid.
      * apply wp_ret. eapply (Hdone _ _ _ []). by rewrite app_nil_r.
      * destruct x as [x|e]; [|apply wp_ret; eapply (Hdone _ _ _ []); by rewrite app_nil_r].
        apply wp_bind. rewrite Hid. eapply wp_delete_sees; [exact Hs2|]. intros y s3 b3 Hs3 _.
        apply wp_bind. eapply wp_count_sees; [exact Hs3|]. intros s4 Hs4.
        eapply wp_record; [exact Hs4|]. intros s5 extra Hs5 _. by eapply Hdone.
Qed.

(** ** The whole delivery *)

Lemma fate_awaiting m P new ns b r rcpt :
  live r -> rcpt ∈ EnvelopeTo (q_msg r) -> fate m P new ns b b (Some r) rcpt.
Proof. intros ? ?. right. right. eauto. Qed.

(** A postponed delivery leaves every recipient on the row. *)
Lemma wp_defer_fate m reason P new s b r ss ns Q :
  ID m = id -> sees id s b (Some r) ss ns -> live r -> EnvelopeTo (q_msg r) = EnvelopeTo m ->
  (forall s' b' r' ns', sees id s' b' r' ss (ns ++ ns') ->
     (forall rcpt, rcpt ∈ EnvelopeTo m -> fate m P new ns' b b' r' rcpt) -> Q tt s') ->
  wp md (defer_ cfg m reason) Q s.
Proof.
  intros Hid Hs Hl Hto HQ. eapply wp_defer; [done|exact Hs|]. intros s' r' ns' Hs' Hr'.
  eapply HQ; [exact Hs'|]. intros rcpt Hrcpt. rewrite <- Hto in Hrcpt.
  destruct Hr' as [->|[next ->]]; cbn; apply fate_awaiting; try done. by left.
Qed.

Lemma wp_deliver m s b r ss ns Q :
  (forall i, id_ok md i -> i <> id) -> ID m = id -> sees id s b (Some r) ss ns ->
  live r -> EnvelopeTo (q_msg r) = EnvelopeTo m ->
  (MDirection m = DirectionInbound \/ no_deadline md = true) ->
  (forall s' P new b' r' ns', sees id s' b' r' (new ++ ss) (ns ++ ns') ->
     (forall content, P content -> exists body rd, b = Some body /\ (rd = of_text body \/ broken_ok md rd) /\ sends s m rd content) ->
     (forall rcpt, rcpt ∈ EnvelopeTo m -> fate m P new ns' b b' r' rcpt) -> Q tt s') ->
  wp md (deliver cfg outbound hostname os_hostname directAddr m) Q s.
Proof.
  intros Hfresh Hid Hsees Hl Hto Hdl HQ. unfold deliver. apply wp_bind.
  assert (Hdefer : forall reason s1, sees id s1 b (Some r) ss ns -> wp md (defer_ cfg m reason) Q s1).
  { intros reason s1 Hs1. eapply (wp_defer_fate m reason (fun _ => False) []); [done|exact Hs1|done|done|].
    intros s' b' r' ns' Hs' Hf. by eapply (HQ s' (fun _ => False) []). }
  apply wp_query; [intros e _; by apply Hdefer|].
  destruct (DomainByID _ _) as [d|e] eqn:Ed; [|by apply Hdefer].
  apply wp_bind. rewrite Hid. apply wp_blob_Get.
  - (* unreadable body *)
    intros e _. unfold unreadable. apply wp_bind.
    assert (Hrest : forall r1 s1, sees id s1 b r1 ss ns ->
      wp md (bounce cfg hostname os_hostname m (eachRecipient (EnvelopeTo m) Lost) ;;;
             record EventMailFailed m [(T "reason", JStr "body unreadable"%string)]) Q s1).
    { intros r1 s1 Hs1. apply wp_bind. eapply wp_bounce; [done|exact Hs1|]. intros s2 Hs2.
      eapply wp_record; [exact Hs2|]. intros s3 extra Hs3 Hextra. eapply (HQ s3 (fun _ => False) []); [exact Hs3|done|].
      intros rcpt _. right. left. eexists. split_and!; [apply list_elem_of_here|apply list_elem_of_here|].
      intros l. cbn. rewrite !elem_of_cons. intros [E|[E|E]]; try discriminate E. by apply Hextra in E. }
    eapply wp_update; [apply keeps_id_failed| |exact Hsees|intros e' s1 Hs1; by eapply Hrest|intros x s1 Hs1; by eapply Hrest].
    intros q. unfold MarkFailed. by rewrite Hid.
  - intros body rd Hbody Hrd. apply wp_bind, (wp_attempt d); [done|]. intros res new t Hres.
    destruct Hsees as (Hb & Hr & Hs & Hn).
    assert (Hspool : forall content, sends s m rd content ->
              exists body rd, b = Some body /\ (rd = of_text body \/ broken_ok md rd) /\ sends s m rd content).
    { intros content Hc. exists body, rd. split_and!; [congruence|tauto|done]. }
    assert (Hs1 : sees id (set_s_sent (new ++ s_sent s) (set_s_now t s)) b (Some r) (new ++ ss) ns)
      by (split_and!; cbn; try done; by rewrite Hs).
    assert (Hdefer' : forall reason, wp md (count MessagesDeferred 1 ;;; defer_ cfg m reason) Q
              (set_s_sent (new ++ s_sent s) (set_s_now t s))).
    { intros reason. apply wp_bind. eapply wp_count_sees; [exact Hs1|]. intros s2 Hs2.
      eapply (wp_defer_fate m reason (sends s m rd) new); [done|exact Hs2|done|done|].
      intros s' b' r' ns' Hs' Hf. by eapply HQ. }
    destruct res as [res|err].
    + destruct Hres as (skipped & Hc & Hin).
      assert (skipped = []) as ->. { destruct Hdl as [?|?]; [auto|]. apply Hc. done. }
      eapply wp_settle; [done|done|exact Hs1|done|done|exact Hc|]. intros s' b' r' ns' Hs' Hf. by eapply HQ.
    + destruct (as_smtp err) as [reply|]; [|apply Hdefer'].
      destruct (code_5xx reply); [|apply Hdefer'].
      unfold refused. apply wp_bind. eapply wp_count_sees; [exact Hs1|]. intros s2 Hs2. apply wp_bind.
      assert (Hrest : forall r3 s3, sees id s3 b r3 (new ++ ss) ns ->
        wp md (bounce cfg hostname os_hostname m (eachRecipient (EnvelopeTo m) (fun rcpt => FromError rcpt err)) ;;;
               blob_Delete (ID m) ;;;
               record EventMailFailed m [(T "domain", JStr (DName d)); (T "code", JNum (Code reply));
                 (T "error", JStr (error_text err))]) Q s3).
      { intros r3 s3 Hs3. apply wp_bind. eapply wp_bounce; [done|exact Hs3|]. intros s4 Hs4.
        apply wp_bind. rewrite Hid. eapply wp_delete_sees; [exact Hs4|]. intros x s5 b5 Hs5 _.
        eapply wp_record; [exact Hs5|]. intros s6 extra Hs6 Hextra. eapply (HQ s6 (sends s m rd) new); [exact Hs6|done|].
        intros rcpt _. right. left. eexists. split_and!; [apply list_elem_of_here|apply list_elem_of_here|].
        intros l. cbn. rewrite !elem_of_cons. intros [E|[E|[E|[E|E]]]]; try discriminate E. by apply Hextra in E. }
      eapply wp_update; [apply keeps_id_failed| |exact Hs2|intros e' s3 Hs3; by eapply Hrest|intros x s3 Hs3; by eapply Hrest].
      intros q. unfold MarkFailed. by rewrite Hid.
Qed.
End one.
End facts.
