(* ===== verification/SenderProps.v ===== *)
(** * Properties of the delivery workers *)

From S2P Require Import Arc.
From S2P Require Import Prelude RateLimit GoStrings Times Net Errors Backoff StoreTypes.
From S2P Require Import StoreQueue QueueFacts QueueProps StoreDomains Filter Routes StoreUsers.
From S2P Require Import Spam Authres Dsn World Outbound OutboundFacts Sender SenderFacts.
From Stdlib Require Import QArith.
Open Scope Z_scope.

(** ** A concrete environment, for the witnesses *)

Definition sample_smtp : SmtpLib :=
  {| smtp_error_text := fun e => dec (Code e) ++ " "%string ++ Message e;
     ErrAuthRequired := SMTPError 502 (Enh 5 7 0) "Please authenticate first"%string;
     ErrAuthFailed := SMTPError 535 (Enh 5 7 8) "Authentication failed"%string; ErrAuthUnsupported := SMTPError 504 (Enh 5 7 4) [] |}.

Definition sample_resolver : Resolver :=
  {| LookupMX := fun d =>
       if bool_decide (d = "null.example"%string) then ([MX "."%string 0], None)
       else if bool_decide (d = "none.example"%string) then ([], Some (EDNS true "no such host"%string))
       else ([MX ("b."%string ++ d ++ "."%string) 20; MX ("a."%string ++ d ++ "."%string) 10], None);
     LookupHost := fun d => Some (EDNS true "no such host"%string) |}.

Definition sample_signatures : SignatureLib :=
  {| rsa_key := unit; ParsePKIXPublicKey := fun _ => None; ParsePKCS1PublicKey := fun _ => None; BitLen := fun _ => 2048;
     VerifyPKCS1v15 := fun _ _ _ => false; ed25519_Verify := fun _ digest sig => bool_decide (digest = sig);
     private_key := unit; ed25519_public := fun _ => true; key_Sign := fun _ digest => Ok digest |}.

Definition sample_crypto : Crypto :=
  {| Unseal := Ok; signer := unit; NewSigner := fun _ _ _ => Ok tt;
     Sign := fun _ r => match ReadAll r with (d, None, _) => Ok d | (_, Some e, _) => Err e end;
     crypto_signatures := sample_signatures; ParsePrivate := fun _ => Ok tt |}.

#[local] Existing Instance sample_smtp.
#[local] Existing Instance sample_resolver.
#[local] Existing Instance sample_crypto.

Definition sample_cfg : QueueConfig :=
  {| MaxMessages := 0; MaxBytes := 0; Retention := 120 * hour; Workers := 2; RetryBase := minute; RetryMax := 2 * hour;
     DeliveryTimeout := 2 * minute; Bounces := BouncesAuthenticated; AllowPrivateDestinations := false |}.

Definition sample_outbound : OutboundConfig :=
  {| oc_Enabled := true; oc_Mode := "direct"%string; oc_RelayHost := []; oc_RelayPort := 587;
     oc_RelayTLS := "starttls"%string; oc_RelayUsername := []; oc_RelayPassword := [] |}.

(** A server that refuses one recipient and takes everything else. *)
Definition picky (bad : text) : peer := fun _ c =>
  if bool_decide (c = CRcpt bad) then Some (ESMTP (SMTPError 550 (Enh 5 1 1) "no such user"%string)) else None.

Definition out_message : message :=
  Msg "0a0b"%string 1 "me@example.com"%string [T "x@one.example"; T "y@two.example"] "hi"%string 5 0
    (120 * hour) StatusDelivering 0 0 [] None [] DirectionOutbound None [] None [] [] false [].

Definition sample_state (m : message) : state :=
  set_s_domains (DomainTables
      [Domain 1 "example.com"%string "mail.example.com"%string 25 "opportunistic"%string None None 0 true 0 0] ∅ 2)
    (set_s_queue [QRow m (Some 0) "w"%string] (set_s_blobs {[ ID m := T "hello" ]} blank)).

Definition sample_env (dials : list (error + peer)) (ctx : list bool) : env :=
  set_e_ids [Some (T "b0b0"); Some (T "n0n0"); Some (T "1d1d")] (set_e_dials dials (set_e_ctx ctx quiet)).

(** ** One transaction *)

(** When a transaction succeeds, each recipient is in exactly one of three classes, with
    a permanent error for a refused one and none for a deferred one, and the server has
    acknowledged, at the end of the data, one message with exactly the accepted
    recipients and the whole content: the added headers and the body to its end.  When
    nobody was accepted it has acknowledged nothing. *)
Theorem transmit_partitions from to body extra ses rest s e :
  s_sent s = ses :: rest ->
  match transmit from to body extra (World s e) with
  | (Ok res, w') => exists ses', s_sent (st w') = ses' :: rest /\ partition to res /\
      (if bool_decide (accepted res = []) then peer_accepted (sl_log ses') = peer_accepted (sl_log ses)
       else exists data rem, ReadAll body = (data, None, rem) /\
         peer_accepted (sl_log ses') = peer_accepted (sl_log ses) ++ [(from, accepted res, extra ++ data)])
  | (Err _, _) => True
  end.
Proof.
  intros Es.
  set (md := any).
  set (Q := fun (r : result recipients) (s' : state) => match r with
    | Ok res => exists ses', s_sent s' = ses' :: rest /\ partition to res /\
      (if bool_decide (accepted res = []) then peer_accepted (sl_log ses') = peer_accepted (sl_log ses)
       else exists data rem, ReadAll body = (data, None, rem) /\
         peer_accepted (sl_log ses') = peer_accepted (sl_log ses) ++ [(from, accepted res, extra ++ data)])
    | Err _ => True end).
  assert (Hwp : wp md (transmit from to body extra) Q s).
  { eapply wp_transmit; [done|]. intros [res|err] ses' _ Hr; [|done]. exists ses'. by split. }
  pose proof (allows_any e) as Ha.
  pose proof (wp_run md _ _ _ _ Ha Hwp) as H. destruct (transmit from to body extra (World s e)) as [[res|err] w']; exact H.
Qed.

Lemma transmit_partitions_witness :
  let s := set_s_sent [SessionLog "mx"%string 25 "none"%string "h"%string true []] (sample_state out_message) in
  let e := set_e_peer (picky "y@two.example"%string) (sample_env [] []) in
  exists res w', transmit "me@example.com"%string (EnvelopeTo out_message) (of_text "hello"%string) [] (World s e) = (Ok res, w') /\
    accepted res = [T "x@one.example"] /\ partition (EnvelopeTo out_message) res.
Proof.
  intros s e.
  pose proof (transmit_partitions "me@example.com"%string (EnvelopeTo out_message) (of_text "hello"%string) []
    (SessionLog "mx"%string 25 "none"%string "h"%string true []) [] s e eq_refl) as H.
  destruct (transmit _ _ _ _ _) as [[res|err] w'] eqn:E; [|vm_compute in E; discriminate].
  exists res, w'. split; [done|]. destruct H as (ses' & _ & Hp & _). split; [|done].
  vm_compute in E. by injection E as <- _.
Defined.

(** An attempt whose body stops being readable half-way is reported as a failure, to be
    retried, although the stream was closed the way a complete message is: the server
    acknowledged, and keeps, a truncated one. *)
Theorem transmit_truncates :
  let s := set_s_sent [SessionLog "mx"%string 25 "none"%string "h"%string true []] (sample_state out_message) in
  let e := set_e_peer (fun _ _ => None) (sample_env [] []) in
  let body := [inl (T "Subject: x"); inr (ESentinel ErrCorrupt "blob: corrupt or tampered file"%string)] in
  match transmit "a@example.com"%string [T "b@example.org"] body [] (World s e) with
  | (Err err, w') => permanent err = false /\
      handed_over (s_sent (st w')) = [(T "a@example.com", [T "b@example.org"], T "Subject: x")]
  | _ => False
  end.
Proof. vm_compute. done. Qed.

(** ** Whole deliveries *)






(** Reading the body of an inbound message fails once, and what is left of it then reads to an end: the rest alone is
    handed over as the message, acknowledged, and the body is removed. *)
Theorem sealARC_sends_the_rest :
  let m := Msg "0a0b"%string 1 "me@example.com"%string [T "x@example.com"] "hi"%string 5 0
    (120 * hour) StatusDelivering 0 0 [] None [] DirectionInbound None [] None [] [] false [] in
  let broken := [inl (T "Subject: the head"); inr (ESentinel ErrCorrupt "blob: corrupt or tampered file"%string); inl (T "the last chunk")] in
  let s := sample_state m in
  let e := set_e_blobs [BlobBroken broken] (sample_env [inr (fun _ _ => None)] []) in
  let '(_, w') := deliver sample_cfg sample_outbound "mx.example.net"%string None (fun h => (h, 25)) m (World s e) in
  handed_over (s_sent (st w')) = [(T "me@example.com", [T "x@example.com"], spamHeaders m ++ T "the last chunk")] /\
  s_blobs (st w') !! ID m = None.
Proof. vm_compute. done. Qed.

(** A direct delivery whose time runs out after the first domain forgets the recipients
    of the domains it did not reach: they were handed to no server, named in no report,
    and are on no row. *)
Theorem sendDirect_forgets :
  let s := sample_state out_message in
  let e := sample_env [inl (ESentinel ErrContext "context deadline exceeded"%string);
                       inl (ESentinel ErrContext "context deadline exceeded"%string)] [true] in
  let '(_, w') := deliver sample_cfg sample_outbound "mx.example.net"%string None (fun h => (h, 25)) out_message (World s e) in
  handed_over (s_sent (st w')) = [] /\
  List.filter (fun n => bool_decide (fst n = EventMailFailed)) (s_notes (st w')) = [] /\
  map (fun r => EnvelopeTo (q_msg r)) (s_queue (st w')) = [[T "x@one.example"]].
Proof. vm_compute. done. Qed.

(** ** Bounces *)

(** A report about a report is never sent. *)
Lemma bounce_of_bounce `{SmtpLib} cfg hostname os_hostname m id n now failures w :
  bounce cfg hostname os_hostname (bounce_message cfg m id n now) failures w = (tt, w).
Proof. unfold bounce, shouldBounce. cbn. by rewrite !andb_false_r, orb_true_r. Qed.

Section bounces.
Context `{SmtpLib} (cfg : QueueConfig) (hostname : text) (os_hostname : option text).

(** What a bounce may do to the queue and the spool. *)
Definition bounced (m : message) (failures : list Failure) (s s' : state) : Prop :=
  (s_queue s' = s_queue s /\ (forall i body, s_blobs s !! i = Some body -> s_blobs s' !! i = Some body)) \/
  (exists id raw headers now tokens, shouldBounce cfg m = true /\ failures <> [] /\
     Build tokens (bounce_report hostname os_hostname m failures headers) now = Ok raw /\
     s_blobs s !! id = None /\ s_blobs s' = <[id := raw]> (s_blobs s) /\
     s_queue s' = s_queue s ++ [enqueued (bounce_message cfg m id (Z.of_nat (length raw)) now)]).

Lemma wp_queue_bounce md m failures id raw headers now tokens s Q :
  s_blobs s !! id = None -> shouldBounce cfg m = true -> failures <> [] ->
  Build tokens (bounce_report hostname os_hostname m failures headers) now = Ok raw ->
  (forall s', bounced m failures s s' -> Q tt s') ->
  wp md (queue_bounce cfg m id raw now) Q s.
Proof.
  intros Hid Hsb Hf Hraw HQ. unfold queue_bounce.
  assert (Hdel : forall s', s_queue s' = s_queue s -> (s_blobs s' = s_blobs s \/ s_blobs s' = <[id := raw]> (s_blobs s)) ->
    wp md (blob_Delete id ;;; ret tt) Q s').
  { intros s' Hq Hb. apply wp_bind, wp_blob_Delete; [intros e _|intros _]; apply wp_ret, HQ; left;
      (split; [done|]); intros i body Hi; cbn; assert (i <> id) by congruence;
      rewrite ?lookup_delete_ne by done; destruct Hb as [->| ->]; by rewrite ?lookup_insert_ne by done. }
  apply wp_bind, wp_blob_Put; [intros e; apply Hdel; auto|].
  intros data err rem _ Hread _ _ _. apply ReadAll_of_text in Hread as [-> _].
  apply wp_bind, wp_statement; [intros e _; apply Hdel; auto|].
  cbn [s_queue set_s_blobs s_domains]. unfold Enqueue.
  destruct (existsb _ (s_queue s)); [|destruct (negb _)]; cbn -[bounce_message enqueued];
    [apply Hdel; auto..|]. apply wp_ret, HQ. right. by exists id, raw, headers, now, tokens.
Qed.

Lemma wp_bounce_full md m failures s Q :
  (forall i, id_ok md i -> s_blobs s !! i = None) ->
  (forall s', bounced m failures s s' -> Q tt s') ->
  wp md (bounce cfg hostname os_hostname m failures) Q s.
Proof.
  intros Hfresh HQ. assert (Hno : forall s', s_queue s' = s_queue s -> s_blobs s' = s_blobs s -> Q tt s').
  { intros s' Hq Hb. apply HQ. left. by rewrite Hb. }
  unfold bounce. destruct (bool_decide (failures = [])) eqn:Ef; [by apply wp_ret, Hno|].
  destruct (shouldBounce cfg m) eqn:Es; cbn [orb negb]; [|by apply wp_ret, Hno]. bools.
  apply wp_bind. unfold original_headers.
  eapply (wp_keeps (fun s => (s_queue s, s_blobs s))) with (P := fun _ s' => s' = s).
  { keeps. }
  { apply wp_bind, wp_blob_Get; intros; by apply wp_ret. }
  intros headers s' _ ->. apply wp_bind, wp_now. intros t _. apply wp_bind, wp_new_id. intros bd _.
  apply wp_bind, wp_new_id. intros nonce _. destruct (Build _ _ _) as [raw|e] eqn:Eb; [|by apply wp_ret, Hno].
  apply wp_bind, wp_new_id. intros [i|] Hi; [|by apply wp_ret, Hno].
  eapply (wp_queue_bounce md m failures i raw headers t (bd, nonce)); try done.
  by apply Hfresh, Hi.
Qed.
End bounces.

(** C15: a bounce touches nothing but what it adds, and adds at most one message: it is
    queued only when bounces are on, the original has a sender, and that sender is the
    server's own user or was authenticated on arrival (no backscatter); it has the null
    sender, goes to the original's sender alone, its report is in the spool, and nothing
    that later happens to it can cause another bounce. *)
Theorem bounce_no_backscatter `{SmtpLib} cfg hostname os_hostname m failures s e :
  Forall (fun i => match i with Some i => s_blobs s !! i = None | None => True end) (e_ids e) ->
  let '(_, w') := bounce cfg hostname os_hostname m failures (World s e) in
  let s' := st w' in
  (s_queue s' = s_queue s /\ (forall i body, s_blobs s !! i = Some body -> s_blobs s' !! i = Some body)) \/
  (exists id raw n now, s_blobs s !! id = None /\ s_blobs s' = <[id := raw]> (s_blobs s) /\
     s_queue s' = s_queue s ++ [enqueued (bounce_message cfg m id n now)] /\
     Bounces cfg = BouncesAuthenticated /\ EnvelopeFrom m <> [] /\
     (MDirection m = DirectionOutbound \/ SenderAuthenticated m = true) /\
     EnvelopeFrom (bounce_message cfg m id n now) = [] /\
     EnvelopeTo (bounce_message cfg m id n now) = [EnvelopeFrom m] /\
     forall fs w, bounce cfg hostname os_hostname (bounce_message cfg m id n now) fs w = (tt, w)).
Proof.
  intros Hids. set (md := Assume false false false (fun i => s_blobs s !! i = None) (fun _ => True)).
  assert (Ha : allows md e) by (split_and!; [done..|by apply all_broken_ok]).
  assert (Hwp : wp md (bounce cfg hostname os_hostname m failures)
    (fun _ s' => bounced cfg hostname os_hostname m failures s s') s) by (by apply wp_bounce_full).
  pose proof (wp_run md _ _ _ _ Ha Hwp) as Hrun.
  destruct (bounce cfg hostname os_hostname m failures (World s e)) as [u w'].
  destruct Hrun as [?|(id & raw & headers & now & tokens & Hsb & Hf & Hraw & Hid & Hbl & Hq)]; [by left|].
  right. exists id, raw, (Z.of_nat (length raw)), now. unfold shouldBounce in Hsb. bools.
  split_and!; try done.
  - match goal with H : (_ || _)%bool = true |- _ => apply orb_true_iff in H as [?|?] end; bools; auto.
  - intros fs w. apply bounce_of_bounce.
Qed.

Lemma bounce_no_backscatter_witness :
  let s := sample_state out_message in
  let e := sample_env [] [] in
  let '(_, w') := bounce sample_cfg "mx.example.net"%string None out_message [Lost "x@one.example"%string] (World s e) in
  length (s_queue (st w')) = 2%nat /\ map (fun r => EnvelopeTo (q_msg r)) (drop 1 (s_queue (st w'))) = [[T "me@example.com"]].
Proof.
  intros s e.
  assert (Forall (fun i => match i with Some i => s_blobs s !! i = None | None => True end) (e_ids e)) as Hids.
  { repeat constructor; vm_compute; reflexivity. }
  pose proof (bounce_no_backscatter sample_cfg "mx.example.net"%string None out_message [Lost "x@one.example"%string] s e Hids) as H.
  destruct (bounce _ _ _ _ _ _) as [u w'] eqn:E. cbv zeta in H.
  destruct H as [[Hq _]|(id & raw & n & now & _ & _ & -> & _ & _ & _ & _ & _ & _)].
  - exfalso. assert (length (s_queue (st w')) = 2%nat) as Hl.
    { change w' with (snd (u, w')). rewrite <- E. vm_compute. reflexivity. }
    by rewrite Hq in Hl.
  - split; reflexivity.
Defined.

(** ** Exchangers *)

Lemma mx_hosts_Ok domain records hosts :
  mx_hosts domain records = Ok hosts ->
  hosts = map (fun r => trim_suffix "."%string (mx_Host r)) records /\ Forall (fun h => h <> []) hosts.
Proof.
  revert hosts. induction records as [|r records IH]; intros hosts; cbn -[trim_suffix]; [intros [= <-]; by constructor|].
  case_bool_decide; [done|]. destruct (mx_hosts domain records) as [hs|e]; [|done].
  intros [= <-]. destruct (IH hs eq_refl) as [-> ?]. split; [done|]. by constructor.
Qed.

Lemma mx_hosts_Err domain records e :
  mx_hosts domain records = Err e ->
  e = ESMTP (null_mx domain) /\ exists r, r ∈ records /\ trim_suffix "."%string (mx_Host r) = [].
Proof.
  induction records as [|r records IH]; cbn -[trim_suffix null_mx]; [done|].
  case_bool_decide as Hr.
  - intros [= <-]. split; [done|]. exists r. split; [apply list_elem_of_here|done].
  - destruct (mx_hosts domain records) as [hs|e']; [done|]. intros [= ->].
    destruct (IH eq_refl) as (-> & x & ? & ?). split; [done|]. exists x. split; [by apply list_elem_of_further|done].
Qed.

(** The hosts of a domain are its exchangers, all of them, lowest preference first, and
    never an empty name; a null exchanger is a permanent refusal; the domain itself is
    tried only when it has no exchanger and an address, and a domain with neither is a
    permanent refusal; any other resolver failure is passed on, to be retried. *)
Theorem lookupMX_order `{Resolver} domain :
  let '(records, err) := LookupMX domain in
  match lookupMX domain with
  | Ok hosts =>
      (records <> [] /\ Forall (fun h => h <> []) hosts /\
       exists sorted, hosts = map (fun r => trim_suffix "."%string (mx_Host r)) sorted /\
         sorted ≡ₚ records /\ Sorted pref_le sorted) \/
      (records = [] /\ hosts = [domain] /\ LookupHost domain = None)
  | Err e =>
      (err = Some e /\ notFound e = false) \/
      (e = ESMTP (null_mx domain) /\ permanent e = true /\
         exists r, r ∈ records /\ trim_suffix "."%string (mx_Host r) = []) \/
      (records = [] /\ exists a, LookupHost domain = Some a /\
         e = if notFound a then ESMTP (no_mail domain) else a)
  end.
Proof.
  unfold lookupMX. destruct (LookupMX domain) as [records err].
  assert (Hrec : match (match records with [] => no_records domain | _ => mx_hosts domain (merge_sort pref_le records) end) with
    | Ok hosts =>
      (records <> [] /\ Forall (fun h => h <> []) hosts /\
       exists sorted, hosts = map (fun r => trim_suffix "."%string (mx_Host r)) sorted /\
         sorted ≡ₚ records /\ Sorted pref_le sorted) \/
      (records = [] /\ hosts = [domain] /\ LookupHost domain = None)
    | Err e =>
      (err = Some e /\ notFound e = false) \/
      (e = ESMTP (null_mx domain) /\ permanent e = true /\
         exists r, r ∈ records /\ trim_suffix "."%string (mx_Host r) = []) \/
      (records = [] /\ exists a, LookupHost domain = Some a /\
         e = if notFound a then ESMTP (no_mail domain) else a)
    end).
  { destruct records as [|r0 records0] eqn:Er.
    - unfold no_records. destruct (LookupHost domain) as [a|] eqn:Ea; [|right; auto].
      destruct (notFound a) eqn:En; right; right; (split; [done|]); exists a; by rewrite En.
    - rewrite <- Er. assert (Hne : records <> []) by (by rewrite Er).
      destruct (mx_hosts domain (merge_sort pref_le records)) as [hosts|e] eqn:Eh.
      + apply mx_hosts_Ok in Eh as [-> Hall]. left. split_and!; [done|done|].
        exists (merge_sort pref_le records). split_and!; [done|apply merge_sort_Permutation|].
        assert (base.Total pref_le) by (intros x y; unfold pref_le; lia).
        apply (Sorted_merge_sort pref_le).
      + apply mx_hosts_Err in Eh as (-> & r & Hr & Ht). right. left. split_and!; [done|done|].
        exists r. by rewrite merge_sort_Permutation in Hr. }
  destruct err as [e|]; [destruct (notFound e) eqn:En|]; [exact Hrec|left; done|exact Hrec].
Qed.
