(* ===== verification/Smtpd.v ===== *)
(** * The intake (internal/smtpd)

    The handlers go-smtp calls for one connection: [newSession], [Mail], [Rcpt], [Data],
    [Reset].  A handler returns the reply ([None] is success) and the session after it.
    What the handlers ask of other services (the disk, the blocklists, rspamd, ClamAV,
    SPF, DKIM and the keys of ARC) is an argument: the answer of the service, or a function from
    what it is asked.  Logging is left out; [ServerConfig] says which optional parts the
    server was given. *)

From S2P Require Import Prelude Arc GoStrings Net Errors Dnsbl Clamav.
From S2P Require Import Times Backoff StoreTypes StoreQueue.
From S2P Require Import StoreDomains MailUtil Filter Routes Spam Authres World Outbound.
From Stdlib Require Import QArith.
Open Scope Z_scope.

(** ** The services *)

(** [clamav.Scanner]: its configuration and its [Scan] ([Clamav.Scan_]). *)
Record Scanner := {
  cl_Enabled : bool;
  cl_MaxSize : Z;
  cl_Action : text;
  cl_Scan : reader -> result clamav_result
}.

(** [authres.Checker]: the SPF verdict, the DKIM signatures, and what the ARC verdict is
    computed from. *)
Record AuthChecker := {
  ac_SPF : option ip -> text -> text -> text;
  ac_DKIM : reader -> list Signature;
  ac_signatures : SignatureLib;
  ac_LookupTXT : text -> result (list text)
}.

(** [Checker.ARC]. *)
Definition ac_ARC `{SmtpLib} (ac : AuthChecker) (r : reader) : text :=
  match ReadAll r with
  | (_, Some _, _) => "temperror"%string
  | (raw, None, _) => r_CV (Verify (H0 := ac_signatures ac) (ac_LookupTXT ac) raw)
  end.

Record ServerConfig `{RegexpLib} := {
  srv_MaxMessageBytes : Z;
  srv_queue : QueueConfig;
  srv_Domain : text;
  srv_zone : Z;                                  (* minutes east of UTC, for the trace *)
  srv_notify : bool;
  srv_filters : option (list compiled);
  srv_spam : option (SpamConfig * (text -> list (text * text) -> http_reply));
  srv_spamDefer : bool;
  srv_clamav : option Scanner;
  srv_auth : option AuthChecker;
  srv_minDisk : Z
}.

(** ** The session *)

Record conn := { c_Hostname : text; c_TLS : bool }.

Record session := Ses {
  ss_conn : option conn;
  ss_remote : text;
  ss_from : text;
  ss_rcpts : list text;
  ss_domainID : Z;
  ss_domain : text
}.

Definition Reset (s : session) : session := Ses (ss_conn s) (ss_remote s) [] [] 0 [].

Definition reply (code a b c : Z) (msg : text) : option smtp_error := Some (SMTPError code (Enh a b c) msg).

Definition tempError (msg : text) : option smtp_error := reply 451 4 3 0 msg.

Definition draining : option smtp_error :=
  reply 421 4 3 2 "Service temporarily unavailable, server is draining for maintenance"%string.

Definition truncateReason (s : text) : text := if (200 <? length s)%nat then take 200 s else s.

Definition helo_of (s : session) : text := match ss_conn s with Some c => c_Hostname c | None => [] end.

(** [recordEvent]. *)
Definition recordEvent (s : session) (typ : text) (queueID : option text) (data : jmap) : M unit :=
  let data := data ++ [(T "remote", JStr (hostOf (ss_remote s)))]
    ++ (if bool_decide (helo_of s = []) then [] else [(T "helo", JStr (helo_of s))]) in
  record_event (Event typ (if ss_domainID s =? 0 then None else Some (ss_domainID s)) queueID None data).

(** [64<<10], the bytes of a message read ahead for its headers. *)
Definition peekLimit : nat := Z.to_nat 65536.
#[global] Opaque peekLimit.

Section smtpd.
Context `{SmtpLib} `{RegexpLib} `{PublicSuffix}.
Context (srv : ServerConfig).

Definition notify (event : text) (payload : jmap) : M unit :=
  if srv_notify srv then Notify event payload else ret tt.

(** ** [newSession] *)

Definition newSession (isDraining : bool) (dnsbl : option dnsbl_result) (remote : text) (c : option conn)
  : M (smtp_error + session) :=
  count SMTPConnections 1 ;;;
  if isDraining then
    count MessagesRejected 1 ;;;
    ret (inl (SMTPError 421 (Enh 4 3 2) "Service temporarily unavailable, server is draining for maintenance"%string))
  else
    match dnsbl with
    | Some res =>
        if bl_Listed res then
          count MessagesRejected 1 ;;;
          record_event (Event EventMailRejected None None None
            [(T "reason", JStr "dnsbl"%string); (T "remote", JStr (hostOf remote));
             (T "zone", JStr (bl_Zone res)); (T "record", JStr (bl_Record res))]) ;;;
          ret (inl (SMTPError 554 (Enh 5 7 1)
            ("Client host ["%string ++ hostOf remote ++ "] blocked using "%string ++ bl_Zone res)))
        else ret (inr (Ses c remote [] [] 0 []))
    | None => ret (inr (Ses c remote [] [] 0 []))
    end.

(** ** [Mail] *)

Definition queue_full (s : session) (data : jmap) (msg : text) : M (session * option smtp_error) :=
  count MessagesRejected 1 ;;;
  recordEvent s EventQueueFull None data ;;;
  notify EventQueueFull data ;;;
  ret (s, reply 452 4 3 1 msg).

(** [isDraining] and [disk] are what the maintenance flag and the disk check say. *)
Definition Mail (isDraining : bool) (disk : option (result Z)) (from : text) (s : session)
  : M (session * option smtp_error) :=
  if isDraining then count MessagesRejected 1 ;;; ret (s, draining)
  else
    let low := match disk with
               | Some (Ok avail) => if (0 <? srv_minDisk srv) && (avail <? srv_minDisk srv) then Some avail else None
               | _ => None
               end in
    match low with
    | Some avail =>
        queue_full s [(T "reason", JStr "disk_space"%string); (T "available_bytes", JNum avail);
                      (T "min_required", JNum (srv_minDisk srv))]
          "Insufficient system storage, try again later"%string
    | None =>
        let* stats := query (fun st => Ok (Stats (s_queue st))) in
        match stats with
        | Err _ => ret (s, tempError "temporarily unable to accept mail"%string)
        | Ok stats =>
            let q := srv_queue srv in
            if ((0 <? MaxMessages q) && (MaxMessages q <=? Pending stats))
               || ((0 <? MaxBytes q) && (MaxBytes q <=? PendingBytes stats)) then
              queue_full s [(T "pending", JNum (Pending stats)); (T "pending_bytes", JNum (PendingBytes stats))]
                "Insufficient storage, try again later"%string
            else ret (Ses (ss_conn s) (ss_remote s) from (ss_rcpts s) (ss_domainID s) (ss_domain s), None)
        end
    end.

(** ** [Rcpt] *)

Definition relay_denied : option smtp_error := reply 550 5 7 1 "Relay access denied"%string.

(** The cap on one domain's queue; [None] when there is room. *)
Definition domain_cap (s : session) (d : domain) (domainName : text) : M (option smtp_error) :=
  match MaxQueueMessages d with
  | None => ret None
  | Some max =>
      if negb (0 <? max) then ret None
      else
        let* pending := query (fun st => Ok (CountPendingForDomain (DID d) (s_queue st))) in
        match pending with
        | Err _ => ret (tempError "temporarily unable to accept mail"%string)
        | Ok pending =>
            if max <=? pending then
              let full := [(T "reason", JStr "domain_cap"%string); (T "domain", JStr domainName);
                           (T "pending", JNum pending); (T "max_queue_messages", JNum max)] in
              count MessagesRejected 1 ;;;
              record_event (Event EventQueueFull (Some (DID d)) None None full) ;;;
              notify EventQueueFull full ;;;
              ret (reply 452 4 3 1 "Recipient domain queue is full, try again later"%string)
            else ret None
        end
  end.

Definition Rcpt (to : text) (s : session) : M (session * option smtp_error) :=
  match last_index "@"%char to with
  | None => ret (s, reply 501 5 1 3 "Malformed recipient address"%string)
  | Some at_ =>
      if (S at_ =? length to)%nat then ret (s, reply 501 5 1 3 "Malformed recipient address"%string)
      else
        let domainName := to_lower (drop (S at_) to) in
        let* d := query (fun st => DomainByName domainName (dt_domains (s_domains st))) in
        match d with
        | Err e =>
            if is_sentinel ErrNotFound e then count MessagesRejected 1 ;;; ret (s, relay_denied)
            else ret (s, tempError "temporarily unable to verify recipient"%string)
        | Ok d =>
            if negb (DEnabled d) then ret (s, relay_denied)
            else if negb (ss_domainID s =? 0) && negb (ss_domainID s =? DID d) then
              ret (s, reply 452 4 5 3 "Too many recipient domains in one transaction"%string)
            else
              let* known := query (fun st => Ok (RecipientAllowed (DID d) to (s_recipients st))) in
              match known with
              | Err _ => ret (s, tempError "temporarily unable to verify recipient"%string)
              | Ok false =>
                  count MessagesRejected 1 ;;;
                  ret (s, reply 550 5 1 1 "Recipient address rejected: user unknown"%string)
              | Ok true =>
                  let* full := domain_cap s d domainName in
                  match full with
                  | Some e => ret (s, Some e)
                  | None => ret (Ses (ss_conn s) (ss_remote s) (ss_from s) (ss_rcpts s ++ [to]) (DID d) (DName d), None)
                  end
              end
        end
  end.

(** ** [Data] *)

Definition trace (s : session) (id : text) (now : Z) : text :=
  Header (srv_zone srv)
    {| Helo := helo_of s; Remote := ss_remote s; By := srv_Domain srv;
       TProtocol := match ss_conn s with Some c => Protocol (c_TLS c) false | None => Protocol false false end;
       TID := id; Recipient := match ss_rcpts s with [r] => r | _ => [] end; At := now |}.

(** [checkSpam]. *)
Definition checkSpam (s : session) (id : text) (size : Z) : M spam_verdict :=
  match srv_spam srv with
  | None => ret (skip [])
  | Some (cfg, exchange) =>
      if negb (spam_Enabled cfg) then ret (skip [])
      else
        let* body := blob_Get id in
        ret match body with
            | Err _ => skip []
            | Ok _ => spam_Check cfg {| se_From := ss_from s; se_To := ss_rcpts s; se_HeloName := helo_of s;
                        se_RemoteAddr := ss_remote s; se_QueueID := id |} size exchange
            end
  end.

Definition errTooLargeToScan : error := ESentinel ErrTooLargeToScan "larger than clamav.max_size_bytes"%string.

(** [checkMalware]: [Ok None] when nothing scans. *)
Definition checkMalware (id : text) (size : Z) : M (result (option clamav_result)) :=
  match srv_clamav srv with
  | None => ret (Ok None)
  | Some sc =>
      if negb (cl_Enabled sc) then ret (Ok None)
      else if (0 <? cl_MaxSize sc) && (cl_MaxSize sc <? size) then ret (Err errTooLargeToScan)
      else
        let* body := blob_Get id in
        ret match body with
            | Err e => Err (EWrap "read the spooled body"%string e)
            | Ok r => match cl_Scan sc r with Ok res => Ok (Some res) | Err e => Err e end
            end
  end.

(** [startSPF] and [checkAuth]. *)
Definition checkAuth (s : session) (id : text) (hasARC : bool) : M auth_result :=
  match srv_auth srv with
  | None => ret no_auth
  | Some ac =>
      let res := spf_result (ac_SPF ac (ParseIP (hostOf (ss_remote s))) (helo_of s) (ss_from s))
                   (helo_of s) (ss_from s) in
      let* body := blob_Get id in
      match body with
      | Err _ => ret res
      | Ok body =>
          let with_arc a := {| SPF := SPF res; SPFDomain := SPFDomain res; SPFHelo := SPFHelo res;
                               DKIM := ac_DKIM ac body; ARC := a |} in
          if hasARC then
            let* body := blob_Get id in
            ret match body with
                | Err _ => with_arc []
                | Ok body => with_arc (ac_ARC ac body)
                end
          else ret (with_arc CVNone)
      end
  end.

(** The filters' verdict: a refusal, or the reason for a quarantine. *)
Definition apply_filters (s : session) (id subject : text) : M (option smtp_error + text) :=
  match srv_filters srv with
  | None => ret (inr [])
  | Some rules =>
      let fv := Evaluate rules {| env_From := ss_from s; env_To := ss_rcpts s; env_Subject := subject |} in
      let matched := (let* now := now_ in
        statement (fun st => (Ok tt, set_s_filters (RecordFilterMatch (VFilterID fv) now (s_filters st)) st))) in
      if VReject fv then
        blob_Delete id ;;;
        count MessagesRejected 1 ;;;
        matched ;;;
        recordEvent s EventMailRejected None
          [(T "reason", JStr "filter"%string); (T "filter", JStr (VName fv)); (T "field", JStr (VField fv));
           (T "from", JStr (ss_from s)); (T "to", JStrs (ss_rcpts s))] ;;;
        ret (inl (reply 550 5 7 1 "Message rejected by policy"%string))
      else if VQuarantine fv then matched ;;; ret (inr (Reason fv))
      else ret (inr [])
  end.

(** The spam verdict: a refusal, or go on. *)
Definition apply_spam (s : session) (id : text) (verdict : spam_verdict) : M (option (option smtp_error)) :=
  if sv_Reject verdict then
    blob_Delete id ;;;
    count MessagesRejected 1 ;;;
    recordEvent s EventMailRejected None
      [(T "reason", JStr "spam"%string); (T "score", JScore (sv_Score verdict));
       (T "from", JStr (ss_from s)); (T "to", JStrs (ss_rcpts s))] ;;;
    ret (Some (reply 550 5 7 1 "Message rejected as spam"%string))
  else if sv_Defer verdict && srv_spamDefer srv then
    blob_Delete id ;;;
    ret (Some (reply 451 4 7 1 "Try again later"%string))
  else ret None.

(** The malware verdict: a refusal, or what is recorded and the quarantine reason. *)
Definition apply_malware (s : session) (id : text) (res : result (option clamav_result)) (quarantine : text)
  : M (option smtp_error + text * text) :=
  match srv_clamav srv, res with
  | Some sc, Err e =>
      if is_sentinel ErrTooLargeToScan e
      then ret (inr ("skipped: larger than "%string ++ dec (cl_MaxSize sc) ++ " bytes"%string, quarantine))
      else ret (inr ("failed: "%string ++ truncateReason (error_text e), quarantine))
  | Some sc, Ok (Some r) =>
      if negb (cl_Infected r) then ret (inr (T "clean", quarantine))
      else if bool_decide (cl_Action sc = "reject"%string) then
        blob_Delete id ;;;
        count MessagesRejected 1 ;;;
        recordEvent s EventMailRejected None
          [(T "reason", JStr "malware"%string); (T "virus", JStr (cl_VirusName r));
           (T "from", JStr (ss_from s)); (T "to", JStrs (ss_rcpts s))] ;;;
        ret (inl (reply 554 5 7 1 ("Malware detected: "%string ++ cl_VirusName r)))
      else ret (inr ("infected: "%string ++ cl_VirusName r, "malware: "%string ++ cl_VirusName r))
  | _, _ => ret (inr ([], quarantine))
  end.

(** The row: what is known of the message when it is queued. *)
Definition intake_message (s : session) (id subject : text) (size now retention : Z)
  (verdict : spam_verdict) (auth : auth_result) (malwareScan : text) : message :=
  Msg id (ss_domainID s) (ss_from s) (ss_rcpts s) subject size now (now + retention) StatusQueued 0 now [] None
    (ss_remote s) DirectionInbound (if sv_Skipped verdict then None else Some (sv_Score verdict))
    (sv_Action verdict) None [] (auth_header auth) (Authenticates auth (ss_from s)) malwareScan.

(** The second statement, for a message to be held. *)
Definition hold (s : session) (id subject quarantine : text) : M unit :=
  if bool_decide (quarantine = []) then ret tt
  else
    let* now := now_ in
    let* r := on_queue (Quarantine id quarantine now) in
    match r with
    | Err _ => ret tt
    | Ok _ =>
        recordEvent s EventMailQuarantined (Some id)
          [(T "reason", JStr quarantine); (T "from", JStr (ss_from s)); (T "to", JStrs (ss_rcpts s))] ;;;
        notify EventMailQuarantined
          [(T "id", JStr id); (T "reason", JStr quarantine); (T "subject", JStr subject)]
    end.

Definition accept (s : session) (id subject : text) (written : Z) (malwareScan : text) : M (option smtp_error) :=
  count MessagesReceived 1 ;;;
  count BytesReceived written ;;;
  recordEvent s EventMailReceived (Some id)
    ([(T "from", JStr (ss_from s)); (T "to", JStrs (ss_rcpts s)); (T "bytes", JNum written);
      (T "domain", JStr (ss_domain s))]
     ++ (if bool_decide (malwareScan = []) || bool_decide (malwareScan = "clean"%string) then []
         else [(T "malware_scan", JStr malwareScan)])) ;;;
  notify EventMailReceived
    [(T "id", JStr id); (T "domain", JStr (ss_domain s)); (T "subject", JStr subject); (T "bytes", JNum written)] ;;;
  ret None.

(** Queueing, once every check has passed. *)
Definition enqueue_intake (s : session) (id subject : text) (written : Z) (verdict : spam_verdict)
  (auth : auth_result) (malwareScan quarantine : text) : M (option smtp_error) :=
  let* now := now_ in
  let* d := query (fun st => DomainByID (ss_domainID s) (dt_domains (s_domains st))) in
  let retention := match d with
                   | Ok d => if 0 <? RetentionHours d then RetentionHours d * hour else Retention (srv_queue srv)
                   | Err _ => Retention (srv_queue srv)
                   end in
  let msg := intake_message s id subject written now retention verdict auth malwareScan in
  let* r := statement (fun st =>
    let '(r, q) := Enqueue (dt_domains (s_domains st)) msg (s_queue st) in (r, set_s_queue q st)) in
  match r with
  | Err _ => blob_Delete id ;;; ret (tempError "temporarily unable to store message"%string)
  | Ok _ =>
      hold s id subject quarantine ;;;
      accept s id subject written malwareScan
  end.

(** What follows the spooling of the body. *)
Definition scan_and_queue (s : session) (id subject : text) (written : Z) (hasARC : bool) : M (option smtp_error) :=
  let* f := apply_filters s id subject in
  match f with
  | inl e => ret e
  | inr quarantine =>
      let* verdict := checkSpam s id written in
      let* refused := apply_spam s id verdict in
      match refused with
      | Some e => ret e
      | None =>
          let* malware := checkMalware id written in
          let* m := apply_malware s id malware quarantine in
          match m with
          | inl e => ret e
          | inr (malwareScan, quarantine) =>
              let* auth := checkAuth s id hasARC in
              enqueue_intake s id subject written verdict auth malwareScan quarantine
          end
      end
  end.

Definition Data (r : reader) (s : session) : M (session * option smtp_error) :=
  if (ss_domainID s =? 0) || bool_decide (ss_rcpts s = []) then
    ret (s, reply 554 5 5 1 "No valid recipients"%string)
  else
    let* id := new_id in
    match id with
    | None => ret (s, tempError "temporarily unable to accept mail"%string)
    | Some id =>
        let '(data, _, _) := ReadAll r in
        let peeked := fst (PeekHeaders data peekLimit) in
        let subject := ExtractSubject peeked in
        if (MaxHops <=? CountReceived peeked)%nat then
          count MessagesRejected 1 ;;;
          ret (s, reply 554 5 4 6 "Too many hops, mail loop detected"%string)
        else
          let* now := now_ in
          let tr := trace s id now in
          let* written := blob_Put id (inl tr :: r) (srv_MaxMessageBytes srv + Z.of_nat (length tr)) in
          match written with
          | Err e =>
              blob_Delete id ;;;
              ret (s, if contains "exceeds"%string (error_text e)
                      then reply 552 5 3 4 "Message exceeds maximum size"%string
                      else tempError "temporarily unable to store message"%string)
          | Ok written =>
              let* res := scan_and_queue s id subject written (HasHeader peeked "arc-seal"%string) in
              ret (s, res)
          end
    end.

(** ** The commands of a connection, as go-smtp dispatches them *)

Inductive input :=
| InMail (isDraining : bool) (disk : option (result Z)) (from : text)
| InRcpt (to : text)
| InData (r : reader)
| InReset.

Definition step (i : input) (s : session) : M (session * option smtp_error) :=
  match i with
  | InMail dr disk from => Mail dr disk from s
  | InRcpt to => Rcpt to s
  | InData r => Data r s
  | InReset => ret (Reset s, None)
  end.

Fixpoint run_session (inputs : list input) (s : session) : M session :=
  match inputs with
  | [] => ret s
  | i :: rest => let* r := step i s in run_session rest (fst r)
  end.
End smtpd.
