(* ===== verification/SmtpdProps.v ===== *)
(** * Properties of the intake *)

From S2P Require Import Dnsbl Clamav.
From S2P Require Import Prelude RateLimit GoStrings Times Net Errors Backoff StoreTypes.
From S2P Require Import StoreQueue QueueFacts QueueProps StoreDomains MailUtil Filter Routes.
From S2P Require Import StoreUsers Spam Authres World Outbound Smtpd.
From Stdlib Require Import QArith.
Open Scope Z_scope.

(** What the handlers decide on and what they leave behind. *)
Definition core (s : state) : queue * domain_tables * gmap Z (list text) * gmap text text :=
  (s_queue s, s_domains s, s_recipients s, s_blobs s).

Lemma core_eq s s' :
  core s' = core s ->
  s_queue s' = s_queue s /\ s_domains s' = s_domains s /\ s_recipients s' = s_recipients s /\ s_blobs s' = s_blobs s.
Proof. intros [=]. auto. Qed.

(** The parts no handler of the intake writes. *)
Definition configured (s : state) : domain_tables * gmap Z (list text) := (s_domains s, s_recipients s).

Section intake.
Context `{SmtpLib} `{RegexpLib} `{PublicSuffix}.
Context (md : mode) (srv : ServerConfig).

Lemma keeps_recordEvent s typ q data : keeps core (recordEvent s typ q data).
Proof. unfold recordEvent. keeps. Qed.

Lemma keeps_notify typ data : keeps core (notify srv typ data).
Proof. unfold notify. keeps. Qed.

Lemma keeps_queue_full s data msg : keeps core (queue_full srv s data msg).
Proof. unfold queue_full. keeps; [apply keeps_recordEvent|apply keeps_notify]. Qed.

Lemma keeps_Mail dr disk from s : keeps core (Mail srv dr disk from s).
Proof. unfold Mail. keeps; cbn; keeps; apply keeps_queue_full. Qed.

Lemma keeps_domain_cap s d n : keeps core (domain_cap srv s d n).
Proof. unfold domain_cap. keeps; cbn; keeps; apply keeps_notify. Qed.

Lemma keeps_checkSpam s id n : keeps core (checkSpam srv s id n).
Proof. unfold checkSpam. keeps. Qed.

Lemma keeps_checkMalware id n : keeps core (checkMalware srv id n).
Proof. unfold checkMalware. keeps. Qed.

Lemma keeps_checkAuth s id b : keeps core (checkAuth srv s id b).
Proof. unfold checkAuth. keeps; cbn; keeps. Qed.

Lemma keeps_accept s id subject n scan : keeps core (accept srv s id subject n scan).
Proof. unfold accept. keeps; [apply keeps_recordEvent|apply keeps_notify]. Qed.

(** Run past a computation that keeps [core]. *)
Lemma wp_skip {A B} (m : M A) (k : A -> M B) Q s :
  keeps core m -> (forall a s', core s' = core s -> wp md (k a) Q s') -> wp md (bind m k) Q s.
Proof.
  intros Hm Hk. apply wp_bind. eapply wp_mono; [apply Hm|]. cbn. intros a s' E. by apply Hk.
Qed.

Lemma wp_tail {A} (m : M A) (Q : A -> state -> Prop) s :
  keeps core m -> (forall a s', core s' = core s -> Q a s') -> wp md m Q s.
Proof. intros Hm HQ. eapply wp_mono; [apply Hm|]. cbn. intros a s' E. by apply HQ. Qed.

(** A refusal after the body was spooled under [id]. *)
Definition rolled_back (id : text) (s s' : state) : Prop :=
  configured s' = configured s /\ s_queue s' = s_queue s /\
  (s_blobs s' = delete id (s_blobs s) \/ (no_blob_faults md = false /\ s_blobs s' = s_blobs s)).

Lemma rolled_back_core id s1 s2 s3 s4 :
  core s2 = core s1 -> rolled_back id s2 s3 -> core s4 = core s3 -> rolled_back id s1 s4.
Proof.
  intros (Eq & Ed & Er & Eb)%core_eq (Hc & Hq & Hb) (Eq' & Ed' & Er' & Eb')%core_eq.
  injection Hc as Hc1 Hc2. unfold rolled_back, configured. rewrite Ed', Er', Hc1, Hc2, Ed, Er, Eq', Hq, Eq, Eb'.
  rewrite Eb in Hb. auto.
Qed.

Lemma wp_drop_body {B} id (k : result unit -> M B) Q s :
  valid_blob_id id = true ->
  (forall r s', rolled_back id s s' -> wp md (k r) Q s') ->
  wp md (bind (blob_Delete id) k) Q s.
Proof.
  intros Hid Hk. apply wp_bind, wp_blob_Delete.
  - intros e [He|He]; [|congruence]. apply Hk. split_and!; auto.
  - intros _. apply Hk. split_and!; cbn; auto.
Qed.

Ltac skip := eapply wp_skip;
  [ solve [ keeps; auto using keeps_recordEvent, keeps_notify, keeps_checkSpam, keeps_checkMalware, keeps_checkAuth ]
  | intros ?a ?s' ?Hcore ].

(** Each check either passes, and changes nothing, or refuses, and drops the body. *)
Lemma wp_apply_filters s id subject st0 Q :
  valid_blob_id id = true ->
  (forall r st', (match r with inl e => is_Some e /\ rolled_back id st0 st' | inr _ => core st' = core st0 end) -> Q r st') ->
  wp md (apply_filters srv s id subject) Q st0.
Proof.
  intros Hid HQ. unfold apply_filters. destruct (srv_filters srv) as [rules|]; [|by apply wp_ret, HQ].
  cbv zeta. destruct (VReject _); [|destruct (VQuarantine _)].
  - apply wp_drop_body; [done|]. intros r st1 Hrb. skip. skip. skip. apply wp_ret, HQ. split; [done|].
    eapply rolled_back_core; [reflexivity|exact Hrb|]. congruence.
  - skip. by apply wp_ret, HQ.
  - by apply wp_ret, HQ.
Qed.

Lemma wp_apply_spam s id verdict st0 Q :
  valid_blob_id id = true ->
  (forall r st', (match r with Some e => is_Some e /\ rolled_back id st0 st' | None => core st' = core st0 end) -> Q r st') ->
  wp md (apply_spam srv s id verdict) Q st0.
Proof.
  intros Hid HQ. unfold apply_spam. destruct (sv_Reject verdict); [|destruct (_ && _)].
  - apply wp_drop_body; [done|]. intros r st1 Hrb. skip. skip. apply wp_ret, HQ. split; [done|].
    eapply rolled_back_core; [reflexivity|exact Hrb|]. congruence.
  - apply wp_drop_body; [done|]. intros r st1 Hrb. apply wp_ret, HQ. done.
  - by apply wp_ret, HQ.
Qed.

Lemma wp_apply_malware s id res q st0 Q :
  valid_blob_id id = true ->
  (forall r st', (match r with inl e => is_Some e /\ rolled_back id st0 st' | inr _ => core st' = core st0 end) -> Q r st') ->
  wp md (apply_malware srv s id res q) Q st0.
Proof.
  intros Hid HQ. unfold apply_malware.
  destruct (srv_clamav srv) as [sc|]; [|destruct res as [[r|]|e]; by apply wp_ret, HQ].
  destruct res as [[r|]|e]; [|by apply wp_ret, HQ|case_match; by apply wp_ret, HQ].
  destruct (cl_Infected r); cbn [negb]; [|by apply wp_ret, HQ]. case_bool_decide; [|by apply wp_ret, HQ].
  apply wp_drop_body; [done|]. intros x st1 Hrb. skip. skip. apply wp_ret, HQ. split; [done|].
  eapply rolled_back_core; [reflexivity|exact Hrb|]. congruence.
Qed.

(** The row a message is queued as: held or not. *)
Definition queued_row (m : message) (r : qrow) : Prop :=
  r = enqueued m \/
  exists reason now, r = on_msg (fun m => set_QuarantinedAt (Some now) (set_QuarantineReason (truncate reason 500) m)) (enqueued m).

Lemma wp_hold s id subject quarantine m q st0 Q :
  ID m = id -> ID m ∉ map row_id q -> s_queue st0 = q ++ [enqueued m] ->
  (forall st' r, s_queue st' = q ++ [r] -> queued_row m r -> configured st' = configured st0 ->
     s_blobs st' = s_blobs st0 -> Q tt st') ->
  wp md (hold srv s id subject quarantine) Q st0.
Proof.
  intros Hid Hnew Hq HQ. assert (Hsame : forall st', core st' = core st0 -> Q tt st').
  { intros st' (E1 & E2 & E3 & E4)%core_eq. eapply HQ; [by rewrite E1|by left| |done].
    unfold configured. by rewrite E2, E3. }
  unfold hold. case_bool_decide; [by apply wp_ret, Hsame|]. skip. rename a into now.
  apply wp_bind, wp_on_queue; [intros e _; by apply wp_ret, Hsame|].
  assert (Eq : s_queue s' = q ++ [enqueued m]) by (apply core_eq in Hcore as (-> & _); done).
  unfold Quarantine, exec_update. rewrite Eq.
  set (upd := on_msg _). set (p := fun r : qrow => by_id id r && negb (is_quarantined r)).
  assert (Hupd : update_where p upd (q ++ [enqueued m]) = q ++ [upd (enqueued m)]).
  { unfold update_where. rewrite map_app. f_equal.
    - rewrite <- (map_id q) at 2. apply map_ext_in. intros r Hr%list_elem_of_In.
      replace (p r) with false; [done|]. symmetry. unfold p, by_id. rewrite bool_decide_eq_false_2; [done|].
      rewrite <- Hid. intros E. apply Hnew. rewrite <- E. by apply elem_of_map_2.
    - cbn. unfold p, by_id. cbn. by rewrite bool_decide_eq_true_2. }
  rewrite Hupd. apply core_eq in Hcore as (_ & Ed & Er & Eb).
  assert (Hfin : forall st', core st' = core (set_s_queue (q ++ [upd (enqueued m)]) s') -> Q tt st').
  { intros st' (E1 & E2 & E3 & E4)%core_eq. eapply HQ; [exact E1|right; by repeat eexists| |].
    - unfold configured. rewrite E2, E3. cbn. by rewrite Ed, Er.
    - rewrite E4. cbn. done. }
  destruct (rows_affected _ _ =? 0); [by apply wp_ret, Hfin|]. skip.
  apply wp_tail; [apply keeps_notify|]. intros [] st' E. apply Hfin. congruence.
Qed.

Lemma wp_accept s id subject n scan st0 Q :
  (forall st', core st' = core st0 -> Q None st') -> wp md (accept srv s id subject n scan) Q st0.
Proof.
  intros HQ. unfold accept. do 4 skip. apply wp_ret, HQ. congruence.
Qed.

(** The outcome of a transaction whose body is in the spool under [id]. *)
Definition intake_outcome (s : session) (id : text) (written : Z) (st0 st' : state) (r : option smtp_error) : Prop :=
  match r with
  | Some _ => rolled_back id st0 st'
  | None =>
      configured st' = configured st0 /\ s_blobs st' = s_blobs st0 /\ (id ∉ map row_id (s_queue st0)) /\
      exists m row, s_queue st' = (s_queue st0 ++ [row]) /\ queued_row m row /\
        ID m = id /\ DomainID m = ss_domainID s /\ EnvelopeFrom m = ss_from s /\ EnvelopeTo m = ss_rcpts s /\
        SizeBytes m = written /\ MDirection m = DirectionInbound /\ NextRetryAt m = ReceivedAt m
  end.

Lemma intake_outcome_core s id n st0 st1 st' r :
  core st1 = core st0 -> intake_outcome s id n st1 st' r -> intake_outcome s id n st0 st' r.
Proof.
  intros Hc. destruct r; cbn; [intros Hrb; by eapply rolled_back_core|].
  apply core_eq in Hc as (-> & Ed & Er & ->). unfold configured. rewrite Ed, Er.
  done.
Qed.

Lemma wp_enqueue_intake s id subject n verdict auth scan quarantine st0 Q :
  valid_blob_id id = true ->
  (forall r st', intake_outcome s id n st0 st' r -> Q r st') ->
  wp md (enqueue_intake srv s id subject n verdict auth scan quarantine) Q st0.
Proof.
  intros Hid HQ. unfold enqueue_intake.
  apply wp_bind, wp_now. intros now Hnow. apply wp_bind.
  eapply wp_mono with (P := fun _ st' => st' = set_s_now now st0); [by apply wp_query|].
  intros d st1 ->. cbv zeta. set (retention := match d with Ok _ => _ | Err _ => _ end).
  set (m := intake_message _ _ _ _ _ _ _ _ _). apply wp_bind.
  assert (Hrefuse : forall e, wp md (blob_Delete id ;;; ret (tempError e)) Q (set_s_now now st0)).
  { intros e. apply wp_drop_body; [done|]. intros r st1 Hrb. apply wp_ret, HQ. exact Hrb. }
  apply wp_statement; [intros e _; apply Hrefuse|]. cbn [s_queue s_domains set_s_now].
  unfold Enqueue. destruct (existsb (by_id (ID m)) (s_queue st0)) eqn:Ex; cbn; [apply Hrefuse|].
  destruct (existsb _ (dt_domains (s_domains st0))) eqn:Ed; cbn -[enqueued]; [|apply Hrefuse].
  assert (Hnew : ID m ∉ map row_id (s_queue st0)) by (rewrite <- existsb_by_id; congruence).
  apply wp_bind. eapply (wp_hold s id subject quarantine m (s_queue st0)); [done|done|done|].
  intros st1 row Hq Hrow Hcfg Hb. apply wp_accept. intros st2 (E1 & E2 & E3 & E4)%core_eq. apply HQ.
  injection Hcfg as Hcfg1 Hcfg2. unfold intake_outcome, configured.
  rewrite E2, E3, Hcfg1, Hcfg2, E4, Hb. split_and!; [done|done|done|].
  exists m, row. rewrite E1. by split_and!.
Qed.

Lemma wp_scan_and_queue s id subject n hasARC st0 Q :
  valid_blob_id id = true ->
  (forall r st', intake_outcome s id n st0 st' r -> Q r st') ->
  wp md (scan_and_queue srv s id subject n hasARC) Q st0.
Proof.
  intros Hid HQ. unfold scan_and_queue.
  assert (Hstop : forall e st', is_Some e /\ rolled_back id st0 st' -> Q e st').
  { intros [e|] st' [[? He] Hrb]; [by apply HQ|done]. }
  apply wp_bind, wp_apply_filters; [done|]. intros [e|quarantine] st1 Hf; [by apply wp_ret, Hstop|].
  skip. rename a into verdict. apply wp_bind, wp_apply_spam; [done|]. intros [e|] st2 Hs2.
  { apply wp_ret, Hstop. destruct Hs2 as [? Hrb]. split; [done|].
    eapply rolled_back_core; [|exact Hrb|reflexivity]. congruence. }
  skip. rename a into malware. apply wp_bind, wp_apply_malware; [done|]. intros [e|[scan quarantine']] st3 Hs3.
  { apply wp_ret, Hstop. destruct Hs3 as [? Hrb]. split; [done|].
    eapply rolled_back_core; [|exact Hrb|reflexivity]. congruence. }
  skip. apply wp_enqueue_intake; [done|]. intros r st' Ho. apply HQ.
  eapply intake_outcome_core; [|exact Ho]. congruence.
Qed.

(** ** [Data] *)

(** A message is accepted whole, or leaves nothing behind. *)
Definition data_outcome (s : session) (r : reader) (st0 st' : state) (res : option smtp_error) : Prop :=
  match res with
  | Some _ => configured st' = configured st0 /\ s_queue st' = s_queue st0 /\
      ((forall i, id_ok md i -> s_blobs st0 !! i = None) ->
       at_most_one_left (s_blobs st0) (s_blobs st') /\ (no_blob_faults md = true -> s_blobs st' = s_blobs st0))
  | None => exists id now data err rem m row,
      ReadAll r = (data, err, rem) /\ ends_source err = true /\ s_blobs st0 !! id = None /\
      s_blobs st' = <[id := trace srv s id now ++ data]> (s_blobs st0) /\
      configured st' = configured st0 /\ (id ∉ map row_id (s_queue st0)) /\
      s_queue st' = s_queue st0 ++ [row] /\ queued_row m row /\ ID m = id /\
      DomainID m = ss_domainID s /\ EnvelopeFrom m = ss_from s /\ EnvelopeTo m = ss_rcpts s /\
      SizeBytes m = Z.of_nat (length (trace srv s id now ++ data)) /\
      (0 < srv_MaxMessageBytes srv -> Z.of_nat (length data) <= srv_MaxMessageBytes srv) /\
      (CountReceived (take peekLimit data) < MaxHops)%nat
  end.

Lemma wp_Data r s st0 Q :
  (forall res st', data_outcome s r st0 st' res ->
     (res = None -> ss_domainID s <> 0 /\ ss_rcpts s <> []) -> Q (s, res) st') ->
  wp md (Data srv r s) Q st0.
Proof.
  intros HQ. unfold Data.
  assert (Hsame : forall e st', core st' = core st0 -> Q (s, Some e) st').
  { intros e st' (Eq & Ed & Er & Eb)%core_eq. apply HQ; [|done]. unfold data_outcome, configured, at_most_one_left.
    rewrite Eq, Ed, Er, Eb. auto. }
  destruct (_ || _) eqn:Ercpt; [by apply wp_ret, Hsame|].
  apply wp_bind, wp_new_id. intros [id|] Hi; [|by apply wp_ret, Hsame].
  specialize (Hi id eq_refl). destruct (ReadAll r) as [[data err] rem] eqn:Er. cbv zeta.
  destruct (MaxHops <=? CountReceived _)%nat eqn:Eh; [skip; by apply wp_ret, Hsame|].
  apply Nat.leb_gt in Eh. apply wp_bind, wp_now. intros now _.
  set (tr := trace srv s id now). set (st1 := set_s_now now st0).
  assert (Hput : forall written e, wp md (blob_Delete id ;;; ret (s, if contains "exceeds"%string written then Some e else tempError "temporarily unable to store message"%string)) Q st1).
  { intros written e. apply wp_bind, wp_blob_Delete; [intros; apply wp_ret; case_match; by apply Hsame|].
    intros _. apply wp_ret. case_match; (apply HQ; [|done]); split_and!; try done; intros Hfresh; specialize (Hfresh id Hi);
      unfold at_most_one_left; cbn; rewrite delete_id by done; auto. }
  apply wp_bind, wp_blob_Put; [intros e; apply Hput|].
  intros full err' rem' Hnone Hread Hend Hvalid Hlim. cbn [ReadAll] in Hread. rewrite Er in Hread.
  apply pair_eq in Hread as [Hread ->]. apply pair_eq in Hread as [<- <-]. apply wp_bind, wp_scan_and_queue; [done|].
  intros res st2 Ho. apply wp_ret, HQ; [|by intros _; bools]. destruct res as [e|]; cbn in Ho |- *.
  - destruct Ho as (Hc & Hq & Hb). split_and!; [done|done|]. intros _. split.
    + change (s_blobs st0 !! id = None) in Hnone. destruct Hb as [->|[_ ->]]; cbn; [left; by apply delete_insert_id|right].
      by exists id, (tr ++ data).
    + intros Hn. destruct Hb as [->|[Hn' _]]; [|congruence]. cbn. by rewrite delete_insert_id.
  - destruct Ho as (Hc & Hb & Hnew & m & row & Hq & Hrow & Hid & Hdid & Hfrom & Hto & Hsize & _).
    exists id, now, data, err, rem', m, row. split_and!; try done.
    intros Hpos. rewrite length_app in Hlim. lia.
Qed.

(** ** A connection, from its first command *)

(** [to] is an address of the enabled domain [d], and [d] takes mail for it. *)
Definition admitted (c : domain_tables * gmap Z (list text)) (d : domain) (to : text) : Prop :=
  d ∈ dt_domains (fst c) /\ DEnabled d = true /\ RecipientAllowed (DID d) to (snd c) = true /\
  exists at_, last_index "@"%char to = Some at_ /\ DName d = normalizeDomain (to_lower (drop (S at_) to)).

Definition session_ok (c : domain_tables * gmap Z (list text)) (s : session) : Prop :=
  (ss_domainID s = 0 -> ss_rcpts s = []) /\
  Forall (fun to => exists d, DID d = ss_domainID s /\ admitted c d to) (ss_rcpts s).

(** A row only ever concerns admitted recipients of one domain. *)
Definition row_admitted (c : domain_tables * gmap Z (list text)) (r : qrow) : Prop :=
  EnvelopeTo (q_msg r) <> [] /\
  Forall (fun to => exists d, DID d = DomainID (q_msg r) /\ admitted c d to) (EnvelopeTo (q_msg r)).

Lemma DomainByName_Ok name ds d : DomainByName name ds = Ok d -> d ∈ ds /\ DName d = normalizeDomain name.
Proof.
  unfold DomainByName. destruct (find _ ds) as [d'|] eqn:E; [|done]. intros [= ->].
  apply find_some in E as [Hin Hn]. bools. by rewrite list_elem_of_In.
Qed.

Lemma wp_Rcpt to s st0 Q :
  Forall (fun d => DID d <> 0) (dt_domains (s_domains st0)) ->
  session_ok (configured st0) s ->
  (forall s' res st', core st' = core st0 -> session_ok (configured st0) s' -> Q (s', res) st') ->
  wp md (Rcpt srv to s) Q st0.
Proof.
  intros Hids Hok HQ. unfold Rcpt. destruct (last_index _ to) as [at_|] eqn:Eat; [|by apply wp_ret, HQ].
  destruct (_ =? _)%nat; [by apply wp_ret, HQ|]. cbv zeta.
  set (name := to_lower (drop (S at_) to)). apply wp_bind.
  apply wp_query; [intros e _; case_match; [skip|]; by apply wp_ret, HQ|].
  destruct (DomainByName name _) as [d|e] eqn:Ed; [|case_match; [skip|]; by apply wp_ret, HQ].
  apply DomainByName_Ok in Ed as [Hd Hname].
  destruct (DEnabled d) eqn:Een; cbn [negb]; [|by apply wp_ret, HQ].
  destruct (negb (ss_domainID s =? 0) && negb (ss_domainID s =? DID d)) eqn:Edom; [by apply wp_ret, HQ|].
  apply wp_bind, wp_query; [intros; by apply wp_ret, HQ|].
  destruct (RecipientAllowed (DID d) to (s_recipients st0)) eqn:Eall; [|skip; by apply wp_ret, HQ].
  eapply wp_skip; [apply keeps_domain_cap|]. intros [e|] st1 Hcore; [by apply wp_ret, HQ|].
  apply wp_ret, HQ; [done|]. destruct Hok as [Hz Hall]. split; cbn.
  - rewrite Forall_forall in Hids. intros E. by destruct (Hids d Hd).
  - apply Forall_app. split.
    + destruct (Z.eqb_spec (ss_domainID s) 0) as [E|E].
      * rewrite (Hz E). constructor.
      * destruct (Z.eqb_spec (ss_domainID s) (DID d)) as [E'|E']; [|done]. by rewrite <- E'.
    + apply Forall_singleton. exists d. split; [done|]. split_and!; [done|done|done|]. by exists at_.
Qed.

(** [Mail] only sets the sender. *)
Lemma wp_Mail c dr disk from s st0 :
  session_ok c s -> wp md (Mail srv dr disk from s) (fun r _ => session_ok c (fst r)) st0.
Proof.
  intros Hok. unfold Mail. destruct dr; [skip; by apply wp_ret|]. cbv zeta.
  set (low := match disk with Some _ => _ | None => _ end). destruct low as [avail|].
  { unfold queue_full. do 3 skip. by apply wp_ret. }
  apply wp_bind, wp_query; [intros; by apply wp_ret|]. cbv iota.
  destruct (_ || _); [unfold queue_full; do 3 skip|]; by apply wp_ret.
Qed.

Lemma queued_row_envelope m r :
  queued_row m r -> DomainID (q_msg r) = DomainID m /\ EnvelopeTo (q_msg r) = EnvelopeTo m.
Proof. by intros [->|(reason & now & ->)]. Qed.

Lemma wp_run_session inputs s st0 Q :
  Forall (fun d => DID d <> 0) (dt_domains (s_domains st0)) ->
  session_ok (configured st0) s ->
  (forall s' st', configured st' = configured st0 ->
     (forall r, r ∈ s_queue st' -> r ∈ s_queue st0 \/ row_admitted (configured st0) r) -> Q s' st') ->
  wp md (run_session srv inputs s) Q st0.
Proof.
  revert s st0. induction inputs as [|i inputs IH]; intros s st0 Hids Hok HQ; cbn [run_session].
  { apply wp_ret, HQ; auto. }
  assert (Hnext : forall s' res st', configured st' = configured st0 -> session_ok (configured st0) s' ->
    (forall r, r ∈ s_queue st' -> r ∈ s_queue st0 \/ row_admitted (configured st0) r) ->
    wp md (run_session srv inputs (fst (s', res : option smtp_error))) Q st').
  { intros s' res st' Hc Hs' Hrows. apply IH; cbn.
    - by injection Hc as -> _.
    - by rewrite Hc.
    - intros s2 st2 Hc2 Hrows2. apply HQ; [congruence|]. intros r Hr.
      destruct (Hrows2 r Hr) as [?|?]; [auto|right; congruence]. }
  assert (Hcore : forall s' res st', core st' = core st0 -> session_ok (configured st0) s' ->
    wp md (run_session srv inputs (fst (s', res : option smtp_error))) Q st').
  { intros s' res st' (Eq & Ed & Er & Eb)%core_eq Hs'. apply Hnext; [unfold configured; congruence|done|].
    rewrite Eq. auto. }
  apply wp_bind. destruct i as [dr disk from|to|r|]; cbn [step].
  - eapply wp_mono with (P := fun r st' => core st' = core st0 /\ session_ok (configured st0) (fst r)).
    2: { intros [s' res] st' [? ?]. by apply Hcore. }
    apply wp_conj; [apply keeps_Mail|]. by apply wp_Mail.
  - eapply wp_Rcpt; [done|done|]. intros s' res st' ? ?. by apply Hcore.
  - apply wp_Data. intros res st' Ho Hne. destruct res as [e|]; cbn in Ho.
    + destruct Ho as (Hc & Hq & _). apply Hnext; [done|done|]. rewrite Hq. auto.
    + destruct Ho as (id & now & data & err & rem & m & row & _ & _ & _ & _ & Hc & _ & Hq & Hrow & _ & Hdid & _ & Hto & _).
      apply Hnext; [done|done|]. rewrite Hq. intros x [?| ->%list_elem_of_singleton]%elem_of_app; [auto|right].
      apply queued_row_envelope in Hrow as [E1 E2]. destruct (Hne eq_refl) as [_ Hr]. unfold row_admitted.
      rewrite E1, E2, Hdid, Hto. split; [done|]. apply Hok.
  - apply wp_ret, Hcore; [done|]. by split.
Qed.
End intake.

(** ** Properties *)

(** C1: the intake is never an open relay: whatever commands a client sends on a
    connection, in whatever order and over any number of transactions, and whatever the
    services answer, every message it adds to the queue has recipients, all of one
    enabled domain of the configuration and all accepted by that domain's recipient
    list. *)
Theorem intake_never_relays `{SmtpLib} `{RegexpLib} `{PublicSuffix} srv inputs remote c s e :
  Forall (fun d => DID d <> 0) (dt_domains (s_domains s)) ->
  let '(_, w') := run_session srv inputs (Ses c remote [] [] 0 []) (World s e) in
  forall r, r ∈ s_queue (st w') -> r ∈ s_queue s \/ row_admitted (configured s) r.
Proof.
  intros Hids. set (md := any). pose proof (allows_any e) as Ha.
  assert (Hwp : wp md (run_session srv inputs (Ses c remote [] [] 0 []))
    (fun _ s' => forall r, r ∈ s_queue s' -> r ∈ s_queue s \/ row_admitted (configured s) r) s).
  { apply wp_run_session; [done|by split|]. auto. }
  pose proof (wp_run md _ _ _ _ Ha Hwp) as Hrun. by destruct (run_session _ _ _ _).
Qed.

(** C4: a message is taken whole or not at all.  Accepted, it is one new row, for this
    sender, these recipients and this domain, and one new body under an identifier that is not
    in use: the trace field followed by every byte the client sent up to the end of its data or,
    which the handler cannot tell from it, up to where its connection broke off (see
    [Data_accepts_cut_off]), within the size limit, with fewer than fifty hops behind it.
    Refused, at any stage and whatever the database does, the queue is as it was; and so is the
    spool, unless a call of the spool itself fails, which leaves at most the one body that was
    being taken. *)
Theorem Data_all_or_nothing `{SmtpLib} `{RegexpLib} `{PublicSuffix} srv r s st0 e :
  Forall (fun i => match i with Some i => s_blobs st0 !! i = None | None => True end) (e_ids e) ->
  let '((_, res), w') := Data srv r s (World st0 e) in
  match res with
  | Some _ =>
      s_queue (st w') = s_queue st0 /\ at_most_one_left (s_blobs st0) (s_blobs (st w')) /\
      (e_blobs e = [] -> s_blobs (st w') = s_blobs st0)
  | None => exists id now data err rem m row,
      ReadAll r = (data, err, rem) /\ (err = None \/ exists msg, err = Some (ESentinel ErrUnexpectedEOF msg)) /\
      s_blobs st0 !! id = None /\
      s_blobs (st w') = <[id := trace srv s id now ++ data]> (s_blobs st0) /\
      s_queue (st w') = (s_queue st0 ++ [row]) /\ queued_row m row /\ ID m = id /\
      DomainID m = ss_domainID s /\ EnvelopeFrom m = ss_from s /\ EnvelopeTo m = ss_rcpts s /\
      SizeBytes m = Z.of_nat (length (trace srv s id now ++ data)) /\
      (0 < srv_MaxMessageBytes srv -> Z.of_nat (length data) <= srv_MaxMessageBytes srv) /\
      (CountReceived (take peekLimit data) < MaxHops)%nat
  end.
Proof.
  intros Hids.
  set (md := Assume false (bool_decide (e_blobs e = [])) false (fun i => s_blobs st0 !! i = None) (fun _ => True)).
  assert (Ha : allows md e) by (split_and!; [done|apply bool_decide_eq_true|done|done|by apply all_broken_ok]).
  assert (Hwp : wp md (Data srv r s) (fun x st' => data_outcome md srv s r st0 st' (snd x)) st0).
  { by apply wp_Data. }
  pose proof (wp_run md _ _ _ _ Ha Hwp) as Hrun. destruct (Data srv r s (World st0 e)) as [[s' res] w']. cbn in Hrun.
  destruct res as [err|].
  - destruct Hrun as (_ & Hq & Hb). destruct Hb as [Hkeep Hquiet]; [done|]. split_and!; [done|done|].
    intros E. apply Hquiet. by apply bool_decide_eq_true.
  - destruct Hrun as (id & now & data & err & rem & m & row & ? & Hend%ends_source_true & ? & ? & _ & _ & ? & ? & ? & ? & ? & ? & ? & ? & ?).
    by exists id, now, data, err, rem, m, row.
Qed.

(** A message whose client disappeared half way is taken for a whole one.  [Put] holds
    [io.ErrUnexpectedEOF] for the end of the source, which is what [io.ReadFull] says of a
    short last chunk, but also what the SMTP library says when the connection ends inside
    the data: the handler does exactly what it does for the bytes received so far, down to
    queueing them and answering success. *)
Theorem Data_accepts_cut_off `{SmtpLib} `{RegexpLib} `{PublicSuffix} srv received msg s w :
  Data srv [inl received; inr (ESentinel ErrUnexpectedEOF msg)] s w = Data srv [inl received] s w.
Proof.
  assert (Hput : forall id tr limit,
    blob_Put id [inl tr; inl received; inr (ESentinel ErrUnexpectedEOF msg)] limit = blob_Put id [inl tr; inl received] limit)
    by reflexivity.
  unfold Data. cbn [ReadAll]. destruct (_ || _); [done|]. apply bind_ext. intros [id|] w1; [|done].
  cbv zeta. destruct (_ <=? _)%nat; [done|]. apply bind_ext. intros now w2. by rewrite Hput.
Qed.

(** *** Witnesses *)

Definition sample_regexp : RegexpLib :=
  {| regexp := text; regexp_compile := Ok; MatchString := fun re s => contains re s |}.

Definition sample_suffix : PublicSuffix := {| EffectiveTLDPlusOne := Ok |}.

Definition sample_reply : SmtpLib :=
  {| smtp_error_text := Message; ErrAuthRequired := SMTPError 502 (Enh 5 7 0) []; ErrAuthFailed := SMTPError 535 (Enh 5 7 8) []; ErrAuthUnsupported := SMTPError 504 (Enh 5 7 4) [] |}.

#[local] Existing Instance sample_regexp.
#[local] Existing Instance sample_suffix.
#[local] Existing Instance sample_reply.

Definition sample_server : ServerConfig :=
  {| srv_MaxMessageBytes := 1000;
     srv_queue := {| MaxMessages := 10; MaxBytes := 0; Retention := 120 * hour; Workers := 2; RetryBase := minute;
       RetryMax := hour; DeliveryTimeout := minute; Bounces := []; AllowPrivateDestinations := false |};
     srv_Domain := "backup.example.net"%string; srv_zone := 0; srv_notify := true; srv_filters := None;
     srv_spam := None; srv_spamDefer := false; srv_clamav := None; srv_auth := None; srv_minDisk := 0 |}.

Definition sample_intake_state : state :=
  set_s_domains (DomainTables [Domain 1 "example.com"%string "mail.example.com"%string 25 "none"%string None None 0 true 0 0] ∅ 2)
    blank.

Definition sample_intake_env : env := set_e_ids [Some (T "0a1b"); Some (T "0a1c")] quiet.

Definition sample_inputs : list input :=
  [InMail false None "a@example.org"%string; InRcpt "user@elsewhere.net"%string; InRcpt "user@EXAMPLE.com"%string;
   InData [inl ("Subject: x" ++ CRLF ++ CRLF ++ "hello" ++ CRLF)]; InReset; InData [inl (T "again")]].

Lemma intake_never_relays_witness :
  let '(_, w') := run_session sample_server sample_inputs (Ses None "192.0.2.7:4711"%string [] [] 0 [])
                    (World sample_intake_state sample_intake_env) in
  length (s_queue (st w')) = 1%nat /\
  forall r, r ∈ s_queue (st w') -> row_admitted (configured sample_intake_state) r.
Proof.
  assert (Hids : Forall (fun d => DID d <> 0) (dt_domains (s_domains sample_intake_state))) by (repeat constructor; done).
  pose proof (intake_never_relays sample_server sample_inputs "192.0.2.7:4711"%string None
    sample_intake_state sample_intake_env Hids) as H.
  destruct (run_session _ _ _ _) as [s' w'] eqn:E.
  split; [|intros r Hr; destruct (H r Hr) as [Hn|?]; [by apply not_elem_of_nil in Hn|done]].
  change w' with (snd (s', w')). rewrite <- E. vm_compute. reflexivity.
Defined.

Lemma Data_all_or_nothing_witness :
  let s := Ses None "192.0.2.7:4711"%string "a@example.org"%string [T "user@example.com"] 1 "example.com"%string in
  let body := "Subject: x" ++ CRLF ++ CRLF ++ "hello" ++ CRLF in
  exists w' id now, Data sample_server (of_text body) s (World sample_intake_state sample_intake_env) = ((s, None), w') /\
    s_blobs (st w') = <[id := trace sample_server s id now ++ body]> ∅.
Proof.
  intros s body.
  assert (Hids : Forall (fun i => match i with Some i => s_blobs sample_intake_state !! i = None | None => True end)
            (e_ids sample_intake_env)) by (repeat constructor).
  pose proof (Data_all_or_nothing sample_server (of_text body) s sample_intake_state sample_intake_env Hids) as H.
  destruct (Data _ _ _ _) as [[s' res] w'] eqn:E.
  assert (Hs : (s', res) = (s, None)).
  { change (s', res) with (fst (s', res, w')). rewrite <- E. vm_compute. reflexivity. }
  injection Hs as -> ->. destruct H as (id & now & data & err & rem & m & row & Hread & _ & _ & Hb & _).
  exists w', id, now. split; [done|]. apply ReadAll_of_text in Hread as [-> _]. exact Hb.
Defined.
