(* ===== verification/Submission.v ===== *)
(** * The submission server (internal/submission)

    The handlers go-smtp calls for one authenticated client: [newSession], [Auth] with
    PLAIN, [Mail], [Rcpt], [Data], [Reset].  The shape is the intake's ([Smtpd]); what
    differs is that a client must authenticate, may only send as its own domains, to
    anyone, within the sending limit of the domain.  Time spent hashing a password for
    an unknown account, and logging, are left out. *)

From S2P Require Import Prelude RateLimit GoStrings Times Net Errors Backoff StoreTypes.
From S2P Require Import StoreQueue StoreDomains MailUtil Auth Filter Routes StoreUsers Spam.
From S2P Require Import Authres World Outbound Smtpd.
From Stdlib Require Import QArith.
Open Scope Z_scope.

Definition authWindow : Z := 15 * minute.
Definition authMaxTries : Z := 8.

(** The limiter of a new server. *)
Definition new_limiter : Limiter := New authMaxTries authWindow.

Record SubmissionServer := {
  sub_MaxMessageBytes : Z;
  sub_queue : QueueConfig;
  sub_Domain : text;
  sub_zone : Z;
  sub_notify : bool;
  sub_minDisk : Z
}.

Record session := Sub {
  sb_conn : option conn;
  sb_remote : text;
  sb_user : option SMTPUser;
  sb_from : text;
  sb_rcpts : list text;
  sb_domainID : Z;
  sb_sendLimit : option Z
}.

Definition Reset (s : session) : session := Sub (sb_conn s) (sb_remote s) (sb_user s) [] [] 0 None.

Definition domainOf (addr : text) : text :=
  match last_index "@"%char addr with
  | None => []
  | Some at_ => if (S at_ =? length addr)%nat then [] else to_lower (drop (S at_) addr)
  end.

Definition sendLimitError : option smtp_error :=
  reply 550 5 7 1 "This domain has reached its monthly sending limit"%string.

(** The limiter under its lock. *)
Definition limiter_Allow (key : text) : M bool :=
  let* now := now_ in
  fun w => let '(ok, l) := Allow key now (s_limiter (st w)) in (ok, World (set_s_limiter l (st w)) (wenv w)).

Definition limiter_Reset (key : text) : M unit := modify (fun s => set_s_limiter (RateLimit.Reset key (s_limiter s)) s).

Section submission.
Context `{SmtpLib} `{PasswordCrypto}.
Context (srv : SubmissionServer).

Definition notify (event : text) (payload : jmap) : M unit :=
  if sub_notify srv then Notify event payload else ret tt.

Definition newSession (isDraining : bool) (remote : text) (c : option conn) : M (smtp_error + session) :=
  count SMTPConnections 1 ;;;
  ret (if isDraining
       then inl (SMTPError 421 (Enh 4 3 2) "Service temporarily unavailable, server is draining for maintenance"%string)
       else inr (Sub c remote None [] [] 0 None)).

(** ** [Auth] *)

Definition Plain : text := "PLAIN"%string.
Definition AuthMechanisms : list text := [Plain].

Definition tooManyTries : option smtp_error := reply 454 4 7 0 "Too many authentication attempts, try again later"%string.

(** What the PLAIN server calls with the client's answer. *)
Definition authenticate (identity username password : text) (s : session) : M (session * option smtp_error) :=
  let ip := hostOf (sb_remote s) in
  let* allowed := limiter_Allow ip in
  if negb allowed then ret (s, tooManyTries)
  else if negb (bool_decide (identity = [])) && negb (bool_decide (identity = username)) then ret (s, Some ErrAuthFailed)
  else if MaxPasswordBytes <? Z.of_nat (length password) then ret (s, Some ErrAuthFailed)
  else
    let* user := query (fun st => SMTPUserByName username (s_smtp_users st)) in
    match user with
    | Err _ => ret (s, Some ErrAuthFailed)
    | Ok user =>
        match VerifyPassword password (SPasswordHash user) with
        | Ok true =>
            if negb (SEnabled user) then ret (s, Some ErrAuthFailed)
            else
              limiter_Reset ip ;;;
              let s := Sub (sb_conn s) (sb_remote s) (Some user) (sb_from s) (sb_rcpts s) (sb_domainID s) (sb_sendLimit s) in
              let* now := now_ in
              statement (fun st => let '(r, t) := TouchSMTPUser (SID user) now (s_smtp_users st) in (r, set_s_smtp_users t st)) ;;;
              ret (s, None)
        | _ => ret (s, Some ErrAuthFailed)
        end
    end.

Definition Auth (mech identity username password : text) (s : session) : M (session * option smtp_error) :=
  if bool_decide (mech = Plain) then authenticate identity username password s else ret (s, Some ErrAuthUnsupported).

(** ** [Mail] *)

Definition unknown_sender_domain : option smtp_error := reply 550 5 7 1 "That sender domain is not configured here"%string.

(** The conditions of the server itself, once the sender is allowed. *)
Definition refuse_load (isDraining : bool) (disk : option (result Z)) (stats : QueueStats) : option smtp_error :=
  if isDraining then draining
  else if match disk with
          | Some (Ok avail) => (0 <? sub_minDisk srv) && (avail <? sub_minDisk srv)
          | _ => false
          end
  then reply 452 4 3 1 "Insufficient system storage, try again later"%string
  else if (0 <? MaxMessages (sub_queue srv)) && (MaxMessages (sub_queue srv) <=? Pending stats)
  then reply 452 4 3 1 "Insufficient storage, try again later"%string
  else None.

(** [isDraining] and [disk] are what the maintenance flag and the disk check say. *)
Definition Mail (isDraining : bool) (disk : option (result Z)) (from : text) (s : session)
  : M (session * option smtp_error) :=
  match sb_user s with
  | None => ret (s, Some ErrAuthRequired)
  | Some user =>
      if negb (MaySend user from) then ret (s, reply 550 5 7 1 "You are not allowed to send as that address"%string)
      else if bool_decide (domainOf from = []) then
        ret (s, reply 550 5 7 1 "A null return path cannot be used for submission"%string)
      else
        let* d := query (fun st => DomainByName (domainOf from) (dt_domains (s_domains st))) in
        match d with
        | Err e => ret (s, if is_sentinel ErrNotFound e then unknown_sender_domain
                           else tempError "temporarily unable to accept submissions"%string)
        | Ok d =>
            if negb (DEnabled d) then ret (s, unknown_sender_domain)
            else
              let* stats := query (fun st => Ok (Stats (s_queue st))) in
              match stats with
              | Err _ => ret (s, tempError "temporarily unable to accept submissions"%string)
              | Ok stats =>
                  match refuse_load isDraining disk stats with
                  | Some e => ret (s, Some e)
                  | None => ret (Sub (sb_conn s) (sb_remote s) (sb_user s) from (sb_rcpts s) (DID d) (MonthlySendLimit d), None)
                  end
              end
        end
  end.

(** ** [Rcpt] *)

Definition Rcpt (to : text) (s : session) : M (session * option smtp_error) :=
  let add := Sub (sb_conn s) (sb_remote s) (sb_user s) (sb_from s) (sb_rcpts s ++ [to]) (sb_domainID s) (sb_sendLimit s) in
  match sb_user s with
  | None => ret (s, Some ErrAuthRequired)
  | Some _ =>
      if sb_domainID s =? 0 then ret (s, reply 503 5 5 1 "Send MAIL FROM first"%string)
      else if bool_decide (domainOf to = []) then ret (s, reply 501 5 1 3 "Malformed recipient address"%string)
      else
        match sb_sendLimit s with
        | None => ret (add, None)
        | Some limit =>
            let* now := now_ in
            let* sent := query (fun st => Ok (SentThisMonth (sb_domainID s) now (s_usage st))) in
            match sent with
            | Err _ => ret (s, tempError "temporarily unable to accept submissions"%string)
            | Ok sent =>
                if limit <? sent + Z.of_nat (length (sb_rcpts s)) + 1 then ret (s, sendLimitError)
                else ret (add, None)
            end
        end
  end.

(** ** [Data] *)

Definition trace (s : session) (id : text) (now : Z) : text :=
  Header (sub_zone srv)
    {| Helo := match sb_conn s with Some c => c_Hostname c | None => [] end; Remote := sb_remote s; By := sub_Domain srv;
       TProtocol := match sb_conn s with Some c => Protocol (c_TLS c) true | None => Protocol false true end;
       TID := id; Recipient := match sb_rcpts s with [r] => r | _ => [] end; At := now |}.

Definition limitReached (s : session) (user : SMTPUser) (limit : Z) : M unit :=
  let domain := domainOf (sb_from s) in
  record_event (Event EventSendLimitReached (Some (sb_domainID s)) None None
    [(T "domain", JStr domain); (T "limit", JNum limit); (T "submitted_by", JStr (Username user))]) ;;;
  notify EventSendLimitReached [(T "domain", JStr domain); (T "limit", JNum limit)].

Definition submission_message (s : session) (id subject : text) (size now : Z) : message :=
  Msg id (sb_domainID s) (sb_from s) (sb_rcpts s) subject size now (now + Retention (sub_queue srv)) StatusQueued 0 now
    [] None (sb_remote s) DirectionOutbound None [] None [] [] false [].

Definition accepted (s : session) (user : SMTPUser) (id subject : text) (written before : Z) : M unit :=
  count MessagesReceived 1 ;;;
  count BytesReceived written ;;;
  record_event (Event EventMailReceived (Some (sb_domainID s)) (Some id) None
    [(T "direction", JStr "outbound"%string); (T "from", JStr (sb_from s)); (T "to", JStrs (sb_rcpts s));
     (T "bytes", JNum written); (T "submitted_by", JStr (Username user))]) ;;;
  notify EventMailReceived [(T "id", JStr id); (T "direction", JStr "outbound"%string); (T "subject", JStr subject)] ;;;
  match sb_sendLimit s with
  | Some limit =>
      if (before <? limit) && (limit <=? before + Z.of_nat (length (sb_rcpts s))) then limitReached s user limit else ret tt
  | None => ret tt
  end.

Definition on_usage {A} (f : list domain -> usage -> result A * usage) : M (result A) :=
  statement (fun st => let '(r, u) := f (dt_domains (s_domains st)) (s_usage st) in (r, set_s_usage u st)).

(** What follows the spooling of the body: the sends are reserved, the row inserted, and
    the reservation given back when the row is not. *)
Definition reserve_and_queue (s : session) (user : SMTPUser) (id subject : text) (written : Z) : M (option smtp_error) :=
  let failed := blob_Delete id ;;; ret (tempError "temporarily unable to store the message"%string) in
  let* now := now_ in
  let recipients := Z.of_nat (length (sb_rcpts s)) in
  let* reserved := on_usage (fun ds => ReserveSends ds (sb_domainID s) recipients (sb_sendLimit s) now) in
  match reserved with
  | Err _ => failed
  | Ok (false, _) => blob_Delete id ;;; ret sendLimitError
  | Ok (true, before) =>
      let* r := statement (fun st =>
        let '(r, q) := Enqueue (dt_domains (s_domains st)) (submission_message s id subject written now) (s_queue st) in
        (r, set_s_queue q st)) in
      match r with
      | Err _ =>
          blob_Delete id ;;;
          on_usage (fun _ => ReleaseSends (sb_domainID s) recipients now) ;;;
          ret (tempError "temporarily unable to store the message"%string)
      | Ok _ => accepted s user id subject written before ;;; ret None
      end
  end.

Definition Data (r : reader) (s : session) : M (session * option smtp_error) :=
  match sb_user s with
  | None => ret (s, Some ErrAuthRequired)
  | Some user =>
      if (sb_domainID s =? 0) || bool_decide (sb_rcpts s = []) then ret (s, reply 554 5 5 1 "No valid recipients"%string)
      else
        let* id := new_id in
        match id with
        | None => ret (s, tempError "temporarily unable to accept the message"%string)
        | Some id =>
            let '(data, _, _) := ReadAll r in
            let peeked := fst (PeekHeaders data peekLimit) in
            let subject := ExtractSubject peeked in
            if (MaxHops <=? CountReceived peeked)%nat then
              ret (s, reply 554 5 4 6 "Too many hops, mail loop detected"%string)
            else
              let* now := now_ in
              let tr := trace s id now in
              let* written := blob_Put id (inl tr :: r) (sub_MaxMessageBytes srv + Z.of_nat (length tr)) in
              match written with
              | Err e =>
                  blob_Delete id ;;;
                  ret (s, if contains "exceeds"%string (error_text e)
                          then reply 552 5 3 4 "Message exceeds maximum size"%string
                          else tempError "temporarily unable to store the message"%string)
              | Ok written =>
                  let* res := reserve_and_queue s user id subject written in
                  ret (s, res)
              end
        end
  end.

(** ** The commands of a connection *)

Inductive input :=
| InAuth (mech identity username password : text)
| InMail (isDraining : bool) (disk : option (result Z)) (from : text)
| InRcpt (to : text)
| InData (r : reader)
| InReset.

Definition step (i : input) (s : session) : M (session * option smtp_error) :=
  match i with
  | InAuth mech identity username password => Auth mech identity username password s
  | InMail dr disk from => Mail dr disk from s
  | InRcpt to => Rcpt to s
  | InData r => Data r s
  | InReset => ret (Reset s, None)
  end.

Fixpoint run_session (inputs : list input) (s : session) : M session :=
  match inputs with
  | [] => ret s
  | i :: rest => let* r := step i s in run_session rest (fst r)
  end.
End submission.
