(* ===== verification/SubmissionProps.v ===== *)
(** * Properties of the submission server *)

From S2P Require Import Prelude RateLimit GoStrings Times Net Errors Backoff StoreTypes.
From S2P Require Import StoreQueue QueueFacts QueueProps StoreDomains MailUtil Auth Filter.
From S2P Require Import Routes StoreUsers Spam Authres World Outbound Smtpd Submission.
From Stdlib Require Import QArith.
Open Scope Z_scope.

(** An account without the time of its last use, which is all a session changes of it. *)
Definition credentials (u : SMTPUser) : Z * text * text * list text * bool :=
  (SID u, Username u, SPasswordHash u, SAllowedDomains u, SEnabled u).

Definition accounts (st : state) : list (Z * text * text * list text * bool) := map credentials (su_rows (s_smtp_users st)).

(** What the handlers decide on and what they leave behind. *)
Definition core (s : state) := (s_queue s, s_domains s, s_usage s, s_blobs s, accounts s).

Lemma sub_core_eq s s' :
  core s' = core s ->
  s_queue s' = s_queue s /\ s_domains s' = s_domains s /\ s_usage s' = s_usage s /\ s_blobs s' = s_blobs s /\
  accounts s' = accounts s.
Proof. intros [=]. auto. Qed.

(** The parts no handler of a connection writes. *)
Definition fixed_parts (s : state) := (s_domains s, accounts s).

Section submission.
Context `{SmtpLib} `{PasswordCrypto}.
Context (md : mode) (srv : SubmissionServer).

Lemma sub_keeps_notify typ data : keeps core (notify srv typ data).
Proof. unfold notify. keeps. Qed.

Lemma keeps_limiter_Allow key : keeps core (limiter_Allow key).
Proof.
  unfold limiter_Allow. apply keeps_bind; [keeps|]. intros now md' s e He.
  unfold Allow. by destruct (_ <=? _).
Qed.

Lemma keeps_limiter_Reset key : keeps core (limiter_Reset key).
Proof. unfold limiter_Reset. keeps. Qed.

Lemma keeps_touch id now :
  keeps core (statement (fun st => let '(r, t) := TouchSMTPUser id now (s_smtp_users st) in (r, set_s_smtp_users t st))).
Proof.
  apply keeps_statement. intros s. cbn. unfold core, accounts. cbn. unfold update_rows. rewrite map_map.
  f_equal. apply map_ext. intros u. by destruct (smtp_by id u).
Qed.

Lemma keeps_limitReached s u l : keeps core (limitReached srv s u l).
Proof. unfold limitReached. keeps; apply sub_keeps_notify. Qed.

Lemma keeps_accepted s u id subject n before : keeps core (accepted srv s u id subject n before).
Proof. unfold accepted. keeps; auto using sub_keeps_notify, keeps_limitReached. Qed.

Ltac skip := eapply (wp_frame core);
  [ solve [ keeps; auto using sub_keeps_notify, keeps_limiter_Allow, keeps_limiter_Reset, keeps_touch, keeps_accepted ]
  | intros ?a ?s' ?Hcore ].

(** ** Who may send *)

(** An account a client proved to hold with one of its [inputs]. *)
Definition authorised (inputs : list input) (st : state) (u : SMTPUser) : Prop :=
  exists identity username password,
    InAuth Plain identity username password ∈ inputs /\ (identity = [] \/ identity = username) /\
    Z.of_nat (length password) <= MaxPasswordBytes /\ VerifyPassword password (SPasswordHash u) = Ok true /\
    Username u = trim_space username /\ SEnabled u = true /\ credentials u ∈ accounts st.

(** [u] may send as [from], of the enabled domain [did] with this monthly limit. *)
Definition sender_ok (st : state) (u : SMTPUser) (from : text) (did : Z) (limit : option Z) : Prop :=
  MaySend u from = true /\ domainOf from <> [] /\
  exists d, d ∈ dt_domains (s_domains st) /\ DEnabled d = true /\ DID d = did /\
    DName d = normalizeDomain (domainOf from) /\ MonthlySendLimit d = limit.

Definition session_ok (inputs : list input) (st : state) (s : session) : Prop :=
  (forall u, sb_user s = Some u -> authorised inputs st u) /\
  (sb_domainID s <> 0 -> exists u, authorised inputs st u /\ sender_ok st u (sb_from s) (sb_domainID s) (sb_sendLimit s)) /\
  Forall (fun to => domainOf to <> []) (sb_rcpts s).

Lemma authorised_fixed inputs st st' u : fixed_parts st' = fixed_parts st -> authorised inputs st u -> authorised inputs st' u.
Proof. intros [= _ E]. unfold authorised. by rewrite E. Qed.

Lemma sender_ok_fixed st st' u from did l : fixed_parts st' = fixed_parts st -> sender_ok st u from did l -> sender_ok st' u from did l.
Proof. intros [= E _]. unfold sender_ok. by rewrite E. Qed.

Lemma session_ok_fixed inputs st st' s : fixed_parts st' = fixed_parts st -> session_ok inputs st s -> session_ok inputs st' s.
Proof.
  intros E (Hu & Hd & Hr). split_and!; [intros u Es; by eapply authorised_fixed, Hu| |done].
  intros Hne. destruct (Hd Hne) as (u & Ha & Hs). exists u. split; [by eapply authorised_fixed|by eapply sender_ok_fixed].
Qed.

Lemma core_fixed st st' : core st' = core st -> fixed_parts st' = fixed_parts st.
Proof. intros (_ & Ed & _ & _ & Ea)%sub_core_eq. unfold fixed_parts. by rewrite Ed, Ea. Qed.

Lemma SMTPUserByName_Ok name t u :
  SMTPUserByName name t = Ok u -> u ∈ su_rows t /\ Username u = trim_space name.
Proof.
  unfold SMTPUserByName, find_row. destruct (find _ _) as [v|] eqn:E; [|done]. intros [= ->].
  apply find_some in E as [Hin Hn]. bools. by rewrite list_elem_of_In.
Qed.

Lemma wp_Auth inputs mech identity username password s st0 Q :
  InAuth mech identity username password ∈ inputs ->
  session_ok inputs st0 s ->
  (forall s' res st', core st' = core st0 -> session_ok inputs st0 s' -> Q (s', res) st') ->
  wp md (Auth mech identity username password s) Q st0.
Proof.
  intros Hin Hok HQ. unfold Auth. case_bool_decide as Hm; [|by apply wp_ret, HQ]. subst mech.
  unfold authenticate. skip. destruct a; cbn [negb]; [|by apply wp_ret, HQ].
  destruct (negb _ && negb _) eqn:Eid; [by apply wp_ret, HQ|].
  destruct (Z.ltb_spec MaxPasswordBytes (Z.of_nat (length password))) as [|Hlen]; [by apply wp_ret, HQ|].
  apply wp_bind, wp_query; [intros; by apply wp_ret, HQ|].
  destruct (SMTPUserByName username _) as [u|] eqn:Eu; [|by apply wp_ret, HQ].
  destruct (VerifyPassword password _) as [[]|] eqn:Ev; [|by apply wp_ret, HQ..].
  destruct (SEnabled u) eqn:Een; cbn [negb]; [|by apply wp_ret, HQ].
  skip. skip. skip. apply wp_ret, HQ; [congruence|].
  destruct Hok as (_ & Hd & Hr). split_and!; cbn; [|done|done]. intros ? [= <-].
  apply SMTPUserByName_Ok in Eu as [Hu Hname]. exists identity, username, password.
  split_and!; try done.
  - apply andb_false_iff in Eid as [?|?]; bools; auto.
  - apply sub_core_eq in Hcore as (_ & _ & _ & _ & <-). by apply elem_of_map_2.
Qed.

Lemma sub_DomainByName_Ok name ds d : DomainByName name ds = Ok d -> d ∈ ds /\ DName d = normalizeDomain name.
Proof.
  unfold DomainByName. destruct (find _ ds) as [d'|] eqn:E; [|done]. intros [= ->].
  apply find_some in E as [Hin Hn]. bools. by rewrite list_elem_of_In.
Qed.

Lemma sub_wp_Mail inputs dr disk from s st0 Q :
  session_ok inputs st0 s ->
  (forall s' res st', core st' = core st0 -> session_ok inputs st0 s' -> Q (s', res) st') ->
  wp md (Mail srv dr disk from s) Q st0.
Proof.
  intros Hok HQ. unfold Mail. destruct (sb_user s) as [u|] eqn:Eu; [|by apply wp_ret, HQ].
  destruct (MaySend u from) eqn:Em; cbn [negb]; [|by apply wp_ret, HQ].
  case_bool_decide as Ed; [by apply wp_ret, HQ|].
  apply wp_bind, wp_query; [intros; by apply wp_ret, HQ|].
  destruct (DomainByName _ _) as [d|e] eqn:Edom; [|by apply wp_ret, HQ].
  apply sub_DomainByName_Ok in Edom as [Hd Hname].
  destruct (DEnabled d) eqn:Een; cbn [negb]; [|by apply wp_ret, HQ].
  apply wp_bind, wp_query; [intros; by apply wp_ret, HQ|].
  destruct (refuse_load _ _ _ _); [by apply wp_ret, HQ|]. apply wp_ret, HQ; [done|].
  destruct Hok as (Ha & _ & Hr). split_and!; cbn; [by rewrite Eu in *|intros _|done].
  exists u. split; [by apply Ha|]. split_and!; [done|done|]. by exists d.
Qed.

Lemma sub_wp_Rcpt inputs to s st0 Q :
  session_ok inputs st0 s ->
  (forall s' res st', core st' = core st0 -> session_ok inputs st0 s' -> Q (s', res) st') ->
  wp md (Rcpt to s) Q st0.
Proof.
  intros Hok HQ. unfold Rcpt. destruct (sb_user s) as [u|] eqn:Eu; [|by apply wp_ret, HQ].
  destruct (sb_domainID s =? 0) eqn:Ez; [by apply wp_ret, HQ|].
  case_bool_decide as Ed; [by apply wp_ret, HQ|].
  assert (Hadd : session_ok inputs st0 (Sub (sb_conn s) (sb_remote s) (Some u) (sb_from s) (sb_rcpts s ++ [to]) (sb_domainID s) (sb_sendLimit s))).
  { destruct Hok as (Ha & Hd & Hr). split_and!; cbn; [by rewrite <- Eu|done|]. apply Forall_app. split; [done|by apply Forall_singleton]. }
  destruct (sb_sendLimit s) as [l|]; [|by apply wp_ret, HQ].
  skip. apply wp_bind, wp_query; [intros; by apply wp_ret, HQ|]. destruct (l <? _); by apply wp_ret, HQ.
Qed.

(** ** The sending limit across one transaction *)

Definition usage_nonneg (u : usage) : Prop := forall key, 0 <= default 0 (u !! key).

(** The same sends are counted for every domain and month. *)
Definition same_usage (u u' : usage) : Prop := forall key, default 0 (u' !! key) = default 0 (u !! key).

(** No count shrank, and none grew by more than [n]. *)
Definition usage_within (n : Z) (u u' : usage) : Prop :=
  forall key, default 0 (u !! key) <= default 0 (u' !! key) <= default 0 (u !! key) + n.

Lemma usage_within_same n u u' : 0 <= n -> same_usage u u' -> usage_within n u u'.
Proof. intros Hn Hs key. rewrite Hs. lia. Qed.

Lemma reserve_within ds d n l now u u1 r : 0 <= n -> ReserveSends ds d n l now u = (r, u1) -> usage_within n u u1.
Proof.
  intros Hn. assert (Hid : usage_within n u u) by (intros key; lia). unfold ReserveSends.
  destruct (match l with Some _ => _ | None => _ end); [by intros [= _ <-]|]. destruct (negb _); [by intros [= _ <-]|].
  intros [= _ <-] key. destruct (decide (key = (d, usageMonth now))) as [->|Hne].
  - rewrite lookup_insert_eq. cbn. unfold SentThisMonth. lia.
  - rewrite lookup_insert_ne by done. lia.
Qed.

Lemma reserve_release ds d n l now u u1 before :
  usage_nonneg u -> 0 <= n ->
  ReserveSends ds d n l now u = (Ok (true, before), u1) -> same_usage u (snd (ReleaseSends d n now u1)).
Proof.
  intros Hu Hn. unfold ReserveSends. destruct (match l with Some _ => _ | None => _ end); [done|].
  destruct (negb _); [done|]. intros [= <- <-]. unfold ReleaseSends. rewrite lookup_insert_eq. cbn [snd].
  intros key. rewrite insert_insert_eq. destruct (decide (key = (d, usageMonth now))) as [->|Hne].
  - rewrite lookup_insert_eq. cbn. specialize (Hu (d, usageMonth now)). unfold SentThisMonth. lia.
  - by rewrite lookup_insert_ne.
Qed.
(** A refusal after the body was spooled under [id]. *)
Definition rolled_back (n : Z) (id : text) (s s' : state) : Prop :=
  fixed_parts s' = fixed_parts s /\ s_queue s' = s_queue s /\
  (s_blobs s' = delete id (s_blobs s) \/ (no_blob_faults md = false /\ s_blobs s' = s_blobs s)) /\
  (usage_nonneg (s_usage s) ->
     (no_faults md = true -> same_usage (s_usage s) (s_usage s')) /\ usage_within n (s_usage s) (s_usage s')).

Lemma sub_wp_drop_body {B} n id (k : result unit -> M B) s1 Q s :
  valid_blob_id id = true ->
  fixed_parts s = fixed_parts s1 -> s_queue s = s_queue s1 -> s_blobs s = s_blobs s1 ->
  0 <= n -> (forall r s', rolled_back n id s1 (set_s_usage (s_usage s1) s') -> s_usage s' = s_usage s -> wp md (k r) Q s') ->
  wp md (bind (blob_Delete id) k) Q s.
Proof.
  intros Hid Hf Hq Hb Hn Hk. assert (Hu : usage_within n (s_usage s1) (s_usage s1)) by by apply usage_within_same.
  apply wp_bind, wp_blob_Delete.
  - intros e [He|He]; [|congruence]. apply Hk; [|done]. split_and!; [done|done|right; done|done].
  - intros _. apply Hk; [|done]. split_and!; [done|done|left; cbn; by rewrite Hb|done].
Qed.

Lemma rolled_back_usage n id s s' u :
  rolled_back n id s (set_s_usage (s_usage s) s') -> s_usage s' = u ->
  (usage_nonneg (s_usage s) -> (no_faults md = true -> same_usage (s_usage s) u) /\ usage_within n (s_usage s) u) ->
  rolled_back n id s s'.
Proof. intros (Hf & Hq & Hb & _) <- Hu. by split_and!. Qed.

(** What [reserve_and_queue] leaves. *)
Definition queue_outcome (s : session) (id : text) (written : Z) (st0 st' : state) (r : option smtp_error) : Prop :=
  match r with
  | Some _ => rolled_back (Z.of_nat (length (sb_rcpts s))) id st0 st'
  | None =>
      fixed_parts st' = fixed_parts st0 /\ s_blobs st' = s_blobs st0 /\
      exists m t, s_queue st' = s_queue st0 ++ [enqueued m] /\
        ID m = id /\ DomainID m = sb_domainID s /\ EnvelopeFrom m = sb_from s /\ EnvelopeTo m = sb_rcpts s /\
        SizeBytes m = written /\ MDirection m = DirectionOutbound /\
        let n := Z.of_nat (length (sb_rcpts s)) in
        s_usage st' = <[(sb_domainID s, usageMonth t) := SentThisMonth (sb_domainID s) t (s_usage st0) + n]> (s_usage st0) /\
        forall l, sb_sendLimit s = Some l -> SentThisMonth (sb_domainID s) t (s_usage st0) + n <= l
  end.

Lemma wp_reserve_and_queue s u id subject n st0 Q :
  valid_blob_id id = true ->
  (forall r st', queue_outcome s id n st0 st' r -> Q r st') ->
  wp md (reserve_and_queue srv s u id subject n) Q st0.
Proof.
  intros Hid HQ. unfold reserve_and_queue. apply wp_bind, wp_now. intros now _. cbv zeta.
  set (st1 := set_s_now now st0).
  assert (Hstop : forall e, wp md (blob_Delete id ;;; ret (Some e)) Q st1).
  { intros e. apply (sub_wp_drop_body (Z.of_nat (length (sb_rcpts s))) id _ st0); [done..|lia|]. intros r s' Hrb Hu. apply wp_ret, HQ. cbn.
    eapply rolled_back_usage; [done|exact Hu|]. intros _. split; [done|]. apply usage_within_same; [lia|done]. }
  apply wp_bind. unfold on_usage at 1. apply wp_statement; [intros e _; apply Hstop|].
  cbn [s_domains s_usage set_s_now st1]. destruct (ReserveSends _ _ _ _ _ _) as [r u1] eqn:Eres.
  pose proof Eres as Eres'. unfold ReserveSends in Eres.
  set (n0 := Z.of_nat (length (sb_rcpts s))) in *.
  destruct (match sb_sendLimit s with Some l => _ | None => false end) eqn:Elim.
  { injection Eres as <- <-. exact (Hstop _). }
  destruct (negb _); [injection Eres as <- <-; exact (Hstop _)|]. injection Eres as <- Hu1.
  set (before := SentThisMonth (sb_domainID s) now (s_usage st0)) in *.
  assert (Hrelease : forall e st2, fixed_parts st2 = fixed_parts st0 -> s_queue st2 = s_queue st0 ->
    s_blobs st2 = s_blobs st0 -> s_usage st2 = u1 ->
    wp md (blob_Delete id ;;; on_usage (fun _ => ReleaseSends (sb_domainID s) n0 now) ;;; ret (Some e)) Q st2).
  { intros e st2 Hf Hq Hb Hu. apply (sub_wp_drop_body n0 id _ st0); [done..|unfold n0; lia|]. intros r s' Hrb Hu'.
    apply wp_bind. unfold on_usage. apply wp_statement.
    - intros e' Hfault. apply wp_ret, HQ. cbn. eapply rolled_back_usage; [exact Hrb|exact Hu'|]. intros _. split; [congruence|].
      rewrite Hu. eapply reserve_within; [unfold n0; lia|exact Eres'].
    - assert (Hsame : usage_nonneg (s_usage st0) -> same_usage (s_usage st0) (snd (ReleaseSends (sb_domainID s) n0 now (s_usage s')))).
      { intros Hnn. rewrite Hu', Hu. eapply reserve_release; [done|unfold n0; lia|exact Eres']. }
      destruct (ReleaseSends _ _ _ _) as [r' u2]. apply wp_ret, HQ. cbn.
      eapply rolled_back_usage; [exact Hrb|reflexivity|]. intros Hnn. specialize (Hsame Hnn).
      split; [by intros _|]. apply usage_within_same; [unfold n0; lia|done]. }
  apply wp_bind, wp_statement; [intros e _; by apply Hrelease|]. cbn [s_domains s_queue set_s_usage set_s_now st1].
  set (m := submission_message srv s id subject n now).
  unfold Enqueue. destruct (existsb (by_id (ID m)) (s_queue st0)) eqn:Ex; cbn -[enqueued]; [by apply Hrelease|].
  destruct (existsb _ (dt_domains (s_domains st0))) eqn:Ed; cbn -[enqueued]; [|by apply Hrelease].
  skip. apply wp_ret, HQ. apply sub_core_eq in Hcore as (Eq & Edm & Eu & Eb & Ea). cbn.
  unfold fixed_parts. rewrite Eq, Edm, Eu, Eb, Ea. split_and!; [done|done|].
  exists m, now. split_and!; try done. intros l Hl. rewrite Hl in Elim. bools. lia.
Qed.

(** ** [Data] *)

Definition data_outcome (s : session) (r : reader) (st0 st' : state) (res : option smtp_error) : Prop :=
  match res with
  | Some _ =>
      fixed_parts st' = fixed_parts st0 /\ s_queue st' = s_queue st0 /\
      (usage_nonneg (s_usage st0) -> (no_faults md = true -> same_usage (s_usage st0) (s_usage st')) /\
         usage_within (Z.of_nat (length (sb_rcpts s))) (s_usage st0) (s_usage st')) /\
      ((forall i, id_ok md i -> s_blobs st0 !! i = None) ->
       at_most_one_left (s_blobs st0) (s_blobs st') /\ (no_blob_faults md = true -> s_blobs st' = s_blobs st0))
  | None => exists id now data err rem m t,
      ReadAll r = (data, err, rem) /\ ends_source err = true /\ s_blobs st0 !! id = None /\
      s_blobs st' = <[id := trace srv s id now ++ data]> (s_blobs st0) /\
      fixed_parts st' = fixed_parts st0 /\ s_queue st' = s_queue st0 ++ [enqueued m] /\
      ID m = id /\ DomainID m = sb_domainID s /\ EnvelopeFrom m = sb_from s /\ EnvelopeTo m = sb_rcpts s /\
      SizeBytes m = Z.of_nat (length (trace srv s id now ++ data)) /\ MDirection m = DirectionOutbound /\
      (0 < sub_MaxMessageBytes srv -> Z.of_nat (length data) <= sub_MaxMessageBytes srv) /\
      (CountReceived (take peekLimit data) < MaxHops)%nat /\
      let n := Z.of_nat (length (sb_rcpts s)) in
      s_usage st' = <[(sb_domainID s, usageMonth t) := SentThisMonth (sb_domainID s) t (s_usage st0) + n]> (s_usage st0) /\
      forall l, sb_sendLimit s = Some l -> SentThisMonth (sb_domainID s) t (s_usage st0) + n <= l
  end.

Lemma sub_wp_Data r s st0 Q :
  (forall res st', data_outcome s r st0 st' res ->
     (res = None -> sb_domainID s <> 0 /\ sb_rcpts s <> []) -> Q (s, res) st') ->
  wp md (Data srv r s) Q st0.
Proof.
  intros HQ. unfold Data.
  assert (Hsame : forall e st', core st' = core st0 -> Q (s, Some e) st').
  { intros e st' (Eq & Ed & Eu & Eb & Ea)%sub_core_eq. apply HQ; [|done]. unfold data_outcome, fixed_parts.
    rewrite Eq, Ed, Ea, Eb, Eu. split_and!; [done|done| |by unfold at_most_one_left; auto].
    intros _. split; [done|]. apply usage_within_same; [lia|done]. }
  destruct (sb_user s) as [u|]; [|by apply wp_ret, Hsame].
  destruct (_ || _) eqn:Ercpt; [by apply wp_ret, Hsame|].
  apply wp_bind, wp_new_id. intros [id|] Hi; [|by apply wp_ret, Hsame].
  specialize (Hi id eq_refl). destruct (ReadAll r) as [[data err] rem] eqn:Er. cbv zeta.
  destruct (MaxHops <=? CountReceived _)%nat eqn:Eh; [by apply wp_ret, Hsame|].
  apply Nat.leb_gt in Eh. apply wp_bind, wp_now. intros now _.
  set (tr := trace srv s id now). set (st1 := set_s_now now st0).
  assert (Hput : forall e, wp md (blob_Delete id ;;; ret (s, Some e)) Q st1).
  { intros e. apply wp_bind, wp_blob_Delete; [intros; by apply wp_ret, Hsame|].
    intros _. apply wp_ret, HQ; [|done]. split_and!; [done|done| |].
    - intros _. split; [done|]. apply usage_within_same; [lia|done].
    - intros Hfresh; specialize (Hfresh id Hi). unfold at_most_one_left. cbn. rewrite delete_id by done. auto. }
  apply wp_bind, wp_blob_Put; [intros e; destruct (contains _ _); apply Hput|].
  intros full err' rem' Hnone Hread Hend Hvalid Hlim. cbn [ReadAll] in Hread. rewrite Er in Hread.
  apply pair_eq in Hread as [Hread ->]. apply pair_eq in Hread as [<- <-]. apply wp_bind, wp_reserve_and_queue; [done|].
  intros res st2 Ho. apply wp_ret, HQ; [|by intros _; bools]. destruct res as [e|]; cbn in Ho |- *.
  - destruct Ho as (Hc & Hq & Hb & Hu). split_and!; [done|done|done|]. intros _. split.
    + change (s_blobs st0 !! id = None) in Hnone. destruct Hb as [->|[_ ->]]; cbn; [left; by apply delete_insert_id|right].
      by exists id, (tr ++ data).
    + intros Hn. destruct Hb as [->|[Hn' _]]; [|congruence]. cbn. by rewrite delete_insert_id.
  - destruct Ho as (Hc & Hb & m & t & Hq & Hid & Hdid & Hfrom & Hto & Hsize & Hdir & Hu & Hlimit).
    exists id, now, data, err, rem', m, t. split_and!; try done.
    intros Hpos. rewrite length_app in Hlim. lia.
Qed.

(** ** A connection, from its first command *)

(** A row an authenticated client may submit. *)
Definition row_submitted (inputs : list input) (st : state) (r : qrow) : Prop :=
  MDirection (q_msg r) = DirectionOutbound /\ EnvelopeTo (q_msg r) <> [] /\
  Forall (fun to => domainOf to <> []) (EnvelopeTo (q_msg r)) /\
  exists u limit, authorised inputs st u /\ sender_ok st u (EnvelopeFrom (q_msg r)) (DomainID (q_msg r)) limit.

Lemma row_submitted_fixed inputs st st' r :
  fixed_parts st' = fixed_parts st -> row_submitted inputs st r -> row_submitted inputs st' r.
Proof.
  intros E (Hd & Hne & Hf & u & l & Ha & Hs). split_and!; [done..|]. exists u, l.
  split; [by eapply authorised_fixed|by eapply sender_ok_fixed].
Qed.

Lemma sub_wp_run_session all inputs s st0 Q :
  (forall i, i ∈ inputs -> i ∈ all) -> session_ok all st0 s ->
  (forall s' st', fixed_parts st' = fixed_parts st0 ->
     (forall r, r ∈ s_queue st' -> r ∈ s_queue st0 \/ row_submitted all st0 r) -> Q s' st') ->
  wp md (run_session srv inputs s) Q st0.
Proof.
  revert s st0. induction inputs as [|i inputs IH]; intros s st0 Hall Hok HQ; cbn [run_session].
  { apply wp_ret, HQ; auto. }
  assert (Hnext : forall s' res st', fixed_parts st' = fixed_parts st0 -> session_ok all st0 s' ->
    (forall r, r ∈ s_queue st' -> r ∈ s_queue st0 \/ row_submitted all st0 r) ->
    wp md (run_session srv inputs (fst (s', res : option smtp_error))) Q st').
  { intros s' res st' Hc Hs' Hrows. apply IH; cbn.
    - intros j Hj. apply Hall. by apply list_elem_of_further.
    - by eapply session_ok_fixed.
    - intros s2 st2 Hc2 Hrows2. apply HQ; [congruence|]. intros r Hr.
      destruct (Hrows2 r Hr) as [?|Hsub]; [auto|right]. by eapply row_submitted_fixed. }
  assert (Hcore : forall s' res st', core st' = core st0 -> session_ok all st0 s' ->
    wp md (run_session srv inputs (fst (s', res : option smtp_error))) Q st').
  { intros s' res st' Hc Hs'. apply Hnext; [by apply core_fixed|done|].
    apply sub_core_eq in Hc as (-> & _). auto. }
  assert (Hin : i ∈ all) by (apply Hall, list_elem_of_here).
  apply wp_bind. destruct i as [mech identity username password|dr disk from|to|r|]; cbn [step].
  - by eapply wp_Auth.
  - by eapply sub_wp_Mail.
  - by eapply sub_wp_Rcpt.
  - apply sub_wp_Data. intros res st' Ho Hne. destruct res as [e|]; cbn in Ho.
    + destruct Ho as (Hc & Hq & _). apply Hnext; [done|done|]. rewrite Hq. auto.
    + destruct Ho as (id & now & data & err & rem & m & t & _ & _ & _ & _ & Hc & Hq & _ & Hdid & Hfrom & Hto & _ & Hdir & _).
      apply Hnext; [done|done|]. rewrite Hq. intros x [?| ->%list_elem_of_singleton]%elem_of_app; [auto|right].
      destruct (Hne eq_refl) as [Hd Hr]. destruct Hok as (_ & Hs & Hf). destruct (Hs Hd) as (u & Ha & Hsend).
      unfold row_submitted. cbn [q_msg enqueued MDirection EnvelopeTo EnvelopeFrom DomainID].
      rewrite Hdid, Hfrom, Hto. split_and!; [done..|]. by exists u, (sb_sendLimit s).
  - apply wp_ret, Hcore; [done|]. destruct Hok as (Ha & _ & _). split_and!; cbn; [done|done|constructor].
Qed.
End submission.

(** ** Properties *)

(** C2: nobody submits mail without an account.  Whatever commands a client sends, in
    whatever order, every row a connection adds to the queue is outbound, has recipients
    that all name a domain, and carries a sender that some enabled account may use, of an
    enabled configured domain, an account whose password the client gave on this
    connection (with no other identity than its own). *)
Theorem submission_authorised `{SmtpLib} `{PasswordCrypto} srv inputs remote c s e :
  let '(_, w') := run_session srv inputs (Sub c remote None [] [] 0 None) (World s e) in
  forall r, r ∈ s_queue (st w') -> r ∈ s_queue s \/ row_submitted inputs s r.
Proof.
  assert (Hwp : wp any (run_session srv inputs (Sub c remote None [] [] 0 None))
    (fun _ s' => forall r, r ∈ s_queue s' -> r ∈ s_queue s \/ row_submitted inputs s r) s).
  { apply sub_wp_run_session with (all := inputs); [done|by split_and!|]. auto. }
  pose proof (wp_run any _ _ _ _ (allows_any e) Hwp) as Hrun. by destruct (run_session _ _ _ _).
Qed.

(** C5: a submission is taken whole or not at all, and the monthly limit is kept.  Accepted,
    it is one outbound row and one body, the trace field followed by every byte the client sent
    up to the end of its data or to where its connection broke off, and the domain's usage of one
    month has grown by exactly the number of recipients, to at most the limit.  Refused, the queue
    is as it was whatever fails; every domain's usage is what it was, reservations given back,
    unless a statement of the database fails, which leaves at most this message's recipients
    reserved; and the spool is as it was, unless a call of the spool fails, which leaves at most
    the one body that was being taken. *)
Theorem submit_all_or_nothing `{SmtpLib} `{PasswordCrypto} srv r s st0 e :
  Forall (fun i => match i with Some i => s_blobs st0 !! i = None | None => True end) (e_ids e) ->
  usage_nonneg (s_usage st0) ->
  let '((_, res), w') := Data srv r s (World st0 e) in
  match res with
  | Some _ =>
      s_queue (st w') = s_queue st0 /\
      at_most_one_left (s_blobs st0) (s_blobs (st w')) /\ (e_blobs e = [] -> s_blobs (st w') = s_blobs st0) /\
      (forall d t, SentThisMonth d t (s_usage st0) <= SentThisMonth d t (s_usage (st w'))
                   <= SentThisMonth d t (s_usage st0) + Z.of_nat (length (sb_rcpts s))) /\
      (e_faults e = [] -> forall d t, SentThisMonth d t (s_usage (st w')) = SentThisMonth d t (s_usage st0))
  | None => exists id now data err rem m t,
      ReadAll r = (data, err, rem) /\ (err = None \/ exists msg, err = Some (ESentinel ErrUnexpectedEOF msg)) /\
      s_blobs st0 !! id = None /\
      s_blobs (st w') = <[id := trace srv s id now ++ data]> (s_blobs st0) /\
      s_queue (st w') = (s_queue st0 ++ [enqueued m]) /\ ID m = id /\ DomainID m = sb_domainID s /\
      EnvelopeFrom m = sb_from s /\ EnvelopeTo m = sb_rcpts s /\ MDirection m = DirectionOutbound /\
      (0 < sub_MaxMessageBytes srv -> Z.of_nat (length data) <= sub_MaxMessageBytes srv) /\
      (CountReceived (take peekLimit data) < MaxHops)%nat /\
      SentThisMonth (sb_domainID s) t (s_usage (st w'))
        = SentThisMonth (sb_domainID s) t (s_usage st0) + Z.of_nat (length (sb_rcpts s)) /\
      forall l, sb_sendLimit s = Some l -> SentThisMonth (sb_domainID s) t (s_usage (st w')) <= l
  end.
Proof.
  intros Hids Hnn.
  set (md := Assume (bool_decide (e_faults e = [])) (bool_decide (e_blobs e = [])) false (fun i => s_blobs st0 !! i = None) (fun _ => True)).
  assert (Ha : allows md e) by (split_and!; [apply bool_decide_eq_true|apply bool_decide_eq_true|done|done|by apply all_broken_ok]).
  assert (Hwp : wp md (Data srv r s) (fun x st' => data_outcome md srv s r st0 st' (snd x)) st0).
  { by apply sub_wp_Data. }
  pose proof (wp_run md _ _ _ _ Ha Hwp) as Hrun. destruct (Data srv r s (World st0 e)) as [[s' res] w']. cbn in Hrun.
  destruct res as [err|].
  - destruct Hrun as (_ & Hq & Hu & Hb). destruct Hb as [Hleft Hquiet]; [done|]. destruct (Hu Hnn) as [Hsame Hwithin].
    split_and!; [done|done| | |].
    + intros E. apply Hquiet. by apply bool_decide_eq_true.
    + intros d t. apply (Hwithin (d, usageMonth t)).
    + intros E d t. by apply (Hsame (bool_decide_eq_true_2 _ E) (d, usageMonth t)).
  - destruct Hrun as (id & now & data & err & rem & m & t & ? & Hend%ends_source_true & ? & ? & _ & ? & ? & ? & ? & ? & _ & ? & ? & ? & Hu & Hl).
    assert (Hsent : SentThisMonth (sb_domainID s) t (s_usage (st w'))
      = SentThisMonth (sb_domainID s) t (s_usage st0) + Z.of_nat (length (sb_rcpts s))).
    { unfold SentThisMonth at 1. by rewrite Hu, lookup_insert_eq. }
    exists id, now, data, err, rem, m, t. split_and!; try done. intros l El. rewrite Hsent. by apply Hl.
Qed.

(** *** Witnesses *)

#[local] Instance sample_sub_smtp : SmtpLib :=
  {| smtp_error_text := Message; ErrAuthRequired := SMTPError 502 (Enh 5 7 0) [];
     ErrAuthFailed := SMTPError 535 (Enh 5 7 8) []; ErrAuthUnsupported := SMTPError 504 (Enh 5 7 4) [] |}.
#[local] Existing Instance sample_crypto.

Definition sample_submission : SubmissionServer :=
  {| sub_MaxMessageBytes := 1000;
     sub_queue := {| MaxMessages := 10; MaxBytes := 0; Retention := 120 * hour; Workers := 2; RetryBase := minute;
       RetryMax := hour; DeliveryTimeout := minute; Bounces := []; AllowPrivateDestinations := false |};
     sub_Domain := "backup.example.net"%string; sub_zone := 0; sub_notify := true; sub_minDisk := 0 |}.

Definition sample_hash : text :=
  match HashPassword (Ok (T "0123456789abcdef")) "correct horse"%string with Ok h => h | Err _ => [] end.

Definition sample_submission_state : state :=
  set_s_domains (DomainTables [Domain 1 "example.com"%string "mail.example.com"%string 25 "none"%string None (Some 2) 0 true 0 0] ∅ 2)
    (set_s_smtp_users
      (SMTPUsers [{| SID := 1; Username := "app"%string; SPasswordHash := sample_hash;
                     SAllowedDomains := [T "example.com"]; SEnabled := true; SCreatedAt := 0; LastUsedAt := None |}] 2)
      blank).

Definition sample_submission_env : env := set_e_ids [Some (T "0a1b"); Some (T "0a1c")] quiet.

Definition sample_session : list input :=
  [InAuth "PLAIN"%string [] "app"%string "wrong horse"%string; InMail false None "a@example.com"%string;
   InAuth "PLAIN"%string [] "app"%string "correct horse"%string; InMail false None "a@example.com"%string;
   InRcpt "x@elsewhere.net"%string; InRcpt "y@elsewhere.net"%string; InRcpt "z@elsewhere.net"%string;
   InData [inl ("Subject: x" ++ CRLF ++ CRLF ++ "hello" ++ CRLF)]].

(** The sample session queues one message for the two recipients the limit leaves room for. *)
Example submission_ex :
  let '(_, w') := run_session sample_submission sample_session (Sub None "192.0.2.7:4711"%string None [] [] 0 None)
                    (World sample_submission_state sample_submission_env) in
  map (fun r => EnvelopeTo (q_msg r)) (s_queue (st w')) = [map T ["x@elsewhere.net"; "y@elsewhere.net"]] /\
  SentThisMonth 1 0 (s_usage (st w')) = 2.
Proof. vm_compute. auto. Qed.

Lemma submit_all_or_nothing_witness :
  let u := {| SID := 1; Username := "app"%string; SPasswordHash := sample_hash;
              SAllowedDomains := [T "example.com"]; SEnabled := true; SCreatedAt := 0; LastUsedAt := None |} in
  let s := Sub None "192.0.2.7:4711"%string (Some u) "a@example.com"%string [T "x@elsewhere.net"] 1 (Some 2) in
  exists w' id now, Data sample_submission (of_text "hello"%string) s (World sample_submission_state sample_submission_env) = ((s, None), w') /\
    s_blobs (st w') = <[id := trace sample_submission s id now ++ T "hello"]> ∅ /\
    exists t, SentThisMonth 1 t (s_usage (st w')) = 1.
Proof.
  intros u s.
  assert (Hids : Forall (fun i => match i with Some i => s_blobs sample_submission_state !! i = None | None => True end)
            (e_ids sample_submission_env)) by (repeat constructor).
  assert (Hnn : usage_nonneg (s_usage sample_submission_state)) by (intros key; cbn -[lookup]; rewrite lookup_empty; done).
  pose proof (submit_all_or_nothing sample_submission (of_text "hello"%string) s sample_submission_state sample_submission_env Hids Hnn) as H.
  destruct (Data _ _ _ _) as [[s' res] w'] eqn:E.
  assert (Hs : (s', res) = (s, None)).
  { change (s', res) with (fst (s', res, w')). rewrite <- E. vm_compute. reflexivity. }
  injection Hs as -> ->. destruct H as (id & now & data & err & rem & m & t & Hread & _ & _ & Hb & _ & _ & _ & _ & _ & _ & _ & _ & Hsent & _).
  exists w', id, now. split; [done|]. apply ReadAll_of_text in Hread as [-> _]. split; [exact Hb|].
  exists t. etransitivity; [exact Hsent|]. reflexivity.
Defined.
